(* ===== verification/_CoqProject ===== *)
-Q . S2P
Prelude.v
Riscv.v
CString.v
Kalloc.v
Vm.v
VmSpec.v
Uvm.v
Uspace.v
Ucopy.v
Ufree.v
UvmProps.v
Spinlock.v
Proc.v
Sched.v
ProcSpec.v
SchedSpec.v
Headers.v
Codec.v
Sleeplock.v
Ring.v
Plic.v
Pipe.v
Uart.v
Printf.v
Console.v
Bio.v
Virtio.v
Dlist.v
BioSpec.v
Bcache.v
Example.v
SleepSpec.v
PipeSpec.v
ConsoleSpec.v
Log.v
Blocks.v
CacheProps.v
LogSpec.v
Crash.v
LogOps.v
Fs.v
FsTx.v
Balloc.v
Bmap.v
Content.v
Dinode.v
Writei.v
FileProps.v
File.v
FileWrite.v
FsExample.v
FsProps.v
Mkfs.v
MkfsProps.v
Args.v
Exec.v
Sysfile.v
Syscall.v
Trap.v
TrapProps.v
Boot.v
Asm.v
AsmProps.v
Grep.v
Ulib.v
Uprintf.v
Uprogs.v
UprogsSpec.v
Sh.v
ShProps.v
ShTree.v
ShRun.v
Umalloc.v
UmallocProps.v
UmallocSpec.v
