(* ===== verification/Prelude.v ===== *)
(** * A verification development of the modified xv6-riscv kernel

    The program is a small multiprocessor Unix kernel in C for RISC-V: xv6, extended with
    the system calls trace, sigalarm, sigreturn, waitx, setPriority and settickets and with
    a choice of five schedulers.  This library models the C and assembly code of the kernel,
    of mkfs and of the user programs, function by function, as executable definitions, and
    proves what makes its parts correct.

    ** The parts and how they fit together

    Physical pages (kernel/kalloc.c) are the ground: page tables and user memory
    (kernel/vm.c), trapframes, pipes and the disk queue are made of them.  Spinlocks
    (kernel/spinlock.c) protect everything; processes (kernel/proc.c) sleep and wake up
    under them, and the scheduler switches between processes and CPUs.  The console, the
    serial port and printf, the interrupt controller and the disk driver are the devices.
    The file system is a tower: disk driver, buffer cache (kernel/bio.c), log
    (kernel/log.c), inodes and directories (kernel/fs.c), open files and pipes
    (kernel/file.c, kernel/pipe.c), system calls (kernel/sysfile.c, kernel/exec.c).  Traps
    (kernel/trap.c) lead from user programs to the system call table (kernel/syscall.c),
    and kernel/start.c and kernel/main.c bring everything up.  Below the C code, assembly
    saves and restores registers (kernel/trampoline.S, kernelvec.S, swtch.S, entry.S).
    mkfs/mkfs.c makes the disk the kernel mounts.  Above the kernel, the user library
    (user/ulib.c, printf.c, umalloc.c) carries init, the shell and the other programs.

    ** Conventions

    A C function is a computation [M S A] of this file: it maps a state to [Ok] with a
    result and the new state, or to [Err]: a panic, an access outside an array or through a
    null pointer ([Fault]), a wait that only another thread can end ([Block]), or the bound
    of a loop ([NoFuel]).  The theorems show [Ok] results, so a bound is never the reason
    for which a property holds; each bound is computed from the data the loop runs over and
    is stated where the loop is defined.  Machine integers are in [Z] with their
    wrap-around written out ([u8] to [u64], [i16], [i32]).  Pointers into tables are
    indices, null is [None] or 0, and memory is a map from addresses to bytes.

    A function that gives up the CPU is cut at the switch to the scheduler: the part
    before it returns [Done] or [Parked] with the locals that live across the switch, and
    a [_resume] or [_exit] function goes on from there.  The state of the kernel is the
    record [kstate] of Proc.v (hart, CPUs and locks; RAM; process table; scheduler
    queues), whose last field is the record [files] of Headers.v (disk, buffers, log,
    inodes, open files, pipes, console, serial port, disk queue, device registers).

    What is outside the source is a parameter: the linker's addresses, the answers of
    device registers and the pace of the serial port (class [Board]), the time.  The cache
    is written against the interface [DiskOps] of the disk driver, the process code
    against the interface [FileOps] of the file layer, which Sysfile.v implements.

    ** Files

    - Prelude: the monad, its notations, rules ([runs]) and tactics, records, machine
      integers, list lemmas.
    - Riscv: kernel/riscv.h, memlayout.h, param.h.  CString: kernel/string.c.
    - Kalloc: kernel/kalloc.c.  Vm: kernel/vm.c; VmSpec, Uvm, Uspace, Ucopy and Ufree
      are its invariants and lemmas, UvmProps its properties.
    - Spinlock: kernel/spinlock.c; its Module Smp is the interleaving of CPUs.
    - Proc: kernel/proc.h, kernel/proc.c; Sched: its scheduler(), one Section per policy.
      ProcSpec and SchedSpec are their theory, SleepSpec is sleep and wakeup.
    - Headers: the structs of the file layer; Codec: reading and writing fields of blocks.
    - Sleeplock: kernel/sleeplock.c.  Ring: circular buffers.  Plic: kernel/plic.c.
    - Pipe: kernel/pipe.c, PipeSpec.  Uart: kernel/uart.c; Printf: kernel/printf.c;
      Console: kernel/console.c, ConsoleSpec.
    - Bio: kernel/bio.c; Dlist, BioSpec and Bcache are its theory, CacheProps its
      properties.  Virtio: kernel/virtio_disk.c.
    - Log: kernel/log.c; Blocks is a logic of triples over block contents, LogSpec the
      writes of a commit, Crash what a crash can leave, LogOps the transactions.
    - Fs: kernel/fs.c.  FsTx puts its operations inside a transaction; Balloc, Bmap, Content,
      Dinode and Writei are the theory of block allocation, of the map from file offsets to
      blocks, of file contents, of disk inodes and of writing; FileProps and FileWrite carry it
      to open files, FsProps has the properties and FsExample a disk they are applied to.
    - Mkfs: mkfs/mkfs.c; MkfsProps: the image it builds.
    - File: kernel/file.c.  Args and Syscall: kernel/syscall.c,
      kernel/sysproc.c.  Exec: kernel/exec.c.  Sysfile: kernel/sysfile.c.
    - Trap: kernel/trap.c; TrapProps: alarms and the system call tables.
    - Boot: kernel/start.c, kernel/main.c.  Asm: the instructions of the assembly files on a
      machine with registers and translated memory; AsmProps: what they save and restore.
    - Ulib: user/ulib.c.  Uprintf: user/printf.c.  Umalloc: user/umalloc.c; UmallocProps is
      the theory of the circular free list, UmallocSpec its properties.
    - Sh: the parser of user/sh.c; ShProps: it ends and cuts words safely; ShTree: its grammar.
      ShRun: runcmd and main of user/sh.c as trees of system calls, and what they do with files.
    - Grep: user/grep.c.  Uprogs: the other programs under user/ as interaction trees over the
      system calls; UprogsSpec runs them against a world of files or of child processes.
    - Example: the concrete kernel states the theorems are instantiated on.

    ** What the theorems show

    - Memory: the allocator hands out every page after the kernel image once; mappages,
      uvmalloc, uvmdealloc, uvmcopy and uvmfree do what they say, undo what they began when
      memory runs out, and lose no page; copyin, copyout and copyinstr read and write
      exactly the user's bytes and refuse everything else.
    - Locks and sleeping: mutual exclusion in every interleaving, the nesting of interrupt
      disabling, and that a wakeup cannot be lost.
    - Schedulers: which process each policy picks, and where FCFS, LBS and MLFQ do not do
      what they are meant to.
    - Disk: the cache is transparent and evicts the least recently used buffer; a commit is
      atomic under a crash at any write, recovery can be interrupted and repeated, and the
      log records each block once.
    - Devices and pipes: the console is a line editor over its circular buffer, pipes are
      bounded queues, printed numbers read back as the number.
    - Files: a write is on the disk when it returns, inside its log reservation, and changes
      no other file; what was written is what is read; blocks are allocated zeroed and once.
    - mkfs: the image it writes is a file system with exactly the files it was given.
    - Assembly: a trap from user space, a trap in the kernel, a timer interrupt and a context
      switch each give back the registers they took.
    - The shell: parsing ends on every line, gives back the command a line spells, and writes
      its NULs only behind words; every process of a command runs, and every wait is made,
      with exactly the files the command calls for open.
    - malloc and free: the heap stays a circle of disjoint blocks in address order with no two free
      neighbours left unmerged, and both functions end.
    - User programs: cat, wc, echo and init do what they are for however their input arrives.
    - Traps: an alarm saves what sigreturn restores; where the system call tables overrun.
    - grep: the matcher decides the meaning of its patterns and prints the matching lines.

    ** Bounds

    A loop that C leaves unbounded takes a number of steps: the parser [parse_fuel], four steps
    for each byte of the line, which parsecmd_ends proves enough for every line; malloc two
    rounds of the free list and one step, free one round, which their theorems prove enough;
    printint 32 digits, as many as an unsigned int has in base 2; user programs any number of
    steps, and a theorem gives a number for which the run is complete.

    ** Not modelled, and why

    - Weak memory, the TLB, and interleaving inside critical sections: a lock's critical section
      is one step for the others, which mutual exclusion justifies.
    - Variable argument lists, which C code walks through memory: printf takes its arguments as
      a list.
    - The linker scripts and the generated system call stubs (usys.pl): addresses are
      parameters, and a call from a user program is an event of its tree.
    - kernel/ramdisk.c, which the Makefile does not link.
    - The test programs (usertests.c, grind.c, stressfs.c, forktest.c, alarmtest.c,
      schedulertest.c): they check the kernel from outside; the theorems take their place. *)

From stdpp Require Export base numbers list gmap strings.
From Stdlib Require Export ZArith Lia.
#[global] Open Scope Z_scope.

(** ** Results, errors and the state monad *)

(** Why a kernel function may fail to return to its caller. *)
Inductive err :=
  | Panic (msg : string)  (* panic(msg): prints and loops for ever *)
  | Fault                 (* null dereference or access outside an array *)
  | Block                 (* spins or sleeps until another thread acts *)
  | NoFuel.               (* the bound on a loop was reached *)

Inductive result (S A : Type) :=
  | Ok (a : A) (s : S)
  | Err (e : err).
Arguments Ok {S A} a s.
Arguments Err {S A} e.

(** A computation over the state [S]. *)
Definition M (S A : Type) : Type := S -> result S A.

Definition mret {S A} (a : A) : M S A := fun s => Ok a s.
Definition mfail {S A} (e : err) : M S A := fun _ => Err e.
Definition panic {S A} (msg : string) : M S A := mfail (Panic msg).
Definition mbind {S A B} (c : M S A) (k : A -> M S B) : M S B :=
  fun s => match c s with
           | Ok a s' => k a s'
           | Err e => Err e
           end.
Definition mget {S} : M S S := fun s => Ok s s.
Definition mput {S} (s : S) : M S unit := fun _ => Ok tt s.
Definition gets {S A} (f : S -> A) : M S A := fun s => Ok (f s) s.
Definition modify {S} (f : S -> S) : M S unit := fun s => Ok tt (f s).
Definition mlookup {S A} (o : option A) : M S A :=
  match o with Some a => mret a | None => mfail Fault end.

(** Run a computation on a part [T] of the state [S]. *)
Definition zoom {S T A} (prj : S -> T) (upd : T -> S -> S) (c : M T A) : M S A :=
  fun s => match c (prj s) with
           | Ok a t => Ok a (upd t s)
           | Err e => Err e
           end.

Declare Scope kmonad_scope.
Delimit Scope kmonad_scope with kmonad.
Notation "x <- c ;; k" := (mbind c (fun x => k))
  (at level 81, c at level 80, right associativity) : kmonad_scope.
Notation "' p <- c ;; k" := (mbind c (fun x => match x with p => k end))
  (at level 81, p pattern, c at level 80, right associativity) : kmonad_scope.
Notation "c ;;; k" := (mbind c (fun _ => k))
  (at level 81, right associativity) : kmonad_scope.
#[global] Open Scope kmonad_scope.

(** [mwhen b c] is the C statement [if(b) c]. *)
Definition mwhen {S} (b : bool) (c : M S unit) : M S unit :=
  if b then c else mret tt.

(** [for(i = 0; i < n; i++) body(i)] *)
Fixpoint mfor_from {S} (i : nat) (n : nat) (body : nat -> M S unit) : M S unit :=
  match n with
  | O => mret tt
  | Datatypes.S n' => body i ;;; mfor_from (Datatypes.S i) n' body
  end.
Definition mfor {S} (n : nat) (body : nat -> M S unit) : M S unit := mfor_from 0 n body.

(** ** Total-correctness triples *)

(** [runs c s Q]: [c] started in [s] returns, and [Q] holds of what it returns. *)
Definition runs {S A} (c : M S A) (s : S) (Q : A -> S -> Prop) : Prop :=
  match c s with
  | Ok a s' => Q a s'
  | Err _ => False
  end.

(** ** Record update *)

(** [Eta R] is the record [R] rebuilt from its own fields. *)
Class Eta (R : Type) := eta : R -> R.
Class Setter {R T : Type} (proj : R -> T) := MkSetter { setf : (T -> T) -> R -> R }.
Arguments MkSetter {R T} proj setf.
Arguments setf {R T} proj {_} f r /.

Ltac build_setter :=
  lazymatch goal with
  | |- @Setter ?R ?T ?proj =>
      let e := constr:(_ : Eta R) in
      let e := eval hnf in e in
      match eval pattern proj in e with
      | ?f proj =>
          let g := eval cbv beta in (fun (upd : T -> T) => f (fun r => upd (proj r))) in
          (* the field really is the one that changes *)
          let _ := constr:(fun (r : R) (v : T) => @eq_refl T v : proj (g (fun _ => v) r) = v) in
          exact (MkSetter proj g)
      end
  end.
#[export] Hint Mode Eta + : typeclass_instances.
#[export] Hint Mode Setter + + + : typeclass_instances.
#[export] Hint Extern 1 (Setter _) => build_setter : typeclass_instances.

Declare Scope record_scope.
Notation "r <| f := v |>" := (setf f (fun _ => v) r)
  (at level 10, f constr at level 9, left associativity,
   format "r <| f  :=  v |>") : record_scope.
Notation "r <| f ::= g |>" := (setf f g r)
  (at level 10, f constr at level 9, left associativity,
   format "r <| f  ::=  g |>") : record_scope.
#[global] Open Scope record_scope.

(** ** Machine integers *)

Definition u8 (x : Z) : Z := x mod 2 ^ 8.
Definition u16 (x : Z) : Z := x mod 2 ^ 16.
Definition u32 (x : Z) : Z := x mod 2 ^ 32.
Definition u64 (x : Z) : Z := x mod 2 ^ 64.
(** The value of the [w]-bit two's complement integer with the bits of [x]. *)
Definition sint (w x : Z) : Z :=
  let m := x mod 2 ^ w in if m <? 2 ^ (w - 1) then m else m - 2 ^ w.
Definition i16 (x : Z) : Z := sint 16 x.
Definition i32 (x : Z) : Z := sint 32 x.

(** C's booleans. *)
Definition b2z (b : bool) : Z := if b then 1 else 0.
Definition z2b (x : Z) : bool := negb (x =? 0).

(** ** Strings *)

(** The bytes of a string constant. *)
Definition bytes_of (s : string) : list Z := (fun a => Z.of_nat (Ascii.nat_of_ascii a)) <$> String.list_ascii_of_string s.
(** The bytes before the NUL. *)
Fixpoint cstr (bs : list Z) : list Z :=
  match bs with [] => [] | b :: bs' => if b =? 0 then [] else b :: cstr bs' end.

(** ** Lemmas: the monad *)

Section monad_lemmas.
Context {S : Type}.

Lemma bind_ok {A B} (c : M S A) (k : A -> M S B) s a s' :
  c s = Ok a s' -> mbind c k s = k a s'.
Proof. unfold mbind. by intros ->. Qed.

Lemma bind_err {A B} (c : M S A) (k : A -> M S B) s e :
  c s = Err e -> mbind c k s = Err e.
Proof. unfold mbind. by intros ->. Qed.

Lemma bind_inv {A B} (c : M S A) (k : A -> M S B) s b s'' :
  mbind c k s = Ok b s'' -> exists a s', c s = Ok a s' /\ k a s' = Ok b s''.
Proof. unfold mbind. destruct (c s) as [a s'|]; [|done]. eauto. Qed.

Lemma bind_assoc {A B C} (c : M S A) (k : A -> M S B) (h : B -> M S C) s :
  mbind (mbind c k) h s = mbind c (fun a => mbind (k a) h) s.
Proof. unfold mbind. by destruct (c s). Qed.

Lemma runs_ok {A} (c : M S A) s Q a s' :
  c s = Ok a s' -> Q a s' -> runs c s Q.
Proof. unfold runs. by intros ->. Qed.

Lemma runs_inv {A} (c : M S A) s Q :
  runs c s Q -> exists a s', c s = Ok a s' /\ Q a s'.
Proof. unfold runs. destruct (c s); [eauto|done]. Qed.

Lemma runs_bind {A B} (c : M S A) (k : A -> M S B) s Q :
  runs c s (fun a s' => runs (k a) s' Q) -> runs (mbind c k) s Q.
Proof. unfold runs, mbind. by destruct (c s). Qed.

Lemma runs_conseq {A} (c : M S A) s (P Q : A -> S -> Prop) :
  runs c s P -> (forall a s', P a s' -> Q a s') -> runs c s Q.
Proof. unfold runs. destruct (c s); auto. Qed.

Lemma runs_ret {A} (a : A) s (Q : A -> S -> Prop) : Q a s -> runs (mret a) s Q.
Proof. done. Qed.

Lemma runs_gets {A} (f : S -> A) s (Q : A -> S -> Prop) : Q (f s) s -> runs (gets f) s Q.
Proof. done. Qed.

Lemma runs_modify (f : S -> S) s (Q : unit -> S -> Prop) : Q tt (f s) -> runs (modify f) s Q.
Proof. done. Qed.

(** The invariant rule for [for] loops. *)
Lemma runs_for (I : nat -> S -> Prop) n body s (Q : unit -> S -> Prop) :
  I 0%nat s ->
  (forall i s', (i < n)%nat -> I i s' -> runs (body i) s' (fun _ s'' => I (Datatypes.S i) s'')) ->
  (forall s', I n s' -> Q tt s') ->
  runs (mfor n body) s Q.
Proof.
  intros H0 Hstep HQ. unfold mfor.
  assert (Hgen : forall k i s', (i + k = n)%nat -> I i s' ->
            runs (mfor_from i k body) s' (fun _ s'' => I n s'')).
  { induction k as [|k IH]; intros i s' Hik Hi; simpl.
    - apply runs_ret. by replace n with i by lia.
    - apply runs_bind. eapply runs_conseq; [apply Hstep; [lia|done]|].
      simpl. intros _ s'' Hs''. apply IH; [lia|done]. }
  eapply runs_conseq; [by apply (Hgen n 0%nat)|]. intros [] s'. auto.
Qed.

End monad_lemmas.

Lemma zoom_ok {S T A} (prj : S -> T) upd (c : M T A) s a t :
  c (prj s) = Ok a t -> zoom prj upd c s = Ok a (upd t s).
Proof. unfold zoom. by intros ->. Qed.

Lemma zoom_err {S T A} (prj : S -> T) upd (c : M T A) s e :
  c (prj s) = Err e -> zoom prj upd c s = Err e.
Proof. unfold zoom. by intros ->. Qed.

Lemma zoom_inv {S T A} (prj : S -> T) upd (c : M T A) s a s' :
  zoom prj upd c s = Ok a s' -> exists t, c (prj s) = Ok a t /\ s' = upd t s.
Proof. unfold zoom. destruct (c (prj s)) as [a' t|]; intros; simplify_eq. eauto. Qed.

(** Take apart a hypothesis that a monadic computation returned. *)
Ltac minv1 :=
  match goal with
  | H : mbind ?c ?k ?s = Ok ?b ?s' |- _ =>
      let a := fresh "a" in let s1 := fresh "s" in let H1 := fresh "H" in
      apply bind_inv in H as (a & s1 & H1 & H)
  | H : mret _ _ = Ok _ _ |- _ => unfold mret in H; simplify_eq
  | H : gets _ _ = Ok _ _ |- _ => unfold gets in H; simplify_eq
  | H : modify _ _ = Ok _ _ |- _ => unfold modify in H; simplify_eq
  | H : mfail _ _ = Ok _ _ |- _ => discriminate H
  | H : panic _ _ = Ok _ _ |- _ => discriminate H
  | H : (if ?b then _ else _) _ = Ok _ _ |- _ => let E := fresh "E" in destruct b eqn:E
  end.
Ltac minv := repeat minv1.

(** ** Lemmas: integers *)

Create HintDb kint.

Lemma u8_range x : 0 <= u8 x < 256.
Proof. unfold u8. apply Z.mod_pos_bound. lia. Qed.
Lemma u32_range x : 0 <= u32 x < 2 ^ 32.
Proof. unfold u32. apply Z.mod_pos_bound. lia. Qed.
Lemma u64_range x : 0 <= u64 x < 2 ^ 64.
Proof. unfold u64. apply Z.mod_pos_bound. lia. Qed.
Lemma u8_small x : 0 <= x < 256 -> u8 x = x.
Proof. intros. unfold u8. apply Z.mod_small. lia. Qed.
Lemma u32_small x : 0 <= x < 2 ^ 32 -> u32 x = x.
Proof. intros. unfold u32. apply Z.mod_small. lia. Qed.
Lemma u64_small x : 0 <= x < 2 ^ 64 -> u64 x = x.
Proof. intros. unfold u64. apply Z.mod_small. lia. Qed.

Lemma i32_range x : - 2 ^ 31 <= i32 x < 2 ^ 31.
Proof.
  unfold i32, sint. pose proof (Z.mod_pos_bound x (2 ^ 32) ltac:(lia)).
  destruct (Z.ltb_spec (x mod 2 ^ 32) (2 ^ (32 - 1))); lia.
Qed.

Lemma i32_small x : - 2 ^ 31 <= x < 2 ^ 31 -> i32 x = x.
Proof.
  intros Hx. unfold i32, sint. destruct (Z_lt_dec x 0) as [Hn|Hn].
  - assert (x mod 2 ^ 32 = x + 2 ^ 32) as ->.
    { rewrite <- (Z_mod_plus_full x 1 (2 ^ 32)). apply Z.mod_small. lia. }
    destruct (Z.ltb_spec (x + 2 ^ 32) (2 ^ (32 - 1))); lia.
  - rewrite Z.mod_small by lia.
    destruct (Z.ltb_spec x (2 ^ (32 - 1))); lia.
Qed.

#[export] Hint Resolve u8_range u32_range u64_range i32_range : kint.
#[export] Hint Rewrite u8_small u32_small u64_small i32_small using lia : kint.

(** [x] is a multiple of the power of two [2 ^ k] exactly when its low bits are clear. *)
Lemma land_ones_low x k : 0 <= k -> Z.land x (Z.ones k) = x mod 2 ^ k.
Proof. intros. by apply Z.land_ones. Qed.

Lemma ldiff_ones_low x k : 0 <= k -> Z.ldiff x (Z.ones k) = x / 2 ^ k * 2 ^ k.
Proof.
  intros Hk. rewrite Z.ldiff_ones_r by done.
  by rewrite Z.shiftl_mul_pow2, Z.shiftr_div_pow2 by done.
Qed.
