(* ===== verification/Riscv.v ===== *)
(** * The RISC-V machine as the kernel sees it

    Constants and macros of kernel/param.h, kernel/memlayout.h and kernel/riscv.h: page
    rounding, page-table indices, page-table entries and the physical memory layout, on
    64-bit integers; and the register file of one hart, with the accessors of
    kernel/riscv.h as state transformers. *)

From S2P Require Import Prelude.

(** ** kernel/param.h *)

Definition NPROC : nat := 64.
Definition NCPU : nat := 8.
Definition NOFILE : nat := 16.
Definition NFILE : nat := 100.
Definition NINODE : nat := 50.
Definition NDEV : Z := 10.
Definition ROOTDEV : Z := 1.
Definition MAXARG : nat := 32.
Definition MAXOPBLOCKS : Z := 10.
Definition LOGSIZE : Z := MAXOPBLOCKS * 3.
Definition NBUF : nat := Z.to_nat (MAXOPBLOCKS * 3).
Definition FSSIZE : Z := 2000.
Definition MAXPATH : Z := 128.

(** ** kernel/riscv.h: pages and page tables *)

Definition PGSIZE : Z := 4096.
Definition PGSHIFT : Z := 12.
Definition PGROUNDUP (sz : Z) : Z := Z.land (u64 (u64 (sz + PGSIZE) - 1)) (u64 (Z.lnot (PGSIZE - 1))).
Definition PGROUNDDOWN (a : Z) : Z := Z.land a (u64 (Z.lnot (PGSIZE - 1))).

Definition PTE_V : Z := Z.shiftl 1 0.
Definition PTE_R : Z := Z.shiftl 1 1.
Definition PTE_W : Z := Z.shiftl 1 2.
Definition PTE_X : Z := Z.shiftl 1 3.
Definition PTE_U : Z := Z.shiftl 1 4.

Definition PA2PTE (pa : Z) : Z := u64 (Z.shiftl (Z.shiftr pa 12) 10).
Definition PTE2PA (pte : Z) : Z := u64 (Z.shiftl (Z.shiftr pte 10) 12).
Definition PTE_FLAGS (pte : Z) : Z := Z.land pte 0x3FF.

Definition PXMASK : Z := 0x1FF.
Definition PXSHIFT (level : Z) : Z := PGSHIFT + 9 * level.
Definition PX (level va : Z) : Z := Z.land (Z.shiftr va (PXSHIFT level)) PXMASK.

Definition MAXVA : Z := Z.shiftl 1 (9 + 9 + 9 + 12 - 1).

Definition SATP_SV39 : Z := Z.shiftl 8 60.
Definition MAKE_SATP (pagetable : Z) : Z := Z.lor SATP_SV39 (Z.shiftr pagetable 12).

(** ** kernel/memlayout.h *)

Definition UART0 : Z := 0x10000000.
Definition UART0_IRQ : Z := 10.
Definition VIRTIO0 : Z := 0x10001000.
Definition VIRTIO0_IRQ : Z := 1.
Definition CLINT : Z := 0x2000000.
Definition CLINT_MTIMECMP (hartid : Z) : Z := CLINT + 0x4000 + 8 * hartid.
Definition CLINT_MTIME : Z := CLINT + 0xBFF8.
Definition PLIC : Z := 0x0c000000.
Definition PLIC_SENABLE (hart : Z) : Z := PLIC + 0x2080 + hart * 0x100.
Definition PLIC_SPRIORITY (hart : Z) : Z := PLIC + 0x201000 + hart * 0x2000.
Definition PLIC_SCLAIM (hart : Z) : Z := PLIC + 0x201004 + hart * 0x2000.
Definition KERNBASE : Z := 0x80000000.
Definition PHYSTOP : Z := KERNBASE + 128 * 1024 * 1024.
Definition TRAMPOLINE : Z := MAXVA - PGSIZE.
Definition KSTACK (p : Z) : Z := TRAMPOLINE - (p + 1) * 2 * PGSIZE.
Definition TRAPFRAME : Z := TRAMPOLINE - PGSIZE.

(** ** kernel/riscv.h: control and status registers *)

Definition MSTATUS_MPP_MASK : Z := Z.shiftl 3 11.
Definition MSTATUS_MPP_S : Z := Z.shiftl 1 11.
Definition MSTATUS_MIE : Z := Z.shiftl 1 3.
Definition SSTATUS_SPP : Z := Z.shiftl 1 8.
Definition SSTATUS_SPIE : Z := Z.shiftl 1 5.
Definition SSTATUS_SIE : Z := Z.shiftl 1 1.
Definition SIE_SEIE : Z := Z.shiftl 1 9.
Definition SIE_STIE : Z := Z.shiftl 1 5.
Definition SIE_SSIE : Z := Z.shiftl 1 1.
Definition MIE_MTIE : Z := Z.shiftl 1 7.

(** The registers of one hart that the C code reads or writes. *)
Record hart := Hart {
  h_mhartid : Z;
  h_mstatus : Z;
  h_mepc : Z;
  h_sstatus : Z;
  h_sip : Z;
  h_sie : Z;
  h_mie : Z;
  h_sepc : Z;
  h_medeleg : Z;
  h_mideleg : Z;
  h_stvec : Z;
  h_mtvec : Z;
  h_pmpcfg0 : Z;
  h_pmpaddr0 : Z;
  h_satp : Z;
  h_mscratch : Z;
  h_scause : Z;
  h_stval : Z;
  h_mcounteren : Z;
  h_time : Z;
  h_sp : Z;
  h_tp : Z;
  h_ra : Z
}.
#[export] Instance hart_eta : Eta hart :=
  fun h => Hart (h_mhartid h) (h_mstatus h) (h_mepc h) (h_sstatus h) (h_sip h) (h_sie h) (h_mie h) (h_sepc h) (h_medeleg h) (h_mideleg h) (h_stvec h) (h_mtvec h) (h_pmpcfg0 h) (h_pmpaddr0 h) (h_satp h) (h_mscratch h) (h_scause h) (h_stval h) (h_mcounteren h) (h_time h) (h_sp h) (h_tp h) (h_ra h).

Definition r_mhartid : M hart Z := gets h_mhartid.
Definition r_mstatus : M hart Z := gets h_mstatus.
Definition w_mstatus (x : Z) : M hart unit := modify (fun h => h <| h_mstatus := x |>).
Definition w_mepc (x : Z) : M hart unit := modify (fun h => h <| h_mepc := x |>).
Definition r_sstatus : M hart Z := gets h_sstatus.
Definition w_sstatus (x : Z) : M hart unit := modify (fun h => h <| h_sstatus := x |>).
Definition r_sip : M hart Z := gets h_sip.
Definition w_sip (x : Z) : M hart unit := modify (fun h => h <| h_sip := x |>).
Definition r_sie : M hart Z := gets h_sie.
Definition w_sie (x : Z) : M hart unit := modify (fun h => h <| h_sie := x |>).
Definition r_mie : M hart Z := gets h_mie.
Definition w_mie (x : Z) : M hart unit := modify (fun h => h <| h_mie := x |>).
Definition r_sepc : M hart Z := gets h_sepc.
Definition w_sepc (x : Z) : M hart unit := modify (fun h => h <| h_sepc := x |>).
Definition r_medeleg : M hart Z := gets h_medeleg.
Definition w_medeleg (x : Z) : M hart unit := modify (fun h => h <| h_medeleg := x |>).
Definition r_mideleg : M hart Z := gets h_mideleg.
Definition w_mideleg (x : Z) : M hart unit := modify (fun h => h <| h_mideleg := x |>).
Definition r_stvec : M hart Z := gets h_stvec.
Definition w_stvec (x : Z) : M hart unit := modify (fun h => h <| h_stvec := x |>).
Definition w_mtvec (x : Z) : M hart unit := modify (fun h => h <| h_mtvec := x |>).
Definition w_pmpcfg0 (x : Z) : M hart unit := modify (fun h => h <| h_pmpcfg0 := x |>).
Definition w_pmpaddr0 (x : Z) : M hart unit := modify (fun h => h <| h_pmpaddr0 := x |>).
Definition r_satp : M hart Z := gets h_satp.
Definition w_satp (x : Z) : M hart unit := modify (fun h => h <| h_satp := x |>).
Definition w_mscratch (x : Z) : M hart unit := modify (fun h => h <| h_mscratch := x |>).
Definition r_scause : M hart Z := gets h_scause.
Definition r_stval : M hart Z := gets h_stval.
Definition r_mcounteren : M hart Z := gets h_mcounteren.
Definition w_mcounteren (x : Z) : M hart unit := modify (fun h => h <| h_mcounteren := x |>).
Definition r_time : M hart Z := gets h_time.
Definition r_sp : M hart Z := gets h_sp.
Definition r_tp : M hart Z := gets h_tp.
Definition w_tp (x : Z) : M hart unit := modify (fun h => h <| h_tp := x |>).
Definition r_ra : M hart Z := gets h_ra.

(** Device interrupts on, off, and whether they are on. *)
Definition intr_on : M hart unit :=
  x <- r_sstatus ;; w_sstatus (Z.lor x SSTATUS_SIE).
Definition intr_off : M hart unit :=
  x <- r_sstatus ;; w_sstatus (Z.land x (u64 (Z.lnot SSTATUS_SIE))).
Definition intr_get : M hart Z :=
  x <- r_sstatus ;; mret (b2z (negb (Z.land x SSTATUS_SIE =? 0))).

(** ** Page arithmetic *)

Lemma PGROUNDDOWN_spec a : 0 <= a < 2 ^ 64 -> PGROUNDDOWN a = a / PGSIZE * PGSIZE.
Proof.
  intros Ha. unfold PGROUNDDOWN, PGSIZE.
  change (u64 (Z.lnot (4096 - 1))) with (Z.ldiff (Z.ones 64) (Z.ones 12)).
  rewrite Z.land_comm, <- (Z.land_comm a).
  rewrite Z.ldiff_land, Z.land_assoc, <- Z.ldiff_land.
  rewrite Z.land_ones, Z.mod_small by lia.
  by rewrite ldiff_ones_low.
Qed.

Lemma PGROUNDUP_spec sz : 0 <= sz -> sz + PGSIZE <= 2 ^ 64 ->
  PGROUNDUP sz = (sz + PGSIZE - 1) / PGSIZE * PGSIZE.
Proof.
  intros H0 H1. unfold PGROUNDUP.
  assert (u64 (u64 (sz + PGSIZE) - 1) = sz + PGSIZE - 1) as ->.
  { unfold u64. unfold PGSIZE in *.
    rewrite Zminus_mod_idemp_l. apply Z.mod_small. lia. }
  fold (PGROUNDDOWN (sz + PGSIZE - 1)).
  apply PGROUNDDOWN_spec. unfold PGSIZE in *. lia.
Qed.

Lemma PGROUNDDOWN_aligned a : 0 <= a < 2 ^ 64 -> PGROUNDDOWN a mod PGSIZE = 0.
Proof. intros. rewrite PGROUNDDOWN_spec by done. by apply Z_mod_mult. Qed.

Lemma PGROUNDDOWN_bounds a : 0 <= a < 2 ^ 64 ->
  0 <= PGROUNDDOWN a <= a /\ a < PGROUNDDOWN a + PGSIZE.
Proof.
  intros. rewrite PGROUNDDOWN_spec by done. unfold PGSIZE.
  pose proof (Z.div_mod a 4096). pose proof (Z.mod_pos_bound a 4096). lia.
Qed.

Lemma PGROUNDDOWN_id a : 0 <= a < 2 ^ 64 -> a mod PGSIZE = 0 -> PGROUNDDOWN a = a.
Proof.
  intros Ha Hal. rewrite PGROUNDDOWN_spec by done. unfold PGSIZE in *.
  pose proof (Z.div_mod a 4096). lia.
Qed.

Lemma PGROUNDUP_bounds sz : 0 <= sz -> sz + PGSIZE <= 2 ^ 64 ->
  PGROUNDUP sz mod PGSIZE = 0 /\ sz <= PGROUNDUP sz < sz + PGSIZE.
Proof.
  intros. rewrite PGROUNDUP_spec by done. split; [by apply Z_mod_mult|].
  unfold PGSIZE in *. pose proof (Z.div_mod (sz + 4096 - 1) 4096).
  pose proof (Z.mod_pos_bound (sz + 4096 - 1) 4096). lia.
Qed.

(** ** Page-table entries *)

Lemma PX_range level va : 0 <= PX level va < 512.
Proof.
  unfold PX, PXMASK. change 0x1FF with (Z.ones 9). rewrite Z.land_ones by lia.
  apply Z.mod_pos_bound. lia.
Qed.

Lemma PX_spec level va : 0 <= level -> PX level va = va / 2 ^ (12 + 9 * level) mod 512.
Proof.
  intros. unfold PX, PXMASK, PXSHIFT, PGSHIFT. change 0x1FF with (Z.ones 9).
  by rewrite Z.land_ones, Z.shiftr_div_pow2 by lia.
Qed.

(** A page-table entry made of a page address and flags gives both back. *)
Lemma PTE2PA_PA2PTE pa fl :
  0 <= pa < 2 ^ 56 -> pa mod PGSIZE = 0 -> 0 <= fl < 1024 ->
  PTE2PA (Z.lor (PA2PTE pa) fl) = pa /\ PTE_FLAGS (Z.lor (PA2PTE pa) fl) = fl.
Proof.
  intros Hpa Hal Hfl. unfold PGSIZE in *.
  pose proof (Z.div_mod pa 4096 ltac:(lia)) as Hdm. rewrite Hal in Hdm.
  set (q := pa / 4096) in *.
  assert (0 <= q < 2 ^ 44) by lia.
  assert (PA2PTE pa = Z.shiftl q 10) as Hpte.
  { unfold PA2PTE, u64. rewrite Z.shiftr_div_pow2 by lia. change (2 ^ 12) with 4096. fold q.
    rewrite Z.shiftl_mul_pow2 by lia. rewrite Z.mod_small; lia. }
  rewrite Hpte. split.
  - unfold PTE2PA. rewrite Z.shiftr_lor, Z.shiftr_shiftl_l by lia.
    rewrite (Z.shiftr_div_pow2 fl) by lia. rewrite (Z.div_small fl) by lia.
    rewrite Z.lor_0_r. change (10 - 10) with 0. rewrite Z.shiftl_0_r.
    rewrite Z.shiftl_mul_pow2 by lia. rewrite u64_small; lia.
  - unfold PTE_FLAGS. change 0x3FF with (Z.ones 10).
    rewrite Z.land_lor_distr_l, !Z.land_ones by lia.
    rewrite Z.shiftl_mul_pow2, Z_mod_mult, Z.lor_0_l by lia. apply Z.mod_small. lia.
Qed.

(** ** Interrupt flags *)

Lemma intr_off_get h : exists h', intr_off h = Ok tt h' /\ intr_get h' = Ok 0 h'.
Proof.
  eexists. split; [reflexivity|]. unfold intr_get, r_sstatus, mbind, gets, mret; simpl.
  rewrite <- Z.land_assoc. change (Z.land (u64 (Z.lnot SSTATUS_SIE)) SSTATUS_SIE) with 0.
  by rewrite Z.land_0_r.
Qed.
