(* ===== verification/CString.v ===== *)
(** * Bytes and strings in memory: kernel/string.c

    Memory is a finite map from addresses to bytes; an address that was never written
    reads as zero, and every theorem quantifies over the whole map.  [char] is unsigned on
    RISC-V.  The loops of kernel/string.c run byte by byte, as in the source. *)

From S2P Require Import Prelude.

Record mem := Mem { bytes_at : gmap Z Z }.

(** One byte load and store. *)
Definition rd (m : mem) (a : Z) : Z := default 0 (bytes_at m !! a).
Definition wr (m : mem) (a v : Z) : mem := Mem (<[a := v]> (bytes_at m)).

(** Little-endian loads and stores of [n] bytes. *)
Fixpoint load_le (n : nat) (m : mem) (a : Z) : Z :=
  match n with
  | O => 0
  | S n' => rd m a + 256 * load_le n' m (a + 1)
  end.
Fixpoint store_le (n : nat) (m : mem) (a v : Z) : mem :=
  match n with
  | O => m
  | S n' => store_le n' (wr m a (v mod 256)) (a + 1) (v / 256)
  end.
Definition load64 (m : mem) (a : Z) : Z := load_le 8 m a.
Definition store64 (m : mem) (a v : Z) : mem := store_le 8 m a v.
Definition load32 (m : mem) (a : Z) : Z := load_le 4 m a.
Definition store32 (m : mem) (a v : Z) : mem := store_le 4 m a v.

(** ** kernel/string.c *)

(** memset: [for(i = 0; i < n; i++) cdst[i] = c]. *)
Fixpoint memset_loop (m : mem) (dst c : Z) (n : nat) : mem :=
  match n with
  | O => m
  | S n' => memset_loop (wr m dst (u8 c)) (dst + 1) c n'
  end.
Definition memset (m : mem) (dst c n : Z) : mem := memset_loop m dst c (Z.to_nat n).

Fixpoint memcmp_loop (m : mem) (s1 s2 : Z) (n : nat) : Z :=
  match n with
  | O => 0
  | S n' => if negb (rd m s1 =? rd m s2) then rd m s1 - rd m s2
            else memcmp_loop m (s1 + 1) (s2 + 1) n'
  end.
Definition memcmp (m : mem) (v1 v2 n : Z) : Z := memcmp_loop m v1 v2 (Z.to_nat n).

(** memmove's two loops: upwards, and downwards for an overlap with [s < d]. *)
Fixpoint move_up (m : mem) (d s : Z) (n : nat) : mem :=
  match n with
  | O => m
  | S n' => move_up (wr m d (rd m s)) (d + 1) (s + 1) n'
  end.
Fixpoint move_down (m : mem) (d s : Z) (n : nat) : mem :=
  match n with
  | O => m
  | S n' => move_down (wr m (d - 1) (rd m (s - 1))) (d - 1) (s - 1) n'
  end.
Definition memmove (m : mem) (dst src n : Z) : mem :=
  if n =? 0 then m
  else if (src <? dst) && (dst <? src + n) then move_down m (dst + n) (src + n) (Z.to_nat n)
  else move_up m dst src (Z.to_nat n).
Definition memcpy (m : mem) (dst src n : Z) : mem := memmove m dst src n.

Fixpoint strncmp_loop (m : mem) (p q : Z) (n : nat) : Z :=
  match n with
  | O => 0
  | S n' => if negb (rd m p =? 0) && (rd m p =? rd m q)
            then strncmp_loop m (p + 1) (q + 1) n'
            else rd m p - rd m q
  end.
Definition strncmp (m : mem) (p q n : Z) : Z := strncmp_loop m p q (Z.to_nat n).

(** [while(n-- > 0) *s++ = 0] *)
Fixpoint zero_fill (m : mem) (s : Z) (n : nat) : mem :=
  match n with
  | O => m
  | S n' => zero_fill (wr m s 0) (s + 1) n'
  end.
Fixpoint strncpy_loop (m : mem) (s t : Z) (n : nat) : mem :=
  match n with
  | O => m
  | S n' => let c := rd m t in
            let m' := wr m s c in
            if c =? 0 then zero_fill m' (s + 1) n'
            else strncpy_loop m' (s + 1) (t + 1) n'
  end.
Definition strncpy (m : mem) (s t n : Z) : mem := strncpy_loop m s t (Z.to_nat n).

(** safestrcpy: at most [n - 1] bytes, then a NUL where the copy stopped. *)
Fixpoint safestrcpy_loop (m : mem) (s t : Z) (n : nat) : mem * Z :=
  match n with
  | O => (m, s)
  | S n' => let c := rd m t in
            let m' := wr m s c in
            if c =? 0 then (m', s + 1) else safestrcpy_loop m' (s + 1) (t + 1) n'
  end.
Definition safestrcpy (m : mem) (s t n : Z) : mem :=
  if n <=? 0 then m
  else let '(m', s') := safestrcpy_loop m s t (Z.to_nat (n - 1)) in wr m' s' 0.

(** strlen looks at [fuel] bytes at most; [None] when none of them is NUL. *)
Fixpoint strlen_loop (fuel : nat) (m : mem) (s n : Z) : option Z :=
  match fuel with
  | O => None
  | S fuel' => if rd m (s + n) =? 0 then Some n else strlen_loop fuel' m s (n + 1)
  end.
Definition strlen (fuel : nat) (m : mem) (s : Z) : option Z := strlen_loop fuel m s 0.

(** ** Lemmas *)

Lemma rd_wr m a v x : rd (wr m a v) x = if decide (a = x) then v else rd m x.
Proof.
  unfold rd, wr. simpl. case_decide as E; [subst; by rewrite lookup_insert_eq|].
  by rewrite lookup_insert_ne.
Qed.
Lemma rd_wr_eq m a v : rd (wr m a v) a = v.
Proof. rewrite rd_wr. by rewrite decide_True. Qed.
Lemma rd_wr_ne m a v x : a <> x -> rd (wr m a v) x = rd m x.
Proof. intros. rewrite rd_wr. by rewrite decide_False. Qed.

(** Case analysis on every byte store in the goal. *)
Ltac rd_cases :=
  repeat (rewrite rd_wr; case_decide; subst; try lia).

(** *** Block operations *)

Lemma rd_memset_loop n : forall m d c x,
  rd (memset_loop m d c n) x = if decide (d <= x < d + Z.of_nat n) then u8 c else rd m x.
Proof.
  induction n as [|n IH]; intros m d c x; simpl memset_loop.
  - by rewrite decide_False by lia.
  - rewrite IH, rd_wr. repeat case_decide; subst; lia || done.
Qed.

Lemma rd_memset m d c n x : 0 <= n ->
  rd (memset m d c n) x = if decide (d <= x < d + n) then u8 c else rd m x.
Proof. intros. unfold memset. rewrite rd_memset_loop. by rewrite Z2Nat.id by done. Qed.

Lemma rd_move_up n : forall m d s x, d <= s \/ s + Z.of_nat n <= d ->
  rd (move_up m d s n) x =
  if decide (d <= x < d + Z.of_nat n) then rd m (s + (x - d)) else rd m x.
Proof.
  induction n as [|n IH]; intros m d s x Hds; simpl move_up.
  - by rewrite decide_False by lia.
  - rewrite IH by lia. repeat case_decide; try lia.
    + rewrite rd_wr_ne by lia. f_equal. lia.
    + replace x with d by lia. rewrite rd_wr_eq. f_equal. lia.
    + rewrite rd_wr_ne by lia. done.
Qed.

Lemma rd_move_down n : forall m d s x, s < d ->
  rd (move_down m d s n) x =
  if decide (d - Z.of_nat n <= x < d) then rd m (s + (x - d)) else rd m x.
Proof.
  induction n as [|n IH]; intros m d s x Hds; simpl move_down.
  - by rewrite decide_False by lia.
  - rewrite IH by lia. repeat case_decide; try lia.
    + rewrite rd_wr_ne by lia. f_equal. lia.
    + replace x with (d - 1) by lia. rewrite rd_wr_eq. f_equal. lia.
    + rewrite rd_wr_ne by lia. done.
Qed.

(** What memmove leaves in each byte, for any two ranges, overlapping or not. *)
Lemma rd_memmove m d s n x : 0 <= n ->
  rd (memmove m d s n) x = if decide (d <= x < d + n) then rd m (s + (x - d)) else rd m x.
Proof.
  intros Hn. unfold memmove. destruct (Z.eqb_spec n 0) as [->|].
  { by rewrite decide_False by lia. }
  destruct (Z.ltb_spec s d), (Z.ltb_spec d (s + n)); simpl.
  1: rewrite rd_move_down by lia.
  2,3,4: rewrite rd_move_up by lia.
  all: rewrite Z2Nat.id by lia; repeat case_decide; try lia; f_equal; lia.
Qed.

(** *** Little-endian words *)

Lemma load_le_ext n : forall m m' a a',
  (forall i, 0 <= i < Z.of_nat n -> rd m (a + i) = rd m' (a' + i)) ->
  load_le n m a = load_le n m' a'.
Proof.
  induction n as [|n IH]; intros m m' a a' H; simpl; [done|]. f_equal.
  - specialize (H 0 ltac:(lia)). by rewrite !Z.add_0_r in H.
  - f_equal. apply IH. intros i Hi. specialize (H (i + 1) ltac:(lia)).
    by replace (a + 1 + i) with (a + (i + 1)) by lia;
       replace (a' + 1 + i) with (a' + (i + 1)) by lia.
Qed.

Lemma rd_store_le_ne n : forall m a v x, ~ (a <= x < a + Z.of_nat n) ->
  rd (store_le n m a v) x = rd m x.
Proof.
  induction n as [|n IH]; intros m a v x Hx; simpl; [done|].
  rewrite IH by lia. apply rd_wr_ne. lia.
Qed.

Lemma load_store_le_eq n : forall m a v,
  load_le n (store_le n m a v) a = v mod 2 ^ (8 * Z.of_nat n).
Proof.
  induction n as [|n IH]; intros m a v; simpl load_le; simpl store_le.
  { by rewrite Z.mod_1_r. }
  rewrite IH, rd_store_le_ne, rd_wr_eq by lia.
  replace (8 * Z.of_nat (S n)) with (8 + 8 * Z.of_nat n) by lia.
  rewrite Z.pow_add_r by lia. change (2 ^ 8) with 256.
  rewrite Z.rem_mul_r by lia. done.
Qed.

Lemma load_store_le_ne n k m a v b :
  b + Z.of_nat k <= a \/ a + Z.of_nat n <= b ->
  load_le k (store_le n m a v) b = load_le k m b.
Proof. intros H. apply load_le_ext. intros i Hi. apply rd_store_le_ne. lia. Qed.

Lemma load_le_zero n : forall m a,
  (forall i, 0 <= i < Z.of_nat n -> rd m (a + i) = 0) -> load_le n m a = 0.
Proof.
  induction n as [|n IH]; intros m a H; simpl; [done|].
  rewrite IH.
  - specialize (H 0 ltac:(lia)). rewrite Z.add_0_r in H. lia.
  - intros i Hi. replace (a + 1 + i) with (a + (i + 1)) by lia. apply H. lia.
Qed.

Lemma load64_store64_eq m a v : 0 <= v < 2 ^ 64 -> load64 (store64 m a v) a = v.
Proof.
  intros. unfold load64, store64. rewrite load_store_le_eq. apply Z.mod_small. lia.
Qed.
Lemma load64_store64_ne m a v b : b + 8 <= a \/ a + 8 <= b ->
  load64 (store64 m a v) b = load64 m b.
Proof. intros. unfold load64, store64. apply load_store_le_ne. lia. Qed.
Lemma rd_store64_ne m a v x : ~ (a <= x < a + 8) -> rd (store64 m a v) x = rd m x.
Proof. intros. unfold store64. apply rd_store_le_ne. lia. Qed.
Lemma load64_ext m m' a :
  (forall x, a <= x < a + 8 -> rd m x = rd m' x) -> load64 m a = load64 m' a.
Proof. intros H. apply load_le_ext. intros i Hi. apply H. lia. Qed.

Lemma load64_zero m a : (forall x, a <= x < a + 8 -> rd m x = 0) -> load64 m a = 0.
Proof. intros H. apply load_le_zero. intros i Hi. apply H. lia. Qed.
Lemma load64_range m a : (forall x, 0 <= rd m x < 256) -> 0 <= load64 m a < 2 ^ 64.
Proof.
  intros H. unfold load64, load_le.
  pose proof (H a). pose proof (H (a + 1)). pose proof (H (a + 1 + 1)).
  pose proof (H (a + 1 + 1 + 1)). pose proof (H (a + 1 + 1 + 1 + 1)).
  pose proof (H (a + 1 + 1 + 1 + 1 + 1)). pose proof (H (a + 1 + 1 + 1 + 1 + 1 + 1)).
  pose proof (H (a + 1 + 1 + 1 + 1 + 1 + 1 + 1)). lia.
Qed.
#[global] Opaque load64 store64 memset memmove.

(** *** Strings *)

Lemma strncmp_loop_eq n : forall m p q,
  strncmp_loop m p q n = 0 <->
  forall i, 0 <= i < Z.of_nat n -> (forall j, 0 <= j < i -> rd m (p + j) <> 0) ->
    rd m (p + i) = rd m (q + i).
Proof.
  induction n as [|n IH]; intros m p q; simpl.
  { split; [lia|done]. }
  destruct (Z.eqb_spec (rd m p) 0) as [Hz|Hz], (Z.eqb_spec (rd m p) (rd m q)) as [He|He];
    simpl.
  - split; [|lia]. intros _ i Hi Hj. destruct (decide (i = 0)) as [->|].
    + by rewrite !Z.add_0_r.
    + exfalso. apply (Hj 0); [lia|]. by rewrite Z.add_0_r.
  - split; [lia|]. intros H. specialize (H 0 ltac:(lia) ltac:(lia)).
    rewrite !Z.add_0_r in H. lia.
  - rewrite IH. split; intros H i Hi Hj.
    + destruct (decide (i = 0)) as [->|]; [by rewrite !Z.add_0_r|].
      specialize (H (i - 1) ltac:(lia)).
      replace (p + 1 + (i - 1)) with (p + i) in H by lia.
      replace (q + 1 + (i - 1)) with (q + i) in H by lia.
      apply H. intros j Hj'. replace (p + 1 + j) with (p + (j + 1)) by lia.
      apply Hj. lia.
    + replace (p + 1 + i) with (p + (i + 1)) by lia.
      replace (q + 1 + i) with (q + (i + 1)) by lia.
      apply H; [lia|]. intros j Hj'. destruct (decide (j = 0)) as [->|].
      * by rewrite Z.add_0_r.
      * replace (p + j) with (p + 1 + (j - 1)) by lia. apply Hj. lia.
  - split; [lia|]. intros H. specialize (H 0 ltac:(lia) ltac:(lia)).
    rewrite !Z.add_0_r in H. lia.
Qed.

(** The copy stops at an address inside the buffer and changes nothing outside it. *)
Lemma safestrcpy_loop_spec n : forall m s t m' s',
  safestrcpy_loop m s t n = (m', s') ->
  s <= s' <= s + Z.of_nat n /\ (forall x, ~ (s <= x < s') -> rd m' x = rd m x) /\
  (s' < s + Z.of_nat n -> s < s' /\ rd m' (s' - 1) = 0).
Proof.
  induction n as [|n IH]; intros m s t m' s' H; simpl in H.
  { simplify_eq. split_and!; [lia|lia|done|lia]. }
  destruct (Z.eqb_spec (rd m t) 0) as [Hz|Hz].
  - simplify_eq. split_and!; [lia|lia|intros; apply rd_wr_ne; lia|].
    intros _. split; [lia|]. replace (s + 1 - 1) with s by lia. by rewrite rd_wr_eq.
  - apply IH in H as (Hs & Hfr & Hz'). split_and!; [lia|lia| |].
    + intros x Hx. rewrite Hfr by lia. apply rd_wr_ne. lia.
    + intros Hlt. destruct Hz' as [? ?]; [lia|]. split; [lia|done].
Qed.
