(* ===== verification/Kalloc.v ===== *)
(** * The physical page allocator: kernel/kalloc.c

    The state is the RAM and the head of the free list; the list itself is threaded
    through the first word of each free page, as in the source.  [kend] is the linker
    symbol [end], the first address after the kernel image.  The critical sections under
    [kmem.lock] are atomic. *)

From S2P Require Import Prelude Riscv CString.

Record phys := Phys {
  ram : mem;
  freelist : Z
}.
#[export] Instance phys_eta : Eta phys := fun s => Phys (ram s) (freelist s).

Section kalloc.
Context (kend : Z).

Definition kfree (pa : Z) : M phys unit :=
  if negb (pa mod PGSIZE =? 0) || (pa <? kend) || (PHYSTOP <=? pa) then panic "kfree"
  else
    modify (fun s => s <| ram := memset (ram s) pa 1 PGSIZE |>) ;;;
    modify (fun s => s <| ram := store64 (ram s) pa (freelist s) |>) ;;;
    modify (fun s => s <| freelist := pa |>).

Definition kalloc : M phys Z :=
  r <- gets freelist ;;
  mwhen (negb (r =? 0)) (modify (fun s => s <| freelist := load64 (ram s) r |>)) ;;;
  mwhen (negb (r =? 0)) (modify (fun s => s <| ram := memset (ram s) r 5 PGSIZE |>)) ;;;
  mret r.

(** [for(; p + PGSIZE <= pa_end; p += PGSIZE) kfree(p)] *)
Fixpoint freerange_loop (fuel : nat) (p pa_end : Z) : M phys unit :=
  match fuel with
  | O => mfail NoFuel
  | S fuel' =>
      if p + PGSIZE <=? pa_end
      then kfree p ;;; freerange_loop fuel' (p + PGSIZE) pa_end
      else mret tt
  end.
Definition freerange (pa_start pa_end : Z) : M phys unit :=
  let p := PGROUNDUP pa_start in
  freerange_loop (S (Z.to_nat ((pa_end - p) / PGSIZE))) p pa_end.

Definition kinit : M phys unit := freerange kend PHYSTOP.

(** ** The free-list invariant *)

(** A page kfree accepts. *)
Definition page_ok (pa : Z) : Prop :=
  pa mod PGSIZE = 0 /\ 0 < pa /\ kend <= pa < PHYSTOP.

(** [l] are the pages of the list that starts at [p]. *)
Fixpoint flist (m : mem) (p : Z) (l : list Z) : Prop :=
  match l with
  | [] => p = 0
  | x :: l' => p = x /\ flist m (load64 m x) l'
  end.

Definition free_ok (s : phys) (l : list Z) : Prop :=
  flist (ram s) (freelist s) l /\ NoDup l /\ Forall page_ok l.

(** [x] is a byte of the page [pa]. *)
Definition in_page (pa x : Z) : Prop := pa <= x < pa + PGSIZE.

End kalloc.

(** ** Lemmas *)

Lemma flist_frame l : forall m m' p,
  (forall pa x, pa ∈ l -> pa <= x < pa + 8 -> rd m' x = rd m x) ->
  flist m p l -> flist m' p l.
Proof.
  induction l as [|y l IH]; intros m m' p Hfr H; [done|].
  simpl in *. destruct H as [-> H]. split; [done|].
  rewrite (load64_ext m' m y) by (intros; apply Hfr with y; [set_solver|done]).
  apply IH with m; [|done]. intros pa x Hpa. apply Hfr. set_solver.
Qed.

(** Distinct pages share no byte. *)
Lemma pages_disjoint pa pb x :
  pa mod PGSIZE = 0 -> pb mod PGSIZE = 0 -> pa <> pb -> in_page pa x -> ~ in_page pb x.
Proof.
  unfold in_page, PGSIZE. intros Ha Hb Hne H1 H2. apply Hne.
  pose proof (Z.div_mod pa 4096). pose proof (Z.div_mod pb 4096). lia.
Qed.

Section kalloc_lemmas.
Context (kend : Z).
Implicit Types (s : phys) (l : list Z).

Lemma free_ok_frame s s' l :
  freelist s' = freelist s ->
  (forall pa x, pa ∈ l -> in_page pa x -> rd (ram s') x = rd (ram s) x) ->
  free_ok kend s l -> free_ok kend s' l.
Proof.
  intros Hf Hfr (H1 & H2 & H3). split; [|done]. rewrite Hf.
  apply flist_frame with (ram s); [|done].
  intros pa x Hpa Hx. apply Hfr with pa; [done|]. unfold in_page, PGSIZE. lia.
Qed.

Lemma kfree_run s l pa : free_ok kend s l -> page_ok kend pa -> pa ∉ l ->
  exists s', kfree kend pa s = Ok tt s' /\ free_ok kend s' (pa :: l) /\
    (forall x, ~ in_page pa x -> rd (ram s') x = rd (ram s) x).
Proof.
  intros (Hfl & Hnd & Hall) (Hal & Hpos & Hr) Hnin.
  unfold kfree. rewrite (proj2 (Z.eqb_eq _ _) Hal). simpl.
  destruct (Z.ltb_spec pa kend); [lia|]. destruct (Z.leb_spec PHYSTOP pa); [lia|]. simpl.
  eexists. split; [reflexivity|]. simpl.
  assert (Hfr : forall x, ~ in_page pa x ->
    rd (store64 (memset (ram s) pa 1 PGSIZE) pa (freelist s)) x = rd (ram s) x).
  { unfold in_page. intros x Hx. rewrite rd_store64_ne by (unfold PGSIZE in *; lia).
    rewrite rd_memset by (unfold PGSIZE; lia). by rewrite decide_False. }
  split; [|done]. split; [|split].
  - simpl. split; [done|].
    assert (Hrange : 0 <= freelist s < 2 ^ 64).
    { destruct l as [|y l']; simpl in Hfl; [lia|]. destruct Hfl as [-> _].
      apply Forall_cons in Hall as [(_ & ? & ?) _]. unfold PHYSTOP, KERNBASE in *. lia. }
    rewrite load64_store64_eq by done.
    apply flist_frame with (ram s); [|done].
    intros pb x Hpb Hx. apply Hfr.
    assert (page_ok kend pb) as (Halb & _) by (by eapply Forall_forall in Hall).
    apply (pages_disjoint pb); [done|done|set_solver|unfold in_page, PGSIZE; lia].
  - by constructor.
  - by repeat constructor.
Qed.

Lemma kalloc_run s l : free_ok kend s l ->
  exists r s', kalloc s = Ok r s' /\
  match l with
  | [] => r = 0 /\ s' = s
  | p :: l' => r = p /\ free_ok kend s' l' /\
      (forall x, rd (ram s') x = if decide (in_page p x) then 5 else rd (ram s) x)
  end.
Proof.
  intros (Hfl & Hnd & Hall). unfold kalloc, mbind, gets. destruct l as [|p l'].
  - simpl in Hfl. rewrite Hfl. simpl. eexists _, _. split; [reflexivity|]. done.
  - destruct Hfl as [Hp Hfl]. rewrite Hp.
    apply Forall_cons in Hall as [(Hal & Hpos & Hr) Hall].
    apply NoDup_cons in Hnd as [Hnin Hnd].
    destruct (Z.eqb_spec p 0); [lia|]. simpl.
    eexists _, _. split; [reflexivity|]. split; [done|].
    assert (Hrd : forall x, rd (memset (ram s) p 5 PGSIZE) x =
                       if decide (in_page p x) then 5 else rd (ram s) x).
    { intros x. rewrite rd_memset by (unfold PGSIZE; lia). unfold in_page.
      by repeat case_decide. }
    split; [|done]. split; [|done]. simpl.
    apply flist_frame with (ram s); [|done].
    intros pb x Hpb Hx. rewrite Hrd. rewrite decide_False; [done|].
    assert (page_ok kend pb) as (Halb & _) by (by eapply Forall_forall in Hall).
    apply (pages_disjoint pb); [done|done|set_solver|unfold in_page, PGSIZE; lia].
Qed.

(** The pages freerange frees, from the highest to the lowest: the order of the list. *)
Fixpoint pages_from (p : Z) (n : nat) : list Z :=
  match n with
  | O => []
  | S n' => pages_from (p + PGSIZE) n' ++ [p]
  end.

Lemma elem_of_pages_from n : forall p x,
  x ∈ pages_from p n <-> exists i, 0 <= i < Z.of_nat n /\ x = p + i * PGSIZE.
Proof.
  induction n as [|n IH]; intros p x; simpl.
  { split; [intros H; by apply elem_of_nil in H|]. intros (i & ? & _). lia. }
  rewrite elem_of_app, IH, list_elem_of_singleton. split.
  - intros [(i & ? & ->)| ->]; [exists (i + 1)|exists 0]; split; lia.
  - intros (i & ? & ->). destruct (decide (i = 0)) as [->|]; [right; lia|].
    left. exists (i - 1). split; lia.
Qed.

Lemma freerange_loop_run fuel : forall n s l p pa_end,
  (n < fuel)%nat ->
  free_ok kend s l -> p mod PGSIZE = 0 -> 0 < p -> kend <= p -> pa_end <= PHYSTOP ->
  n = Z.to_nat ((pa_end - p) / PGSIZE) ->
  (forall x, x ∈ l -> x < p) ->
  exists s', freerange_loop kend fuel p pa_end s = Ok tt s' /\
             free_ok kend s' (pages_from p n ++ l).
Proof.
  induction fuel as [|fuel IH]; intros n s l p pa_end Hf Hok Hal Hpos Hlo Hhi Hn Hl; [lia|].
  simpl freerange_loop. unfold PGSIZE in *.
  destruct (Z.leb_spec (p + 4096) pa_end) as [Hle|Hlt].
  - destruct (kfree_run s l p Hok) as (s1 & Hk & Hok1 & _).
    { unfold page_ok, PGSIZE. split_and!; try done; lia. }
    { intros Hin. specialize (Hl _ Hin). lia. }
    destruct n as [|n].
    { exfalso. assert (1 <= (pa_end - p) / 4096) by (apply Z.div_le_lower_bound; lia). lia. }
    destruct (IH n s1 (p :: l) (p + 4096) pa_end) as (s' & Hrun & Hok'); try lia; try done.
    { by rewrite <- Zplus_mod_idemp_r, Z_mod_same_full, Z.add_0_r. }
    { replace (pa_end - (p + 4096)) with (pa_end - p + (-1) * 4096) by lia.
      rewrite Z.div_add by lia. lia. }
    { intros x. rewrite elem_of_cons. intros [->|Hx]; [lia|]. specialize (Hl _ Hx). lia. }
    exists s'. split; [by rewrite (bind_ok _ _ _ _ _ Hk)|]. simpl.
    by rewrite <- app_assoc.
  - exists s. split; [done|]. assert (n = 0%nat) as ->; [|done].
    rewrite Hn. pose proof (Z.div_lt_upper_bound (pa_end - p) 4096 1). lia.
Qed.

End kalloc_lemmas.

(** ** Properties *)

(** C25. After kinit the free list holds every whole page between the end of the kernel
    image and PHYSTOP, each exactly once, and nothing else. *)
Theorem kinit_all_pages (kend : Z) (m : mem) :
  0 < kend -> kend <= PHYSTOP ->
  exists s l, kinit kend (Phys m 0) = Ok tt s /\ free_ok kend s l /\
    forall pa, pa ∈ l <-> page_ok kend pa.
Proof.
  intros H0 H1.
  destruct (PGROUNDUP_bounds kend) as [Hal Hb]; [lia|unfold PHYSTOP, KERNBASE, PGSIZE in *; lia|].
  set (p := PGROUNDUP kend) in *.
  destruct (freerange_loop_run kend (S (Z.to_nat ((PHYSTOP - p) / PGSIZE)))
    (Z.to_nat ((PHYSTOP - p) / PGSIZE)) (Phys m 0) [] p PHYSTOP) as (s & Hrun & Hok);
    try done; try lia.
  { split; [done|]. split; constructor. }
  { intros x Hx. by apply elem_of_nil in Hx. }
  rewrite app_nil_r in Hok.
  exists s, (pages_from p (Z.to_nat ((PHYSTOP - p) / PGSIZE))). split_and!; try done.
  intros pa. rewrite elem_of_pages_from. unfold page_ok.
  assert (HP : PHYSTOP mod PGSIZE = 0) by done.
  unfold PGSIZE in *.
  pose proof (Z.div_mod PHYSTOP 4096). pose proof (Z.div_mod p 4096).
  assert ((PHYSTOP - p) / 4096 = PHYSTOP / 4096 - p / 4096) as ->.
  { replace (PHYSTOP - p) with ((PHYSTOP / 4096 - p / 4096) * 4096) by lia.
    by apply Z.div_mul. }
  split.
  - intros (i & Hi & ->). rewrite Z_mod_plus_full. split_and!; try done; lia.
  - intros (Ha & Hpos & Hr). pose proof (Z.div_mod pa 4096).
    exists (pa / 4096 - p / 4096). split; lia.
Qed.

Lemma kinit_all_pages_witness :
  0 < PHYSTOP - 9000 /\ exists s l, kinit (PHYSTOP - 9000) (Phys (Mem ∅) 0) = Ok tt s /\
    free_ok (PHYSTOP - 9000) s l /\ forall pa, pa ∈ l <-> page_ok (PHYSTOP - 9000) pa.
Proof. split; [done|]. apply kinit_all_pages; [done|vm_compute; discriminate]. Defined.

(** A page given back to the allocator is the next page it hands out, junk-filled,
    and no other byte of memory changes on the way. *)
Theorem kfree_kalloc (kend : Z) s l pa :
  free_ok kend s l -> page_ok kend pa -> pa ∉ l ->
  exists s1 s2, kfree kend pa s = Ok tt s1 /\ kalloc s1 = Ok pa s2 /\ free_ok kend s2 l /\
    forall x, rd (ram s2) x = if decide (in_page pa x) then 5 else rd (ram s) x.
Proof.
  intros Hok Hpa Hnin. destruct (kfree_run kend s l pa) as (s1 & H1 & Hok1 & Hfr); try done.
  destruct (kalloc_run kend s1 (pa :: l) Hok1) as (r & s2 & H2 & -> & Hok2 & Hrd).
  exists s1, s2. split_and!; try done. intros x. rewrite Hrd.
  case_decide; [done|]. by apply Hfr.
Qed.

Lemma kfree_kalloc_witness :
  exists s1 s2, kfree (PHYSTOP - 8192) (PHYSTOP - 4096) (Phys (Mem ∅) 0) = Ok tt s1 /\
    kalloc s1 = Ok (PHYSTOP - 4096) s2 /\ free_ok (PHYSTOP - 8192) s2 [] /\
    forall x, rd (ram s2) x = if decide (in_page (PHYSTOP - 4096) x) then 5 else rd (Mem ∅) x.
Proof.
  apply (kfree_kalloc (PHYSTOP - 8192) (Phys (Mem ∅) 0) [] (PHYSTOP - 4096)).
  - split; [done|]. split; constructor.
  - vm_compute. split_and!; congruence.
  - apply not_elem_of_nil.
Defined.
