(* ===== verification/Vm.v ===== *)
(** * Page tables and user memory: kernel/vm.c

    Page tables live in the RAM of [phys] and are read and written through 64-bit loads
    and stores, as the C code does under the kernel's direct map.  A function that returns
    a pointer returns its address, 0 for null.  A buffer on the kernel side of copyin,
    copyout and copyinstr is the list of its bytes.

    [kend], [etext] and [trampoline] are linker symbols. *)

From S2P Require Import Prelude Riscv CString Kalloc.

(** Bytes [bs] stored from address [a] upwards, and [n] bytes read back. *)
Fixpoint write_bytes (m : mem) (a : Z) (bs : list Z) : mem :=
  match bs with
  | [] => m
  | b :: bs' => write_bytes (wr m a b) (a + 1) bs'
  end.
Fixpoint read_bytes (m : mem) (a : Z) (n : nat) : list Z :=
  match n with
  | O => []
  | S n' => rd m a :: read_bytes m (a + 1) n'
  end.

Definition ram_update (f : mem -> mem) : M phys unit := modify (fun s => s <| ram ::= f |>).

Section vm.
Context (kend : Z).

(** The loop of walk, from [level] down to 1. *)
Fixpoint walk_loop (level : nat) (pagetable va : Z) (alloc : bool) : M phys Z :=
  match level with
  | O => mret (pagetable + 8 * PX 0 va)
  | S level' =>
      let pte := pagetable + 8 * PX (Z.of_nat level) va in
      v <- gets (fun s => load64 (ram s) pte) ;;
      if z2b (Z.land v PTE_V) then walk_loop level' (PTE2PA v) va alloc
      else if negb alloc then mret 0
      else
        pg <- kalloc ;;
        if pg =? 0 then mret 0
        else
          ram_update (fun m => memset m pg 0 PGSIZE) ;;;
          ram_update (fun m => store64 m pte (Z.lor (PA2PTE pg) PTE_V)) ;;;
          walk_loop level' pg va alloc
  end.
Definition walk (pagetable va : Z) (alloc : bool) : M phys Z :=
  if MAXVA <=? va then panic "walk" else walk_loop 2 pagetable va alloc.

Definition walkaddr (pagetable va : Z) : M phys Z :=
  if MAXVA <=? va then mret 0
  else
    pte <- walk pagetable va false ;;
    if pte =? 0 then mret 0
    else
      v <- gets (fun s => load64 (ram s) pte) ;;
      if Z.land v PTE_V =? 0 then mret 0
      else if Z.land v PTE_U =? 0 then mret 0
      else mret (PTE2PA v).

(** The [for(;;)] of mappages: 0 on success, -1 when walk cannot allocate. *)
Fixpoint mappages_loop (fuel : nat) (pagetable a last pa perm : Z) : M phys Z :=
  match fuel with
  | O => mfail NoFuel
  | S fuel' =>
      pte <- walk pagetable a true ;;
      if pte =? 0 then mret (-1)
      else
        v <- gets (fun s => load64 (ram s) pte) ;;
        if z2b (Z.land v PTE_V) then panic "mappages: remap"
        else
          ram_update (fun m => store64 m pte (Z.lor (Z.lor (PA2PTE pa) perm) PTE_V)) ;;;
          if a =? last then mret 0
          else mappages_loop fuel' pagetable (u64 (a + PGSIZE)) last (u64 (pa + PGSIZE)) perm
  end.
Definition mappages (pagetable va size pa perm : Z) : M phys Z :=
  if size =? 0 then panic "mappages: size"
  else
    let a := PGROUNDDOWN va in
    let last := PGROUNDDOWN (u64 (u64 (va + size) - 1)) in
    let dist := if a <=? last then last - a else MAXVA - a in
    mappages_loop (S (Z.to_nat (dist / PGSIZE))) pagetable a last pa perm.

Definition kvmmap (kpgtbl va pa sz perm : Z) : M phys unit :=
  r <- mappages kpgtbl va sz pa perm ;;
  mwhen (negb (r =? 0)) (panic "kvmmap").

(** [for(a = va; a < va + npages*PGSIZE; a += PGSIZE)] of uvmunmap. *)
Fixpoint uvmunmap_loop (fuel : nat) (pagetable a hi : Z) (do_free : bool) : M phys unit :=
  match fuel with
  | O => mfail NoFuel
  | S fuel' =>
      if a <? hi then
        pte <- walk pagetable a false ;;
        if pte =? 0 then panic "uvmunmap: walk"
        else
          v <- gets (fun s => load64 (ram s) pte) ;;
          if Z.land v PTE_V =? 0 then panic "uvmunmap: not mapped"
          else if PTE_FLAGS v =? PTE_V then panic "uvmunmap: not a leaf"
          else
            mwhen do_free (kfree kend (PTE2PA v)) ;;;
            ram_update (fun m => store64 m pte 0) ;;;
            uvmunmap_loop fuel' pagetable (u64 (a + PGSIZE)) hi do_free
      else mret tt
  end.
Definition uvmunmap (pagetable va npages : Z) (do_free : bool) : M phys unit :=
  if negb (va mod PGSIZE =? 0) then panic "uvmunmap: not aligned"
  else
    let hi := u64 (va + u64 (npages * PGSIZE)) in
    uvmunmap_loop (S (Z.to_nat ((hi - va + PGSIZE - 1) / PGSIZE))) pagetable va hi do_free.

Definition uvmcreate : M phys Z :=
  pagetable <- kalloc ;;
  if pagetable =? 0 then mret 0
  else ram_update (fun m => memset m pagetable 0 PGSIZE) ;;; mret pagetable.

Definition uvmfirst (pagetable : Z) (src : list Z) : M phys unit :=
  let sz := Z.of_nat (length src) in
  if PGSIZE <=? sz then panic "uvmfirst: more than a page"
  else
    pg <- kalloc ;;
    ram_update (fun m => memset m pg 0 PGSIZE) ;;;
    mappages pagetable 0 PGSIZE pg (Z.lor (Z.lor (Z.lor PTE_W PTE_R) PTE_X) PTE_U) ;;;
    ram_update (fun m => write_bytes m pg src).

Definition uvmdealloc (pagetable oldsz newsz : Z) : M phys Z :=
  if oldsz <=? newsz then mret oldsz
  else
    mwhen (PGROUNDUP newsz <? PGROUNDUP oldsz)
      (let npages := i32 ((PGROUNDUP oldsz - PGROUNDUP newsz) / PGSIZE) in
       uvmunmap pagetable (PGROUNDUP newsz) (u64 npages) true) ;;;
    mret newsz.

(** [for(a = oldsz; a < newsz; a += PGSIZE)] of uvmalloc; 0 on failure. *)
Fixpoint uvmalloc_loop (fuel : nat) (pagetable a oldsz newsz xperm : Z) : M phys Z :=
  match fuel with
  | O => mfail NoFuel
  | S fuel' =>
      if a <? newsz then
        pg <- kalloc ;;
        if pg =? 0 then uvmdealloc pagetable a oldsz ;;; mret 0
        else
          ram_update (fun m => memset m pg 0 PGSIZE) ;;;
          r <- mappages pagetable a PGSIZE pg (Z.lor (Z.lor PTE_R PTE_U) xperm) ;;
          if negb (r =? 0)
          then kfree kend pg ;;; uvmdealloc pagetable a oldsz ;;; mret 0
          else uvmalloc_loop fuel' pagetable (u64 (a + PGSIZE)) oldsz newsz xperm
      else mret newsz
  end.
Definition uvmalloc (pagetable oldsz newsz xperm : Z) : M phys Z :=
  if newsz <? oldsz then mret oldsz
  else
    let oldsz := PGROUNDUP oldsz in
    uvmalloc_loop (S (Z.to_nat ((newsz - oldsz + PGSIZE - 1) / PGSIZE)))
      pagetable oldsz oldsz newsz xperm.

(** The recursion of freewalk follows the page tables in memory; [depth] bounds it. *)
Fixpoint freewalk (depth : nat) (pagetable : Z) : M phys unit :=
  match depth with
  | O => mfail NoFuel
  | S depth' =>
      mfor 512 (fun i =>
        pte <- gets (fun s => load64 (ram s) (pagetable + 8 * Z.of_nat i)) ;;
        if z2b (Z.land pte PTE_V) && (Z.land pte (Z.lor (Z.lor PTE_R PTE_W) PTE_X) =? 0) then
          freewalk depth' (PTE2PA pte) ;;;
          ram_update (fun m => store64 m (pagetable + 8 * Z.of_nat i) 0)
        else if z2b (Z.land pte PTE_V) then panic "freewalk: leaf"
        else mret tt) ;;;
      kfree kend pagetable
  end.

Definition uvmfree (pagetable sz : Z) : M phys unit :=
  mwhen (0 <? sz) (uvmunmap pagetable 0 (PGROUNDUP sz / PGSIZE) true) ;;;
  freewalk 3 pagetable.

(** uvmcopy: -1 and everything copied so far unmapped on failure. *)
Fixpoint uvmcopy_loop (fuel : nat) (old new i sz : Z) : M phys Z :=
  match fuel with
  | O => mfail NoFuel
  | S fuel' =>
      if i <? sz then
        pte <- walk old i false ;;
        if pte =? 0 then panic "uvmcopy: pte should exist"
        else
          v <- gets (fun s => load64 (ram s) pte) ;;
          if Z.land v PTE_V =? 0 then panic "uvmcopy: page not present"
          else
            let pa := PTE2PA v in
            let flags := PTE_FLAGS v in
            pg <- kalloc ;;
            if pg =? 0 then uvmunmap new 0 (i / PGSIZE) true ;;; mret (-1)
            else
              ram_update (fun m => memmove m pg pa PGSIZE) ;;;
              r <- mappages new i PGSIZE pg flags ;;
              if negb (r =? 0)
              then kfree kend pg ;;; uvmunmap new 0 (i / PGSIZE) true ;;; mret (-1)
              else uvmcopy_loop fuel' old new (u64 (i + PGSIZE)) sz
      else mret 0
  end.
Definition uvmcopy (old new sz : Z) : M phys Z :=
  uvmcopy_loop (S (Z.to_nat ((sz + PGSIZE - 1) / PGSIZE))) old new 0 sz.

Definition uvmclear (pagetable va : Z) : M phys unit :=
  pte <- walk pagetable va false ;;
  if pte =? 0 then panic "uvmclear"
  else ram_update (fun m => store64 m pte (Z.land (load64 m pte) (u64 (Z.lnot PTE_U)))).

(** copyout: the bytes [src] go to user address [dstva]; 0 or -1. *)
Fixpoint copyout_loop (fuel : nat) (pagetable dstva : Z) (src : list Z) : M phys Z :=
  match fuel with
  | O => mfail NoFuel
  | S fuel' =>
      let len := Z.of_nat (length src) in
      if 0 <? len then
        let va0 := PGROUNDDOWN dstva in
        pa0 <- walkaddr pagetable va0 ;;
        if pa0 =? 0 then mret (-1)
        else
          let n := PGSIZE - (dstva - va0) in
          let n := if len <? n then len else n in
          ram_update (fun m => write_bytes m (pa0 + (dstva - va0)) (take (Z.to_nat n) src)) ;;;
          copyout_loop fuel' pagetable (u64 (va0 + PGSIZE)) (drop (Z.to_nat n) src)
      else mret 0
  end.
Definition copyout (pagetable dstva : Z) (src : list Z) : M phys Z :=
  copyout_loop (S (length src)) pagetable dstva src.

(** copyin: 0 or -1, with the bytes that were stored in the kernel's buffer. *)
Fixpoint copyin_loop (fuel : nat) (pagetable srcva len : Z) (dst : list Z)
    : M phys (Z * list Z) :=
  match fuel with
  | O => mfail NoFuel
  | S fuel' =>
      if 0 <? len then
        let va0 := PGROUNDDOWN srcva in
        pa0 <- walkaddr pagetable va0 ;;
        if pa0 =? 0 then mret (-1, dst)
        else
          let n := PGSIZE - (srcva - va0) in
          let n := if len <? n then len else n in
          bs <- gets (fun s => read_bytes (ram s) (pa0 + (srcva - va0)) (Z.to_nat n)) ;;
          copyin_loop fuel' pagetable (u64 (va0 + PGSIZE)) (len - n) (dst ++ bs)
      else mret (0, dst)
  end.
Definition copyin (pagetable srcva len : Z) : M phys (Z * list Z) :=
  copyin_loop (S (Z.to_nat len)) pagetable srcva len [].

(** copyinstr's inner loop over one page: the bytes copied and whether a NUL was met. *)
Fixpoint copyinstr_page (m : mem) (p : Z) (n : nat) : list Z * bool :=
  match n with
  | O => ([], false)
  | S n' =>
      if rd m p =? 0 then ([0], true)
      else let '(bs, got_null) := copyinstr_page m (p + 1) n' in (rd m p :: bs, got_null)
  end.
Fixpoint copyinstr_loop (fuel : nat) (pagetable srcva max : Z) (dst : list Z)
    : M phys (Z * list Z) :=
  match fuel with
  | O => mfail NoFuel
  | S fuel' =>
      if 0 <? max then
        let va0 := PGROUNDDOWN srcva in
        pa0 <- walkaddr pagetable va0 ;;
        if pa0 =? 0 then mret (-1, dst)
        else
          let n := PGSIZE - (srcva - va0) in
          let n := if max <? n then max else n in
          '(bs, got_null) <-
             gets (fun s => copyinstr_page (ram s) (pa0 + (srcva - va0)) (Z.to_nat n)) ;;
          if got_null : bool then mret (0, dst ++ bs)
          else copyinstr_loop fuel' pagetable (u64 (va0 + PGSIZE)) (max - n) (dst ++ bs)
      else mret (-1, dst)
  end.
Definition copyinstr (pagetable srcva max : Z) : M phys (Z * list Z) :=
  copyinstr_loop (S (Z.to_nat max)) pagetable srcva max [].

(** ** The kernel's own page table *)

Context (etext trampoline : Z).

(** kernel/proc.c: a page for each process's kernel stack. *)
Definition proc_mapstacks (kpgtbl : Z) : M phys unit :=
  mfor NPROC (fun p =>
    pa <- kalloc ;;
    if pa =? 0 then panic "kalloc"
    else kvmmap kpgtbl (KSTACK (Z.of_nat p)) pa PGSIZE (Z.lor PTE_R PTE_W)).

Definition kvmmake : M phys Z :=
  kpgtbl <- kalloc ;;
  ram_update (fun m => memset m kpgtbl 0 PGSIZE) ;;;
  kvmmap kpgtbl UART0 UART0 PGSIZE (Z.lor PTE_R PTE_W) ;;;
  kvmmap kpgtbl VIRTIO0 VIRTIO0 PGSIZE (Z.lor PTE_R PTE_W) ;;;
  kvmmap kpgtbl PLIC PLIC 0x400000 (Z.lor PTE_R PTE_W) ;;;
  kvmmap kpgtbl KERNBASE KERNBASE (etext - KERNBASE) (Z.lor PTE_R PTE_X) ;;;
  kvmmap kpgtbl etext etext (PHYSTOP - etext) (Z.lor PTE_R PTE_W) ;;;
  kvmmap kpgtbl TRAMPOLINE trampoline PGSIZE (Z.lor PTE_R PTE_X) ;;;
  proc_mapstacks kpgtbl ;;;
  mret kpgtbl.

End vm.
