(* ===== verification/VmSpec.v ===== *)
(** * Page tables: the invariant and what the operations of kernel/vm.c do to it

    A page table is described by its translation function [xlate] (the leaf entry each
    virtual address reaches, 0 when there is none) and by the labelling [own] of its
    pages, which gives each page-table page its level and the virtual-address prefix it
    serves.  Labels make the tables a tree: two entries cannot reach the same page. *)

From S2P Require Import Prelude Riscv CString Kalloc Vm.

Definition pvalid (v : Z) : bool := z2b (Z.land v PTE_V).
Definition pte_at (m : mem) (p i : Z) : Z := load64 m (p + 8 * i).

(** The prefix of [va] above the bits that level [lv] and lower levels translate. *)
Definition vpre (lv : nat) (va : Z) : Z := va / 2 ^ (21 + 9 * Z.of_nat lv).
Definition pgbase (v : Z) : Z := v / PGSIZE * PGSIZE.

(** The address of the leaf entry for [va] below the level-[lv] table [p]. *)
Fixpoint leafaddr (m : mem) (lv : nat) (p va : Z) : option Z :=
  match lv with
  | O => Some (p + 8 * PX 0 va)
  | S lv' =>
      let v := pte_at m p (PX (Z.of_nat lv) va) in
      if pvalid v then leafaddr m lv' (PTE2PA v) va else None
  end.
Definition xl (m : mem) (lv : nat) (p va : Z) : Z :=
  match leafaddr m lv p va with Some a => load64 m a | None => 0 end.
Definition xlate (s : phys) (root va : Z) : Z := xl (ram s) 2 root va.

(** The memory after walk put a fresh table [pg] in entry [i] of the table [p]. *)
Definition attach_mem (m : mem) (p i pg : Z) : mem :=
  store64 (memset (memset m pg 5 PGSIZE) pg 0 PGSIZE) (p + 8 * i) (Z.lor (PA2PTE pg) PTE_V).

Section ptinv.
Context (kend root : Z).

Record ptinv (s : phys) (own : gmap Z (nat * Z)) (fl : list Z) : Prop := {
  pi_free : free_ok kend s fl;
  pi_root : own !! root = Some (2%nat, 0);
  pi_page : forall p e, own !! p = Some e -> page_ok kend p /\ p ∉ fl;
  pi_child : forall p lv pre i, own !! p = Some (S lv, pre) -> 0 <= i < 512 ->
    pvalid (pte_at (ram s) p i) = true ->
    own !! PTE2PA (pte_at (ram s) p i) = Some (lv, pre * 512 + i);
  (* interior entries carry no permission bit *)
  pi_flags : forall p lv pre i, own !! p = Some (S lv, pre) -> 0 <= i < 512 ->
    pvalid (pte_at (ram s) p i) = true -> PTE_FLAGS (pte_at (ram s) p i) = PTE_V;
  (* every page but the root hangs below its parent *)
  pi_tree : forall p lv pre, own !! p = Some (lv, pre) -> p = root \/
    exists q pre' i, own !! q = Some (S lv, pre') /\ 0 <= i < 512 /\ pre = pre' * 512 + i /\
      pvalid (pte_at (ram s) q i) = true /\ PTE2PA (pte_at (ram s) q i) = p;
  (* and serves addresses below MAXVA *)
  pi_low : forall p lv pre, own !! p = Some (lv, pre) ->
    (lv <= 2)%nat /\ 0 <= pre /\ pre * 2 ^ (21 + 9 * Z.of_nat lv) < MAXVA
}.

(** The tables grew from [own] to [own'] with pages taken from the front of the free
    list, and no byte outside the tables changed. *)
Definition extends (s : phys) (own : gmap Z (nat * Z)) (fl : list Z)
    (s' : phys) (own' : gmap Z (nat * Z)) (fl' : list Z) : Prop :=
  own ⊆ own' /\
  (exists used, fl = used ++ fl' /\
     forall q, is_Some (own' !! q) <-> is_Some (own !! q) \/ q ∈ used) /\
  (forall x, (forall q, is_Some (own' !! q) -> ~ in_page q x) -> rd (ram s') x = rd (ram s) x).

(** No valid entry of a page of [own] changed. *)
Definition keeps (s s' : phys) (own : gmap Z (nat * Z)) : Prop :=
  forall q e j, own !! q = Some e -> 0 <= j < 512 ->
    pvalid (pte_at (ram s) q j) = true -> pte_at (ram s') q j = pte_at (ram s) q j.

(** No translation below a page of [own] changed. *)
Definition same_xl (s s' : phys) (own : gmap Z (nat * Z)) : Prop :=
  forall k q pre va, own !! q = Some (k, pre) -> xl (ram s') k q va = xl (ram s) k q va.

End ptinv.

(** ** Arithmetic *)

Lemma lor_range a b n : 0 <= n -> 0 <= a < 2 ^ n -> 0 <= b < 2 ^ n -> 0 <= Z.lor a b < 2 ^ n.
Proof.
  intros Hn Ha Hb.
  rewrite <- (Z.mod_small a (2 ^ n)), <- (Z.mod_small b (2 ^ n)) by done.
  rewrite <- !Z.land_ones, <- Z.land_lor_distr_l by done.
  rewrite Z.land_ones by done. apply Z.mod_pos_bound. lia.
Qed.

Lemma land_lor_1 x : Z.land (Z.lor x 1) 1 = 1.
Proof.
  rewrite Z.land_lor_distr_l. change (Z.land 1 1) with 1.
  change 1 with (Z.ones 1) at 1. rewrite Z.land_ones by lia.
  pose proof (Z.mod_pos_bound x (2 ^ 1) ltac:(lia)).
  assert (x mod 2 ^ 1 = 0 \/ x mod 2 ^ 1 = 1) as [-> | ->] by lia; done.
Qed.

Lemma pvalid_V x : pvalid (Z.lor x PTE_V) = true.
Proof. unfold pvalid, PTE_V. change (Z.shiftl 1 0) with 1. by rewrite land_lor_1. Qed.

Lemma vpre_child lv va : 0 <= va ->
  vpre (S lv) va * 512 + PX (Z.of_nat (S lv)) va = vpre lv va.
Proof.
  intros Hva. rewrite PX_spec by lia. unfold vpre.
  replace (12 + 9 * Z.of_nat (S lv)) with (21 + 9 * Z.of_nat lv) by lia.
  replace (21 + 9 * Z.of_nat (S lv)) with (21 + 9 * Z.of_nat lv + 9) by lia.
  rewrite Z.pow_add_r by lia. change (2 ^ 9) with 512.
  rewrite <- Z.div_div by lia.
  pose proof (Z.div_mod (va / 2 ^ (21 + 9 * Z.of_nat lv)) 512). lia.
Qed.

Lemma vpre_low lv va : 0 <= va < MAXVA ->
  0 <= vpre lv va /\ vpre lv va * 2 ^ (21 + 9 * Z.of_nat lv) < MAXVA.
Proof.
  intros Hva. unfold vpre. assert (0 < 2 ^ (21 + 9 * Z.of_nat lv)) by (apply Z.pow_pos_nonneg; lia).
  split; [apply Z.div_pos; lia|].
  pose proof (Z.mul_div_le va (2 ^ (21 + 9 * Z.of_nat lv))). lia.
Qed.

Lemma vpre_top va : 0 <= va < MAXVA -> vpre 2 va = 0.
Proof.
  intros H. unfold vpre. apply Z.div_small. change MAXVA with (2 ^ 38) in H.
  change (21 + 9 * Z.of_nat 2) with 39. lia.
Qed.

(** The prefix and the level-0 index determine the page. *)
Lemma same_page va va' : 0 <= va -> 0 <= va' ->
  (vpre 0 va = vpre 0 va' /\ PX 0 va = PX 0 va') <-> va / PGSIZE = va' / PGSIZE.
Proof.
  intros H H'. rewrite !PX_spec by lia. unfold vpre, PGSIZE.
  change (21 + 9 * Z.of_nat 0) with (12 + 9). change (12 + 9 * 0) with 12.
  rewrite Z.pow_add_r by lia. change (2 ^ 12) with 4096. change (2 ^ 9) with 512.
  rewrite <- !Z.div_div by lia.
  pose proof (Z.div_mod (va / 4096) 512). pose proof (Z.div_mod (va' / 4096) 512).
  split; [intros [? ?]; lia|intros ->; done].
Qed.

Lemma pgbase_range v : 0 <= v -> 0 <= pgbase v <= v /\ v < pgbase v + PGSIZE.
Proof.
  unfold pgbase, PGSIZE. intros. pose proof (Z.div_mod v 4096).
  pose proof (Z.mod_pos_bound v 4096). lia.
Qed.

(** A page is the one that starts at [a] when an address of it lies in that page. *)
Lemma pgbase_unique a v : a mod PGSIZE = 0 -> a <= v < a + PGSIZE -> pgbase v = a.
Proof.
  unfold pgbase, PGSIZE. intros Ha Hv. pose proof (Z.div_mod a 4096).
  pose proof (Z.div_mod v 4096). pose proof (Z.mod_pos_bound v 4096). lia.
Qed.

(** ** Walking without allocating *)

Lemma walk_loop_false lv : forall p va s,
  walk_loop lv p va false s = Ok (default 0 (leafaddr (ram s) lv p va)) s.
Proof.
  induction lv as [|lv IH]; intros p va s; [done|].
  cbn [walk_loop leafaddr negb]. unfold mbind, gets, pvalid, pte_at.
  destruct (z2b _); [apply IH|done].
Qed.

Lemma walk_false p va s : va < MAXVA ->
  walk p va false s = Ok (default 0 (leafaddr (ram s) 2 p va)) s.
Proof.
  intros. unfold walk. destruct (Z.leb_spec MAXVA va); [lia|]. apply walk_loop_false.
Qed.

Section lemmas.
Context (kend root : Z).
Notation ptinv := (ptinv kend root).

Lemma page_range p : page_ok kend p -> p mod PGSIZE = 0 /\ 0 < p < 2 ^ 32.
Proof. intros (? & ? & ?). unfold PHYSTOP, KERNBASE in *. split; [done|lia]. Qed.

Lemma leafaddr_label s own fl : ptinv s own fl -> forall lv p va a,
  0 <= va -> own !! p = Some (lv, vpre lv va) -> leafaddr (ram s) lv p va = Some a ->
  exists p0, own !! p0 = Some (0%nat, vpre 0 va) /\ a = p0 + 8 * PX 0 va.
Proof.
  intros Hinv. induction lv as [|lv IH]; intros p va a Hva Hown Hl.
  - simpl in Hl. simplify_eq. eauto.
  - cbn [leafaddr] in Hl. destruct (pvalid _) eqn:Hv; [|done].
    apply (IH _ va a Hva) in Hl; [done|].
    rewrite (pi_child _ _ _ _ _ Hinv _ _ _ _ Hown (PX_range _ _) Hv).
    by rewrite vpre_child.
Qed.

(** Memory changes that keep every entry of the tables keep the translations. *)
Lemma xl_frame s own fl m' : ptinv s own fl ->
  (forall q e i, own !! q = Some e -> 0 <= i < 512 -> pte_at m' q i = pte_at (ram s) q i) ->
  forall lv q pre va, own !! q = Some (lv, pre) -> xl m' lv q va = xl (ram s) lv q va.
Proof.
  intros Hinv Hfr. unfold xl. induction lv as [|lv IH]; intros q pre va Hq.
  - simpl. apply (Hfr q _ (PX 0 va) Hq (PX_range _ _)).
  - cbn [leafaddr]. rewrite (Hfr q _ _ Hq (PX_range _ _)).
    destruct (pvalid _) eqn:Hv; [|done].
    apply (IH _ _ _ (pi_child _ _ _ _ _ Hinv _ _ _ _ Hq (PX_range _ _) Hv)).
Qed.

Lemma pte_at_frame m m' q i : 0 <= i < 512 ->
  (forall x, in_page q x -> rd m' x = rd m x) -> pte_at m' q i = pte_at m q i.
Proof.
  intros Hi Hfr. apply load64_ext. intros x Hx. apply Hfr. unfold in_page, PGSIZE. lia.
Qed.

Lemma pi_tree_frame s s' own fl p lv pre : ptinv s own fl -> own !! p = Some (lv, pre) ->
  (forall q pre' i, own !! q = Some (S lv, pre') -> 0 <= i < 512 ->
     pvalid (pte_at (ram s) q i) = true -> pte_at (ram s') q i = pte_at (ram s) q i) ->
  p = root \/
  exists q pre' i, own !! q = Some (S lv, pre') /\ 0 <= i < 512 /\ pre = pre' * 512 + i /\
    pvalid (pte_at (ram s') q i) = true /\ PTE2PA (pte_at (ram s') q i) = p.
Proof.
  intros Hinv Hp Hpte.
  destruct (pi_tree _ _ _ _ _ Hinv _ _ _ Hp) as [?|(q & pre' & i & Hq & Hi & Hpre & Hv & Hpa)];
    [by left|right]. exists q, pre', i. by rewrite (Hpte q pre' i Hq Hi Hv).
Qed.

(** Bytes outside the tables and the free pages do not matter. *)
Lemma ptinv_frame s s' own fl : ptinv s own fl -> freelist s' = freelist s ->
  (forall q x, is_Some (own !! q) \/ q ∈ fl -> in_page q x -> rd (ram s') x = rd (ram s) x) ->
  ptinv s' own fl /\ same_xl s s' own.
Proof.
  intros Hinv Hf Hfr.
  assert (Hpte : forall q e i, own !! q = Some e -> 0 <= i < 512 ->
                   pte_at (ram s') q i = pte_at (ram s) q i).
  { intros q e i Hq Hi. apply pte_at_frame; [done|]. intros x. apply Hfr. left. eauto. }
  split; [split|].
  - apply free_ok_frame with s; [done| |apply Hinv]. intros. eapply Hfr; eauto.
  - apply Hinv.
  - apply Hinv.
  - intros p lv pre i Hp Hi. rewrite (Hpte _ _ _ Hp Hi). by apply Hinv.
  - intros p lv pre i Hp Hi. rewrite (Hpte _ _ _ Hp Hi). by eapply pi_flags.
  - intros p lv pre Hp. apply (pi_tree_frame s s' own fl p lv pre Hinv Hp).
    intros q pre' i Hq Hi _. by apply (Hpte q _ i Hq Hi).
  - apply Hinv.
  - intros k q pre va Hq. by eapply xl_frame.
Qed.

Lemma extends_refl s own fl : extends s own fl s own fl.
Proof. split; [done|]. split; [|done]. exists []. split; [done|]. set_solver. Qed.

Lemma extends_trans s0 o0 f0 s1 o1 f1 s2 o2 f2 :
  extends s0 o0 f0 s1 o1 f1 -> extends s1 o1 f1 s2 o2 f2 -> extends s0 o0 f0 s2 o2 f2.
Proof.
  intros (Ho & (u & Hu & Hq) & Hr) (Ho' & (u' & Hu' & Hq') & Hr').
  split; [by etrans|]. split.
  - exists (u ++ u'). split; [by rewrite <- app_assoc, <- Hu'|].
    intros q. rewrite Hq', Hq, elem_of_app. tauto.
  - intros x Hx. rewrite Hr' by done. apply Hr. intros q Hqs. apply Hx.
    destruct Hqs as [e He]. exists e. by eapply lookup_weaken.
Qed.

Lemma same_xl_trans s0 s1 s2 o0 o1 :
  o0 ⊆ o1 -> same_xl s0 s1 o0 -> same_xl s1 s2 o1 -> same_xl s0 s2 o0.
Proof.
  intros Hsub H1 H2 k q pre va Hq. rewrite (H2 k q pre) by (by eapply lookup_weaken).
  by eapply H1.
Qed.

(** ** Hanging a fresh table below an invalid entry *)

Section attach.
Context (s : phys) (own : gmap Z (nat * Z)) (pg : Z) (fl : list Z).
Context (p : Z) (lv : nat) (pre i : Z).
Context (Hinv : ptinv s own (pg :: fl)).
Context (Hp : own !! p = Some (S lv, pre)) (Hi : 0 <= i < 512).
Context (Hinvalid : pvalid (pte_at (ram s) p i) = false).

Notation m2 := (attach_mem (ram s) p i pg).

Lemma attach_pages : page_ok kend pg /\ pg ∉ fl /\ own !! pg = None /\ p <> pg /\ page_ok kend p.
Proof.
  destruct (pi_free _ _ _ _ _ Hinv) as (_ & Hnd & Hall).
  apply NoDup_cons in Hnd as [Hnin _]. apply Forall_cons in Hall as [Hpg _].
  destruct (pi_page _ _ _ _ _ Hinv _ _ Hp) as [Hpp Hnp].
  assert (own !! pg = None).
  { destruct (own !! pg) as [e|] eqn:E; [|done].
    destruct (pi_page _ _ _ _ _ Hinv _ _ E) as [_ Hx].
    by apply not_elem_of_cons in Hx as [? _]. }
  apply not_elem_of_cons in Hnp as [? _]. by split_and!.
Qed.

Lemma attach_rd x : ~ in_page p x -> ~ in_page pg x -> rd m2 x = rd (ram s) x.
Proof.
  unfold in_page, PGSIZE, attach_mem. intros H1 H2. rewrite rd_store64_ne by lia.
  rewrite !rd_memset by (unfold PGSIZE; lia). unfold PGSIZE.
  by rewrite !decide_False by lia.
Qed.

Lemma attach_new : pte_at m2 p i = Z.lor (PA2PTE pg) PTE_V.
Proof.
  unfold pte_at, attach_mem. apply load64_store64_eq.
  apply lor_range; [lia|apply u64_range|by vm_compute].
Qed.

Lemma attach_old q e j : own !! q = Some e -> 0 <= j < 512 -> (q, j) <> (p, i) ->
  pte_at m2 q j = pte_at (ram s) q j.
Proof.
  intros Hq Hj Hne. destruct attach_pages as (Hpg & _ & Hnone & Hppg & Hpp).
  destruct (pi_page _ _ _ _ _ Hinv _ _ Hq) as [Hqp _].
  assert (q <> pg) by congruence.
  apply page_range in Hpg as [Halg _], Hqp as [Halq _], Hpp as [Halp _].
  assert (Hout : forall x, q + 8 * j <= x < q + 8 * j + 8 -> ~ in_page pg x).
  { intros x Hx. apply (pages_disjoint q); [done|done|done|unfold in_page, PGSIZE; lia]. }
  unfold pte_at. apply load64_ext. intros x Hx.
  unfold attach_mem. rewrite rd_store64_ne.
  - rewrite !rd_memset by (unfold PGSIZE; lia). unfold in_page in Hout.
    specialize (Hout x Hx). by rewrite !decide_False.
  - destruct (decide (q = p)) as [->|Hqp].
    + assert (j <> i) by congruence. lia.
    + intros Hx'. assert (in_page p x) as Hin by (unfold in_page, PGSIZE; lia).
      revert Hin. apply (pages_disjoint q); [done|done|done|unfold in_page, PGSIZE; lia].
Qed.

Lemma attach_zero j : 0 <= j < 512 -> pte_at m2 pg j = 0.
Proof.
  intros Hj. destruct attach_pages as (Hpg & _ & Hnone & Hppg & Hpp).
  apply page_range in Hpg as [Halg _], Hpp as [Halp _].
  unfold pte_at. apply load64_zero. intros x Hx'.
  assert (Hin : in_page pg x) by (unfold in_page, PGSIZE; lia).
  unfold attach_mem. rewrite rd_store64_ne.
  - rewrite rd_memset by (unfold PGSIZE; lia). rewrite decide_True by done. done.
  - intros Hx. revert Hin. apply (pages_disjoint p); [done|done|done|].
    unfold in_page, PGSIZE. lia.
Qed.

Lemma attach_xl_zero k va : xl m2 k pg va = 0.
Proof.
  unfold xl. destruct k; cbn [leafaddr].
  - apply (attach_zero (PX 0 va)), PX_range.
  - rewrite attach_zero by apply PX_range. done.
Qed.

Lemma attach_child : PTE2PA (Z.lor (PA2PTE pg) PTE_V) = pg.
Proof.
  destruct attach_pages as (Hpg & _). apply page_range in Hpg as [? ?].
  apply PTE2PA_PA2PTE; [lia|done|by vm_compute].
Qed.

Lemma attach_inv s2 : ram s2 = m2 -> freelist s2 = load64 (ram s) pg ->
  0 <= pre * 512 + i -> (pre * 512 + i) * 2 ^ (21 + 9 * Z.of_nat lv) < MAXVA ->
  ptinv s2 (<[pg := (lv, pre * 512 + i)]> own) fl.
Proof.
  intros Hm Hf Hlo Hhi. destruct attach_pages as (Hpg & Hnfl & Hnone & Hppg & Hpp).
  destruct (pi_free _ _ _ _ _ Hinv) as (Hfl & Hnd & Hall).
  apply NoDup_cons in Hnd as [_ Hnd]. apply Forall_cons in Hall as [_ Hall].
  destruct Hfl as [Hhd Hfl]. split.
  - refine (conj _ (conj Hnd Hall)). rewrite Hm, Hf.
    apply flist_frame with (ram s); [|exact Hfl].
    intros q x Hq Hx. apply attach_rd.
    all: assert (Hqp : page_ok kend q) by (by eapply Forall_forall in Hall).
    all: apply page_range in Hqp as [? _], Hpg as [? _], Hpp as [? _].
    all: apply (pages_disjoint q); [done|done| |unfold in_page, PGSIZE; lia].
    + intros ->. destruct (pi_page _ _ _ _ _ Hinv _ _ Hp) as [_ Hn].
      by apply Hn, elem_of_cons; right.
    + intros ->. exact (Hnfl Hq).
  - rewrite lookup_insert_ne; [apply Hinv|]. intros ->.
    rewrite (pi_root _ _ _ _ _ Hinv) in Hnone. done.
  - intros q e Hq. apply lookup_insert_Some in Hq as [[<- <-]|[Hne Hq]]; [done|].
    destruct (pi_page _ _ _ _ _ Hinv _ _ Hq) as [? Hx].
    by apply not_elem_of_cons in Hx as [_ ?].
  - rewrite Hm. clear s2 Hm Hf. intros q k pr j Hq Hj Hv.
    apply lookup_insert_Some in Hq as [[<- Hq]|[Hne Hq]].
    { rewrite attach_zero in Hv by done. done. }
    destruct (decide ((q, j) = (p, i))) as [E|E].
    + injection E as -> ->. rewrite Hp in Hq. injection Hq as <- <-.
      rewrite attach_new, attach_child. apply lookup_insert_eq.
    + rewrite (attach_old _ _ _ Hq Hj E) in *.
      pose proof (pi_child _ _ _ _ _ Hinv _ _ _ _ Hq Hj Hv) as Hc.
      rewrite lookup_insert_ne; [exact Hc|]. intros Heq. rewrite <- Heq, Hnone in Hc.
      discriminate Hc.
  - rewrite Hm. clear s2 Hm Hf. intros q k pr j Hq Hj Hv.
    apply lookup_insert_Some in Hq as [[<- Hq]|[Hne Hq]].
    { rewrite attach_zero in Hv by done. done. }
    destruct (decide ((q, j) = (p, i))) as [E|E].
    + injection E as -> ->. clear Hv. rewrite attach_new. apply page_range in Hpg as [? ?].
      destruct (PTE2PA_PA2PTE pg PTE_V) as [_ Hfg]; [lia|done|by vm_compute|exact Hfg].
    + rewrite (attach_old _ _ _ Hq Hj E) in *. exact (pi_flags _ _ _ _ _ Hinv _ _ _ _ Hq Hj Hv).
  - rewrite Hm. clear s2 Hm Hf. intros q k pr Hq.
    apply lookup_insert_Some in Hq as [[<- Hq]|[Hne Hq]].
    { injection Hq as <- <-. right. exists p, pre, i. rewrite attach_new, attach_child, pvalid_V.
      rewrite lookup_insert_ne by (intros ->; exact (Hppg eq_refl)). done. }
    destruct (pi_tree _ _ _ _ _ Hinv _ _ _ Hq) as [?|(q' & pr' & j & Hq' & Hj & Hpr & Hv & Hpa)];
      [by left|right]. exists q', pr', j.
    assert ((q', j) <> (p, i)) as E.
    { intros E. injection E as -> ->. rewrite Hinvalid in Hv. discriminate Hv. }
    rewrite (attach_old _ _ _ Hq' Hj E). rewrite lookup_insert_ne; [done|].
    intros <-. rewrite Hnone in Hq'. discriminate Hq'.
  - intros q k pr Hq. apply lookup_insert_Some in Hq as [[<- Hq]|[Hne Hq]].
    + injection Hq as <- <-. destruct (pi_low _ _ _ _ _ Hinv _ _ _ Hp) as [Hl _].
      refine (conj _ (conj Hlo Hhi)). clear - Hl. lia.
    + exact (pi_low _ _ _ _ _ Hinv _ _ _ Hq).
Qed.

Lemma attach_xl s2 : ram s2 = m2 -> same_xl s s2 own.
Proof.
  intros Hm k q pr va Hq. rewrite Hm. clear s2 Hm. revert q pr Hq.
  unfold xl. induction k as [|k IH]; intros q pr Hq.
  - cbn [leafaddr]. apply (attach_old _ _ _ Hq (PX_range _ _)). congruence.
  - cbn [leafaddr]. destruct (decide ((q, PX (Z.of_nat (S k)) va) = (p, i))) as [E|E].
    + injection E as -> E. rewrite E, Hinvalid, attach_new, pvalid_V, attach_child.
      apply attach_xl_zero.
    + rewrite (attach_old _ _ _ Hq (PX_range _ _) E).
      destruct (pvalid (pte_at (ram s) q (PX (Z.of_nat (S k)) va))) eqn:Hv; [|reflexivity].
      apply (IH _ _ (pi_child _ _ _ _ _ Hinv _ _ _ _ Hq (PX_range _ _) Hv)).
Qed.

End attach.

(** ** Walking with allocation *)

Lemma kalloc_cons s pg : freelist s = pg -> pg <> 0 ->
  kalloc s = Ok pg (Phys (memset (ram s) pg 5 PGSIZE) (load64 (ram s) pg)).
Proof.
  intros Hf Hn. unfold kalloc, mbind, gets. rewrite Hf.
  destruct (Z.eqb_spec pg 0); [done|]. reflexivity.
Qed.

Lemma kalloc_nil s : freelist s = 0 -> kalloc s = Ok 0 s.
Proof. intros Hf. unfold kalloc, mbind, gets. by rewrite Hf. Qed.

Lemma walk_loop_true lv : forall s own fl p va,
  ptinv s own fl -> own !! p = Some (lv, vpre lv va) -> 0 <= va < MAXVA ->
  exists r s' own' fl',
    walk_loop lv p va true s = Ok r s' /\ ptinv s' own' fl' /\
    extends s own fl s' own' fl' /\ same_xl s s' own /\ keeps s s' own /\
    ((r = 0 /\ fl' = []) \/
     (leafaddr (ram s') lv p va = Some r /\ 0 < r /\
      exists p0, own' !! p0 = Some (0%nat, vpre 0 va) /\ r = p0 + 8 * PX 0 va)).
Proof.
  induction lv as [|lv IH]; intros s own fl p va Hinv Hp Hva.
  { exists (p + 8 * PX 0 va), s, own, fl. split_and!; try done; [apply extends_refl|].
    right. destruct (pi_page _ _ _ _ _ Hinv _ _ Hp) as [(_ & ? & _) _].
    pose proof (PX_range 0 va). split_and!; [done|lia|]. eauto. }
  cbn [walk_loop leafaddr negb]. unfold mbind at 1, gets at 1.
  set (i := PX (Z.of_nat (S lv)) va) in *. fold (pte_at (ram s) p i).
  fold (pvalid (pte_at (ram s) p i)).
  assert (Hi : 0 <= i < 512) by apply PX_range.
  assert (Hchild : vpre (S lv) va * 512 + i = vpre lv va) by (apply vpre_child; lia).
  destruct (pvalid (pte_at (ram s) p i)) eqn:Hv.
  - pose proof (pi_child _ _ _ _ _ Hinv _ _ _ _ Hp Hi Hv) as Hc. rewrite Hchild in Hc.
    destruct (IH s own fl _ va Hinv Hc Hva)
      as (r & s' & own' & fl' & Hrun & Hinv' & Hext & Hsame & Hkeep & Hr).
    exists r, s', own', fl'. split_and!; try done.
    destruct Hr as [?|(Hl & Hpos & Hr)]; [by left|]. right. split_and!; try done.
    by rewrite (Hkeep _ _ _ Hp Hi Hv), Hv.
  - destruct fl as [|pg fl].
    { rewrite (bind_ok _ _ _ _ _ (kalloc_nil s (proj1 (pi_free _ _ _ _ _ Hinv)))).
      simpl. exists 0, s, own, []. split_and!; try done; [apply extends_refl|by left]. }
    destruct (attach_pages s own pg fl p lv (vpre (S lv) va) Hinv Hp)
      as (Hpg & Hnfl & Hnone & Hppg & Hpp).
    assert (Hpg0 : pg <> 0) by (destruct Hpg as (_ & ? & _); lia).
    rewrite (bind_ok _ _ _ _ _
      (kalloc_cons s pg (proj1 (proj1 (pi_free _ _ _ _ _ Hinv))) Hpg0)).
    destruct (Z.eqb_spec pg 0); [done|].
    set (s2 := Phys (attach_mem (ram s) p i pg) (load64 (ram s) pg)).
    pose proof (attach_inv s own pg fl p lv (vpre (S lv) va) i Hinv Hp Hi Hv s2 eq_refl eq_refl)
      as Hinv2.
    rewrite Hchild in Hinv2.
    destruct (vpre_low lv va Hva) as [Hlo Hhi]. specialize (Hinv2 Hlo Hhi).
    pose proof (attach_xl s own pg fl p lv (vpre (S lv) va) i Hinv Hp Hi Hv s2 eq_refl)
      as Hsame2.
    destruct (IH s2 _ fl pg va Hinv2 (lookup_insert_eq _ _ _) Hva)
      as (r & s' & own' & fl' & Hrun & Hinv' & Hext & Hsame & Hkeep & Hr).
    exists r, s', own', fl'.
    assert (Hsub : own ⊆ <[pg := (lv, vpre lv va)]> own) by (by apply insert_subseteq).
    assert (Hk2 : keeps s s2 own).
    { intros q e j Hq Hj Hvq. eapply attach_old; try done. intros E.
      injection E as -> ->. rewrite Hv in Hvq. discriminate Hvq. }
    assert (Hnew : pte_at (ram s2) p i = Z.lor (PA2PTE pg) PTE_V) by apply attach_new.
    assert (Hp2 : <[pg := (lv, vpre lv va)]> own !! p = Some (S lv, vpre (S lv) va))
      by (by rewrite lookup_insert_ne).
    split_and!; [exact Hrun|exact Hinv'| | | |].
    + eapply extends_trans; [|exact Hext]. split; [exact Hsub|]. split.
      * exists [pg]. split; [done|]. intros q. rewrite lookup_insert_is_Some.
        rewrite list_elem_of_singleton. clear. destruct (decide (pg = q)); naive_solver.
      * intros x Hx. apply attach_rd; [done|apply Hx; eauto|].
        apply Hx. rewrite lookup_insert_eq. eauto.
    + eapply same_xl_trans; [exact Hsub|exact Hsame2|exact Hsame].
    + intros q e j Hq Hj Hvq. rewrite <- (Hk2 q e j Hq Hj Hvq).
      apply (Hkeep q e j); [by eapply lookup_weaken|done|].
      by rewrite (Hk2 q e j Hq Hj Hvq).
    + destruct Hr as [?|(Hl & Hpos & Hr)]; [by left|]. right.
      refine (conj _ (conj Hpos Hr)).
      assert (Hkp : pte_at (ram s') p i = Z.lor (PA2PTE pg) PTE_V).
      { rewrite <- Hnew. apply (Hkeep p _ i Hp2 Hi). rewrite Hnew. apply pvalid_V. }
      rewrite Hkp, pvalid_V. erewrite attach_child; eassumption.
Qed.

(** ** Writing a leaf entry *)

Lemma PX_same_page lv va va' : 0 <= lv -> va / PGSIZE = va' / PGSIZE -> PX lv va = PX lv va'.
Proof.
  intros Hlv H. rewrite !PX_spec by done. rewrite Z.pow_add_r by lia.
  change (2 ^ 12) with PGSIZE. rewrite <- !Z.div_div by (unfold PGSIZE; lia). by rewrite H.
Qed.

Lemma leafaddr_same_page m lv va va' : va / PGSIZE = va' / PGSIZE ->
  forall p, leafaddr m lv p va = leafaddr m lv p va'.
Proof.
  intros H. induction lv as [|lv IH]; intros p; cbn [leafaddr].
  - by rewrite (PX_same_page 0 va va').
  - rewrite (PX_same_page _ va va') by (lia || done). destruct (pvalid _); [apply IH|done].
Qed.

Section set_leaf.
Context (s s' : phys) (own : gmap Z (nat * Z)) (fl : list Z) (p0 va v : Z).
Context (Hinv : ptinv s own fl) (Hp0 : own !! p0 = Some (0%nat, vpre 0 va)).
Context (Hva : 0 <= va < MAXVA) (Hv : 0 <= v < 2 ^ 64).
Context (Hram : ram s' = store64 (ram s) (p0 + 8 * PX 0 va) v).
Context (Hfl : freelist s' = freelist s).

Lemma set_leaf_rd x : ~ in_page p0 x -> rd (ram s') x = rd (ram s) x.
Proof.
  intros Hx. rewrite Hram. apply rd_store64_ne. pose proof (PX_range 0 va).
  unfold in_page, PGSIZE in Hx. lia.
Qed.

Lemma set_leaf_pte q e j : own !! q = Some e -> 0 <= j < 512 -> (q, j) <> (p0, PX 0 va) ->
  pte_at (ram s') q j = pte_at (ram s) q j.
Proof.
  intros Hq Hj Hne. destruct (decide (q = p0)) as [->|Hqp].
  - unfold pte_at. rewrite Hram. apply load64_store64_ne.
    assert (j <> PX 0 va) by congruence. lia.
  - apply pte_at_frame; [done|]. intros x Hx. apply set_leaf_rd.
    destruct (pi_page _ _ _ _ _ Hinv _ _ Hq) as [[? _] _].
    destruct (pi_page _ _ _ _ _ Hinv _ _ Hp0) as [[? _] _].
    by apply (pages_disjoint q).
Qed.

Lemma set_leaf_inv : ptinv s' own fl.
Proof.
  split.
  - apply free_ok_frame with s; [done| |apply Hinv].
    intros pa x Hpa Hx. apply set_leaf_rd.
    destruct (pi_page _ _ _ _ _ Hinv _ _ Hp0) as [[? _] Hnin].
    destruct (pi_free _ _ _ _ _ Hinv) as (_ & _ & Hall).
    assert (page_ok kend pa) as [? _] by (by eapply Forall_forall in Hall).
    apply (pages_disjoint pa); [done|done| |done]. intros ->. exact (Hnin Hpa).
  - apply Hinv.
  - apply Hinv.
  - intros q lv pre j Hq Hj. rewrite (set_leaf_pte q _ j Hq Hj).
    + by apply Hinv.
    + intros E. injection E as -> _. rewrite Hp0 in Hq. discriminate Hq.
  - intros q lv pre j Hq Hj. rewrite (set_leaf_pte q _ j Hq Hj).
    + by eapply pi_flags.
    + intros E. injection E as -> _. rewrite Hp0 in Hq. discriminate Hq.
  - intros p lv pre Hp. apply (pi_tree_frame s s' own fl p lv pre Hinv Hp).
    intros q pre' i Hq Hi _. apply (set_leaf_pte q _ i Hq Hi).
    intros E. injection E as -> _. rewrite Hp0 in Hq. discriminate Hq.
  - apply Hinv.
Qed.

Lemma set_leaf_addr va' : forall k q pre, own !! q = Some (k, pre) ->
  leafaddr (ram s') k q va' = leafaddr (ram s) k q va'.
Proof.
  induction k as [|k IH]; intros q pre Hq; [done|]. cbn [leafaddr].
  rewrite (set_leaf_pte q _ _ Hq (PX_range _ _)).
  - destruct (pvalid (pte_at (ram s) q (PX (Z.of_nat (S k)) va'))) eqn:E; [|reflexivity].
    apply (IH _ _ (pi_child _ _ _ _ _ Hinv _ _ _ _ Hq (PX_range _ _) E)).
  - intros E. injection E as -> _. rewrite Hp0 in Hq. discriminate Hq.
Qed.

Lemma set_leaf_xlate va' : leafaddr (ram s) 2 root va = Some (p0 + 8 * PX 0 va) ->
  0 <= va' < MAXVA ->
  xlate s' root va' = if decide (va' / PGSIZE = va / PGSIZE) then v else xlate s root va'.
Proof.
  intros Hl Hva'. unfold xlate, xl.
  rewrite (set_leaf_addr va' 2 root 0 (pi_root _ _ _ _ _ Hinv)). case_decide as Hpg.
  - rewrite (leafaddr_same_page _ _ _ _ Hpg), Hl, Hram. by apply load64_store64_eq.
  - destruct (leafaddr (ram s) 2 root va') as [a'|] eqn:Hl'; [|done].
    destruct (leafaddr_label s own fl Hinv 2 root va' a') as (q & Hq & ->); [lia| |done|].
    { rewrite vpre_top by done. apply Hinv. }
    apply (set_leaf_pte q _ (PX 0 va') Hq (PX_range _ _)). intros E. apply Hpg.
    injection E as -> HPX. apply same_page; [lia|lia|]. split; [|done].
    rewrite Hp0 in Hq. by injection Hq.
Qed.

Lemma set_leaf_extends : extends s own fl s' own fl.
Proof.
  split; [done|]. split.
  - exists []. split; [reflexivity|]. intros q. split; [intros H; left; exact H|].
    intros [H|H]; [exact H|by apply elem_of_nil in H].
  - intros x Hx. apply set_leaf_rd, Hx. eauto.
Qed.

End set_leaf.

(** ** mappages *)

Lemma walk_true s own fl va : ptinv s own fl -> 0 <= va < MAXVA ->
  exists r s' own' fl',
    walk root va true s = Ok r s' /\ ptinv s' own' fl' /\ extends s own fl s' own' fl' /\
    (forall v, xlate s' root v = xlate s root v) /\
    ((r = 0 /\ fl' = []) \/
     (leafaddr (ram s') 2 root va = Some r /\ 0 < r /\
      exists p0, own' !! p0 = Some (0%nat, vpre 0 va) /\ r = p0 + 8 * PX 0 va)).
Proof.
  intros Hinv Hva.
  destruct (walk_loop_true 2 s own fl root va Hinv) as
    (r & s' & own' & fl' & Hrun & Hinv' & Hext & Hsame & _ & Hr); [|lia|].
  { rewrite vpre_top by done. apply Hinv. }
  exists r, s', own', fl'. split_and!; try done.
  - unfold walk. destruct (Z.leb_spec MAXVA va); [lia|done].
  - intros v. apply (Hsame 2%nat root 0), Hinv.
Qed.

(** The entry mappages writes for a page of the range that starts at [a]. *)
Definition map_entry (pa perm : Z) : Z := Z.lor (Z.lor (PA2PTE pa) perm) PTE_V.

Lemma map_entry_range pa perm : 0 <= perm < 1024 -> 0 <= map_entry pa perm < 2 ^ 64.
Proof.
  intros. unfold map_entry. apply lor_range; [lia| |by vm_compute].
  apply lor_range; [lia|apply u64_range|lia].
Qed.

Lemma mappages_loop_run fuel : forall n s own fl a pa perm,
  (n < fuel)%nat -> ptinv s own fl ->
  a mod PGSIZE = 0 -> 0 <= a -> a + Z.of_nat (S n) * PGSIZE <= MAXVA ->
  0 <= pa -> pa + Z.of_nat n * PGSIZE < 2 ^ 64 -> 0 <= perm < 1024 ->
  (forall v, a <= v < a + Z.of_nat (S n) * PGSIZE -> pvalid (xlate s root v) = false) ->
  exists r s' own' fl' k,
    mappages_loop fuel root a (a + Z.of_nat n * PGSIZE) pa perm s = Ok r s' /\
    ptinv s' own' fl' /\ extends s own fl s' own' fl' /\
    (forall v, 0 <= v < MAXVA -> xlate s' root v =
       if decide (a <= v < a + Z.of_nat k * PGSIZE)
       then map_entry (pa + (pgbase v - a)) perm else xlate s root v) /\
    ((r = 0 /\ k = S n) \/ (r = -1 /\ (k <= n)%nat /\ fl' = [])).
Proof.
  induction fuel as [|fuel IH];
    intros n s own fl a pa perm Hf Hinv Hal Ha Hmax Hpa Hpamax Hperm Hfree; [lia|].
  assert (HPG : PGSIZE = 4096) by done.
  assert (HMAX : MAXVA = 2 ^ 38) by done.
  destruct (walk_true s own fl a Hinv) as
    (r & s1 & own1 & fl1 & Hrun & Hinv1 & Hext1 & Hx1 & Hr); [nia|].
  cbn [mappages_loop]. rewrite (bind_ok _ _ _ _ _ Hrun).
  destruct Hr as [(-> & ->)|(Hl & Hpos & p0 & Hp0 & Hr)].
  { exists (-1), s1, own1, [], 0%nat. split_and!; try done.
    - intros v Hv. rewrite decide_False by lia. by rewrite Hx1.
    - right. split_and!; [done|lia|done]. }
  destruct (Z.eqb_spec r 0); [lia|]. unfold mbind at 1, gets at 1.
  assert (Hld : load64 (ram s1) r = xlate s root a).
  { rewrite <- Hx1. unfold xlate, xl. by rewrite Hl. }
  fold (pvalid (load64 (ram s1) r)). rewrite Hld, Hfree by nia.
  unfold mbind at 1. unfold ram_update, modify.
  set (s2 := s1 <| ram ::= _ |>).
  assert (Hram : ram s2 = store64 (ram s1) (p0 + 8 * PX 0 a) (map_entry pa perm))
    by (rewrite <- Hr; reflexivity).
  assert (Hflr : freelist s2 = freelist s1) by reflexivity.
  clearbody s2.
  assert (Harange : 0 <= a < MAXVA) by nia.
  pose proof (map_entry_range pa perm Hperm) as Hent.
  pose proof (set_leaf_inv s1 s2 own1 fl1 p0 a (map_entry pa perm) Hinv1 Hp0 Hram Hflr) as Hinv2.
  pose proof (fun va' => set_leaf_xlate s1 s2 own1 fl1 p0 a (map_entry pa perm)
                Hinv1 Hp0 Harange Hent Hram va' ltac:(by rewrite <- Hr)) as Hx2.
  pose proof (set_leaf_extends s1 s2 own1 fl1 p0 a (map_entry pa perm) Hp0 Hram) as Hext2.
  pose proof (extends_trans _ _ _ _ _ _ _ _ _ Hext1 Hext2) as Hext.
  assert (Hpage : forall v, 0 <= v -> v / PGSIZE = a / PGSIZE <-> a <= v < a + PGSIZE).
  { intros v Hv. rewrite HPG in *. pose proof (Z.div_mod a 4096). pose proof (Z.div_mod v 4096).
    pose proof (Z.mod_pos_bound v 4096). lia. }
  destruct (Z.eqb_spec a (a + Z.of_nat n * PGSIZE)) as [Hlast|Hlast].
  - assert (n = 0%nat) as -> by lia.
    exists 0, s2, own1, fl1, 1%nat. split_and!; try done.
    + intros v Hv. rewrite Hx2, Hx1 by done. specialize (Hpage v ltac:(lia)).
      destruct (decide (a <= v < a + Z.of_nat 1 * PGSIZE)) as [Hc|Hc].
      * rewrite decide_True by (apply Hpage; lia). rewrite (pgbase_unique a v) by (done || lia).
        by replace (pa + (a - a)) with pa by lia.
      * rewrite decide_False; [done|]. rewrite Hpage. lia.
    + by left.
  - destruct n as [|n]; [lia|].
    rewrite (u64_small (a + PGSIZE)), (u64_small (pa + PGSIZE)) by nia.
    replace (a + Z.of_nat (S n) * PGSIZE) with (a + PGSIZE + Z.of_nat n * PGSIZE) by lia.
    destruct (IH n s2 own1 fl1 (a + PGSIZE) (pa + PGSIZE) perm)
      as (r' & s' & own' & fl' & k & Hrun' & Hinv' & Hext' & Hx' & Hr'); try done; try nia.
    { by rewrite <- Zplus_mod_idemp_r, Z_mod_same_full, Z.add_0_r. }
    { intros v Hv. rewrite Hx2, Hx1 by nia. rewrite decide_False.
      - apply Hfree. nia.
      - rewrite Hpage by lia. lia. }
    exists r', s', own', fl', (S k). split_and!; [exact Hrun'|exact Hinv'| | |].
    + by eapply extends_trans.
    + intros v Hv. rewrite Hx' by done. specialize (Hpage v ltac:(lia)).
      destruct (decide (a + PGSIZE <= v < a + PGSIZE + Z.of_nat k * PGSIZE)) as [Hc|Hc].
      * rewrite decide_True by nia.
        by replace (pa + PGSIZE + (pgbase v - (a + PGSIZE))) with (pa + (pgbase v - a)) by lia.
      * rewrite Hx2, Hx1 by done.
        destruct (decide (a <= v < a + Z.of_nat (S k) * PGSIZE)) as [Hc'|Hc'].
        -- rewrite decide_True by (apply Hpage; nia).
           rewrite (pgbase_unique a v) by (done || nia).
           by replace (pa + (a - a)) with pa by lia.
        -- rewrite decide_False; [done|]. rewrite Hpage. nia.
    + destruct Hr' as [(-> & ->)|(-> & ? & ->)]; [by left|]. right. split_and!; [done|lia|done].
Qed.

Lemma pgbase_down v : 0 <= v < 2 ^ 64 -> PGROUNDDOWN v = pgbase v.
Proof. apply PGROUNDDOWN_spec. Qed.

Lemma pgbase_aligned v : pgbase v mod PGSIZE = 0.
Proof. by apply Z_mod_mult. Qed.

Lemma mappages_run s own fl va size pa perm :
  ptinv s own fl -> 0 <= va -> 0 < size -> va + size <= MAXVA ->
  0 <= pa -> pa + size + PGSIZE <= 2 ^ 64 -> 0 <= perm < 1024 ->
  (forall v, pgbase va <= v < pgbase (va + size - 1) + PGSIZE ->
     pvalid (xlate s root v) = false) ->
  exists r s' own' fl' hi,
    mappages root va size pa perm s = Ok r s' /\
    ptinv s' own' fl' /\ extends s own fl s' own' fl' /\
    (forall v, 0 <= v < MAXVA -> xlate s' root v =
       if decide (pgbase va <= v < hi)
       then map_entry (pa + (pgbase v - pgbase va)) perm else xlate s root v) /\
    ((r = 0 /\ hi = pgbase (va + size - 1) + PGSIZE) \/
     (r = -1 /\ hi <= pgbase (va + size - 1) /\ fl' = [])).
Proof.
  intros Hinv Hva Hsz Hmax Hpa Hpam Hperm Hfree.
  assert (HPG : PGSIZE = 4096) by done. assert (HMAX : MAXVA = 2 ^ 38) by done.
  unfold mappages. destruct (Z.eqb_spec size 0) as [?|_]; [lia|].
  rewrite (u64_small (va + size)), (u64_small (va + size - 1)) by lia.
  rewrite !pgbase_down by lia.
  set (a := pgbase va) in *. set (last := pgbase (va + size - 1)) in *.
  pose proof (pgbase_range va Hva) as Hra. fold a in Hra.
  pose proof (pgbase_range (va + size - 1) ltac:(lia)) as Hrl. fold last in Hrl.
  pose proof (pgbase_aligned va) as Hala. fold a in Hala.
  pose proof (pgbase_aligned (va + size - 1)) as Hall. fold last in Hall.
  assert (Hle : a <= last).
  { unfold a, last, pgbase. pose proof (Z.div_le_mono va (va + size - 1) PGSIZE). nia. }
  destruct (Z.leb_spec a last); [|lia].
  set (n := Z.to_nat ((last - a) / PGSIZE)).
  assert (Hn : last = a + Z.of_nat n * PGSIZE).
  { unfold n. rewrite Z2Nat.id by (apply Z.div_pos; lia). rewrite HPG in *.
    pose proof (Z.div_mod last 4096). pose proof (Z.div_mod a 4096).
    replace (last - a) with ((last / 4096 - a / 4096) * 4096) by lia.
    rewrite Z.div_mul by lia. lia. }
  destruct (mappages_loop_run (S n) n s own fl a pa perm) as
    (r & s' & own' & fl' & k & Hrun & Hinv' & Hext & Hx & Hr); try done; try lia.
  { rewrite HMAX, HPG in *. pose proof (Z.div_mod last 4096). lia. }
  { intros v Hv. apply Hfree. lia. }
  exists r, s', own', fl', (a + Z.of_nat k * PGSIZE). rewrite <- Hn in Hrun.
  split_and!; try done.
  destruct Hr as [(-> & ->)|(-> & ? & ->)]; [left; split; [done|lia]|right; split_and!; [done|nia|done]].
Qed.

(** ** Reading translations *)

(** The physical address a user access to [va] reaches. *)
Definition uaddr (s : phys) (va : Z) : option Z :=
  let e := xlate s root va in
  if (0 <=? va) && (va <? MAXVA) && pvalid e && z2b (Z.land e PTE_U) && negb (PTE2PA e =? 0)
  then Some (PTE2PA e + va mod PGSIZE) else None.

Lemma walkaddr_run s va : 0 <= va ->
  walkaddr root va s =
  Ok (match uaddr s va with Some pa => pa - va mod PGSIZE | None => 0 end) s \/
  (exists a, leafaddr (ram s) 2 root va = Some a /\ a <= 0).
Proof.
  intros Hva. unfold walkaddr, uaddr.
  destruct (Z.leb_spec 0 va); [|lia]. destruct (Z.leb_spec MAXVA va) as [Hm|Hm].
  { left. destruct (Z.ltb_spec va MAXVA); [lia|]. done. }
  destruct (Z.ltb_spec va MAXVA); [|lia]. simpl.
  rewrite (bind_ok _ _ _ _ _ (walk_false root va s Hm)).
  unfold xlate, xl. destruct (leafaddr (ram s) 2 root va) as [a|] eqn:Hl; cbn [default id from_option].
  2: { left. done. }
  destruct (Z.leb_spec a 0) as [Ha|Ha]; [right; eauto|]. left.
  destruct (Z.eqb_spec a 0); [lia|]. unfold mbind, gets, pvalid, z2b.
  destruct (Z.eqb_spec (Z.land (load64 (ram s) a) PTE_V) 0); simpl; [done|].
  destruct (Z.eqb_spec (Z.land (load64 (ram s) a) PTE_U) 0); simpl; [done|].
  destruct (Z.eqb_spec (PTE2PA (load64 (ram s) a)) 0) as [->|]; simpl; [done|].
  unfold mret. f_equal. lia.
Qed.

Lemma walkaddr_ok s own fl va : ptinv s own fl -> 0 <= va ->
  walkaddr root va s =
  Ok (match uaddr s va with Some pa => pa - va mod PGSIZE | None => 0 end) s.
Proof.
  intros Hinv Hva. destruct (decide (va < MAXVA)) as [Hm|Hm].
  2: { unfold walkaddr, uaddr. destruct (Z.leb_spec MAXVA va); [|lia].
       destruct (Z.ltb_spec va MAXVA); [lia|]. by rewrite andb_false_r. }
  destruct (walkaddr_run s va Hva) as [?|(a & Hl & Ha)]; [done|].
  destruct (leafaddr_label s own fl Hinv 2 root va a Hva) as (q & Hq & ->); [|done|].
  { rewrite vpre_top by lia. apply Hinv. }
  destruct (pi_page _ _ _ _ _ Hinv _ _ Hq) as [(_ & ? & _) _].
  pose proof (PX_range 0 va). lia.
Qed.

(** Accesses to one page go to one physical page. *)
Lemma xlate_same_page s va va' : va / PGSIZE = va' / PGSIZE ->
  xlate s root va = xlate s root va'.
Proof. intros H. unfold xlate, xl. by rewrite (leafaddr_same_page _ _ _ _ H). Qed.

End lemmas.
