(* ===== verification/Uvm.v ===== *)
(** * User memory: copying between kernel and user space (kernel/vm.c)

    [ubytes] is the memory a user program sees; copyin, copyout and copyinstr are related
    to it.  [user_ok] says that user pages are apart from the page tables and the free
    pages, and that no two user addresses share a physical byte. *)

From S2P Require Import Prelude Riscv CString Kalloc Vm VmSpec.

Section uvm.
Context (kend root : Z).
Notation ptinv := (ptinv kend root).
Notation uaddr := (uaddr root).
Notation xlate s v := (xlate s root v).

Definition ubyte (s : phys) (va : Z) : Z := rd (ram s) (default 0 (uaddr s va)).
Fixpoint ubytes (s : phys) (va : Z) (n : nat) : list Z :=
  match n with
  | O => []
  | S n' => ubyte s va :: ubytes s (va + 1) n'
  end.

(** Every address of [va, va + n) is mapped for the user. *)
Definition uaccess (s : phys) (va n : Z) : Prop :=
  forall i, 0 <= i < n -> is_Some (uaddr s (va + i)).

Record user_ok (s : phys) (own : gmap Z (nat * Z)) (fl : list Z) : Prop := {
  uo_pt : ptinv s own fl;
  uo_sep : forall v pa, uaddr s v = Some pa ->
    own !! pgbase pa = None /\ pgbase pa ∉ fl;
  uo_inj : forall v v' pa, uaddr s v = Some pa -> uaddr s v' = Some pa -> v = v'
}.

(** ** Accesses within one page *)

Lemma div_same_page va i : 0 <= i -> va mod PGSIZE + i < PGSIZE ->
  (va + i) / PGSIZE = va / PGSIZE /\ (va + i) mod PGSIZE = va mod PGSIZE + i.
Proof.
  unfold PGSIZE. intros. pose proof (Z.div_mod va 4096). pose proof (Z.div_mod (va + i) 4096).
  pose proof (Z.mod_pos_bound va 4096). pose proof (Z.mod_pos_bound (va + i) 4096). lia.
Qed.

Lemma MAXVA_page va : va / PGSIZE < MAXVA / PGSIZE <-> va < MAXVA.
Proof.
  change (MAXVA / PGSIZE) with (2 ^ 26). change MAXVA with (2 ^ 38). unfold PGSIZE.
  pose proof (Z.div_mod va 4096). pose proof (Z.mod_pos_bound va 4096). lia.
Qed.

Lemma uaddr_shift s va i : 0 <= va -> 0 <= va + i -> va / PGSIZE = (va + i) / PGSIZE ->
  uaddr s (va + i) = (fun pa => pa + i) <$> uaddr s va.
Proof.
  intros Hva Hi Hpg. unfold VmSpec.uaddr.
  rewrite (xlate_same_page root s (va + i) va) by done.
  destruct (Z.leb_spec 0 va); [|lia]. destruct (Z.leb_spec 0 (va + i)); [|lia].
  assert ((va + i <? MAXVA) = (va <? MAXVA)) as ->.
  { pose proof (MAXVA_page va). pose proof (MAXVA_page (va + i)). rewrite <- Hpg in *.
    destruct (Z.ltb_spec va MAXVA), (Z.ltb_spec (va + i) MAXVA); tauto || lia. }
  destruct (_ && _ && _ && _); simpl; [|done]. f_equal.
  unfold PGSIZE in *. pose proof (Z.div_mod va 4096). pose proof (Z.div_mod (va + i) 4096). lia.
Qed.

Lemma uaddr_in_page s va i pa : 0 <= va -> 0 <= i -> va mod PGSIZE + i < PGSIZE ->
  uaddr s va = Some pa -> uaddr s (va + i) = Some (pa + i).
Proof.
  intros Hva Hi Hlt Hu. destruct (div_same_page va i Hi Hlt) as [Hd _].
  rewrite uaddr_shift by (done || lia). by rewrite Hu.
Qed.

Lemma uaddr_base s va : 0 <= va ->
  uaddr s va = (fun pa => pa + va mod PGSIZE) <$> uaddr s (pgbase va).
Proof.
  intros Hva. pose proof (pgbase_range va Hva).
  assert (va = pgbase va + va mod PGSIZE) as E.
  { unfold pgbase. pose proof (Z.div_mod va PGSIZE). unfold PGSIZE in *. lia. }
  rewrite E at 1. apply uaddr_shift; [lia|lia|].
  rewrite <- E. unfold pgbase. unfold PGSIZE. by rewrite Z.div_mul.
Qed.

(** What walkaddr returns for the page of [va]. *)
Lemma walkaddr_base s own fl va : ptinv s own fl -> 0 <= va ->
  walkaddr root (pgbase va) s = Ok (default 0 (uaddr s (pgbase va))) s.
Proof.
  intros Hinv Hva. rewrite (walkaddr_ok kend root s own fl) by (done || apply pgbase_range, Hva).
  f_equal. destruct (uaddr s (pgbase va)) as [pa|]; [|done]. simpl.
  rewrite pgbase_aligned. lia.
Qed.

Lemma uaddr_nonzero s va pa : uaddr s va = Some pa -> 0 < pa.
Proof.
  unfold VmSpec.uaddr.
  destruct (Z.eqb_spec (PTE2PA (VmSpec.xlate s root va)) 0) as [|Hn].
  { by rewrite andb_false_r. }
  destruct (_ && _); [|done]. intros [= <-].
  pose proof (u64_range (Z.shiftl (Z.shiftr (xlate s va) 10) 12)).
  unfold PTE2PA in *. pose proof (Z.mod_pos_bound va PGSIZE). unfold PGSIZE in *. lia.
Qed.

Lemma uaddr_lt s va pa : uaddr s va = Some pa -> va < MAXVA.
Proof.
  unfold VmSpec.uaddr. destruct (Z.ltb_spec va MAXVA); [done|]. by rewrite andb_false_r.
Qed.

Lemma ubytes_length s n : forall va, length (ubytes s va n) = n.
Proof. induction n; intros; simpl; auto. Qed.

Lemma ubytes_lookup s n : forall va i, (i < n)%nat ->
  ubytes s va n !! i = Some (ubyte s (va + Z.of_nat i)).
Proof.
  induction n as [|n IH]; intros va i Hi; [lia|]. destruct i as [|i]; simpl.
  - by rewrite Z.add_0_r.
  - rewrite IH by lia. do 2 f_equal. lia.
Qed.

(** The user sees the bytes [l] at [va]. *)
Lemma ubytes_eq s va l :
  (forall i, (i < length l)%nat -> l !! i = Some (ubyte s (va + Z.of_nat i))) ->
  ubytes s va (length l) = l.
Proof.
  intros H. apply list_eq_same_length with (length l); [done|apply ubytes_length|].
  intros i x y Hi Hx Hy. rewrite ubytes_lookup in Hx by done. rewrite H in Hy by done.
  congruence.
Qed.

Lemma ubytes_in_page s va pa n : 0 <= va -> uaddr s va = Some pa ->
  va mod PGSIZE + Z.of_nat n <= PGSIZE -> read_bytes (ram s) pa n = ubytes s va n.
Proof.
  intros Hva Hu. revert va pa Hva Hu. induction n as [|n IH]; intros va pa Hva Hu Hn; [done|].
  simpl. unfold ubyte at 1. rewrite Hu. simpl. f_equal.
  destruct n as [|n]; [done|]. destruct (div_same_page va 1) as [_ Hm]; [lia|lia|].
  apply IH; [lia| |lia]. apply uaddr_in_page; [lia|lia|lia|done].
Qed.

Lemma ubytes_app s n k : forall va, ubytes s va (n + k) = ubytes s va n ++ ubytes s (va + Z.of_nat n) k.
Proof.
  induction n as [|n IH]; intros va; simpl.
  - by rewrite Z.add_0_r.
  - rewrite IH. by replace (va + 1 + Z.of_nat n) with (va + Z.of_nat (S n)) by lia.
Qed.

(** The number of bytes a copy loop handles in one round, and where it goes on. *)
Lemma chunk_bounds va len : 0 <= va < 2 ^ 64 -> 0 < len ->
  let n := PGSIZE - (va - pgbase va) in
  let n := if len <? n then len else n in
  1 <= n <= len /\ va mod PGSIZE + n <= PGSIZE /\ va - pgbase va = va mod PGSIZE /\
  (n < len -> pgbase va + PGSIZE = va + n).
Proof.
  intros Hva Hlen. simpl. unfold pgbase, PGSIZE.
  pose proof (Z.div_mod va 4096). pose proof (Z.mod_pos_bound va 4096).
  destruct (Z.ltb_spec len (4096 - (va - va / 4096 * 4096))); lia.
Qed.

(** ** copyin *)

Lemma copyin_loop_run fuel : forall s own fl va len dst,
  ptinv s own fl -> (Z.to_nat len < fuel)%nat -> 0 <= len -> 0 <= va < 2 ^ 64 ->
  exists r bs, copyin_loop fuel root va len dst s = Ok (r, dst ++ bs) s /\
    ((r = 0 /\ uaccess s va len /\ bs = ubytes s va (Z.to_nat len)) \/
     (r = -1 /\ ~ uaccess s va len)).
Proof.
  induction fuel as [|fuel IH]; intros s own fl va len dst Hinv Hf Hlen Hva; [lia|].
  cbn [copyin_loop]. destruct (Z.ltb_spec 0 len) as [Hpos|Hz].
  2: { exists 0, []. rewrite app_nil_r. split; [done|]. left. split; [done|].
       replace len with 0 by lia. split; [intros i; lia|done]. }
  rewrite pgbase_down by done.
  rewrite (bind_ok _ _ _ _ _ (walkaddr_base s own fl va Hinv (proj1 Hva))).
  pose proof (uaddr_base s va (proj1 Hva)) as Hbase.
  destruct (uaddr s (pgbase va)) as [pa0|] eqn:Hu; cbn [default from_option id].
  2: { exists (-1), []. rewrite app_nil_r. split; [done|]. right. split; [done|].
       intros Hacc. specialize (Hacc 0 ltac:(lia)). rewrite Z.add_0_r, Hbase in Hacc.
       by destruct Hacc. }
  pose proof (uaddr_nonzero _ _ _ Hu). destruct (Z.eqb_spec pa0 0) as [?|_]; [lia|].
  pose proof (chunk_bounds va len Hva Hpos) as Hn. simpl in Hn, Hbase.
  set (n := if len <? PGSIZE - (va - pgbase va) then len else PGSIZE - (va - pgbase va)) in *.
  destruct Hn as (Hn & Hpgn & Hoff & Hnext). rewrite Hoff. clearbody n.
  unfold mbind, gets.
  rewrite (ubytes_in_page s va (pa0 + va mod PGSIZE)) by (done || lia).
  assert (Hin : uaccess s va n).
  { intros i Hi. rewrite (uaddr_in_page s va i (pa0 + va mod PGSIZE)) by (done || lia). eauto. }
  destruct (decide (n = len)) as [E|E].
  - rewrite E in *. replace (len - len) with 0 by lia. destruct fuel as [|fuel]; [lia|].
    cbn. exists 0, (ubytes s va (Z.to_nat len)). split; [done|]. by left.
  - assert (va < MAXVA).
    { destruct (Hin 0 ltac:(lia)) as [? Hx]. rewrite Z.add_0_r in Hx. by eapply uaddr_lt. }
    change MAXVA with (2 ^ 38) in *. pose proof (Z.mod_pos_bound va PGSIZE).
    rewrite Hnext, u64_small by (unfold PGSIZE in *; lia).
    destruct (IH s own fl (va + n) (len - n) (dst ++ ubytes s va (Z.to_nat n)))
      as (r & bs & Hrun & Hr); try done; try (unfold PGSIZE in *; lia).
    exists r, (ubytes s va (Z.to_nat n) ++ bs). rewrite app_assoc. split; [done|].
    destruct Hr as [(-> & Hacc & ->)|(-> & Hacc)].
    + left. split; [done|]. split.
      * intros i Hi. destruct (decide (i < n)); [apply Hin; lia|].
        replace (va + i) with (va + n + (i - n)) by lia. apply Hacc. lia.
      * replace (Z.to_nat len) with (Z.to_nat n + Z.to_nat (len - n))%nat by lia.
        rewrite ubytes_app. rewrite Z2Nat.id by lia. done.
    + right. split; [done|]. intros Ha. apply Hacc. intros i Hi.
      replace (va + n + i) with (va + (n + i)) by lia. apply Ha. lia.
Qed.

(** ** copyout *)

Lemma rd_write_bytes bs : forall m a x,
  rd (write_bytes m a bs) x =
  if decide (a <= x < a + Z.of_nat (length bs)) then default 0 (bs !! Z.to_nat (x - a))
  else rd m x.
Proof.
  induction bs as [|b bs IH]; intros m a x; simpl write_bytes.
  { rewrite decide_False by (simpl; lia). done. }
  rewrite IH. cbn [length]. repeat case_decide; try lia.
  - replace (Z.to_nat (x - a)) with (S (Z.to_nat (x - (a + 1)))) by lia. done.
  - replace x with a by lia. rewrite rd_wr_eq, Z.sub_diag. done.
  - apply rd_wr_ne. lia.
Qed.

(** A write to a user page leaves the tables, the free list and the translations alone. *)
Lemma user_ok_frame s s' own fl : user_ok s own fl -> freelist s' = freelist s ->
  (forall x, (forall v, uaddr s v <> Some x) -> rd (ram s') x = rd (ram s) x) ->
  user_ok s' own fl /\ (forall v, uaddr s' v = uaddr s v).
Proof.
  intros Huo Hf Hfr.
  destruct (ptinv_frame kend root s s' own fl (uo_pt _ _ _ Huo) Hf) as [Hinv' Hsame].
  { intros q x Hq Hx. apply Hfr. intros v Hv. destruct (uo_sep _ _ _ Huo _ _ Hv) as [Hn Hnf].
    assert (pgbase x = q) as E.
    { apply pgbase_unique; [|done]. destruct Hq as [[e Hq]|Hq].
      - apply (pi_page _ _ _ _ _ (uo_pt _ _ _ Huo) _ _ Hq).
      - destruct (pi_free _ _ _ _ _ (uo_pt _ _ _ Huo)) as (_ & _ & Hall).
        assert (page_ok kend q) as [? _] by (by eapply Forall_forall in Hall). done. }
    rewrite E in *. destruct Hq as [[e Hq]|Hq]; [congruence|]. exact (Hnf Hq). }
  assert (Hu : forall v, uaddr s' v = uaddr s v).
  { intros v. unfold VmSpec.uaddr. unfold VmSpec.xlate.
    rewrite (Hsame 2%nat root 0 v (pi_root _ _ _ _ _ (uo_pt _ _ _ Huo))). done. }
  split; [split; [done| |]|done].
  - intros v pa. rewrite Hu. apply Huo.
  - intros v v' pa. rewrite !Hu. apply Huo.
Qed.

Lemma ubyte_ext s s' va : uaddr s' va = uaddr s va ->
  (forall pa, uaddr s va = Some pa -> rd (ram s') pa = rd (ram s) pa) ->
  is_Some (uaddr s va) -> ubyte s' va = ubyte s va.
Proof. intros Hu Hrd [pa Hpa]. unfold ubyte. rewrite Hu, Hpa. simpl. by apply Hrd. Qed.

(** One chunk of copyout: [bs] is written to the [n] bytes of a page from [va] on. *)
Lemma copyout_chunk s own fl va pa n src s1 : user_ok s own fl -> 0 <= n <= Z.of_nat (length src) ->
  (forall i, 0 <= i < n -> uaddr s (va + i) = Some (pa + i)) ->
  s1 = s <| ram ::= fun m => write_bytes m pa (take (Z.to_nat n) src) |> ->
  user_ok s1 own fl /\ (forall v, uaddr s1 v = uaddr s v) /\
  (forall v, 0 <= v -> ~ (va <= v < va + n) -> is_Some (uaddr s v) -> ubyte s1 v = ubyte s v) /\
  (forall x, (forall v, uaddr s v <> Some x) -> rd (ram s1) x = rd (ram s) x) /\
  forall i, 0 <= i < n -> ubyte s1 (va + i) = default 0 (src !! Z.to_nat i).
Proof.
  intros Huo Hn Hin Es1. assert (Htl : length (take (Z.to_nat n) src) = Z.to_nat n) by (rewrite length_take; lia).
  assert (Hrd1 : forall x, rd (ram s1) x =
    if decide (pa <= x < pa + n) then default 0 (src !! Z.to_nat (x - pa)) else rd (ram s) x).
  { intros x. rewrite Es1. simpl. rewrite rd_write_bytes, Htl, Z2Nat.id by lia.
    repeat case_decide; try done. by rewrite lookup_take_lt by lia. }
  assert (Hf1 : freelist s1 = freelist s) by (by rewrite Es1). clear Es1.
  assert (Hout : forall x, (forall v, uaddr s v <> Some x) -> rd (ram s1) x = rd (ram s) x).
  { intros x Hx. rewrite Hrd1, decide_False; [done|]. intros Hr.
    apply (Hx (va + (x - pa))). rewrite Hin by lia. f_equal. lia. }
  destruct (user_ok_frame s s1 own fl Huo Hf1 Hout) as [Huo1 Hu1]. split_and!; [done|done| |done|].
  - intros v Hv0 Hv Hs. apply ubyte_ext; [apply Hu1| |done]. intros p Hp.
    rewrite Hrd1, decide_False; [done|]. intros Hr. assert (v = va + (p - pa)); [|lia].
    apply (uo_inj _ _ _ Huo _ _ p Hp). rewrite Hin by lia. f_equal. lia.
  - intros i Hi. unfold ubyte. rewrite Hu1, Hin by done. simpl. rewrite Hrd1, decide_True by lia.
    by replace (pa + i - pa) with i by lia.
Qed.

Lemma copyout_loop_run fuel : forall s own fl va src,
  user_ok s own fl -> (length src < fuel)%nat -> 0 <= va < 2 ^ 64 ->
  exists r s', copyout_loop fuel root va src s = Ok r s' /\ user_ok s' own fl /\
    (forall v, uaddr s' v = uaddr s v) /\
    (forall v, 0 <= v -> ~ (va <= v < va + Z.of_nat (length src)) -> is_Some (uaddr s v) ->
       ubyte s' v = ubyte s v) /\
    (forall x, (forall v, uaddr s v <> Some x) -> rd (ram s') x = rd (ram s) x) /\
    ((r = 0 /\ uaccess s va (Z.of_nat (length src)) /\ ubytes s' va (length src) = src) \/
     (r = -1 /\ ~ uaccess s va (Z.of_nat (length src)))).
Proof.
  induction fuel as [|fuel IH]; intros s own fl va src Huo Hf Hva; [lia|].
  cbn [copyout_loop]. destruct (Z.ltb_spec 0 (Z.of_nat (length src))) as [Hpos|Hz].
  2: { destruct src; [|simpl in Hz; lia]. exists 0, s. split_and!; try done.
       left. split_and!; [done|intros i; simpl; lia|done]. }
  set (len := Z.of_nat (length src)) in *. assert (Hlen : length src = Z.to_nat len) by lia.
  rewrite pgbase_down by done.
  rewrite (bind_ok _ _ _ _ _ (walkaddr_base s own fl va (uo_pt _ _ _ Huo) (proj1 Hva))).
  pose proof (uaddr_base s va (proj1 Hva)) as Hbase.
  destruct (uaddr s (pgbase va)) as [pa0|] eqn:Hu; cbn [default from_option id].
  2: { exists (-1), s. split_and!; try done. right. split; [done|].
       intros Hacc. specialize (Hacc 0 ltac:(lia)). rewrite Z.add_0_r, Hbase in Hacc.
       by destruct Hacc. }
  pose proof (uaddr_nonzero _ _ _ Hu). destruct (Z.eqb_spec pa0 0) as [?|_]; [lia|].
  pose proof (chunk_bounds va len Hva Hpos) as Hn. simpl in Hn, Hbase.
  set (n := if len <? PGSIZE - (va - pgbase va) then len else PGSIZE - (va - pgbase va)) in *.
  destruct Hn as (Hn & Hpgn & Hoff & Hnext). rewrite Hoff. clearbody n.
  set (pa := pa0 + va mod PGSIZE) in *.
  assert (Hin : forall i, 0 <= i < n -> uaddr s (va + i) = Some (pa + i))
    by (intros; apply uaddr_in_page; done || lia).
  unfold mbind at 1. unfold ram_update, modify. set (s1 := s <| ram ::= _ |>).
  destruct (copyout_chunk s own fl va pa n src s1 Huo ltac:(lia) Hin eq_refl) as (Huo1 & Hu1 & Hout1 & Hkeep & Hnew1). clearbody s1.
  assert (Hacc1 : uaccess s va n) by (intros i Hi; rewrite Hin by done; eauto).
  destruct (decide (n = len)) as [E|E].
  - rewrite E in *. rewrite drop_ge by lia. destruct fuel as [|fuel]; [lia|].
    exists 0, s1. split_and!; try done.
    left. split_and!; try done. apply ubytes_eq. intros i Hi.
    rewrite Hnew1 by lia. rewrite Nat2Z.id.
    destruct (lookup_lt_is_Some_2 src i Hi) as [b ->]. done.
  - assert (Hmax : va < MAXVA).
    { apply (uaddr_lt s va (pa + 0)). rewrite <- (Z.add_0_r va) at 1. apply Hin. lia. }
    change MAXVA with (2 ^ 38) in Hmax. pose proof (Z.mod_pos_bound va PGSIZE).
    rewrite Hnext, u64_small by (unfold PGSIZE in *; lia).
    assert (Hdl : length (drop (Z.to_nat n) src) = Z.to_nat (len - n))
      by (rewrite length_drop; lia).
    destruct (IH s1 own fl (va + n) (drop (Z.to_nat n) src)) as
      (r & s' & Hrun & Huo' & Hu' & Hout' & Hrd' & Hr); [done|lia|unfold PGSIZE in *; lia|].
    rewrite Hdl in *. rewrite (Z2Nat.id (len - n)) in * by lia.
    exists r, s'. split_and!; try done.
    + intros v. by rewrite Hu', Hu1.
    + intros v Hv0 Hv Hs. rewrite Hout', Hout1; [done|lia|lia|done|lia|lia|by rewrite Hu1].
    + intros x Hx. rewrite Hrd' by (intros v; rewrite Hu1; apply Hx). by apply Hkeep.
    + destruct Hr as [(-> & Hacc & Hnew)|(-> & Hacc)].
      * left. split; [done|]. split.
        { intros i Hi. destruct (decide (i < n)); [apply Hacc1; lia|].
          rewrite <- Hu1. replace (va + i) with (va + n + (i - n)) by lia. apply Hacc. lia. }
        apply ubytes_eq. intros i Hi. destruct (decide (Z.of_nat i < n)) as [Hlt|Hge].
        -- rewrite Hout' by (lia || rewrite Hu1, Hin by lia; eauto).
           rewrite Hnew1, Nat2Z.id by lia.
           destruct (lookup_lt_is_Some_2 src i Hi) as [b ->]. done.
        -- assert (Hl : ubytes s' (va + n) (Z.to_nat (len - n)) !! (i - Z.to_nat n)%nat =
                      drop (Z.to_nat n) src !! (i - Z.to_nat n)%nat) by (by rewrite Hnew).
           rewrite ubytes_lookup in Hl by lia. rewrite lookup_drop in Hl.
           replace (Z.to_nat n + (i - Z.to_nat n))%nat with i in Hl by lia.
           rewrite <- Hl. do 2 f_equal. lia.
      * right. split; [done|]. intros Ha. apply Hacc. intros i Hi. rewrite Hu1.
        replace (va + n + i) with (va + (n + i)) by lia. apply Ha. lia.
Qed.

(** ** copyinstr *)

(** The page part of copyinstr: it stops behind the first NUL. *)
Lemma copyinstr_page_run n : forall m p bs nul,
  copyinstr_page m p n = (bs, nul) ->
  bs = read_bytes m p (length bs) /\ (length bs <= n)%nat /\
  if nul then exists k, length bs = S k /\ rd m (p + Z.of_nat k) = 0 /\
              forall j, 0 <= j < Z.of_nat k -> rd m (p + j) <> 0
  else length bs = n /\ forall j, 0 <= j < Z.of_nat n -> rd m (p + j) <> 0.
Proof.
  induction n as [|n IH]; intros m p bs nul H; simpl in H.
  { simplify_eq. split_and!; simpl; [done|lia|done|lia]. }
  destruct (Z.eqb_spec (rd m p) 0) as [Hz|Hz].
  { simplify_eq. simpl. rewrite Hz. split_and!; [done|lia|]. exists 0%nat.
    rewrite Z.add_0_r. split_and!; [done|done|lia]. }
  destruct (copyinstr_page m (p + 1) n) as [bs' nul'] eqn:E. simplify_eq.
  apply IH in E as (Hbs & Hle & Hn). simpl. split_and!; [by f_equal|lia|].
  destruct nul.
  - destruct Hn as (k & Hk & Hkz & Hj). exists (S k). split_and!; [lia| |].
    + by replace (p + Z.of_nat (S k)) with (p + 1 + Z.of_nat k) by lia.
    + intros j Hj'. destruct (decide (j = 0)) as [->|]; [by rewrite Z.add_0_r|].
      replace (p + j) with (p + 1 + (j - 1)) by lia. apply Hj. lia.
  - destruct Hn as (Hl & Hj). split; [lia|].
    intros j Hj'. destruct (decide (j = 0)) as [->|]; [by rewrite Z.add_0_r|].
    replace (p + j) with (p + 1 + (j - 1)) by lia. apply Hj. lia.
Qed.

(** The user string at [va] is [k] bytes long and ends in a NUL. *)
Definition ustring (s : phys) (va k : Z) : Prop :=
  uaccess s va (k + 1) /\ ubyte s (va + k) = 0 /\
  forall j, 0 <= j < k -> ubyte s (va + j) <> 0.

Lemma copyinstr_loop_run fuel : forall s own fl va max dst,
  ptinv s own fl -> (Z.to_nat max < fuel)%nat -> 0 <= max -> 0 <= va < 2 ^ 64 ->
  exists r bs, copyinstr_loop fuel root va max dst s = Ok (r, dst ++ bs) s /\
    ((r = 0 /\ exists k, 0 <= k < max /\ ustring s va k /\
               bs = ubytes s va (Z.to_nat (k + 1))) \/
     (r = -1 /\ forall k, 0 <= k < max -> ~ ustring s va k)).
Proof.
  induction fuel as [|fuel IH]; intros s own fl va max dst Hinv Hf Hmax Hva; [lia|].
  cbn [copyinstr_loop]. destruct (Z.ltb_spec 0 max) as [Hpos|Hz].
  2: { exists (-1), []. rewrite app_nil_r. split; [done|]. right. split; [done|]. lia. }
  rewrite pgbase_down by done.
  rewrite (bind_ok _ _ _ _ _ (walkaddr_base s own fl va Hinv (proj1 Hva))).
  pose proof (uaddr_base s va (proj1 Hva)) as Hbase.
  destruct (uaddr s (pgbase va)) as [pa0|] eqn:Hu; cbn [default from_option id].
  2: { exists (-1), []. rewrite app_nil_r. split; [done|]. right. split; [done|].
       intros k Hk (Hacc & _). specialize (Hacc 0 ltac:(lia)).
       rewrite Z.add_0_r, Hbase in Hacc. by destruct Hacc. }
  pose proof (uaddr_nonzero _ _ _ Hu). destruct (Z.eqb_spec pa0 0) as [?|_]; [lia|].
  pose proof (chunk_bounds va max Hva Hpos) as Hn. simpl in Hn, Hbase.
  set (n := if max <? PGSIZE - (va - pgbase va) then max else PGSIZE - (va - pgbase va)) in *.
  destruct Hn as (Hn & Hpgn & Hoff & Hnext). rewrite Hoff. clearbody n.
  set (pa := pa0 + va mod PGSIZE) in *.
  assert (Hin : forall i, 0 <= i < n -> uaddr s (va + i) = Some (pa + i))
    by (intros; apply uaddr_in_page; done || lia).
  assert (Hub : forall j, 0 <= j < n -> ubyte s (va + j) = rd (ram s) (pa + j))
    by (intros j Hj; unfold ubyte; by rewrite Hin).
  unfold mbind, gets. destruct (copyinstr_page _ _ _) as [bs nul] eqn:Hpage.
  apply copyinstr_page_run in Hpage as (Hbs & Hble & Hnul).
  rewrite (ubytes_in_page s va pa) in Hbs by (done || lia).
  destruct nul.
  - destruct Hnul as (k & Hk & Hkz & Hj). exists 0, bs. split; [done|]. left. split; [done|].
    exists (Z.of_nat k). split; [lia|]. rewrite Hbs at 1.
    replace (length bs) with (Z.to_nat (Z.of_nat k + 1)) by lia. split; [|done].
    split_and!; [intros i Hi; rewrite Hin by lia; eauto|by rewrite Hub by lia|].
    intros j Hj'. rewrite Hub by lia. by apply Hj.
  - destruct Hnul as (Hlen & Hj). rewrite Hlen in Hbs.
    assert (Hskip : forall k, 0 <= k < n -> ~ ustring s va k).
    { intros k Hk (_ & Hz & _). rewrite Hub in Hz by lia. revert Hz. apply Hj. lia. }
    destruct (decide (n = max)) as [E|E].
    { rewrite E in *. replace (max - max) with 0 by lia. destruct fuel as [|fuel]; [lia|].
      exists (-1), bs. split; [done|]. right. auto. }
    assert (Hmx : va < MAXVA).
    { apply (uaddr_lt s va (pa + 0)). rewrite <- (Z.add_0_r va) at 1. apply Hin. lia. }
    change MAXVA with (2 ^ 38) in Hmx. pose proof (Z.mod_pos_bound va PGSIZE).
    rewrite Hnext, u64_small by (unfold PGSIZE in *; lia).
    destruct (IH s own fl (va + n) (max - n) (dst ++ bs)) as (r & bs' & Hrun & Hr);
      [done|lia|lia|unfold PGSIZE in *; lia|].
    exists r, (bs ++ bs'). rewrite app_assoc. split; [done|].
    destruct Hr as [(-> & k & Hk & (Ha & Hz & Hnz) & ->)|(-> & Hno)].
    + left. split; [done|]. exists (n + k). split; [lia|]. split.
      * split_and!.
        -- intros i Hi. destruct (decide (i < n)); [rewrite Hin by lia; eauto|].
           replace (va + i) with (va + n + (i - n)) by lia. apply Ha. lia.
        -- by replace (va + (n + k)) with (va + n + k) by lia.
        -- intros j Hj'. destruct (decide (j < n)); [rewrite Hub by lia; apply Hj; lia|].
           replace (va + j) with (va + n + (j - n)) by lia. apply Hnz. lia.
      * replace (Z.to_nat (n + k + 1)) with (Z.to_nat n + Z.to_nat (k + 1))%nat by lia.
        rewrite ubytes_app, Z2Nat.id by lia. by rewrite <- Hbs.
    + right. split; [done|]. intros k Hk Hs. destruct (decide (k < n)).
      { by apply (Hskip k); [lia|]. }
      apply (Hno (k - n)); [lia|]. destruct Hs as (Ha & Hz & Hnz). split_and!.
      * intros i Hi. replace (va + n + i) with (va + (n + i)) by lia. apply Ha. lia.
      * by replace (va + n + (k - n)) with (va + k) by lia.
      * intros j Hj'. replace (va + n + j) with (va + (n + j)) by lia. apply Hnz. lia.
Qed.

End uvm.
