(* ===== verification/Uspace.v ===== *)
(** * Address spaces: growing, shrinking, copying and freeing user memory (kernel/vm.c)

    [dat] maps the page-aligned user addresses of an address space to the physical pages
    that back them.  Every physical page the allocator manages is in exactly one place:
    on the free list, in a page table, or in [dat]; the operations move pages between the
    three and lose none. *)

From S2P Require Import Prelude Riscv CString Kalloc Vm VmSpec Uvm.

Section uspace.
Context (kend root : Z).
Notation ptinv := (ptinv kend root).
Notation uaddr := (uaddr root).
Notation xlate s v := (xlate s root v).
Implicit Types (s : phys) (own : gmap Z (nat * Z)) (dat : gmap Z Z) (fl : list Z).

Record leaf_ok s own fl (a pa : Z) : Prop := {
  lf_al : a mod PGSIZE = 0;
  lf_lo : 0 <= a < MAXVA;
  lf_valid : pvalid (xlate s a) = true;
  lf_leaf : PTE_FLAGS (xlate s a) <> PTE_V;
  lf_pa : PTE2PA (xlate s a) = pa;
  lf_page : page_ok kend pa;
  lf_own : own !! pa = None;
  lf_free : pa ∉ fl
}.

Record aspace s own dat fl : Prop := {
  as_pt : ptinv s own fl;
  as_leaf : forall a pa, dat !! a = Some pa -> leaf_ok s own fl a pa;
  as_inj : forall a b pa, dat !! a = Some pa -> dat !! b = Some pa -> a = b
}.

(** Every page the user can touch is a page of [dat]. *)
Definition covers s dat : Prop :=
  forall v, is_Some (uaddr s v) -> is_Some (dat !! pgbase v).

Definition in_pool own dat fl (p : Z) : Prop :=
  p ∈ fl \/ is_Some (own !! p) \/ exists a, dat !! a = Some p.

(** ** Frame lemmas *)

Lemma page_apart p q x : page_ok kend p -> page_ok kend q -> p <> q ->
  in_page p x -> ~ in_page q x.
Proof. intros [? _] [? _]. by apply pages_disjoint. Qed.

Lemma ptinv_frame' s s' own fl fl' : ptinv s own fl -> free_ok kend s' fl' ->
  (forall q, q ∈ fl' -> own !! q = None) ->
  (forall q x, is_Some (own !! q) -> in_page q x -> rd (ram s') x = rd (ram s) x) ->
  ptinv s' own fl' /\ forall v, xlate s' v = xlate s v.
Proof.
  intros Hinv Hfree Hsep Hfr.
  assert (Hpte : forall q e i, own !! q = Some e -> 0 <= i < 512 ->
                   pte_at (ram s') q i = pte_at (ram s) q i).
  { intros q e i Hq Hi. apply pte_at_frame; [done|]. intros x. apply Hfr. eauto. }
  split; [split|].
  - done.
  - apply Hinv.
  - intros p e Hp. split; [by eapply Hinv|]. intros Hin. apply Hsep in Hin. congruence.
  - intros p lv pre i Hp Hi. rewrite (Hpte _ _ _ Hp Hi). by apply Hinv.
  - intros p lv pre i Hp Hi. rewrite (Hpte _ _ _ Hp Hi). by eapply pi_flags.
  - intros p lv pre Hp. apply (pi_tree_frame kend root s s' own fl p lv pre Hinv Hp).
    intros q pre' i Hq Hi _. by apply (Hpte q _ i Hq Hi).
  - apply Hinv.
  - intros v. unfold VmSpec.xlate. eapply xl_frame; [done..|apply Hinv].
Qed.

Lemma leaf_ok_frame s s' own own' fl fl' a pa : leaf_ok s own fl a pa ->
  xlate s' a = xlate s a -> own' !! pa = None -> pa ∉ fl' -> leaf_ok s' own' fl' a pa.
Proof. intros [] E ??. split; rewrite ?E; done. Qed.

Lemma aspace_frame s s' own dat fl fl' : aspace s own dat fl -> free_ok kend s' fl' ->
  (forall q, q ∈ fl' -> own !! q = None /\ forall a, dat !! a <> Some q) ->
  (forall q x, is_Some (own !! q) -> in_page q x -> rd (ram s') x = rd (ram s) x) ->
  aspace s' own dat fl' /\ forall v, xlate s' v = xlate s v.
Proof.
  intros Has Hfree Hsep Hfr.
  destruct (ptinv_frame' s s' own fl fl' (as_pt _ _ _ _ Has) Hfree) as [Hpt Hx];
    [intros q Hq; by apply Hsep|done|].
  split; [|done]. split; [done| |apply Has].
  intros a pa Ha. pose proof (as_leaf _ _ _ _ Has a pa Ha) as Hl.
  apply (leaf_ok_frame s _ own _ fl); [done|done|apply Hl|].
  intros Hin. by apply (proj2 (Hsep _ Hin) a).
Qed.

Lemma aspace_delete s own dat fl a : aspace s own dat fl -> aspace s own (delete a dat) fl.
Proof.
  intros Has. split; [apply Has| |].
  - intros b pb [_ Hb]%lookup_delete_Some. by apply Has.
  - intros b c p [_ Hb]%lookup_delete_Some [_ Hc]%lookup_delete_Some. by eapply Has.
Qed.

(** The user's view of an address depends only on its translation. *)
Lemma uaddr_ext s s' v : xlate s' v = xlate s v -> uaddr s' v = uaddr s v.
Proof. intros E. unfold VmSpec.uaddr. by rewrite E. Qed.

Lemma uaddr_range s v : is_Some (uaddr s v) -> 0 <= v < MAXVA /\ pvalid (xlate s v) = true.
Proof.
  unfold VmSpec.uaddr. destruct (Z.leb_spec 0 v); simpl; [|by intros []].
  destruct (Z.ltb_spec v MAXVA); simpl; [|by intros []].
  destruct (pvalid _); [done|by intros []].
Qed.

Lemma pgbase_xlate s v : 0 <= v -> xlate s (pgbase v) = xlate s v.
Proof.
  intros. apply xlate_same_page. unfold pgbase. by rewrite Z.div_mul.
Qed.

Lemma aspace_user_ok s own dat fl : aspace s own dat fl -> covers s dat ->
  user_ok kend root s own fl.
Proof.
  intros Has Hcov.
  assert (Hpg : forall v pa, uaddr s v = Some pa ->
    exists q, dat !! pgbase v = Some q /\ pa = q + v mod PGSIZE /\ pgbase pa = q /\ 0 <= v).
  { intros v pa Hu. destruct (uaddr_range s v) as [Hr _]; [eauto|].
    destruct (Hcov v) as [q Hq]; [eauto|]. exists q. split; [done|].
    pose proof (as_leaf _ _ _ _ Has _ _ Hq) as Hl.
    assert (pa = q + v mod PGSIZE) as ->.
    { rewrite uaddr_base in Hu by lia. unfold VmSpec.uaddr in Hu.
      destruct (_ && _); [|done]. rewrite (lf_pa _ _ _ _ _ Hl) in Hu.
      rewrite (lf_al _ _ _ _ _ Hl) in Hu. simpl in Hu. injection Hu. lia. }
    split_and!; [done| |lia]. apply pgbase_unique; [apply Hl|].
    pose proof (Z.mod_pos_bound v PGSIZE). unfold PGSIZE in *. lia. }
  split; [apply Has| |].
  - intros v pa Hu. destruct (Hpg v pa Hu) as (q & Hq & -> & -> & _).
    pose proof (as_leaf _ _ _ _ Has _ _ Hq) as Hl. split; apply Hl.
  - intros v v' pa Hu Hu'. destruct (Hpg v pa Hu) as (q & Hq & -> & Hb & ?).
    destruct (Hpg v' _ Hu') as (q' & Hq' & E & Hb' & ?). rewrite Hb in Hb'. subst q'.
    pose proof (as_inj _ _ _ _ Has _ _ _ Hq Hq') as Eb. unfold pgbase in Eb.
    pose proof (Z.div_mod v PGSIZE). pose proof (Z.div_mod v' PGSIZE).
    unfold PGSIZE in *. lia.
Qed.

(** ** uvmunmap *)

Lemma same_page_iff a v : a mod PGSIZE = 0 -> v / PGSIZE = a / PGSIZE <-> a <= v < a + PGSIZE.
Proof.
  intros Ha. unfold PGSIZE in *. pose proof (Z.div_mod a 4096). pose proof (Z.div_mod v 4096).
  pose proof (Z.mod_pos_bound v 4096). lia.
Qed.

Lemma aligned_page_eq a b : a mod PGSIZE = 0 -> b mod PGSIZE = 0 ->
  a <= b < a + PGSIZE -> b = a.
Proof.
  intros Ha Hb H. rewrite <- (pgbase_unique a b Ha H). symmetry. apply pgbase_unique; [done|].
  unfold PGSIZE. lia.
Qed.

(** The leaf entry of a mapped address is in a table page. *)
Lemma valid_leaf s own fl va : ptinv s own fl -> 0 <= va < MAXVA ->
  pvalid (xlate s va) = true ->
  exists p0, own !! p0 = Some (0%nat, vpre 0 va) /\
    leafaddr (ram s) 2 root va = Some (p0 + 8 * PX 0 va) /\ 0 < p0 + 8 * PX 0 va /\
    load64 (ram s) (p0 + 8 * PX 0 va) = xlate s va.
Proof.
  intros Hinv Hva Hv. unfold VmSpec.xlate, xl in *.
  destruct (leafaddr (ram s) 2 root va) as [a|] eqn:Hl; [|done].
  destruct (leafaddr_label kend root s own fl Hinv 2 root va a) as (p0 & Hp0 & ->); [lia| |done|].
  { rewrite vpre_top by done. apply Hinv. }
  exists p0. split_and!; try done.
  destruct (pi_page _ _ _ _ _ Hinv _ _ Hp0) as [(_ & ? & _) _].
  pose proof (PX_range 0 va). lia.
Qed.

Lemma leafaddr_frame s own fl m' : ptinv s own fl ->
  (forall q x, is_Some (own !! q) -> in_page q x -> rd m' x = rd (ram s) x) ->
  forall lv q pre va, own !! q = Some (lv, pre) ->
    leafaddr m' lv q va = leafaddr (ram s) lv q va.
Proof.
  intros Hinv Hfr. induction lv as [|lv IH]; intros q pre va Hq; [done|].
  cbn [leafaddr]. rewrite (pte_at_frame (ram s) m' q) by (apply PX_range || eauto).
  destruct (pvalid _) eqn:Hv; [|done].
  apply (IH _ _ _ (pi_child _ _ _ _ _ Hinv _ _ _ _ Hq (PX_range _ _) Hv)).
Qed.

(** Writing the leaf entry of an address outside [dat]. *)
Lemma aspace_set_leaf s s' own dat fl p0 a v : aspace s own dat fl ->
  own !! p0 = Some (0%nat, vpre 0 a) -> leafaddr (ram s) 2 root a = Some (p0 + 8 * PX 0 a) ->
  0 <= a < MAXVA -> a mod PGSIZE = 0 -> 0 <= v < 2 ^ 64 ->
  ram s' = store64 (ram s) (p0 + 8 * PX 0 a) v -> freelist s' = freelist s ->
  dat !! a = None ->
  aspace s' own dat fl /\
  (forall va', 0 <= va' < MAXVA ->
     xlate s' va' = if decide (a <= va' < a + PGSIZE) then v else xlate s va').
Proof.
  intros Has Hp0 Hl Ha Hal Hv Hram Hfl Hdat.
  pose proof (as_pt _ _ _ _ Has) as Hinv.
  assert (Hx : forall va', 0 <= va' < MAXVA ->
     xlate s' va' = if decide (a <= va' < a + PGSIZE) then v else xlate s va').
  { intros va' Hva'.
    rewrite (set_leaf_xlate kend root s s' own fl p0 a v Hinv Hp0 Ha Hv Hram va' Hl Hva').
    pose proof (same_page_iff a va' Hal).
    destruct (decide (a <= va' < a + PGSIZE)); [rewrite decide_True|rewrite decide_False]; tauto. }
  split; [|done]. split; [| |apply Has].
  - by apply (set_leaf_inv kend root s s' own fl p0 a v Hinv Hp0 Hram Hfl).
  - intros b pb Hb. pose proof (as_leaf _ _ _ _ Has b pb Hb) as Hlb.
    apply (leaf_ok_frame s s' own own fl fl); [done| |apply Hlb|apply Hlb].
    rewrite Hx by apply Hlb. rewrite decide_False; [done|].
    intros Hin. apply aligned_page_eq in Hin; [|done|apply Hlb]. congruence.
Qed.

(** One page of [dat] is freed: first the page goes to the allocator. *)
Lemma free_page s own dat fl a pa : aspace s own dat fl -> dat !! a = Some pa ->
  exists s1, kfree kend pa s = Ok tt s1 /\
    aspace s1 own (delete a dat) (pa :: fl) /\
    (forall q x, is_Some (own !! q) -> in_page q x -> rd (ram s1) x = rd (ram s) x) /\
    (forall v, xlate s1 v = xlate s v) /\
    (forall x, ~ in_page pa x -> rd (ram s1) x = rd (ram s) x).
Proof.
  intros Has Ha. pose proof (as_leaf _ _ _ _ Has a pa Ha) as Hl.
  pose proof (as_pt _ _ _ _ Has) as Hinv.
  destruct (kfree_run kend s fl pa (pi_free _ _ _ _ _ Hinv) (lf_page _ _ _ _ _ Hl)
              (lf_free _ _ _ _ _ Hl)) as (s1 & Hrun & Hfree1 & Hfr1).
  exists s1.
  assert (Hfr1' : forall q x, is_Some (own !! q) -> in_page q x -> rd (ram s1) x = rd (ram s) x).
  { intros q x [e Hq] Hx. apply Hfr1.
    destruct (pi_page _ _ _ _ _ Hinv _ _ Hq) as [Hqok _].
    apply (page_apart q); [done|apply Hl| |done]. intros ->.
    rewrite (lf_own _ _ _ _ _ Hl) in Hq. discriminate Hq. }
  destruct (aspace_frame s s1 own (delete a dat) fl (pa :: fl)) as [Has1 Hx1];
    [by apply aspace_delete|done| |done|split_and!; done].
  intros q [->|Hq]%elem_of_cons.
  - split; [apply Hl|]. intros b [Hne Hb]%lookup_delete_Some.
    by apply Hne, (as_inj _ _ _ _ Has a b pa).
  - destruct (own !! q) as [e|] eqn:E.
    { by destruct (pi_page _ _ _ _ _ Hinv _ _ E) as [_ ?]. }
    split; [done|]. intros b [_ Hb]%lookup_delete_Some.
    by apply (lf_free _ _ _ _ _ (as_leaf _ _ _ _ Has _ _ Hb)).
Qed.

(** What every operation guarantees: the invariant, no page lost or gained, the bytes of
    the pages that stay mapped, and all memory outside the pages of the pool. *)
Record moved s own dat fl s' own' dat' fl' : Prop := {
  mv_space : aspace s' own' dat' fl';
  mv_pool : forall p, in_pool own' dat' fl' p <-> in_pool own dat fl p;
  mv_data : forall b pa x, dat !! b = Some pa -> dat' !! b = Some pa -> in_page pa x ->
    rd (ram s') x = rd (ram s) x;
  mv_out : forall x, (forall p, in_pool own dat fl p -> ~ in_page p x) ->
    rd (ram s') x = rd (ram s) x
}.

Lemma moved_refl s own dat fl : aspace s own dat fl -> moved s own dat fl s own dat fl.
Proof. by split. Qed.

Lemma moved_trans s0 o0 d0 f0 s1 o1 d1 f1 s2 o2 d2 f2 :
  moved s0 o0 d0 f0 s1 o1 d1 f1 -> moved s1 o1 d1 f1 s2 o2 d2 f2 ->
  (forall b pa, d0 !! b = Some pa -> d2 !! b = Some pa -> d1 !! b = Some pa) ->
  moved s0 o0 d0 f0 s2 o2 d2 f2.
Proof.
  intros [A1 P1 D1 O1] [A2 P2 D2 O2] Hmid. split.
  - done.
  - intros p. by rewrite P2.
  - intros b pa x H0 H2 Hx. rewrite (D2 b pa), (D1 b pa); eauto.
  - intros x Hx. rewrite O2, O1; [done..|]. intros p Hp. apply Hx. by apply P1.
Qed.

Lemma in_pool_free own dat fl a pa p : dat !! a = Some pa ->
  in_pool own (delete a dat) (pa :: fl) p <-> in_pool own dat fl p.
Proof.
  intros Ha. unfold in_pool. rewrite elem_of_cons. split.
  - intros [[->|?]|[?|[b [_ Hb]%lookup_delete_Some]]]; eauto.
  - intros [?|[?|[b Hb]]]; [auto..|]. destruct (decide (b = a)) as [->|].
    + left. left. congruence.
    + right. right. exists b. by rewrite lookup_delete_ne.
Qed.

Lemma data_apart s own dat fl a b pa pb x : aspace s own dat fl ->
  dat !! a = Some pa -> dat !! b = Some pb -> a <> b -> in_page pa x -> ~ in_page pb x.
Proof.
  intros Has Ha Hb Hne. apply page_apart; [by eapply as_leaf..|].
  intros ->. by apply Hne, (as_inj _ _ _ _ Has a b pb).
Qed.

Lemma data_own_apart s own dat fl a pa q x : aspace s own dat fl ->
  dat !! a = Some pa -> is_Some (own !! q) -> in_page pa x -> ~ in_page q x.
Proof.
  intros Has Ha [e Hq]. pose proof (as_leaf _ _ _ _ Has _ _ Ha) as Hl.
  apply page_apart; [apply Hl|by eapply pi_page, Hq; apply Has|].
  intros ->. rewrite (lf_own _ _ _ _ _ Hl) in Hq. discriminate Hq.
Qed.

(** The body of uvmunmap's loop. *)
Lemma unmap_page fuel s own dat fl a hi pa : aspace s own dat fl -> dat !! a = Some pa -> a < hi ->
  exists s', uvmunmap_loop kend (S fuel) root a hi true s =
      uvmunmap_loop kend fuel root (u64 (a + PGSIZE)) hi true s' /\
    moved s own dat fl s' own (delete a dat) (pa :: fl) /\
    (forall v, 0 <= v < MAXVA ->
       xlate s' v = if decide (a <= v < a + PGSIZE) then 0 else xlate s v).
Proof.
  intros Has Ha Hlt. pose proof (as_leaf _ _ _ _ Has a pa Ha) as Hl.
  pose proof (as_pt _ _ _ _ Has) as Hinv.
  destruct (valid_leaf s own fl a Hinv (lf_lo _ _ _ _ _ Hl) (lf_valid _ _ _ _ _ Hl))
    as (p0 & Hp0 & Hla & Hpos & Hld).
  destruct (free_page s own dat fl a pa Has Ha) as (s1 & Hrun & Has1 & Hfr1 & Hx1 & Hrd1).
  set (s2 := s1 <| ram ::= fun m => store64 m (p0 + 8 * PX 0 a) 0 |>).
  assert (Hram : ram s2 = store64 (ram s1) (p0 + 8 * PX 0 a) 0) by reflexivity.
  assert (Hf2 : freelist s2 = freelist s1) by reflexivity.
  exists s2. split.
  { cbn [uvmunmap_loop]. destruct (Z.ltb_spec a hi); [|lia].
    rewrite (bind_ok _ _ _ _ _ (walk_false root a s (proj2 (lf_lo _ _ _ _ _ Hl)))).
    rewrite Hla. cbn [default from_option id].
    destruct (Z.eqb_spec (p0 + 8 * PX 0 a) 0) as [?|_]; [lia|].
    unfold mbind at 1, gets at 1. rewrite Hld.
    pose proof (lf_valid _ _ _ _ _ Hl) as Hv. unfold pvalid, z2b in Hv.
    destruct (Z.eqb_spec (Z.land (xlate s a) PTE_V) 0) as [?|_]; [done|].
    destruct (Z.eqb_spec (PTE_FLAGS (xlate s a)) PTE_V) as [?|_]; [by destruct Hl|].
    rewrite (lf_pa _ _ _ _ _ Hl). simpl mwhen.
    by rewrite (bind_ok _ _ _ _ _ Hrun). }
  clearbody s2.
  destruct (aspace_set_leaf s1 s2 own (delete a dat) (pa :: fl) p0 a 0) as [Has2 Hx2];
    try done; try apply Hl.
  { rewrite <- Hla. eapply leafaddr_frame; [done|exact Hfr1|apply Hinv]. }
  { apply lookup_delete_eq. }
  assert (Hrd : forall x, ~ in_page pa x -> (forall q, is_Some (own !! q) -> ~ in_page q x) ->
    rd (ram s2) x = rd (ram s) x).
  { intros x Hx Hq. rewrite <- Hrd1 by done.
    apply (set_leaf_rd s1 s2 p0 a 0 Hram). apply Hq. eauto. }
  split; [split; [done|by intros; apply in_pool_free| |]|].
  - intros b pb x Hb [Hne _]%lookup_delete_Some Hx. apply Hrd.
    + by apply (data_apart s own dat fl b a pb pa x Has).
    + intros q Hq. by apply (data_own_apart s own dat fl b pb q x Has).
  - intros x Hx. apply Hrd; [apply Hx|intros q Hq; apply Hx]; unfold in_pool; eauto.
  - intros v Hv. rewrite Hx2, Hx1 by done. done.
Qed.

Lemma uvmunmap_loop_run n : forall s own dat fl a,
  aspace s own dat fl -> a mod PGSIZE = 0 -> 0 <= a -> a + Z.of_nat n * PGSIZE <= MAXVA ->
  (forall i, (i < n)%nat -> is_Some (dat !! (a + Z.of_nat i * PGSIZE))) ->
  exists s' dat' fl',
    uvmunmap_loop kend (S n) root a (a + Z.of_nat n * PGSIZE) true s = Ok tt s' /\
    moved s own dat fl s' own dat' fl' /\
    (forall b, dat' !! b = if decide (a <= b < a + Z.of_nat n * PGSIZE) then None else dat !! b) /\
    (forall v, 0 <= v < MAXVA -> xlate s' v =
       if decide (a <= v < a + Z.of_nat n * PGSIZE) then 0 else xlate s v).
Proof.
  induction n as [|n IH]; intros s own dat fl a Has Hal Ha Hmax Hdom.
  { exists s, dat, fl. cbn [uvmunmap_loop]. destruct (Z.ltb_spec a (a + Z.of_nat 0 * PGSIZE)); [lia|].
    split_and!; [done|by apply moved_refl| |].
    - intros b. rewrite decide_False by lia. done.
    - intros v _. rewrite decide_False by lia. done. }
  destruct (Hdom 0%nat) as [pa Hpa]; [lia|]. rewrite Z.mul_0_l, Z.add_0_r in Hpa.
  assert (HPG : PGSIZE = 4096) by done. assert (HMAX : MAXVA = 2 ^ 38) by done.
  destruct (unmap_page (S n) s own dat fl a (a + Z.of_nat (S n) * PGSIZE) pa Has Hpa)
    as (s1 & Hrun & Hmv & Hx1); [lia|].
  assert (Hal' : (a + PGSIZE) mod PGSIZE = 0).
  { by rewrite <- Zplus_mod_idemp_r, Z_mod_same_full, Z.add_0_r. }
  destruct (IH s1 own (delete a dat) (pa :: fl) (a + PGSIZE)) as
    (s' & dat' & fl' & Hrun' & Hmv' & Hdat' & Hx'); try done; try lia.
  { apply Hmv. }
  { intros i Hi. rewrite lookup_delete_ne by lia.
    replace (a + PGSIZE + Z.of_nat i * PGSIZE) with (a + Z.of_nat (S i) * PGSIZE) by lia.
    apply Hdom. lia. }
  exists s', dat', fl'. split_and!.
  - rewrite Hrun, u64_small by lia.
    by replace (a + Z.of_nat (S n) * PGSIZE) with (a + PGSIZE + Z.of_nat n * PGSIZE) by lia.
  - apply (moved_trans _ _ _ _ _ _ _ _ _ _ _ _ Hmv Hmv').
    intros b pb _. rewrite Hdat'. by case_decide.
  - intros b. rewrite Hdat'. destruct (dat !! b) as [pb|] eqn:Hb.
    + pose proof (as_leaf _ _ _ _ Has _ _ Hb) as Hlb.
      destruct (decide (b = a)) as [->|Hne].
      { rewrite lookup_delete_eq. rewrite (decide_True (P := a <= a < _)) by lia. by case_decide. }
      rewrite lookup_delete_ne, Hb by done.
      assert (~ (a <= b < a + PGSIZE)).
      { intros Hin. apply Hne, aligned_page_eq; [done|apply Hlb|done]. }
      destruct (decide (a + PGSIZE <= b < a + PGSIZE + Z.of_nat n * PGSIZE));
        [rewrite decide_True by lia|rewrite decide_False by lia]; done.
    + rewrite (proj2 (lookup_delete_None dat a b)) by auto. by repeat case_decide.
  - intros v Hv. rewrite Hx', Hx1 by done.
    destruct (decide (a + PGSIZE <= v < a + PGSIZE + Z.of_nat n * PGSIZE)) as [?|?].
    { by rewrite decide_True by lia. }
    destruct (decide (a <= v < a + PGSIZE));
      [rewrite decide_True by lia|rewrite decide_False by lia]; done.
Qed.

Lemma uvmunmap_run n s own dat fl a :
  aspace s own dat fl -> a mod PGSIZE = 0 -> 0 <= a -> a + Z.of_nat n * PGSIZE <= MAXVA ->
  (forall b, b mod PGSIZE = 0 -> a <= b < a + Z.of_nat n * PGSIZE -> is_Some (dat !! b)) ->
  exists s' dat' fl',
    uvmunmap kend root a (Z.of_nat n) true s = Ok tt s' /\
    moved s own dat fl s' own dat' fl' /\
    (forall b, dat' !! b = if decide (a <= b < a + Z.of_nat n * PGSIZE) then None else dat !! b) /\
    (forall v, 0 <= v < MAXVA -> xlate s' v =
       if decide (a <= v < a + Z.of_nat n * PGSIZE) then 0 else xlate s v).
Proof.
  intros Has Hal Ha Hmax Hdom.
  assert (HPG : PGSIZE = 4096) by done. assert (HMAX : MAXVA = 2 ^ 38) by done.
  destruct (uvmunmap_loop_run n s own dat fl a Has Hal Ha Hmax)
    as (s' & dat' & fl' & Hrun & H).
  { intros i Hi. apply Hdom; [|lia]. by rewrite Z_mod_plus_full. }
  exists s', dat', fl'. split; [|done].
  unfold uvmunmap. rewrite Hal, (u64_small (Z.of_nat n * PGSIZE)), u64_small by lia. simpl.
  replace (Z.to_nat ((a + Z.of_nat n * PGSIZE - a + PGSIZE - 1) / PGSIZE)) with n; [done|].
  replace (a + Z.of_nat n * PGSIZE - a + PGSIZE - 1) with (4095 + Z.of_nat n * 4096) by lia.
  rewrite HPG, Z.div_add by lia. rewrite Z.div_small by lia. lia.
Qed.

(** ** uvmdealloc *)

Lemma PGROUNDUP_mono a b : 0 <= a <= b -> b <= MAXVA -> PGROUNDUP a <= PGROUNDUP b.
Proof.
  intros. assert (HMAX : MAXVA = 2 ^ 38) by done.
  rewrite !PGROUNDUP_spec by (unfold PGSIZE; lia). unfold PGSIZE.
  pose proof (Z.div_le_mono (a + 4096 - 1) (b + 4096 - 1) 4096). lia.
Qed.

Lemma PGROUNDUP_max a : 0 <= a <= MAXVA -> 0 <= PGROUNDUP a <= MAXVA /\ PGROUNDUP a mod PGSIZE = 0.
Proof.
  intros. assert (HMAX : MAXVA = 2 ^ 38) by done. assert (HPG : PGSIZE = 4096) by done.
  destruct (PGROUNDUP_bounds a) as [? ?]; [lia|lia|].
  pose proof (PGROUNDUP_mono a MAXVA). assert (PGROUNDUP MAXVA = MAXVA) by done. lia.
Qed.

Lemma uvmdealloc_run s own dat fl oldsz newsz :
  aspace s own dat fl -> 0 <= newsz <= oldsz -> oldsz <= MAXVA ->
  (forall b, b mod PGSIZE = 0 -> PGROUNDUP newsz <= b < PGROUNDUP oldsz -> is_Some (dat !! b)) ->
  exists s' dat' fl',
    uvmdealloc kend root oldsz newsz s = Ok newsz s' /\
    moved s own dat fl s' own dat' fl' /\
    (forall b, dat' !! b =
       if decide (PGROUNDUP newsz <= b < PGROUNDUP oldsz) then None else dat !! b) /\
    (forall v, 0 <= v < MAXVA -> xlate s' v =
       if decide (PGROUNDUP newsz <= v < PGROUNDUP oldsz) then 0 else xlate s v).
Proof.
  intros Has Hsz Hmax Hdom.
  assert (HPG : PGSIZE = 4096) by done. assert (HMAX : MAXVA = 2 ^ 38) by done.
  destruct (PGROUNDUP_max newsz) as [Hn Hna]; [lia|].
  destruct (PGROUNDUP_max oldsz) as [Ho Hoa]; [lia|].
  pose proof (PGROUNDUP_mono newsz oldsz Hsz Hmax) as Hle.
  assert (Hsame : PGROUNDUP oldsz <= PGROUNDUP newsz -> exists s' dat' fl',
    Ok newsz s = Ok newsz s' /\ moved s own dat fl s' own dat' fl' /\
    (forall b, dat' !! b =
       if decide (PGROUNDUP newsz <= b < PGROUNDUP oldsz) then None else dat !! b) /\
    (forall v, 0 <= v < MAXVA -> xlate s' v =
       if decide (PGROUNDUP newsz <= v < PGROUNDUP oldsz) then 0 else xlate s v)).
  { intros Hge. exists s, dat, fl. split_and!; [done|by apply moved_refl| |];
      intros; by rewrite decide_False by lia. }
  unfold uvmdealloc. destruct (Z.leb_spec oldsz newsz) as [Hge|Hlt].
  { replace oldsz with newsz in * by lia. apply Hsame. lia. }
  destruct (Z.ltb_spec (PGROUNDUP newsz) (PGROUNDUP oldsz)) as [Hr|Hr]; [|by apply Hsame].
  set (n := Z.to_nat ((PGROUNDUP oldsz - PGROUNDUP newsz) / PGSIZE)).
  assert (Hnn : Z.of_nat n * PGSIZE = PGROUNDUP oldsz - PGROUNDUP newsz).
  { unfold n. rewrite Z2Nat.id by (apply Z.div_pos; lia). rewrite HPG in *.
    pose proof (Z.div_mod (PGROUNDUP oldsz) 4096). pose proof (Z.div_mod (PGROUNDUP newsz) 4096).
    replace (PGROUNDUP oldsz - PGROUNDUP newsz)
      with ((PGROUNDUP oldsz / 4096 - PGROUNDUP newsz / 4096) * 4096) by lia.
    rewrite Z.div_mul by lia. lia. }
  destruct (uvmunmap_run n s own dat fl (PGROUNDUP newsz) Has Hna) as
    (s' & dat' & fl' & Hrun & Hmv & Hdat & Hx); [lia|lia|intros; apply Hdom; [done|lia]|].
  exists s', dat', fl'. split_and!.
  - cbn [mwhen]. rewrite i32_small, u64_small.
    + unfold n in Hrun. rewrite Z2Nat.id in Hrun by (apply Z.div_pos; lia).
      by rewrite (bind_ok _ _ _ _ _ Hrun).
    + split; [apply Z.div_pos; lia|]. apply Z.div_lt_upper_bound; lia.
    + split; [transitivity 0; [lia|apply Z.div_pos; lia]|]. apply Z.div_lt_upper_bound; lia.
  - done.
  - intros b. rewrite Hdat. by replace (PGROUNDUP newsz + Z.of_nat n * PGSIZE) with (PGROUNDUP oldsz) by lia.
  - intros v Hv. rewrite Hx by done. by replace (PGROUNDUP newsz + Z.of_nat n * PGSIZE) with (PGROUNDUP oldsz) by lia.
Qed.

(** ** Mapping a fresh page *)

Lemma map_entry_fields pg perm : page_ok kend pg -> 0 <= perm < 1024 ->
  pvalid (map_entry pg perm) = true /\ PTE2PA (map_entry pg perm) = pg /\
  PTE_FLAGS (map_entry pg perm) = Z.lor perm PTE_V.
Proof.
  intros Hpg Hperm. split; [apply pvalid_V|]. destruct (page_range kend pg Hpg) as [? ?].
  unfold map_entry. rewrite <- Z.lor_assoc. apply PTE2PA_PA2PTE; [lia|done|].
  apply (lor_range _ _ 10); [lia|lia|by vm_compute].
Qed.

(** [pg] belongs to nobody. *)
Definition spare own dat fl (pg : Z) : Prop :=
  page_ok kend pg /\ own !! pg = None /\ pg ∉ fl /\ forall a, dat !! a <> Some pg.

Lemma free_none s own fl q : ptinv s own fl -> q ∈ fl -> own !! q = None.
Proof.
  intros Hinv Hq. destruct (own !! q) as [e|] eqn:E; [|done].
  by destruct (pi_page _ _ _ _ _ Hinv _ _ E) as [_ ?].
Qed.

(** mappages on one page: 0 with the page mapped, or -1 with no translation changed. *)
Lemma map_page s own dat fl a pg perm : aspace s own dat fl -> spare own dat fl pg ->
  a mod PGSIZE = 0 -> 0 <= a -> a + PGSIZE <= MAXVA ->
  0 <= perm < 1024 -> Z.lor perm PTE_V <> PTE_V ->
  (forall v, a <= v < a + PGSIZE -> pvalid (xlate s v) = false) ->
  exists r s' own' fl', mappages root a PGSIZE pg perm s = Ok r s' /\
    (forall q, q ∈ fl' \/ is_Some (own' !! q) <-> q ∈ fl \/ is_Some (own !! q)) /\
    (forall x, (forall q, is_Some (own' !! q) -> ~ in_page q x) -> rd (ram s') x = rd (ram s) x) /\
    ((r = 0 /\ aspace s' own' (<[a := pg]> dat) fl' /\
      (forall v, 0 <= v < MAXVA -> xlate s' v =
         if decide (a <= v < a + PGSIZE) then map_entry pg perm else xlate s v)) \/
     (r = -1 /\ aspace s' own' dat fl' /\ spare own' dat fl' pg /\
      (forall v, 0 <= v < MAXVA -> xlate s' v = xlate s v))).
Proof.
  intros Has (Hpg & Hpo & Hpf & Hpd) Hal Ha Hmax Hperm Hleaf Hun.
  assert (HPG : PGSIZE = 4096) by done. assert (HMAX : MAXVA = 2 ^ 38) by done.
  assert (Hb1 : pgbase a = a) by (apply pgbase_unique; [done|lia]).
  assert (Hb2 : pgbase (a + PGSIZE - 1) = a) by (apply pgbase_unique; [done|lia]).
  destruct (page_range kend pg Hpg) as [Hpal Hpr].
  destruct (mappages_run kend root s own fl a PGSIZE pg perm (as_pt _ _ _ _ Has)) as
    (r & s' & own' & fl' & hi & Hrun & Hinv' & (Hsub & (used & Hfl & Hused) & Hrd) & Hx & Hr);
    try lia.
  { intros v. rewrite Hb1, Hb2. apply Hun. }
  rewrite Hb1, Hb2 in *.
  assert (Hpart : forall q, q ∈ fl' \/ is_Some (own' !! q) <-> q ∈ fl \/ is_Some (own !! q)).
  { intros q. rewrite Hused, Hfl, elem_of_app. tauto. }
  assert (Hnone : forall q, own !! q = None -> q ∉ fl -> own' !! q = None /\ q ∉ fl').
  { intros q Hq Hqf. split.
    - apply eq_None_not_Some. rewrite Hused, Hq, is_Some_alt. intros [?|Hin]; [done|].
      apply Hqf. rewrite Hfl. apply elem_of_app. by left.
    - intros Hin. apply Hqf. rewrite Hfl. apply elem_of_app. by right. }
  assert (Hold : forall b pb, dat !! b = Some pb ->
    (forall v, 0 <= v < MAXVA -> ~ (a <= v < a + PGSIZE) -> xlate s' v = xlate s v) ->
    leaf_ok s' own' fl' b pb).
  { intros b pb Hb Hxo. pose proof (as_leaf _ _ _ _ Has _ _ Hb) as Hl.
    destruct (Hnone pb) as [? ?]; [apply Hl..|].
    apply (leaf_ok_frame s _ own _ fl); [done| |done|done].
    apply Hxo; [apply Hl|]. intros Hin. specialize (Hun b Hin).
    rewrite (lf_valid _ _ _ _ _ Hl) in Hun. discriminate Hun. }
  destruct (Hnone pg Hpo Hpf) as [Hpo' Hpf'].
  exists r, s', own', fl'. split_and!; [done..|].
  destruct Hr as [[-> ->]|(-> & Hhi & ->)].
  - left. split; [done|].
    assert (Hx' : forall v, 0 <= v < MAXVA -> xlate s' v =
         if decide (a <= v < a + PGSIZE) then map_entry pg perm else xlate s v).
    { intros v Hv. rewrite Hx by done. destruct (decide (a <= v < a + PGSIZE)); [|done].
      rewrite (pgbase_unique a v) by done. by replace (pg + (a - a)) with pg by lia. }
    split; [|done]. destruct (map_entry_fields pg perm Hpg Hperm) as (Hv & Hpa & Hfl').
    split; [done| |].
    + intros b pb [[<- <-]|[Hne Hb]]%lookup_insert_Some.
      * assert (xlate s' a = map_entry pg perm) as E.
        { rewrite Hx' by lia. by rewrite decide_True by lia. }
        split; rewrite ?E; try done; [lia|]. by rewrite Hfl'.
      * apply Hold; [done|]. intros v Hv' Hout. rewrite Hx' by done. by rewrite decide_False.
    + intros b c p [[<- <-]|[Hne Hb]]%lookup_insert_Some [[<- Hp]|[Hne' Hc]]%lookup_insert_Some;
        try done.
      * by destruct (Hpd c).
      * rewrite <- Hp in Hb. by destruct (Hpd b).
      * by apply (as_inj _ _ _ _ Has b c p).
  - right. assert (Hx' : forall v, 0 <= v < MAXVA -> xlate s' v = xlate s v).
    { intros v Hv. rewrite Hx by done. rewrite decide_False by lia. done. }
    split_and!; try done. split; [done| |apply Has]. intros b pb Hb. apply Hold; [done|]. auto.
Qed.

(** kalloc in an address space. *)
Lemma kalloc_page s own dat fl : aspace s own dat fl ->
  exists r s1, kalloc s = Ok r s1 /\
    ((r = 0 /\ s1 = s /\ fl = []) \/
     (r <> 0 /\ exists fl1, fl = r :: fl1 /\ aspace s1 own dat fl1 /\ spare own dat fl1 r /\
        (forall v, xlate s1 v = xlate s v) /\
        (forall x, ~ in_page r x -> rd (ram s1) x = rd (ram s) x))).
Proof.
  intros Has. pose proof (as_pt _ _ _ _ Has) as Hinv.
  pose proof (pi_free _ _ _ _ _ Hinv) as Hfree.
  destruct (kalloc_run kend s fl Hfree) as (r & s1 & Hrun & Hr). exists r, s1. split; [done|].
  destruct fl as [|p fl1]; [left; by destruct Hr|right].
  destruct Hr as (-> & Hfree1 & Hrd). destruct Hfree as (_ & [Hnin _]%NoDup_cons & [Hok _]%Forall_cons).
  assert (Hpo : own !! p = None) by (apply (free_none s own (p :: fl1)); [done|by left]).
  split; [apply page_range in Hok; lia|]. exists fl1. split; [done|].
  destruct (aspace_frame s s1 own dat (p :: fl1) fl1 Has Hfree1) as [Has1 Hx].
  - intros q Hq. assert (q ∈ p :: fl1) by (by right). split; [by eapply free_none|].
    intros a Ha. by apply (lf_free _ _ _ _ _ (as_leaf _ _ _ _ Has _ _ Ha)).
  - intros q x [e Hq] Hx. rewrite Hrd, decide_False; [done|].
    apply (page_apart q); [by eapply Hinv|done| |done]. intros ->.
    rewrite Hpo in Hq. discriminate Hq.
  - split_and!; [done| |done|].
    + split_and!; [done..|]. intros a Ha.
      apply (lf_free _ _ _ _ _ (as_leaf _ _ _ _ Has _ _ Ha)). by left.
    + intros x Hx'. by rewrite Hrd, decide_False.
Qed.

(** Writes to a spare page. *)
Lemma aspace_fill s s' own dat fl pg : aspace s own dat fl -> spare own dat fl pg ->
  freelist s' = freelist s ->
  (forall x, ~ in_page pg x -> rd (ram s') x = rd (ram s) x) ->
  aspace s' own dat fl /\ forall v, xlate s' v = xlate s v.
Proof.
  intros Has (Hok & Ho & Hf & Hd) Hfl Hrd. pose proof (as_pt _ _ _ _ Has) as Hinv.
  apply (aspace_frame s s' own dat fl fl Has).
  - apply free_ok_frame with s; [done| |apply Hinv]. intros q x Hq Hx. apply Hrd.
    apply (page_apart q); [|done|by intros ->|done].
    destruct (pi_free _ _ _ _ _ Hinv) as (_ & _ & Hall). by eapply Forall_forall in Hall.
  - intros q Hq. split; [by eapply free_none|]. intros a Ha.
    by apply (lf_free _ _ _ _ _ (as_leaf _ _ _ _ Has _ _ Ha)).
  - intros q x [e Hq] Hx. apply Hrd. apply (page_apart q); [by eapply Hinv|done| |done].
    intros ->. rewrite Ho in Hq. discriminate Hq.
Qed.

(** A spare page goes back to the allocator. *)
Lemma kfree_spare s own dat fl pg : aspace s own dat fl -> spare own dat fl pg ->
  exists s', kfree kend pg s = Ok tt s' /\ aspace s' own dat (pg :: fl) /\
    (forall v, xlate s' v = xlate s v) /\
    (forall x, ~ in_page pg x -> rd (ram s') x = rd (ram s) x).
Proof.
  intros Has (Hok & Ho & Hf & Hd). pose proof (as_pt _ _ _ _ Has) as Hinv.
  destruct (kfree_run kend s fl pg (pi_free _ _ _ _ _ Hinv) Hok Hf) as (s' & Hrun & Hfree & Hrd).
  exists s'. destruct (aspace_frame s s' own dat fl (pg :: fl) Has Hfree) as [Has' Hx].
  - intros q [->|Hq]%elem_of_cons; [done|]. split; [by eapply free_none|]. intros a Ha.
    by apply (lf_free _ _ _ _ _ (as_leaf _ _ _ _ Has _ _ Ha)).
  - intros q x [e Hq] Hx. apply Hrd. apply (page_apart q); [by eapply Hinv|done| |done].
    intros ->. rewrite Ho in Hq. discriminate Hq.
  - done.
Qed.

(** Allocate a page, fill it and map it at [a]: the step uvmalloc and uvmcopy share. *)
Lemma grab_page s own dat fl a perm (fill : Z -> mem -> mem) : aspace s own dat fl ->
  a mod PGSIZE = 0 -> 0 <= a -> a + PGSIZE <= MAXVA ->
  0 <= perm < 1024 -> Z.lor perm PTE_V <> PTE_V ->
  (forall v, a <= v < a + PGSIZE -> pvalid (xlate s v) = false) ->
  (forall pg m x, ~ in_page pg x -> rd (fill pg m) x = rd m x) ->
  kalloc s = Ok 0 s \/
  exists pg s1 r s3 own' fl', kalloc s = Ok pg s1 /\ pg <> 0 /\
    (forall x, ~ in_page pg x -> rd (ram s1) x = rd (ram s) x) /\ pg ∈ fl /\
    mappages root a PGSIZE pg perm (s1 <| ram ::= fill pg |>) = Ok r s3 /\
    ((r = 0 /\ moved s own dat fl s3 own' (<[a := pg]> dat) fl' /\ dat !! a = None /\
      (forall v, 0 <= v < MAXVA -> xlate s3 v =
         if decide (a <= v < a + PGSIZE) then map_entry pg perm else xlate s v) /\
      (forall x, in_page pg x -> rd (ram s3) x = rd (fill pg (ram s1)) x)) \/
     (r = -1 /\ exists s4, kfree kend pg s3 = Ok tt s4 /\
        moved s own dat fl s4 own' dat (pg :: fl') /\
        (forall v, 0 <= v < MAXVA -> xlate s4 v = xlate s v))).
Proof.
  intros Has Hal Ha Hmax Hperm Hleaf Hun Hfill.
  destruct (kalloc_page s own dat fl Has) as (pg & s1 & Hrun & [(-> & -> & _)|(Hne & fl1 & -> & H)]);
    [by left|right]. destruct H as (Has1 & Hsp & Hx1 & Hrd1).
  set (s2 := s1 <| ram ::= fill pg |>).
  assert (Es2 : s1 <| ram ::= fill pg |> = s2) by reflexivity.
  assert (Hrd2 : forall x, ~ in_page pg x -> rd (ram s2) x = rd (ram s1) x)
    by (intros; by apply Hfill).
  destruct (aspace_fill s1 s2 own dat fl1 pg Has1 Hsp eq_refl Hrd2) as [Has2 Hx2].
  assert (Er : ram s2 = fill pg (ram s1)) by reflexivity.
  clearbody s2.
  destruct (map_page s2 own dat fl1 a pg perm Has2 Hsp Hal Ha Hmax Hperm Hleaf) as
    (r & s3 & own' & fl' & Hmap & Hpart & Hrd3 & Hr).
  { intros v Hv. rewrite Hx2, Hx1. by apply Hun. }
  destruct Hsp as (Hok & Ho & Hf & Hd).
  assert (Hapart : forall q x, is_Some (own' !! q) -> in_page pg x -> ~ in_page q x).
  { intros q x Hq. apply page_apart; [done| |].
    - destruct Hq as [e Hq].
      by destruct Hr as [(_ & A & _)|(_ & A & _)]; eapply (pi_page _ _ _ _ _ (as_pt _ _ _ _ A)).
    - intros ->. destruct (proj1 (Hpart q)) as [?|Hs]; [by right|done|].
      rewrite Ho in Hs. by destruct Hs. }
  assert (Hpage : forall x, in_page pg x -> rd (ram s3) x = rd (ram s2) x).
  { intros x Hx. apply Hrd3. intros q Hq. by apply Hapart. }
  assert (Hmore : forall x, ~ in_page pg x -> (forall q, is_Some (own' !! q) -> ~ in_page q x) ->
    rd (ram s3) x = rd (ram s) x) by (intros; by rewrite Hrd3, Hrd2, Hrd1).
  assert (Hdata : forall b pb x, dat !! b = Some pb -> in_page pb x ->
    ~ in_page pg x /\ forall q, is_Some (own' !! q) -> ~ in_page q x).
  { intros b pb x Hb Hx. pose proof (as_leaf _ _ _ _ Has _ _ Hb) as Hl. split.
    - apply (page_apart pb); [apply Hl|done| |done]. intros ->. by destruct (Hd b).
    - intros q Hq. destruct (proj1 (Hpart q)) as [Hin|Hs]; [by right| |].
      + apply (page_apart pb); [apply Hl| | |done].
        * destruct (pi_free _ _ _ _ _ (as_pt _ _ _ _ Has1)) as (_ & _ & Hall).
          by eapply Forall_forall in Hall.
        * intros ->. apply (lf_free _ _ _ _ _ Hl). by right.
      + by apply (data_own_apart s own dat (pg :: fl1) b pb q x Has). }
  assert (Hout : forall x, (forall p, in_pool own dat (pg :: fl1) p -> ~ in_page p x) ->
    ~ in_page pg x /\ forall q, is_Some (own' !! q) -> ~ in_page q x).
  { intros x Hx. split.
    - apply Hx. left. by left.
    - intros q Hq. apply Hx. unfold in_pool. rewrite elem_of_cons.
      destruct (proj1 (Hpart q)) as [?|?]; auto. }
  exists pg, s1, r, s3, own', fl'. rewrite Es2, <- Er. split_and!; [done..|by left|done|].
  destruct Hr as [(-> & Has3 & Hx3)|(-> & Has3 & Hsp3 & Hx3)].
  - left. split; [done|].
    assert (Hda : dat !! a = None).
    { destruct (dat !! a) as [pa|] eqn:E; [|done]. pose proof (as_leaf _ _ _ _ Has _ _ E) as Hl.
      specialize (Hun a ltac:(unfold PGSIZE; lia)).
      rewrite (lf_valid _ _ _ _ _ Hl) in Hun. discriminate Hun. }
    split_and!; [|done| |done].
    + split; [done| | |].
      * intros p. specialize (Hpart p). unfold in_pool. rewrite elem_of_cons.
        assert ((exists b, <[a:=pg]> dat !! b = Some p) <-> p = pg \/ exists b, dat !! b = Some p) as ->;
          [|tauto].
        split.
        -- intros [b [[_ ->]|[_ Hb]]%lookup_insert_Some]; eauto.
        -- intros [->|[b Hb]]; [exists a; apply lookup_insert_eq|].
           exists b. rewrite lookup_insert_ne; [done|]. intros ->. congruence.
      * intros b pb x Hb _ Hx. destruct (Hdata b pb x Hb Hx). by apply Hmore.
      * intros x Hx. destruct (Hout x Hx). by apply Hmore.
    + intros v Hv. rewrite Hx3 by done. by rewrite Hx2, Hx1.
  - right. split; [done|].
    destruct (kfree_spare s3 own' dat fl' pg Has3 Hsp3) as (s4 & Hfree & Has4 & Hx4 & Hrd4).
    exists s4. split; [done|]. split.
    + split; [done| | |].
      * intros p. specialize (Hpart p). unfold in_pool. rewrite !elem_of_cons. tauto.
      * intros b pb x Hb _ Hx. destruct (Hdata b pb x Hb Hx). rewrite Hrd4 by done. by apply Hmore.
      * intros x Hx. destruct (Hout x Hx). rewrite Hrd4 by done. by apply Hmore.
    + intros v Hv. by rewrite Hx4, Hx3, Hx2, Hx1.
Qed.

(** ** uvmalloc *)

Lemma covers_insert s s' dat a pg : covers s dat ->
  (forall v, 0 <= v < MAXVA -> ~ (a <= v < a + PGSIZE) -> xlate s' v = xlate s v) ->
  a mod PGSIZE = 0 -> covers s' (<[a := pg]> dat).
Proof.
  intros Hcov Hx Hal v Hv. destruct (uaddr_range s' v Hv) as [Hr _].
  destruct (decide (a <= v < a + PGSIZE)) as [Hin|Hout].
  - rewrite (pgbase_unique a v Hal Hin), lookup_insert_eq. eauto.
  - rewrite (uaddr_ext s s' v) in Hv by (by apply Hx). apply Hcov in Hv as [pa Hpa].
    destruct (decide (pgbase v = a)) as [->|Hne]; [rewrite lookup_insert_eq; eauto|].
    rewrite lookup_insert_ne by done. eauto.
Qed.

Lemma covers_ext s s' dat : covers s dat ->
  (forall v, 0 <= v < MAXVA -> xlate s' v = xlate s v) -> covers s' dat.
Proof.
  intros Hcov Hx v Hv. destruct (uaddr_range s' v Hv) as [Hr _].
  apply Hcov. by rewrite <- (uaddr_ext s s' v) by (by apply Hx).
Qed.

Lemma covers_remove s s' dat dat' lo hi : covers s dat -> lo mod PGSIZE = 0 -> hi mod PGSIZE = 0 ->
  (forall b, dat' !! b = if decide (lo <= b < hi) then None else dat !! b) ->
  (forall v, 0 <= v < MAXVA -> xlate s' v = if decide (lo <= v < hi) then 0 else xlate s v) ->
  covers s' dat'.
Proof.
  intros Hcov Hlo Hhi Hdat Hx v Hv. destruct (uaddr_range s' v Hv) as [Hr Hvalid].
  rewrite Hx in Hvalid by done. destruct (decide (lo <= v < hi)) as [|Hn]; [done|].
  rewrite (uaddr_ext s s' v) in Hv by (rewrite Hx, decide_False; done).
  apply Hcov in Hv as Hd. rewrite Hdat. rewrite decide_False; [done|].
  pose proof (pgbase_range v ltac:(lia)). intros [Hl Hh]. apply Hn. split; [lia|].
  unfold pgbase, PGSIZE in *. pose proof (Z.div_mod hi 4096). lia.
Qed.

Definition uperm (xperm : Z) : Z := Z.lor (Z.lor PTE_R PTE_U) xperm.

Lemma uperm_ok xperm : 0 <= xperm < 1024 ->
  0 <= uperm xperm < 1024 /\ Z.lor (uperm xperm) PTE_V <> PTE_V.
Proof.
  intros Hx. split; [apply (lor_range _ _ 10); [lia|by vm_compute|lia]|].
  intros E. apply (f_equal (fun z => Z.testbit z 1)) in E.
  unfold uperm in E. rewrite !Z.lor_spec in E. simpl in E. discriminate E.
Qed.

(** The page mapped at [b] reads as zero and the user can read it. *)
Definition fresh_page s dat perm (b : Z) : Prop :=
  exists pg, dat !! b = Some pg /\ xlate s b = map_entry pg perm /\
    forall x, in_page pg x -> rd (ram s) x = 0.

(** Page addresses below [a + PGSIZE] are those below [a], and [a]. *)
Lemma page_below a b base : a mod PGSIZE = 0 -> b mod PGSIZE = 0 -> base <= b < a + PGSIZE -> b <> a -> base <= b < a.
Proof. intros Ha Hb Hr Hne. destruct (decide (b < a)); [lia|]. exfalso. apply Hne, aligned_page_eq; [done..|lia]. Qed.
Lemma pages_insert (dat : gmap Z Z) a pg base : a mod PGSIZE = 0 -> (forall b, b mod PGSIZE = 0 -> base <= b < a -> is_Some (dat !! b)) ->
  forall b, b mod PGSIZE = 0 -> base <= b < a + PGSIZE -> is_Some (<[a := pg]> dat !! b).
Proof.
  intros Ha Hdom b Hb Hr. destruct (decide (b = a)) as [->|Hne]; [rewrite lookup_insert_eq; eauto|].
  rewrite lookup_insert_ne by done. apply Hdom; [done|]. by apply page_below.
Qed.
(** Taking the pages from [base] on away again, the new one included. *)
Lemma pages_undone (dat dat' : gmap Z Z) a pg base : a mod PGSIZE = 0 -> base <= a -> dat !! a = None -> (forall b, is_Some (dat !! b) -> b mod PGSIZE = 0) ->
  (forall b, dat' !! b = if decide (base <= b < a + PGSIZE) then None else <[a := pg]> dat !! b) ->
  forall b, dat' !! b = if decide (base <= b < a) then None else dat !! b.
Proof.
  intros Ha Hba Hda Hal Hd b. assert (HPG : PGSIZE = 4096) by done. rewrite Hd. destruct (decide (b = a)) as [->|Hne].
  { rewrite decide_True by lia. by rewrite decide_False by lia. }
  rewrite lookup_insert_ne by done. destruct (decide (base <= b < a)); [by rewrite decide_True by lia|].
  destruct (decide (base <= b < a + PGSIZE)) as [Hin|]; [|done]. destruct (dat !! b) as [pb|] eqn:Hb; [|done]. exfalso.
  pose proof (page_below a b base Ha (Hal b ltac:(eauto)) Hin Hne). lia.
Qed.

Lemma PGROUNDUP_aligned z : z mod PGSIZE = 0 -> 0 <= z <= MAXVA -> PGROUNDUP z = z.
Proof.
  intros Hz Hr. assert (HPG : PGSIZE = 4096) by done. assert (HMAX : MAXVA = 2 ^ 38) by done.
  rewrite PGROUNDUP_spec by lia. rewrite HPG in *.
  pose proof (Z.div_mod z 4096). replace (z + 4096 - 1) with (4095 + z / 4096 * 4096) by lia.
  rewrite Z.div_add, Z.div_small by lia. lia.
Qed.
(** What uvmalloc does when a page or a table is missing: it gives back the pages from [base] on. *)
Lemma uvmalloc_undo k s own dat fl a base : covers s dat ->
  a mod PGSIZE = 0 -> base mod PGSIZE = 0 -> 0 <= base <= a -> 0 <= k -> a + k <= MAXVA ->
  (forall v, a <= v < a + k -> pvalid (xlate s v) = false) ->
  (forall b, b mod PGSIZE = 0 -> base <= b < a -> is_Some (dat !! b)) ->
  forall s1 own1 fl1, moved s own dat fl s1 own1 dat fl1 -> (forall v, 0 <= v < MAXVA -> xlate s1 v = xlate s v) ->
  exists s' dat' fl', (uvmdealloc kend root a base ;;; mret 0) s1 = Ok 0 s' /\
    moved s own dat fl s' own1 dat' fl' /\ covers s' dat' /\
    (forall b, dat' !! b = if decide (base <= b < a) then None else dat !! b) /\
    (forall v, base <= v < a + k -> pvalid (xlate s' v) = false) /\
    (forall v, 0 <= v < MAXVA -> ~ (base <= v < a + k) -> xlate s' v = xlate s v).
Proof.
  intros Hcov Hal Hbal Hba Hk Hmax Hun Hdom s1 own1 fl1 Hmv Hx1. assert (HMAX : MAXVA = 2 ^ 38) by done.
  destruct (uvmdealloc_run s1 own1 dat fl1 a base (mv_space _ _ _ _ _ _ _ _ Hmv)) as
    (s' & dat' & fl' & Hrun & Hmv' & Hd' & Hx'); [lia|lia|rewrite !PGROUNDUP_aligned by (done || lia); done|].
  rewrite !PGROUNDUP_aligned in Hd', Hx' by (done || lia).
  assert (Hx'' : forall v, 0 <= v < MAXVA ->
    xlate s' v = if decide (base <= v < a) then 0 else xlate s v).
  { intros v Hv. rewrite Hx' by done. by rewrite Hx1. }
  exists s', dat', fl'. split_and!; [by rewrite (bind_ok _ _ _ _ _ Hrun)| | |done| |].
  - apply (moved_trans _ _ _ _ _ _ _ _ _ _ _ _ Hmv Hmv'). done.
  - by apply (covers_remove s s' dat dat' base a).
  - intros v Hv. rewrite Hx'' by lia. case_decide; [done|]. apply Hun. lia.
  - intros v Hv Ho. rewrite Hx'' by lia. rewrite decide_False by lia. done.
Qed.

Lemma uvmalloc_loop_run n : forall s own dat fl a base newsz xperm,
  aspace s own dat fl -> covers s dat ->
  a mod PGSIZE = 0 -> base mod PGSIZE = 0 -> 0 <= base <= a -> 0 <= newsz ->
  newsz <= a + Z.of_nat n * PGSIZE < newsz + PGSIZE \/ (n = 0%nat /\ newsz <= a) ->
  a + Z.of_nat n * PGSIZE <= MAXVA -> 0 <= xperm < 1024 ->
  (forall v, a <= v < a + Z.of_nat n * PGSIZE -> pvalid (xlate s v) = false) ->
  (forall b, b mod PGSIZE = 0 -> base <= b < a -> is_Some (dat !! b)) ->
  exists r s' own' dat' fl',
    uvmalloc_loop kend (S n) root a base newsz xperm s = Ok r s' /\
    moved s own dat fl s' own' dat' fl' /\ covers s' dat' /\
    ((r = newsz /\
      (forall b, ~ (a <= b < a + Z.of_nat n * PGSIZE) -> dat' !! b = dat !! b) /\
      (forall b, b mod PGSIZE = 0 -> a <= b < a + Z.of_nat n * PGSIZE ->
         fresh_page s' dat' (uperm xperm) b) /\
      (forall v, 0 <= v < MAXVA -> ~ (a <= v < a + Z.of_nat n * PGSIZE) -> xlate s' v = xlate s v)) \/
     (r = 0 /\ (forall b, dat' !! b = if decide (base <= b < a) then None else dat !! b) /\
      (forall v, base <= v < a + Z.of_nat n * PGSIZE -> pvalid (xlate s' v) = false) /\
      (forall v, 0 <= v < MAXVA -> ~ (base <= v < a + Z.of_nat n * PGSIZE) ->
         xlate s' v = xlate s v))).
Proof.
  induction n as [|n IH]; intros s own dat fl a base newsz xperm
    Has Hcov Hal Hbal Hba Hnz Hn Hmax Hxp Hun Hdom.
  { exists newsz, s, own, dat, fl. cbn [uvmalloc_loop].
    destruct (Z.ltb_spec a newsz); [lia|].
    split_and!; [done|by apply moved_refl|done|]. left. split_and!; [done..| |done]. lia. }
  assert (HPG : PGSIZE = 4096) by done. assert (HMAX : MAXVA = 2 ^ 38) by done.
  destruct (uperm_ok xperm Hxp) as [Hp1 Hp2].
  cbn [uvmalloc_loop]. destruct (Z.ltb_spec a newsz) as [_|?]; [|lia].
  assert (Hde := uvmalloc_undo (Z.of_nat (S n) * PGSIZE) s own dat fl a base Hcov Hal Hbal Hba ltac:(lia) Hmax Hun Hdom).
  destruct (grab_page s own dat fl a (uperm xperm) (fun pg m => memset m pg 0 PGSIZE))
    as [Hnone|(pg & s1 & r & s3 & own3 & fl3 & Hk & Hpg & _ & _ & Hmap & Hr)];
    [exact Has|exact Hal|lia|lia|exact Hp1|exact Hp2| | | |].
  { intros v Hv. apply Hun. lia. }
  { intros pg m x Hx. rewrite rd_memset by lia. by rewrite decide_False. }
  { destruct (Hde s own fl) as (s' & dat' & fl' & Hrun & Hmv & Hc & Hd & Hx & Hx0);
      [by apply moved_refl|done|].
    exists 0, s', own, dat', fl'. rewrite (bind_ok _ _ _ _ _ Hnone). simpl.
    split_and!; [done..|]. by right. }
  rewrite (bind_ok _ _ _ _ _ Hk). destruct (Z.eqb_spec pg 0) as [?|_]; [done|].
  unfold mbind at 1. unfold ram_update at 1, modify at 1.
  fold (uperm xperm). rewrite (bind_ok _ _ _ _ _ Hmap).
  destruct Hr as [(-> & Hmv & Hda & Hx & Hz)|(-> & s4 & Hfree & Hmv & Hx)]; simpl.
  2: { destruct (Hde s4 own3 (pg :: fl3) Hmv Hx) as (s' & dat' & fl' & Hrun & Hmv' & Hc & Hd & Hx' & Hx0).
       exists 0, s', own3, dat', fl'. rewrite (bind_ok _ _ _ _ _ Hfree).
       split_and!; [done..|]. by right. }
  rewrite u64_small by lia.
  assert (Hal' : (a + PGSIZE) mod PGSIZE = 0).
  { by rewrite <- Zplus_mod_idemp_r, Z_mod_same_full, Z.add_0_r. }
  destruct (IH s3 own3 (<[a := pg]> dat) fl3 (a + PGSIZE) base newsz xperm) as
    (r & s' & own' & dat' & fl' & Hrun & Hmv' & Hc' & Hr); try done; try lia.
  { apply Hmv. }
  { apply (covers_insert s); [done| |done]. intros v Hv Ho. by rewrite Hx, decide_False. }
  { intros v Hv. rewrite Hx by lia. rewrite decide_False by lia. apply Hun. lia. }
  { by apply pages_insert. }
  exists r, s', own', dat', fl'. split_and!; [done| |done|].
  - apply (moved_trans _ _ _ _ _ _ _ _ _ _ _ _ Hmv Hmv').
    intros b pb Hb _. rewrite lookup_insert_ne; [done|]. intros ->. congruence.
  - destruct Hr as [(-> & Hd & Hf & Hx')|(-> & Hd & Hx' & Hx0)]; [left|right]; (split; [done|]).
    + split_and!.
      * intros b Hb. rewrite Hd by lia. apply lookup_insert_ne. lia.
      * intros b Hb Hr. destruct (decide (a + PGSIZE <= b)); [apply Hf; [done|lia]|].
        assert (b = a) as -> by (apply aligned_page_eq; [done..|lia]).
        exists pg. assert (dat' !! a = Some pg) as Hpa.
        { rewrite Hd by lia. apply lookup_insert_eq. }
        split_and!; [done| |].
        -- rewrite Hx', Hx by lia. by rewrite decide_True by lia.
        -- intros x Hxp'. rewrite (mv_data _ _ _ _ _ _ _ _ Hmv' a pg); [|apply lookup_insert_eq|done..].
           rewrite Hz by done. rewrite rd_memset by lia. by rewrite decide_True.
      * intros v Hv Ho. rewrite Hx' by lia. rewrite Hx, decide_False by lia. done.
    + split_and!.
      * apply (pages_undone dat dat' a pg base); [done|lia|done| |done]. intros b [pb Hb]. apply (as_leaf _ _ _ _ Has _ _ Hb).
      * intros v Hv. apply Hx'. lia.
      * intros v Hv Ho. rewrite Hx0 by lia. rewrite Hx, decide_False by lia. done.
Qed.

Lemma PGROUNDUP_ge a : 0 <= a <= MAXVA -> a <= PGROUNDUP a < a + PGSIZE.
Proof.
  intros. assert (HMAX : MAXVA = 2 ^ 38) by done. assert (HPG : PGSIZE = 4096) by done.
  destruct (PGROUNDUP_bounds a); lia.
Qed.

Lemma uvmalloc_run s own dat fl oldsz newsz xperm :
  aspace s own dat fl -> covers s dat -> 0 <= oldsz <= newsz -> newsz <= MAXVA ->
  0 <= xperm < 1024 ->
  (forall v, PGROUNDUP oldsz <= v < PGROUNDUP newsz -> pvalid (xlate s v) = false) ->
  exists r s' own' dat' fl',
    uvmalloc kend root oldsz newsz xperm s = Ok r s' /\
    moved s own dat fl s' own' dat' fl' /\ covers s' dat' /\
    ((r = newsz /\
      (forall b, ~ (PGROUNDUP oldsz <= b < PGROUNDUP newsz) -> dat' !! b = dat !! b) /\
      (forall b, b mod PGSIZE = 0 -> PGROUNDUP oldsz <= b < PGROUNDUP newsz ->
         fresh_page s' dat' (uperm xperm) b) /\
      (forall v, 0 <= v < MAXVA -> ~ (PGROUNDUP oldsz <= v < PGROUNDUP newsz) ->
         xlate s' v = xlate s v)) \/
     (r = 0 /\ dat' = dat /\
      (forall v, PGROUNDUP oldsz <= v < PGROUNDUP newsz -> pvalid (xlate s' v) = false) /\
      (forall v, 0 <= v < MAXVA -> ~ (PGROUNDUP oldsz <= v < PGROUNDUP newsz) ->
         xlate s' v = xlate s v))).
Proof.
  intros Has Hcov Hsz Hmax Hxp Hun.
  assert (HPG : PGSIZE = 4096) by done. assert (HMAX : MAXVA = 2 ^ 38) by done.
  destruct (PGROUNDUP_max oldsz) as [Hor Hoa]; [lia|].
  destruct (PGROUNDUP_max newsz) as [Hnr Hna]; [lia|].
  pose proof (PGROUNDUP_ge oldsz ltac:(lia)). pose proof (PGROUNDUP_ge newsz ltac:(lia)).
  pose proof (PGROUNDUP_mono oldsz newsz Hsz Hmax) as Hle.
  unfold uvmalloc. destruct (Z.ltb_spec newsz oldsz) as [?|_]; [lia|].
  set (lo := PGROUNDUP oldsz) in *. set (hi := PGROUNDUP newsz) in *.
  assert (Hn : Z.of_nat (Z.to_nat ((newsz - lo + PGSIZE - 1) / PGSIZE)) * PGSIZE = hi - lo).
  { rewrite HPG in *. pose proof (Z.div_mod lo 4096). pose proof (Z.div_mod hi 4096).
    replace (newsz - lo + 4096 - 1)
      with (newsz + 4095 - hi + (hi / 4096 - lo / 4096) * 4096) by lia.
    rewrite Z.div_add, Z.div_small by lia. lia. }
  set (n := Z.to_nat ((newsz - lo + PGSIZE - 1) / PGSIZE)) in *. clearbody n.
  destruct (uvmalloc_loop_run n s own dat fl lo lo newsz xperm) as
    (r & s' & own' & dat' & fl' & Hrun & Hmv & Hc & Hr); try done; try lia.
  { intros v Hv. apply Hun. lia. }
  replace (lo + Z.of_nat n * PGSIZE) with hi in Hr by lia.
  exists r, s', own', dat', fl'. split_and!; [done..|].
  destruct Hr as [?|(-> & Hd & Hx)]; [by left|right]. split_and!; [done| |apply Hx..].
  apply map_eq. intros b. rewrite Hd. by rewrite decide_False by lia.
Qed.

(** A fresh page is readable by the user and reads as zero. *)
Lemma fresh_page_user s own dat fl xperm v : aspace s own dat fl -> 0 <= xperm < 1024 ->
  0 <= v < MAXVA -> fresh_page s dat (uperm xperm) (pgbase v) ->
  is_Some (uaddr s v) /\ ubyte root s v = 0.
Proof.
  intros Has Hxp Hv (pg & Hpg & Hx & Hz). pose proof (as_leaf _ _ _ _ Has _ _ Hpg) as Hl.
  rewrite pgbase_xlate in Hx by lia. destruct (uperm_ok xperm Hxp) as [Hp _].
  destruct (map_entry_fields pg (uperm xperm) (lf_page _ _ _ _ _ Hl) Hp) as (Hval & Hpa & _).
  assert (uaddr s v = Some (pg + v mod PGSIZE)) as Hu.
  { unfold VmSpec.uaddr. rewrite Hx, Hval, Hpa.
    destruct (Z.leb_spec 0 v), (Z.ltb_spec v MAXVA); try lia. cbn [andb].
    destruct (page_range kend pg (lf_page _ _ _ _ _ Hl)).
    destruct (Z.eqb_spec pg 0); [lia|]. rewrite andb_true_r.
    assert (z2b (Z.land (map_entry pg (uperm xperm)) PTE_U) = true) as ->; [|done].
    unfold z2b. apply negb_true_iff, Z.eqb_neq. intros E.
    apply (f_equal (fun z => Z.testbit z 4)) in E. revert E. unfold map_entry, uperm.
    rewrite Z.land_spec, !Z.lor_spec. change (Z.testbit PTE_U 4) with true.
    change (Z.testbit 0 4) with false. rewrite !orb_true_r. discriminate. }
  split; [eauto|]. unfold ubyte. rewrite Hu. simpl. apply Hz.
  pose proof (Z.mod_pos_bound v PGSIZE). unfold in_page. unfold PGSIZE in *. lia.
Qed.

End uspace.
