(* ===== verification/Ucopy.v ===== *)
(** * Copying and destroying address spaces: uvmcopy, freewalk, uvmfree (kernel/vm.c)

    uvmcopy works on two address spaces at once; they share the free list and nothing
    else. *)

From S2P Require Import Prelude Riscv CString Kalloc Vm VmSpec Uvm Uspace.

Section uvmcopy.
Context (kend old new : Z).
Implicit Types (s : phys) (own : gmap Z (nat * Z)) (dat : gmap Z Z) (fl : list Z).

(** The tables and pages of one address space are outside the pool of another. *)
Definition apart own1 dat1 own2 dat2 fl : Prop :=
  forall p, is_Some (own1 !! p) \/ (exists a, dat1 !! a = Some p) -> ~ in_pool own2 dat2 fl p.

(** An operation on the other address space keeps this one, its translations and bytes. *)
Lemma moved_other own1 dat1 s own2 dat2 fl s' own2' dat2' fl' :
  aspace kend old s own1 dat1 fl -> apart own1 dat1 own2 dat2 fl ->
  aspace kend new s own2 dat2 fl ->
  moved kend new s own2 dat2 fl s' own2' dat2' fl' ->
  aspace kend old s' own1 dat1 fl' /\ apart own1 dat1 own2' dat2' fl' /\
  (forall v, xlate s' old v = xlate s old v) /\
  (forall b pa x, dat1 !! b = Some pa -> in_page pa x -> rd (ram s') x = rd (ram s) x).
Proof.
  intros Has1 Hap Has2 Hmv.
  assert (Hpg : forall q, in_pool own2 dat2 fl q -> page_ok kend q).
  { intros q [Hq|[[e Hq]|[a Ha]]].
    - destruct (pi_free _ _ _ _ _ (as_pt _ _ _ _ _ _ Has2)) as (_ & _ & Hall).
      by eapply Forall_forall in Hall.
    - by eapply (pi_page _ _ _ _ _ (as_pt _ _ _ _ _ _ Has2)).
    - eapply lf_page, (as_leaf _ _ _ _ _ _ Has2 _ _ Ha). }
  assert (Hkeep : forall q x, page_ok kend q ->
    is_Some (own1 !! q) \/ (exists a, dat1 !! a = Some q) -> in_page q x ->
    rd (ram s') x = rd (ram s) x).
  { intros q x Hok Hq Hx. apply (mv_out _ _ _ _ _ _ _ _ _ _ Hmv). intros p Hp.
    apply (page_apart kend q); [done|by apply Hpg| |done]. intros ->. by apply (Hap p). }
  destruct (aspace_frame kend old s s' own1 dat1 fl fl' Has1) as [Has' Hx].
  - apply (mv_space _ _ _ _ _ _ _ _ _ _ Hmv).
  - intros q Hq. assert (in_pool own2 dat2 fl q) as Hp.
    { apply (mv_pool _ _ _ _ _ _ _ _ _ _ Hmv). by left. }
    split.
    + destruct (own1 !! q) as [e|] eqn:E; [|done]. exfalso. apply (Hap q); [left; eauto|done].
    + intros a Ha. apply (Hap q); [right; eauto|done].
  - intros q x [e Hq] Hx. apply (Hkeep q); [|left; eauto|done].
    by eapply (pi_page _ _ _ _ _ (as_pt _ _ _ _ _ _ Has1)).
  - split_and!; [done| |done|].
    + intros p Hp Hin. apply (mv_pool _ _ _ _ _ _ _ _ _ _ Hmv) in Hin. by apply (Hap p).
    + intros b pa x Hb Hx'. apply (Hkeep pa); [|right; eauto|done].
      eapply lf_page, (as_leaf _ _ _ _ _ _ Has1 _ _ Hb).
Qed.

(** Page [b] of the new address space is a copy of page [b] of the old one. *)
Definition copied s0 dat1 s dat2 (b : Z) : Prop :=
  exists pa pg, dat1 !! b = Some pa /\ dat2 !! b = Some pg /\
    xlate s new b = map_entry pg (PTE_FLAGS (xlate s0 old b)) /\
    forall k, 0 <= k < PGSIZE -> rd (ram s) (pg + k) = rd (ram s0) (pa + k).

Lemma pte_flags_ok e : pvalid e = true -> PTE_FLAGS e <> PTE_V ->
  0 <= PTE_FLAGS e < 1024 /\ Z.lor (PTE_FLAGS e) PTE_V <> PTE_V.
Proof.
  intros Hv Hne. split.
  - unfold PTE_FLAGS. change 0x3FF with (Z.ones 10). rewrite Z.land_ones by lia.
    by apply Z.mod_pos_bound.
  - assert (Z.lor (PTE_FLAGS e) PTE_V = PTE_FLAGS e) as ->; [|done].
    apply Z.bits_inj'. intros n Hn. rewrite Z.lor_spec.
    destruct (decide (n = 0)) as [->|Hn0].
    + change (Z.testbit PTE_V 0) with true. rewrite orb_true_r. unfold PTE_FLAGS.
      rewrite Z.land_spec. change (Z.testbit 0x3FF 0) with true. rewrite andb_true_r.
      unfold pvalid, z2b in Hv. apply negb_true_iff, Z.eqb_neq in Hv.
      destruct (Z.testbit e 0) eqn:E; [done|]. destruct Hv.
      change PTE_V with (Z.ones 1). rewrite Z.land_ones by lia. change (2 ^ 1) with 2.
      rewrite <- Z.bit0_mod, E. done.
    + change PTE_V with (2 ^ 0). rewrite Z.pow2_bits_false by done. by rewrite orb_false_r.
Qed.

(** uvmcopy's failure path: everything mapped below [i] is taken out again. *)
Lemma undo_copy s own2 dat2 fl s1 own2' dat2' fl' i :
  moved kend new s own2 dat2 fl s1 own2' dat2' fl' -> dat2' = dat2 ->
  i mod PGSIZE = 0 -> 0 <= i <= MAXVA ->
  (forall b, b mod PGSIZE = 0 -> 0 <= b < i -> is_Some (dat2 !! b)) ->
  exists s' dat' fl'', (uvmunmap kend new 0 (i / PGSIZE) true ;;; mret (-1)) s1 = Ok (-1) s' /\
    moved kend new s own2 dat2 fl s' own2' dat' fl'' /\
    (forall b, dat' !! b = if decide (0 <= b < i) then None else dat2 !! b).
Proof.
  intros Hmv -> Hi Hr Hdom.
  assert (Hn : Z.of_nat (Z.to_nat (i / PGSIZE)) = i / PGSIZE).
  { apply Z2Nat.id, Z.div_pos; unfold PGSIZE; lia. }
  assert (Hm : i / PGSIZE * PGSIZE = i).
  { unfold PGSIZE in *. pose proof (Z.div_mod i 4096). lia. }
  destruct (uvmunmap_run kend new (Z.to_nat (i / PGSIZE)) s1 own2' dat2 fl' 0) as
    (s' & dat' & fl'' & Hrun & Hmv' & Hd & _).
  - apply Hmv.
  - done.
  - lia.
  - lia.
  - intros b Hb Hb'. apply Hdom; [done|lia].
  - exists s', dat', fl''. rewrite Hn, Hm in *. split_and!.
    + by rewrite (bind_ok _ _ _ _ _ Hrun).
    + apply (moved_trans _ _ _ _ _ _ _ _ _ _ _ _ _ _ Hmv Hmv'). done.
    + done.
Qed.

Lemma uvmcopy_loop_run n : forall s own1 dat1 own2 dat2 fl i sz,
  aspace kend old s own1 dat1 fl -> aspace kend new s own2 dat2 fl ->
  apart own1 dat1 own2 dat2 fl -> i mod PGSIZE = 0 -> 0 <= i ->
  sz <= i + Z.of_nat n * PGSIZE < sz + PGSIZE \/ (n = 0%nat /\ sz <= i) ->
  i + Z.of_nat n * PGSIZE <= MAXVA ->
  (forall b, b mod PGSIZE = 0 -> i <= b < i + Z.of_nat n * PGSIZE -> is_Some (dat1 !! b)) ->
  (forall v, i <= v < i + Z.of_nat n * PGSIZE -> pvalid (xlate s new v) = false) ->
  (forall b, b mod PGSIZE = 0 -> 0 <= b < i -> is_Some (dat2 !! b)) ->
  exists r s' own2' dat2' fl',
    uvmcopy_loop kend (S n) old new i sz s = Ok r s' /\
    moved kend new s own2 dat2 fl s' own2' dat2' fl' /\
    ((r = 0 /\
      (forall b, ~ (i <= b < i + Z.of_nat n * PGSIZE) -> dat2' !! b = dat2 !! b) /\
      (forall b, b mod PGSIZE = 0 -> i <= b < i + Z.of_nat n * PGSIZE ->
         copied s dat1 s' dat2' b) /\
      (forall v, 0 <= v < MAXVA -> ~ (i <= v < i + Z.of_nat n * PGSIZE) ->
         xlate s' new v = xlate s new v)) \/
     (r = -1 /\ forall b, dat2' !! b =
        if decide (0 <= b < i) then None else dat2 !! b)).
Proof.
  induction n as [|n IH]; intros s own1 dat1 own2 dat2 fl i sz
    Has1 Has2 Hap Hal Hi Hn Hmax Hdom1 Hun Hdom2.
  { exists 0, s, own2, dat2, fl. cbn [uvmcopy_loop].
    destruct (Z.ltb_spec i sz); [lia|].
    split_and!; [done|by apply moved_refl|]. left. split_and!; [done..| |done]. lia. }
  assert (HPG : PGSIZE = 4096) by done. assert (HMAX : MAXVA = 2 ^ 38) by done.
  destruct (Hdom1 i Hal) as [pa Hpa]; [lia|].
  pose proof (as_leaf _ _ _ _ _ _ Has1 _ _ Hpa) as Hl.
  destruct (valid_leaf kend old s own1 fl i (as_pt _ _ _ _ _ _ Has1)
              (lf_lo _ _ _ _ _ _ _ Hl) (lf_valid _ _ _ _ _ _ _ Hl)) as (p0 & Hp0 & Hla & Hpos & Hld).
  destruct (pte_flags_ok (xlate s old i)) as [Hf1 Hf2]; [apply Hl..|].
  cbn [uvmcopy_loop]. destruct (Z.ltb_spec i sz) as [_|?]; [|lia].
  rewrite (bind_ok _ _ _ _ _ (walk_false old i s (proj2 (lf_lo _ _ _ _ _ _ _ Hl)))).
  rewrite Hla. cbn [default from_option id].
  destruct (Z.eqb_spec (p0 + 8 * PX 0 i) 0) as [?|_]; [lia|].
  unfold mbind at 1, gets at 1. rewrite Hld.
  pose proof (lf_valid _ _ _ _ _ _ _ Hl) as Hv. unfold pvalid, z2b in Hv.
  destruct (Z.eqb_spec (Z.land (xlate s old i) PTE_V) 0) as [?|_]; [done|]. clear Hv.
  rewrite (lf_pa _ _ _ _ _ _ _ Hl).
  destruct (grab_page kend new s own2 dat2 fl i (PTE_FLAGS (xlate s old i))
              (fun pg m => memmove m pg pa PGSIZE))
    as [Hnone|(pg & s1 & r & s3 & own3 & fl3 & Hk & Hpg & Hrd1 & Hin & Hmap & Hr)];
    [exact Has2|exact Hal|lia|lia|exact Hf1|exact Hf2| | | |].
  { intros v Hv. apply Hun. lia. }
  { intros pg m x Hx. rewrite rd_memmove by lia. by rewrite decide_False. }
  { rewrite (bind_ok _ _ _ _ _ Hnone). simpl.
    destruct (undo_copy s own2 dat2 fl s own2 dat2 fl i) as (s' & dat' & fl' & Hrun & Hmv & Hd);
      [by apply moved_refl|done|done|lia|done|].
    exists (-1), s', own2, dat', fl'. split_and!; [done..|]. by right. }
  rewrite (bind_ok _ _ _ _ _ Hk). destruct (Z.eqb_spec pg 0) as [?|_]; [done|].
  unfold mbind at 1. unfold ram_update at 1, modify at 1.
  rewrite (bind_ok _ _ _ _ _ Hmap).
  destruct Hr as [(-> & Hmv & Hda & Hx & Hz)|(-> & s4 & Hfree & Hmv & Hx)]; simpl.
  2: { rewrite (bind_ok _ _ _ _ _ Hfree).
       destruct (undo_copy s own2 dat2 fl s4 own3 dat2 (pg :: fl3) i Hmv)
         as (s' & dat' & fl' & Hrun & Hmv' & Hd); [done|done|lia|done|].
       exists (-1), s', own3, dat', fl'. split_and!; [done..|]. by right. }
  rewrite u64_small by lia.
  assert (Hal' : (i + PGSIZE) mod PGSIZE = 0).
  { by rewrite <- Zplus_mod_idemp_r, Z_mod_same_full, Z.add_0_r. }
  destruct (moved_other own1 dat1 s own2 dat2 fl s3 own3 (<[i := pg]> dat2) fl3 Has1 Hap Has2 Hmv)
    as (Has1' & Hap' & Hxo & Hro).
  destruct (IH s3 own1 dat1 own3 (<[i := pg]> dat2) fl3 (i + PGSIZE) sz) as
    (r & s' & own' & dat' & fl' & Hrun & Hmv' & Hr);
    [exact Has1'|apply Hmv|exact Hap'|exact Hal'|lia|lia|lia|..].
  { intros b Hb Hr. apply Hdom1; [done|lia]. }
  { intros v Hv. rewrite Hx by lia. rewrite decide_False by lia. apply Hun. lia. }
  { by apply pages_insert. }
  exists r, s', own', dat', fl'. split_and!; [done| |].
  { apply (moved_trans _ _ _ _ _ _ _ _ _ _ _ _ _ _ Hmv Hmv').
    intros b pb Hb _. rewrite lookup_insert_ne; [done|]. intros ->. congruence. }
  destruct Hr as [(-> & Hd & Hf & Hx')|(-> & Hd)]; [left|right]; (split; [done|]).
  - split_and!.
    + intros b Hb. rewrite Hd by lia. apply lookup_insert_ne. lia.
    + intros b Hb Hr. destruct (decide (i + PGSIZE <= b)) as [Hge|Hlt].
      * destruct (Hf b Hb ltac:(lia)) as (pa' & pg' & H1 & H2 & H3 & H4).
        exists pa', pg'. split_and!; [done|done| |].
        -- by rewrite H3, Hxo.
        -- intros k Hk'. rewrite H4 by done. apply (Hro b pa'); [done|]. unfold in_page. lia.
      * assert (b = i) as -> by (apply aligned_page_eq; [done..|lia]).
        assert (dat' !! i = Some pg) as Hpg'.
        { rewrite Hd by lia. apply lookup_insert_eq. }
        exists pa, pg. split_and!; [done|done| |].
        -- rewrite Hx', Hx by lia. by rewrite decide_True by lia.
        -- intros k Hk'. assert (in_page pg (pg + k)) by (unfold in_page; lia).
           rewrite (mv_data _ _ _ _ _ _ _ _ _ _ Hmv' i pg); [|apply lookup_insert_eq|done..].
           rewrite Hz by done. rewrite rd_memmove by lia. rewrite decide_True by lia.
           replace (pa + (pg + k - pg)) with (pa + k) by lia. apply Hrd1.
           apply (page_apart kend pa); [apply Hl| | |unfold in_page; lia].
           ++ destruct (pi_free _ _ _ _ _ (as_pt _ _ _ _ _ _ Has2)) as (_ & _ & Hall).
              by eapply Forall_forall in Hall.
           ++ intros ->. by apply (lf_free _ _ _ _ _ _ _ Hl).
    + intros v Hv Ho. rewrite Hx' by lia. rewrite Hx, decide_False by lia. done.
  - apply (pages_undone dat2 dat' i pg 0); [done|lia|done| |done]. intros b [pb Hb]. apply (as_leaf _ _ _ _ _ _ Has2 _ _ Hb).
Qed.

End uvmcopy.
