(* ===== verification/Ufree.v ===== *)
(** * Destroying page tables: freewalk and uvmfree (kernel/vm.c)

    [tpages] lists the pages of a table tree as freewalk visits them.  A tree without
    leaves is returned to the allocator page by page, each page once. *)

From S2P Require Import Prelude Riscv CString Kalloc Vm VmSpec Uvm Uspace.

(** The children of table [p] that entry [i] leads to. *)
Fixpoint tpages (lv : nat) (m : mem) (p : Z) : list Z :=
  p :: match lv with
       | O => []
       | S lv' => concat (map (fun i => let e := pte_at m p (Z.of_nat i) in
                    if pvalid e then tpages lv' m (PTE2PA e) else []) (seq 0 512))
       end.

(** No valid entry is a leaf. *)
Fixpoint noleaf (lv : nat) (m : mem) (p : Z) : Prop :=
  forall i, 0 <= i < 512 -> pvalid (pte_at m p i) = true ->
    match lv with
    | O => False
    | S lv' => PTE_FLAGS (pte_at m p i) = PTE_V /\ noleaf lv' m (PTE2PA (pte_at m p i))
    end.

Definition tsub (lv : nat) (m : mem) (p : Z) (i : nat) : list Z :=
  let e := pte_at m p (Z.of_nat i) in if pvalid e then tpages lv m (PTE2PA e) else [].

Lemma tpages_S lv m p : tpages (S lv) m p = p :: concat (map (tsub lv m p) (seq 0 512)).
Proof. done. Qed.

Lemma tpages_frame lv : forall m m' p,
  (forall q x, q ∈ tpages lv m p -> in_page q x -> rd m' x = rd m x) ->
  tpages lv m' p = tpages lv m p /\ (noleaf lv m p -> noleaf lv m' p).
Proof.
  induction lv as [|lv IH]; intros m m' p Hfr.
  - split; [done|]. simpl. intros Hn i Hi. rewrite (pte_at_frame m m' p i Hi); [by apply Hn|].
    intros x. apply Hfr. by left.
  - rewrite !tpages_S in *.
    assert (Hpte : forall i, 0 <= i < 512 -> pte_at m' p i = pte_at m p i).
    { intros i Hi. apply pte_at_frame; [done|]. intros x. apply Hfr. by left. }
    assert (Hsub : forall i, 0 <= i < 512 -> pvalid (pte_at m p i) = true ->
      tpages lv m' (PTE2PA (pte_at m p i)) = tpages lv m (PTE2PA (pte_at m p i)) /\
      (noleaf lv m (PTE2PA (pte_at m p i)) -> noleaf lv m' (PTE2PA (pte_at m p i)))).
    { intros i Hi Hv. apply IH. intros q x Hq. apply Hfr. right.
      apply list_elem_of_In, in_concat. exists (tsub lv m p (Z.to_nat i)). split.
      - apply in_map_iff. exists (Z.to_nat i). split; [done|]. apply in_seq. lia.
      - apply list_elem_of_In. unfold tsub. rewrite Z2Nat.id, Hv by lia. done. }
    split.
    + f_equal. f_equal. apply map_ext_in. intros i Hi%in_seq. unfold tsub.
      rewrite Hpte by lia. destruct (pvalid _) eqn:E; [|done]. apply Hsub; [lia|done].
    + intros Hn i Hi. rewrite Hpte by done. intros Hv. destruct (Hn i Hi Hv) as [? ?].
      split; [done|]. by apply Hsub.
Qed.

Section freewalk.
Context (kend : Z).

Lemma land_flags e : PTE_FLAGS e = PTE_V -> Z.land e (Z.lor (Z.lor PTE_R PTE_W) PTE_X) = 0.
Proof.
  intros E. change (Z.lor (Z.lor PTE_R PTE_W) PTE_X) with (Z.land 0x3FF 14).
  rewrite Z.land_assoc. fold (PTE_FLAGS e). by rewrite E.
Qed.

Lemma pages_apart p q x : page_ok kend p -> page_ok kend q -> p <> q ->
  in_page p x -> ~ in_page q x.
Proof. intros [? _] [? _]. by apply pages_disjoint. Qed.

(** What freewalk's loop over the entries of [p] has done before entry [i]. *)
Definition freed (lv : nat) (m : mem) (p : Z) (i : nat) : list Z :=
  concat (map (tsub lv m p) (seq 0 i)).
Definition loop_inv (lv : nat) (m : mem) (p : Z) (fl : list Z) (i : nat) (s : phys) : Prop :=
  exists fl', free_ok kend s fl' /\ fl' ≡ₚ freed lv m p i ++ fl /\
    (forall j, Z.of_nat i <= j < 512 -> pte_at (ram s) p j = pte_at m p j) /\
    (forall x, ~ in_page p x -> (forall q, q ∈ freed lv m p i -> ~ in_page q x) ->
       rd (ram s) x = rd m x).

Lemma freed_S lv m p i : freed lv m p (S i) = freed lv m p i ++ tsub lv m p i.
Proof. unfold freed. rewrite seq_S, map_app, concat_app. simpl. by rewrite app_nil_r. Qed.

Lemma freed_split lv m p i : (i < 512)%nat -> exists rest,
  freed lv m p 512 = freed lv m p i ++ tsub lv m p i ++ rest.
Proof.
  intros Hi. unfold freed. replace 512%nat with (i + S (511 - i))%nat by lia.
  rewrite seq_app, map_app, concat_app. simpl. eauto.
Qed.

Definition good_tree (lv : nat) (s : phys) (fl : list Z) (p : Z) : Prop :=
  noleaf lv (ram s) p /\ NoDup (tpages lv (ram s) p) /\
  Forall (page_ok kend) (tpages lv (ram s) p) /\
  (forall q, q ∈ tpages lv (ram s) p -> q ∉ fl) /\ free_ok kend s fl.

Definition tree_gone (lv : nat) (s : phys) (fl : list Z) (p : Z) (s' : phys) : Prop :=
  exists fl', free_ok kend s' fl' /\ fl' ≡ₚ tpages lv (ram s) p ++ fl /\
    forall x, (forall q, q ∈ tpages lv (ram s) p -> ~ in_page q x) ->
      rd (ram s') x = rd (ram s) x.

Section step.
Context (lv : nat) (s : phys) (fl : list Z) (p : Z) (i : nat).
Context (Hgood : good_tree (S lv) s fl p) (Hi : (i < 512)%nat).
Notation m := (ram s).
Notation e := (pte_at m p (Z.of_nat i)).

Lemma sub_facts :
  page_ok kend p /\ p ∉ fl /\ p ∉ freed lv m p i /\ p ∉ tsub lv m p i /\
  NoDup (tsub lv m p i) /\ Forall (page_ok kend) (tsub lv m p i) /\
  Forall (page_ok kend) (freed lv m p i) /\
  (forall q, q ∈ tsub lv m p i -> q ∉ freed lv m p i /\ q ∉ fl).
Proof.
  destruct Hgood as (_ & Hnd & Hok & Hsep & _). rewrite tpages_S in *.
  fold (freed lv m p 512) in *. destruct (freed_split lv m p i Hi) as [rest Hs].
  rewrite Hs in *.
  apply NoDup_cons in Hnd as [Hpn Hnd]. apply Forall_cons in Hok as [Hp Hok].
  apply NoDup_app in Hnd as (_ & Hd1 & (Hn2 & _ & _)%NoDup_app).
  rewrite !Forall_app in Hok. rewrite !not_elem_of_app in Hpn.
  destruct Hok as (Hok1 & Hok2 & _). destruct Hpn as (Hp1 & Hp2 & _).
  split_and!; try done.
  - apply Hsep. by left.
  - intros q Hq. split.
    + intros Hq'. apply (Hd1 q Hq'). apply elem_of_app. by left.
    + apply Hsep. right. apply elem_of_app. right. apply elem_of_app. by left.
Qed.

Lemma sub_tree s' fl' : pvalid e = true -> free_ok kend s' fl' ->
  fl' ≡ₚ freed lv m p i ++ fl ->
  (forall x, ~ in_page p x -> (forall q, q ∈ freed lv m p i -> ~ in_page q x) ->
     rd (ram s') x = rd m x) ->
  good_tree lv s' fl' (PTE2PA e) /\ tpages lv (ram s') (PTE2PA e) = tsub lv m p i.
Proof.
  intros Hv Hf' Hperm Hrd.
  destruct sub_facts as (Hp & Hpfl & Hpf & Hps & Hnd & Hok & Hokf & Hdis).
  assert (Hsub : tsub lv m p i = tpages lv m (PTE2PA e)) by (unfold tsub; by rewrite Hv).
  destruct (tpages_frame lv m (ram s') (PTE2PA e)) as [Ht Hn].
  { rewrite <- Hsub. intros q x Hq Hx.
    assert (Hqok : page_ok kend q) by (by eapply Forall_forall in Hok). apply Hrd.
    - apply (pages_apart q); [done|done| |done]. intros ->. exact (Hps Hq).
    - intros r Hr. apply (pages_apart q); [done|by eapply Forall_forall in Hokf| |done].
      intros ->. by apply (proj1 (Hdis r Hq)). }
  split; [|by rewrite Ht]. unfold good_tree. rewrite Ht, <- Hsub. split_and!; try done.
  - apply Hn. destruct Hgood as (Hnl & _). by apply (Hnl (Z.of_nat i)); [lia|].
  - intros q Hq. rewrite Hperm, not_elem_of_app. by apply Hdis.
Qed.

Lemma freewalk_step s' :
  (forall s1 fl1 q, good_tree lv s1 fl1 q ->
     runs (freewalk kend (S lv) q) s1 (fun _ s2 => tree_gone lv s1 fl1 q s2)) ->
  loop_inv lv m p fl i s' -> pvalid e = true ->
  runs (freewalk kend (S lv) (PTE2PA e) ;;;
        ram_update (fun m => store64 m (p + 8 * Z.of_nat i) 0)) s'
    (fun _ s'' => loop_inv lv m p fl (S i) s'').
Proof.
  intros IH (fl' & Hf' & Hperm & Hpte & Hrd) Hv.
  destruct sub_facts as (Hp & Hpfl & Hpf & Hps & Hnd & Hok & Hokf & Hdis).
  destruct (sub_tree s' fl' Hv Hf' Hperm Hrd) as [Hgt Ht].
  apply runs_bind. eapply runs_conseq; [by apply (IH s' fl')|]. cbn beta.
  intros _ s2 (fl2 & Hf2 & Hperm2 & Hrd2). rewrite Ht in Hperm2, Hrd2.
  apply runs_modify. exists fl2. rewrite freed_S.
  assert (Hp2 : p ∉ fl2).
  { rewrite Hperm2, Hperm, !not_elem_of_app. done. }
  assert (Hst : forall x, ~ in_page p x ->
    rd (store64 (ram s2) (p + 8 * Z.of_nat i) 0) x = rd (ram s2) x).
  { intros x Hx. apply rd_store64_ne. unfold in_page, PGSIZE in Hx. lia. }
  split_and!.
  - apply free_ok_frame with s2; [done| |done]. intros q x Hq Hx. simpl. apply Hst.
    apply (pages_apart q); [|done| |done].
    + destruct Hf2 as (_ & _ & Hall). by eapply Forall_forall in Hall.
    + intros ->. exact (Hp2 Hq).
  - rewrite Hperm2, Hperm. rewrite !app_assoc. f_equiv. apply Permutation_app_comm.
  - intros j Hj. rewrite <- Hpte by lia. simpl. unfold pte_at at 1.
    rewrite load64_store64_ne by lia. apply pte_at_frame; [lia|]. intros x Hx. apply Hrd2.
    intros q Hq. apply (pages_apart p); [done|by eapply Forall_forall in Hok| |done].
    intros ->. exact (Hps Hq).
  - intros x Hx Hq. simpl. rewrite Hst by done. rewrite Hrd2, Hrd; [done..| |].
    + intros q Hq'. apply Hq, elem_of_app. by left.
    + intros q Hq'. apply Hq, elem_of_app. by right.
Qed.

End step.

(** Every page of the tree goes to the free list; no byte outside its pages changes. *)
Lemma freewalk_run lv : forall s fl p, good_tree lv s fl p ->
  runs (freewalk kend (S lv) p) s (fun _ s' => tree_gone lv s fl p s').
Proof.
  induction lv as [|lv IH]; intros s fl p Hgood; pose proof Hgood as (Hnl & Hnd & Hok & Hsep & Hfree);
    cbn [freewalk]; apply runs_bind.
  - apply (runs_for (fun _ s' => s' = s)); [done| |].
    + intros i s' Hi ->. apply runs_bind, runs_gets. fold (pte_at (ram s) p (Z.of_nat i)).
      fold (pvalid (pte_at (ram s) p (Z.of_nat i))).
      destruct (pvalid _) eqn:Hv; [|done]. exfalso. by apply (Hnl (Z.of_nat i)); [lia|].
    + intros s' ->. simpl in Hok. apply Forall_cons in Hok as [Hp _].
      destruct (kfree_run kend s fl p Hfree Hp) as (s' & Hrun & Hf' & Hrd).
      { apply Hsep. by left. }
      apply runs_ok with tt s'; [done|]. exists (p :: fl). split_and!; [done|done|].
      intros x Hx. apply Hrd, Hx. by left.
  - apply (runs_for (loop_inv lv (ram s) p fl)).
    + exists fl. split_and!; done.
    + intros i s' Hi Hinv. apply runs_bind, runs_gets.
      fold (pte_at (ram s') p (Z.of_nat i)).
      assert (pte_at (ram s') p (Z.of_nat i) = pte_at (ram s) p (Z.of_nat i)) as ->.
      { destruct Hinv as (fl' & _ & _ & Hpte & _). apply Hpte. lia. }
      fold (pvalid (pte_at (ram s) p (Z.of_nat i))).
      destruct (pvalid _) eqn:Hv; cbn [andb].
      * destruct (Hnl (Z.of_nat i) ltac:(lia) Hv) as [Hfl _]. rewrite land_flags by done.
        cbn [Z.eqb]. by apply (freewalk_step lv s fl p i).
      * apply runs_ret. destruct Hinv as (fl' & Hf' & Hperm & Hpte & Hrd).
        exists fl'. rewrite freed_S. unfold tsub. rewrite Hv, app_nil_r. split_and!; try done.
        intros j Hj. apply Hpte. lia.
    + intros s' (fl' & Hf' & Hperm & _ & Hrd). rewrite tpages_S in Hsep, Hok.
      fold (freed lv (ram s) p 512) in Hsep, Hok. apply Forall_cons in Hok as [Hp Hok].
      destruct (kfree_run kend s' fl' p Hf' Hp) as (s2 & Hrun & Hf2 & Hrd2).
      { rewrite Hperm, not_elem_of_app. split; [|apply Hsep; by left].
        rewrite tpages_S in Hnd. by apply NoDup_cons in Hnd as [? _]. }
      apply runs_ok with tt s2; [done|]. exists (p :: fl'). rewrite tpages_S.
      fold (freed lv (ram s) p 512). split_and!; [done|by rewrite Hperm|].
      intros x Hx. rewrite Hrd2, Hrd; [done|..]; intros; apply Hx; by constructor.
Qed.

End freewalk.

(** ** The tree of an address space *)

Section ptree.
Context (kend root : Z).
Context (s : phys) (own : gmap Z (nat * Z)) (fl : list Z).
Context (Hinv : ptinv kend root s own fl).
Notation m := (ram s).

(** The page labelled [(k, pr)] is below the one labelled [(lv, pre)]. *)
Definition below (lv : nat) (pre : Z) (k : nat) (pr : Z) : Prop :=
  (k <= lv)%nat /\ pr / 512 ^ (Z.of_nat (lv - k)) = pre.

Lemma below_child lv pre i k pr : 0 <= i < 512 -> 0 <= pr ->
  below lv (pre * 512 + i) k pr -> below (S lv) pre k pr.
Proof.
  intros Hi Hpr [Hk Hp]. split; [lia|].
  replace (S lv - k)%nat with (S (lv - k)) by lia. rewrite Nat2Z.inj_succ, Z.pow_succ_r by lia.
  rewrite (Z.mul_comm 512). rewrite <- Z.div_div by (try apply Z.pow_pos_nonneg; lia).
  rewrite Hp, Z.add_comm, Z.div_add by lia. rewrite Z.div_small by lia. lia.
Qed.

Lemma elem_of_tsub lv p q : q ∈ concat (map (tsub lv m p) (seq 0 512)) <->
  exists i, 0 <= i < 512 /\ pvalid (pte_at m p i) = true /\ q ∈ tpages lv m (PTE2PA (pte_at m p i)).
Proof.
  rewrite list_elem_of_In, in_concat. split.
  - intros (l & Hl & Hq). apply in_map_iff in Hl as (i & <- & Hi%in_seq). unfold tsub in Hq.
    destruct (pvalid _) eqn:Hv; [|done]. apply list_elem_of_In in Hq.
    exists (Z.of_nat i). split_and!; [lia|lia|done|done].
  - intros (i & Hi & Hv & Hq). exists (tsub lv m p (Z.to_nat i)). split.
    + apply in_map_iff. exists (Z.to_nat i). split; [done|]. apply in_seq. lia.
    + apply list_elem_of_In. unfold tsub. rewrite Z2Nat.id, Hv by lia. done.
Qed.

Lemma tpages_below lv : forall p pre q, own !! p = Some (lv, pre) -> q ∈ tpages lv m p ->
  exists k pr, own !! q = Some (k, pr) /\ below lv pre k pr.
Proof.
  induction lv as [|lv IH]; intros p pre q Hp Hq.
  - simpl in Hq. apply list_elem_of_singleton in Hq as ->. exists 0%nat, pre. split; [done|].
    split; [lia|]. simpl. apply Z.div_1_r.
  - rewrite tpages_S in Hq. apply elem_of_cons in Hq as [->|Hq].
    { exists (S lv), pre. split; [done|]. split; [lia|]. rewrite Nat.sub_diag. apply Z.div_1_r. }
    apply elem_of_tsub in Hq as (i & Hi & Hv & Hq).
    pose proof (pi_child _ _ _ _ _ Hinv _ _ _ _ Hp Hi Hv) as Hc.
    destruct (IH _ _ _ Hc Hq) as (k & pr & Hk & Hb). exists k, pr. split; [done|].
    apply (below_child lv pre i); [done| |done]. apply (pi_low _ _ _ _ _ Hinv _ _ _ Hk).
Qed.

Lemma NoDup_concat_map (f : nat -> list Z) n : forall st,
  (forall i, (st <= i < st + n)%nat -> NoDup (f i)) ->
  (forall i j q, (st <= i < st + n)%nat -> (st <= j < st + n)%nat -> q ∈ f i -> q ∈ f j -> i = j) ->
  NoDup (concat (map f (seq st n))).
Proof.
  induction n as [|n IH]; intros st Hnd Hdis; simpl; [constructor|].
  apply NoDup_app. split_and!.
  - apply Hnd. lia.
  - intros q Hq Hq'. apply list_elem_of_In, in_concat in Hq' as (l & Hl & Hq').
    apply in_map_iff in Hl as (j & <- & Hj%in_seq). apply list_elem_of_In in Hq'.
    assert (st = j) by (eapply Hdis; [| |done..]; lia). lia.
  - apply IH; intros; [apply Hnd; lia|]. eapply Hdis; [| |done..]; lia.
Qed.

Lemma tpages_nodup lv : forall p pre, own !! p = Some (lv, pre) -> NoDup (tpages lv m p).
Proof.
  induction lv as [|lv IH]; intros p pre Hp.
  - simpl. apply NoDup_singleton.
  - rewrite tpages_S. apply NoDup_cons. split.
    + intros (i & Hi & Hv & Hq)%elem_of_tsub.
      pose proof (pi_child _ _ _ _ _ Hinv _ _ _ _ Hp Hi Hv) as Hc.
      destruct (tpages_below _ _ _ _ Hc Hq) as (k & pr & Hk & [Hle _]).
      rewrite Hp in Hk. injection Hk as <- _. lia.
    + apply NoDup_concat_map.
      * intros i Hi. unfold tsub. destruct (pvalid _) eqn:Hv; [|constructor].
        eapply IH, (pi_child _ _ _ _ _ Hinv _ _ _ _ Hp); [lia|done].
      * intros i j q Hi Hj Hqi Hqj. unfold tsub in Hqi, Hqj.
        destruct (pvalid (pte_at m p (Z.of_nat i))) eqn:Hvi; [|by apply elem_of_nil in Hqi].
        destruct (pvalid (pte_at m p (Z.of_nat j))) eqn:Hvj; [|by apply elem_of_nil in Hqj].
        apply (tpages_below _ _ _ _ (pi_child _ _ _ _ _ Hinv _ _ _ (Z.of_nat i) Hp ltac:(lia) Hvi))
          in Hqi as (k & pr & Hk & [_ H1]).
        apply (tpages_below _ _ _ _ (pi_child _ _ _ _ _ Hinv _ _ _ (Z.of_nat j) Hp ltac:(lia) Hvj))
          in Hqj as (k' & pr' & Hk' & [_ H2]).
        rewrite Hk in Hk'. injection Hk' as <- <-. lia.
Qed.

(** The tree contains every page of [own]. *)
Lemma tpages_closed lv : forall p pre q k pr i, own !! p = Some (lv, pre) -> q ∈ tpages lv m p ->
  own !! q = Some (S k, pr) -> 0 <= i < 512 -> pvalid (pte_at m q i) = true ->
  PTE2PA (pte_at m q i) ∈ tpages lv m p.
Proof.
  induction lv as [|lv IH]; intros p pre q k pr i Hp Hq Hqk Hi Hv.
  - simpl in Hq. apply list_elem_of_singleton in Hq as ->. congruence.
  - rewrite tpages_S in Hq |- *. apply elem_of_cons in Hq as [->|Hq]; apply elem_of_cons; right.
    + apply elem_of_tsub. exists i. split; [done|]. split; [done|].
      destruct lv; apply elem_of_cons; by left.
    + apply elem_of_tsub in Hq as (j & Hj & Hvj & Hq). apply elem_of_tsub.
      exists j. split; [done|]. split; [done|].
      by eapply IH; [exact (pi_child _ _ _ _ _ Hinv _ _ _ _ Hp Hj Hvj)|..].
Qed.

Lemma own_in_tree n : forall lv p pre, own !! p = Some (lv, pre) -> (lv + n = 2)%nat ->
  p ∈ tpages 2 m root.
Proof.
  induction n as [|n IH]; intros lv p pre Hp Hlv;
    (destruct (pi_tree _ _ _ _ _ Hinv _ _ _ Hp) as [->|(q & pre' & i & Hq & Hi & _ & Hv & <-)];
     [rewrite tpages_S; by left|]).
  - destruct (pi_low _ _ _ _ _ Hinv _ _ _ Hq). lia.
  - eapply tpages_closed; [apply Hinv| |exact Hq|done|done]. apply (IH _ _ _ Hq). lia.
Qed.

Lemma tpages_own q : q ∈ tpages 2 m root <-> is_Some (own !! q).
Proof.
  split.
  - intros Hq. destruct (tpages_below 2 root 0 q (pi_root _ _ _ _ _ Hinv) Hq) as (k & pr & Hk & _).
    eauto.
  - intros [[lv pre] Hq]. destruct (pi_low _ _ _ _ _ Hinv _ _ _ Hq) as [Hle _].
    apply (own_in_tree (2 - lv) lv q pre Hq). lia.
Qed.

(** The table a label names is the one its addresses are translated by. *)
Lemma leafaddr_own n : forall lv p pre va, own !! p = Some (lv, pre) -> (lv + n = 2)%nat ->
  0 <= va -> vpre lv va = pre -> leafaddr m 2 root va = leafaddr m lv p va.
Proof.
  induction n as [|n IH]; intros lv p pre va Hp Hlv Hva Hpre;
    (destruct (pi_tree _ _ _ _ _ Hinv _ _ _ Hp) as [->|(q & pre' & i & Hq & Hi & -> & Hv & <-)];
     [rewrite (pi_root _ _ _ _ _ Hinv) in Hp; injection Hp as <- _; done|]).
  - destruct (pi_low _ _ _ _ _ Hinv _ _ _ Hq). lia.
  - assert (vpre (S lv) va * 512 + PX (Z.of_nat (S lv)) va = pre' * 512 + i) as E.
    { by rewrite vpre_child. }
    pose proof (PX_range (Z.of_nat (S lv)) va).
    assert (PX (Z.of_nat (S lv)) va = i /\ vpre (S lv) va = pre') as [HPX Hvp] by lia.
    rewrite (IH (S lv) q pre' va Hq) by (done || lia). cbn [leafaddr].
    by rewrite HPX, Hv.
Qed.

Lemma noleaf_own : (forall v, 0 <= v < MAXVA -> pvalid (xlate s root v) = false) ->
  forall lv p pre, own !! p = Some (lv, pre) -> noleaf lv m p.
Proof.
  intros Hun. induction lv as [|lv IH]; intros p pre Hp; simpl; intros i Hi Hv.
  - set (va := (pre * 512 + i) * PGSIZE).
    destruct (pi_low _ _ _ _ _ Hinv _ _ _ Hp) as (_ & Hlo & Hhi). simpl in Hhi.
    assert (HMAX : MAXVA = 2 ^ 38) by done.
    assert (Hva : 0 <= va < MAXVA) by (unfold va, PGSIZE; lia).
    assert (Hpx : PX 0 va = i).
    { rewrite PX_spec by lia. unfold va, PGSIZE. change (2 ^ (12 + 9 * 0)) with 4096.
      rewrite Z.div_mul by lia. rewrite Z.add_comm, Z_mod_plus_full. apply Z.mod_small. lia. }
    assert (Hvp : vpre 0 va = pre).
    { unfold vpre, va, PGSIZE. change (2 ^ (21 + 9 * Z.of_nat 0)) with (4096 * 512).
      rewrite <- Z.div_div by lia. rewrite Z.div_mul by lia.
      rewrite Z.add_comm, Z.div_add by lia. rewrite Z.div_small by lia. lia. }
    specialize (Hun va Hva). unfold xlate, xl in Hun.
    rewrite (leafaddr_own 2 0 p pre va Hp) in Hun by (done || lia). cbn [leafaddr] in Hun.
    rewrite Hpx in Hun. unfold pte_at in Hv. rewrite Hv in Hun. discriminate Hun.
  - split; [by eapply pi_flags|]. eapply IH, (pi_child _ _ _ _ _ Hinv _ _ _ _ Hp Hi Hv).
Qed.

(** A page table with nothing mapped can be walked and freed. *)
Lemma empty_good_tree : (forall v, 0 <= v < MAXVA -> pvalid (xlate s root v) = false) ->
  good_tree kend 2 s fl root.
Proof.
  intros Hun. unfold good_tree. split_and!.
  - eapply noleaf_own; [done|apply Hinv].
  - eapply tpages_nodup, Hinv.
  - apply Forall_forall. intros q [e Hq]%tpages_own. by eapply pi_page.
  - intros q [e Hq]%tpages_own. by eapply pi_page.
  - apply Hinv.
Qed.

End ptree.
