(* ===== verification/UvmProps.v ===== *)
(** * What kernel/vm.c guarantees

    The properties of the page-table and user-memory operations, stated over the invariants
    of [VmSpec], [Uvm] and [Uspace], with a concrete machine on which each applies. *)

From S2P Require Import Prelude Riscv CString Kalloc Vm VmSpec Uvm Uspace Ucopy Ufree.

(** ** Empty address spaces *)

Lemma empty_xlate root m va : (forall x, in_page root x -> rd m x = 0) -> xl m 2 root va = 0.
Proof.
  intros Hz. unfold xl. cbn [leafaddr].
  assert (pte_at m root (PX (Z.of_nat 2) va) = 0) as ->; [|done].
  apply load64_zero. intros x Hx. apply Hz. pose proof (PX_range (Z.of_nat 2) va).
  unfold in_page, PGSIZE. lia.
Qed.

Lemma empty_aspace kend root s fl : free_ok kend s fl -> page_ok kend root -> root ∉ fl ->
  (forall x, in_page root x -> rd (ram s) x = 0) ->
  aspace kend root s {[root := (2%nat, 0)]} ∅ fl /\ covers root s ∅ /\
  (forall v, xlate s root v = 0).
Proof.
  intros Hfree Hok Hnin Hz.
  assert (Hpte : forall i, 0 <= i < 512 -> pte_at (ram s) root i = 0).
  { intros i Hi. apply load64_zero. intros x Hx. apply Hz. unfold in_page, PGSIZE. lia. }
  split_and!.
  - split; [split|..]; try done.
    + apply lookup_singleton_eq.
    + intros p e [<- <-]%lookup_singleton_Some. done.
    + intros p lv pre i [<- _]%lookup_singleton_Some Hi. by rewrite Hpte.
    + intros p lv pre i [<- _]%lookup_singleton_Some Hi. by rewrite Hpte.
    + intros p lv pre [<- _]%lookup_singleton_Some. by left.
    + intros p lv pre [_ [= <- <-]]%lookup_singleton_Some. by vm_compute.
  - intros v Hv. apply uaddr_range in Hv as [_ Hv]. unfold xlate in Hv.
    rewrite empty_xlate in Hv by done. done.
  - intros v. by apply empty_xlate.
Qed.

Lemma uvmcreate_run kend s pg fl : free_ok kend s (pg :: fl) ->
  exists s', uvmcreate s = Ok pg s' /\
    aspace kend pg s' {[pg := (2%nat, 0)]} ∅ fl /\ covers pg s' ∅ /\
    (forall v, xlate s' pg v = 0) /\
    (forall x, ~ in_page pg x -> rd (ram s') x = rd (ram s) x).
Proof.
  intros Hfree. pose proof Hfree as (_ & [Hnin _]%NoDup_cons & [Hok _]%Forall_cons).
  destruct (kalloc_run kend s _ Hfree) as (r & s1 & Hrun & -> & Hfree1 & Hrd1).
  set (s2 := s1 <| ram ::= fun m => memset m pg 0 PGSIZE |>).
  assert (Hrd2 : forall x, rd (ram s2) x = if decide (in_page pg x) then 0 else rd (ram s1) x).
  { intros x. simpl. rewrite rd_memset by (unfold PGSIZE; lia). unfold in_page.
    by repeat case_decide. }
  exists s2. split.
  { unfold uvmcreate. rewrite (bind_ok _ _ _ _ _ Hrun).
    destruct (Z.eqb_spec pg 0) as [->|_]; [destruct Hok as (_ & ? & _); lia|]. done. }
  assert (Hfl2 : freelist s2 = freelist s1) by reflexivity. clearbody s2.
  destruct (empty_aspace kend pg s2 fl) as (H1 & H2 & H3); [|done|done| |].
  - apply free_ok_frame with s1; [done| |done]. intros q x Hq Hx. rewrite Hrd2, decide_False; [done|].
    destruct Hfree1 as (_ & _ & Hall). apply (page_apart kend q); [|done| |done].
    + by eapply Forall_forall in Hall.
    + by intros ->.
  - intros x Hx. by rewrite Hrd2, decide_True.
  - split_and!; try done. intros x Hx. rewrite Hrd2, Hrd1. by rewrite !decide_False.
Qed.

(** ** From pages to user bytes *)

Lemma uaddr_page kend root s own dat fl v pa : aspace kend root s own dat fl ->
  covers root s dat -> uaddr root s v = Some pa ->
  exists pg, dat !! pgbase v = Some pg /\ pa = pg + v mod PGSIZE /\ in_page pg pa /\ 0 <= v < MAXVA.
Proof.
  intros Has Hcov Hu. destruct (uaddr_range root s v) as [Hr _]; [eauto|].
  destruct (Hcov v) as [pg Hpg]; [eauto|]. exists pg.
  pose proof (as_leaf _ _ _ _ _ _ Has _ _ Hpg) as Hl.
  assert (pa = pg + v mod PGSIZE) as ->.
  { rewrite uaddr_base in Hu by lia. unfold uaddr in Hu. destruct (_ && _); [|done].
    rewrite (lf_pa _ _ _ _ _ _ _ Hl), (lf_al _ _ _ _ _ _ _ Hl) in Hu. simpl in Hu.
    injection Hu. lia. }
  pose proof (Z.mod_pos_bound v PGSIZE). unfold in_page. unfold PGSIZE in *.
  split_and!; [done|done|lia..].
Qed.

Lemma moved_ubyte kend root s own dat fl s' own' dat' fl' v :
  aspace kend root s own dat fl -> covers root s dat ->
  moved kend root s own dat fl s' own' dat' fl' ->
  xlate s' root v = xlate s root v -> dat' !! pgbase v = dat !! pgbase v ->
  is_Some (uaddr root s v) -> uaddr root s' v = uaddr root s v /\ ubyte root s' v = ubyte root s v.
Proof.
  intros Has Hcov Hmv Hx Hd [pa Hu]. split; [by apply uaddr_ext|].
  destruct (uaddr_page _ _ _ _ _ _ _ _ Has Hcov Hu) as (pg & Hpg & _ & Hin & _).
  unfold ubyte. rewrite (uaddr_ext root s s' v Hx), Hu. simpl.
  apply (mv_data _ _ _ _ _ _ _ _ _ _ Hmv (pgbase v) pg); [done|by rewrite Hd|done].
Qed.

Lemma pgbase_lt v hi : 0 <= v -> hi mod PGSIZE = 0 -> (pgbase v < hi <-> v < hi).
Proof.
  intros Hv Hhi. unfold pgbase, PGSIZE in *. pose proof (Z.div_mod hi 4096).
  pose proof (Z.div_mod v 4096). pose proof (Z.mod_pos_bound v 4096). lia.
Qed.

(** A copied page reads the same in both address spaces. *)
Lemma copied_user kend old new s0 own1 dat1 fl s own2 dat2 fl2 v :
  aspace kend old s0 own1 dat1 fl -> aspace kend new s own2 dat2 fl2 -> 0 <= v < MAXVA ->
  copied old new s0 dat1 s dat2 (pgbase v) ->
  (is_Some (uaddr new s v) <-> is_Some (uaddr old s0 v)) /\
  (is_Some (uaddr old s0 v) -> ubyte new s v = ubyte old s0 v).
Proof.
  intros Has1 Has2 Hv (pa & pg & Hpa & Hpg & Hx & Hrd).
  pose proof (as_leaf _ _ _ _ _ _ Has1 _ _ Hpa) as Hl1.
  pose proof (as_leaf _ _ _ _ _ _ Has2 _ _ Hpg) as Hl2.
  assert (HU : Z.land (xlate s new (pgbase v)) PTE_U = Z.land (xlate s0 old (pgbase v)) PTE_U).
  { assert (forall e, Z.land e PTE_U = Z.land (PTE_FLAGS e) PTE_U) as Hfl.
    { intros e. unfold PTE_FLAGS. by rewrite <- Z.land_assoc. }
    destruct (pte_flags_ok _ (lf_valid _ _ _ _ _ _ _ Hl1) (lf_leaf _ _ _ _ _ _ _ Hl1)) as [Hr _].
    rewrite (Hfl (xlate s new _)), Hx.
    rewrite (proj2 (proj2 (map_entry_fields kend pg _ (lf_page _ _ _ _ _ _ _ Hl2) Hr))).
    rewrite (Hfl (xlate s0 old _)), Z.land_lor_distr_l. by rewrite Z.lor_0_r. }
  assert (Hu : forall r p st a, p <> 0 -> pvalid (xlate st r (pgbase v)) = true ->
    PTE2PA (xlate st r (pgbase v)) = p -> a = Z.land (xlate st r (pgbase v)) PTE_U ->
    uaddr r st v = if z2b a then Some (p + v mod PGSIZE) else None).
  { intros r p st a Hp Hval Hpa' ->. unfold uaddr. rewrite pgbase_xlate in * by lia.
    rewrite Hval, Hpa'. destruct (Z.leb_spec 0 v), (Z.ltb_spec v MAXVA); try lia. cbn [andb].
    destruct (Z.eqb_spec p 0); [done|]. by rewrite andb_true_r. }
  pose proof (page_range kend pa (lf_page _ _ _ _ _ _ _ Hl1)).
  pose proof (page_range kend pg (lf_page _ _ _ _ _ _ _ Hl2)).
  unfold ubyte.
  rewrite (Hu new pg s _ ltac:(lia) (lf_valid _ _ _ _ _ _ _ Hl2) (lf_pa _ _ _ _ _ _ _ Hl2) eq_refl).
  rewrite (Hu old pa s0 _ ltac:(lia) (lf_valid _ _ _ _ _ _ _ Hl1) (lf_pa _ _ _ _ _ _ _ Hl1) eq_refl).
  rewrite HU. destruct (z2b _); [|split; [done|by intros []]].
  split; [split; eauto|]. intros _. simpl. apply Hrd. apply Z.mod_pos_bound. done.
Qed.

(** ** A machine with nine free pages and an empty page table *)

Definition ex_kend : Z := PHYSTOP - 12 * PGSIZE.
Definition ex_page (i : Z) : Z := PHYSTOP - (i + 1) * PGSIZE.
Definition ex_root : Z := ex_page 0.
Definition ex_root2 : Z := ex_page 7.
Definition ex_free : list Z := [ex_page 1; ex_page 2; ex_page 3; ex_page 4; ex_page 5; ex_page 6;
  ex_page 8; ex_page 9; ex_page 10].
Definition ex_s0 : phys :=
  let link m l := store64 m (ex_page (fst l)) (ex_page (snd l)) in
  Phys (fold_left link [(1, 2); (2, 3); (3, 4); (4, 5); (5, 6); (6, 8); (8, 9); (9, 10)] (Mem ∅))
    (ex_page 1).

Lemma ex_free_ok : free_ok ex_kend ex_s0 ex_free.
Proof.
  split; [|split].
  - vm_compute. done.
  - vm_compute. repeat constructor; set_solver.
  - unfold ex_free. repeat (apply Forall_cons_2; [vm_compute; split_and!; congruence|]).
    apply Forall_nil_2.
Qed.


Lemma ex_root2_spare : ex_root2 ∉ ex_free /\ ex_root2 <> ex_root.
Proof. split; [vm_compute; set_solver|by vm_compute]. Qed.

Lemma ex_aspace0 : aspace ex_kend ex_root ex_s0 {[ex_root := (2%nat, 0)]} ∅ ex_free /\
  covers ex_root ex_s0 ∅ /\ (forall v, xlate ex_s0 ex_root v = 0).
Proof.
  apply empty_aspace; [apply ex_free_ok|vm_compute; split_and!; congruence|vm_compute; set_solver|].
  intros x Hx. unfold ex_s0, ram. cbn [fold_left fst snd]. unfold in_page, ex_root, ex_page, PHYSTOP, KERNBASE, PGSIZE in *.
  rewrite !rd_store64_ne by lia. done.
Qed.

(** The same machine after a process grew to 5000 bytes: two user pages. *)
Definition ex_s1 : phys :=
  match uvmalloc ex_kend ex_root 0 5000 PTE_W ex_s0 with Ok _ s => s | Err _ => ex_s0 end.
Definition ex_r1 : Z :=
  match uvmalloc ex_kend ex_root 0 5000 PTE_W ex_s0 with Ok r _ => r | Err _ => -1 end.

Lemma ex_r1_ok : ex_r1 = 5000.
Proof. by vm_compute. Qed.

Lemma ex_user : exists own dat fl,
  aspace ex_kend ex_root ex_s1 own dat fl /\ covers ex_root ex_s1 dat /\
  (forall b, ~ (0 <= b < 8192) -> dat !! b = None) /\
  (forall b, b mod PGSIZE = 0 -> 0 <= b < 8192 -> is_Some (dat !! b)) /\
  (forall v, 0 <= v < 8192 -> is_Some (uaddr ex_root ex_s1 v)) /\
  (forall v, 0 <= v < MAXVA -> ~ (0 <= v < 8192) -> xlate ex_s1 ex_root v = 0) /\
  (forall p, in_pool own dat fl p -> p = ex_root \/ p ∈ ex_free) /\
  (forall x, in_page ex_root2 x -> rd (ram ex_s1) x = 0).
Proof.
  destruct ex_aspace0 as (Has & Hcov & Hx).
  destruct (uvmalloc_run ex_kend ex_root ex_s0 _ ∅ ex_free 0 5000 PTE_W Has Hcov) as
    (r & s' & own' & dat' & fl' & Hrun & Hmv & Hcov' & Hr).
  { lia. } { by vm_compute. } { by vm_compute. } { intros v _. by rewrite Hx. }
  assert (Es : ex_s1 = s') by (unfold ex_s1; by rewrite Hrun).
  assert (Er : r = 5000) by (rewrite <- ex_r1_ok; unfold ex_r1; by rewrite Hrun).
  change (PGROUNDUP 0) with 0 in Hr. change (PGROUNDUP 5000) with 8192 in Hr.
  rewrite Es. clear Es Hrun. subst r.
  destruct Hr as [(_ & Hd & Hf & Hx')|(? & _)]; [|done].
  pose proof (mv_space _ _ _ _ _ _ _ _ _ _ Hmv) as Has'.
  exists own', dat', fl'. split_and!; try done.
  - intros b Hb Hr. destruct (Hf b Hb Hr) as (pg & ? & _). eauto.
  - intros v Hv. assert (HMAX : MAXVA = 2 ^ 38) by done.
    destruct (fresh_page_user ex_kend ex_root s' own' dat' fl' PTE_W v Has') as [? _];
      [by vm_compute|lia| |done].
    apply Hf; [apply pgbase_aligned|]. pose proof (pgbase_range v ltac:(lia)).
    unfold pgbase, PGSIZE in *. pose proof (Z.div_lt_upper_bound v 4096 2). lia.
  - intros v Hv Ho. rewrite Hx' by done. apply Hx.
  - intros p [?|[[e [<- _]%lookup_singleton_Some]|[a Ha]]]%(mv_pool _ _ _ _ _ _ _ _ _ _ Hmv);
      [by right|by left|]. by rewrite lookup_empty in Ha.
  - intros x Hin. rewrite (mv_out _ _ _ _ _ _ _ _ _ _ Hmv).
    + unfold ex_s0, ram. cbn [fold_left fst snd]. unfold in_page, ex_root2, ex_page, PHYSTOP, KERNBASE, PGSIZE in *.
      rewrite !rd_store64_ne by lia. done.
    + intros p Hp. assert (p mod PGSIZE = 0 /\ p <> ex_root2) as [? ?].
      { destruct Hp as [Hp|[[e [<- _]%lookup_singleton_Some]|[a Ha]]].
        - destruct ex_free_ok as (_ & _ & Hall). split.
          + eapply Forall_forall in Hall; [|exact Hp]. apply Hall.
          + intros ->. by apply (proj1 ex_root2_spare).
        - split; [by vm_compute|]. apply not_eq_sym, ex_root2_spare.
        - by rewrite lookup_empty in Ha. }
      apply (pages_disjoint ex_root2); [done|done|done|done].
Qed.

(** ** Properties *)

(** An address space whose tables, user pages and free pages are apart. *)
Definition user_space (kend root : Z) (s : phys) : Prop :=
  exists own fl, user_ok kend root s own fl.

Lemma ex_user_space : user_space ex_kend ex_root ex_s1.
Proof.
  destruct ex_user as (own & dat & fl & Has & Hcov & _). exists own, fl.
  by apply aspace_user_ok with dat.
Qed.

(** copyin returns 0 with exactly the bytes the user program sees at the source range
    when every address of it is mapped for the user, and -1 otherwise; it changes nothing,
    for any length and any alignment. *)
Theorem copyin_correct kend root s va len :
  user_space kend root s -> 0 <= va < 2 ^ 64 -> 0 <= len ->
  exists r bs, copyin root va len s = Ok (r, bs) s /\
    ((r = 0 /\ uaccess root s va len /\ bs = ubytes root s va (Z.to_nat len)) \/
     (r = -1 /\ ~ uaccess root s va len)).
Proof.
  intros (own & fl & Huo) Hva Hlen.
  apply (copyin_loop_run kend root (S (Z.to_nat len)) s own fl va len []); [apply Huo|lia..].
Qed.

Lemma copyin_correct_witness :
  exists r bs, copyin ex_root 4090 20 ex_s1 = Ok (r, bs) ex_s1 /\
    ((r = 0 /\ uaccess ex_root ex_s1 4090 20 /\ bs = ubytes ex_root ex_s1 4090 20) \/
     (r = -1 /\ ~ uaccess ex_root ex_s1 4090 20)).
Proof. apply (copyin_correct ex_kend); [exact ex_user_space|lia|lia]. Defined.

(** C23. What copyout writes into a mapped user range is what copyin reads back from it,
    page boundaries included; the other user bytes, the translations and all memory that
    is not the user's stay as they were. *)
Theorem copyout_copyin kend root s va src :
  user_space kend root s -> 0 <= va < 2 ^ 64 -> uaccess root s va (Z.of_nat (length src)) ->
  exists s', copyout root va src s = Ok 0 s' /\ user_space kend root s' /\
    copyin root va (Z.of_nat (length src)) s' = Ok (0, src) s' /\
    (forall v, uaddr root s' v = uaddr root s v) /\
    (forall v, 0 <= v -> ~ (va <= v < va + Z.of_nat (length src)) ->
       is_Some (uaddr root s v) -> ubyte root s' v = ubyte root s v) /\
    (forall x, (forall v, uaddr root s v <> Some x) -> rd (ram s') x = rd (ram s) x).
Proof.
  intros (own & fl & Huo) Hva Hacc.
  destruct (copyout_loop_run kend root (S (length src)) s own fl va src Huo) as
    (r & s' & Hrun & Huo' & Hu & Hkeep & Hout & Hr); [lia|done|].
  destruct Hr as [(-> & _ & Hbs)|(_ & ?)]; [|done].
  exists s'. split_and!; [exact Hrun|by exists own, fl| |done..].
  destruct (copyin_loop_run kend root (S (length src)) s' own fl va (Z.of_nat (length src)) [])
    as (r & bs & Hrun' & Hr); [apply Huo'|lia..|].
  unfold copyin. rewrite Nat2Z.id in *. rewrite Hrun'. simpl.
  destruct Hr as [(-> & _ & ->)|(_ & Hn)]; [by rewrite Hbs|].
  destruct Hn. intros i Hi. rewrite Hu. by apply Hacc.
Qed.

Lemma copyout_copyin_witness :
  exists s', copyout ex_root 4094 [1; 2; 3; 4] ex_s1 = Ok 0 s' /\ user_space ex_kend ex_root s' /\
    copyin ex_root 4094 4 s' = Ok (0, [1; 2; 3; 4]) s' /\
    (forall v, uaddr ex_root s' v = uaddr ex_root ex_s1 v) /\
    (forall v, 0 <= v -> ~ (4094 <= v < 4094 + 4) ->
       is_Some (uaddr ex_root ex_s1 v) -> ubyte ex_root s' v = ubyte ex_root ex_s1 v) /\
    (forall x, (forall v, uaddr ex_root ex_s1 v <> Some x) -> rd (ram s') x = rd (ram ex_s1) x).
Proof.
  apply (copyout_copyin ex_kend ex_root ex_s1 4094 [1; 2; 3; 4]); [exact ex_user_space|lia|].
  intros i Hi. simpl in Hi. destruct ex_user as (_ & _ & _ & _ & _ & _ & _ & H & _). apply H. lia.
Defined.

(** C24. copyinstr finds the NUL-terminated user string: it returns 0 with the string and
    its NUL exactly when a string shorter than [max] starts at the address and is mapped
    up to its NUL, and -1 otherwise. *)
Theorem copyinstr_correct kend root s va max :
  user_space kend root s -> 0 <= va < 2 ^ 64 -> 0 <= max ->
  exists r bs, copyinstr root va max s = Ok (r, bs) s /\
    ((r = 0 /\ exists k, 0 <= k < max /\ ustring root s va k /\
        bs = ubytes root s va (Z.to_nat (k + 1))) \/
     (r = -1 /\ forall k, 0 <= k < max -> ~ ustring root s va k)).
Proof.
  intros (own & fl & Huo) Hva Hmax.
  apply (copyinstr_loop_run kend root (S (Z.to_nat max)) s own fl va max []); [apply Huo|lia..].
Qed.

Lemma copyinstr_correct_witness :
  exists r bs, copyinstr ex_root 4095 128 ex_s1 = Ok (r, bs) ex_s1 /\
    ((r = 0 /\ exists k, 0 <= k < 128 /\ ustring ex_root ex_s1 4095 k /\
        bs = ubytes ex_root ex_s1 4095 (Z.to_nat (k + 1))) \/
     (r = -1 /\ forall k, 0 <= k < 128 -> ~ ustring ex_root ex_s1 4095 k)).
Proof. apply (copyinstr_correct ex_kend); [exact ex_user_space|lia|lia]. Defined.

(** mappages on an unmapped range maps every page of the range, and nothing else, to
    consecutive physical pages with the given permissions; when it returns -1 the
    allocator is empty and only a prefix of the range is mapped. *)
Theorem mappages_maps_range kend root s own fl va size pa perm :
  ptinv kend root s own fl -> 0 <= va -> 0 < size -> va + size <= MAXVA ->
  0 <= pa -> pa + size + PGSIZE <= 2 ^ 64 -> 0 <= perm < 1024 ->
  (forall v, pgbase va <= v < pgbase (va + size - 1) + PGSIZE ->
     pvalid (xlate s root v) = false) ->
  exists r s' own' fl' hi,
    mappages root va size pa perm s = Ok r s' /\ ptinv kend root s' own' fl' /\
    extends s own fl s' own' fl' /\
    (forall v, 0 <= v < MAXVA -> xlate s' root v =
       if decide (pgbase va <= v < hi)
       then map_entry (pa + (pgbase v - pgbase va)) perm else xlate s root v) /\
    ((r = 0 /\ hi = pgbase (va + size - 1) + PGSIZE) \/
     (r = -1 /\ hi <= pgbase (va + size - 1) /\ fl' = [])).
Proof. apply mappages_run. Qed.

Lemma mappages_maps_range_witness : exists r s' own' fl' hi,
    mappages ex_root 5000 6000 0x10000000 PTE_R ex_s0 = Ok r s' /\
    ptinv ex_kend ex_root s' own' fl' /\
    extends ex_s0 {[ex_root := (2%nat, 0)]} ex_free s' own' fl' /\
    (forall v, 0 <= v < MAXVA -> xlate s' ex_root v =
       if decide (pgbase 5000 <= v < hi)
       then map_entry (0x10000000 + (pgbase v - pgbase 5000)) PTE_R else xlate ex_s0 ex_root v) /\
    ((r = 0 /\ hi = pgbase (5000 + 6000 - 1) + PGSIZE) \/
     (r = -1 /\ hi <= pgbase (5000 + 6000 - 1) /\ fl' = [])).
Proof.
  destruct ex_aspace0 as (Has & _ & Hx).
  apply (mappages_maps_range ex_kend);
    [apply Has|lia|lia|by vm_compute|lia|by vm_compute|by vm_compute|].
  intros v _. by rewrite Hx.
Defined.



(** uvmdealloc shrinks a process to the size it is asked for: the pages above the new
    size can no longer be reached by the user and are back in the pool, everything below
    keeps its translation and its bytes. *)
Theorem uvmdealloc_shrinks kend root s own dat fl oldsz newsz :
  aspace kend root s own dat fl -> covers root s dat -> 0 <= newsz <= oldsz -> oldsz <= MAXVA ->
  (forall b, b mod PGSIZE = 0 -> PGROUNDUP newsz <= b < PGROUNDUP oldsz -> is_Some (dat !! b)) ->
  exists s' dat' fl',
    uvmdealloc kend root oldsz newsz s = Ok newsz s' /\
    aspace kend root s' own dat' fl' /\ covers root s' dat' /\
    (forall p, in_pool own dat' fl' p <-> in_pool own dat fl p) /\
    (forall b pa, dat !! b = Some pa -> PGROUNDUP newsz <= b < PGROUNDUP oldsz ->
       dat' !! b = None /\ pa ∈ fl') /\
    (forall v, PGROUNDUP newsz <= v < PGROUNDUP oldsz -> uaddr root s' v = None) /\
    (forall v, v < PGROUNDUP newsz -> is_Some (uaddr root s v) ->
       uaddr root s' v = uaddr root s v /\ ubyte root s' v = ubyte root s v).
Proof.
  intros Has Hcov Hsz Hmax Hdom.
  destruct (uvmdealloc_run kend root s own dat fl oldsz newsz) as
    (s' & dat' & fl' & Hrun & Hmv & Hd & Hx); try done.
  pose proof (mv_space _ _ _ _ _ _ _ _ _ _ Hmv) as Has'.
  destruct (PGROUNDUP_max oldsz) as [Hor Hoa]; [lia|].
  destruct (PGROUNDUP_max newsz) as [Hnr Hna]; [lia|].
  exists s', dat', fl'. split_and!; try done.
  - by apply (covers_remove root s s' dat dat' (PGROUNDUP newsz) (PGROUNDUP oldsz)).
  - apply Hmv.
  - intros b pa Hb Hr. split; [by rewrite Hd, decide_True|].
    destruct (proj2 (mv_pool _ _ _ _ _ _ _ _ _ _ Hmv pa)) as [?|[Ho|[c Hc]]];
      [right; right; eauto|done| |]; exfalso.
    + rewrite (lf_own _ _ _ _ _ _ _ (as_leaf _ _ _ _ _ _ Has _ _ Hb)) in Ho. by destruct Ho.
    + rewrite Hd in Hc. case_decide as Hcd; [done|].
      apply Hcd. by rewrite (as_inj _ _ _ _ _ _ Has c b pa).
  - intros v Hv. apply eq_None_not_Some. intros [_ Hval]%uaddr_range.
    rewrite Hx, decide_True in Hval by lia. discriminate Hval.
  - intros v Hv Hu. destruct (uaddr_range root s v Hu) as [Hvr _].
    pose proof (pgbase_range v ltac:(lia)).
    apply (moved_ubyte kend root s own dat fl s' own dat' fl'); try done.
    + rewrite Hx by done. by rewrite decide_False by lia.
    + rewrite Hd. by rewrite decide_False by lia.
Qed.

Lemma uvmdealloc_shrinks_witness : exists own dat fl s' dat' fl',
    uvmdealloc ex_kend ex_root 5000 100 ex_s1 = Ok 100 s' /\
    aspace ex_kend ex_root s' own dat' fl' /\ covers ex_root s' dat' /\
    (forall p, in_pool own dat' fl' p <-> in_pool own dat fl p) /\
    (forall b pa, dat !! b = Some pa -> PGROUNDUP 100 <= b < PGROUNDUP 5000 ->
       dat' !! b = None /\ pa ∈ fl') /\
    (forall v, PGROUNDUP 100 <= v < PGROUNDUP 5000 -> uaddr ex_root s' v = None) /\
    (forall v, v < PGROUNDUP 100 -> is_Some (uaddr ex_root ex_s1 v) ->
       uaddr ex_root s' v = uaddr ex_root ex_s1 v /\ ubyte ex_root s' v = ubyte ex_root ex_s1 v).
Proof.
  destruct ex_user as (own & dat & fl & Has & Hcov & _ & Hdom & _). exists own, dat, fl.
  apply uvmdealloc_shrinks; [exact Has|exact Hcov|lia|by vm_compute|].
  intros b Hb Hr. change (PGROUNDUP 100) with 4096 in Hr. change (PGROUNDUP 5000) with 8192 in Hr.
  apply Hdom; [done|lia].
Defined.



Lemma uvmfree_run kend root s own dat fl sz :
  aspace kend root s own dat fl -> 0 <= sz <= MAXVA ->
  (forall b, b mod PGSIZE = 0 -> 0 <= b < PGROUNDUP sz -> is_Some (dat !! b)) ->
  (forall v, PGROUNDUP sz <= v < MAXVA -> pvalid (xlate s root v) = false) ->
  exists s' fl', uvmfree kend root sz s = Ok tt s' /\ free_ok kend s' fl' /\
    (forall p, p ∈ fl' <-> in_pool own dat fl p) /\
    (forall x, (forall p, in_pool own dat fl p -> ~ in_page p x) -> rd (ram s') x = rd (ram s) x).
Proof.
  intros Has Hsz Hdom Hun.
  destruct (PGROUNDUP_max sz) as [Hsr Hsa]; [lia|]. pose proof (PGROUNDUP_ge sz ltac:(lia)).
  assert (HPG : PGSIZE = 4096) by done. assert (HMAX : MAXVA = 2 ^ 38) by done.
  assert (Hunmap : exists s1 dat1 fl1,
    mwhen (0 <? sz) (uvmunmap kend root 0 (PGROUNDUP sz / PGSIZE) true) s = Ok tt s1 /\
    moved kend root s own dat fl s1 own dat1 fl1 /\ dat1 = ∅ /\
    (forall v, 0 <= v < MAXVA -> pvalid (xlate s1 root v) = false)).
  { assert (Hlow : forall b pa, dat !! b = Some pa -> 0 <= b < PGROUNDUP sz).
    { intros b pa Hb. pose proof (as_leaf _ _ _ _ _ _ Has _ _ Hb) as Hl.
      pose proof (lf_lo _ _ _ _ _ _ _ Hl). destruct (decide (b < PGROUNDUP sz)); [lia|].
      pose proof (lf_valid _ _ _ _ _ _ _ Hl) as Hv. rewrite Hun in Hv by lia. done. }
    destruct (Z.ltb_spec 0 sz) as [Hpos|Hz]; cbn [mwhen].
    - destruct (uvmunmap_run kend root (Z.to_nat (PGROUNDUP sz / PGSIZE)) s own dat fl 0) as
        (s1 & dat1 & fl1 & Hrun & Hmv & Hd & Hx); [done|done|lia|..].
      all: rewrite Z2Nat.id in * by (apply Z.div_pos; lia).
      all: replace (0 + PGROUNDUP sz / PGSIZE * PGSIZE) with (PGROUNDUP sz) in *
        by (rewrite HPG in *; pose proof (Z.div_mod (PGROUNDUP sz) 4096); lia).
      + lia.
      + done.
      + exists s1, dat1, fl1. split_and!; try done.
        * apply map_eq. intros b. rewrite Hd, lookup_empty. case_decide; [done|].
          destruct (dat !! b) as [pa|] eqn:Hb; [|done]. by apply Hlow in Hb.
        * intros v Hv. rewrite Hx by done. case_decide; [done|]. apply Hun. lia.
    - assert (sz = 0) as -> by lia. change (PGROUNDUP 0) with 0 in *.
      exists s, dat, fl. split_and!; [done|by apply moved_refl| |done].
      apply map_eq. intros b. rewrite lookup_empty. destruct (dat !! b) as [pa|] eqn:Hb; [|done].
      apply Hlow in Hb. lia. }
  destruct Hunmap as (s1 & dat1 & fl1 & Hrun1 & Hmv & -> & Hun1).
  pose proof (mv_space _ _ _ _ _ _ _ _ _ _ Hmv) as Has1.
  pose proof (empty_good_tree kend root s1 own fl1 (as_pt _ _ _ _ _ _ Has1) Hun1) as Hgood.
  pose proof (freewalk_run kend 2 s1 fl1 root Hgood) as Hfw.
  apply runs_inv in Hfw as ([] & s' & Hrun2 & fl' & Hfree & Hperm & Hrd).
  exists s', fl'. split_and!; [|done| |].
  - unfold uvmfree. by rewrite (bind_ok _ _ _ _ _ Hrun1).
  - intros p. rewrite Hperm, elem_of_app.
    rewrite (tpages_own kend root s1 own fl1 (as_pt _ _ _ _ _ _ Has1)).
    rewrite <- (mv_pool _ _ _ _ _ _ _ _ _ _ Hmv). unfold in_pool.
    split; [intros [?|?]; auto|]. intros [?|[?|[a Ha]]]; auto. by rewrite lookup_empty in Ha.
  - intros x Hx. rewrite Hrd.
    + apply (mv_out _ _ _ _ _ _ _ _ _ _ Hmv x Hx).
    + intros q Hq%(tpages_own kend root s1 own fl1 (as_pt _ _ _ _ _ _ Has1)). apply Hx.
      right. by left.
Qed.

(** C22. uvmfree gives everything back: when nothing above the size is mapped, every page
    of the address space, user pages and page tables of all three levels, ends on the free
    list together with the pages that were free, each exactly once. *)
Theorem uvmfree_returns_all kend root s own dat fl sz :
  aspace kend root s own dat fl -> 0 <= sz <= MAXVA ->
  (forall b, b mod PGSIZE = 0 -> 0 <= b < PGROUNDUP sz -> is_Some (dat !! b)) ->
  (forall v, PGROUNDUP sz <= v < MAXVA -> pvalid (xlate s root v) = false) ->
  exists s' fl', uvmfree kend root sz s = Ok tt s' /\ free_ok kend s' fl' /\
    (forall p, p ∈ fl' <-> in_pool own dat fl p).
Proof.
  intros Has Hsz Hdom Hun.
  destruct (uvmfree_run kend root s own dat fl sz Has Hsz Hdom Hun) as (s' & fl' & H1 & H2 & H3 & _). eauto.
Qed.

Lemma uvmfree_returns_all_witness : exists own dat fl s' fl',
  uvmfree ex_kend ex_root 5000 ex_s1 = Ok tt s' /\ free_ok ex_kend s' fl' /\
  (forall p, p ∈ fl' <-> in_pool own dat fl p).
Proof.
  destruct ex_user as (own & dat & fl & Has & Hcov & _ & Hdom & _ & Hx & _). exists own, dat, fl.
  apply uvmfree_returns_all; [exact Has|by vm_compute| |].
  - intros b Hb Hr. apply Hdom; [done|]. by change (PGROUNDUP 5000) with 8192 in Hr.
  - intros v Hv. change (PGROUNDUP 5000) with 8192 in Hv. rewrite Hx by lia. done.
Defined.
