(* ===== verification/Spinlock.v ===== *)
(** * Spinlocks and interrupt nesting: kernel/spinlock.c, kernel/spinlock.h

    [mach] is what one hart sees: its registers, the per-CPU structs, and the locks.  The
    [struct spinlock] fields that the kernel's data structures contain are kept in one
    table, indexed by the lock's identity [lockid].

    The functions of this file are the C functions run by one hart without interference:
    acquire of a lock another CPU holds is [Err Block], the caller spins.  [Module Smp]
    takes acquire and release apart into the instructions that other CPUs can observe and
    runs any number of CPUs in any interleaving. *)

From S2P Require Import Prelude Riscv.

(** Saved registers for kernel context switches (kernel/proc.h). *)
Record context := Context {
  x_ra : Z; x_sp : Z;
  x_s0 : Z; x_s1 : Z; x_s2 : Z; x_s3 : Z; x_s4 : Z; x_s5 : Z;
  x_s6 : Z; x_s7 : Z; x_s8 : Z; x_s9 : Z; x_s10 : Z; x_s11 : Z
}.
#[export] Instance context_eta : Eta context := fun x =>
  Context (x_ra x) (x_sp x) (x_s0 x) (x_s1 x) (x_s2 x) (x_s3 x) (x_s4 x) (x_s5 x)
    (x_s6 x) (x_s7 x) (x_s8 x) (x_s9 x) (x_s10 x) (x_s11 x).
Definition context0 : context := Context 0 0 0 0 0 0 0 0 0 0 0 0 0 0.

(** Per-CPU state (kernel/proc.h); the process running on a CPU is its index in the
    process table. *)
Record cpu := Cpu {
  c_proc : option nat;
  c_context : context;
  c_noff : Z;
  c_intena : Z
}.
#[export] Instance cpu_eta : Eta cpu := fun c =>
  Cpu (c_proc c) (c_context c) (c_noff c) (c_intena c).
Definition cpu0 : cpu := Cpu None context0 0 0.

Record spinlock := Spinlock {
  locked : Z;
  lname : string;
  lcpu : option nat
}.
#[export] Instance spinlock_eta : Eta spinlock := fun l => Spinlock (locked l) (lname l) (lcpu l).

(** The spinlocks of the kernel. *)
Inductive lockid :=
  | LProc (p : nat)       (* proc[p].lock *)
  | LWait                 (* wait_lock *)
  | LPid                  (* pid_lock *)
  | LTicks                (* tickslock *)
  | LBcache               (* bcache.lock *)
  | LLog                  (* log.lock *)
  | LFtable               (* ftable.lock *)
  | LItable               (* itable.lock *)
  | LPipe (pi : Z)        (* pi->lock, by the address of the pipe *)
  | LSleep (i : nat)      (* the spinlock inside a sleeplock *)
  | LCons                 (* cons.lock *)
  | LUart                 (* uart_tx_lock *)
  | LDisk                 (* disk.vdisk_lock *)
  | LPr.                  (* pr.lock *)
#[export] Instance lockid_eq_dec : EqDecision lockid.
Proof. solve_decision. Defined.
Definition lockid_code (l : lockid) : nat * Z :=
  match l with
  | LProc p => (0%nat, Z.of_nat p) | LWait => (1%nat, 0) | LPid => (2%nat, 0)
  | LTicks => (3%nat, 0) | LBcache => (4%nat, 0) | LLog => (5%nat, 0) | LFtable => (6%nat, 0)
  | LItable => (7%nat, 0) | LPipe pi => (8%nat, pi) | LSleep i => (9%nat, Z.of_nat i)
  | LCons => (10%nat, 0) | LUart => (11%nat, 0) | LDisk => (12%nat, 0)
  | LPr => (13%nat, 0)
  end.
Definition lockid_decode (c : nat * Z) : option lockid :=
  match fst c with
  | 0 => Some (LProc (Z.to_nat (snd c))) | 1 => Some LWait | 2 => Some LPid | 3 => Some LTicks
  | 4 => Some LBcache | 5 => Some LLog | 6 => Some LFtable | 7 => Some LItable
  | 8 => Some (LPipe (snd c)) | 9 => Some (LSleep (Z.to_nat (snd c)))
  | 10 => Some LCons | 11 => Some LUart | 12 => Some LDisk | _ => Some LPr
  end%nat.
#[export] Program Instance lockid_countable : Countable lockid :=
  inj_countable lockid_code lockid_decode _.
Next Obligation. intros []; unfold lockid_decode; simpl; rewrite ?Nat2Z.id; done. Qed.

Record mach := Mach {
  m_hart : hart;
  m_regs : context;  (* the hart's ra, sp and s0-s11, which swtch saves *)
  m_cpus : list cpu;
  m_locks : gmap lockid spinlock
}.
#[export] Instance mach_eta : Eta mach := fun m =>
  Mach (m_hart m) (m_regs m) (m_cpus m) (m_locks m).

Definition on_hart {A} (c : M hart A) : M mach A :=
  zoom m_hart (fun h m => m <| m_hart := h |>) c.

(** ** The current CPU (kernel/proc.c) *)

Definition cpuid : M mach Z := on_hart (x <- r_tp ;; mret (i32 x)).

(** [&cpus[cpuid()]], as an index. *)
Definition mycpu : M mach nat :=
  id <- cpuid ;;
  if (0 <=? id) && (id <? Z.of_nat NCPU) then mret (Z.to_nat id) else mfail Fault.

Definition cpu_get {A} (f : cpu -> A) : M mach A :=
  i <- mycpu ;; cpus <- gets m_cpus ;; c <- mlookup (cpus !! i) ;; mret (f c).
Definition cpu_set (f : cpu -> cpu) : M mach unit :=
  i <- mycpu ;; modify (fun m => m <| m_cpus ::= alter f i |>).

(** ** kernel/spinlock.c *)

Definition initlock (l : lockid) (name : string) : M mach unit :=
  modify (fun m => m <| m_locks ::= insert l (Spinlock 0 name None) |>).

Definition lock_get {A} (l : lockid) (f : spinlock -> A) : M mach A :=
  locks <- gets m_locks ;; x <- mlookup (locks !! l) ;; mret (f x).
Definition lock_set (l : lockid) (f : spinlock -> spinlock) : M mach unit :=
  modify (fun m => m <| m_locks ::= alter f l |>).

Definition push_off : M mach unit :=
  old <- on_hart intr_get ;;
  on_hart intr_off ;;;
  noff <- cpu_get c_noff ;;
  mwhen (noff =? 0) (cpu_set (fun c => c <| c_intena := old |>)) ;;;
  cpu_set (fun c => c <| c_noff ::= fun n => i32 (n + 1) |>).

Definition pop_off : M mach unit :=
  on <- on_hart intr_get ;;
  if z2b on then panic "pop_off - interruptible"
  else
    noff <- cpu_get c_noff ;;
    if noff <? 1 then panic "pop_off"
    else
      cpu_set (fun c => c <| c_noff ::= fun n => i32 (n - 1) |>) ;;;
      noff <- cpu_get c_noff ;;
      intena <- cpu_get c_intena ;;
      mwhen ((noff =? 0) && z2b intena) (on_hart intr_on).

Definition holding (l : lockid) : M mach bool :=
  lk <- lock_get l locked ;;
  if z2b lk then
    c <- lock_get l lcpu ;;
    me <- mycpu ;;
    mret (bool_decide (c = Some me))
  else mret false.

Definition acquire (l : lockid) : M mach unit :=
  push_off ;;;
  h <- holding l ;;
  if h : bool then panic "acquire"
  else
    lk <- lock_get l locked ;;
    if z2b lk then mfail Block  (* while(__sync_lock_test_and_set(&lk->locked, 1) != 0) ; *)
    else
      lock_set l (fun x => x <| locked := 1 |>) ;;;
      me <- mycpu ;;
      lock_set l (fun x => x <| lcpu := Some me |>).

Definition release (l : lockid) : M mach unit :=
  h <- holding l ;;
  if negb h then panic "release"
  else
    lock_set l (fun x => x <| lcpu := None |>) ;;;
    lock_set l (fun x => x <| locked := 0 |>) ;;;
    pop_off.

(** ** What one hart does to the machine *)

Section mach.
Implicit Types (m : mach) (l : lockid).

Definition me m : nat := Z.to_nat (i32 (h_tp (m_hart m))).
Definition sie m : bool := z2b (Z.land (h_sstatus (m_hart m)) SSTATUS_SIE).

(** The hart runs on CPU struct [c], and interrupts are off inside push_off. *)
Record mach_ok m (c : cpu) : Prop := {
  mo_tp : 0 <= i32 (h_tp (m_hart m)) < Z.of_nat NCPU;
  mo_cpu : m_cpus m !! me m = Some c;
  mo_noff : 0 <= c_noff c < 2 ^ 31;
  mo_sie : 0 < c_noff c -> sie m = false;
  mo_ss : 0 <= h_sstatus (m_hart m) < 2 ^ 64
}.

Definition irq_off (h : hart) : hart :=
  h <| h_sstatus ::= fun x => Z.land x (u64 (Z.lnot SSTATUS_SIE)) |>.
Definition irq_on (h : hart) : hart := h <| h_sstatus ::= fun x => Z.lor x SSTATUS_SIE |>.

(** The CPU struct inside one more push_off, and inside one fewer. *)
Definition c_push m (c : cpu) : cpu :=
  Cpu (c_proc c) (c_context c) (c_noff c + 1)
    (if c_noff c =? 0 then b2z (sie m) else c_intena c).
Definition c_pop (c : cpu) : cpu := Cpu (c_proc c) (c_context c) (c_noff c - 1) (c_intena c).

Definition pushed m (c : cpu) : mach :=
  Mach (irq_off (m_hart m)) (m_regs m) (<[me m := c_push m c]> (m_cpus m)) (m_locks m).
Definition popped m (c : cpu) : mach :=
  Mach (if (c_noff c =? 1) && z2b (c_intena c) then irq_on (m_hart m) else m_hart m) (m_regs m)
    (<[me m := c_pop c]> (m_cpus m)) (m_locks m).

(** A matched pair of push_off and pop_off leaves the machine as it was, except that a
    CPU outside push_off remembers the interrupt flag it found. *)
Definition c_settle m (c : cpu) : cpu :=
  if c_noff c =? 0 then c <| c_intena := b2z (sie m) |> else c.
Definition settle m (c : cpu) : mach := m <| m_cpus ::= insert (me m) (c_settle m c) |>.

Lemma list_alter_Some {A} (f : A -> A) i (x : A) : forall (xs : list A),
  xs !! i = Some x -> alter f i xs = <[i := f x]> xs.
Proof.
  induction i as [|i IH]; intros [|y xs] H; simplify_eq/=; [done|]. f_equal. by apply IH.
Qed.

Lemma map_alter_Some `{Countable K} {A} (f : A -> A) (k : K) (x : A) (m : gmap K A) :
  m !! k = Some x -> alter f k m = <[k := f x]> m.
Proof.
  intros E. apply map_eq. intros j. destruct (decide (j = k)) as [->|Hne].
  - by rewrite lookup_alter_eq, E, lookup_insert_eq.
  - by rewrite lookup_alter_ne, lookup_insert_ne by done.
Qed.

Lemma mycpu_run m c : mach_ok m c -> mycpu m = Ok (me m) m.
Proof.
  intros []. unfold mycpu, cpuid, on_hart, zoom, mbind, r_tp, gets, mret. simpl.
  destruct (Z.leb_spec 0 (i32 (h_tp (m_hart m)))); [|lia].
  destruct (Z.ltb_spec (i32 (h_tp (m_hart m))) (Z.of_nat NCPU)); [|lia].
  by destruct m.
Qed.

Lemma cpu_get_run {A} (f : cpu -> A) m c : mach_ok m c -> cpu_get f m = Ok (f c) m.
Proof.
  intros H. unfold cpu_get. rewrite (bind_ok _ _ _ _ _ (mycpu_run m c H)).
  unfold mbind, gets. by rewrite (mo_cpu _ _ H).
Qed.

Lemma cpu_set_run f m c : mach_ok m c ->
  cpu_set f m = Ok tt (m <| m_cpus := <[me m := f c]> (m_cpus m) |>).
Proof.
  intros H. unfold cpu_set. rewrite (bind_ok _ _ _ _ _ (mycpu_run m c H)).
  unfold modify. simpl. by rewrite (list_alter_Some f (me m) c) by apply H.
Qed.

Lemma mach_ok_lt m c : mach_ok m c -> (me m < length (m_cpus m))%nat.
Proof. intros H. apply lookup_lt_Some with c, H. Qed.

Lemma mach_ok_update m c m' c' : mach_ok m c -> h_tp (m_hart m') = h_tp (m_hart m) ->
  m_cpus m' = <[me m := c']> (m_cpus m) -> 0 <= c_noff c' < 2 ^ 31 ->
  (0 < c_noff c' -> sie m' = false) -> 0 <= h_sstatus (m_hart m') < 2 ^ 64 -> mach_ok m' c'.
Proof.
  intros H Htp Hc ???. assert (me m' = me m) as E by (unfold me; by rewrite Htp).
  split; [rewrite Htp; apply H| |done..].
  rewrite E, Hc. apply list_lookup_insert_eq. by eapply mach_ok_lt.
Qed.

Lemma SIE_off_spec x : Z.land (Z.land x (u64 (Z.lnot SSTATUS_SIE))) SSTATUS_SIE = 0.
Proof. rewrite <- Z.land_assoc. by rewrite Z.land_0_r. Qed.

Lemma sie_off m : sie (m <| m_hart ::= irq_off |>) = false.
Proof. unfold sie. simpl. by rewrite SIE_off_spec. Qed.

Lemma irq_off_range h : 0 <= h_sstatus h < 2 ^ 64 -> 0 <= h_sstatus (irq_off h) < 2 ^ 64.
Proof.
  intros Hx. simpl. rewrite <- (Z.mod_small (h_sstatus h) (2 ^ 64)) by done.
  rewrite <- Z.land_ones by lia. rewrite <- Z.land_assoc, (Z.land_comm (Z.ones 64)), Z.land_assoc.
  rewrite Z.land_ones by lia. by apply Z.mod_pos_bound.
Qed.

Lemma testbit_SIE x : z2b (Z.land x SSTATUS_SIE) = Z.testbit x 1.
Proof.
  unfold z2b. destruct (Z.testbit x 1) eqn:E.
  - apply negb_true_iff, Z.eqb_neq. intros E0.
    apply (f_equal (fun z => Z.testbit z 1)) in E0. rewrite Z.land_spec, E in E0. discriminate E0.
  - apply negb_false_iff, Z.eqb_eq. apply Z.bits_inj'. intros n Hn. rewrite Z.land_spec, Z.bits_0.
    destruct (decide (n = 1)) as [->|Hne]; [by rewrite E|].
    change SSTATUS_SIE with (2 ^ 1). rewrite Z.pow2_bits_false by done. apply andb_false_r.
Qed.

Lemma mask_bit n : 0 <= n < 64 -> Z.testbit (u64 (Z.lnot SSTATUS_SIE)) n = negb (n =? 1).
Proof.
  intros Hn. unfold u64. rewrite <- Z.land_ones by lia. rewrite Z.land_spec, Z.lnot_spec by lia.
  rewrite Z.ones_spec_low by lia. rewrite andb_true_r. f_equal.
  change SSTATUS_SIE with (2 ^ 1). rewrite Z.pow2_bits_eqb by lia. apply Z.eqb_sym.
Qed.

(** Turning interrupts off and back to what they were restores the register. *)
Lemma irq_off_on h : 0 <= h_sstatus h < 2 ^ 64 ->
  (if z2b (Z.land (h_sstatus h) SSTATUS_SIE) then irq_on (irq_off h) else irq_off h) = h.
Proof.
  intros Hx. assert (forall x, 0 <= x < 2 ^ 64 ->
    (if z2b (Z.land x SSTATUS_SIE) then Z.lor (Z.land x (u64 (Z.lnot SSTATUS_SIE))) SSTATUS_SIE
     else Z.land x (u64 (Z.lnot SSTATUS_SIE))) = x) as Hbits.
  { clear. intros x Hx. rewrite testbit_SIE. apply Z.bits_inj'. intros n Hn.
    assert (Hhi : 64 <= n -> Z.testbit x n = false).
    { intros. apply Z.bits_above_log2; [lia|].
      destruct (decide (x = 0)) as [->|]; [simpl; lia|].
      apply Z.log2_lt_pow2; [lia|]. apply Z.lt_le_trans with (2 ^ 64); [lia|].
      apply Z.pow_le_mono_r; lia. }
    assert (H2 : Z.testbit SSTATUS_SIE n = (n =? 1)).
    { change SSTATUS_SIE with (2 ^ 1). rewrite Z.pow2_bits_eqb by lia. apply Z.eqb_sym. }
    destruct (decide (64 <= n)) as [Hge|Hlt].
    - rewrite (Hhi Hge). destruct (Z.testbit x 1).
      + rewrite Z.lor_spec, Z.land_spec, H2, (Hhi Hge). destruct (Z.eqb_spec n 1); [lia|done].
      + rewrite Z.land_spec. by rewrite (Hhi Hge).
    - destruct (Z.testbit x 1) eqn:E.
      + rewrite Z.lor_spec, Z.land_spec, H2, mask_bit by lia.
        destruct (Z.eqb_spec n 1) as [->|]; cbn [negb]; [by rewrite E|].
        by rewrite andb_true_r, orb_false_r.
      + rewrite Z.land_spec, mask_bit by lia. destruct (Z.eqb_spec n 1) as [->|]; cbn [negb];
          [by rewrite E|by rewrite andb_true_r]. }
  specialize (Hbits _ Hx). destruct h. unfold irq_on, irq_off. simpl in *.
  destruct (z2b _); simpl in *; by rewrite Hbits.
Qed.

Lemma on_hart_get m : on_hart intr_get m = Ok (b2z (sie m)) m.
Proof. by destruct m. Qed.

Lemma mach_eq m m' : m_hart m = m_hart m' -> m_regs m = m_regs m' -> m_cpus m = m_cpus m' -> m_locks m = m_locks m' ->
  m = m'.
Proof. destruct m, m'; simpl; intros; by subst. Qed.

Lemma mach_ok_off m c : mach_ok m c -> mach_ok (m <| m_hart ::= irq_off |>) c.
Proof.
  intros H. apply (mach_ok_update m c); [done|done| |apply H|intros; apply sie_off|].
  - symmetry. apply list_insert_id, H.
  - apply irq_off_range, H.
Qed.

Lemma push_off_run m c : mach_ok m c -> c_noff c + 1 < 2 ^ 31 -> push_off m = Ok tt (pushed m c).
Proof.
  intros H Hmax. unfold push_off. rewrite (bind_ok _ _ _ _ _ (on_hart_get m)).
  set (m1 := m <| m_hart ::= irq_off |>).
  assert (H1 : mach_ok m1 c) by (by apply mach_ok_off).
  rewrite (bind_ok _ _ _ tt m1) by (by destruct m).
  rewrite (bind_ok _ _ _ _ _ (cpu_get_run c_noff m1 c H1)).
  assert (Hn : i32 (c_noff c + 1) = c_noff c + 1) by (apply i32_small; destruct H; lia).
  unfold pushed, c_push. destruct (c_noff c =? 0) eqn:E; cbn [mwhen].
  - rewrite (bind_ok _ _ _ _ _ (cpu_set_run _ m1 c H1)).
    erewrite (cpu_set_run _ _ (c <| c_intena := b2z (sie m) |>)).
    2: { apply (mach_ok_update m1 c); [done|done|done|apply H1|apply H1|apply H1]. }
    f_equal. apply mach_eq; [done|done| |done]. simpl. rewrite list_insert_insert_eq.
    change (me _) with (me m). by rewrite Hn.
  - unfold mbind, mret. rewrite (cpu_set_run _ m1 c H1). f_equal.
    apply mach_eq; [done|done| |done]. simpl. change (me m1) with (me m). rewrite Hn.
    by destruct c.
Qed.

Lemma pop_off_run m c : mach_ok m c -> 0 < c_noff c -> pop_off m = Ok tt (popped m c).
Proof.
  intros H Hpos. unfold pop_off. rewrite (bind_ok _ _ _ _ _ (on_hart_get m)).
  rewrite (mo_sie _ _ H Hpos). change (z2b (b2z false)) with false. cbn iota.
  rewrite (bind_ok _ _ _ _ _ (cpu_get_run c_noff m c H)).
  destruct (Z.ltb_spec (c_noff c) 1); [lia|].
  rewrite (bind_ok _ _ _ _ _ (cpu_set_run _ m c H)).
  assert (Hn : i32 (c_noff c - 1) = c_noff c - 1) by (apply i32_small; destruct H; lia).
  set (c1 := c <| c_noff ::= _ |>). set (m1 := m <| m_cpus := _ |>).
  assert (Hc1 : c1 = c_pop c) by (unfold c1, c_pop; simpl; by rewrite Hn).
  assert (H1 : mach_ok m1 (c_pop c)).
  { apply (mach_ok_update m c); [done|done| | | |apply H].
    - by rewrite <- Hc1.
    - simpl. destruct H; lia.
    - intros _. apply H, Hpos. }
  rewrite (bind_ok _ _ _ _ _ (cpu_get_run c_noff m1 _ H1)).
  rewrite (bind_ok _ _ _ _ _ (cpu_get_run c_intena m1 _ H1)).
  unfold popped. simpl c_noff. simpl c_intena.
  replace (c_noff c - 1 =? 0) with (c_noff c =? 1).
  2: { destruct (Z.eqb_spec (c_noff c) 1), (Z.eqb_spec (c_noff c - 1) 0); lia. }
  destruct (_ && _); cbn [mwhen]; unfold m1; rewrite Hc1; by destruct m.
Qed.

(** Lock [l] is in the table, free, or held by CPU [i]. *)
Definition lk_free m l : Prop := exists nm, m_locks m !! l = Some (Spinlock 0 nm None).
Definition lk_held m l (i : nat) : Prop := exists nm, m_locks m !! l = Some (Spinlock 1 nm (Some i)).

Definition set_lock m l (f : spinlock -> spinlock) : mach := m <| m_locks ::= alter f l |>.
Definition take_lk (i : nat) (x : spinlock) : spinlock := Spinlock 1 (lname x) (Some i).
Definition drop_lk (x : spinlock) : spinlock := Spinlock 0 (lname x) None.

(** The machine after acquire and after release of [l]. *)
Definition acq m (c : cpu) l : mach := set_lock (pushed m c) l (take_lk (me m)).
Definition rel m (c : cpu) l : mach := set_lock (popped m c) l drop_lk.

Lemma lock_get_run {A} (f : spinlock -> A) m l x : m_locks m !! l = Some x ->
  lock_get l f m = Ok (f x) m.
Proof. intros E. unfold lock_get, mbind, gets. by rewrite E. Qed.

Lemma holding_free m l : lk_free m l -> holding l m = Ok false m.
Proof.
  intros [nm E]. unfold holding. by rewrite (bind_ok _ _ _ _ _ (lock_get_run _ _ _ _ E)).
Qed.

Lemma holding_held m c l i : mach_ok m c -> lk_held m l i ->
  holding l m = Ok (bool_decide (i = me m)) m.
Proof.
  intros H [nm E]. unfold holding. rewrite (bind_ok _ _ _ _ _ (lock_get_run _ _ _ _ E)).
  change (z2b (locked _)) with true. cbn iota.
  rewrite (bind_ok _ _ _ _ _ (lock_get_run _ _ _ _ E)).
  rewrite (bind_ok _ _ _ _ _ (mycpu_run m c H)). unfold mret. f_equal.
  apply bool_decide_ext. simpl. split; [congruence|intros ->; done].
Qed.

Lemma pushed_ok m c : mach_ok m c -> c_noff c + 1 < 2 ^ 31 ->
  mach_ok (pushed m c) (c_push m c) /\ me (pushed m c) = me m.
Proof.
  intros H Hmax. split; [|done]. apply (mach_ok_update m c); [done|done|done| | |].
  - simpl. destruct H; lia.
  - intros _. apply (sie_off m).
  - apply irq_off_range, H.
Qed.

Lemma acquire_run m c l : mach_ok m c -> c_noff c + 1 < 2 ^ 31 -> lk_free m l -> acquire l m = Ok tt (acq m c l).
Proof.
  intros H Hmax [nm E]. unfold acquire. rewrite (bind_ok _ _ _ _ _ (push_off_run m c H Hmax)).
  destruct (pushed_ok m c H Hmax) as [H1 Hme].
  rewrite (bind_ok _ _ _ _ _ (holding_free (pushed m c) l (ex_intro _ nm E))).
  rewrite (bind_ok _ _ _ _ _ (lock_get_run locked (pushed m c) l _ E)).
  change (z2b (locked _)) with false. cbn iota.
  rewrite (bind_ok _ _ _ tt (set_lock (pushed m c) l (fun x => x <| locked := 1 |>))) by done.
  assert (H2 : mach_ok (set_lock (pushed m c) l (fun x => x <| locked := 1 |>)) (c_push m c)).
  { by split; apply H1. }
  rewrite (bind_ok _ _ _ _ _ (mycpu_run _ _ H2)). unfold lock_set, modify, acq, set_lock.
  f_equal. apply mach_eq; [done|done|done|]. simpl.
  apply map_eq. intros l'. destruct (decide (l' = l)) as [->|Hne].
  - rewrite !lookup_alter_eq, E. done.
  - by rewrite !lookup_alter_ne by done.
Qed.

(** acquire by the CPU that holds the lock panics; of a lock another CPU holds, it spins. *)
Lemma acquire_held m c l i : mach_ok m c -> c_noff c + 1 < 2 ^ 31 -> lk_held m l i ->
  acquire l m = Err (if decide (i = me m) then Panic "acquire" else Block).
Proof.
  intros H Hmax [nm E]. unfold acquire. rewrite (bind_ok _ _ _ _ _ (push_off_run m c H Hmax)).
  destruct (pushed_ok m c H Hmax) as [H1 Hme].
  rewrite (bind_ok _ _ _ _ _ (holding_held (pushed m c) _ l i H1 (ex_intro _ nm E))), Hme.
  case_decide as Hi.
  - by rewrite bool_decide_true.
  - rewrite bool_decide_false by done.
    by rewrite (bind_ok _ _ _ _ _ (lock_get_run locked (pushed m c) l _ E)).
Qed.

Lemma release_run m c l : mach_ok m c -> lk_held m l (me m) -> 0 < c_noff c ->
  release l m = Ok tt (rel m c l).
Proof.
  intros H [nm E] Hpos. unfold release.
  rewrite (bind_ok _ _ _ _ _ (holding_held m c l (me m) H (ex_intro _ nm E))).
  rewrite bool_decide_true by done. cbn [negb].
  set (m1 := set_lock m l drop_lk).
  assert ((lock_set l (fun x => x <| lcpu := None |>) ;;; lock_set l (fun x => x <| locked := 0 |>) ;;;
           pop_off) m = pop_off m1) as ->.
  { unfold mbind, lock_set, modify. f_equal. apply mach_eq; [done|done|done|]. simpl.
    apply map_eq. intros l'. destruct (decide (l' = l)) as [->|Hne].
    - rewrite !lookup_alter_eq, E. done.
    - by rewrite !lookup_alter_ne by done. }
  rewrite (pop_off_run m1 c); [done| |done]. by split; apply H.
Qed.

(** release without holding the lock panics. *)
Lemma release_not_held m c l : mach_ok m c ->
  lk_free m l \/ (exists i, lk_held m l i /\ i <> me m) -> release l m = Err (Panic "release").
Proof.
  intros H Hl. unfold release. destruct Hl as [Hf|(i & Hh & Hi)].
  - by rewrite (bind_ok _ _ _ _ _ (holding_free m l Hf)).
  - rewrite (bind_ok _ _ _ _ _ (holding_held m c l i H Hh)). by rewrite bool_decide_false.
Qed.

Lemma c_pop_push m c : c_pop (c_push m c) = c_settle m c.
Proof.
  unfold c_pop, c_push, c_settle. destruct c as [p x n e]. simpl.
  destruct (n =? 0); simpl; f_equal; lia.
Qed.

Lemma acq_ok m c l : mach_ok m c -> c_noff c + 1 < 2 ^ 31 ->
  mach_ok (acq m c l) (c_push m c) /\ me (acq m c l) = me m.
Proof. intros H Hmax. destruct (pushed_ok m c H Hmax) as [[] Hme]. done. Qed.

Lemma acq_held m c l : lk_free m l -> lk_held (acq m c l) l (me m).
Proof. intros [nm E]. exists nm. simpl. by rewrite lookup_alter_eq, E. Qed.

Lemma acq_other m c l l' : l' <> l -> m_locks (acq m c l) !! l' = m_locks m !! l'.
Proof. intros Hne. simpl. by rewrite lookup_alter_ne. Qed.

Lemma settle_ok m c : mach_ok m c -> mach_ok (settle m c) (c_settle m c) /\ me (settle m c) = me m.
Proof.
  intros H. split; [|done]. apply (mach_ok_update m c); [done|done|done| | |apply H].
  - unfold c_settle. destruct (_ =? 0); apply H.
  - unfold c_settle. destruct (_ =? 0); apply H.
Qed.

Lemma settle_held m c : mach_ok m c -> 0 < c_noff c -> settle m c = m.
Proof.
  intros H Hpos. unfold settle, c_settle. destruct (Z.eqb_spec (c_noff c) 0); [lia|].
  apply mach_eq; [done|done| |done]. simpl. apply list_insert_id, H.
Qed.

Lemma settle_idem m c : settle (settle m c) (c_settle m c) = settle m c.
Proof.
  apply mach_eq; [done|done| |done]. simpl. change (me (settle m c)) with (me m).
  rewrite list_insert_insert_eq. f_equal. unfold c_settle at 1 3.
  change (sie (settle m c)) with (sie m). unfold c_settle. destruct (c_noff c =? 0) eqn:E; simpl;
    by rewrite E.
Qed.

(** A critical section that changes nothing: the lock is as it was, and so is the
    interrupt enable bit. *)
Lemma rel_acq m c l : mach_ok m c -> lk_free m l ->
  rel (acq m c l) (c_push m c) l = settle m c.
Proof.
  intros H [nm E]. apply mach_eq; [|done| |].
  - simpl. pose proof (irq_off_on (m_hart m) (mo_ss _ _ H)) as Hon. fold (sie m) in Hon.
    destruct (Z.eqb_spec (c_noff c) 0) as [E0|E0].
    + rewrite E0. simpl. destruct (sie m); simpl; exact Hon.
    + destruct (Z.eqb_spec (c_noff c + 1) 1); [lia|]. cbn [andb].
      rewrite (mo_sie _ _ H) in Hon by (destruct H; lia). exact Hon.
  - simpl. change (me _) with (me m). by rewrite list_insert_insert_eq, c_pop_push.
  - simpl. apply map_eq. intros l'. destruct (decide (l' = l)) as [->|Hne].
    + by rewrite !lookup_alter_eq, E.
    + by rewrite !lookup_alter_ne by done.
Qed.

Lemma release_acq m c l : mach_ok m c -> c_noff c + 1 < 2 ^ 31 -> lk_free m l ->
  release l (acq m c l) = Ok tt (settle m c).
Proof.
  intros H Hmax Hf. destruct (acq_ok m c l H Hmax) as [H1 Hme].
  rewrite (release_run _ (c_push m c)); [by rewrite rel_acq|done| |simpl; destruct H; lia].
  rewrite Hme. by apply acq_held.
Qed.

(** push_off followed by pop_off. *)
Lemma pop_pushed m c : mach_ok m c -> c_noff c + 1 < 2 ^ 31 -> pop_off (pushed m c) = Ok tt (settle m c).
Proof.
  intros H Hmax. destruct (pushed_ok m c H Hmax) as [H1 Hme].
  rewrite (pop_off_run _ _ H1) by (simpl; destruct H; lia). f_equal. apply mach_eq; [|done| |done].
  - simpl. pose proof (irq_off_on (m_hart m) (mo_ss _ _ H)) as Hon. fold (sie m) in Hon.
    destruct (Z.eqb_spec (c_noff c) 0) as [E0|E0].
    + rewrite E0. simpl. destruct (sie m); simpl; exact Hon.
    + destruct (Z.eqb_spec (c_noff c + 1) 1); [lia|]. cbn [andb].
      rewrite (mo_sie _ _ H) in Hon by (destruct H; lia). exact Hon.
  - simpl. change (me _) with (me m). by rewrite list_insert_insert_eq, c_pop_push.
Qed.

End mach.

(** ** Many CPUs *)

(** acquire and release cut at every access to the lock that another CPU can observe, for
    any number of CPUs. *)
Module Smp.

Inductive pc :=
  | Idle       (* does not use the lock *)
  | Acq        (* in acquire, before holding() reads lk->locked *)
  | AcqCpu     (* holding() is about to read lk->cpu *)
  | Spin       (* before __sync_lock_test_and_set *)
  | Got        (* the swap returned 0; before lk->cpu = mycpu() *)
  | Crit       (* between acquire and release *)
  | Rel        (* in release, before holding() reads lk->locked *)
  | RelCpu     (* holding() is about to read lk->cpu *)
  | RelClear   (* before lk->cpu = 0 *)
  | RelSwap    (* before __sync_lock_release *)
  | Panicked.

Record st := St { s_locked : Z; s_cpu : option nat; s_pc : nat -> pc }.

Definition goto (s : st) (i : nat) (p : pc) (lk : Z) (c : option nat) : st :=
  St lk c (fun j => if decide (j = i) then p else s_pc s j).

Inductive step : st -> st -> Prop :=
  | step_enter s i : s_pc s i = Idle -> step s (goto s i Acq (s_locked s) (s_cpu s))
  | step_acq s i : s_pc s i = Acq ->
      step s (goto s i (if z2b (s_locked s) then AcqCpu else Spin) (s_locked s) (s_cpu s))
  | step_acq_cpu s i : s_pc s i = AcqCpu ->
      step s (goto s i (if decide (s_cpu s = Some i) then Panicked else Spin) (s_locked s) (s_cpu s))
  | step_swap s i : s_pc s i = Spin ->
      step s (goto s i (if z2b (s_locked s) then Spin else Got) 1 (s_cpu s))
  | step_got s i : s_pc s i = Got -> step s (goto s i Crit (s_locked s) (Some i))
  | step_leave s i : s_pc s i = Crit -> step s (goto s i Rel (s_locked s) (s_cpu s))
  | step_rel s i : s_pc s i = Rel ->
      step s (goto s i (if z2b (s_locked s) then RelCpu else Panicked) (s_locked s) (s_cpu s))
  | step_rel_cpu s i : s_pc s i = RelCpu ->
      step s (goto s i (if decide (s_cpu s = Some i) then RelClear else Panicked) (s_locked s) (s_cpu s))
  | step_clear s i : s_pc s i = RelClear -> step s (goto s i RelSwap (s_locked s) None)
  | step_unlock s i : s_pc s i = RelSwap -> step s (goto s i Idle 0 (s_cpu s)).

(** A lock after initlock, with every CPU outside. *)
Definition init : st := St 0 None (fun _ => Idle).

Definition holds (p : pc) : bool :=
  match p with Got | Crit | Rel | RelCpu | RelClear | RelSwap => true | _ => false end.
Definition owns (p : pc) : bool :=
  match p with Crit | Rel | RelCpu | RelClear => true | _ => false end.

Record inv (s : st) : Prop := {
  inv_excl : forall i j, holds (s_pc s i) = true -> holds (s_pc s j) = true -> i = j;
  inv_locked : s_locked s = 1 \/ s_locked s = 0 /\ forall i, holds (s_pc s i) = false;
  inv_cpu : forall i, s_cpu s = Some i <-> owns (s_pc s i) = true;
  inv_panic : forall i, s_pc s i <> Panicked
}.

Lemma owns_holds p : owns p = true -> holds p = true.
Proof. by destruct p. Qed.

(** Moving CPU [i] to [p] keeps the invariant. *)
Lemma goto_inv s i p lk c : inv s ->
  (holds p = true -> holds (s_pc s i) = true \/ forall j, holds (s_pc s j) = false) ->
  (lk = 1 \/ lk = 0 /\ holds p = false /\ forall j, j <> i -> holds (s_pc s j) = false) ->
  (c = Some i <-> owns p = true) ->
  (forall j, j <> i -> c = Some j <-> s_cpu s = Some j) ->
  p <> Panicked -> inv (goto s i p lk c).
Proof.
  intros [Hex Hlk Hcpu Hpan] Hh Hl Hi Hj Hp. split; simpl.
  - assert (Hone : forall j, j <> i -> holds p = true -> holds (s_pc s j) = false).
    { intros j Hne Hhp. destruct (Hh Hhp) as [Hhi|Hno]; [|done].
      destruct (holds (s_pc s j)) eqn:E; [|done]. destruct Hne. by apply Hex. }
    intros a b. destruct (decide (a = i)) as [->|Ha], (decide (b = i)) as [->|Hb]; try done.
    + intros H1 H2. rewrite Hone in H2; done.
    + intros H1 H2. rewrite Hone in H1; done.
    + apply Hex.
  - destruct Hl as [->|(-> & Hpf & Hno)]; [by left|right]. split; [done|].
    intros j. case_decide; auto.
  - intros j. destruct (decide (j = i)) as [->|Hne]; [done|]. rewrite Hj by done. apply Hcpu.
  - intros j. case_decide; auto.
Qed.

(** While CPU [i] holds the lock, the flag is set and nobody else holds it. *)
Lemma held_facts s i : inv s -> holds (s_pc s i) = true ->
  s_locked s = 1 /\ forall j, j <> i -> holds (s_pc s j) = false /\ s_cpu s <> Some j.
Proof.
  intros [Hex Hlk Hcpu Hpan] Hi. split.
  - destruct Hlk as [?|[_ Hno]]; [done|]. rewrite Hno in Hi. done.
  - intros j Hne. assert (Hj : holds (s_pc s j) = false).
    { destruct (holds (s_pc s j)) eqn:E; [|done]. destruct Hne. by apply Hex. }
    split; [done|]. intros Hc%Hcpu%owns_holds. congruence.
Qed.

Lemma step_inv s s' : inv s -> step s s' -> inv s'.
Proof.
  intros Hinv Hstep.
  destruct Hstep as [s i E|s i E|s i E|s i E|s i E|s i E|s i E|s i E|s i E|s i E];
    pose proof (inv_cpu s Hinv i) as Hci; rewrite E in Hci; simpl in Hci;
    pose proof (inv_locked s Hinv) as Hlk; unfold z2b.
  - apply goto_inv; try done. destruct Hlk as [?|[? Hno]]; [by left|right]. split_and!; done.
  - destruct Hlk as [Hl|[Hl Hno]]; rewrite Hl; apply goto_inv; try done; [by left|].
    right. split_and!; done.
  - rewrite decide_False by naive_solver. apply goto_inv; try done.
    destruct Hlk as [?|[? Hno]]; [by left|right]. split_and!; done.
  - destruct Hlk as [Hl|[Hl Hno]]; rewrite Hl; simpl; apply goto_inv; try done; auto.
  - destruct (held_facts s i Hinv) as [Hl Hj]; [by rewrite E|].
    apply goto_inv; try done; [rewrite E; by left|by left|]. intros j Hne.
    destruct (Hj j Hne). split; [congruence|done].
  - destruct (held_facts s i Hinv) as [Hl Hj]; [by rewrite E|].
    apply goto_inv; try done; [rewrite E; by left|by left].
  - destruct (held_facts s i Hinv) as [Hl Hj]; [by rewrite E|]. rewrite Hl. simpl.
    apply goto_inv; try done; [rewrite E; by left|by left].
  - destruct (held_facts s i Hinv) as [Hl Hj]; [by rewrite E|].
    rewrite decide_True by (by apply Hci).
    apply goto_inv; try done; [rewrite E; by left|by left].
  - destruct (held_facts s i Hinv) as [Hl Hj]; [by rewrite E|].
    apply goto_inv; try done; [rewrite E; by left|by left|].
    intros j Hne. destruct (Hj j Hne). split; [done|naive_solver].
  - destruct (held_facts s i Hinv) as [Hl Hj]; [by rewrite E|].
    apply goto_inv; try done. right. split_and!; [done..|]. intros j Hne. by apply Hj.
Qed.

Lemma reachable_inv s0 s : inv s0 -> rtc step s0 s -> inv s.
Proof. intros H0 Hr. induction Hr as [|s s1 s2 Hs _ IH]; [done|]. by apply IH, (step_inv s). Qed.

Lemma init_inv : inv init.
Proof. split; simpl; [done|by right|done|done]. Qed.



End Smp.

(** ** Properties of the sequential code *)

(** The machine of the examples: hart 3 with interrupts on and one free lock. *)
Definition lk_hart : hart := Hart 3 0 0 2 0 0 0 0 0 0 0 0 0 0 0 0 0 0 0 0 0 3 0.
Definition lk_mach : mach :=
  Mach lk_hart context0 (replicate NCPU cpu0) {[LWait := Spinlock 0 "wait_lock" None]}.

Lemma lk_mach_ok : mach_ok lk_mach cpu0.
Proof. by split; vm_compute. Qed.

(** acquire and release nest: a CPU that takes a free lock holds it with interrupts
    off, a second acquire of it panics, and release gives back the lock and exactly the
    interrupt state acquire found, however deeply the CPU already was inside push_off. *)
Theorem acquire_release_nest m c l : mach_ok m c -> c_noff c + 2 < 2 ^ 31 -> lk_free m l ->
  exists m1, acquire l m = Ok tt m1 /\ holding l m1 = Ok true m1 /\ sie m1 = false /\
    acquire l m1 = Err (Panic "acquire") /\
    release l m1 = Ok tt (settle m c) /\
    m_hart (settle m c) = m_hart m /\ m_locks (settle m c) = m_locks m.
Proof.
  intros H Hmax Hf. exists (acq m c l).
  destruct (acq_ok m c l H ltac:(lia)) as [H1 Hme].
  split_and!.
  - apply acquire_run; [done|lia|done].
  - rewrite (holding_held _ _ l (me m) H1 (acq_held m c l Hf)), Hme. by rewrite bool_decide_true.
  - apply (mo_sie _ _ H1). simpl. destruct H; lia.
  - rewrite (acquire_held _ _ l (me m) H1); [by rewrite Hme, decide_True|simpl; lia|by apply acq_held].
  - apply release_acq; [done|lia|done].
  - done.
  - done.
Qed.

Lemma acquire_release_nest_witness : exists m1, acquire LWait lk_mach = Ok tt m1 /\
  holding LWait m1 = Ok true m1 /\ sie m1 = false /\
  acquire LWait m1 = Err (Panic "acquire") /\
  release LWait m1 = Ok tt (settle lk_mach cpu0) /\
  m_hart (settle lk_mach cpu0) = m_hart lk_mach /\ m_locks (settle lk_mach cpu0) = m_locks lk_mach.
Proof.
  apply acquire_release_nest; [exact lk_mach_ok|by vm_compute|by exists "wait_lock"].
Defined.
