(* ===== verification/Proc.v ===== *)
(** * Processes: kernel/proc.h and kernel/proc.c

    The process table, allocation and release of processes, fork, exit, wait, sleep and
    wakeup, kill, and the accounting the repository adds (priorities, run and sleep times,
    waitx).  A [struct proc *] is an index into the table; a null pointer is [None].

    A function that gives up the CPU inside a call of sched is cut there: [f_enter] is the
    part up to the swtch to the scheduler, [f_exit] the part after the scheduler switched
    back.  The locals that live across the cut are the result of [f_enter].

    Opening and closing files belongs to other components; what this file calls of them is
    the interface [FileOps]. *)

From S2P Require Import Prelude Riscv CString Kalloc Vm Spinlock.

Inductive procstate := UNUSED | USED | SLEEPING | RUNNABLE | RUNNING | ZOMBIE.
#[export] Instance procstate_eq_dec : EqDecision procstate.
Proof. solve_decision. Defined.

(** The addresses processes sleep on. *)
Inductive chan :=
  | ChProc (p : nat)      (* a struct proc: wait *)
  | ChTicks               (* &ticks: sys_sleep *)
  | ChLog                 (* &log *)
  | ChPipeR (pi : Z)      (* &pi->nread *)
  | ChPipeW (pi : Z)      (* &pi->nwrite *)
  | ChSleep (i : nat)     (* a sleeplock *)
  | ChCons                (* &cons.r *)
  | ChUart                (* &uart_tx_r *)
  | ChDisk                (* &disk.free[0] *)
  | ChBuf (i : nat).      (* a struct buf *)
#[export] Instance chan_eq_dec : EqDecision chan.
Proof. solve_decision. Defined.

Record proc := Proc {
  p_creationTime : Z;
  p_state : procstate;
  p_chan : option chan;
  p_killed : Z;
  p_xstate : Z;
  p_pid : Z;
  p_parent : option nat;
  p_kstack : Z;
  p_sz : Z;
  p_pagetable : Z;
  p_trapframe : Z;
  p_context : context;
  p_ofile : list (option nat);
  p_cwd : option nat;
  p_name : list Z;
  p_mask : Z;
  p_stat_pr : Z;
  p_sleep_time : Z;
  p_st_time : Z;
  p_run_time : Z;
  p_numOfScheduled : Z;
  p_tickets : Z;
  p_num_of_ticks : list Z;
  p_curr_queue : Z;
  p_wait_time : Z;
  p_end_time : Z;
  p_tot_run_time : Z;
  p_handler : Z;
  p_tickss : Z;
  p_now_ticks : Z;
  p_trapframe_copy : Z;
  p_is_sigalarm : Z
}.
#[export] Instance proc_eta : Eta proc := fun p =>
  Proc (p_creationTime p) (p_state p) (p_chan p) (p_killed p) (p_xstate p) (p_pid p)
    (p_parent p) (p_kstack p) (p_sz p) (p_pagetable p) (p_trapframe p) (p_context p)
    (p_ofile p) (p_cwd p) (p_name p) (p_mask p) (p_stat_pr p) (p_sleep_time p) (p_st_time p)
    (p_run_time p) (p_numOfScheduled p) (p_tickets p) (p_num_of_ticks p) (p_curr_queue p)
    (p_wait_time p) (p_end_time p) (p_tot_run_time p) (p_handler p) (p_tickss p)
    (p_now_ticks p) (p_trapframe_copy p) (p_is_sigalarm p).

(** A zeroed entry of the process table. *)
Definition proc0 : proc :=
  Proc 0 UNUSED None 0 0 0 None 0 0 0 0 context0 (replicate NOFILE None) None (replicate 16 0)
    0 0 0 0 0 0 0 (replicate 5 0) 0 0 0 0 0 0 0 0 0.

(** Offsets in struct trapframe. *)
Definition TF_kernel_satp : Z := 0.
Definition TF_kernel_sp : Z := 8.
Definition TF_kernel_trap : Z := 16.
Definition TF_epc : Z := 24.
Definition TF_kernel_hartid : Z := 32.
Definition TF_sp : Z := 48.
Definition TF_a0 : Z := 112.
Definition TF_a1 : Z := 120.
Definition TF_a7 : Z := 168.
Definition sizeof_trapframe : Z := 288.

(** One of the five queues of the MLFQ scheduler: the array and the index of its last
    element. *)
Record mlfq := Mlfq { q_slot : list (option nat); q_ptr : Z }.
#[export] Instance mlfq_eta : Eta mlfq := fun q => Mlfq (q_slot q) (q_ptr q).
Definition mlfq0 : mlfq := Mlfq (replicate NPROC None) (-1).

(** The kernel as the process layer sees it; [F] is the state of the file layer. *)
Record kstate (F : Type) := KState {
  k_mach : mach;
  k_phys : phys;
  k_procs : list proc;
  k_initproc : option nat;
  k_nextpid : Z;
  k_ticks : Z;
  k_seed : Z;
  k_queues : list mlfq;
  k_files : F
}.
Arguments KState {F} _ _ _ _ _ _ _ _ _.
Arguments k_mach {F} _.
Arguments k_phys {F} _.
Arguments k_procs {F} _.
Arguments k_initproc {F} _.
Arguments k_nextpid {F} _.
Arguments k_ticks {F} _.
Arguments k_seed {F} _.
Arguments k_queues {F} _.
Arguments k_files {F} _.
#[export] Instance kstate_eta F : Eta (kstate F) := fun s =>
  KState (k_mach s) (k_phys s) (k_procs s) (k_initproc s) (k_nextpid s) (k_ticks s) (k_seed s)
    (k_queues s) (k_files s).

(** What the process layer calls of the file layer (kernel/file.c, kernel/fs.c,
    kernel/log.c). *)
Class FileOps (F : Type) := {
  filedup : nat -> M (kstate F) nat;
  fileclose : nat -> M (kstate F) unit;
  idup : nat -> M (kstate F) nat;
  iput : nat -> M (kstate F) unit;
  begin_op : M (kstate F) unit;
  end_op : M (kstate F) unit;
  namei_root : M (kstate F) (option nat)  (* namei("/") *)
}.

(** Outcome of a function that may give up the CPU: [Done] with its result, or [Parked]
    in the scheduler with the locals it needs to go on. *)
Inductive outcome (A B : Type) := Done (a : A) | Parked (b : B).
Arguments Done {A B} a.
Arguments Parked {A B} b.

(** safestrcpy on character arrays: [dst] after copying [src] into its first [n] bytes.
    When the NUL of [src] is copied, [*s = 0] clears the byte after it as well. *)
Fixpoint safestrcpy_arr (dst src : list Z) (n : nat) : list Z :=
  match n, dst with
  | S n', d :: dst' =>
      match n', src with
      | S _, c :: src' =>
          if c =? 0 then 0 :: match dst' with _ :: dst'' => 0 :: dst'' | [] => [] end
          else c :: safestrcpy_arr dst' src' n'
      | _, _ => 0 :: dst'
      end
  | _, _ => dst
  end.

(** The bytes of a 32-bit integer. *)
Definition int_bytes (x : Z) : list Z :=
  [u8 x; u8 (Z.shiftr (u32 x) 8); u8 (Z.shiftr (u32 x) 16); u8 (Z.shiftr (u32 x) 24)].

(** A [for] loop that can stop with a value. *)
Fixpoint mfind_from {S A} (i n : nat) (body : nat -> M S (option A)) : M S (option A) :=
  match n with
  | O => mret None
  | Datatypes.S n' =>
      r <- body i ;;
      match r with Some a => mret (Some a) | None => mfind_from (Datatypes.S i) n' body end
  end.
Definition mfind {S A} (n : nat) (body : nat -> M S (option A)) : M S (option A) :=
  mfind_from 0 n body.

Section proc.
Context (kend trampoline forkret_addr : Z).
Context {F : Type} `{!FileOps F}.
Notation kernel := (kstate F).
Implicit Types (p : nat).

Definition on_mach {A} (c : M mach A) : M kernel A :=
  zoom k_mach (fun m s => s <| k_mach := m |>) c.
Definition on_phys {A} (c : M phys A) : M kernel A :=
  zoom k_phys (fun m s => s <| k_phys := m |>) c.

Definition acquire (l : lockid) : M kernel unit := on_mach (Spinlock.acquire l).
Definition release (l : lockid) : M kernel unit := on_mach (Spinlock.release l).

(** Fields of proc[p]; an index outside the table is a wild access. *)
Definition proc_get {A} p (f : proc -> A) : M kernel A :=
  ps <- gets k_procs ;; x <- mlookup (ps !! p) ;; mret (f x).
Definition proc_set p (f : proc -> proc) : M kernel unit :=
  ps <- gets k_procs ;;
  _ <- mlookup (ps !! p) ;;
  modify (fun s => s <| k_procs ::= alter f p |>).

Definition store_ram (a v : Z) : M kernel unit := on_phys (ram_update (fun m => store64 m a v)).
Definition load_ram (a : Z) : M kernel Z := on_phys (gets (fun s => load64 (ram s) a)).

Definition procinit : M kernel unit :=
  on_mach (initlock LPid "nextpid") ;;;
  on_mach (initlock LWait "wait_lock") ;;;
  mfor NPROC (fun p =>
    on_mach (initlock (LProc p) "proc") ;;;
    proc_set p (fun x => x <| p_state := UNUSED |>) ;;;
    proc_set p (fun x => x <| p_kstack := KSTACK (Z.of_nat p) |>)).

Definition myproc : M kernel (option nat) :=
  on_mach push_off ;;;
  p <- on_mach (cpu_get c_proc) ;;
  on_mach pop_off ;;;
  mret p.
(** [myproc()->...]: a null pointer faults. *)
Definition self : M kernel nat := o <- myproc ;; mlookup o.

Definition allocpid : M kernel Z :=
  acquire LPid ;;;
  pid <- gets k_nextpid ;;
  modify (fun s => s <| k_nextpid ::= fun n => i32 (n + 1) |>) ;;;
  release LPid ;;;
  mret pid.

(** [queue<q>_ptr++; queue<q>[queue<q>_ptr] = p;] *)
Definition enqueue (q : nat) p : M kernel unit :=
  qs <- gets k_queues ;;
  x <- mlookup (qs !! q) ;;
  let i := i32 (q_ptr x + 1) in
  if (0 <=? i) && (i <? Z.of_nat NPROC)
  then modify (fun s => s <| k_queues ::=
         insert q (Mlfq (<[Z.to_nat i := Some p]> (q_slot x)) i) |>)
  else mfail Fault.

(** ** Page tables of processes *)

Definition proc_pagetable (trapframe : Z) : M phys Z :=
  pagetable <- uvmcreate ;;
  if pagetable =? 0 then mret 0
  else
    r <- mappages pagetable TRAMPOLINE PGSIZE trampoline (Z.lor PTE_R PTE_X) ;;
    if r <? 0 then uvmfree kend pagetable 0 ;;; mret 0
    else
      r <- mappages pagetable TRAPFRAME PGSIZE trapframe (Z.lor PTE_R PTE_W) ;;
      if r <? 0 then
        uvmunmap kend pagetable TRAMPOLINE 1 false ;;;
        uvmfree kend pagetable 0 ;;; mret 0
      else mret pagetable.

Definition proc_freepagetable (pagetable sz : Z) : M phys unit :=
  uvmunmap kend pagetable TRAMPOLINE 1 false ;;;
  uvmunmap kend pagetable TRAPFRAME 1 false ;;;
  uvmfree kend pagetable sz.

(** ** Allocation *)

Definition freeproc p : M kernel unit :=
  tfc <- proc_get p p_trapframe_copy ;;
  mwhen (negb (tfc =? 0)) (on_phys (kfree kend tfc)) ;;;
  proc_set p (fun x => x <| p_trapframe := 0 |>) ;;;
  pt <- proc_get p p_pagetable ;;
  sz <- proc_get p p_sz ;;
  mwhen (negb (pt =? 0)) (on_phys (proc_freepagetable pt sz)) ;;;
  proc_set p (fun x => x
    <| p_pagetable := 0 |> <| p_sz := 0 |> <| p_pid := 0 |> <| p_parent := None |>
    <| p_name ::= insert 0%nat 0 |> <| p_chan := None |> <| p_killed := 0 |>
    <| p_xstate := 0 |> <| p_state := UNUSED |>).

(** The search loop: the first UNUSED entry, with its lock held. *)
Definition find_unused : M kernel (option nat) :=
  mfind NPROC (fun p =>
    acquire (LProc p) ;;;
    st <- proc_get p p_state ;;
    if decide (st = UNUSED) then mret (Some p)
    else release (LProc p) ;;; mret None).

Definition allocproc : M kernel (option nat) :=
  found <- find_unused ;;
  match found with
  | None => mret None
  | Some p =>
      pid <- allocpid ;;
      ticks <- gets k_ticks ;;
      proc_set p (fun x => x
        <| p_pid := pid |> <| p_state := USED |> <| p_creationTime := i32 ticks |>
        <| p_st_time := 0 |> <| p_stat_pr := 60 |> <| p_run_time := 0 |>
        <| p_sleep_time := 0 |> <| p_numOfScheduled := 0 |> <| p_tickets := 1 |>
        <| p_curr_queue := 0 |>) ;;;
      enqueue 0 p ;;;
      proc_set p (fun x => x <| p_num_of_ticks := replicate 5 0 |> <| p_wait_time := 3 |>) ;;;
      tf <- on_phys kalloc ;;
      proc_set p (fun x => x <| p_trapframe := tf |>) ;;;
      if tf =? 0 then freeproc p ;;; release (LProc p) ;;; mret None
      else
        pt <- on_phys (proc_pagetable tf) ;;
        proc_set p (fun x => x <| p_pagetable := pt |>) ;;;
        if pt =? 0 then freeproc p ;;; release (LProc p) ;;; mret None
        else
          proc_set p (fun x => x
            <| p_context := context0 <| x_ra := forkret_addr |>
                                     <| x_sp := u64 (p_kstack x + PGSIZE) |> |>) ;;;
          tfc <- on_phys kalloc ;;
          proc_set p (fun x => x <| p_trapframe_copy := tfc |>) ;;;
          if tfc =? 0 then release (LProc p) ;;; mret None
          else
            proc_set p (fun x => x
              <| p_is_sigalarm := 0 |> <| p_tickss := 0 |> <| p_now_ticks := 0 |>
              <| p_handler := 0 |>) ;;;
            mret (Some p)
  end.
(** ** Scheduling points *)

(** swtch(&p->context, &mycpu()->context): save the registers, load the scheduler's. *)
Definition swtch_to_scheduler p : M kernel unit :=
  regs <- on_mach (gets m_regs) ;;
  new <- on_mach (cpu_get c_context) ;;
  proc_set p (fun x => x <| p_context := regs |>) ;;;
  on_mach (modify (fun m => m <| m_regs := new |>)).

(** sched up to its swtch; the result is the local [intena]. *)
Definition sched_enter : M kernel Z :=
  p <- self ;;
  h <- on_mach (holding (LProc p)) ;;
  if negb h then panic "sched p->lock"
  else
    noff <- on_mach (cpu_get c_noff) ;;
    if negb (noff =? 1) then panic "sched locks"
    else
      st <- proc_get p p_state ;;
      if decide (st = RUNNING) then panic "sched running"
      else
        on <- on_mach (on_hart intr_get) ;;
        if z2b on then panic "sched interruptible"
        else
          intena <- on_mach (cpu_get c_intena) ;;
          swtch_to_scheduler p ;;;
          mret intena.
Definition sched_exit (intena : Z) : M kernel unit :=
  on_mach (cpu_set (fun c => c <| c_intena := intena |>)).

(** The locals that live across the swtch: the process and sched's [intena]. *)
Definition yield_enter : M kernel (nat * Z) :=
  p <- self ;;
  acquire (LProc p) ;;;
  proc_set p (fun x => x <| p_state := RUNNABLE |>) ;;;
  intena <- sched_enter ;;
  mret (p, intena).
Definition yield_exit (k : nat * Z) : M kernel unit :=
  sched_exit (snd k) ;;;
  release (LProc (fst k)).

Definition sleep_enter (ch : option chan) (lk : lockid) : M kernel (nat * Z) :=
  p <- self ;;
  acquire (LProc p) ;;;
  release lk ;;;
  proc_set p (fun x => x <| p_chan := ch |> <| p_state := SLEEPING |>) ;;;
  intena <- sched_enter ;;
  mret (p, intena).
Definition sleep_exit (lk : lockid) (k : nat * Z) : M kernel unit :=
  sched_exit (snd k) ;;;
  proc_set (fst k) (fun x => x <| p_chan := None |>) ;;;
  release (LProc (fst k)) ;;;
  acquire lk.

Definition wakeup (ch : option chan) : M kernel unit :=
  mfor NPROC (fun p =>
    cur <- myproc ;;
    if decide (cur = Some p) then mret tt
    else
      acquire (LProc p) ;;;
      st <- proc_get p p_state ;;
      c <- proc_get p p_chan ;;
      mwhen (bool_decide (st = SLEEPING) && bool_decide (c = ch))
        (proc_set p (fun x => x <| p_state := RUNNABLE |>)) ;;;
      release (LProc p)).

(** ** Killing *)

Definition kill (pid : Z) : M kernel Z :=
  r <- mfind NPROC (fun p =>
         acquire (LProc p) ;;;
         i <- proc_get p p_pid ;;
         if i =? pid then
           proc_set p (fun x => x <| p_killed := 1 |>) ;;;
           st <- proc_get p p_state ;;
           mwhen (bool_decide (st = SLEEPING)) (proc_set p (fun x => x <| p_state := RUNNABLE |>)) ;;;
           release (LProc p) ;;; mret (Some 0)
         else release (LProc p) ;;; mret None) ;;
  mret (default (-1) r).

Definition setkilled p : M kernel unit :=
  acquire (LProc p) ;;;
  proc_set p (fun x => x <| p_killed := 1 |>) ;;;
  release (LProc p).

Definition killed p : M kernel Z :=
  acquire (LProc p) ;;;
  k <- proc_get p p_killed ;;
  release (LProc p) ;;;
  mret k.

(** ** Accounting and priorities *)

Definition updateTime : M kernel unit :=
  mfor NPROC (fun p =>
    acquire (LProc p) ;;;
    st <- proc_get p p_state ;;
    mwhen (bool_decide (st = RUNNING))
      (proc_set p (fun x => x <| p_run_time ::= fun t => i32 (t + 1) |>
                              <| p_tot_run_time ::= fun t => i32 (t + 1) |>)) ;;;
    st <- proc_get p p_state ;;
    mwhen (bool_decide (st = SLEEPING))
      (proc_set p (fun x => x <| p_sleep_time ::= fun t => i32 (t + 1) |>)) ;;;
    release (LProc p)).

(** The result is the old priority; when it was higher than the new one, the caller
    yields first and [Parked] carries what is left to do. *)
Definition setPriority (priority pid : Z) : M kernel (outcome Z (Z * (nat * Z))) :=
  r <- mfind NPROC (fun p =>
         acquire (LProc p) ;;;
         i <- proc_get p p_pid ;;
         if i =? pid then
           val <- proc_get p p_stat_pr ;;
           proc_set p (fun x => x <| p_stat_pr := priority |>
                                   <| p_run_time := 0 |> <| p_sleep_time := 0 |>) ;;;
           release (LProc p) ;;;
           if priority <? val
           then k <- yield_enter ;; mret (Some (Parked (val, k)))
           else mret (Some (Done val))
         else release (LProc p) ;;; mret None) ;;
  mret (default (Done (-1)) r).

(** setPriority after the scheduler ran the caller again. *)
Definition setPriority_exit (k : Z * (nat * Z)) : M kernel Z :=
  yield_exit (snd k) ;;; mret (fst k).

(** ** Creating processes *)

Definition initcode : list Z :=
  [0x17; 0x05; 0x00; 0x00; 0x13; 0x05; 0x45; 0x02;
   0x97; 0x05; 0x00; 0x00; 0x93; 0x85; 0x35; 0x02;
   0x93; 0x08; 0x70; 0x00; 0x73; 0x00; 0x00; 0x00;
   0x93; 0x08; 0x20; 0x00; 0x73; 0x00; 0x00; 0x00;
   0xef; 0xf0; 0x9f; 0xff; 0x2f; 0x69; 0x6e; 0x69;
   0x74; 0x00; 0x00; 0x24; 0x00; 0x00; 0x00; 0x00;
   0x00; 0x00; 0x00; 0x00].

(** "initcode" *)
Definition initcode_name : list Z := [105; 110; 105; 116; 99; 111; 100; 101; 0].

Definition userinit : M kernel unit :=
  o <- allocproc ;;
  modify (fun s => s <| k_initproc := o |>) ;;;
  p <- mlookup o ;;
  pt <- proc_get p p_pagetable ;;
  on_phys (uvmfirst pt initcode) ;;;
  proc_set p (fun x => x <| p_sz := PGSIZE |>) ;;;
  tf <- proc_get p p_trapframe ;;
  store_ram (tf + TF_epc) 0 ;;;
  store_ram (tf + TF_sp) PGSIZE ;;;
  proc_set p (fun x => x <| p_name ::= fun n => safestrcpy_arr n initcode_name 16 |>) ;;;
  cwd <- namei_root ;;
  proc_set p (fun x => x <| p_cwd := cwd |>) ;;;
  proc_set p (fun x => x <| p_state := RUNNABLE |>) ;;;
  release (LProc p).

Definition growproc (n : Z) : M kernel Z :=
  p <- self ;;
  sz <- proc_get p p_sz ;;
  pt <- proc_get p p_pagetable ;;
  if 0 <? n then
    sz' <- on_phys (uvmalloc kend pt sz (u64 (sz + n)) PTE_W) ;;
    if sz' =? 0 then mret (-1)
    else proc_set p (fun x => x <| p_sz := sz' |>) ;;; mret 0
  else if n <? 0 then
    sz' <- on_phys (uvmdealloc kend pt sz (u64 (sz + n))) ;;
    proc_set p (fun x => x <| p_sz := sz' |>) ;;; mret 0
  else proc_set p (fun x => x <| p_sz := sz |>) ;;; mret 0.

(** [for(i = 0; i < NOFILE; i++) if(p->ofile[i]) np->ofile[i] = filedup(p->ofile[i]);] *)
Definition dup_files p np : M kernel unit :=
  mfor NOFILE (fun i =>
    fs <- proc_get p p_ofile ;;
    o <- mlookup (fs !! i) ;;
    match o with
    | None => mret tt
    | Some f => f' <- filedup f ;; proc_set np (fun x => x <| p_ofile ::= insert i (Some f') |>)
    end).

Definition fork : M kernel Z :=
  p <- self ;;
  o <- allocproc ;;
  match o with
  | None => mret (-1)
  | Some np =>
      mask <- proc_get p p_mask ;;
      proc_set np (fun x => x <| p_mask := mask |>) ;;;
      pt <- proc_get p p_pagetable ;;
      npt <- proc_get np p_pagetable ;;
      sz <- proc_get p p_sz ;;
      r <- on_phys (uvmcopy kend pt npt sz) ;;
      if r <? 0 then freeproc np ;;; release (LProc np) ;;; mret (-1)
      else
        proc_set np (fun x => x <| p_sz := sz |>) ;;;
        tf <- proc_get p p_trapframe ;;
        ntf <- proc_get np p_trapframe ;;
        on_phys (ram_update (fun m => memmove m ntf tf sizeof_trapframe)) ;;;
        store_ram (ntf + TF_a0) 0 ;;;
        dup_files p np ;;;
        cwd <- proc_get p p_cwd ;;
        cwd <- mlookup cwd ;;
        ncwd <- idup cwd ;;
        proc_set np (fun x => x <| p_cwd := Some ncwd |>) ;;;
        name <- proc_get p p_name ;;
        proc_set np (fun x => x <| p_name ::= fun n => safestrcpy_arr n name 16 |>) ;;;
        pid <- proc_get np p_pid ;;
        release (LProc np) ;;;
        acquire LWait ;;;
        proc_set np (fun x => x <| p_parent := Some p |>) ;;;
        release LWait ;;;
        acquire (LProc np) ;;;
        proc_set np (fun x => x <| p_state := RUNNABLE |>) ;;;
        release (LProc np) ;;;
        mret pid
  end.

(** ** Exit and wait *)

Definition reparent p : M kernel unit :=
  mfor NPROC (fun pp =>
    par <- proc_get pp p_parent ;;
    if decide (par = Some p) then
      init <- gets k_initproc ;;
      proc_set pp (fun x => x <| p_parent := init |>) ;;;
      wakeup (ChProc <$> init)
    else mret tt).

Definition close_files p : M kernel unit :=
  mfor NOFILE (fun fd =>
    fs <- proc_get p p_ofile ;;
    o <- mlookup (fs !! fd) ;;
    match o with
    | None => mret tt
    | Some f => fileclose f ;;; proc_set p (fun x => x <| p_ofile ::= insert fd None |>)
    end).

(** exit does not return: after its swtch the process never runs again. *)
Definition exit (status : Z) : M kernel unit :=
  p <- self ;;
  init <- gets k_initproc ;;
  if decide (init = Some p) then panic "init exiting"
  else
    close_files p ;;;
    begin_op ;;;
    cwd <- proc_get p p_cwd ;;
    cwd <- mlookup cwd ;;
    iput cwd ;;;
    end_op ;;;
    proc_set p (fun x => x <| p_cwd := None |>) ;;;
    acquire LWait ;;;
    reparent p ;;;
    par <- proc_get p p_parent ;;
    wakeup (ChProc <$> par) ;;;
    acquire (LProc p) ;;;
    proc_set p (fun x => x <| p_xstate := status |> <| p_state := ZOMBIE |>) ;;;
    release LWait ;;;
    _ <- sched_enter ;;
    mret tt.

(** One pass of the search for an exited child, shared by wait and waitx: [harvest] reads
    what waitx reports of it.  The result is [inl] with the value to return and the
    report, or [inr havekids]. *)
Fixpoint wait_scan {A} (harvest : proc -> A) p (addr : Z) (pp n : nat) (havekids : bool)
    : M kernel (Z * A + bool) :=
  match n with
  | O => mret (inr havekids)
  | S n' =>
      par <- proc_get pp p_parent ;;
      if decide (par = Some p) then
        acquire (LProc pp) ;;;
        st <- proc_get pp p_state ;;
        if decide (st = ZOMBIE) then
          pid <- proc_get pp p_pid ;;
          rep <- proc_get pp harvest ;;
          pt <- proc_get p p_pagetable ;;
          xstate <- proc_get pp p_xstate ;;
          r <- (if addr =? 0 then mret 0 else on_phys (copyout pt addr (int_bytes xstate))) ;;
          if r <? 0 then
            release (LProc pp) ;;; release LWait ;;; mret (inl (-1, rep))
          else
            freeproc pp ;;;
            release (LProc pp) ;;; release LWait ;;; mret (inl (pid, rep))
        else
          release (LProc pp) ;;;
          wait_scan harvest p addr (S pp) n' true
      else wait_scan harvest p addr (S pp) n' havekids
  end.

(** One turn of wait's [for(;;)], with wait_lock held on entry. *)
Definition wait_turn p (addr : Z) : M kernel (outcome Z (nat * Z)) :=
  r <- wait_scan (fun _ => tt) p addr 0 NPROC false ;;
  match r with
  | inl (v, _) => mret (Done v)
  | inr havekids =>
      k <- (if havekids : bool then killed p else mret 0) ;;
      if negb havekids || z2b k then release LWait ;;; mret (Done (-1))
      else k <- sleep_enter (Some (ChProc p)) LWait ;; mret (Parked k)
  end.
Definition wait (addr : Z) : M kernel (outcome Z (nat * Z)) :=
  p <- self ;;
  acquire LWait ;;;
  wait_turn p addr.
(** wait when the parent has been woken. *)
Definition wait_resume (addr : Z) (k : nat * Z) : M kernel (outcome Z (nat * Z)) :=
  sleep_exit LWait k ;;;
  wait_turn (fst k) addr.

(** What waitx stores through [rtime] and [wtime]. *)
Definition waitx_times (x : proc) : Z * Z :=
  (u32 (p_tot_run_time x),
   u32 (i32 (p_end_time x - i32 (p_creationTime x + p_tot_run_time x)))).

(** waitx: the value returned, and the times stored when a child was found. *)
Definition waitx_turn p (addr : Z) : M kernel (outcome (Z * option (Z * Z)) (nat * Z)) :=
  r <- wait_scan waitx_times p addr 0 NPROC false ;;
  match r with
  | inl (v, times) => mret (Done (v, Some times))
  | inr havekids =>
      k <- (if havekids : bool then proc_get p p_killed else mret 0) ;;
      if negb havekids || z2b k then release LWait ;;; mret (Done (-1, None))
      else k <- sleep_enter (Some (ChProc p)) LWait ;; mret (Parked k)
  end.
Definition waitx (addr : Z) : M kernel (outcome (Z * option (Z * Z)) (nat * Z)) :=
  p <- self ;;
  acquire LWait ;;;
  waitx_turn p addr.
Definition waitx_resume (addr : Z) (k : nat * Z) : M kernel (outcome (Z * option (Z * Z)) (nat * Z)) :=
  sleep_exit LWait k ;;;
  waitx_turn (fst k) addr.

(** ** Copies to and from user or kernel memory *)

Definition either_copyout (user_dst : bool) (dst : Z) (src : list Z) : M kernel Z :=
  o <- myproc ;;
  if user_dst then p <- mlookup o ;; pt <- proc_get p p_pagetable ;; on_phys (copyout pt dst src)
  else on_phys (ram_update (fun m => write_bytes m dst src)) ;;; mret 0.

Definition either_copyin (user_src : bool) (src len : Z) : M kernel (Z * list Z) :=
  o <- myproc ;;
  if user_src then p <- mlookup o ;; pt <- proc_get p p_pagetable ;; on_phys (copyin pt src len)
  else bs <- on_phys (gets (fun s => read_bytes (ram s) src (Z.to_nat len))) ;; mret (0, bs).

End proc.
