(* ===== verification/Sched.v ===== *)
(** * The schedulers: scheduler() of kernel/proc.c, one Section per policy

    The Makefile builds the kernel with one of five policies: RR, FCFS, PBS, LBS, MLFQ.
    One turn of scheduler's [for(;;)] is cut at swtch: [*_turn] runs up to the swtch to the
    chosen process and returns it, or [None] when the turn ends without one; [*_back] is
    what the scheduler does when the process has switched back. *)

From S2P Require Import Prelude Riscv CString Kalloc Vm Spinlock Proc.

Section sched.
Context {F : Type}.
Notation kernel := (kstate F).
Implicit Types (p : nat).

(** swtch(&c->context, &p->context): save the scheduler's registers, load the process's. *)
Definition swtch_to_proc p : M kernel unit :=
  regs <- on_mach (gets m_regs) ;;
  new <- proc_get p p_context ;;
  on_mach (cpu_set (fun c => c <| c_context := regs |>)) ;;;
  on_mach (modify (fun m => m <| m_regs := new |>)).

Definition set_cproc (o : option nat) : M kernel unit :=
  on_mach (cpu_set (fun c => c <| c_proc := o |>)).

(** The code before the loop, and the start of every turn. *)
Definition scheduler_init : M kernel unit := set_cproc None.
Definition turn_start : M kernel unit := on_mach (on_hart intr_on).

(** What RR, FCFS, PBS and LBS do when the process comes back. *)
Definition back p : M kernel unit := set_cproc None ;;; release (LProc p).

(** ** RR *)

Fixpoint rr_from p (n : nat) : M kernel (option nat) :=
  match n with
  | O => mret None
  | S n' =>
      acquire (LProc p) ;;;
      st <- proc_get p p_state ;;
      if decide (st = RUNNABLE) then
        proc_set p (fun x => x <| p_state := RUNNING |>) ;;;
        set_cproc (Some p) ;;;
        swtch_to_proc p ;;;
        mret (Some p)
      else release (LProc p) ;;; rr_from (S p) n'
  end.
Definition rr_turn : M kernel (option nat) := turn_start ;;; rr_from 0 NPROC.
(** The loop goes on behind the process that ran. *)
Definition rr_back p : M kernel (option nat) := back p ;;; rr_from (S p) (NPROC - S p).

(** ** FCFS *)

Fixpoint fcfs_pick (newProcess n : nat) (startProcess : option nat) : M kernel (option nat) :=
  match n with
  | O => mret startProcess
  | S n' =>
      acquire (LProc newProcess) ;;;
      st <- proc_get newProcess p_state ;;
      if decide (st = RUNNABLE) then
        t <- proc_get newProcess p_creationTime ;;
        better <- match startProcess with
                  | None => mret true
                  | Some sp => t' <- proc_get sp p_creationTime ;; mret (t <? t')
                  end ;;
        if better : bool then
          match startProcess with
          | None => mret tt
          | Some sp => release (LProc sp)
          end ;;;
          fcfs_pick (S newProcess) n' (Some newProcess)
        else release (LProc newProcess) ;;; fcfs_pick (S newProcess) n' startProcess
      else release (LProc newProcess) ;;; fcfs_pick (S newProcess) n' startProcess
  end.
(** [newProcess->numOfScheduled++] comes after the loop, when newProcess is &proc[NPROC]. *)
Definition fcfs_turn : M kernel (option nat) :=
  turn_start ;;;
  o <- fcfs_pick 0 NPROC None ;;
  match o with
  | None => mret None
  | Some p =>
      proc_set p (fun x => x <| p_state := RUNNING |>) ;;;
      set_cproc (Some p) ;;;
      proc_set NPROC (fun x => x <| p_numOfScheduled ::= fun k => i32 (k + 1) |>) ;;;
      swtch_to_proc p ;;;
      mret (Some p)
  end.

(** ** PBS *)

Definition niceness (x : proc) : Z :=
  let total := i32 (p_sleep_time x + p_run_time x) in
  if (0 <? p_numOfScheduled x) && negb (total =? 0)
  then i32 (Z.quot (p_sleep_time x) total * 10) else 5.
Definition processDp (x : proc) : Z :=
  let val := i32 (i32 (p_stat_pr x - niceness x) + 5) in
  let tmp := if val <? 100 then val else 100 in
  if tmp <? 0 then 0 else tmp.

Fixpoint pbs_pick p (n : nat) (dynamic_pr : Z) (process : option nat) : M kernel (option nat) :=
  match n with
  | O => mret process
  | S n' =>
      acquire (LProc p) ;;;
      dp <- proc_get p processDp ;;
      cond1 <- (if dynamic_pr =? dp then
                  q <- mlookup process ;;
                  a <- proc_get p p_numOfScheduled ;;
                  b <- proc_get q p_numOfScheduled ;;
                  mret (a <? b)
                else mret false) ;;
      cond2 <- (if cond1 : bool then
                  q <- mlookup process ;;
                  a <- proc_get p p_creationTime ;;
                  b <- proc_get q p_creationTime ;;
                  mret (a <? b)
                else mret false) ;;
      st <- proc_get p p_state ;;
      if decide (st = RUNNABLE) then
        if (match process with None => true | Some _ => false end) || (dp <? dynamic_pr)
           || cond1 || cond2 then
          match process with None => mret tt | Some q => release (LProc q) end ;;;
          pbs_pick (S p) n' dp (Some p)
        else release (LProc p) ;;; pbs_pick (S p) n' dynamic_pr process
      else release (LProc p) ;;; pbs_pick (S p) n' dynamic_pr process
  end.
Definition pbs_turn : M kernel (option nat) :=
  turn_start ;;;
  o <- pbs_pick 0 NPROC 999 None ;;
  match o with
  | None => mret None
  | Some p =>
      ticks <- gets k_ticks ;;
      proc_set p (fun x => x <| p_run_time := 0 |> <| p_sleep_time := 0 |>
        <| p_numOfScheduled ::= fun k => i32 (k + 1) |> <| p_state := RUNNING |>
        <| p_st_time := i32 ticks |>) ;;;
      set_cproc (Some p) ;;;
      swtch_to_proc p ;;;
      mret (Some p)
  end.

(** ** LBS *)

(** [(int)((nxt_seed*1.0)/99)] rounds the quotient towards zero: for the two-digit
    nxt_seed the double division is exact enough that this is the integer quotient. *)
Definition getrand (tot_tickets : Z) : M kernel Z :=
  seed <- gets k_seed ;;
  let nxt_seed := Z.rem (i32 (seed * seed)) 100 in
  modify (fun s => s <| k_seed := nxt_seed |>) ;;;
  mret (i32 (Z.quot nxt_seed 99 * tot_tickets)).

Fixpoint lbs_total (p n : nat) (tot : Z) : M kernel Z :=
  match n with
  | O => mret tot
  | S n' =>
      st <- proc_get p p_state ;;
      t <- proc_get p p_tickets ;;
      lbs_total (S p) n' (if decide (st = RUNNABLE) then i32 (tot + t) else tot)
  end.
Fixpoint lbs_pick p (n : nat) (ans passed : Z) : M kernel (option nat) :=
  match n with
  | O => mret None
  | S n' =>
      acquire (LProc p) ;;;
      st <- proc_get p p_state ;;
      if decide (st = RUNNABLE) then
        t <- proc_get p p_tickets ;;
        let passed := i32 (passed + t) in
        if ans <? passed then mret (Some p)
        else release (LProc p) ;;; lbs_pick (S p) n' ans passed
      else release (LProc p) ;;; lbs_pick (S p) n' ans passed
  end.
Definition lbs_turn : M kernel (option nat) :=
  turn_start ;;;
  tot <- lbs_total 0 NPROC 0 ;;
  ans <- getrand tot ;;
  o <- lbs_pick 0 NPROC ans 0 ;;
  match o with
  | None => mret None
  | Some p =>
      proc_set p (fun x => x <| p_state := RUNNING |>) ;;;
      set_cproc (Some p) ;;;
      swtch_to_proc p ;;;
      mret (Some p)
  end.

(** ** MLFQ *)

Definition ticks_allowed : list Z := [1; 2; 4; 8; 16].

(** queue<q>_ptr, and queue<q>[i] as a pointer that is about to be followed. *)
Definition queue_ptr (q : nat) : M kernel Z :=
  qs <- gets k_queues ;; x <- mlookup (qs !! q) ;; mret (q_ptr x).
Definition set_queue_ptr (q : nat) (f : Z -> Z) : M kernel unit :=
  modify (fun s => s <| k_queues ::= alter (fun x => x <| q_ptr ::= f |>) q |>).
Definition queue_slot (q : nat) (i : Z) : M kernel (option nat) :=
  qs <- gets k_queues ;;
  x <- mlookup (qs !! q) ;;
  if i <? 0 then mfail Fault else mlookup (q_slot x !! Z.to_nat i).
Definition queue_at (q : nat) (i : Z) : M kernel nat := o <- queue_slot q i ;; mlookup o.
Definition set_queue_slot (q : nat) (i : Z) (o : option nat) : M kernel unit :=
  if (i <? 0) || (Z.of_nat NPROC <=? i) then mfail Fault
  else modify (fun s => s <| k_queues ::= alter (fun x => x <| q_slot ::= insert (Z.to_nat i) o |>) q |>).

(** [for(j = i; j <= hi; j++) queue<q>[j] = queue<q>[j+1];] *)
Fixpoint shift_from (fuel : nat) (q : nat) (j hi : Z) : M kernel unit :=
  match fuel with
  | O => mfail NoFuel
  | S fuel' =>
      if j <=? hi then
        o <- queue_slot q (j + 1) ;;
        set_queue_slot q j o ;;;
        shift_from fuel' q (j + 1) hi
      else mret tt
  end.
Definition shift (q : nat) (i hi : Z) : M kernel unit :=
  shift_from (S (Z.to_nat (hi - i + 1))) q i hi.

Fixpoint remove_from (fuel : nat) (pid : Z) (q : nat) (i : Z) : M kernel unit :=
  match fuel with
  | O => mfail NoFuel
  | S fuel' =>
      ptr <- queue_ptr q ;;
      if i <=? ptr then
        p <- queue_at q i ;;
        x <- proc_get p p_pid ;;
        if x =? pid then shift q i (ptr - 1) ;;; set_queue_ptr q (fun n => i32 (n - 1))
        else remove_from fuel' pid q (i + 1)
      else mret tt
  end.
(** The queue is the one of [curr_queue], the last one for any other number; the indices
    that can be visited are those of the array. *)
Definition remove_from_queue (pid curr_queue : Z) : M kernel unit :=
  let q := if curr_queue =? 0 then 0%nat else if curr_queue =? 1 then 1%nat
           else if curr_queue =? 2 then 2%nat else if curr_queue =? 3 then 3%nat else 4%nat in
  remove_from (S NPROC) pid q 0.

(** The ageing loop over queue [S q]: processes that waited too long move up to [q]. *)
Fixpoint age_from (fuel : nat) (q : nat) (i : Z) : M kernel unit :=
  match fuel with
  | O => mfail NoFuel
  | S fuel' =>
      ptr <- queue_ptr (S q) ;;
      if i <=? ptr then
        p <- queue_at (S q) i ;;
        st <- proc_get p p_state ;;
        start <- proc_get p p_st_time ;;
        wait <- proc_get p p_wait_time ;;
        ticks <- gets k_ticks ;;
        mwhen (bool_decide (st = RUNNABLE) && (u32 wait <? u32 (ticks - start)))
          (proc_set p (fun x => x <| p_curr_queue ::= fun c => i32 (c - 1) |>) ;;;
           cqueue <- proc_get p p_curr_queue ;;
           (if (cqueue <? 0) || (5 <=? cqueue) then mfail Fault else mret tt) ;;;
           proc_set p (fun x => x <| p_num_of_ticks ::= insert (Z.to_nat cqueue) 0 |>
                                   <| p_st_time := i32 ticks |>) ;;;
           enqueue q p ;;;
           set_queue_ptr (S q) (fun n => i32 (n - 1)) ;;;
           p' <- queue_at (S q) i ;;
           pid <- proc_get p' p_pid ;;
           remove_from_queue pid (Z.of_nat (S q))) ;;;
        age_from fuel' q (i + 1)
      else mret tt
  end.
Definition mlfq_age : M kernel unit := mfor 4 (fun q => age_from (S NPROC) q 0).

(** The loop over queue [q] from index [i]; at a RUNNABLE process it switches to it.  A
    turn that reaches the end of queue 4 is over. *)
Fixpoint mlfq_scan (fuel : nat) (q : nat) (i : Z) : M kernel (option (nat * Z * nat)) :=
  match fuel with
  | O => mfail NoFuel
  | S fuel' =>
      if (5 <=? q)%nat then mret None
      else
        ptr <- queue_ptr q ;;
        if i <=? ptr then
          p <- queue_at q i ;;
          acquire (LProc p) ;;;
          st <- proc_get p p_state ;;
          if decide (st = RUNNABLE) then
            ticks <- gets k_ticks ;;
            proc_set p (fun x => x <| p_st_time := i32 ticks |>) ;;;
            set_cproc (Some p) ;;;
            proc_set p (fun x => x <| p_state := RUNNING |>
                                    <| p_numOfScheduled ::= fun k => i32 (k + 1) |>) ;;;
            swtch_to_proc p ;;;
            mret (Some (q, i, p))
          else
            p' <- queue_at q i ;;
            release (LProc p') ;;;
            mlfq_scan fuel' q (i + 1)
        else mlfq_scan fuel' (S q) 0
  end.
(** Five queues of at most NPROC entries each. *)
Definition mlfq_fuel : nat := (5 * (NPROC + 2))%nat.
Definition mlfq_turn : M kernel (option (nat * Z * nat)) :=
  turn_start ;;; mlfq_age ;;; mlfq_scan mlfq_fuel 0 0.

(** After the swtch: demotion when the time is used up, removal from the queue, and the
    release of [queue<q>[i]->lock], which is read from the queue again. *)
Definition mlfq_demote (q : nat) (process : nat) : M kernel unit :=
  used <- proc_get process (fun x => default 0 (p_num_of_ticks x !! q)) ;;
  allowed <- mlookup (ticks_allowed !! q) ;;
  k <- proc_get process p_killed ;;
  mwhen ((allowed <=? used) && ((q =? 3)%nat || (k =? 0)))
    (proc_set process (fun x => x <| p_curr_queue ::= fun c => i32 (c + 1) |>) ;;;
     enqueue (S q) process).
Definition mlfq_leave (q : nat) (i : Z) (process : nat) : M kernel unit :=
  if (q =? 4)%nat then
    ptr <- queue_ptr 4 ;;
    k <- proc_get process p_killed ;;
    shift 4 i (ptr - 1) ;;;
    mwhen (k =? 0) (set_queue_slot 4 ptr (Some process))
  else
    mlfq_demote q process ;;;
    ptr <- queue_ptr q ;;
    shift q i ptr ;;;
    set_queue_ptr q (fun n => i32 (n - 1)) ;;;
    proc_set process (fun x => x <| p_num_of_ticks ::= insert q 0 |>).
Definition mlfq_back (q : nat) (i : Z) (process : nat) : M kernel (option (nat * Z * nat)) :=
  set_cproc None ;;;
  mlfq_leave q i process ;;;
  p' <- queue_at q i ;;
  release (LProc p') ;;;
  mlfq_scan mlfq_fuel q (i + 1).

End sched.
