(* ===== verification/ProcSpec.v ===== *)
(** * Processes: what the operations of kernel/proc.c do to the process table

    Equations for the operations that only change the process table, for every state in
    which the locks they take are free.  [imap f] applied to the table is the effect of a
    loop over it. *)

From S2P Require Import Prelude Riscv CString Kalloc Vm Spinlock Proc Sched.

Section spec.
Context {F : Type}.
Notation kernel := (kstate F).
Implicit Types (s : kernel) (p : nat) (m : mach) (c : cpu).

(** ** Running one operation *)

Lemma on_mach_run {A} (f : M mach A) s a m : f (k_mach s) = Ok a m ->
  on_mach f s = Ok a (s <| k_mach := m |>).
Proof. intros E. unfold on_mach. by rewrite (zoom_ok _ _ _ _ _ _ E). Qed.

Lemma on_phys_run {A} (f : M phys A) s a (ph : phys) : f (k_phys s) = Ok a ph ->
  on_phys f s = Ok a (s <| k_phys := ph |>).
Proof. intros E. unfold on_phys. by rewrite (zoom_ok _ _ _ _ _ _ E). Qed.

Lemma proc_get_run {A} (f : proc -> A) s p x : k_procs s !! p = Some x ->
  proc_get p f s = Ok (f x) s.
Proof. intros E. unfold proc_get, mbind, gets. by rewrite E. Qed.

Lemma proc_set_run f s p x : k_procs s !! p = Some x ->
  proc_set p f s = Ok tt (s <| k_procs := <[p := f x]> (k_procs s) |>).
Proof.
  intros E. unfold proc_set, mbind, gets. rewrite E. unfold mlookup, mret, modify.
  simpl. by rewrite (list_alter_Some f p x).
Qed.

Lemma on_mach_at {A} (f : M mach A) s m0 a m : k_mach s = m0 -> f m0 = Ok a m ->
  on_mach f s = Ok a (s <| k_mach := m |>).
Proof. intros <-. apply on_mach_run. Qed.

Lemma acquire_k s c l : mach_ok (k_mach s) c -> c_noff c + 1 < 2 ^ 31 -> lk_free (k_mach s) l ->
  acquire l s = Ok tt (s <| k_mach := acq (k_mach s) c l |>).
Proof. intros H1 H2 H3. apply on_mach_run. by apply acquire_run. Qed.

Lemma release_k s m c l : k_mach s = acq m c l -> mach_ok m c -> c_noff c + 1 < 2 ^ 31 ->
  lk_free m l -> release l s = Ok tt (s <| k_mach := settle m c |>).
Proof. intros E H1 H2 H3. apply on_mach_run. rewrite E. by apply release_acq. Qed.

Lemma myproc_run s c : mach_ok (k_mach s) c -> c_noff c + 1 < 2 ^ 31 ->
  myproc s = Ok (c_proc c) (s <| k_mach := settle (k_mach s) c |>).
Proof.
  intros H Hmax. unfold myproc.
  rewrite (bind_ok _ _ _ _ _ (on_mach_run _ _ _ _ (push_off_run _ _ H Hmax))).
  destruct (pushed_ok _ _ H Hmax) as [H1 _].
  erewrite bind_ok.
  2: { apply (on_mach_at _ _ (pushed (k_mach s) c)); [reflexivity|]. by apply cpu_get_run. }
  erewrite bind_ok.
  2: { apply (on_mach_at _ _ (pushed (k_mach s) c)); [reflexivity|]. by apply pop_pushed. }
  by destruct s.
Qed.

Lemma self_run s c p : mach_ok (k_mach s) c -> c_noff c + 1 < 2 ^ 31 -> c_proc c = Some p ->
  self s = Ok p (s <| k_mach := settle (k_mach s) c |>).
Proof.
  intros H Hmax Hp. unfold self. rewrite (bind_ok _ _ _ _ _ (myproc_run s c H Hmax)).
  by rewrite Hp.
Qed.

(** ** Loops over the process table *)

(** What a loop needs of the machine: the current CPU and the process it runs, and the locks of the processes
    that [skip] does not exclude. *)
Definition ready (cur : option nat) s c (skip : nat -> Prop) : Prop :=
  mach_ok (k_mach s) c /\ c_noff c + 2 < 2 ^ 31 /\ c_proc c = cur /\ length (k_procs s) = NPROC /\
  forall p, (p < NPROC)%nat -> ~ skip p -> lk_free (k_mach s) (LProc p).

(** The state after one iteration of a loop body that acts on its own entry. *)
Definition stepped s c (procs : list proc) : kernel :=
  s <| k_mach := settle (k_mach s) c |> <| k_procs := procs |>.

Lemma ready_stepped cur s c skip procs : ready cur s c skip -> length procs = NPROC ->
  ready cur (stepped s c procs) (c_settle (k_mach s) c) skip.
Proof.
  intros (H & Hmax & Hcur & Hlen & Hl) Hlen'. split_and!.
  - apply settle_ok, H.
  - unfold c_settle. by destruct (_ =? 0).
  - unfold c_settle. by destruct (_ =? 0).
  - done.
  - intros p Hp Hs. destruct (Hl p Hp Hs) as [nm E]. by exists nm.
Qed.

(** The table after a loop from entry [i] on. *)
Definition from (i : nat) (f : nat -> proc -> proc) (j : nat) (x : proc) : proc :=
  if decide (i <= j)%nat then f j x else x.

Lemma imap_from_insert i f (ps : list proc) x : ps !! i = Some x ->
  imap (from (S i) f) (<[i := f i x]> ps) = imap (from i f) ps.
Proof.
  intros Hx. apply list_eq. intros j. rewrite !list_lookup_imap.
  destruct (decide (j = i)) as [->|Hne].
  - rewrite list_lookup_insert_eq by (by eapply lookup_lt_Some). rewrite Hx. simpl. unfold from.
    by rewrite decide_False, decide_True by lia.
  - rewrite list_lookup_insert_ne by done. destruct (ps !! j); [|done]. simpl. unfold from.
    destruct (decide (S i <= j)%nat), (decide (i <= j)%nat); done || lia.
Qed.

Lemma imap_from_end i f (ps : list proc) : (length ps <= i)%nat -> imap (from i f) ps = ps.
Proof.
  intros Hl. apply list_eq. intros j. rewrite list_lookup_imap. destruct (ps !! j) eqn:E; [|done].
  apply lookup_lt_Some in E. simpl. unfold from. by rewrite decide_False by lia.
Qed.

Lemma imap_from_0 f (ps : list proc) : imap (from 0 f) ps = imap f ps.
Proof. apply imap_ext. intros. unfold from. by rewrite decide_True by lia. Qed.

Lemma mfor_procs_from (body : nat -> M kernel unit) (f : nat -> proc -> proc) cur skip :
  (forall s c p x, ready cur s c skip -> k_procs s !! p = Some x ->
     body p s = Ok tt (stepped s c (<[p := f p x]> (k_procs s)))) ->
  forall n i s c, ready cur s c skip -> (i + S n = NPROC)%nat ->
  mfor_from i (S n) body s = Ok tt (stepped s c (imap (from i f) (k_procs s))).
Proof.
  intros Hbody. induction n as [|n IH]; intros i s c Hr Hn.
  all: pose proof Hr as (H & Hmax & Hcur & Hlen & Hl).
  all: destruct (lookup_lt_is_Some_2 (k_procs s) i) as [x Hx]; [lia|].
  all: cbn [mfor_from]; rewrite (bind_ok _ _ _ _ _ (Hbody s c i x Hr Hx)).
  - unfold mret. rewrite <- (imap_from_insert i f (k_procs s) x Hx).
    by rewrite imap_from_end by (rewrite length_insert; lia).
  - change (body (S i) ;;; mfor_from (S (S i)) n body) with (mfor_from (S i) (S n) body).
    rewrite (IH (S i) _ (c_settle (k_mach s) c)); [|apply ready_stepped; [done|]|lia].
    2: by rewrite length_insert.
    f_equal. unfold stepped. simpl. rewrite settle_idem.
    by rewrite (imap_from_insert i f (k_procs s) x Hx).
Qed.

Lemma mfor_procs (body : nat -> M kernel unit) (f : nat -> proc -> proc) cur skip s c :
  (forall s c p x, ready cur s c skip -> k_procs s !! p = Some x ->
     body p s = Ok tt (stepped s c (<[p := f p x]> (k_procs s)))) ->
  ready cur s c skip -> mfor NPROC body s = Ok tt (stepped s c (imap f (k_procs s))).
Proof.
  intros Hbody Hr. unfold mfor. change NPROC with (S 63).
  rewrite (mfor_procs_from body f cur skip Hbody 63 0 s c Hr) by done. by rewrite imap_from_0.
Qed.

(** A search: the body either stops at an entry and changes it, or leaves everything. *)
Lemma mfind_procs {A} (body : nat -> M kernel (option A)) (stop : proc -> bool)
    (res : nat -> proc -> A) (f : nat -> proc -> proc) cur skip s0 :
  (forall s c p x, ready cur s c skip -> k_procs s !! p = Some x ->
     body p s = Ok (if stop x then Some (res p x) else None)
                   (stepped s c (if stop x then <[p := f p x]> (k_procs s) else k_procs s))) ->
  forall n i s c, ready cur s c skip -> k_procs s = k_procs s0 -> (i + S n = NPROC)%nat ->
  (exists j x, (i <= j)%nat /\ k_procs s0 !! j = Some x /\ stop x = true /\
     (forall k y, (i <= k < j)%nat -> k_procs s0 !! k = Some y -> stop y = false) /\
     mfind_from i (S n) body s = Ok (Some (res j x)) (stepped s c (<[j := f j x]> (k_procs s)))) \/
  ((forall k y, (i <= k)%nat -> k_procs s0 !! k = Some y -> stop y = false) /\
   mfind_from i (S n) body s = Ok None (stepped s c (k_procs s))).
Proof.
  intros Hbody. induction n as [|n IH]; intros i s c Hr Hps Hn.
  all: pose proof Hr as (H & Hmax & Hcur & Hlen & Hl).
  all: destruct (lookup_lt_is_Some_2 (k_procs s) i) as [x Hx]; [lia|].
  all: cbn [mfind_from]; rewrite (bind_ok _ _ _ _ _ (Hbody s c i x Hr Hx)).
  all: rewrite Hps in Hx; destruct (stop x) eqn:Hst.
  1, 3: left; exists i, x; split_and!; [done|done|done|lia|done].
  - right. split; [|done]. intros k y Hk Hy. assert (k = i) as -> by
      (apply lookup_lt_Some in Hy; rewrite <- Hps, Hlen in Hy; lia). congruence.
  - change (mbind (body (S i)) _) with (mfind_from (S i) (S n) body).
    destruct (IH (S i) (stepped s c (k_procs s)) (c_settle (k_mach s) c)) as
      [(j & y & Hj & Hy & Hsy & Hbef & Hrun)|(Hno & Hrun)];
      [by apply ready_stepped|done|lia|left|right].
    + exists j, y. split_and!; [lia|done|done| |].
      * intros k z Hk Hz. destruct (decide (k = i)) as [->|]; [congruence|]. apply (Hbef k z); [lia|done].
      * rewrite Hrun. f_equal. unfold stepped. simpl. by rewrite settle_idem.
    + split.
      * intros k z Hk Hz. destruct (decide (k = i)) as [->|]; [congruence|]. apply (Hno k z); [lia|done].
      * rewrite Hrun. f_equal. unfold stepped. simpl. by rewrite settle_idem.
Qed.

(** ** Straight-line code on one entry *)

Lemma keep_entry s p x : k_procs s !! p = Some x ->
  s <| k_procs := <[p := x]> (k_procs s) |> = s.
Proof. intros E. destruct s. simpl in *. by rewrite list_insert_id. Qed.

Lemma lookup_updated s p x y : k_procs s !! p = Some x ->
  k_procs (s <| k_procs := <[p := y]> (k_procs s) |>) !! p = Some y.
Proof. intros E. simpl. apply list_lookup_insert_eq. by eapply lookup_lt_Some. Qed.

Lemma set_twice s p x y : (s <| k_procs := <[p := x]> (k_procs s) |>)
  <| k_procs := <[p := y]> (k_procs (s <| k_procs := <[p := x]> (k_procs s) |>)) |> =
  s <| k_procs := <[p := y]> (k_procs s) |>.
Proof. destruct s. simpl. by rewrite list_insert_insert_eq. Qed.

(** [c1] reads and updates proc[p] only: it returns [a x] and stores [f x]. *)
Definition acts {A} (p : nat) (c1 : M kernel A) (a : proc -> A) (f : proc -> proc) : Prop :=
  forall s x, k_procs s !! p = Some x ->
    c1 s = Ok (a x) (s <| k_procs := <[p := f x]> (k_procs s) |>).

Lemma acts_bind {A B} p (c1 : M kernel A) (k : A -> M kernel B) a1 f1 a2 f2 :
  acts p c1 a1 f1 -> (forall x, acts p (k (a1 x)) (a2 x) (f2 x)) ->
  acts p (mbind c1 k) (fun x => a2 x (f1 x)) (fun x => f2 x (f1 x)).
Proof.
  intros H1 H2 s x Hx. rewrite (bind_ok _ _ _ _ _ (H1 s x Hx)).
  set (s1 := s <| k_procs := <[p := f1 x]> (k_procs s) |>).
  rewrite (H2 x s1 (f1 x) (lookup_updated s p x _ Hx)). unfold s1. by rewrite set_twice.
Qed.
Lemma acts_get {A} p (g : proc -> A) : acts p (proc_get p g) g (fun x => x).
Proof. intros s x Hx. rewrite (proc_get_run g s p x Hx). by rewrite keep_entry. Qed.
Lemma acts_set p g : acts p (proc_set p g) (fun _ => tt) g.
Proof. intros s x Hx. by rewrite (proc_set_run g s p x Hx). Qed.
Lemma acts_ret {A} p (v : A) : acts p (mret v) (fun _ => v) (fun x => x).
Proof. intros s x Hx. unfold mret. by rewrite keep_entry. Qed.
Lemma acts_when p (b : bool) (c1 : M kernel unit) f1 : acts p c1 (fun _ => tt) f1 ->
  acts p (mwhen b c1) (fun _ => tt) (fun x => if b then f1 x else x).
Proof. destruct b; [done|]. intros _. apply acts_ret. Qed.

(** [b] does the same and ends with the release of the lock of proc[p]. *)
Definition racts {A} (p : nat) (b : M kernel A) (a : proc -> A) (f : proc -> proc) : Prop :=
  forall s m c x, k_procs s !! p = Some x -> k_mach s = acq m c (LProc p) ->
    mach_ok m c -> c_noff c + 1 < 2 ^ 31 -> lk_free m (LProc p) ->
    b s = Ok (a x) (s <| k_mach := settle m c |> <| k_procs := <[p := f x]> (k_procs s) |>).

Lemma racts_bind {A B} p (c1 : M kernel A) (k : A -> M kernel B) a1 f1 a2 f2 :
  acts p c1 a1 f1 -> (forall x, racts p (k (a1 x)) (a2 x) (f2 x)) ->
  racts p (mbind c1 k) (fun x => a2 x (f1 x)) (fun x => f2 x (f1 x)).
Proof.
  intros H1 H2 s m c x Hx Hm Hok Hmax Hf. rewrite (bind_ok _ _ _ _ _ (H1 s x Hx)).
  set (s1 := s <| k_procs := <[p := f1 x]> (k_procs s) |>).
  rewrite (H2 x s1 m c (f1 x) (lookup_updated s p x _ Hx)) by done. f_equal.
  unfold s1. destruct s. simpl. by rewrite list_insert_insert_eq.
Qed.
Lemma racts_release p : racts p (release (LProc p)) (fun _ => tt) (fun x => x).
Proof.
  intros s m c x Hx Hm Hok Hmax Hf. rewrite (release_k s m c) by done.
  f_equal. destruct s. simpl in *. by rewrite list_insert_id.
Qed.
Lemma racts_release_ret {A} p (v : A) : racts p (release (LProc p) ;;; mret v) (fun _ => v) (fun x => x).
Proof.
  intros s m c x Hx Hm Hok Hmax Hf.
  rewrite (bind_ok _ _ _ _ _ (racts_release p s m c x Hx Hm Hok Hmax Hf)). done.
Qed.
Lemma racts_if {A} p (b : bool) (c1 c2 : M kernel A) a1 f1 a2 f2 :
  racts p c1 a1 f1 -> racts p c2 a2 f2 ->
  racts p (if b then c1 else c2) (fun x => if b then a1 x else a2 x) (fun x => if b then f1 x else f2 x).
Proof. by destruct b. Qed.
Lemma racts_decide {A} p (P : Prop) `{!Decision P} (c1 c2 : M kernel A) a1 f1 a2 f2 :
  racts p c1 a1 f1 -> racts p c2 a2 f2 ->
  racts p (if decide P then c1 else c2) (fun x => if decide P then a1 x else a2 x)
    (fun x => if decide P then f1 x else f2 x).
Proof. by destruct (decide P). Qed.

(** A critical section inside a loop. *)
Lemma section_stepped {A} cur p (b : M kernel A) a f s c skip x : racts p b a f ->
  ready cur s c skip -> ~ skip p -> k_procs s !! p = Some x ->
  (acquire (LProc p) ;;; b) s = Ok (a x) (stepped s c (<[p := f x]> (k_procs s))).
Proof.
  intros Hb (H & Hmax & Hcur & Hlen & Hl) Hs Hx.
  assert (Hf : lk_free (k_mach s) (LProc p)).
  { apply Hl; [|done]. rewrite <- Hlen. by eapply lookup_lt_Some. }
  rewrite (bind_ok _ _ _ _ _ (acquire_k s c _ H ltac:(lia) Hf)).
  rewrite (Hb _ (k_mach s) c x) by (done || lia). by destruct s.
Qed.

End spec.

(** Compute what straight-line code does to an entry. *)
Ltac acts_tac :=
  first
    [ apply acts_get | apply acts_set | apply acts_ret
    | eapply acts_when; acts_tac
    | eapply acts_bind; [acts_tac|intros; acts_tac] ].
Ltac racts_tac :=
  repeat first
    [ apply racts_release | apply racts_release_ret
    | eapply racts_decide | eapply racts_if
    | eapply racts_bind; [acts_tac|intros] ].
(** Run a critical section on an entry. *)
Ltac section :=
  match goal with
  | Hr : ready _ ?s ?c ?skip, Hx : k_procs ?s !! ?p = Some ?x |- mbind (acquire (LProc ?p)) _ ?s = _ =>
      erewrite section_stepped; [|racts_tac|exact Hr|try tauto|exact Hx]; cbv beta
  end.

(** The same, when the entry becomes [y]. *)
Ltac section_to y :=
  section;
  match goal with
  | |- Ok _ (stepped _ _ (<[_ := ?z]> _)) = _ =>
      let E := fresh in assert (E : z = y); [|rewrite E; clear E; try reflexivity]
  end.

Section ops.
Context {F : Type}.
Notation kernel := (kstate F).
Implicit Types (s : kernel) (p : nat).

(** ** wakeup *)

Definition wake (cur : option nat) (ch : option chan) (p : nat) (x : proc) : proc :=
  if decide (cur <> Some p /\ p_state x = SLEEPING /\ p_chan x = ch)
  then x <| p_state := RUNNABLE |> else x.

Lemma ready_settled cur s c skip : ready cur s c skip ->
  ready cur (s <| k_mach := settle (k_mach s) c |>) (c_settle (k_mach s) c) skip.
Proof.
  intros Hr. destruct (ready_stepped cur s c skip (k_procs s)) as (? & ? & ? & ? & ?);
    [done|apply Hr|]. by split_and!.
Qed.

Lemma stepped_settled s c l :
  stepped (s <| k_mach := settle (k_mach s) c |>) (c_settle (k_mach s) c) l = stepped s c l.
Proof. unfold stepped. simpl. by rewrite settle_idem. Qed.

(** wakeup makes RUNNABLE exactly the other processes that sleep on the channel. *)
Lemma wakeup_run s c ch : ready (c_proc c) s c (fun p => c_proc c = Some p) ->
  wakeup ch s = Ok tt (stepped s c (imap (wake (c_proc c) ch) (k_procs s))).
Proof.
  intros Hr. apply (mfor_procs _ _ (c_proc c) (fun p => c_proc c = Some p)); [|done].
  clear Hr s. generalize (c_proc c) as cur. clear c. intros cur s c p x Hr Hx.
  pose proof Hr as (H & Hmax & Hcur & Hlen & Hl).
  rewrite (bind_ok _ _ _ _ _ (myproc_run s c H ltac:(lia))), Hcur. unfold wake.
  destruct (decide (cur = Some p)) as [E|E].
  - rewrite decide_False by tauto. unfold mret, stepped. rewrite list_insert_id by done.
    by destruct s.
  - apply ready_settled in Hr. set (s1 := s <| k_mach := settle (k_mach s) c |>) in *.
    assert (Hx1 : k_procs s1 !! p = Some x) by done.
    section_to (wake cur ch p x); unfold wake.
    + unfold bool_decide. repeat case_decide; naive_solver.
    + unfold s1. by rewrite stepped_settled.
Qed.

(** ** updateTime *)

Definition tick (x : proc) : proc :=
  let x := if decide (p_state x = RUNNING)
           then x <| p_run_time ::= fun t => i32 (t + 1) |> <| p_tot_run_time ::= fun t => i32 (t + 1) |>
           else x in
  if decide (p_state x = SLEEPING) then x <| p_sleep_time ::= fun t => i32 (t + 1) |> else x.

Lemma updateTime_run s c : ready (c_proc c) s c (fun _ => False) ->
  updateTime s = Ok tt (stepped s c (imap (fun _ => tick) (k_procs s))).
Proof.
  intros Hr. apply (mfor_procs _ (fun _ => tick) (c_proc c) (fun _ => False)); [|done].
  clear Hr s. generalize (c_proc c) as cur. clear c. intros cur s c p x Hr Hx.
  section_to (tick x). unfold tick, bool_decide.
  destruct (decide (p_state x = RUNNING)) as [E|E]; simpl; by repeat case_decide.
Qed.

(** ** kill, setkilled, killed *)

Definition kill1 (x : proc) : proc :=
  let x := x <| p_killed := 1 |> in
  if decide (p_state x = SLEEPING) then x <| p_state := RUNNABLE |> else x.

(** kill marks the first process with that pid and wakes it if it sleeps. *)
Lemma kill_run s c pid : ready (c_proc c) s c (fun _ => False) ->
  (exists j x, k_procs s !! j = Some x /\ p_pid x = pid /\
     (forall k y, (k < j)%nat -> k_procs s !! k = Some y -> p_pid y <> pid) /\
     kill pid s = Ok 0 (stepped s c (<[j := kill1 x]> (k_procs s)))) \/
  ((forall k y, k_procs s !! k = Some y -> p_pid y <> pid) /\
   kill pid s = Ok (-1) (stepped s c (k_procs s))).
Proof.
  intros Hr. unfold kill, mfind.
  match goal with |- context [mfind_from 0 NPROC ?b] => set (body := b) end.
  destruct (mfind_procs body (fun x => p_pid x =? pid) (fun _ _ => 0) (fun _ => kill1)
    (c_proc c) (fun _ => False) s) with (n := 63%nat) (i := 0%nat) (s := s) (c := c) as
    [(j & x & _ & Hx & Hst & Hbef & Hrun)|(Hno & Hrun)]; [|done|done|done| |].
  - clear Hr s. generalize (c_proc c) as cur. clear c. intros cur s c p x Hr Hx.
    unfold body. section. unfold kill1, bool_decide. simpl.
    destruct (p_pid x =? pid) eqn:E; [by repeat case_decide|].
    by rewrite list_insert_id.
  - left. exists j, x. split_and!; [done|by apply Z.eqb_eq| |by rewrite (bind_ok _ _ _ _ _ Hrun)].
    intros k y Hk Hy. apply Z.eqb_neq, (Hbef k y); [lia|done].
  - right. split; [|by rewrite (bind_ok _ _ _ _ _ Hrun)].
    intros k y Hy. apply Z.eqb_neq, (Hno k y); [lia|done].
Qed.

End ops.

(** ** An example kernel *)

(** One hart with interrupts off, all locks free, and a process table with the entries
    [ps] at its start. *)
Definition ex_hart : hart := Hart 0 0 0 0 0 0 0 0 0 0 0 0 0 0 0 0 0 0 0 0 0 0 0.
Definition ex_locks : gmap lockid spinlock :=
  <[LWait := Spinlock 0 "wait_lock" None]> (<[LPid := Spinlock 0 "nextpid" None]>
    (list_to_map ((fun p => (LProc p, Spinlock 0 "proc" None)) <$> seq 0 NPROC))).
Definition ex_cpu (cur : option nat) : cpu := cpu0 <| c_proc := cur |>.
Definition ex_mach (cur : option nat) : mach :=
  Mach ex_hart context0 (ex_cpu cur :: replicate (NCPU - 1) cpu0) ex_locks.
Definition ex_kernel (cur : option nat) (ps : list proc) : kstate unit :=
  KState (ex_mach cur) (Phys (Mem ∅) 0) (ps ++ replicate (NPROC - length ps) proc0) None 1 10 37
    (replicate 5 mlfq0) tt.

Lemma ex_mach_ok cur : mach_ok (ex_mach cur) (ex_cpu cur).
Proof. split; try done. Qed.

Lemma ex_free_proc cur p : (p < NPROC)%nat -> lk_free (ex_mach cur) (LProc p).
Proof.
  intros Hp. exists "proc"%string. change (m_locks (ex_mach cur)) with ex_locks. unfold ex_locks.
  rewrite !lookup_insert_ne by discriminate. apply elem_of_list_to_map_1.
  - rewrite <- list_fmap_compose. apply NoDup_fmap; [|apply NoDup_seq].
    intros x y [= ->]. done.
  - apply list_elem_of_fmap. exists p. split; [done|]. apply elem_of_seq. lia.
Qed.

Lemma ex_len cur ps : (length ps <= NPROC)%nat -> length (k_procs (ex_kernel cur ps)) = NPROC.
Proof. intros H. simpl. rewrite length_app, length_replicate. lia. Qed.

Lemma ex_ready cur ps skip : (length ps <= NPROC)%nat -> ready cur (ex_kernel cur ps) (ex_cpu cur) skip.
Proof.
  intros H. split_and!; [apply ex_mach_ok|done|done|by apply ex_len|].
  intros p Hp _. by apply ex_free_proc.
Qed.

Definition ex_proc (pid : Z) (st : procstate) : proc := proc0 <| p_pid := pid |> <| p_state := st |>.
