(* ===== verification/SchedSpec.v ===== *)
(** * The schedulers: which process each policy picks

    Each pick loop walks over the table with the lock of the best candidate so far held.
    The first part follows the locks; then every loop is equated with a fold over the
    table, and the folds are shown to choose what their policy promises. *)

From S2P Require Import Prelude Riscv CString Kalloc Vm Spinlock Proc Sched ProcSpec.

(** ** Locks of the loops *)

Section locks.
Implicit Types (m : mach) (c : cpu) (l : lockid).

Lemma acq_settle m c l : acq (settle m c) (c_settle m c) l = acq m c l.
Proof.
  apply mach_eq; [done|done| |done]. simpl. change (me (settle m c)) with (me m).
  rewrite list_insert_insert_eq. f_equal. unfold c_push, c_settle.
  change (sie (settle m c)) with (sie m).
  destruct (c_noff c =? 0) eqn:E; simpl; by rewrite E.
Qed.

Lemma acq_free m c l l' : l' <> l -> lk_free m l' -> lk_free (acq m c l) l'.
Proof. intros Hne [nm E]. exists nm. by rewrite acq_other. Qed.

Lemma settle_free m c l : lk_free m l -> lk_free (settle m c) l.
Proof. intros [nm E]. by exists nm. Qed.

(** Two locks held, the second taken inside the first. *)
Definition acq2 m c l l' : mach := acq (acq m c l) (c_push m c) l'.

Lemma irq_off_idem h : irq_off (irq_off h) = irq_off h.
Proof. destruct h. unfold irq_off. simpl. by rewrite <- Z.land_assoc, Z.land_diag. Qed.

(** Releasing the outer lock leaves the inner one as if it alone had been taken. *)
Lemma rel_outer m c l l' : mach_ok m c -> l <> l' -> lk_free m l -> lk_free m l' ->
  rel (acq2 m c l l') (c_push (acq m c l) (c_push m c)) l = acq m c l'.
Proof.
  intros H Hne [nm E] [nm' E']. apply mach_eq.
  - simpl. rewrite irq_off_idem. destruct (Z.eqb_spec (c_noff c + 1 + 1) 1) as [|_]; [|done].
    destruct H; lia.
  - done.
  - simpl. change (me _) with (me m). rewrite !list_insert_insert_eq. f_equal.
    unfold c_pop, c_push. simpl. destruct (Z.eqb_spec (c_noff c + 1) 0); [destruct H; lia|].
    f_equal; lia.
  - simpl. change (me _) with (me m). apply map_eq. intros k.
    destruct (decide (k = l)) as [->|Hk].
    + rewrite lookup_alter_eq, lookup_alter_ne, lookup_alter_eq, E by done.
      rewrite lookup_alter_ne by done. by rewrite E.
    + rewrite lookup_alter_ne by done. destruct (decide (k = l')) as [->|Hk'].
      * rewrite !lookup_alter_eq. by rewrite lookup_alter_ne.
      * by rewrite !lookup_alter_ne.
Qed.

End locks.

Section steps.
Context {F : Type}.
Notation kernel := (kstate F).
Implicit Types (s : kernel) (p b : nat) (m : mach) (c : cpu).

(** The machine of a pick loop that holds the lock of [o]. *)
Definition heldm m c (o : option nat) : mach :=
  match o with None => settle m c | Some b => acq m c (LProc b) end.

Record pick_ok m c : Prop := {
  pk_ok : mach_ok m c;
  pk_noff : c_noff c + 2 < 2 ^ 31;
  pk_free : forall p, (p < NPROC)%nat -> lk_free m (LProc p)
}.

(** The loop stands before an entry with the lock of [o] held; before the first entry the
    machine may still be the one the loop started with. *)
Definition pick_at m c s (o : option nat) : Prop :=
  k_mach s = heldm m c o \/ (o = None /\ k_mach s = m).

Lemma pick_acquire m c s o p : pick_ok m c -> pick_at m c s o -> (p < NPROC)%nat ->
  (forall b, o = Some b -> (b < p)%nat) ->
  exists m1, acquire (LProc p) s = Ok tt (s <| k_mach := m1 |>) /\
    (forall s1, k_mach s1 = m1 -> release (LProc p) s1 = Ok tt (s1 <| k_mach := heldm m c o |>)) /\
    (o = None -> m1 = heldm m c (Some p)) /\
    (forall b s1, o = Some b -> k_mach s1 = m1 ->
       release (LProc b) s1 = Ok tt (s1 <| k_mach := heldm m c (Some p) |>)).
Proof.
  intros [H Hmax Hfree] Hm Hp Hb. destruct o as [b|].
  - pose proof (Hb b eq_refl) as Hlt. assert (Hne : b <> p) by lia.
    assert (Hb' : (b < NPROC)%nat) by lia. destruct Hm as [Hs|[? _]]; [|done]. simpl in Hs.
    destruct (acq_ok m c (LProc b) H ltac:(lia)) as [H1 Hme].
    assert (Hfp : lk_free (acq m c (LProc b)) (LProc p)) by (apply acq_free; [congruence|by apply Hfree]).
    exists (acq2 m c (LProc b) (LProc p)). split_and!.
    + unfold acq2. rewrite <- Hs. apply acquire_k; rewrite ?Hs; [done|simpl; lia|done].
    + intros s1 Hs1. apply on_mach_run. rewrite Hs1. simpl.
      unfold acq2. rewrite release_acq; [|done|simpl; lia|done].
      f_equal. apply settle_held; [done|]. simpl. destruct H; lia.
    + done.
    + intros b' s1 [= <-] Hs1. apply on_mach_run. rewrite Hs1. simpl.
      destruct (acq_ok _ _ (LProc p) H1 ltac:(simpl; lia)) as [H2 Hme2].
      rewrite (release_run _ (c_push (acq m c (LProc b)) (c_push m c))).
      * f_equal. apply rel_outer; [done|congruence|by apply Hfree..].
      * done.
      * unfold acq2. rewrite Hme2, Hme. destruct (acq_held m c (LProc b) (Hfree b Hb')) as [nm E].
        exists nm. rewrite acq_other by congruence. done.
      * simpl. destruct H; lia.
  - assert (Hacq : acquire (LProc p) s = Ok tt (s <| k_mach := acq m c (LProc p) |>)).
    { destruct Hm as [Hm|[_ Hm]].
      - simpl in Hm. rewrite <- acq_settle, <- Hm. apply acquire_k; rewrite ?Hm.
        + by apply settle_ok.
        + unfold c_settle. destruct (_ =? 0); simpl; lia.
        + by apply settle_free, Hfree.
      - rewrite <- Hm. apply acquire_k; rewrite ?Hm; [done|lia|by apply Hfree]. }
    exists (acq m c (LProc p)). split_and!; [done| |done|done].
    intros s1 Hs1. apply (release_k s1 m c); [done|done|lia|by apply Hfree].
Qed.

End steps.

(** ** Choosing by a strict order *)

(** The fold of a pick loop: entry [p] replaces the candidate when it is better. *)
Definition runnable (x : proc) : bool := bool_decide (p_state x = RUNNABLE).
Definition choose1 (better : proc -> proc -> bool) (ps : list proc) (p : nat) (x : proc)
    (o : option nat) : option nat :=
  if runnable x then
    match o with
    | None => Some p
    | Some b => match ps !! b with
                | Some y => if better x y then Some p else o
                | None => o
                end
    end
  else o.
Fixpoint choose (better : proc -> proc -> bool) (ps : list proc) (p n : nat) (o : option nat)
    : option nat :=
  match n with
  | O => o
  | S n' => match ps !! p with
            | Some x => choose better ps (S p) n' (choose1 better ps p x o)
            | None => o
            end
  end.

Section choose.
Context (better : proc -> proc -> bool).
Context (better_trans : forall x y z, better x y = true -> better y z = true -> better x z = true).
Context (better_neg : forall x y z, better x y = false -> better y z = false -> better x z = false).
Context (better_irr : forall x, better x x = false).

(** [o] is the best of the entries below [p], and the first of its rank. *)
Definition best_of (ps : list proc) (p : nat) (o : option nat) : Prop :=
  match o with
  | None => forall q y, (q < p)%nat -> ps !! q = Some y -> runnable y = false
  | Some b => exists x, ps !! b = Some x /\ runnable x = true /\ (b < p)%nat /\
      (forall q y, (q < p)%nat -> ps !! q = Some y -> runnable y = true -> better y x = false) /\
      (forall q y, (q < b)%nat -> ps !! q = Some y -> runnable y = true -> better x y = true)
  end.

Lemma choose1_best ps p x o : ps !! p = Some x -> best_of ps p o ->
  best_of ps (S p) (choose1 better ps p x o).
Proof.
  intros Hx Ho. unfold choose1. destruct (runnable x) eqn:Hr.
  - destruct o as [b|]; simpl in Ho.
    + destruct Ho as (y & Hy & Hry & Hb & Hmin & Hfst). rewrite Hy.
      destruct (better x y) eqn:Hxy.
      * exists x. split_and!; [done|done|lia| |].
        -- intros q z Hq Hz Hrz. destruct (decide (q = p)) as [->|]; [naive_solver|].
           destruct (better z x) eqn:Hzx; [|done].
           specialize (Hmin q z). rewrite (better_trans z x y Hzx Hxy) in Hmin. apply Hmin; [lia|done|done].
        -- intros q z Hq Hz Hrz. destruct (better x z) eqn:Hxz; [done|].
           rewrite <- Hxy. symmetry. apply (better_neg x z y); [done|]. apply (Hmin q z); [lia|done..].
      * exists y. split_and!; [done|done|lia| |done].
        intros q z Hq Hz Hrz. destruct (decide (q = p)) as [->|]; [congruence|].
        apply (Hmin q z); [lia|done..].
    + exists x. split_and!; [done|done|lia| |].
      * intros q z Hq Hz Hrz. destruct (decide (q = p)) as [->|]; [naive_solver|].
        rewrite (Ho q z) in Hrz by (lia || done). done.
      * intros q z Hq Hz Hrz. rewrite (Ho q z) in Hrz by (lia || done). done.
  - destruct o as [b|]; simpl in Ho.
    + destruct Ho as (y & Hy & Hry & Hb & Hmin & Hfst). exists y. split_and!; [done|done|lia| |done].
      intros q z Hq Hz Hrz. destruct (decide (q = p)) as [->|]; [congruence|].
      apply (Hmin q z); [lia|done..].
    + intros q z Hq Hz. destruct (decide (q = p)) as [->|]; [congruence|]. apply (Ho q z); [lia|done].
Qed.

Lemma choose_best ps n : forall p o, (p + n = length ps)%nat -> best_of ps p o ->
  best_of ps (length ps) (choose better ps p n o).
Proof.
  induction n as [|n IH]; intros p o Hp Ho; simpl.
  - by replace (length ps) with p by lia.
  - destruct (lookup_lt_is_Some_2 ps p) as [x Hx]; [lia|]. rewrite Hx.
    apply IH; [lia|]. by apply choose1_best.
Qed.

End choose.

(** ** The loops are folds *)

Section loops.
Context {F : Type}.
Notation kernel := (kstate F).
Implicit Types (s : kernel) (p b n : nat) (m : mach) (c : cpu).

(** One iteration of a pick loop: entry [p] is locked, and the lock of the loser is dropped. *)
Lemma pick_step m c s o p : pick_ok m c -> pick_at m c s o -> (p < NPROC)%nat ->
  (forall b, o = Some b -> (b < p)%nat) ->
  exists s1, acquire (LProc p) s = Ok tt s1 /\ k_procs s1 = k_procs s /\ k_ticks s1 = k_ticks s /\
    release (LProc p) s1 = Ok tt (s <| k_mach := heldm m c o |>) /\
    (match o with None => mret tt | Some b => release (LProc b) end) s1 =
      Ok tt (s <| k_mach := heldm m c (Some p) |>).
Proof.
  intros Hok Hat Hp Hb. destruct (pick_acquire m c s o p) as (m1 & E & Hrel & Hn & Hs); [done..|].
  exists (s <| k_mach := m1 |>). split_and!; [done..| |].
  - by rewrite Hrel.
  - destruct o as [b|]; [by rewrite (Hs b)|]. unfold mret. by rewrite Hn.
Qed.

Lemma choose1_lt better (ps : list proc) p x o : (forall b, o = Some b -> (b < p)%nat) ->
  forall b, choose1 better ps p x o = Some b -> (b < S p)%nat.
Proof.
  intros Ho b. unfold choose1. destruct (runnable x).
  - destruct o as [b'|]; [|intros [= <-]; lia]. specialize (Ho b' eq_refl).
    destruct (ps !! b'); [destruct (better _ _)|]; intros [= <-]; lia.
  - intros E. specialize (Ho b E). lia.
Qed.

(** A loop whose iterations choose with [better] is the fold. *)
Lemma pick_loop (better : proc -> proc -> bool) (loop : nat -> nat -> option nat -> M kernel (option nat))
    (ps : list proc) m c :
  pick_ok m c -> length ps = NPROC -> (forall p o, loop p O o = mret o) ->
  (forall p n s o x, k_procs s = ps -> ps !! p = Some x -> pick_at m c s o -> (p < NPROC)%nat ->
     (forall b, o = Some b -> (b < p)%nat) ->
     loop p (S n) o s = loop (S p) n (choose1 better ps p x o)
       (s <| k_mach := heldm m c (choose1 better ps p x o) |>)) ->
  forall n p s o, k_procs s = ps -> pick_at m c s o -> (p + S n = NPROC)%nat ->
    (forall b, o = Some b -> (b < p)%nat) ->
    loop p (S n) o s = Ok (choose better ps p (S n) o)
      (s <| k_mach := heldm m c (choose better ps p (S n) o) |>).
Proof.
  intros Hok Hlen H0 Hstep. induction n as [|n IH]; intros p s o Hps Hat Hp Hb;
    (destruct (lookup_lt_is_Some_2 ps p) as [x Hx]; [lia|]);
    rewrite (Hstep p _ s o x) by (done || lia).
  - rewrite H0. simpl. by rewrite Hx.
  - rewrite IH; [|done|by left|lia|by apply choose1_lt].
    cbn [choose]. rewrite Hx. done.
Qed.

Lemma bind_some {A B} (a : A) (k : A -> M kernel B) s : mbind (mlookup (Some a)) k s = k a s.
Proof. done. Qed.
Lemma bind_ret {A B} (a : A) (k : A -> M kernel B) s : mbind (mret a) k s = k a s.
Proof. done. Qed.

(** *** FCFS *)

Definition older (x y : proc) : bool := p_creationTime x <? p_creationTime y.

Lemma fcfs_pick_run m c s : pick_ok m c -> k_mach s = m -> length (k_procs s) = NPROC ->
  fcfs_pick 0 NPROC None s =
  Ok (choose older (k_procs s) 0 NPROC None)
    (s <| k_mach := heldm m c (choose older (k_procs s) 0 NPROC None) |>).
Proof.
  intros Hok Hm Hlen. apply (pick_loop older fcfs_pick (k_procs s)); [done|done|done| |done|by right|done|done].
  clear Hm. revert Hlen. generalize (k_procs s) as ps. clear s. intros ps Hlen p n s o x <- Hx Hat Hp Hb.
  cbn [fcfs_pick].
  destruct (pick_step m c s o p) as (s1 & E & Hps & _ & Hlose & Hwin); [done..|].
  rewrite (bind_ok _ _ _ _ _ E). assert (Hx1 : k_procs s1 !! p = Some x) by (by rewrite Hps).
  rewrite (bind_ok _ _ _ _ _ (proc_get_run p_state s1 p x Hx1)).
  unfold choose1, runnable. case_decide as Hr; [|rewrite bool_decide_false by done;
    by rewrite (bind_ok _ _ _ _ _ Hlose)].
  rewrite bool_decide_true by done.
  rewrite (bind_ok _ _ _ _ _ (proc_get_run p_creationTime s1 p x Hx1)).
  destruct o as [b|]; [|by rewrite bind_ret, (bind_ok _ _ _ _ _ Hwin)].
  destruct (lookup_lt_is_Some_2 (k_procs s) b) as [y Hy]; [specialize (Hb b eq_refl); lia|].
  rewrite Hy. rewrite <- Hps in Hy. unfold mbind at 1.
  rewrite (bind_ok _ _ _ _ _ (proc_get_run p_creationTime s1 b y Hy)). unfold mret at 1. fold (older x y).
  destruct (older x y); [by rewrite (bind_ok _ _ _ _ _ Hwin)|by rewrite (bind_ok _ _ _ _ _ Hlose)].
Qed.

(** *** PBS *)

Definition pbs_better (x y : proc) : bool :=
  (processDp x <? processDp y) ||
  ((processDp x =? processDp y) && (p_numOfScheduled x <? p_numOfScheduled y)).

Lemma processDp_range x : 0 <= processDp x <= 100.
Proof.
  unfold processDp. set (v := i32 _). destruct (Z.ltb_spec v 100).
  - destruct (Z.ltb_spec v 0); lia.
  - simpl. lia.
Qed.

(** The priority the loop carries is the one of its candidate. *)
Definition carried (ps : list proc) (o : option nat) : Z :=
  match o with Some b => from_option processDp 0 (ps !! b) | None => 999 end.

Lemma pbs_pick_run m c s : pick_ok m c -> k_mach s = m -> length (k_procs s) = NPROC ->
  pbs_pick 0 NPROC 999 None s =
  Ok (choose pbs_better (k_procs s) 0 NPROC None)
    (s <| k_mach := heldm m c (choose pbs_better (k_procs s) 0 NPROC None) |>).
Proof.
  intros Hok Hm Hlen.
  apply (pick_loop pbs_better (fun p n o => pbs_pick p n (carried (k_procs s) o) o) (k_procs s) m c)
    with (n := 63%nat) (p := 0%nat) (o := None);
    [done|done|done| |done|by right|done|done].
  clear Hm. revert Hlen. generalize (k_procs s) as ps. clear s. intros ps Hlen p n s o x <- Hx Hat Hp Hb.
  cbn [pbs_pick].
  destruct (pick_step m c s o p) as (s1 & E & Hps & _ & Hlose & Hwin); [done..|].
  rewrite (bind_ok _ _ _ _ _ E). assert (Hx1 : k_procs s1 !! p = Some x) by (by rewrite Hps).
  rewrite (bind_ok _ _ _ _ _ (proc_get_run processDp s1 p x Hx1)).
  pose proof (processDp_range x) as Hdp. unfold choose1. destruct o as [b|]; cbn [carried].
  - destruct (lookup_lt_is_Some_2 (k_procs s) b) as [y Hy]; [specialize (Hb b eq_refl); lia|].
    rewrite Hy. cbn [from_option]. rewrite <- Hps in Hy.
    set (eqp := processDp y =? processDp x). set (fewer := p_numOfScheduled x <? p_numOfScheduled y).
    rewrite (bind_ok _ _ _ (eqp && fewer) s1).
    2: { unfold eqp, fewer. destruct (_ =? _); [|done]. by rewrite bind_some, (bind_ok _ _ _ _ _ (proc_get_run _ s1 _ _ Hx1)),
           (bind_ok _ _ _ _ _ (proc_get_run _ s1 _ _ Hy)). }
    rewrite (bind_ok _ _ _ (eqp && fewer && (p_creationTime x <? p_creationTime y)) s1).
    2: { destruct (eqp && fewer); [|done]. by rewrite bind_some, (bind_ok _ _ _ _ _ (proc_get_run _ s1 _ _ Hx1)),
           (bind_ok _ _ _ _ _ (proc_get_run _ s1 _ _ Hy)). }
    rewrite (bind_ok _ _ _ _ _ (proc_get_run p_state s1 p x Hx1)).
    unfold runnable. case_decide as Hr; [|rewrite bool_decide_false by done;
      rewrite (bind_ok _ _ _ _ _ Hlose); simpl; by rewrite <- Hps, Hy].
    rewrite bool_decide_true by done. cbn [orb].
    assert (((processDp x <? processDp y) || (eqp && fewer) ||
      (eqp && fewer && (p_creationTime x <? p_creationTime y))) = pbs_better x y) as ->.
    { unfold pbs_better. fold fewer. rewrite (Z.eqb_sym (processDp x)). fold eqp.
      destruct (eqp && fewer), (processDp x <? processDp y); simpl; try done. }
    destruct (pbs_better x y).
    + rewrite (bind_ok _ _ _ _ _ Hwin). simpl. by rewrite Hx.
    + rewrite (bind_ok _ _ _ _ _ Hlose). simpl. by rewrite <- Hps, Hy.
  - destruct (Z.eqb_spec 999 (processDp x)); [lia|]. rewrite !bind_ret.
    rewrite (bind_ok _ _ _ _ _ (proc_get_run p_state s1 p x Hx1)).
    unfold runnable. case_decide as Hr.
    + rewrite bool_decide_true by done. cbn [orb]. rewrite (bind_ok _ _ _ _ _ Hwin). simpl. by rewrite Hx.
    + rewrite bool_decide_false by done. by rewrite (bind_ok _ _ _ _ _ Hlose).
Qed.

End loops.

(** ** One turn *)

Section turns.
Context {F : Type}.
Notation kernel := (kstate F).
Implicit Types (s : kernel) (p q n : nat) (m : mach) (c : cpu).

(** The scheduler between two processes: no lock held on this CPU, none held elsewhere. *)
Record sched_ready s c : Prop := {
  sr_ok : mach_ok (k_mach s) c;
  sr_noff : c_noff c = 0;
  sr_len : length (k_procs s) = NPROC;
  sr_free : forall p, (p < NPROC)%nat -> lk_free (k_mach s) (LProc p)
}.

(** [s'] is [s] with the CPU switched to process [p], which is now [y]: its lock is held,
    the registers are its own, and the scheduler's are saved in the CPU struct. *)
Record switched_to s s' p (y : proc) : Prop := {
  sw_procs : k_procs s' = <[p := y]> (k_procs s);
  sw_regs : m_regs (k_mach s') = p_context y;
  sw_cpu : exists c', mach_ok (k_mach s') c' /\ c_proc c' = Some p /\ c_noff c' = 1 /\
             c_intena c' = 1 /\ c_context c' = m_regs (k_mach s);
  sw_lock : lk_held (k_mach s') (LProc p) (me (k_mach s));
  sw_free : forall q, (q < NPROC)%nat -> q <> p -> lk_free (k_mach s') (LProc q);
  sw_rest : k_phys s' = k_phys s /\ k_files s' = k_files s /\ k_queues s' = k_queues s /\
            k_ticks s' = k_ticks s
}.
(** The turn found nothing to run. *)
Record stayed s s' : Prop := {
  st_procs : k_procs s' = k_procs s;
  st_ready : exists c', sched_ready s' c';
  st_rest : k_phys s' = k_phys s /\ k_files s' = k_files s /\ k_queues s' = k_queues s /\
            k_ticks s' = k_ticks s
}.

Lemma irq_on_range x : 0 <= x < 2 ^ 64 -> 0 <= Z.lor x SSTATUS_SIE < 2 ^ 64.
Proof.
  intros Hx. rewrite <- (Z.mod_small x (2 ^ 64)), <- (Z.mod_small SSTATUS_SIE (2 ^ 64)) by done.
  rewrite <- !Z.land_ones, <- Z.land_lor_distr_l, Z.land_ones by lia. by apply Z.mod_pos_bound.
Qed.

Lemma turn_start_run s c : sched_ready s c ->
  exists m, turn_start s = Ok tt (s <| k_mach := m |>) /\ pick_ok m c /\ sie m = true /\
    m_regs m = m_regs (k_mach s) /\ me m = me (k_mach s).
Proof.
  intros [H Hn Hlen Hf]. set (m := k_mach s <| m_hart ::= irq_on |>). exists m. split_and!.
  - apply on_mach_run. by destruct (k_mach s).
  - split; [|lia|].
    + apply (mach_ok_update (k_mach s) c); [done|done| |apply H|lia|].
      * symmetry. apply list_insert_id, H.
      * apply irq_on_range, H.
    + intros p Hp. destruct (Hf p Hp) as [nm E]. by exists nm.
  - unfold sie. rewrite testbit_SIE.
    change (h_sstatus (m_hart m)) with (Z.lor (h_sstatus (m_hart (k_mach s))) SSTATUS_SIE).
    rewrite Z.lor_spec. apply orb_true_r.
  - done.
  - done.
Qed.

(** What every policy does with its choice. *)
Definition dispatch p (f : proc -> proc) : M kernel (option nat) :=
  proc_set p f ;;; set_cproc (Some p) ;;; swtch_to_proc p ;;; mret (Some p).

Lemma dispatch_run s0 s m c p x f : pick_ok m c -> sie m = true -> c_noff c = 0 ->
  m_regs m = m_regs (k_mach s0) -> me m = me (k_mach s0) -> (p < NPROC)%nat ->
  k_mach s = heldm m c (Some p) -> k_procs s = k_procs s0 -> k_procs s !! p = Some x ->
  k_phys s = k_phys s0 /\ k_files s = k_files s0 /\ k_queues s = k_queues s0 /\ k_ticks s = k_ticks s0 ->
  exists s', dispatch p f s = Ok (Some p) s' /\ switched_to s0 s' p (f x) /\ k_seed s' = k_seed s.
Proof.
  intros [H Hmax Hfree] Hsie Hn Hregs Hme Hp Hm Hps Hx Hrest. simpl in Hm.
  destruct (acq_ok m c (LProc p) H ltac:(lia)) as [H1 Hme1].
  unfold dispatch. rewrite (bind_ok _ _ _ _ _ (proc_set_run f s p x Hx)).
  set (s1 := s <| k_procs := _ |>).
  assert (Hx1 : k_procs s1 !! p = Some (f x)) by (by eapply lookup_updated).
  set (c1 := c_push m c <| c_proc := Some p |>).
  set (m1 := acq m c (LProc p) <| m_cpus ::= insert (me m) c1 |>).
  assert (H2 : mach_ok m1 c1).
  { apply (mach_ok_update (acq m c (LProc p)) (c_push m c)); [done|done|by rewrite Hme1|apply H1..]. }
  rewrite (bind_ok _ _ _ tt (s1 <| k_mach := m1 |>)).
  2: { apply on_mach_run. change (k_mach s1) with (k_mach s). rewrite Hm.
       rewrite (cpu_set_run _ _ _ H1), Hme1. done. }
  set (s2 := s1 <| k_mach := m1 |>). unfold swtch_to_proc.
  set (c2 := c1 <| c_context := m_regs m |>).
  set (m2 := m1 <| m_cpus ::= insert (me m) c2 |>).
  set (s3 := s2 <| k_mach := m2 <| m_regs := p_context (f x) |> |>).
  exists s3. split; [|split; [|done]].
  - rewrite (bind_ok _ _ _ tt s3); [done|].
    rewrite (bind_ok _ _ _ (m_regs m) s2) by done.
    rewrite (bind_ok _ _ _ _ _ (proc_get_run p_context s2 p (f x) Hx1)).
    rewrite (bind_ok _ _ _ tt (s2 <| k_mach := m2 |>)); [done|].
    apply on_mach_run. change (k_mach s2) with m1. rewrite (cpu_set_run _ m1 c1 H2).
    by change (me m1) with (me m).
  - split.
    + simpl. by rewrite Hps.
    + done.
    + exists c2. assert (Hok2 : mach_ok m2 c2).
      { apply (mach_ok_update m1 c1); [done|done|done|apply H2..]. }
      split_and!; [by split; apply Hok2|done|simpl; lia| |done].
      simpl. rewrite Hn, Hsie. done.
    + rewrite <- Hme. destruct (acq_held m c (LProc p) (Hfree p Hp)) as [nm E]. by exists nm.
    + intros q Hq Hne. destruct (Hfree q Hq) as [nm E]. exists nm. simpl.
      rewrite lookup_alter_ne by congruence. done.
    + done.
Qed.


Lemma settled_stays s0 s m c : pick_ok m c -> c_noff c = 0 -> length (k_procs s0) = NPROC ->
  k_mach s = settle m c -> k_procs s = k_procs s0 ->
  k_phys s = k_phys s0 /\ k_files s = k_files s0 /\ k_queues s = k_queues s0 /\ k_ticks s = k_ticks s0 ->
  stayed s0 s.
Proof.
  intros [H Hmax Hfree] Hn Hlen Hm Hps Hrest. split; [done| |done].
  exists (c_settle m c). split; rewrite ?Hm, ?Hps; [by apply settle_ok| |done|].
  - unfold c_settle. by destruct (_ =? 0).
  - intros p Hp. by apply settle_free, Hfree.
Qed.

(** *** Scans that stop at the first hit *)

Fixpoint find_first (hit : proc -> bool) (ps : list proc) (p n : nat) : option nat :=
  match n with
  | O => None
  | S n' => match ps !! p with
            | Some x => if hit x then Some p else find_first hit ps (S p) n'
            | None => None
            end
  end.

Lemma find_first_spec hit (ps : list proc) n : forall p, (p + n = length ps)%nat ->
  match find_first hit ps p n with
  | Some q => exists x, ps !! q = Some x /\ hit x = true /\ (p <= q < length ps)%nat /\
                forall k y, (p <= k < q)%nat -> ps !! k = Some y -> hit y = false
  | None => forall k y, (p <= k)%nat -> ps !! k = Some y -> hit y = false
  end.
Proof.
  induction n as [|n IH]; intros p Hp; simpl.
  - intros k y Hk Hy. apply lookup_lt_Some in Hy. lia.
  - destruct (lookup_lt_is_Some_2 ps p) as [x Hx]; [lia|]. rewrite Hx.
    destruct (hit x) eqn:Hh; [exists x; split_and!; [done|done|lia|lia|intros; lia]|].
    specialize (IH (S p) ltac:(lia)). destruct (find_first hit ps (S p) n) as [q|].
    + destruct IH as (y & Hy & Hhy & Hq & Hbef). exists y. split_and!; [done|done|lia|lia|].
      intros k z Hk Hz. destruct (decide (k = p)) as [->|]; [congruence|]. apply (Hbef k z); [lia|done].
    + intros k z Hk Hz. destruct (decide (k = p)) as [->|]; [congruence|]. apply (IH k z); [lia|done].
Qed.

(** A loop that locks each entry, keeps the lock of the first hit and goes on with [found]. *)
Lemma scan_loop (hit : proc -> bool) (loop : nat -> nat -> M kernel (option nat))
    (found : nat -> M kernel (option nat)) (ps : list proc) m c :
  pick_ok m c -> length ps = NPROC -> (forall p, loop p O = mret None) ->
  (forall p n s x s1, k_procs s = ps -> ps !! p = Some x -> acquire (LProc p) s = Ok tt s1 ->
     k_procs s1 = ps ->
     loop p (S n) s = if hit x then found p s1 else (release (LProc p) ;;; loop (S p) n) s1) ->
  forall n p s, k_procs s = ps -> pick_at m c s None -> (p + S n = NPROC)%nat ->
    loop p (S n) s =
    match find_first hit ps p (S n) with
    | Some q => found q (s <| k_mach := heldm m c (Some q) |>)
    | None => Ok None (s <| k_mach := settle m c |>)
    end.
Proof.
  intros Hok Hlen H0 Hstep. induction n as [|n IH]; intros p s Hps Hat Hp;
    (destruct (lookup_lt_is_Some_2 ps p) as [x Hx]; [lia|]);
    (destruct (pick_step m c s None p) as (s1 & E & Hps1 & _ & Hlose & Hwin); [done|done|lia|done|]);
    rewrite (Hstep p _ s x s1) by congruence; cbn [find_first]; rewrite Hx;
    (destruct (hit x); [injection Hwin as ->; done|]); rewrite (bind_ok _ _ _ _ _ Hlose).
  - by rewrite H0.
  - rewrite IH; [|done|by left|lia]. done.
Qed.

Definition run (x : proc) : proc := x <| p_state := RUNNING |>.

Lemma rr_from_run m c s p n : pick_ok m c -> pick_at m c s None -> length (k_procs s) = NPROC ->
  (p + S n = NPROC)%nat ->
  rr_from p (S n) s =
  match find_first runnable (k_procs s) p (S n) with
  | Some q => dispatch q run (s <| k_mach := heldm m c (Some q) |>)
  | None => Ok None (s <| k_mach := settle m c |>)
  end.
Proof.
  intros Hok Hat Hlen Hp. apply (scan_loop runnable rr_from (fun q => dispatch q run)); [done..| |done|done|done].
  clear Hat Hp p n. revert Hlen. generalize (k_procs s) as ps. clear s.
  intros ps Hlen p n s x s1 Hps Hx E Hps1. cbn [rr_from]. rewrite (bind_ok _ _ _ _ _ E).
  rewrite (bind_ok _ _ _ _ _ (proc_get_run p_state s1 p x ltac:(congruence))).
  unfold runnable. case_decide; [by rewrite bool_decide_true|by rewrite bool_decide_false].
Qed.

(** *** LBS *)

Definition ticketed (x : proc) : bool := runnable x && (0 <? p_tickets x).

(** The seed stays a two-digit number, and 99 is not the square of one: the draw is 0. *)
Lemma getrand_zero s tot : 0 <= k_seed s < 100 ->
  exists seed', getrand tot s = Ok 0 (s <| k_seed := seed' |>) /\ 0 <= seed' < 100.
Proof.
  intros Hs. exists (Z.rem (k_seed s * k_seed s) 100).
  assert (Hb : 0 <= k_seed s * k_seed s < 2 ^ 31) by nia.
  unfold getrand, mbind, gets, modify, mret. rewrite (i32_small (k_seed s * k_seed s)) by lia.
  rewrite Z.rem_mod_nonneg by lia. pose proof (Z.mod_pos_bound (k_seed s * k_seed s) 100 ltac:(lia)).
  assert (Hne : (k_seed s * k_seed s) mod 100 <> 99).
  { intros E. pose proof (Z.div_mod (k_seed s * k_seed s) 100 ltac:(lia)) as Hd. rewrite E in Hd.
    pose proof (Z.div_mod (k_seed s) 2 ltac:(lia)) as Hd2.
    pose proof (Z.mod_pos_bound (k_seed s) 2 ltac:(lia)).
    set (a := k_seed s / 2) in *. set (r := k_seed s mod 2) in *. set (t := k_seed s * k_seed s / 100) in *.
    assert (k_seed s * k_seed s = 4 * (a * a + a * r) + r * r) by (rewrite Hd2; ring).
    assert (r = 0 \/ r = 1) as [-> | ->] by lia; lia. }
  rewrite Z.quot_small by lia. done.
Qed.

Lemma lbs_total_run n : forall s p tot, length (k_procs s) = NPROC -> (p + n = NPROC)%nat ->
  exists t, lbs_total p n tot s = Ok t s.
Proof.
  induction n as [|n IH]; intros s p tot Hlen Hp; cbn [lbs_total]; [by eexists|].
  destruct (lookup_lt_is_Some_2 (k_procs s) p) as [x Hx]; [lia|].
  rewrite (bind_ok _ _ _ _ _ (proc_get_run p_state s p x Hx)).
  rewrite (bind_ok _ _ _ _ _ (proc_get_run p_tickets s p x Hx)). apply IH; [done|lia].
Qed.

Lemma lbs_pick_run m c s : pick_ok m c -> pick_at m c s None -> length (k_procs s) = NPROC ->
  (forall p x, k_procs s !! p = Some x -> 0 <= p_tickets x < 2 ^ 31) ->
  lbs_pick 0 NPROC 0 0 s =
  match find_first ticketed (k_procs s) 0 NPROC with
  | Some q => Ok (Some q) (s <| k_mach := heldm m c (Some q) |>)
  | None => Ok None (s <| k_mach := settle m c |>)
  end.
Proof.
  intros Hok Hat Hlen. pose proof Hlen as Hlen0.
  intros Ht. apply (scan_loop ticketed (fun p n => lbs_pick p n 0 0) (fun q => mret (Some q)))
    with (n := 63%nat) (p := 0%nat); [done..| |done|done|done].
  clear Hat Hlen0. revert Hlen Ht. generalize (k_procs s) as ps. clear s.
  intros ps Hlen Ht p n s x s1 Hps Hx E Hps1. cbn [lbs_pick]. rewrite (bind_ok _ _ _ _ _ E).
  rewrite (bind_ok _ _ _ _ _ (proc_get_run p_state s1 p x ltac:(congruence))).
  unfold ticketed, runnable. case_decide; [|by rewrite bool_decide_false].
  rewrite bool_decide_true by done. cbn [andb].
  rewrite (bind_ok _ _ _ _ _ (proc_get_run p_tickets s1 p x ltac:(congruence))).
  specialize (Ht p x Hx). rewrite Z.add_0_l, i32_small by lia.
  destruct (Z.ltb_spec 0 (p_tickets x)); [done|]. by replace (p_tickets x) with 0 by lia.
Qed.


(** *** The turns of the policies *)

Lemma older_best (ps : list proc) : length ps = NPROC ->
  best_of older ps NPROC (choose older ps 0 NPROC None).
Proof.
  intros Hlen. rewrite <- Hlen at 1. apply choose_best; [| | | |].
  - unfold older. intros x y z H1%Z.ltb_lt H2%Z.ltb_lt. apply Z.ltb_lt. lia.
  - unfold older. intros x y z H1%Z.ltb_ge H2%Z.ltb_ge. apply Z.ltb_ge. lia.
  - unfold older. intros x. apply Z.ltb_irrefl.
  - lia.
  - intros q y Hq. lia.
Qed.

Lemma pbs_better_true x y : pbs_better x y = true <->
  processDp x < processDp y \/ (processDp x = processDp y /\ p_numOfScheduled x < p_numOfScheduled y).
Proof.
  unfold pbs_better. rewrite orb_true_iff, andb_true_iff, !Z.ltb_lt, Z.eqb_eq. done.
Qed.
Lemma pbs_better_false x y : pbs_better x y = false <->
  processDp y < processDp x \/ (processDp x = processDp y /\ p_numOfScheduled y <= p_numOfScheduled x).
Proof.
  rewrite <- not_true_iff_false, pbs_better_true. lia.
Qed.

Lemma pbs_best (ps : list proc) : length ps = NPROC ->
  best_of pbs_better ps NPROC (choose pbs_better ps 0 NPROC None).
Proof.
  intros Hlen. rewrite <- Hlen at 1. apply choose_best.
  - intros x y z. rewrite !pbs_better_true. lia.
  - intros x y z. rewrite !pbs_better_false. lia.
  - intros x. rewrite pbs_better_false. lia.
  - lia.
  - intros q y Hq. lia.
Qed.

Lemma runnable_true x : runnable x = true <-> p_state x = RUNNABLE.
Proof. unfold runnable. by rewrite bool_decide_eq_true. Qed.
Lemma runnable_false x : runnable x = false <-> p_state x <> RUNNABLE.
Proof. unfold runnable. by rewrite bool_decide_eq_false. Qed.

(** A turn of the round-robin scheduler switches to the first RUNNABLE process of the
    table, which becomes RUNNING with its lock held; it returns with every lock free and
    the table unchanged when there is none. *)
Theorem rr_turn_first s c : sched_ready s c ->
  (exists p x s', k_procs s !! p = Some x /\ p_state x = RUNNABLE /\
     (forall q y, (q < p)%nat -> k_procs s !! q = Some y -> p_state y <> RUNNABLE) /\
     rr_turn s = Ok (Some p) s' /\ switched_to s s' p (x <| p_state := RUNNING |>)) \/
  ((forall q y, k_procs s !! q = Some y -> p_state y <> RUNNABLE) /\
   exists s', rr_turn s = Ok None s' /\ stayed s s').
Proof.
  intros Hs. destruct (turn_start_run s c Hs) as (m & E & Hok & Hsie & Hregs & Hme).
  destruct Hs as [H Hn Hlen Hfree]. unfold rr_turn. rewrite (bind_ok _ _ _ _ _ E).
  set (s1 := s <| k_mach := m |>).
  change NPROC with (S 63). rewrite (rr_from_run m c s1); [|done|by right|done|done].
  change (S 63) with NPROC. change (k_procs s1) with (k_procs s).
  pose proof (find_first_spec runnable (k_procs s) NPROC 0 ltac:(lia)) as Hf.
  destruct (find_first runnable (k_procs s) 0 NPROC) as [p|].
  - left. destruct Hf as (x & Hx & Hr & Hp & Hbef). apply runnable_true in Hr.
    destruct (dispatch_run s (s1 <| k_mach := heldm m c (Some p) |>) m c p x run)
      as (s' & E' & Hsw & Hseed1); [done..|lia|done|done|done|done|].
    exists p, x, s'. split_and!; [done|done| |done|done].
    intros q y Hq Hy. apply runnable_false, (Hbef q); [lia|done].
  - right. split; [intros q y Hy; apply runnable_false, (Hf q); [lia|done]|].
    eexists. split; [done|]. by apply (settled_stays _ _ m c).
Qed.

(** C27. A turn of the priority scheduler switches to a RUNNABLE process whose dynamic
    priority is minimal, the least often scheduled one among those, and the first of the
    table among those: its run and sleep times are reset, and it is counted. *)
Theorem pbs_turn_best s c : sched_ready s c ->
  (exists p x s', k_procs s !! p = Some x /\ p_state x = RUNNABLE /\
     (forall q y, k_procs s !! q = Some y -> p_state y = RUNNABLE ->
        processDp x < processDp y \/
        (processDp x = processDp y /\ p_numOfScheduled x < p_numOfScheduled y) \/
        (processDp x = processDp y /\ p_numOfScheduled x = p_numOfScheduled y /\ (p <= q)%nat)) /\
     pbs_turn s = Ok (Some p) s' /\
     switched_to s s' p (x <| p_run_time := 0 |> <| p_sleep_time := 0 |>
       <| p_numOfScheduled := i32 (p_numOfScheduled x + 1) |> <| p_state := RUNNING |>
       <| p_st_time := i32 (k_ticks s) |>)) \/
  ((forall q y, k_procs s !! q = Some y -> p_state y <> RUNNABLE) /\
   exists s', pbs_turn s = Ok None s' /\ stayed s s').
Proof.
  intros Hs. destruct (turn_start_run s c Hs) as (m & E & Hok & Hsie & Hregs & Hme).
  destruct Hs as [H Hn Hlen Hfree]. unfold pbs_turn. rewrite (bind_ok _ _ _ _ _ E).
  set (s1 := s <| k_mach := m |>).
  rewrite (bind_ok _ _ _ _ _ (pbs_pick_run m c s1 Hok eq_refl Hlen)).
  change (k_procs s1) with (k_procs s).
  pose proof (pbs_best (k_procs s) Hlen) as Hb.
  destruct (choose pbs_better (k_procs s) 0 NPROC None) as [p|]; simpl in Hb.
  - left. destruct Hb as (x & Hx & Hr & Hp & Hmin & Hfst). apply runnable_true in Hr.
    set (f := fun x : proc => x <| p_run_time := 0 |> <| p_sleep_time := 0 |>
        <| p_numOfScheduled ::= fun k => i32 (k + 1) |> <| p_state := RUNNING |>
        <| p_st_time := i32 (k_ticks s) |>).
    destruct (dispatch_run s (s1 <| k_mach := heldm m c (Some p) |>) m c p x f)
      as (s' & E' & Hsw & Hseed1); [done..|].
    exists p, x, s'. split_and!; [done|done| |done|done].
    intros q y Hy Hry%runnable_true.
    assert (Hq : (q < NPROC)%nat) by (apply lookup_lt_Some in Hy; lia).
    pose proof (Hmin q y Hq Hy Hry) as H1%pbs_better_false.
    destruct (decide (p <= q)%nat); [lia|].
    pose proof (Hfst q y ltac:(lia) Hy Hry) as H2%pbs_better_true. lia.
  - right. split.
    + intros q y Hy. apply runnable_false, (Hb q); [apply lookup_lt_Some in Hy; lia|done].
    + eexists. split; [done|]. by apply (settled_stays _ _ m c).
Qed.

(** The lottery scheduler does not draw: with the seeds it can reach (two-digit
    numbers) and no negative ticket counts, every turn switches to the first RUNNABLE process
    of the table that has a ticket. *)
Theorem lbs_turn_first s c : sched_ready s c -> 0 <= k_seed s < 100 ->
  (forall p x, k_procs s !! p = Some x -> 0 <= p_tickets x < 2 ^ 31) ->
  (exists p x s', k_procs s !! p = Some x /\ p_state x = RUNNABLE /\ 0 < p_tickets x /\
     (forall q y, (q < p)%nat -> k_procs s !! q = Some y -> p_state y = RUNNABLE -> p_tickets y = 0) /\
     lbs_turn s = Ok (Some p) s' /\ switched_to s s' p (x <| p_state := RUNNING |>) /\
     0 <= k_seed s' < 100) \/
  ((forall q y, k_procs s !! q = Some y -> p_state y = RUNNABLE -> p_tickets y = 0) /\
   exists s', lbs_turn s = Ok None s' /\ stayed s s' /\ 0 <= k_seed s' < 100).
Proof.
  intros Hs Hseed Ht. destruct (turn_start_run s c Hs) as (m & E & Hok & Hsie & Hregs & Hme).
  destruct Hs as [H Hn Hlen Hfree]. unfold lbs_turn. rewrite (bind_ok _ _ _ _ _ E).
  set (s1 := s <| k_mach := m |>).
  destruct (lbs_total_run NPROC s1 0 0 Hlen eq_refl) as [tot Etot].
  rewrite (bind_ok _ _ _ _ _ Etot).
  destruct (getrand_zero s1 tot Hseed) as (seed' & Erand & Hseed').
  rewrite (bind_ok _ _ _ _ _ Erand).
  set (s2 := s1 <| k_seed := seed' |>).
  pose proof (lbs_pick_run m c s2 Hok ltac:(by right) Hlen Ht) as Epick.
  change (k_procs s2) with (k_procs s) in Epick.
  pose proof (find_first_spec ticketed (k_procs s) NPROC 0 ltac:(lia)) as Hf.
  assert (Hno : forall q y, k_procs s !! q = Some y -> ticketed y = false ->
    p_state y = RUNNABLE -> p_tickets y = 0).
  { intros q y Hy Hty Hry%runnable_true. specialize (Ht q y Hy). unfold ticketed in Hty.
    rewrite Hry in Hty. apply Z.ltb_ge in Hty. lia. }
  destruct (find_first ticketed (k_procs s) 0 NPROC) as [p|]; rewrite (bind_ok _ _ _ _ _ Epick).
  - left. destruct Hf as (x & Hx & Hr & Hp & Hbef). apply andb_true_iff in Hr as [Hr Htk%Z.ltb_lt].
    apply runnable_true in Hr.
    destruct (dispatch_run s (s2 <| k_mach := heldm m c (Some p) |>) m c p x run)
      as (s' & E' & Hsw & Hseed1); [done..|lia|done|done|done|done|].
    exists p, x, s'. split_and!; try done; try lia.
    + intros q y Hq Hy. apply (Hno q); [done|]. apply (Hbef q); [lia|done].
    + rewrite Hseed1. apply Hseed'.
    + rewrite Hseed1. apply Hseed'.
  - right. split; [intros q y Hy; apply (Hno q); [done|]; apply (Hf q); [lia|done]|].
    eexists. split; [done|]. split; [by apply (settled_stays _ _ m c)|done].
Qed.

(** The first-come-first-served scheduler chooses the oldest RUNNABLE process, the first
    of the table among equally old ones, but never gets to run it: after the loop
    [newProcess->numOfScheduled++] goes through a pointer one past the table.  Without a
    RUNNABLE process the turn ends as it should. *)
Theorem fcfs_turn_faults s c : sched_ready s c ->
  (exists p x s', k_procs s !! p = Some x /\ p_state x = RUNNABLE /\
     (forall q y, k_procs s !! q = Some y -> p_state y = RUNNABLE ->
        p_creationTime x < p_creationTime y \/
        (p_creationTime x = p_creationTime y /\ (p <= q)%nat)) /\
     (turn_start ;;; fcfs_pick 0 NPROC None) s = Ok (Some p) s' /\ k_procs s' = k_procs s /\
     lk_held (k_mach s') (LProc p) (me (k_mach s)) /\
     fcfs_turn s = Err Fault) \/
  ((forall q y, k_procs s !! q = Some y -> p_state y <> RUNNABLE) /\
   exists s', fcfs_turn s = Ok None s' /\ stayed s s').
Proof.
  intros Hs. destruct (turn_start_run s c Hs) as (m & E & Hok & Hsie & Hregs & Hme).
  destruct Hs as [H Hn Hlen Hfree]. unfold fcfs_turn. rewrite !(bind_ok _ _ _ _ _ E).
  set (s1 := s <| k_mach := m |>).
  rewrite (bind_ok _ _ _ _ _ (fcfs_pick_run m c s1 Hok eq_refl Hlen)).
  rewrite (fcfs_pick_run m c s1 Hok eq_refl Hlen).
  change (k_procs s1) with (k_procs s).
  pose proof (older_best (k_procs s) Hlen) as Hb.
  destruct (choose older (k_procs s) 0 NPROC None) as [p|]; simpl in Hb.
  - left. destruct Hb as (x & Hx & Hr & Hp & Hmin & Hfst). apply runnable_true in Hr.
    set (s2 := s1 <| k_mach := heldm m c (Some p) |>).
    exists p, x, s2. split_and!; [done|done| |done|done| |].
    + intros q y Hy Hry%runnable_true.
      assert (Hq : (q < NPROC)%nat) by (apply lookup_lt_Some in Hy; lia).
      pose proof (Hmin q y Hq Hy Hry) as H1%Z.ltb_ge.
      destruct (decide (p <= q)%nat); [lia|].
      pose proof (Hfst q y ltac:(lia) Hy Hry) as H2%Z.ltb_lt. lia.
    + rewrite <- Hme. by apply acq_held, Hok.
    + rewrite (bind_ok _ _ _ _ _ (proc_set_run _ s2 p x Hx)).
      set (s3 := s2 <| k_procs := _ |>).
      destruct (acq_ok m c (LProc p)) as [H1 _]; [apply Hok|lia|].
      unfold set_cproc. rewrite (bind_ok _ _ _ _ _ (on_mach_run _ s3 _ _ (cpu_set_run _ (k_mach s3) _ H1))).
      set (s4 := s3 <| k_mach := _ |>).
      assert (k_procs s4 !! NPROC = None) as Hnone.
      { apply lookup_ge_None. simpl. rewrite length_insert. lia. }
      unfold mbind at 1. unfold proc_set, mbind, gets. by rewrite Hnone.
  - right. split.
    + intros q y Hy. apply runnable_false, (Hb q); [apply lookup_lt_Some in Hy; lia|done].
    + eexists. split; [done|]. by apply (settled_stays _ _ m c).
Qed.

End turns.

(** ** MLFQ: coming back *)

Section mlfq.
Context {F : Type}.
Notation kernel := (kstate F).
Implicit Types (s : kernel) (q p : nat) (x : mlfq).

(** A queue as enqueue builds it: processes up to the pointer, each once, and null behind. *)
Record queue_ok x : Prop := {
  qo_len : length (q_slot x) = NPROC;
  qo_ptr : -1 <= q_ptr x < Z.of_nat NPROC;
  qo_in : forall j, Z.of_nat j <= q_ptr x -> exists p, q_slot x !! j = Some (Some p) /\ (p < NPROC)%nat;
  qo_out : forall j o, q_ptr x < Z.of_nat j -> q_slot x !! j = Some o -> o = None;
  qo_inj : forall j k p, q_slot x !! j = Some (Some p) -> q_slot x !! k = Some (Some p) -> j = k
}.

Definition set_slots s q x (l : list (option nat)) : kernel :=
  s <| k_queues := <[q := Mlfq l (q_ptr x)]> (k_queues s) |>.

Lemma queue_slot_run s q x i : k_queues s !! q = Some x -> 0 <= i ->
  queue_slot q i s = match q_slot x !! Z.to_nat i with Some o => Ok o s | None => Err Fault end.
Proof.
  intros Hq Hi. unfold queue_slot, mbind, gets. rewrite Hq. cbn [mlookup]. unfold mret.
  destruct (Z.ltb_spec i 0); [lia|]. by destruct (q_slot x !! Z.to_nat i).
Qed.

Lemma set_queue_slot_run s q x i o : k_queues s !! q = Some x -> 0 <= i < Z.of_nat NPROC ->
  set_queue_slot q i o s = Ok tt (set_slots s q x (<[Z.to_nat i := o]> (q_slot x))).
Proof.
  intros Hq Hi. unfold set_queue_slot. destruct (Z.ltb_spec i 0); [lia|].
  destruct (Z.leb_spec (Z.of_nat NPROC) i); [lia|]. cbn [orb]. unfold modify, set_slots.
  simpl. by rewrite (list_alter_Some _ q x).
Qed.

Lemma set_slots_lookup s q x l : k_queues s !! q = Some x ->
  k_queues (set_slots s q x l) !! q = Some (Mlfq l (q_ptr x)).
Proof. intros Hq. simpl. apply list_lookup_insert_eq. by eapply lookup_lt_Some. Qed.

Lemma set_slots_twice s q x l l' :
  set_slots (set_slots s q x l) q (Mlfq l (q_ptr x)) l' = set_slots s q x l'.
Proof. unfold set_slots. simpl. by rewrite list_insert_insert_eq. Qed.

(** The shift loop writes only behind the index it starts at. *)
Lemma shift_from_run n : forall s q x j hi, k_queues s !! q = Some x -> 0 <= j ->
  (Z.to_nat (hi - j + 1) < n)%nat -> hi < Z.of_nat NPROC ->
  shift_from n q j hi s = Err Fault \/
  exists l, shift_from n q j hi s = Ok tt (set_slots s q x l) /\
    (forall k, Z.of_nat k < j -> l !! k = q_slot x !! k).
Proof.
  induction n as [|n IH]; intros s q x j hi Hq Hj Hn Hhi; [lia|]. cbn [shift_from].
  destruct (Z.leb_spec j hi) as [Hle|Hlt].
  2: { right. exists (q_slot x). split; [|done]. unfold mret, set_slots. f_equal.
       destruct s, x; simpl in *. by rewrite list_insert_id. }
  pose proof (queue_slot_run s q x (j + 1) Hq ltac:(lia)) as Eslot.
  destruct (q_slot x !! Z.to_nat (j + 1)) as [o|]; [|left; unfold mbind at 1; by rewrite Eslot].
  rewrite (bind_ok _ _ _ _ _ Eslot). rewrite (bind_ok _ _ _ _ _ (set_queue_slot_run s q x j o Hq ltac:(lia))).
  set (l1 := <[Z.to_nat j := o]> (q_slot x)).
  destruct (IH (set_slots s q x l1) q (Mlfq l1 (q_ptr x)) (j + 1) hi) as [E|(l & E & Hl)].
  - by apply set_slots_lookup.
  - lia.
  - lia.
  - done.
  - by left.
  - right. exists l. rewrite E, set_slots_twice. split; [done|]. intros k Hk. rewrite Hl by lia.
    simpl. apply list_lookup_insert_ne. lia.
Qed.

(** After the shift the slot holds what stood behind it. *)
Lemma shift_run s q x i hi : k_queues s !! q = Some x -> length (q_slot x) = NPROC ->
  0 <= i <= hi -> hi < Z.of_nat NPROC ->
  shift q i hi s = Err Fault \/
  exists l, shift q i hi s = Ok tt (set_slots s q x l) /\
    l !! Z.to_nat i = q_slot x !! Z.to_nat (i + 1).
Proof.
  intros Hq Hlen Hi Hhi. unfold shift. cbn [shift_from]. destruct (Z.leb_spec i hi); [|lia].
  pose proof (queue_slot_run s q x (i + 1) Hq ltac:(lia)) as Eslot.
  destruct (q_slot x !! Z.to_nat (i + 1)) as [o|]; [|left; unfold mbind at 1; by rewrite Eslot].
  rewrite (bind_ok _ _ _ _ _ Eslot). rewrite (bind_ok _ _ _ _ _ (set_queue_slot_run s q x i o Hq ltac:(lia))).
  set (l1 := <[Z.to_nat i := o]> (q_slot x)).
  destruct (shift_from_run (Z.to_nat (hi - i + 1)) (set_slots s q x l1) q (Mlfq l1 (q_ptr x)) (i + 1) hi)
    as [E|(l & E & Hl)]; [by apply set_slots_lookup|lia|lia|done|by left|].
  right. exists l. rewrite E, set_slots_twice. split; [done|]. rewrite Hl by lia.
  simpl. apply list_lookup_insert_eq. lia.
Qed.

(** What demotion leaves of queue [q] and of the machine. *)
Lemma mlfq_demote_run s q p : (q < 4)%nat -> length (k_queues s) = 5%nat -> (p < length (k_procs s))%nat ->
  mlfq_demote q p s = Err Fault \/
  exists s', mlfq_demote q p s = Ok tt s' /\ k_mach s' = k_mach s /\
    k_queues s' !! q = k_queues s !! q /\ length (k_procs s') = length (k_procs s).
Proof.
  intros Hq Hlen Hp. destruct (lookup_lt_is_Some_2 (k_procs s) p Hp) as [x Hx].
  unfold mlfq_demote. rewrite (bind_ok _ _ _ _ _ (proc_get_run _ s p x Hx)).
  destruct (lookup_lt_is_Some_2 ticks_allowed q) as [a Ha]; [simpl; lia|]. rewrite Ha.
  rewrite bind_some.
  rewrite (bind_ok _ _ _ _ _ (proc_get_run p_killed s p x Hx)).
  destruct (_ && _); cbn [mwhen]; [|right; by exists s].
  rewrite (bind_ok _ _ _ _ _ (proc_set_run _ s p x Hx)).
  set (s1 := s <| k_procs := _ |>). unfold enqueue, mbind, gets.
  destruct (k_queues s1 !! S q) as [y|]; [|by left]. cbn [mlookup mret].
  destruct (_ && _); [|by left]. right. eexists. split_and!; [done|done| |].
  - simpl. apply list_lookup_insert_ne. lia.
  - simpl. by rewrite length_insert.
Qed.

(** Leaving queue [q] puts the process behind into the slot. *)
Lemma mlfq_leave_run s q x i p : (q < 4)%nat -> length (k_queues s) = 5%nat ->
  (p < length (k_procs s))%nat -> k_queues s !! q = Some x -> queue_ok x ->
  0 <= i <= q_ptr x ->
  mlfq_leave q i p s = Err Fault \/
  exists s' x', mlfq_leave q i p s = Ok tt s' /\ k_mach s' = k_mach s /\
    k_queues s' !! q = Some x' /\ q_slot x' !! Z.to_nat i = q_slot x !! Z.to_nat (i + 1).
Proof.
  intros Hq Hqs Hp Hx Hwf Hi. unfold mlfq_leave.
  destruct (Nat.eqb_spec q 4) as [|_]; [lia|].
  destruct (mlfq_demote_run s q p Hq Hqs Hp) as [E|(s1 & E & Hm1 & Hq1 & Hl1)];
    [left; by rewrite (bind_err _ _ _ _ E)|].
  rewrite (bind_ok _ _ _ _ _ E). rewrite Hx in Hq1.
  rewrite (bind_ok _ _ _ (q_ptr x) s1) by (unfold queue_ptr, mbind, gets; by rewrite Hq1).
  destruct (shift_run s1 q x i (q_ptr x)) as [E2|(l & E2 & Hl)]; [done|apply Hwf|done|apply Hwf| |].
  { left. by rewrite (bind_err _ _ _ _ E2). }
  rewrite (bind_ok _ _ _ _ _ E2). set (s2 := set_slots s1 q x l).
  assert (Hq2 : k_queues s2 !! q = Some (Mlfq l (q_ptr x))) by (by apply set_slots_lookup).
  set (s3 := s2 <| k_queues ::= alter (fun y => y <| q_ptr ::= fun n => i32 (n - 1) |>) q |>).
  rewrite (bind_ok _ _ _ tt s3) by done.
  assert (Hq3 : exists y, k_queues s3 !! q = Some y /\ q_slot y = l).
  { exists (Mlfq l (i32 (q_ptr x - 1))). split; [|done].
    change (k_queues s3) with (alter (fun y => y <| q_ptr ::= fun n => i32 (n - 1) |>) q (k_queues s2)).
    by rewrite list_lookup_alter_eq, Hq2. }
  destruct Hq3 as (y & Hq3 & Hy).
  destruct (lookup_lt_is_Some_2 (k_procs s3) p) as [z Hz]; [simpl; lia|].
  right. eexists _, y. split_and!; [by rewrite (proc_set_run _ s3 p z Hz)|done|done|by rewrite Hy].
Qed.

(** The MLFQ scheduler does not survive the first process that switches back to it from
    one of the queues 0 to 3: having shifted the queue, it releases the lock of the process
    that now stands in the slot, which it does not hold (panic), or follows the null pointer
    behind the last process. *)
Theorem mlfq_back_fails s c q x i p : mach_ok (k_mach s) c -> length (k_procs s) = NPROC ->
  length (k_queues s) = 5%nat -> (q < 4)%nat -> k_queues s !! q = Some x -> queue_ok x ->
  q_slot x !! i = Some (Some p) ->
  (forall p', (p' < NPROC)%nat -> p' <> p -> lk_free (k_mach s) (LProc p')) ->
  mlfq_back q (Z.of_nat i) p s = Err Fault \/ mlfq_back q (Z.of_nat i) p s = Err (Panic "release").
Proof.
  intros Hok Hlen Hqs Hq4 Hx Hwf Hi Hfree. unfold mlfq_back, set_cproc.
  rewrite !(bind_ok _ _ _ _ _ (on_mach_run _ s _ _ (cpu_set_run _ _ _ Hok))).
  set (c1 := c <| c_proc := None |>). set (m1 := k_mach s <| m_cpus := _ |>).
  assert (Hok1 : mach_ok m1 c1).
  { apply (mach_ok_update (k_mach s) c); [done|done|done|apply Hok..]. }
  assert (Hptr : Z.of_nat i <= q_ptr x).
  { destruct (Z.leb_spec (Z.of_nat i) (q_ptr x)); [done|]. by pose proof (qo_out _ Hwf i _ H Hi). }
  assert (Hp : (p < NPROC)%nat).
  { destruct (qo_in _ Hwf i Hptr) as (p' & Hp' & ?). congruence. }
  destruct (mlfq_leave_run (s <| k_mach := m1 |>) q x (Z.of_nat i) p)
    as [E|(s2 & x2 & E & Hm2 & Hq2 & Hl2)]; [done|done|simpl; lia|done|done|lia| |].
  { left. by rewrite (bind_err _ _ _ _ E). }
  rewrite (bind_ok _ _ _ _ _ E). rewrite Nat2Z.id in Hl2.
  replace (Z.to_nat (Z.of_nat i + 1)) with (S i) in Hl2 by lia.
  pose proof (queue_slot_run s2 q x2 (Z.of_nat i) Hq2 ltac:(lia)) as Eat. rewrite Nat2Z.id, Hl2 in Eat.
  destruct (q_slot x !! S i) as [[p'|]|] eqn:Es.
  - assert (Hne : p' <> p). { intros ->. pose proof (qo_inj _ Hwf _ _ _ Es Hi). lia. }
    assert (Hle : Z.of_nat (S i) <= q_ptr x).
    { destruct (Z.leb_spec (Z.of_nat (S i)) (q_ptr x)); [done|]. by pose proof (qo_out _ Hwf _ _ H Es). }
    assert (Hp' : (p' < NPROC)%nat).
    { destruct (qo_in _ Hwf _ Hle) as (p2 & Hp2 & ?). congruence. }
    right. rewrite (bind_ok _ _ _ p' s2) by (unfold queue_at; by rewrite (bind_ok _ _ _ _ _ Eat)).
    apply bind_err. unfold release, on_mach. apply zoom_err. rewrite Hm2. simpl.
    apply (release_not_held m1 c1 _ Hok1). left. destruct (Hfree p' Hp' Hne) as [nm Enm]. by exists nm.
  - left. apply bind_err. unfold queue_at. by rewrite (bind_ok _ _ _ _ _ Eat).
  - left. apply bind_err. unfold queue_at. by rewrite (bind_err _ _ _ _ Eat).
Qed.

End mlfq.

(** ** Witnesses *)

Lemma ex_sched_ready ps : (length ps <= NPROC)%nat -> sched_ready (ex_kernel None ps) (ex_cpu None).
Proof. intros H. split; [apply ex_mach_ok|done|by apply ex_len|apply ex_free_proc]. Qed.

(** Three processes; the second and third can run. *)
Definition ex_table : list proc :=
  [ex_proc 1 SLEEPING;
   ex_proc 2 RUNNABLE <| p_stat_pr := 60 |> <| p_creationTime := 3 |> <| p_tickets := 1 |>;
   ex_proc 3 RUNNABLE <| p_stat_pr := 50 |> <| p_creationTime := 2 |> <| p_tickets := 1 |>].

Lemma ex_table_len : (length ex_table <= NPROC)%nat.
Proof. unfold ex_table, NPROC. simpl. lia. Qed.

Definition chosen (r : result (kstate unit) (option nat)) : option nat :=
  match r with Ok o _ => o | Err _ => None end.

Lemma rr_turn_first_witness :
  chosen (rr_turn (ex_kernel None ex_table)) = Some 1%nat /\
  exists p s', rr_turn (ex_kernel None ex_table) = Ok (Some p) s' /\
    lk_held (k_mach s') (LProc p) 0.
Proof.
  split; [vm_compute; reflexivity|].
  destruct (rr_turn_first _ _ (ex_sched_ready ex_table ex_table_len))
    as [(p & x & s' & _ & _ & _ & E & Hsw)|[H _]].
  - exists p, s'. split; [exact E|exact (sw_lock _ _ _ _ Hsw)].
  - exfalso. exact (H 1%nat _ eq_refl eq_refl).
Defined.

Lemma pbs_turn_best_witness :
  chosen (pbs_turn (ex_kernel None ex_table)) = Some 2%nat /\
  exists p s', pbs_turn (ex_kernel None ex_table) = Ok (Some p) s' /\
    lk_held (k_mach s') (LProc p) 0.
Proof.
  split; [vm_compute; reflexivity|].
  destruct (pbs_turn_best _ _ (ex_sched_ready ex_table ex_table_len))
    as [(p & x & s' & _ & _ & _ & E & Hsw)|[H _]].
  - exists p, s'. split; [exact E|exact (sw_lock _ _ _ _ Hsw)].
  - exfalso. exact (H 1%nat _ eq_refl eq_refl).
Defined.

Lemma ex_table_tickets p x : k_procs (ex_kernel None ex_table) !! p = Some x ->
  0 <= p_tickets x < 2 ^ 31.
Proof.
  intros Hx. assert (Forall (fun x => 0 <= p_tickets x < 2 ^ 31) (k_procs (ex_kernel None ex_table))) as H.
  { apply Forall_app. split.
    - repeat (apply Forall_cons_2; [done|]). apply Forall_nil_2.
    - apply Forall_replicate. done. }
  exact (proj1 (Forall_lookup _ _) H p x Hx).
Qed.

Lemma lbs_turn_first_witness :
  chosen (lbs_turn (ex_kernel None ex_table)) = Some 1%nat /\
  exists p s', lbs_turn (ex_kernel None ex_table) = Ok (Some p) s' /\
    lk_held (k_mach s') (LProc p) 0.
Proof.
  split; [vm_compute; reflexivity|].
  destruct (lbs_turn_first _ _ (ex_sched_ready ex_table ex_table_len) ltac:(done) ex_table_tickets)
    as [(p & x & s' & _ & _ & _ & _ & E & Hsw & _)|[H _]].
  - exists p, s'. split; [exact E|exact (sw_lock _ _ _ _ Hsw)].
  - exfalso. discriminate (H 1%nat _ eq_refl eq_refl).
Defined.

Lemma fcfs_turn_faults_witness :
  chosen ((turn_start ;;; fcfs_pick 0 NPROC None) (ex_kernel None ex_table)) = Some 2%nat /\
  fcfs_turn (ex_kernel None ex_table) = Err Fault.
Proof.
  split; [vm_compute; reflexivity|].
  destruct (fcfs_turn_faults _ _ (ex_sched_ready ex_table ex_table_len))
    as [(p & x & s' & _ & _ & _ & _ & _ & _ & E)|[H _]].
  - exact E.
  - exfalso. exact (H 1%nat _ eq_refl eq_refl).
Defined.

(** Queue 0 holds processes 1 and 2, and process 1 comes back. *)
Definition ex_queue : mlfq := Mlfq (Some 1%nat :: Some 2%nat :: replicate 62 None) 1.
Definition ex_mlfq : kstate unit :=
  ex_kernel (Some 1%nat) ex_table <| k_queues := ex_queue :: replicate 4 mlfq0 |>.

Lemma ex_queue_slot j o : q_slot ex_queue !! j = Some o ->
  (j = 0%nat /\ o = Some 1%nat) \/ (j = 1%nat /\ o = Some 2%nat) \/ ((2 <= j)%nat /\ o = None).
Proof.
  destruct j as [|[|j]]; [intros [= <-]; by left|intros [= <-]; right; by left|].
  intros H. right. right. split; [lia|]. apply lookup_replicate in H as [? _]. done.
Qed.

Lemma ex_queue_ok : queue_ok ex_queue.
Proof.
  split.
  - done.
  - done.
  - intros [|[|j]] Hj; [exists 1%nat|exists 2%nat|simpl in Hj; lia]; (split; [done|unfold NPROC; lia]).
  - intros j o Hj Ho. apply ex_queue_slot in Ho. simpl in Hj. naive_solver lia.
  - intros j k p Hj Hk. apply ex_queue_slot in Hj, Hk. naive_solver.
Qed.

Lemma mlfq_back_fails_witness :
  mlfq_back 0 0 1 ex_mlfq = Err (Panic "release") /\
  (mlfq_back 0 0 1 ex_mlfq = Err Fault \/ mlfq_back 0 0 1 ex_mlfq = Err (Panic "release")).
Proof.
  split; [vm_compute; reflexivity|].
  apply (mlfq_back_fails ex_mlfq (ex_cpu (Some 1%nat)) 0 ex_queue 0 1);
    [exact (ex_mach_ok _)|reflexivity|reflexivity|lia|reflexivity|exact ex_queue_ok|reflexivity|].
  intros p' Hp' _. exact (ex_free_proc _ p' Hp').
Defined.
