(* ===== verification/Headers.v ===== *)
(** * The data of the file layer: kernel/sleeplock.h, buf.h, fs.h, file.h, stat.h

    The structs and global tables of the buffer cache, the log, the inode layer, open files,
    pipes and the console, and the record [files] that collects them: the file layer's part
    of the kernel state.  A pointer into a table is an index; a null pointer is [None].

    Disk blocks and buffer contents are lists of bytes; multi-byte fields inside them are
    little-endian ([get_le], [put_le]). *)

From S2P Require Import Prelude Riscv CString Kalloc Vm Spinlock Proc.

(** ** Fields of a block of bytes *)

Fixpoint le_val (bs : list Z) : Z :=
  match bs with [] => 0 | b :: bs' => b + 256 * le_val bs' end.
Fixpoint le_bytes (n : nat) (v : Z) : list Z :=
  match n with O => [] | S n' => v mod 256 :: le_bytes n' (v / 256) end.
Definition get_le (n : nat) (bs : list Z) (off : nat) : Z := le_val (take n (drop off bs)).
Definition put_le (n : nat) (bs : list Z) (off : nat) (v : Z) : list Z :=
  list_inserts off (le_bytes n v) bs.

(** ** kernel/fs.h *)

Definition ROOTINO : Z := 1.
Definition BSIZE : Z := 1024.
Definition FSMAGIC : Z := 0x10203040.
Definition NDIRECT : Z := 12.
Definition NINDIRECT : Z := BSIZE / 4.
Definition MAXFILE : Z := NDIRECT + NINDIRECT.
Definition sizeof_dinode : Z := 64.
Definition IPB : Z := BSIZE / sizeof_dinode.
Definition BPB : Z := BSIZE * 8.
Definition DIRSIZ : Z := 14.
Definition sizeof_dirent : Z := 16.
Definition T_DIR : Z := 1.
Definition T_FILE : Z := 2.
Definition T_DEVICE : Z := 3.

Record superblock := Superblock {
  sb_magic : Z; sb_size : Z; sb_nblocks : Z; sb_ninodes : Z;
  sb_nlog : Z; sb_logstart : Z; sb_inodestart : Z; sb_bmapstart : Z
}.
#[export] Instance superblock_eta : Eta superblock := fun s =>
  Superblock (sb_magic s) (sb_size s) (sb_nblocks s) (sb_ninodes s) (sb_nlog s)
    (sb_logstart s) (sb_inodestart s) (sb_bmapstart s).

Definition IBLOCK (i : Z) (sb : superblock) : Z := u32 (i / IPB + sb_inodestart sb).
Definition BBLOCK (b : Z) (sb : superblock) : Z := u32 (b / BPB + sb_bmapstart sb).

Definition block0 : list Z := replicate (Z.to_nat BSIZE) 0.

(** ** Sleep locks (kernel/sleeplock.h) *)

(** The spinlock inside sleep lock [i] is [LSleep i]. *)
Record sleeplock := Sleeplock { sl_locked : Z; sl_name : string; sl_pid : Z }.
#[export] Instance sleeplock_eta : Eta sleeplock := fun l =>
  Sleeplock (sl_locked l) (sl_name l) (sl_pid l).
Definition sleeplock0 : sleeplock := Sleeplock 0 "" 0.

(** ** Buffers (kernel/buf.h) *)

(** [prev] and [next] are indices of buffers; NBUF stands for [bcache.head]. *)
Record buf := Buf {
  b_valid : Z; b_disk : Z; b_dev : Z; b_blockno : Z; b_refcnt : Z;
  b_prev : nat; b_next : nat; b_data : list Z
}.
#[export] Instance buf_eta : Eta buf := fun b =>
  Buf (b_valid b) (b_disk b) (b_dev b) (b_blockno b) (b_refcnt b) (b_prev b) (b_next b) (b_data b).
Definition buf0 : buf := Buf 0 0 0 0 0 0 0 block0.
Definition HEAD : nat := NBUF.
(** The ids of the sleep locks of buffers and of inodes. *)
Definition buf_lock (b : nat) : nat := b.
Definition inode_lock (i : nat) : nat := (NBUF + i)%nat.

(** The disk, and the history of its block writes, the last one first. *)
Record disk := Disk { d_data : gmap Z (list Z); d_hist : list (Z * list Z) }.
#[export] Instance disk_eta : Eta disk := fun d => Disk (d_data d) (d_hist d).
Definition dblock (d : gmap Z (list Z)) (bno : Z) : list Z := default block0 (d !! bno).

(** ** The log (kernel/log.c) *)

Record logstate := Log {
  l_start : Z; l_size : Z; l_outstanding : Z; l_committing : Z; l_dev : Z;
  l_n : Z; l_block : list Z
}.
#[export] Instance logstate_eta : Eta logstate := fun l =>
  Log (l_start l) (l_size l) (l_outstanding l) (l_committing l) (l_dev l) (l_n l) (l_block l).

(** ** Inodes, files, pipes (kernel/file.h, kernel/pipe.c) *)

Record inode := Inode {
  i_dev : Z; i_inum : Z; i_ref : Z; i_valid : Z;
  i_type : Z; i_major : Z; i_minor : Z; i_nlink : Z; i_size : Z; i_addrs : list Z
}.
#[export] Instance inode_eta : Eta inode := fun i =>
  Inode (i_dev i) (i_inum i) (i_ref i) (i_valid i) (i_type i) (i_major i) (i_minor i)
    (i_nlink i) (i_size i) (i_addrs i).
Definition inode0 : inode := Inode 0 0 0 0 0 0 0 0 0 (replicate 13 0).

Inductive filetype := FD_NONE | FD_PIPE | FD_INODE | FD_DEVICE.
#[export] Instance filetype_eq_dec : EqDecision filetype.
Proof. solve_decision. Defined.
(** [f_pipe] is the address of the pipe's page. *)
Record file := File {
  f_type : filetype; f_ref : Z; f_readable : Z; f_writable : Z;
  f_pipe : Z; f_ip : option nat; f_off : Z; f_major : Z
}.
#[export] Instance file_eta : Eta file := fun f =>
  File (f_type f) (f_ref f) (f_readable f) (f_writable f) (f_pipe f) (f_ip f) (f_off f) (f_major f).
Definition file0 : file := File FD_NONE 0 0 0 0 None 0 0.

Definition PIPESIZE : Z := 512.
Record pipe := Pipe { pi_data : list Z; nread : Z; nwrite : Z; readopen : Z; writeopen : Z }.
#[export] Instance pipe_eta : Eta pipe := fun p =>
  Pipe (pi_data p) (nread p) (nwrite p) (readopen p) (writeopen p).

(** ** The console (kernel/console.c, kernel/uart.c) *)

Definition INPUT_BUF_SIZE : Z := 128.
Record cons_state := Cons { cons_buf : list Z; cons_r : Z; cons_w : Z; cons_e : Z }.
#[export] Instance cons_eta : Eta cons_state := fun c =>
  Cons (cons_buf c) (cons_r c) (cons_w c) (cons_e c).
Definition UART_TX_BUF_SIZE : Z := 32.
(** [u_out] is what was written to the transmit register, the last byte first; [u_in] the
    bytes the receiver will deliver; [u_idle] whether the transmitter accepts a byte. *)
Record uart_state := Uart {
  tx_buf : list Z; tx_w : Z; tx_r : Z; u_out : list Z; u_in : list Z; u_idle : bool
}.
#[export] Instance uart_eta : Eta uart_state := fun u =>
  Uart (tx_buf u) (tx_w u) (tx_r u) (u_out u) (u_in u) (u_idle u).

(** ** Device registers

    Memory-mapped registers are a conversation: [fs_mmio] has the reads, with the value the
    device gave, and the writes, the last one first. *)

Inductive access := MRead (a v : Z) | MWrite (a v : Z).
(** The devices of the machine: what a register read returns after a conversation, and
    whether the UART's transmitter is idle again after it has taken a byte. *)
Class Board := { answer : list access -> Z -> Z; next_idle : uart_state -> bool }.

(** ** The disk driver (kernel/virtio_disk.c, kernel/virtio.h) *)

Definition NUM : nat := 8.
(** What a descriptor's address points to: disk.ops[i], the data of a buffer, or the status
    byte of disk.info[i]. *)
Inductive dma := DmaNull | DmaOp (i : nat) | DmaBuf (b : nat) | DmaStatus (i : nat).
Record vdesc := Vdesc { vd_addr : dma; vd_len : Z; vd_flags : Z; vd_next : Z }.
Definition vdesc0 : vdesc := Vdesc DmaNull 0 0 0.
(** [dev_idx] is how far the device has looked in the avail ring. *)
Record vdisk := Vdisk {
  v_desc : list vdesc;
  v_avail_idx : Z; v_avail : list Z;
  v_used_dev : Z; v_used : list Z;
  v_free : list Z; v_used_idx : Z;
  v_info_b : list (option nat); v_status : list Z;
  v_ops : list (Z * Z);
  dev_idx : Z
}.
#[export] Instance vdisk_eta : Eta vdisk := fun v =>
  Vdisk (v_desc v) (v_avail_idx v) (v_avail v) (v_used_dev v) (v_used v) (v_free v) (v_used_idx v)
    (v_info_b v) (v_status v) (v_ops v) (dev_idx v).
(** The driver after virtio_disk_init. *)
Definition vdisk0 : vdisk :=
  Vdisk (replicate NUM vdesc0) 0 (replicate NUM 0) 0 (replicate NUM 0) (replicate NUM 1) 0
    (replicate NUM None) (replicate NUM 0) (replicate NUM (0, 0)) 0.

(** ** The state of the file layer *)

Record files := Files {
  fs_disk : disk;
  fs_sleep : list sleeplock;
  fs_bufs : list buf;
  fs_log : logstate;
  fs_sb : superblock;
  fs_itable : list inode;
  fs_ftable : list file;
  fs_pipes : gmap Z pipe;
  fs_cons : cons_state;
  fs_uart : uart_state;
  fs_vdisk : vdisk;
  fs_mmio : list access
}.
#[export] Instance files_eta : Eta files := fun f =>
  Files (fs_disk f) (fs_sleep f) (fs_bufs f) (fs_log f) (fs_sb f) (fs_itable f) (fs_ftable f)
    (fs_pipes f) (fs_cons f) (fs_uart f) (fs_vdisk f) (fs_mmio f).

Notation kern := (kstate files).

(** Reads and updates of the file layer's state. *)
Definition fget {A} (f : files -> A) : M kern A := gets (fun s => f (k_files s)).
Definition fset (f : files -> files) : M kern unit := modify (fun s => s <| k_files ::= f |>).

(** A 32-bit read and a write of a device register. *)
Definition reg_read `{Board} (a : Z) : M kern Z :=
  v <- fget (fun s => u32 (answer (fs_mmio s) a)) ;;
  fset (fun s => s <| fs_mmio ::= cons (MRead a v) |>) ;;;
  mret v.
Definition reg_write (a v : Z) : M kern unit := fset (fun s => s <| fs_mmio ::= cons (MWrite a v) |>).
