(* ===== verification/Codec.v ===== *)
(** * Fields of disk blocks

    What [get_le] reads after [put_le] of Headers.v: the value that was stored, truncated to
    its width, and every field that does not overlap it unchanged.  The headers of the log,
    the superblock, the inodes on disk, the indirect blocks and the directory entries are
    all read and written through these. *)

From S2P Require Import Prelude Headers.

Lemma length_le_bytes n v : length (le_bytes n v) = n.
Proof. revert v. induction n as [|n IH]; intros v; [done|]. simpl. by rewrite IH. Qed.

Lemma le_bytes_byte n v : Forall (fun b => 0 <= b < 256) (le_bytes n v).
Proof.
  revert v. induction n as [|n IH]; intros v; simpl; constructor; [|done].
  apply Z.mod_pos_bound. lia.
Qed.

(** Decoding what was encoded, and the other way round. *)
Lemma le_val_bytes n v : le_val (le_bytes n v) = v mod 256 ^ Z.of_nat n.
Proof.
  revert v. induction n as [|n IH]; intros v; [by rewrite Z.mod_1_r|].
  cbn [le_val le_bytes]. rewrite IH. replace (256 ^ Z.of_nat (S n)) with (256 * 256 ^ Z.of_nat n)
    by (rewrite Nat2Z.inj_succ, Z.pow_succ_r by lia; done).
  rewrite Z.rem_mul_r by lia. done.
Qed.

Lemma le_bytes_val bs : Forall (fun b => 0 <= b < 256) bs -> le_bytes (length bs) (le_val bs) = bs.
Proof.
  induction 1 as [|b bs Hb _ IH]; [done|]. cbn [length le_val le_bytes]. f_equal.
  - rewrite Z.mul_comm, Z_mod_plus_full. by apply Z.mod_small.
  - rewrite Z.mul_comm, Z_div_plus_full by lia. rewrite Z.div_small, Z.add_0_l by lia. done.
Qed.

Lemma le_val_range bs : Forall (fun b => 0 <= b < 256) bs -> 0 <= le_val bs < 256 ^ Z.of_nat (length bs).
Proof.
  induction 1 as [|b bs Hb _ IH]; [done|]. cbn [length le_val].
  rewrite Nat2Z.inj_succ, Z.pow_succ_r by lia. lia.
Qed.

Lemma length_put_le n bs off v : length (put_le n bs off v) = length bs.
Proof. apply length_inserts. Qed.

Lemma get_le_ext n bs bs' off :
  (forall i, (off <= i < off + n)%nat -> bs !! i = bs' !! i) -> get_le n bs off = get_le n bs' off.
Proof.
  intros H. unfold get_le. f_equal. apply list_eq. intros i. destruct (decide (i < n)%nat).
  - rewrite !lookup_take_lt, !lookup_drop by done. apply H. lia.
  - rewrite !lookup_take_ge by lia. done.
Qed.

Lemma put_le_out n bs off v i : (i < off \/ off + n <= i)%nat -> put_le n bs off v !! i = bs !! i.
Proof.
  intros [H|H]; unfold put_le; [by apply list_lookup_inserts_lt|].
  apply list_lookup_inserts_ge. by rewrite length_le_bytes.
Qed.

Lemma get_put_same n bs off v : (off + n <= length bs)%nat ->
  get_le n (put_le n bs off v) off = v mod 256 ^ Z.of_nat n.
Proof.
  intros H. rewrite <- le_val_bytes. unfold get_le. f_equal. apply list_eq. intros i.
  destruct (decide (i < n)%nat).
  - rewrite lookup_take_lt, lookup_drop by done. unfold put_le.
    rewrite list_lookup_inserts by (rewrite ?length_le_bytes; lia). f_equal. lia.
  - rewrite lookup_take_ge by lia. symmetry. apply lookup_ge_None. rewrite length_le_bytes. lia.
Qed.

Lemma get_put_other n n' bs off off' v : (off' + n' <= off \/ off + n <= off')%nat ->
  get_le n' (put_le n bs off v) off' = get_le n' bs off'.
Proof. intros H. apply get_le_ext. intros i Hi. apply put_le_out. lia. Qed.

#[export] Hint Rewrite length_put_le length_le_bytes : codec.

(** 32-bit signed fields. *)
Lemma i32_get_put bs off v : (off + 4 <= length bs)%nat -> - 2 ^ 31 <= v < 2 ^ 31 ->
  i32 (get_le 4 (put_le 4 bs off (u32 v)) off) = v.
Proof.
  intros H Hv. rewrite get_put_same by done. change (256 ^ Z.of_nat 4) with (2 ^ 32).
  unfold u32. rewrite Z.mod_mod by lia. rewrite <- (i32_small v) at 2 by done.
  unfold i32, sint. by rewrite Z.mod_mod by lia.
Qed.
