(* ===== verification/Sleeplock.v ===== *)
(** * Sleep locks: kernel/sleeplock.c

    acquiresleep gives up the CPU while another process holds the lock.  It is cut there, as
    in [Proc]: [acquiresleep_turn] is one turn of its loop with the spinlock held.
    [acquiresleep] is the whole call for a process that does not have to wait; when it
    would, the result is [Err Block].

    The second part is the machinery for running code of the file layer: [calm] describes a
    kernel in which the current process runs outside the scheduler with the locks [held]. *)

From S2P Require Import Prelude Riscv CString Kalloc Vm Spinlock Proc ProcSpec Headers.

Definition sl_get {A} (i : nat) (f : sleeplock -> A) : M kern A :=
  ls <- fget fs_sleep ;; l <- mlookup (ls !! i) ;; mret (f l).
Definition sl_set (i : nat) (f : sleeplock -> sleeplock) : M kern unit :=
  ls <- fget fs_sleep ;; _ <- mlookup (ls !! i) ;;
  fset (fun s => s <| fs_sleep ::= alter f i |>).

Definition initsleeplock (i : nat) (name : string) : M kern unit :=
  on_mach (initlock (LSleep i) "sleep lock") ;;;
  sl_set i (fun l => l <| sl_name := name |>) ;;;
  sl_set i (fun l => l <| sl_locked := 0 |>) ;;;
  sl_set i (fun l => l <| sl_pid := 0 |>).

Definition acquiresleep_turn (i : nat) : M kern (outcome unit (nat * Z)) :=
  lk <- sl_get i sl_locked ;;
  if z2b lk then k <- sleep_enter (Some (ChSleep i)) (LSleep i) ;; mret (Parked k)
  else
    sl_set i (fun l => l <| sl_locked := 1 |>) ;;;
    p <- self ;;
    pid <- proc_get p p_pid ;;
    sl_set i (fun l => l <| sl_pid := pid |>) ;;;
    release (LSleep i) ;;;
    mret (Done tt).
Definition acquiresleep_call (i : nat) : M kern (outcome unit (nat * Z)) :=
  acquire (LSleep i) ;;; acquiresleep_turn i.
Definition acquiresleep_resume (i : nat) (k : nat * Z) : M kern (outcome unit (nat * Z)) :=
  sleep_exit (LSleep i) k ;;; acquiresleep_turn i.
Definition acquiresleep (i : nat) : M kern unit :=
  r <- acquiresleep_call i ;;
  match r with Done _ => mret tt | Parked _ => mfail Block end.

Definition releasesleep (i : nat) : M kern unit :=
  acquire (LSleep i) ;;;
  sl_set i (fun l => l <| sl_locked := 0 |>) ;;;
  sl_set i (fun l => l <| sl_pid := 0 |>) ;;;
  wakeup (Some (ChSleep i)) ;;;
  release (LSleep i).

Definition holdingsleep (i : nat) : M kern bool :=
  acquire (LSleep i) ;;;
  lk <- sl_get i sl_locked ;;
  r <- (if z2b lk then
          pid <- sl_get i sl_pid ;;
          p <- self ;;
          mypid <- proc_get p p_pid ;;
          mret (pid =? mypid)
        else mret false) ;;
  release (LSleep i) ;;;
  mret r.

(** ** Running code of the file layer *)

(** The locks that exist from boot on. *)
Definition static_lock (l : lockid) : bool :=
  match l with
  | LProc p => (p <? NPROC)%nat
  | LSleep i => (i <? NBUF + NINODE)%nat
  | LPipe _ => false
  | _ => true
  end.

Section calm.
Implicit Types (s : kern) (c : cpu) (cur : nat) (held : list lockid) (l : lockid).

(** Process [cur] runs on a CPU whose interrupt nesting is that of the locks [held]; every
    other lock is free, and the CPU's saved interrupt flag is up to date. *)
Record calm s c cur held : Prop := {
  ca_ok : mach_ok (k_mach s) c;
  ca_settled : settle (k_mach s) c = k_mach s;
  ca_noff : c_noff c = Z.of_nat (length held);
  ca_few : (length held < 100)%nat;
  ca_cur : c_proc c = Some cur;
  ca_len : length (k_procs s) = NPROC;
  ca_lt : (cur < NPROC)%nat;
  ca_free : forall l, static_lock l = true -> l ∉ held -> lk_free (k_mach s) l
}.

(** A state that differs only in its data is as calm. *)
Lemma calm_data s s' c cur held : calm s c cur held -> k_mach s' = k_mach s ->
  length (k_procs s') = length (k_procs s) -> calm s' c cur held.
Proof. intros [] E Hl. split; rewrite ?E, ?Hl; done. Qed.

Lemma mach_id s : s <| k_mach := k_mach s |> = s.
Proof. by destruct s. Qed.

Lemma settle_acq m c l : mach_ok m c -> c_noff c + 1 < 2 ^ 31 ->
  settle (acq m c l) (c_push m c) = acq m c l.
Proof.
  intros H Hmax. destruct (acq_ok m c l H Hmax) as [H1 _]. apply settle_held; [done|].
  simpl. destruct H; lia.
Qed.

(** Entering a critical section. *)
Lemma calm_acquire s c cur held l : calm s c cur held -> lk_free (k_mach s) l ->
  (length held < 99)%nat ->
  acquire l s = Ok tt (s <| k_mach := acq (k_mach s) c l |>) /\
  calm (s <| k_mach := acq (k_mach s) c l |>) (c_push (k_mach s) c) cur (l :: held).
Proof.
  intros [H Hs Hn Hf Hc Hlen Hlt Hfr] Hl Hd.
  assert (Hmax : c_noff c + 1 < 2 ^ 31) by lia.
  split; [by apply acquire_k|]. destruct (acq_ok (k_mach s) c l H Hmax) as [H1 Hme]. split; simpl.
  - done.
  - by apply settle_acq.
  - rewrite Hn. lia.
  - lia.
  - done.
  - done.
  - done.
  - intros l' Hl' [Hne Hin]%not_elem_of_cons. destruct (Hfr l' Hl' Hin) as [nm E]. exists nm.
    by rewrite acq_other.
Qed.

(** Leaving it. *)
Lemma calm_release s s1 c cur held l : calm s c cur held -> lk_free (k_mach s) l ->
  k_mach s1 = acq (k_mach s) c l -> release l s1 = Ok tt (s1 <| k_mach := k_mach s |>).
Proof.
  intros [H Hs Hn Hf Hc Hlen Hlt Hfr] Hl E.
  rewrite (release_k s1 (k_mach s) c l) by (done || lia). by rewrite Hs.
Qed.

Lemma self_calm s c cur held : calm s c cur held -> self s = Ok cur s.
Proof.
  intros [H Hs Hn Hf Hc Hlen Hlt Hfr]. rewrite (self_run s c cur) by (done || lia).
  by rewrite Hs, mach_id.
Qed.

Lemma myproc_calm s c cur held : calm s c cur held -> myproc s = Ok (Some cur) s.
Proof.
  intros [H Hs Hn Hf Hc Hlen Hlt Hfr]. rewrite (myproc_run s c) by (done || lia).
  by rewrite Hs, mach_id, Hc.
Qed.

Lemma calm_ready s c cur held : calm s c cur held -> (forall p, LProc p ∉ held \/ p = cur) ->
  ready (c_proc c) s c (fun p => c_proc c = Some p).
Proof.
  intros [H Hs Hn Hf Hc Hlen Hlt Hfr] Hp. split_and!; [done|lia|done|done|].
  intros p Hlt' Hne. apply Hfr; [simpl; by apply Nat.ltb_lt|].
  destruct (Hp p) as [ | -> ]; [done|]. congruence.
Qed.

(** wakeup in a calm kernel. *)
Definition wakes (cur : nat) (ch : option chan) (ps : list proc) : list proc :=
  imap (wake (Some cur) ch) ps.

Lemma wakeup_calm s c cur held ch : calm s c cur held -> (forall p, LProc p ∉ held \/ p = cur) ->
  wakeup ch s = Ok tt (s <| k_procs := wakes cur ch (k_procs s) |>).
Proof.
  intros Hcalm Hp. pose proof (calm_ready s c cur held Hcalm Hp) as Hr.
  rewrite (wakeup_run s c ch Hr). unfold stepped, wakes. rewrite (ca_settled _ _ _ _ Hcalm).
  rewrite (ca_cur _ _ _ _ Hcalm). by destruct s.
Qed.

Lemma length_wakes cur ch ps : length (wakes cur ch ps) = length ps.
Proof. apply length_imap. Qed.

Lemma wakes_cur cur ch ps : wakes cur ch ps !! cur = ps !! cur.
Proof.
  unfold wakes. rewrite list_lookup_imap. destruct (ps !! cur) as [x|]; [|done]. simpl.
  unfold wake. rewrite decide_False; [done|]. tauto.
Qed.


(** ** What the operations do *)

Definition set_sleep s (i : nat) (x : sleeplock) : kern :=
  s <| k_files ::= fun f => f <| fs_sleep ::= insert i x |> |>.

Section ops.
Context (s : kern) (c : cpu) (cur : nat) (held : list lockid) (i : nat) (x : sleeplock) (me : proc).
Context (Hcalm : calm s c cur held) (Hi : (i < NBUF + NINODE)%nat) (Hheld : LSleep i ∉ held).
Context (Hfew : (length held < 90)%nat).
Context (Hx : fs_sleep (k_files s) !! i = Some x) (Hme : k_procs s !! cur = Some me).

Lemma sl_free : lk_free (k_mach s) (LSleep i).
Proof. apply (ca_free _ _ _ _ Hcalm); [simpl; by apply Nat.ltb_lt|done]. Qed.

Lemma sl_get_run {A} (f : sleeplock -> A) s1 y : fs_sleep (k_files s1) !! i = Some y ->
  sl_get i f s1 = Ok (f y) s1.
Proof. intros E. unfold sl_get, fget, mbind, gets. by rewrite E. Qed.

Lemma sl_set_run f s1 y : fs_sleep (k_files s1) !! i = Some y ->
  sl_set i f s1 = Ok tt (set_sleep s1 i (f y)).
Proof.
  intros E. unfold sl_set, fget, mbind, gets. rewrite E. unfold mlookup, mret, fset, modify, set_sleep.
  simpl. by rewrite (list_alter_Some f i y).
Qed.

Lemma set_sleep_lookup s1 y z : fs_sleep (k_files s1) !! i = Some z ->
  fs_sleep (k_files (set_sleep s1 i y)) !! i = Some y.
Proof. intros E. simpl. apply list_lookup_insert_eq. by eapply lookup_lt_Some. Qed.

Lemma set_sleep_twice s1 y z : set_sleep (set_sleep s1 i y) i z = set_sleep s1 i z.
Proof. unfold set_sleep. simpl. by rewrite list_insert_insert_eq. Qed.

(** holdingsleep asks whether the current process holds the lock. *)
Lemma holdingsleep_run :
  holdingsleep i s = Ok (z2b (sl_locked x) && (sl_pid x =? p_pid me)) s.
Proof.
  destruct (calm_acquire s c cur held (LSleep i) Hcalm sl_free ltac:(lia)) as [E Hc1].
  unfold holdingsleep. rewrite (bind_ok _ _ _ _ _ E).
  set (s1 := s <| k_mach := acq (k_mach s) c (LSleep i) |>) in *.
  rewrite (bind_ok _ _ _ _ _ (sl_get_run sl_locked s1 x Hx)).
  rewrite (bind_ok _ _ _ (z2b (sl_locked x) && (sl_pid x =? p_pid me)) s1).
  2: { destruct (z2b (sl_locked x)); [|done]. rewrite (bind_ok _ _ _ _ _ (sl_get_run sl_pid s1 x Hx)).
       rewrite (bind_ok _ _ _ _ _ (self_calm _ _ _ _ Hc1)).
       by rewrite (bind_ok _ _ _ _ _ (proc_get_run p_pid s1 cur me Hme)). }
  rewrite (bind_ok _ _ _ _ _ (calm_release s s1 c cur held (LSleep i) Hcalm sl_free eq_refl)).
  unfold mret. f_equal. by destruct s.
Qed.

(** A free lock is taken at once, and belongs to the current process. *)
Lemma acquiresleep_run : sl_locked x = 0 ->
  acquiresleep i s = Ok tt (set_sleep s i (x <| sl_locked := 1 |> <| sl_pid := p_pid me |>)).
Proof.
  intros Hlk. destruct (calm_acquire s c cur held (LSleep i) Hcalm sl_free ltac:(lia)) as [E Hc1].
  unfold acquiresleep, acquiresleep_call. unfold mbind at 1. rewrite (bind_ok _ _ _ _ _ E).
  set (s1 := s <| k_mach := acq (k_mach s) c (LSleep i) |>) in *.
  unfold acquiresleep_turn. rewrite (bind_ok _ _ _ _ _ (sl_get_run sl_locked s1 x Hx)).
  rewrite Hlk. change (z2b 0) with false. cbn iota.
  rewrite (bind_ok _ _ _ _ _ (sl_set_run _ s1 x Hx)). set (x1 := x <| sl_locked := 1 |>).
  set (s2 := set_sleep s1 i x1).
  assert (Hc2 : calm s2 (c_push (k_mach s) c) cur (LSleep i :: held)) by (by apply (calm_data s1)).
  rewrite (bind_ok _ _ _ _ _ (self_calm _ _ _ _ Hc2)).
  rewrite (bind_ok _ _ _ _ _ (proc_get_run p_pid s2 cur me Hme)).
  rewrite (bind_ok _ _ _ _ _ (sl_set_run _ s2 x1 (set_sleep_lookup s1 x1 x Hx))).
  unfold s2. rewrite set_sleep_twice. set (s3 := set_sleep s1 i _).
  rewrite (bind_ok _ _ _ _ _ (calm_release s s3 c cur held (LSleep i) Hcalm sl_free eq_refl)).
  unfold mret. f_equal.
Qed.

(** releasesleep frees the lock and wakes the processes that wait for it. *)
Lemma releasesleep_run : (forall p, LProc p ∉ held \/ p = cur) ->
  releasesleep i s = Ok tt (set_sleep s i (x <| sl_locked := 0 |> <| sl_pid := 0 |>)
    <| k_procs := wakes cur (Some (ChSleep i)) (k_procs s) |>).
Proof.
  intros Hp. destruct (calm_acquire s c cur held (LSleep i) Hcalm sl_free ltac:(lia)) as [E Hc1].
  unfold releasesleep. rewrite (bind_ok _ _ _ _ _ E).
  set (s1 := s <| k_mach := acq (k_mach s) c (LSleep i) |>) in *.
  rewrite (bind_ok _ _ _ _ _ (sl_set_run _ s1 x Hx)). set (x1 := x <| sl_locked := 0 |>).
  rewrite (bind_ok _ _ _ _ _ (sl_set_run _ _ x1 (set_sleep_lookup s1 x1 x Hx))).
  rewrite set_sleep_twice. set (s2 := set_sleep s1 i _).
  assert (Hc2 : calm s2 (c_push (k_mach s) c) cur (LSleep i :: held)) by (by apply (calm_data s1)).
  rewrite (bind_ok _ _ _ _ _ (wakeup_calm s2 _ cur _ _ Hc2 ltac:(set_solver))).
  set (s3 := s2 <| k_procs := _ |>).
  rewrite (calm_release s s3 c cur held (LSleep i) Hcalm sl_free eq_refl). done.
Qed.

End ops.

End calm.
