(* ===== verification/Ring.v ===== *)
(** * Ring buffers with wrapping counters

    The pipe, the console and the UART keep a byte array of N entries and two counters that
    count modulo M, a multiple of N, and are reduced modulo N only to index the array.
    [ring data r w] is the queue they stand for. *)

From S2P Require Import Prelude.

(** The size of the array and the modulus of the counters. *)
Class Dims (N M : Z) : Prop := { d_N : 0 < N; d_M : 0 < M; d_div : (N | M); d_lt : N < M }.

Section ring.
Context (N M : Z) {D : Dims N M}.
Ltac dims := destruct D as [HN HM HNM HNM2].
Implicit Types (data : list Z) (r w i : Z).

Definition used r w : Z := (w - r) mod M.
Definition at_ data i : Z := default 0 (data !! Z.to_nat (i mod N)).
Definition ring data r w : list Z := (fun k => at_ data (r + Z.of_nat k)) <$> seq 0 (Z.to_nat (used r w)).
Definition store data i v : list Z := <[Z.to_nat (i mod N) := v]> data.

Lemma used_range r w : 0 <= used r w < M.
Proof using D. dims. apply Z.mod_pos_bound. done. Qed.
Lemma length_ring data r w : Z.of_nat (length (ring data r w)) = used r w.
Proof using D. dims. unfold ring. rewrite length_fmap, length_seq. pose proof (used_range r w). lia. Qed.

Lemma mod_mod_N x : (x mod M) mod N = x mod N.
Proof using D. dims. symmetry. destruct HNM as [q ->]. rewrite (Z.mul_comm q N). apply Znumtheory.Zmod_div_mod; [done|nia|]. by exists q; lia. Qed.
Lemma at_mod data x : at_ data (x mod M) = at_ data x.
Proof using D. dims. unfold at_. by rewrite mod_mod_N. Qed.

Lemma used_push r w : used r w < N -> used r ((w + 1) mod M) = used r w + 1.
Proof using D.
  dims.
  intros H. unfold used in *. rewrite Zminus_mod_idemp_l. replace (w + 1 - r) with (w - r + 1) by lia.
  rewrite <- (Zplus_mod_idemp_l (w - r)). apply Z.mod_small. pose proof (Z.mod_pos_bound (w - r) M HM). lia.
Qed.
Lemma used_pop r w : 0 < used r w -> used ((r + 1) mod M) w = used r w - 1.
Proof using D.
  dims.
  intros H. unfold used in *. rewrite Zminus_mod_idemp_r. replace (w - (r + 1)) with (w - r - 1) by lia.
  rewrite <- (Zminus_mod_idemp_l (w - r)). apply Z.mod_small. pose proof (Z.mod_pos_bound (w - r) M HM). lia.
Qed.
Lemma used_unpush r w : 0 < used r w -> used r ((w - 1) mod M) = used r w - 1.
Proof using D.
  dims.
  intros H. unfold used in *. rewrite Zminus_mod_idemp_l. replace (w - 1 - r) with (w - r - 1) by lia.
  rewrite <- (Zminus_mod_idemp_l (w - r)). apply Z.mod_small. pose proof (Z.mod_pos_bound (w - r) M HM). lia.
Qed.
Lemma used_0 r w : 0 <= r < M -> 0 <= w < M -> used r w = 0 <-> r = w.
Proof using D.
  dims.
  intros Hr Hw. unfold used. split; [|intros ->; by rewrite Z.sub_diag, Z.mod_0_l by lia].
  intros H. apply Z.mod_divide in H as [q Hq]; [|lia]. assert (q = 0) by nia. lia.
Qed.
Lemma used_full r w : 0 <= r < M -> 0 <= w < M -> used r w = N <-> w = (r + N) mod M.
Proof using D.
  dims.
  intros Hr Hw. unfold used. split.
  - intros H. rewrite <- H, Zplus_mod_idemp_r. replace (r + (w - r)) with w by lia. by rewrite Z.mod_small.
  - intros ->. rewrite Zminus_mod_idemp_l. replace (r + N - r) with N by lia. apply Z.mod_small. lia.
Qed.

(** Entries within N of each other are different places of the array. *)
Lemma place_ne x y : 0 < Z.abs (x - y) < N -> Z.to_nat (x mod N) <> Z.to_nat (y mod N).
Proof using D.
  dims.
  intros H E. pose proof (Z.mod_pos_bound x N HN). pose proof (Z.mod_pos_bound y N HN).
  apply Z2Nat.inj in E; [|lia..].
  assert (Hd : (x - y) mod N = 0).
  { rewrite Zminus_mod, E, Z.sub_diag. apply Z.mod_0_l. lia. }
  apply Z.mod_divide in Hd as [q Hq]; [|lia]. assert (q = 0) by nia. lia.
Qed.

Lemma at_store_eq data i v : Z.of_nat (length data) = N -> at_ (store data i v) i = v.
Proof using D.
  dims.
  intros Hl. unfold at_, store. pose proof (Z.mod_pos_bound i N HN). by rewrite list_lookup_insert_eq by lia.
Qed.
Lemma at_store_ne data i v j : 0 < Z.abs (i - j) < N -> at_ (store data i v) j = at_ data j.
Proof using D. dims. intros H. unfold at_, store. rewrite list_lookup_insert_ne; [done|]. by apply place_ne. Qed.

(** Writing at [w]: the queue grows by one. *)
Lemma ring_push data r w v : Z.of_nat (length data) = N -> used r w < N ->
  ring (store data w v) r ((w + 1) mod M) = ring data r w ++ [v].
Proof using D.
  dims.
  intros Hl Hu. unfold ring. rewrite used_push by done. pose proof (used_range r w) as Hr.
  replace (Z.to_nat (used r w + 1)) with (S (Z.to_nat (used r w))) by lia.
  rewrite seq_S, fmap_app. simpl. f_equal.
  - apply list_fmap_ext. intros j k Hk. apply lookup_seq in Hk as [-> Hk]. simpl.
    rewrite <- (at_mod (store data w v)). rewrite <- (at_mod data).
    assert (Hw : (w mod M) mod N = w mod N) by apply mod_mod_N.
    transitivity (at_ (store data w v) (w - used r w + Z.of_nat j)).
    { unfold at_. do 3 f_equal. rewrite mod_mod_N. unfold used. destruct HNM as [q Hq].
      replace (w - (w - r) mod M + Z.of_nat j) with (r + Z.of_nat j + (w - r - (w - r) mod M)) by lia.
      rewrite (Z.div_mod (w - r) M) at 1 by lia.
      replace (M * ((w - r) / M) + (w - r) mod M - (w - r) mod M) with (q * ((w - r) / M) * N) by nia.
      by rewrite Z_mod_plus_full. }
    rewrite at_store_ne by lia. unfold at_. do 3 f_equal. rewrite mod_mod_N. unfold used. destruct HNM as [q Hq].
    replace (w - (w - r) mod M + Z.of_nat j) with (r + Z.of_nat j + (w - r - (w - r) mod M)) by lia.
    rewrite (Z.div_mod (w - r) M) at 1 by lia.
    replace (M * ((w - r) / M) + (w - r) mod M - (w - r) mod M) with (q * ((w - r) / M) * N) by nia.
    by rewrite Z_mod_plus_full.
  - f_equal. rewrite Z2Nat.id by lia.
    transitivity (at_ (store data w v) w); [|by apply at_store_eq].
    unfold at_. do 3 f_equal. unfold used. destruct HNM as [q Hq].
    rewrite <- (mod_mod_N (r + (w - r) mod M)). rewrite Zplus_mod_idemp_r.
    replace (r + (w - r)) with w by lia. apply mod_mod_N.
Qed.

(** Reading at [r]: the oldest byte leaves. *)
Lemma ring_pop data r w : 0 < used r w -> ring data r w = at_ data r :: ring data ((r + 1) mod M) w.
Proof using D.
  dims.
  intros Hu. unfold ring. rewrite used_pop by done.
  replace (Z.to_nat (used r w)) with (S (Z.to_nat (used r w - 1))) by lia. simpl. f_equal.
  - f_equal. lia.
  - rewrite <- fmap_S_seq, <- list_fmap_compose. apply list_fmap_ext. intros j k _. simpl.
    rewrite <- (at_mod data (r + _)). rewrite <- (at_mod data ((r + 1) mod M + _)).
    rewrite Zplus_mod_idemp_l. do 2 f_equal. lia.
Qed.

(** Taking back the newest byte. *)
Lemma ring_unpush data r w : 0 < used r w ->
  ring data r w = ring data r ((w - 1) mod M) ++ [at_ data (w - 1)].
Proof using D.
  dims.
  intros Hu. unfold ring. rewrite used_unpush by done.
  replace (Z.to_nat (used r w)) with (S (Z.to_nat (used r w - 1))) by lia.
  rewrite seq_S, fmap_app. simpl. do 2 f_equal. rewrite Z2Nat.id by lia.
  rewrite <- (at_mod data (r + _)), <- (at_mod data (w - 1)). f_equal. unfold used.
  replace (r + ((w - r) mod M - 1)) with (r - 1 + (w - r) mod M) by lia. rewrite Zplus_mod_idemp_r. f_equal. lia.
Qed.

Lemma ring_nil data r : ring data r r = [].
Proof using D. dims. unfold ring, used. by rewrite Z.sub_diag, Z.mod_0_l by lia. Qed.

(** Two consecutive stretches. *)
Lemma ring_app data r w e : used r w + used w e = used r e ->
  ring data r e = ring data r w ++ ring data w e.
Proof using D.
  dims.
  intros H. unfold ring. rewrite <- H. pose proof (used_range r w). pose proof (used_range w e).
  rewrite Z2Nat.inj_add, seq_app, fmap_app by lia. f_equal. simpl.
  rewrite <- (Nat.add_0_r (Z.to_nat (used r w))), <- fmap_add_seq, <- list_fmap_compose.
  apply list_fmap_ext. intros j k _. simpl.
  rewrite <- (at_mod data (r + _)), <- (at_mod data (w + _)). f_equal. rewrite Nat2Z.inj_add, Z2Nat.id by lia.
  unfold used. rewrite Z.add_assoc, <- Zplus_mod_idemp_l, Zplus_mod_idemp_r.
  replace (r + (w - r)) with w by lia. by rewrite Zplus_mod_idemp_l.
Qed.

(** A store outside a stretch does not change it. *)
Lemma ring_store data r w i v : (forall k, 0 <= k < used r w -> (r + k) mod N <> i mod N) ->
  ring (store data i v) r w = ring data r w.
Proof using D.
  dims.
  intros H. unfold ring. apply list_fmap_ext. intros j k Hk. apply lookup_seq in Hk as [-> Hk]. simpl.
  unfold at_, store. rewrite list_lookup_insert_ne; [done|]. intros E.
  pose proof (Z.mod_pos_bound (r + Z.of_nat j) N HN). pose proof (Z.mod_pos_bound i N HN).
  apply Z2Nat.inj in E; [|lia..]. apply (H (Z.of_nat j)); [lia|done].
Qed.

End ring.
