(* ===== verification/Plic.v ===== *)
(** * The interrupt controller: kernel/plic.c *)

From S2P Require Import Prelude Riscv CString Kalloc Vm Spinlock Proc ProcSpec Headers.

Definition plicinit : M kern unit :=
  reg_write (PLIC + UART0_IRQ * 4) 1 ;;;
  reg_write (PLIC + VIRTIO0_IRQ * 4) 1.

Section hart.
Context `{Board}.

Definition plicinithart : M kern unit :=
  hart <- on_mach cpuid ;;
  reg_write (PLIC_SENABLE hart) (Z.lor (Z.shiftl 1 UART0_IRQ) (Z.shiftl 1 VIRTIO0_IRQ)) ;;;
  reg_write (PLIC_SPRIORITY hart) 0.

Definition plic_claim : M kern Z :=
  hart <- on_mach cpuid ;;
  irq <- reg_read (PLIC_SCLAIM hart) ;;
  mret (i32 irq).

Definition plic_complete (irq : Z) : M kern unit :=
  hart <- on_mach cpuid ;;
  reg_write (PLIC_SCLAIM hart) irq.
End hart.
