(* ===== verification/Pipe.v ===== *)
(** * Pipes: kernel/pipe.c

    A pipe is found by the address of its page.  pipewrite and piperead are cut where they
    sleep: a [Parked] result carries what sleep() needs and the number of bytes done so far;
    the [_resume] functions go on after the sleep.  pipealloc is in File.v, with the file
    table it needs. *)

From S2P Require Import Prelude Riscv CString Kalloc Vm Spinlock Proc ProcSpec Headers Sleeplock.

Definition pipe_get {A} (pi : Z) (f : pipe -> A) : M kern A :=
  ps <- fget fs_pipes ;; x <- mlookup (ps !! pi) ;; mret (f x).
Definition pipe_set (pi : Z) (f : pipe -> pipe) : M kern unit :=
  ps <- fget fs_pipes ;; _ <- mlookup (ps !! pi) ;;
  fset (fun s => s <| fs_pipes ::= alter f pi |>).

(** [kend] is the linker's end of the kernel, which kfree checks against. *)
Definition pipeclose (kend : Z) (pi : Z) (writable : bool) : M kern unit :=
  acquire (LPipe pi) ;;;
  (if writable then
     pipe_set pi (fun x => x <| writeopen := 0 |>) ;;;
     wakeup (Some (ChPipeR pi))
   else
     pipe_set pi (fun x => x <| readopen := 0 |>) ;;;
     wakeup (Some (ChPipeW pi))) ;;;
  ro <- pipe_get pi readopen ;;
  wo <- pipe_get pi writeopen ;;
  if (ro =? 0) && (wo =? 0) then
    release (LPipe pi) ;;;
    on_phys (kfree kend pi) ;;;
    fset (fun s => s <| fs_pipes ::= delete pi |>)
  else release (LPipe pi).

(** [pi->data[pi->nwrite++ % PIPESIZE] = ch] and [pi->data[pi->nread++ % PIPESIZE]] *)
Definition put_byte (x : pipe) (ch : Z) : pipe :=
  x <| pi_data := <[Z.to_nat (nwrite x mod PIPESIZE) := ch]> (pi_data x) |>
    <| nwrite := u32 (nwrite x + 1) |>.
Definition get_byte (x : pipe) : Z := default 0 (pi_data x !! Z.to_nat (nread x mod PIPESIZE)).
Definition drop_byte (x : pipe) : pipe := x <| nread := u32 (nread x + 1) |>.

Definition pipe_full (x : pipe) : bool := nwrite x =? u32 (nread x + PIPESIZE).
Definition pipe_empty (x : pipe) : bool := nread x =? nwrite x.

(** The loop of pipewrite, with the lock held, from byte [i] on. *)
Fixpoint pipewrite_loop (fuel : nat) (pi : Z) (pr : nat) (addr n i : Z) : M kern (outcome Z (nat * Z * Z)) :=
  match fuel with
  | O => mfail NoFuel
  | S fuel' =>
      if i <? n then
        ro <- pipe_get pi readopen ;;
        stop <- (if ro =? 0 then mret true else k <- killed pr ;; mret (z2b k)) ;;
        if (stop : bool) then release (LPipe pi) ;;; mret (Done (-1))
        else
          full <- pipe_get pi pipe_full ;;
          if (full : bool) then
            wakeup (Some (ChPipeR pi)) ;;;
            k <- sleep_enter (Some (ChPipeW pi)) (LPipe pi) ;;
            mret (Parked (k, i))
          else
            pt <- proc_get pr p_pagetable ;;
            ' (r, bs) <- on_phys (copyin pt (u64 (addr + i)) 1) ;;
            if r =? -1 then
              wakeup (Some (ChPipeR pi)) ;;; release (LPipe pi) ;;; mret (Done i)
            else
              ch <- mlookup (bs !! 0%nat) ;;
              pipe_set pi (fun x => put_byte x ch) ;;;
              pipewrite_loop fuel' pi pr addr n (i + 1)
      else
        wakeup (Some (ChPipeR pi)) ;;; release (LPipe pi) ;;; mret (Done i)
  end.
Definition pipewrite_fuel (n i : Z) : nat := S (Z.to_nat (n - i)).
Definition pipewrite_call (pi addr n : Z) : M kern (outcome Z (nat * Z * Z)) :=
  pr <- self ;;
  acquire (LPipe pi) ;;;
  pipewrite_loop (pipewrite_fuel n 0) pi pr addr n 0.
Definition pipewrite_resume (pi addr n : Z) (k : nat * Z * Z) : M kern (outcome Z (nat * Z * Z)) :=
  sleep_exit (LPipe pi) (fst k) ;;;
  pipewrite_loop (pipewrite_fuel n (snd k)) pi (fst (fst k)) addr n (snd k).
Definition pipewrite (pi addr n : Z) : M kern Z :=
  r <- pipewrite_call pi addr n ;;
  match r with Done v => mret v | Parked _ => mfail Block end.

(** The copy loop of piperead. *)
Fixpoint piperead_copy (fuel : nat) (pi : Z) (pr : nat) (addr n i : Z) : M kern Z :=
  match fuel with
  | O => mret i
  | S fuel' =>
      empty <- pipe_get pi pipe_empty ;;
      if (empty : bool) then mret i
      else
        ch <- pipe_get pi get_byte ;;
        pipe_set pi drop_byte ;;;
        pt <- proc_get pr p_pagetable ;;
        r <- on_phys (copyout pt (u64 (addr + i)) [ch]) ;;
        if r =? -1 then mret i
        else piperead_copy fuel' pi pr addr n (i + 1)
  end.
Definition piperead_turn (pi : Z) (pr : nat) (addr n : Z) : M kern (outcome Z (nat * Z)) :=
  empty <- pipe_get pi pipe_empty ;;
  wo <- pipe_get pi writeopen ;;
  if empty && z2b wo then
    k <- killed pr ;;
    if z2b k then release (LPipe pi) ;;; mret (Done (-1))
    else
      k <- sleep_enter (Some (ChPipeR pi)) (LPipe pi) ;;
      mret (Parked k)
  else
    i <- piperead_copy (Z.to_nat n) pi pr addr n 0 ;;
    wakeup (Some (ChPipeW pi)) ;;;
    release (LPipe pi) ;;;
    mret (Done i).
Definition piperead_call (pi addr n : Z) : M kern (outcome Z (nat * Z)) :=
  pr <- self ;;
  acquire (LPipe pi) ;;;
  piperead_turn pi pr addr n.
Definition piperead_resume (pi addr n : Z) (k : nat * Z) : M kern (outcome Z (nat * Z)) :=
  sleep_exit (LPipe pi) k ;;;
  piperead_turn pi (fst k) addr n.
Definition piperead (pi addr n : Z) : M kern Z :=
  r <- piperead_call pi addr n ;;
  match r with Done v => mret v | Parked _ => mfail Block end.
