(* ===== verification/Uart.v ===== *)
(** * The serial port: kernel/uart.c, and consputc of kernel/console.c

    The UART is hardware: the receiver holds the bytes [u_in], a byte written to the transmit
    register is appended to [u_out], and [u_idle] says whether the transmitter can take
    another one.  uartputc is cut where it sleeps; spinning on a busy transmitter is
    [Err Block].  The panicked flag is never set in a run of the model, since panic ends
    it. *)

From S2P Require Import Prelude Riscv CString Kalloc Vm Spinlock Proc ProcSpec Headers Sleeplock.

Definition uget {A} (f : uart_state -> A) : M kern A := fget (fun s => f (fs_uart s)).
Definition uset (f : uart_state -> uart_state) : M kern unit := fset (fun s => s <| fs_uart ::= f |>).

Definition IER : Z := 1.
Definition IER_RX_ENABLE : Z := Z.shiftl 1 0.
Definition IER_TX_ENABLE : Z := Z.shiftl 1 1.
Definition FCR : Z := 2.
Definition FCR_FIFO_ENABLE : Z := Z.shiftl 1 0.
Definition FCR_FIFO_CLEAR : Z := Z.shiftl 3 1.
Definition LCR : Z := 3.
Definition LCR_EIGHT_BITS : Z := Z.shiftl 3 0.
Definition LCR_BAUD_LATCH : Z := Z.shiftl 1 7.
(** WriteReg *)
Definition write_reg (reg v : Z) : M kern unit := reg_write (UART0 + reg) v.
Definition BACKSPACE : Z := 0x100.

Section uart.
Context `{Board}.

Definition write_thr (c : Z) (u : uart_state) : uart_state :=
  u <| u_out := u8 c :: u_out u |> <| u_idle := next_idle u |>.

Definition uartinit : M kern unit :=
  write_reg IER 0x00 ;;;
  write_reg LCR LCR_BAUD_LATCH ;;;
  write_reg 0 0x03 ;;;
  write_reg 1 0x00 ;;;
  write_reg LCR LCR_EIGHT_BITS ;;;
  write_reg FCR (Z.lor FCR_FIFO_ENABLE FCR_FIFO_CLEAR) ;;;
  write_reg IER (Z.lor IER_TX_ENABLE IER_RX_ENABLE) ;;;
  on_mach (initlock LUart "uart").

Definition tx_full (u : uart_state) : bool := tx_w u =? u64 (tx_r u + UART_TX_BUF_SIZE).
Definition tx_put (c : Z) (u : uart_state) : uart_state :=
  u <| tx_buf := <[Z.to_nat (tx_w u mod UART_TX_BUF_SIZE) := u8 c]> (tx_buf u) |>
    <| tx_w := u64 (tx_w u + 1) |>.
Definition tx_head (u : uart_state) : Z := default 0 (tx_buf u !! Z.to_nat (tx_r u mod UART_TX_BUF_SIZE)).

Fixpoint uartstart_loop (fuel : nat) : M kern unit :=
  match fuel with
  | O => mfail NoFuel
  | S fuel' =>
      w <- uget tx_w ;; r <- uget tx_r ;;
      if w =? r then mret tt
      else
        idle <- uget u_idle ;;
        if negb idle then mret tt
        else
          c <- uget tx_head ;;
          uset (fun u => u <| tx_r := u64 (tx_r u + 1) |>) ;;;
          wakeup (Some ChUart) ;;;
          uset (write_thr c) ;;;
          uartstart_loop fuel'
  end.
Definition uartstart : M kern unit :=
  n <- uget (fun u => u64 (tx_w u - tx_r u)) ;;
  uartstart_loop (S (Z.to_nat n)).

Definition uartputc_turn (c : Z) : M kern (outcome unit (nat * Z)) :=
  full <- uget tx_full ;;
  if (full : bool) then k <- sleep_enter (Some ChUart) LUart ;; mret (Parked k)
  else
    uset (tx_put c) ;;;
    uartstart ;;;
    release LUart ;;;
    mret (Done tt).
Definition uartputc_call (c : Z) : M kern (outcome unit (nat * Z)) := acquire LUart ;;; uartputc_turn c.
Definition uartputc_resume (c : Z) (k : nat * Z) : M kern (outcome unit (nat * Z)) :=
  sleep_exit LUart k ;;; uartputc_turn c.
Definition uartputc (c : Z) : M kern unit :=
  r <- uartputc_call c ;;
  match r with Done _ => mret tt | Parked _ => mfail Block end.

Definition uartputc_sync (c : Z) : M kern unit :=
  on_mach push_off ;;;
  idle <- uget u_idle ;;
  if negb idle then mfail Block
  else
    uset (write_thr c) ;;;
    on_mach pop_off.

(** -1 when no input is waiting. *)
Definition uartgetc : M kern Z :=
  inp <- uget u_in ;;
  match inp with
  | [] => mret (-1)
  | c :: rest => uset (fun u => u <| u_in := rest |>) ;;; mret c
  end.

(** ** Echo and kernel output *)

Definition consputc (c : Z) : M kern unit :=
  if c =? BACKSPACE then uartputc_sync 8 ;;; uartputc_sync 32 ;;; uartputc_sync 8
  else uartputc_sync c.

End uart.
