(* ===== verification/Printf.v ===== *)
(** * Formatted output: kernel/printf.c

    printf is the list of characters its format and arguments stand for, sent one by one
    with consputc.  The kernel's panic is [Err (Panic msg)] everywhere in the model. *)

From S2P Require Import Prelude Riscv CString Kalloc Vm Spinlock Proc ProcSpec Headers Sleeplock Uart.

Definition MINUS : Z := 45.
Definition PERCENT : Z := 37.
(** digits[x] of "0123456789abcdef" *)
Definition digit (x : Z) : Z := if x <? 10 then 48 + x else 87 + x.

(** [do { buf[i++] = digits[x % base]; } while((x /= base) != 0)]: the digits, last one
    first. *)
Fixpoint digits_rev (fuel : nat) (x base : Z) : list Z :=
  match fuel with
  | O => []
  | S fuel' =>
      digit (x mod base) :: (if x / base =? 0 then [] else digits_rev fuel' (x / base) base)
  end.
(** An unsigned int has at most 32 digits in any base. *)
Definition printint (xx base : Z) (sign : bool) : list Z :=
  let neg := sign && (xx <? 0) in
  let x := if neg then u32 (- xx) else u32 xx in
  rev (digits_rev 32 x base ++ if neg then [MINUS] else []).

Definition printptr (x : Z) : list Z :=
  [48; 120] ++ ((fun i => digit (Z.shiftr (u64 (Z.shiftl x (4 * Z.of_nat i))) 60)) <$> seq 0 16).

Inductive arg := AInt (x : Z) | APtr (x : Z) | AStr (s : option (list Z)).
Definition NULL_STR : list Z := [40; 110; 117; 108; 108; 41].

Definition arg_int (args : list arg) : Z := match args with AInt x :: _ | APtr x :: _ => i32 x | _ => 0 end.
Definition arg_ptr (args : list arg) : Z := match args with AInt x :: _ | APtr x :: _ => u64 x | _ => 0 end.
Definition arg_str (args : list arg) : list Z := match args with AStr (Some s) :: _ => s | _ => NULL_STR end.

(** The characters that printf prints. *)
Fixpoint format (fmt : list Z) (args : list arg) : list Z :=
  match fmt with
  | [] => []
  | c :: fmt' =>
      if negb (c =? PERCENT) then c :: format fmt' args
      else
        match fmt' with
        | [] => []
        | d :: fmt'' =>
            if d =? 100 then printint (arg_int args) 10 true ++ format fmt'' (tail args)
            else if d =? 120 then printint (arg_int args) 16 true ++ format fmt'' (tail args)
            else if d =? 112 then printptr (arg_ptr args) ++ format fmt'' (tail args)
            else if d =? 115 then arg_str args ++ format fmt'' (tail args)
            else if d =? PERCENT then PERCENT :: format fmt'' args
            else PERCENT :: d :: format fmt'' args
        end
  end.

Section printf.
Context `{Board}.

Fixpoint putall (cs : list Z) : M kern unit :=
  match cs with [] => mret tt | c :: cs' => consputc c ;;; putall cs' end.
(** After printfinit, [pr.locking] is 1. *)
Definition printf (fmt : list Z) (args : list arg) : M kern unit :=
  acquire LPr ;;;
  putall (format fmt args) ;;;
  release LPr.
Definition printfinit : M kern unit := on_mach (initlock LPr "pr").

(** states[p->state] *)
Definition state_name (st : procstate) : list Z :=
  bytes_of match st with
           | UNUSED => "unused" | USED => "used" | SLEEPING => "sleep "
           | RUNNABLE => "runble" | RUNNING => "run   " | ZOMBIE => "zombie"
           end.
Definition FMT_PROC : list Z := bytes_of "%d %s %s".
Fixpoint procdump_from (n i : nat) : M kern unit :=
  match n with
  | O => mret tt
  | S n' =>
      st <- proc_get i p_state ;;
      (if decide (st = UNUSED) then mret tt
       else
         pid <- proc_get i p_pid ;;
         name <- proc_get i p_name ;;
         printf FMT_PROC [AInt pid; AStr (Some (state_name st)); AStr (Some (cstr name))] ;;;
         printf [10] []) ;;;
      procdump_from n' (S i)
  end.
Definition procdump : M kern unit :=
  printf [10] [] ;;;
  procdump_from NPROC 0.

End printf.

(** ** printint prints the number *)

(** The value of a digit string, and of a signed one. *)
Definition digit_val (base c : Z) : Z := if c <? 58 then c - 48 else c - 87.
Definition number (base : Z) (cs : list Z) : Z := foldl (fun a c => a * base + digit_val base c) 0 cs.
Definition parse (base : Z) (cs : list Z) : Z :=
  match cs with c :: cs' => if c =? MINUS then - number base cs' else number base cs | [] => 0 end.

Lemma digit_val_digit base x : 0 <= x < 16 -> digit_val base (digit x) = x.
Proof.
  intros Hx. unfold digit, digit_val. destruct (Z.ltb_spec x 10).
  - destruct (Z.ltb_spec (48 + x) 58); lia.
  - destruct (Z.ltb_spec (87 + x) 58); lia.
Qed.
Lemma digit_pos x : 0 <= x < 16 -> 48 <= digit x.
Proof. intros Hx. unfold digit. destruct (Z.ltb_spec x 10); lia. Qed.

Lemma number_snoc base cs c : number base (cs ++ [c]) = number base cs * base + digit_val base c.
Proof. unfold number. by rewrite foldl_app. Qed.

(** With enough digits, the digits give the number back. *)
Lemma digits_rev_number base fuel : 2 <= base <= 16 -> forall x, 0 <= x < base ^ Z.of_nat fuel -> (0 < fuel)%nat ->
  number base (rev (digits_rev fuel x base)) = x /\
  Forall (fun c => 48 <= c) (digits_rev fuel x base) /\ digits_rev fuel x base <> [].
Proof.
  intros Hb. induction fuel as [|fuel IH]; intros x Hx Hf; [lia|]. cbn [digits_rev].
  rewrite Nat2Z.inj_succ, Z.pow_succ_r in Hx by lia.
  pose proof (Z.mod_pos_bound x base ltac:(lia)) as Hm. pose proof (Z.div_mod x base ltac:(lia)) as Hdm.
  assert (Hq : 0 <= x / base < base ^ Z.of_nat fuel).
  { split; [apply Z.div_pos; lia|]. apply Z.div_lt_upper_bound; lia. }
  cbn [rev]. rewrite number_snoc, digit_val_digit by lia.
  destruct (Z.eqb_spec (x / base) 0) as [E|E].
  - split_and!; [simpl; unfold number; simpl; lia| |done]. constructor; [apply digit_pos; lia|constructor].
  - destruct (decide (fuel = 0%nat)) as [->|Hf']; [simpl in Hq; lia|].
    destruct (IH (x / base) Hq ltac:(lia)) as (H1 & H2 & _). rewrite H1.
    split_and!; [lia| |done]. constructor; [apply digit_pos; lia|done].
Qed.

Lemma pow_base_fuel base : 2 <= base -> 2 ^ 32 <= base ^ Z.of_nat 32.
Proof. intros Hb. apply Z.pow_le_mono_l. lia. Qed.

(** The digits that printint sends, read back in its base, are the number it was given:
    every 32-bit int for a signed conversion, INT_MIN included, and the unsigned value for
    an unsigned one. *)
Theorem printint_roundtrip xx base sign : - 2 ^ 31 <= xx < 2 ^ 31 -> base = 10 \/ base = 16 ->
  parse base (printint xx base sign) = if sign then xx else u32 xx.
Proof.
  intros Hx Hbase. assert (Hb : 2 <= base <= 16) by lia. unfold printint.
  set (neg := sign && (xx <? 0)). set (x := if neg then _ else _).
  assert (Hxr : 0 <= x < base ^ Z.of_nat 32).
  { pose proof (pow_base_fuel base ltac:(lia)). unfold x. pose proof (u32_range (- xx)). pose proof (u32_range xx).
    destruct neg; lia. }
  destruct (digits_rev_number base 32 Hb x Hxr ltac:(lia)) as (Hn & Hd & Hne).
  set (dg := digits_rev 32 x base) in *. clearbody dg.
  assert (Hhd : forall cs, cs = rev dg -> parse base cs = number base cs).
  { intros [|c cs] E; [done|]. unfold parse. destruct (Z.eqb_spec c MINUS) as [->|]; [|done].
    assert (Hc : MINUS ∈ dg) by (apply list_elem_of_In, in_rev, list_elem_of_In; rewrite <- E; apply list_elem_of_here).
    rewrite Forall_forall in Hd. apply Hd in Hc. unfold MINUS in Hc. lia. }
  rewrite rev_app_distr. unfold x, neg in *. destruct sign; simpl andb in *.
  - destruct (Z.ltb_spec xx 0) as [Hneg|Hpos].
    + unfold parse. cbn [rev app]. rewrite Z.eqb_refl, Hn, u32_small by lia. lia.
    + simpl. rewrite Hhd, Hn by done. apply u32_small. lia.
  - simpl. by rewrite Hhd, Hn by done.
Qed.
Lemma printint_roundtrip_witness : parse 10 (printint (- 2 ^ 31) 10 true) = - 2 ^ 31.
Proof. apply (printint_roundtrip (- 2 ^ 31) 10 true); [lia|by left]. Defined.
