(* ===== verification/Console.v ===== *)
(** * The console: kernel/console.c, and uartintr of kernel/uart.c

    consoleread is cut where it sleeps. *)

From S2P Require Import Prelude Riscv CString Kalloc Vm Spinlock Proc ProcSpec Headers Sleeplock Uart Printf.

Definition cget {A} (f : cons_state -> A) : M kern A := fget (fun s => f (fs_cons s)).
Definition cset (f : cons_state -> cons_state) : M kern unit := fset (fun s => s <| fs_cons ::= f |>).

Definition ctrl (x : Z) : Z := x - 64.
Definition NL : Z := 10.
Definition CR : Z := 13.
Definition DEL : Z := 0x7f.

Section console.
Context `{Board}.

Fixpoint consolewrite_loop (fuel : nat) (user_src : bool) (src n i : Z) : M kern Z :=
  match fuel with
  | O => mret i
  | S fuel' =>
      ' (r, bs) <- either_copyin user_src (u64 (src + i)) 1 ;;
      if r =? -1 then mret i
      else
        c <- mlookup (bs !! 0%nat) ;;
        uartputc c ;;;
        consolewrite_loop fuel' user_src src n (i + 1)
  end.
Definition consolewrite (user_src : bool) (src n : Z) : M kern Z :=
  consolewrite_loop (Z.to_nat n) user_src src n 0.

Definition cons_at (i : Z) (c : cons_state) : Z := default 0 (cons_buf c !! Z.to_nat (i mod INPUT_BUF_SIZE)).

(** The loop of consoleread with the lock held: [dst] and [n] as they are by now. *)
Fixpoint consoleread_loop (fuel : nat) (user_dst : bool) (target dst n : Z)
    : M kern (outcome Z (nat * Z * Z * Z)) :=
  match fuel with
  | O => mfail NoFuel
  | S fuel' =>
      if 0 <? n then
        r <- cget cons_r ;; w <- cget cons_w ;;
        if r =? w then
          p <- self ;;
          k <- killed p ;;
          if z2b k then release LCons ;;; mret (Done (-1))
          else
            k <- sleep_enter (Some ChCons) LCons ;;
            mret (Parked (k, dst, n))
        else
          c <- cget (cons_at r) ;;
          cset (fun x => x <| cons_r := u32 (r + 1) |>) ;;;
          if c =? ctrl 68 then
            mwhen (n <? target) (cset (fun x => x <| cons_r ::= fun r => u32 (r - 1) |>)) ;;;
            release LCons ;;; mret (Done (target - n))
          else
            res <- either_copyout user_dst dst [c] ;;
            if res =? -1 then release LCons ;;; mret (Done (target - n))
            else if c =? NL then release LCons ;;; mret (Done (target - (n - 1)))
            else consoleread_loop fuel' user_dst target (u64 (dst + 1)) (n - 1)
      else release LCons ;;; mret (Done (target - n))
  end.
Definition consoleread_call (user_dst : bool) (dst n : Z) : M kern (outcome Z (nat * Z * Z * Z)) :=
  acquire LCons ;;;
  consoleread_loop (S (Z.to_nat n)) user_dst n dst n.
Definition consoleread_resume (user_dst : bool) (target : Z) (k : nat * Z * Z * Z)
    : M kern (outcome Z (nat * Z * Z * Z)) :=
  let '(k, dst, n) := k in
  sleep_exit LCons k ;;;
  consoleread_loop (S (Z.to_nat n)) user_dst target dst n.
Definition consoleread (user_dst : bool) (dst n : Z) : M kern Z :=
  r <- consoleread_call user_dst dst n ;;
  match r with Done v => mret v | Parked _ => mfail Block end.

(** ^U: erase back to the start of the line. *)
Fixpoint kill_line (fuel : nat) : M kern unit :=
  match fuel with
  | O => mfail NoFuel
  | S fuel' =>
      e <- cget cons_e ;; w <- cget cons_w ;;
      if negb (e =? w) then
        c <- cget (cons_at (u32 (e - 1))) ;;
        if negb (c =? NL) then
          cset (fun x => x <| cons_e := u32 (e - 1) |>) ;;;
          consputc BACKSPACE ;;;
          kill_line fuel'
        else mret tt
      else mret tt
  end.
(** The cases of the switch of consoleintr other than ^P, with the lock held. *)
Definition intr_case (ch : Z) : M kern unit :=
  if ch =? ctrl 85 then
    n <- cget (fun x => u32 (cons_e x - cons_w x)) ;;
    kill_line (S (Z.to_nat n))
  else if (ch =? ctrl 72) || (ch =? DEL) then
    e <- cget cons_e ;; w <- cget cons_w ;;
    mwhen (negb (e =? w))
      (cset (fun x => x <| cons_e := u32 (e - 1) |>) ;;; consputc BACKSPACE)
  else
    e <- cget cons_e ;; r <- cget cons_r ;;
    mwhen (negb (ch =? 0) && (u32 (e - r) <? INPUT_BUF_SIZE))
      (let c := if ch =? CR then NL else ch in
       consputc c ;;;
       cset (fun x => x <| cons_buf := <[Z.to_nat (e mod INPUT_BUF_SIZE) := u8 c]> (cons_buf x) |>
                        <| cons_e := u32 (e + 1) |>) ;;;
       mwhen ((c =? NL) || (c =? ctrl 68) || (u32 (u32 (e + 1) - r) =? INPUT_BUF_SIZE))
         (cset (fun x => x <| cons_w := cons_e x |>) ;;;
          wakeup (Some ChCons))).
Definition consoleintr (c : Z) : M kern unit :=
  acquire LCons ;;;
  (if c =? ctrl 80 then procdump else intr_case c) ;;;
  release LCons.

Definition consoleinit : M kern unit :=
  on_mach (initlock LCons "cons") ;;;
  uartinit.

(** The characters that have arrived. *)
Fixpoint uartintr_loop (fuel : nat) : M kern unit :=
  match fuel with
  | O => mfail NoFuel
  | S fuel' =>
      c <- uartgetc ;;
      if c =? -1 then mret tt else consoleintr c ;;; uartintr_loop fuel'
  end.
Definition uartintr : M kern unit :=
  inp <- uget u_in ;;
  uartintr_loop (S (length inp)) ;;;
  acquire LUart ;;;
  uartstart ;;;
  release LUart.

End console.
