(* ===== verification/Bio.v ===== *)
(** * The buffer cache: kernel/bio.c

    The buffers are one table; index NBUF is [bcache.head], and the LRU list is threaded
    through [b_prev] and [b_next] as in the source.  What the cache uses of the disk driver
    is the interface [DiskOps]. *)

From S2P Require Import Prelude Riscv CString Kalloc Vm Spinlock Proc ProcSpec Headers Sleeplock.

(** Transfer of a buffer from ([false]) or to ([true]) the disk (kernel/virtio_disk.c). *)
Class DiskOps := { virtio_disk_rw : nat -> bool -> M kern unit }.

Definition buf_get {A} (b : nat) (f : buf -> A) : M kern A :=
  bs <- fget fs_bufs ;; x <- mlookup (bs !! b) ;; mret (f x).
Definition buf_set (b : nat) (f : buf -> buf) : M kern unit :=
  bs <- fget fs_bufs ;; _ <- mlookup (bs !! b) ;;
  fset (fun s => s <| fs_bufs ::= alter f b |>).

Section bio.
Context `{DiskOps}.

Definition binit : M kern unit :=
  on_mach (initlock LBcache "bcache") ;;;
  buf_set HEAD (fun x => x <| b_prev := HEAD |>) ;;;
  buf_set HEAD (fun x => x <| b_next := HEAD |>) ;;;
  mfor NBUF (fun b =>
    first <- buf_get HEAD b_next ;;
    buf_set b (fun x => x <| b_next := first |>) ;;;
    buf_set b (fun x => x <| b_prev := HEAD |>) ;;;
    initsleeplock (buf_lock b) "buffer" ;;;
    first <- buf_get HEAD b_next ;;
    buf_set first (fun x => x <| b_prev := b |>) ;;;
    buf_set HEAD (fun x => x <| b_next := b |>)).

(** [for(b = ...; b != &bcache.head; b = b->next) if(test) ...]: the first buffer along
    [link] that passes the test. *)
Fixpoint bscan (link : buf -> nat) (test : buf -> bool) (fuel b : nat) : M kern (option nat) :=
  match fuel with
  | O => mfail NoFuel
  | S fuel' =>
      if (b =? HEAD)%nat then mret None
      else
        x <- buf_get b (fun x => x) ;;
        if test x then mret (Some b) else bscan link test fuel' (link x)
  end.

Definition is_block (dev blockno : Z) (x : buf) : bool :=
  (b_dev x =? dev) && (b_blockno x =? blockno).
Definition unused (x : buf) : bool := b_refcnt x =? 0.

Definition bget (dev blockno : Z) : M kern nat :=
  acquire LBcache ;;;
  first <- buf_get HEAD b_next ;;
  hit <- bscan b_next (is_block dev blockno) (S NBUF) first ;;
  match hit with
  | Some b =>
      buf_set b (fun x => x <| b_refcnt ::= fun n => u32 (n + 1) |>) ;;;
      release LBcache ;;;
      acquiresleep (buf_lock b) ;;;
      mret b
  | None =>
      last <- buf_get HEAD b_prev ;;
      free <- bscan b_prev unused (S NBUF) last ;;
      match free with
      | Some b =>
          buf_set b (fun x => x <| b_dev := dev |>) ;;;
          buf_set b (fun x => x <| b_blockno := blockno |>) ;;;
          buf_set b (fun x => x <| b_valid := 0 |>) ;;;
          buf_set b (fun x => x <| b_refcnt := 1 |>) ;;;
          release LBcache ;;;
          acquiresleep (buf_lock b) ;;;
          mret b
      | None => panic "bget: no buffers"
      end
  end.

Definition bread (dev blockno : Z) : M kern nat :=
  b <- bget dev blockno ;;
  v <- buf_get b b_valid ;;
  mwhen (v =? 0) (virtio_disk_rw b false ;;; buf_set b (fun x => x <| b_valid := 1 |>)) ;;;
  mret b.

Definition bwrite (b : nat) : M kern unit :=
  h <- holdingsleep (buf_lock b) ;;
  if negb h then panic "bwrite" else virtio_disk_rw b true.

Definition brelse (b : nat) : M kern unit :=
  h <- holdingsleep (buf_lock b) ;;
  if negb h then panic "brelse"
  else
    releasesleep (buf_lock b) ;;;
    acquire LBcache ;;;
    buf_set b (fun x => x <| b_refcnt ::= fun n => u32 (n - 1) |>) ;;;
    r <- buf_get b b_refcnt ;;
    mwhen (r =? 0)
      (n <- buf_get b b_next ;; p <- buf_get b b_prev ;;
       buf_set n (fun x => x <| b_prev := p |>) ;;;
       p <- buf_get b b_prev ;; n <- buf_get b b_next ;;
       buf_set p (fun x => x <| b_next := n |>) ;;;
       first <- buf_get HEAD b_next ;;
       buf_set b (fun x => x <| b_next := first |>) ;;;
       buf_set b (fun x => x <| b_prev := HEAD |>) ;;;
       first <- buf_get HEAD b_next ;;
       buf_set first (fun x => x <| b_prev := b |>) ;;;
       buf_set HEAD (fun x => x <| b_next := b |>)) ;;;
    release LBcache.

Definition bpin (b : nat) : M kern unit :=
  acquire LBcache ;;;
  buf_set b (fun x => x <| b_refcnt ::= fun n => u32 (n + 1) |>) ;;;
  release LBcache.

Definition bunpin (b : nat) : M kern unit :=
  acquire LBcache ;;;
  buf_set b (fun x => x <| b_refcnt ::= fun n => u32 (n - 1) |>) ;;;
  release LBcache.

End bio.
