(* ===== verification/Virtio.v ===== *)
(** * The disk driver: kernel/virtio_disk.c

    The rings and descriptors the driver shares with the device.  virtio_disk_rw is cut
    where it sleeps: [rw_submit] is the code up to the notification, [rw_finish] the code
    after the device is done.  What the device writes, the used ring and its index, is part of
    the state, so the interrupt handler is given for every progress the device can have made. *)

From S2P Require Import Prelude Riscv CString Kalloc Vm Spinlock Proc ProcSpec Headers Sleeplock Bio.

Definition VIRTIO_MMIO_MAGIC_VALUE : Z := 0x000.
Definition VIRTIO_MMIO_VERSION : Z := 0x004.
Definition VIRTIO_MMIO_DEVICE_ID : Z := 0x008.
Definition VIRTIO_MMIO_VENDOR_ID : Z := 0x00c.
Definition VIRTIO_MMIO_DEVICE_FEATURES : Z := 0x010.
Definition VIRTIO_MMIO_DRIVER_FEATURES : Z := 0x020.
Definition VIRTIO_MMIO_QUEUE_SEL : Z := 0x030.
Definition VIRTIO_MMIO_QUEUE_NUM_MAX : Z := 0x034.
Definition VIRTIO_MMIO_QUEUE_NUM : Z := 0x038.
Definition VIRTIO_MMIO_QUEUE_READY : Z := 0x044.
Definition VIRTIO_MMIO_QUEUE_NOTIFY : Z := 0x050.
Definition VIRTIO_MMIO_INTERRUPT_STATUS : Z := 0x060.
Definition VIRTIO_MMIO_INTERRUPT_ACK : Z := 0x064.
Definition VIRTIO_MMIO_STATUS : Z := 0x070.
Definition VIRTIO_MMIO_QUEUE_DESC_LOW : Z := 0x080.
Definition VIRTIO_MMIO_QUEUE_DESC_HIGH : Z := 0x084.
Definition VIRTIO_MMIO_DRIVER_DESC_LOW : Z := 0x090.
Definition VIRTIO_MMIO_DRIVER_DESC_HIGH : Z := 0x094.
Definition VIRTIO_MMIO_DEVICE_DESC_LOW : Z := 0x0a0.
Definition VIRTIO_MMIO_DEVICE_DESC_HIGH : Z := 0x0a4.

Definition VIRTIO_CONFIG_S_ACKNOWLEDGE : Z := 1.
Definition VIRTIO_CONFIG_S_DRIVER : Z := 2.
Definition VIRTIO_CONFIG_S_DRIVER_OK : Z := 4.
Definition VIRTIO_CONFIG_S_FEATURES_OK : Z := 8.
Definition VIRTIO_BLK_F_RO : Z := 5.
Definition VIRTIO_BLK_F_SCSI : Z := 7.
Definition VIRTIO_BLK_F_CONFIG_WCE : Z := 11.
Definition VIRTIO_BLK_F_MQ : Z := 12.
Definition VIRTIO_F_ANY_LAYOUT : Z := 27.
Definition VIRTIO_RING_F_INDIRECT_DESC : Z := 28.
Definition VIRTIO_RING_F_EVENT_IDX : Z := 29.
(** The address of a register. *)
Definition R (r : Z) : Z := VIRTIO0 + r.

Definition VRING_DESC_F_NEXT : Z := 1.
Definition VRING_DESC_F_WRITE : Z := 2.
Definition VIRTIO_BLK_T_IN : Z := 0.
Definition VIRTIO_BLK_T_OUT : Z := 1.

Definition vget {A} (f : vdisk -> A) : M kern A := fget (fun s => f (fs_vdisk s)).
Definition vset (f : vdisk -> vdisk) : M kern unit := fset (fun s => s <| fs_vdisk ::= f |>).
Definition set_desc (i : nat) (d : vdesc) : M kern unit := vset (fun v => v <| v_desc ::= insert i d |>).

(** [features &= ~(1 << bit)] *)
Definition drop_feature (bit features : Z) : Z := Z.land features (u64 (Z.lnot (Z.shiftl 1 bit))).
Definition driver_features (features : Z) : Z :=
  drop_feature VIRTIO_RING_F_INDIRECT_DESC (drop_feature VIRTIO_RING_F_EVENT_IDX
    (drop_feature VIRTIO_F_ANY_LAYOUT (drop_feature VIRTIO_BLK_F_MQ
      (drop_feature VIRTIO_BLK_F_CONFIG_WCE (drop_feature VIRTIO_BLK_F_SCSI
        (drop_feature VIRTIO_BLK_F_RO features)))))).

Section init.
Context `{Board}.

(** The chain of || evaluates from the left and stops at the first difference. *)
Fixpoint expect_regs (rs : list (Z * Z)) : M kern bool :=
  match rs with
  | [] => mret true
  | (r, v) :: rs' => x <- reg_read (R r) ;; if negb (x =? v) then mret false else expect_regs rs'
  end.
Definition negotiate : M kern Z :=
  let status := 0 in
  reg_write (R VIRTIO_MMIO_STATUS) status ;;;
  let status := Z.lor status VIRTIO_CONFIG_S_ACKNOWLEDGE in
  reg_write (R VIRTIO_MMIO_STATUS) status ;;;
  let status := Z.lor status VIRTIO_CONFIG_S_DRIVER in
  reg_write (R VIRTIO_MMIO_STATUS) status ;;;
  features <- reg_read (R VIRTIO_MMIO_DEVICE_FEATURES) ;;
  reg_write (R VIRTIO_MMIO_DRIVER_FEATURES) (u32 (driver_features features)) ;;;
  let status := Z.lor status VIRTIO_CONFIG_S_FEATURES_OK in
  reg_write (R VIRTIO_MMIO_STATUS) status ;;;
  status <- reg_read (R VIRTIO_MMIO_STATUS) ;;
  if Z.land status VIRTIO_CONFIG_S_FEATURES_OK =? 0 then panic "virtio disk FEATURES_OK unset"
  else mret status.
(** The three pages of the queue. *)
Definition alloc_queue : M kern (Z * Z * Z) :=
  desc <- on_phys kalloc ;;
  avail <- on_phys kalloc ;;
  used <- on_phys kalloc ;;
  if (desc =? 0) || (avail =? 0) || (used =? 0) then panic "virtio disk kalloc"
  else
    on_phys (ram_update (fun m => memset m desc 0 PGSIZE)) ;;;
    on_phys (ram_update (fun m => memset m avail 0 PGSIZE)) ;;;
    on_phys (ram_update (fun m => memset m used 0 PGSIZE)) ;;;
    vset (fun v => v <| v_desc := replicate NUM vdesc0 |>
                     <| v_avail_idx := 0 |> <| v_avail := replicate NUM 0 |>
                     <| v_used_dev := 0 |> <| v_used := replicate NUM 0 |>) ;;;
    mret (desc, avail, used).
Definition write_addr (low high a : Z) : M kern unit :=
  reg_write (R low) (u32 a) ;;;
  reg_write (R high) (u32 (Z.shiftr a 32)).
Definition virtio_disk_init : M kern unit :=
  on_mach (initlock LDisk "virtio_disk") ;;;
  ok <- expect_regs [(VIRTIO_MMIO_MAGIC_VALUE, 0x74726976); (VIRTIO_MMIO_VERSION, 2);
                     (VIRTIO_MMIO_DEVICE_ID, 2); (VIRTIO_MMIO_VENDOR_ID, 0x554d4551)] ;;
  if negb ok then panic "could not find virtio disk"
  else
    status <- negotiate ;;
    reg_write (R VIRTIO_MMIO_QUEUE_SEL) 0 ;;;
    ready <- reg_read (R VIRTIO_MMIO_QUEUE_READY) ;;
    if negb (ready =? 0) then panic "virtio disk should not be ready"
    else
      max <- reg_read (R VIRTIO_MMIO_QUEUE_NUM_MAX) ;;
      if max =? 0 then panic "virtio disk has no queue 0"
      else if max <? Z.of_nat NUM then panic "virtio disk max queue too short"
      else
        ' (desc, avail, used) <- alloc_queue ;;
        reg_write (R VIRTIO_MMIO_QUEUE_NUM) (Z.of_nat NUM) ;;;
        write_addr VIRTIO_MMIO_QUEUE_DESC_LOW VIRTIO_MMIO_QUEUE_DESC_HIGH desc ;;;
        write_addr VIRTIO_MMIO_DRIVER_DESC_LOW VIRTIO_MMIO_DRIVER_DESC_HIGH avail ;;;
        write_addr VIRTIO_MMIO_DEVICE_DESC_LOW VIRTIO_MMIO_DEVICE_DESC_HIGH used ;;;
        reg_write (R VIRTIO_MMIO_QUEUE_READY) 1 ;;;
        vset (fun v => v <| v_free := replicate NUM 1 |>) ;;;
        reg_write (R VIRTIO_MMIO_STATUS) (Z.lor status VIRTIO_CONFIG_S_DRIVER_OK).
End init.

Definition alloc_desc : M kern Z :=
  fr <- vget v_free ;;
  match list_find (fun x => x <> 0) (take NUM fr) with
  | Some (i, _) => vset (fun v => v <| v_free ::= insert i 0 |>) ;;; mret (Z.of_nat i)
  | None => mret (-1)
  end.

Definition free_desc (i : Z) : M kern unit :=
  if Z.of_nat NUM <=? i then panic "free_desc 1"
  else
    fr <- vget v_free ;;
    x <- mlookup (fr !! Z.to_nat i) ;;
    if z2b x then panic "free_desc 2"
    else
      set_desc (Z.to_nat i) vdesc0 ;;;
      vset (fun v => v <| v_free ::= insert (Z.to_nat i) 1 |>) ;;;
      wakeup (Some ChDisk).

Fixpoint free_chain_loop (fuel : nat) (i : Z) : M kern unit :=
  match fuel with
  | O => mfail NoFuel
  | S fuel' =>
      ds <- vget v_desc ;;
      d <- mlookup (ds !! Z.to_nat i) ;;
      free_desc i ;;;
      if z2b (Z.land (vd_flags d) VRING_DESC_F_NEXT) then free_chain_loop fuel' (vd_next d)
      else mret tt
  end.
(** Every turn frees a descriptor that was not free. *)
Definition free_chain (i : Z) : M kern unit := free_chain_loop (S NUM) i.

(** The three descriptors, or [None] with those allocated given back. *)
Definition alloc3_desc : M kern (option (Z * Z * Z)) :=
  i0 <- alloc_desc ;;
  if i0 <? 0 then mret None
  else
    i1 <- alloc_desc ;;
    if i1 <? 0 then free_desc i0 ;;; mret None
    else
      i2 <- alloc_desc ;;
      if i2 <? 0 then free_desc i0 ;;; free_desc i1 ;;; mret None
      else mret (Some (i0, i1, i2)).

(** With the lock held and the descriptors allocated, up to the notification. *)
Definition rw_submit (b : nat) (write : bool) (idx : Z * Z * Z) : M kern unit :=
  let '(i0, i1, i2) := idx in
  blockno <- buf_get b b_blockno ;;
  let sector := u32 (blockno * (BSIZE / 512)) in
  vset (fun v => v <| v_ops ::= insert (Z.to_nat i0)
                        (if write then VIRTIO_BLK_T_OUT else VIRTIO_BLK_T_IN, sector) |>) ;;;
  set_desc (Z.to_nat i0) (Vdesc (DmaOp (Z.to_nat i0)) 16 VRING_DESC_F_NEXT i1) ;;;
  set_desc (Z.to_nat i1) (Vdesc (DmaBuf b) BSIZE
    (Z.lor (if write then 0 else VRING_DESC_F_WRITE) VRING_DESC_F_NEXT) i2) ;;;
  vset (fun v => v <| v_status ::= insert (Z.to_nat i0) 0xff |>) ;;;
  set_desc (Z.to_nat i2) (Vdesc (DmaStatus (Z.to_nat i0)) 1 VRING_DESC_F_WRITE 0) ;;;
  buf_set b (fun x => x <| b_disk := 1 |>) ;;;
  vset (fun v => v <| v_info_b ::= insert (Z.to_nat i0) (Some b) |>) ;;;
  idx <- vget v_avail_idx ;;
  vset (fun v => v <| v_avail ::= insert (Z.to_nat (idx mod Z.of_nat NUM)) i0 |>) ;;;
  vset (fun v => v <| v_avail_idx := u16 (idx + 1) |>) ;;;
  reg_write (R VIRTIO_MMIO_QUEUE_NOTIFY) 0.

(** With the lock held and b->disk 0 again. *)
Definition rw_finish (i0 : Z) : M kern unit :=
  vset (fun v => v <| v_info_b ::= insert (Z.to_nat i0) None |>) ;;;
  free_chain i0.

(** Where the call is: waiting for descriptors, or for the device. *)
Inductive rw_wait := WaitDesc | WaitDone (i0 : Z).
Definition rw_done_turn (b : nat) (i0 : Z) : M kern (outcome unit (rw_wait * (nat * Z))) :=
  busy <- buf_get b b_disk ;;
  if busy =? 1 then
    k <- sleep_enter (Some (ChBuf b)) LDisk ;;
    mret (Parked (WaitDone i0, k))
  else
    rw_finish i0 ;;;
    release LDisk ;;;
    mret (Done tt).
Definition rw_desc_turn (b : nat) (write : bool) : M kern (outcome unit (rw_wait * (nat * Z))) :=
  idx <- alloc3_desc ;;
  match idx with
  | None => k <- sleep_enter (Some ChDisk) LDisk ;; mret (Parked (WaitDesc, k))
  | Some idx => rw_submit b write idx ;;; rw_done_turn b (fst (fst idx))
  end.
Definition virtio_disk_rw_call (b : nat) (write : bool) : M kern (outcome unit (rw_wait * (nat * Z))) :=
  acquire LDisk ;;;
  rw_desc_turn b write.
Definition virtio_disk_rw_resume (b : nat) (write : bool) (k : rw_wait * (nat * Z))
    : M kern (outcome unit (rw_wait * (nat * Z))) :=
  sleep_exit LDisk (snd k) ;;;
  match fst k with WaitDesc => rw_desc_turn b write | WaitDone i0 => rw_done_turn b i0 end.

Fixpoint intr_loop (fuel : nat) : M kern unit :=
  match fuel with
  | O => mfail NoFuel
  | S fuel' =>
      v <- vget (fun v => v) ;;
      if v_used_idx v =? v_used_dev v then mret tt
      else
        id <- mlookup (v_used v !! Z.to_nat (v_used_idx v mod Z.of_nat NUM)) ;;
        status <- mlookup (v_status v !! Z.to_nat id) ;;
        if negb (status =? 0) then panic "virtio_disk_intr status"
        else
          ob <- mlookup (v_info_b v !! Z.to_nat id) ;;
          b <- mlookup ob ;;
          buf_set b (fun x => x <| b_disk := 0 |>) ;;;
          wakeup (Some (ChBuf b)) ;;;
          vset (fun v => v <| v_used_idx ::= fun i => u16 (i + 1) |>) ;;;
          intr_loop fuel'
  end.
(** The used ring has NUM entries. *)
Definition virtio_disk_intr `{Board} : M kern unit :=
  acquire LDisk ;;;
  status <- reg_read (R VIRTIO_MMIO_INTERRUPT_STATUS) ;;
  reg_write (R VIRTIO_MMIO_INTERRUPT_ACK) (Z.land status 0x3) ;;;
  intr_loop (S NUM) ;;;
  release LDisk.

(** ** The device *)

(** The request whose chain of descriptors starts at [h]: its type and sector, the buffer
    and the status byte. *)
Definition chain3 (v : vdisk) (h : nat) : option (Z * Z * nat * nat) :=
  match v_desc v !! h with
  | None => None
  | Some d0 =>
      match v_desc v !! Z.to_nat (vd_next d0) with
      | None => None
      | Some d1 =>
          match vd_addr d0, vd_addr d1, vd_addr <$> v_desc v !! Z.to_nat (vd_next d1) with
          | DmaOp i, DmaBuf b, Some (DmaStatus j) =>
              match v_ops v !! i with Some op => Some (fst op, snd op, b, j) | None => None end
          | _, _, _ => None
          end
      end
  end.
