(* ===== verification/Dlist.v ===== *)
(** * Doubly linked lists of table indices

    The shape of the LRU list of kernel/bio.c, apart from the buffers that carry it: the
    links are two functions on indices. *)

From S2P Require Import Prelude.

Section dlist.
Implicit Types (nx pv : nat -> nat) (x y z b p n : nat) (l : list nat).

Definition upd (f : nat -> nat) (k v : nat) : nat -> nat := fun i => if decide (i = k) then v else f i.

Lemma upd_eq f k v : upd f k v k = v.
Proof. unfold upd. by rewrite decide_True. Qed.
Lemma upd_ne f k v i : i <> k -> upd f k v i = f i.
Proof. intros. unfold upd. by rewrite decide_False. Qed.

(** From [x] through [l] to [y], every link in both directions. *)
Fixpoint chain nx pv x l y : Prop :=
  match l with
  | [] => nx x = y /\ pv y = x
  | z :: l' => (nx x = z /\ pv z = x) /\ chain nx pv z l' y
  end.

Lemma chain_app nx pv x l1 z l2 y :
  chain nx pv x (l1 ++ z :: l2) y <-> chain nx pv x l1 z /\ chain nx pv z l2 y.
Proof.
  revert x. induction l1 as [|w l1 IH]; intros x; simpl; [tauto|]. rewrite IH. tauto.
Qed.

Lemma chain_snoc nx pv x l z y :
  chain nx pv x (l ++ [z]) y <-> chain nx pv x l z /\ nx z = y /\ pv y = z.
Proof. rewrite chain_app. done. Qed.

(** A chain depends on the forward links of all but its end, and the backward links of all
    but its start. *)
Lemma chain_frame nx pv nx' pv' x l y : chain nx pv x l y ->
  (forall i, i ∈ x :: l -> nx' i = nx i) -> (forall i, i ∈ l ++ [y] -> pv' i = pv i) ->
  chain nx' pv' x l y.
Proof.
  revert x. induction l as [|z l IH]; intros x; simpl.
  - intros [H1 H2] Hn Hp. rewrite Hn, Hp by set_solver. done.
  - intros [[H1 H2] H3] Hn Hp. rewrite Hn, Hp by set_solver. split; [done|].
    apply IH; [done|set_solver..].
Qed.

(** The first node after [x], and the last one before [y]. *)
Lemma chain_next nx pv x l y : chain nx pv x l y -> nx x = hd y (l ++ [y]).
Proof. destruct l; simpl; tauto. Qed.
Lemma chain_prev nx pv x l y : chain nx pv x l y -> pv y = default x (last l).
Proof.
  destruct l as [|z l _] using rev_ind; simpl; [tauto|].
  rewrite chain_snoc, last_snoc. simpl. tauto.
Qed.

(** b->next->prev = b->prev; b->prev->next = b->next; *)
Lemma chain_unlink nx pv h l1 b l2 : chain nx pv h (l1 ++ b :: l2) h ->
  NoDup (h :: l1 ++ b :: l2) ->
  chain (upd nx (pv b) (nx b)) (upd pv (nx b) (pv b)) h (l1 ++ l2) h.
Proof.
  intros [H1 H2]%chain_app Hnd.
  assert (Hh : h ∉ l1 /\ h <> b /\ h ∉ l2 /\ NoDup l1 /\ NoDup l2 /\ b ∉ l1 /\ b ∉ l2 /\
    forall i, i ∈ l1 -> i ∉ l2).
  { apply NoDup_cons in Hnd as [Hn (Hd1 & Hd2 & [Hd3 Hd4]%NoDup_cons)%NoDup_app].
    split_and!; set_solver. }
  destruct Hh as (Hh1 & Hhb & Hh2 & Hd1 & Hd2 & Hb1 & Hb2 & Hdis).
  pose proof (chain_prev _ _ _ _ _ H1) as Ep. pose proof (chain_next _ _ _ _ _ H2) as En.
  set (p := pv b) in *. set (n := nx b) in *.
  destruct l1 as [|p' l1 _] using rev_ind.
  - simpl in Ep, H1. destruct l2 as [|n' l2]; simpl in En, H2 |- *; subst p n.
    + rewrite Ep, En, !upd_eq. done.
    + rewrite Ep, En, !upd_eq. split; [done|]. destruct H2 as [_ H2].
      apply (chain_frame nx pv); [done| |].
      * intros i Hi. apply upd_ne. intros ->. set_solver.
      * intros i Hi. apply upd_ne. intros ->. apply NoDup_cons in Hd2 as [? ?]. set_solver.
  - rewrite last_snoc in Ep. simpl in Ep. apply chain_snoc in H1 as [H1 _].
    apply NoDup_app in Hd1 as (Hd1 & Hd1' & _).
    rewrite <- app_assoc. simpl. apply chain_app. split.
    + apply (chain_frame nx pv); [done| |]; intros i Hi; apply upd_ne; intros ->.
      * set_solver.
      * destruct l2 as [|n' l2]; simpl in En; set_solver.
    + destruct l2 as [|n' l2]; simpl in En |- *; rewrite Ep, En, !upd_eq; [done|]. split; [done|].
      destruct H2 as [_ H2]. apply (chain_frame nx pv); [done| |]; intros i Hi; apply upd_ne; intros ->.
      * set_solver.
      * apply NoDup_cons in Hd2 as [? ?]. set_solver.
Qed.

(** b->next = head.next; b->prev = &head; head.next->prev = b; head.next = b; *)
Lemma chain_push nx pv h l b : chain nx pv h l h -> NoDup (h :: l) -> b ∉ h :: l ->
  chain (upd (upd nx b (nx h)) h b) (upd (upd pv b h) (nx h) b) h (b :: l) h.
Proof.
  intros H Hnd Hb. apply NoDup_cons in Hnd as [Hh Hnd].
  pose proof (chain_next _ _ _ _ _ H) as En.
  assert (Hbn : nx h <> b). { destruct l; simpl in En; set_solver. }
  simpl. rewrite upd_eq. rewrite (upd_ne _ (nx h) b b) by done. rewrite upd_eq.
  split; [done|]. destruct l as [|n l]; simpl in *.
  - rewrite upd_ne, upd_eq by set_solver. destruct H as [E _]. rewrite E, upd_eq. done.
  - rewrite upd_ne, upd_eq by set_solver. destruct H as [[E _] H]. rewrite E, upd_eq. split; [done|].
    apply NoDup_cons in Hnd as [Hn Hnd].
    apply (chain_frame nx pv); [done| |]; intros i Hi; rewrite !upd_ne; set_solver.
Qed.


Lemma chain_rev nx pv x l y : chain nx pv x l y -> chain pv nx y (rev l) x.
Proof.
  revert x. induction l as [|z l IH]; intros x; simpl; [tauto|].
  intros [[H1 H2] H3]. apply chain_snoc. auto.
Qed.

Lemma chain_ext nx pv nx' pv' x l y : chain nx pv x l y -> (forall i, nx' i = nx i) ->
  (forall i, pv' i = pv i) -> chain nx' pv' x l y.
Proof. intros H H1 H2. by apply (chain_frame nx pv). Qed.

End dlist.
