(* ===== verification/BioSpec.v ===== *)
(** * The buffer cache: invariant and what bread, bwrite and brelse do

    [order] is the LRU list, most recent first.  [blk] is the content of a block as the
    file system sees it: the cached copy if there is a valid one, the disk otherwise.
    bread returns [blk], and nothing but a write to a locked buffer changes it. *)

From S2P Require Import Prelude Riscv CString Kalloc Vm Spinlock Proc ProcSpec Headers Sleeplock Bio Dlist.

(** ** The LRU list *)

Section lru.
Implicit Types (bs : list buf) (b : nat) (x : buf) (order : list nat) (s : kern).

Definition nxt bs b : nat := from_option b_next 0%nat (bs !! b).
Definition prv bs b : nat := from_option b_prev 0%nat (bs !! b).
(** A buffer without its links. *)
Definition core x : buf := x <| b_prev := 0%nat |> <| b_next := 0%nat |>.

Record lru bs order : Prop := {
  lr_len : length bs = S NBUF;
  lr_perm : order ≡ₚ seq 0 NBUF;
  lr_chain : chain (nxt bs) (prv bs) HEAD order HEAD
}.

Lemma lru_in bs order b : lru bs order -> b ∈ order <-> (b < NBUF)%nat.
Proof. intros [_ Hp _]. rewrite Hp, elem_of_seq. lia. Qed.
Lemma lru_nodup bs order : lru bs order -> NoDup (HEAD :: order).
Proof.
  intros H. apply NoDup_cons. split.
  - rewrite (lru_in bs order _ H). unfold HEAD. lia.
  - rewrite (lr_perm _ _ H). apply NoDup_seq.
Qed.
Lemma lru_length bs order : lru bs order -> length order = NBUF.
Proof. intros H. rewrite (lr_perm _ _ H). apply length_seq. Qed.
Lemma lru_lookup bs order b : lru bs order -> (b <= NBUF)%nat -> is_Some (bs !! b).
Proof. intros H Hb. apply lookup_lt_is_Some_2. rewrite (lr_len _ _ H). lia. Qed.

(** Link updates. *)
Definition set_next bs b (v : nat) : list buf := alter (fun x => x <| b_next := v |>) b bs.
Definition set_prev bs b (v : nat) : list buf := alter (fun x => x <| b_prev := v |>) b bs.

Lemma alter_lookup (f : buf -> buf) bs b i : alter f b bs !! i =
  if decide (i = b) then f <$> bs !! i else bs !! i.
Proof.
  destruct (decide (i = b)) as [->|]; [apply list_lookup_alter_eq|].
  by rewrite list_lookup_alter_ne.
Qed.

Lemma nxt_set_next bs b v : (b < length bs)%nat -> forall i, nxt (set_next bs b v) i = upd (nxt bs) b v i.
Proof.
  intros Hb i. unfold nxt, set_next, upd. rewrite alter_lookup. case_decide as E; [|done]. subst.
  destruct (lookup_lt_is_Some_2 bs b Hb) as [x ->]. done.
Qed.
Lemma prv_set_next bs b v i : prv (set_next bs b v) i = prv bs i.
Proof. unfold prv, set_next. rewrite alter_lookup. case_decide; [|done]. by destruct (bs !! i). Qed.
Lemma prv_set_prev bs b v : (b < length bs)%nat -> forall i, prv (set_prev bs b v) i = upd (prv bs) b v i.
Proof.
  intros Hb i. unfold prv, set_prev, upd. rewrite alter_lookup. case_decide as E; [|done]. subst.
  destruct (lookup_lt_is_Some_2 bs b Hb) as [x ->]. done.
Qed.
Lemma nxt_set_prev bs b v i : nxt (set_prev bs b v) i = nxt bs i.
Proof. unfold nxt, set_prev. rewrite alter_lookup. case_decide; [|done]. by destruct (bs !! i). Qed.
Lemma length_set_next bs b v : length (set_next bs b v) = length bs.
Proof. apply length_alter. Qed.
Lemma length_set_prev bs b v : length (set_prev bs b v) = length bs.
Proof. apply length_alter. Qed.
Lemma core_set_next bs b v : core <$> set_next bs b v = core <$> bs.
Proof.
  apply list_eq. intros i. rewrite !list_lookup_fmap. unfold set_next. rewrite alter_lookup.
  case_decide; [|done]. by destruct (bs !! i).
Qed.
Lemma core_set_prev bs b v : core <$> set_prev bs b v = core <$> bs.
Proof.
  apply list_eq. intros i. rewrite !list_lookup_fmap. unfold set_prev. rewrite alter_lookup.
  case_decide; [|done]. by destruct (bs !! i).
Qed.

(** Moving [b] to the front, as brelse does. *)
Definition to_front bs b : list buf :=
  let n := nxt bs b in let p := prv bs b in
  let bs1 := set_prev bs n p in
  let p := prv bs1 b in let n := nxt bs1 b in
  let bs2 := set_next bs1 p n in
  let bs3 := set_next bs2 b (nxt bs2 HEAD) in
  let bs4 := set_prev bs3 b HEAD in
  let bs5 := set_prev bs4 (nxt bs4 HEAD) b in
  set_next bs5 HEAD b.

Lemma core_to_front bs b : core <$> to_front bs b = core <$> bs.
Proof. unfold to_front. by rewrite ?core_set_next, ?core_set_prev, ?core_set_next, ?core_set_prev, ?core_set_next, ?core_set_prev. Qed.

Lemma lru_front bs l1 b l2 : lru bs (l1 ++ b :: l2) -> lru (to_front bs b) (b :: l1 ++ l2).
Proof.
  intros H. pose proof (lru_nodup _ _ H) as Hnd. destruct H as [Hlen Hperm Hch].
  assert (Hb : b <> HEAD). { intros ->. apply NoDup_cons in Hnd as [Hh _]. set_solver. }
  assert (Hle : forall i, i ∈ HEAD :: l1 ++ b :: l2 -> (i < length bs)%nat).
  { intros i [->|Hi]%elem_of_cons; [unfold HEAD; lia|]. rewrite Hperm, elem_of_seq in Hi. lia. }
  assert (Hbl : (b < length bs)%nat) by (apply Hle; set_solver).
  assert (Hhl : (HEAD < length bs)%nat) by (apply Hle; set_solver).
  pose proof Hch as [Hc1 Hc2]%chain_app.
  assert (Hn : nxt bs b ∈ HEAD :: l2).
  { rewrite (chain_next _ _ _ _ _ Hc2). destruct l2; set_solver. }
  assert (Hp : prv bs b ∈ HEAD :: l1).
  { rewrite (chain_prev _ _ _ _ _ Hc1). destruct (last l1) as [z|] eqn:E; [|set_solver].
    apply last_Some_elem_of in E. set_solver. }
  assert (Hnb : nxt bs b <> b).
  { intros E. rewrite E in Hn. apply NoDup_cons in Hnd as [? (_ & _ & [? _]%NoDup_cons)%NoDup_app].
    set_solver. }
  pose proof (Hle (nxt bs b) ltac:(set_solver)) as Hnl. pose proof (Hle (prv bs b) ltac:(set_solver)) as Hpl.
  set (bs1 := set_prev bs (nxt bs b) (prv bs b)).
  assert (E1 : prv bs1 b = prv bs b).
  { unfold bs1. rewrite prv_set_prev by done. apply upd_ne. congruence. }
  assert (E2 : nxt bs1 b = nxt bs b) by apply nxt_set_prev.
  set (bs2 := set_next bs1 (prv bs b) (nxt bs b)).
  assert (L1 : length bs1 = length bs) by apply length_set_prev.
  assert (L2 : length bs2 = length bs) by (unfold bs2; by rewrite length_set_next).
  assert (Hc' : chain (nxt bs2) (prv bs2) HEAD (l1 ++ l2) HEAD).
  { eapply chain_ext; [apply (chain_unlink _ _ _ _ _ _ Hch Hnd)| |]; intros i; unfold bs2, bs1.
    - rewrite nxt_set_next by (by rewrite length_set_prev). unfold upd. case_decide; [done|]. apply nxt_set_prev.
    - rewrite prv_set_next. by apply prv_set_prev. }
  assert (Hnd' : NoDup (HEAD :: l1 ++ l2) /\ b ∉ HEAD :: l1 ++ l2).
  { apply NoDup_cons in Hnd as [Hh (Hd1 & Hd2 & [Hd3 Hd4]%NoDup_cons)%NoDup_app].
    split; [apply NoDup_cons; split; [set_solver|apply NoDup_app; split_and!; set_solver]|set_solver]. }
  assert (Hnh : nxt bs2 HEAD ∈ HEAD :: l1 ++ l2).
  { rewrite (chain_next _ _ _ _ _ Hc'). destruct (l1 ++ l2); set_solver. }
  unfold to_front. fold bs1. rewrite E1, E2. fold bs2. split.
  - rewrite ?length_set_next, ?length_set_prev, ?length_set_next, ?length_set_prev, ?length_set_next. lia.
  - rewrite <- Hperm. apply Permutation_middle.
  - eapply chain_ext; [apply (chain_push _ _ _ _ b Hc'); tauto| |]; intros i.
    + rewrite nxt_set_next by (rewrite ?length_set_next, ?length_set_prev, ?length_set_next; lia).
      unfold upd at 1 2. case_decide; [done|]. rewrite !nxt_set_prev. apply nxt_set_next. lia.
    + rewrite prv_set_next. rewrite nxt_set_prev, nxt_set_next, upd_ne by (done || lia).
      rewrite prv_set_prev.
      2: { rewrite ?length_set_prev, ?length_set_next, L2. apply Hle. set_solver. }
      destruct (decide (i = nxt bs2 HEAD)) as [->|Hne]; [by rewrite !upd_eq|].
      rewrite !(upd_ne _ (nxt bs2 HEAD)) by done.
      rewrite prv_set_prev by (rewrite length_set_next; lia). unfold upd. case_decide; [done|].
      apply prv_set_next.
Qed.

End lru.

(** ** Running the loops and link updates *)

Definition bufs (s : kern) : list buf := fs_bufs (k_files s).
Definition set_bufs (s : kern) (bs : list buf) : kern :=
  s <| k_files ::= fun f => f <| fs_bufs := bs |> |>.

Section run.
Implicit Types (s : kern) (b : nat) (x : buf) (order : list nat) (bs : list buf).

Lemma buf_get_run {A} (f : buf -> A) s b x : bufs s !! b = Some x -> buf_get b f s = Ok (f x) s.
Proof. unfold bufs. intros E. unfold buf_get, fget, mbind, gets. by rewrite E. Qed.

Lemma buf_set_run f s b : (b < length (bufs s))%nat ->
  buf_set b f s = Ok tt (set_bufs s (alter f b (bufs s))).
Proof.
  intros Hb. destruct (lookup_lt_is_Some_2 _ _ Hb) as [x E]. unfold bufs in *.
  unfold buf_set, fget, mbind, gets. rewrite E. done.
Qed.

Lemma get_next s b : (b < length (bufs s))%nat -> buf_get b b_next s = Ok (nxt (bufs s) b) s.
Proof.
  intros Hb. destruct (lookup_lt_is_Some_2 _ _ Hb) as [x E]. rewrite (buf_get_run _ _ _ x E).
  unfold nxt. by rewrite E.
Qed.
Lemma get_prev s b : (b < length (bufs s))%nat -> buf_get b b_prev s = Ok (prv (bufs s) b) s.
Proof.
  intros Hb. destruct (lookup_lt_is_Some_2 _ _ Hb) as [x E]. rewrite (buf_get_run _ _ _ x E).
  unfold prv. by rewrite E.
Qed.

Lemma set_bufs_twice s bs bs' : set_bufs (set_bufs s bs) bs' = set_bufs s bs'.
Proof. done. Qed.
Lemma bufs_set s bs : bufs (set_bufs s bs) = bs.
Proof. done. Qed.
Lemma set_bufs_id s : set_bufs s (bufs s) = s.
Proof. destruct s as [? ? ? ? ? ? ? ? []]. done. Qed.

Lemma elem_of_rev {A} (l : list A) a : a ∈ rev l <-> a ∈ l.
Proof. rewrite !list_elem_of_In. by rewrite <- in_rev. Qed.

Definition passes (test : buf -> bool) bs b : bool := from_option test false (bs !! b).

(** The loops of bget find the first buffer of the list that passes the test. *)
Lemma bscan_run (link : buf -> nat) test (lf pf : nat -> nat) s order : forall fuel (x : nat),
  (forall i z, bufs s !! i = Some z -> link z = lf i) -> chain lf pf x order HEAD ->
  HEAD ∉ order -> (forall i, i ∈ order -> (i < length (bufs s))%nat) -> (length order < fuel)%nat ->
  bscan link test fuel (lf x) s = Ok (find (passes test (bufs s)) order) s.
Proof.
  induction order as [|b order IH]; intros fuel x Hlink Hch Hnin Hlt Hf;
    (destruct fuel as [|fuel]; [simpl in Hf; lia|]); cbn [bscan chain] in *.
  - destruct Hch as [-> _]. by rewrite Nat.eqb_refl.
  - destruct Hch as [[-> Hp] Hch].
    destruct (Nat.eqb_spec b HEAD) as [->|Hne]; [set_solver|].
    destruct (lookup_lt_is_Some_2 (bufs s) b) as [y Hy]; [apply Hlt; set_solver|].
    rewrite (bind_ok _ _ _ _ _ (buf_get_run (fun x => x) s b y Hy)). simpl find.
    unfold passes at 1. rewrite Hy. simpl. destruct (test y); [done|].
    rewrite (Hlink b y Hy). apply IH; [done|done|set_solver|set_solver|simpl in Hf; lia].
Qed.

Lemma scan_hit s order test : lru (bufs s) order ->
  (first <- buf_get HEAD b_next ;; bscan b_next test (S NBUF) first) s =
  Ok (find (passes test (bufs s)) order) s.
Proof.
  intros H. pose proof (lru_nodup _ _ H) as [Hnin _]%NoDup_cons.
  rewrite (bind_ok _ _ _ _ _ (get_next s HEAD ltac:(rewrite (lr_len _ _ H); unfold HEAD; lia))).
  apply (bscan_run b_next test (nxt (bufs s)) (prv (bufs s))).
  - intros i z Hz. unfold nxt. by rewrite Hz.
  - apply H.
  - done.
  - intros i Hi. rewrite (lru_in _ _ _ H) in Hi. rewrite (lr_len _ _ H). lia.
  - rewrite (lru_length _ _ H). lia.
Qed.

Lemma scan_free s order test : lru (bufs s) order ->
  (last <- buf_get HEAD b_prev ;; bscan b_prev test (S NBUF) last) s =
  Ok (find (passes test (bufs s)) (rev order)) s.
Proof.
  intros H. pose proof (lru_nodup _ _ H) as [Hnin _]%NoDup_cons.
  rewrite (bind_ok _ _ _ _ _ (get_prev s HEAD ltac:(rewrite (lr_len _ _ H); unfold HEAD; lia))).
  apply (bscan_run b_prev test (prv (bufs s)) (nxt (bufs s))).
  - intros i z Hz. unfold prv. by rewrite Hz.
  - apply chain_rev, H.
  - by rewrite elem_of_rev.
  - intros i Hi. rewrite elem_of_rev, (lru_in _ _ _ H) in Hi. rewrite (lr_len _ _ H). lia.
  - rewrite length_rev, (lru_length _ _ H). lia.
Qed.

(** Links stay inside the table. *)
Definition closed bs : Prop := forall i, (i < length bs)%nat ->
  (nxt bs i < length bs)%nat /\ (prv bs i < length bs)%nat.

Lemma chain_closed (nx pv : nat -> nat) (h : nat) order (i : nat) : chain nx pv h order h ->
  i ∈ h :: order -> nx i ∈ h :: order /\ pv i ∈ h :: order.
Proof.
  intros Hch [->|(l1 & l2 & ->)%list_elem_of_split]%elem_of_cons.
  - split.
    + rewrite (chain_next _ _ _ _ _ Hch). destruct order; set_solver.
    + rewrite (chain_prev _ _ _ _ _ Hch). destruct (last order) eqn:E; [|set_solver].
      apply last_Some_elem_of in E. set_solver.
  - apply chain_app in Hch as [H1 H2]. split.
    + rewrite (chain_next _ _ _ _ _ H2). destruct l2; set_solver.
    + rewrite (chain_prev _ _ _ _ _ H1). destruct (last l1) eqn:E; [|set_solver].
      apply last_Some_elem_of in E. set_solver.
Qed.

Lemma lru_closed bs order : lru bs order -> closed bs.
Proof.
  intros H i Hi. assert (Hr : forall j, j ∈ HEAD :: order <-> (j < length bs)%nat).
  { intros j. rewrite elem_of_cons, (lru_in _ _ _ H), (lr_len _ _ H). unfold HEAD. lia. }
  rewrite <- !Hr. apply chain_closed; [apply H|by apply Hr].
Qed.

Lemma closed_next bs b v : closed bs -> (b < length bs)%nat -> (v < length bs)%nat -> closed (set_next bs b v).
Proof.
  intros H Hb Hv i. rewrite length_set_next. intros Hi. rewrite nxt_set_next, prv_set_next by done.
  unfold upd. case_decide; split; try done; by apply H.
Qed.
Lemma closed_prev bs b v : closed bs -> (b < length bs)%nat -> (v < length bs)%nat -> closed (set_prev bs b v).
Proof.
  intros H Hb Hv i. rewrite length_set_prev. intros Hi. rewrite prv_set_prev, nxt_set_prev by done.
  unfold upd. case_decide; split; try done; by apply H.
Qed.

Lemma front_run s b : closed (bufs s) -> (b < length (bufs s))%nat -> (HEAD < length (bufs s))%nat ->
  (n <- buf_get b b_next ;; p <- buf_get b b_prev ;;
   buf_set n (fun x => x <| b_prev := p |>) ;;;
   p <- buf_get b b_prev ;; n <- buf_get b b_next ;;
   buf_set p (fun x => x <| b_next := n |>) ;;;
   first <- buf_get HEAD b_next ;;
   buf_set b (fun x => x <| b_next := first |>) ;;;
   buf_set b (fun x => x <| b_prev := HEAD |>) ;;;
   first <- buf_get HEAD b_next ;;
   buf_set first (fun x => x <| b_prev := b |>) ;;;
   buf_set HEAD (fun x => x <| b_next := b |>)) s = Ok tt (set_bufs s (to_front (bufs s) b)).
Proof.
  intros Hc Hb Hh.
  rewrite (bind_ok _ _ _ _ _ (get_next s b Hb)), (bind_ok _ _ _ _ _ (get_prev s b Hb)).
  destruct (Hc b Hb) as [Hn Hp]. unfold to_front.
  rewrite (bind_ok _ _ _ _ _ (buf_set_run _ s _ Hn)). fold (set_prev (bufs s) (nxt (bufs s) b) (prv (bufs s) b)).
  set (bs1 := set_prev (bufs s) (nxt (bufs s) b) (prv (bufs s) b)).
  assert (Hl1 : length bs1 = length (bufs s)) by apply length_set_prev.
  assert (Hc1 : closed bs1) by (by apply closed_prev). clearbody bs1. set (s1 := set_bufs s bs1).
  assert (Hb1 : (b < length bs1)%nat) by lia.
  rewrite (bind_ok _ _ _ _ _ (get_prev s1 b Hb1)), (bind_ok _ _ _ _ _ (get_next s1 b Hb1)).
  change (bufs s1) with bs1. destruct (Hc1 b Hb1) as [Hn1 Hp1].
  rewrite (bind_ok _ _ _ _ _ (buf_set_run _ s1 _ Hp1)). change (bufs s1) with bs1.
  fold (set_next bs1 (prv bs1 b) (nxt bs1 b)). set (bs2 := set_next bs1 (prv bs1 b) (nxt bs1 b)).
  assert (Hl2 : length bs2 = length (bufs s)) by (unfold bs2; by rewrite length_set_next).
  assert (Hc2 : closed bs2) by (by apply closed_next). clearbody bs2. set (s2 := set_bufs s1 bs2).
  rewrite (bind_ok _ _ _ _ _ (get_next s2 HEAD ltac:(change (bufs s2) with bs2; lia))).
  change (bufs s2) with bs2. destruct (Hc2 HEAD ltac:(lia)) as [Hn2 _].
  rewrite (bind_ok _ _ _ _ _ (buf_set_run _ s2 b ltac:(change (bufs s2) with bs2; lia))).
  change (bufs s2) with bs2. fold (set_next bs2 b (nxt bs2 HEAD)).
  set (bs3 := set_next bs2 b (nxt bs2 HEAD)).
  assert (Hl3 : length bs3 = length (bufs s)) by (unfold bs3; by rewrite length_set_next).
  assert (Hc3 : closed bs3) by (apply closed_next; [done|lia|lia]). clearbody bs3. set (s3 := set_bufs s2 bs3).
  rewrite (bind_ok _ _ _ _ _ (buf_set_run _ s3 b ltac:(change (bufs s3) with bs3; lia))).
  change (bufs s3) with bs3. fold (set_prev bs3 b HEAD). set (bs4 := set_prev bs3 b HEAD).
  assert (Hl4 : length bs4 = length (bufs s)) by (unfold bs4; by rewrite length_set_prev).
  assert (Hc4 : closed bs4) by (apply closed_prev; [done|lia|lia]). clearbody bs4. set (s4 := set_bufs s3 bs4).
  rewrite (bind_ok _ _ _ _ _ (get_next s4 HEAD ltac:(change (bufs s4) with bs4; lia))).
  change (bufs s4) with bs4. destruct (Hc4 HEAD ltac:(lia)) as [Hn4 _].
  rewrite (bind_ok _ _ _ _ _ (buf_set_run _ s4 _ Hn4)). change (bufs s4) with bs4.
  fold (set_prev bs4 (nxt bs4 HEAD) b). set (bs5 := set_prev bs4 (nxt bs4 HEAD) b).
  assert (Hl5 : length bs5 = length (bufs s)) by (unfold bs5; by rewrite length_set_prev).
  rewrite (buf_set_run _ (set_bufs s4 bs5) HEAD ltac:(rewrite bufs_set; lia)).
  done.
Qed.

End run.

(** ** The invariant of the cache *)

(** What the file system sees of a block. *)
Definition cached (dev bno : Z) (x : buf) : bool := is_block dev bno x && z2b (b_valid x).
Definition blk (f : files) (dev bno : Z) : list Z :=
  match find (passes (cached dev bno) (fs_bufs f)) (seq 0 NBUF) with
  | Some b => from_option b_data [] (fs_bufs f !! b)
  | None => dblock (d_data (fs_disk f)) bno
  end.

Record buf_ok (f : files) (b : nat) (x : buf) : Prop := {
  bo_ref : 0 <= b_refcnt x < 2 ^ 31;
  bo_valid : b_valid x = 0 \/ b_valid x = 1;
  bo_dev : b_valid x = 1 -> b_dev x = ROOTDEV;
  bo_len : length (b_data x) = Z.to_nat BSIZE;
  bo_free : b_refcnt x = 0 -> exists l, fs_sleep f !! b = Some l /\ sl_locked l = 0;
  bo_clean : b_refcnt x = 0 -> b_valid x = 1 -> b_data x = dblock (d_data (fs_disk f)) (b_blockno x)
}.

Record cache_ok (f : files) (order : list nat) : Prop := {
  co_lru : lru (fs_bufs f) order;
  co_sleep : length (fs_sleep f) = (NBUF + NINODE)%nat;
  co_buf : forall b x, (b < NBUF)%nat -> fs_bufs f !! b = Some x -> buf_ok f b x;
  co_uniq : forall b b' x x', (b < NBUF)%nat -> (b' < NBUF)%nat ->
    fs_bufs f !! b = Some x -> fs_bufs f !! b' = Some x' ->
    b_dev x = b_dev x' -> b_blockno x = b_blockno x' -> b_dev x <> 0 -> b = b';
  co_disk : forall n, length (dblock (d_data (fs_disk f)) n) = Z.to_nat BSIZE
}.

Section cache.
Implicit Types (f : files) (b : nat) (x : buf) (order : list nat) (d n : Z).

Lemma is_block_true d n x : is_block d n x = true <-> b_dev x = d /\ b_blockno x = n.
Proof. unfold is_block. rewrite andb_true_iff, !Z.eqb_eq. done. Qed.
Lemma cached_true d n x : cached d n x = true <-> b_dev x = d /\ b_blockno x = n /\ b_valid x <> 0.
Proof.
  unfold cached. rewrite andb_true_iff, is_block_true. unfold z2b.
  rewrite negb_true_iff, Z.eqb_neq. tauto.
Qed.

Lemma find_seq (P : nat -> bool) k b : find P (seq 0 k) = Some b -> (b < k)%nat /\ P b = true.
Proof. intros [H1 H2]%find_some. apply in_seq in H1. split; [lia|done]. Qed.

Lemma blk_hit f order d n b x : cache_ok f order -> d <> 0 -> (b < NBUF)%nat ->
  fs_bufs f !! b = Some x -> cached d n x = true -> blk f d n = b_data x.
Proof.
  intros Hok Hd Hb Hx Hc. unfold blk. destruct (find _ _) as [b'|] eqn:E.
  - apply find_seq in E as [Hb' Hp]. unfold passes in Hp.
    destruct (fs_bufs f !! b') as [x'|] eqn:Hx'; [|done]. simpl in Hp. apply cached_true in Hc, Hp.
    assert (b' = b) as -> by (apply (co_uniq _ _ Hok b' b x' x); try done; naive_solver congruence).
    rewrite Hx in Hx'. injection Hx' as ->. done.
  - pose proof (find_none _ _ E b) as Hn. rewrite in_seq in Hn. unfold passes in Hn. rewrite Hx in Hn.
    simpl in Hn. rewrite Hn in Hc by lia. done.
Qed.

Lemma blk_miss f d n : (forall b x, (b < NBUF)%nat -> fs_bufs f !! b = Some x -> cached d n x = false) ->
  blk f d n = dblock (d_data (fs_disk f)) n.
Proof.
  intros H. unfold blk. destruct (find _ _) as [b'|] eqn:E; [|done].
  apply find_seq in E as [Hb' Hp]. unfold passes in Hp.
  destruct (fs_bufs f !! b') as [x'|] eqn:Hx'; [|done]. simpl in Hp. by rewrite (H b' x') in Hp.
Qed.

Lemma blk_cases f order d n : cache_ok f order -> d <> 0 ->
  (exists b x, (b < NBUF)%nat /\ fs_bufs f !! b = Some x /\ cached d n x = true /\ blk f d n = b_data x) \/
  ((forall b x, (b < NBUF)%nat -> fs_bufs f !! b = Some x -> cached d n x = false) /\
   blk f d n = dblock (d_data (fs_disk f)) n).
Proof.
  intros Hok Hd. destruct (find (passes (cached d n) (fs_bufs f)) (seq 0 NBUF)) as [b|] eqn:E.
  - left. apply find_seq in E as [Hb Hp]. unfold passes in Hp.
    destruct (fs_bufs f !! b) as [x|] eqn:Hx; [|done]. exists b, x. split_and!; try done.
    by apply (blk_hit f order d n b).
  - right. assert (Hn : forall b x, (b < NBUF)%nat -> fs_bufs f !! b = Some x -> cached d n x = false).
    { intros b x Hb Hx. pose proof (find_none _ _ E b) as Hn. rewrite in_seq in Hn.
      unfold passes in Hn. rewrite Hx in Hn. apply Hn. lia. }
    split; [done|]. by apply blk_miss.
Qed.

(** One buffer changes. *)
Definition put_buf f b x : files := f <| fs_bufs ::= insert b x |>.

Lemma put_buf_lookup f b x b' : (b < length (fs_bufs f))%nat ->
  fs_bufs (put_buf f b x) !! b' = if decide (b' = b) then Some x else fs_bufs f !! b'.
Proof.
  intros Hb. simpl. case_decide as E; [subst; by apply list_lookup_insert_eq|].
  by apply list_lookup_insert_ne.
Qed.

Lemma lru_same bs bs' order : lru bs order -> length bs' = length bs ->
  (forall i, nxt bs' i = nxt bs i) -> (forall i, prv bs' i = prv bs i) -> lru bs' order.
Proof.
  intros [H1 H2 H3] Hl Hn Hp. split; [lia|done|]. by apply (chain_ext (nxt bs) (prv bs)).
Qed.

Lemma cache_put f order b x x' : cache_ok f order -> (b < NBUF)%nat -> fs_bufs f !! b = Some x ->
  b_prev x' = b_prev x -> b_next x' = b_next x -> buf_ok f b x' ->
  (b_dev x' <> 0 -> forall b2 x2, (b2 < NBUF)%nat -> fs_bufs f !! b2 = Some x2 -> b2 <> b ->
     is_block (b_dev x') (b_blockno x') x2 = false) ->
  cache_ok (put_buf f b x') order.
Proof.
  intros Hok Hb Hx Hp Hn Hbo Hu.
  assert (Hbl : (b < length (fs_bufs f))%nat) by (by eapply lookup_lt_Some).
  assert (Hl : forall b' y, fs_bufs (put_buf f b x') !! b' = Some y ->
    (b' = b /\ y = x') \/ (b' <> b /\ fs_bufs f !! b' = Some y)).
  { intros b' y. rewrite put_buf_lookup by done. case_decide; naive_solver. }
  split.
  - apply (lru_same (fs_bufs f)); [apply Hok|apply length_insert| |]; intros i; unfold nxt, prv;
      rewrite put_buf_lookup by done; case_decide as E; try done; subst; rewrite Hx; simpl; congruence.
  - apply Hok.
  - intros b' y Hb' [[-> ->]|[Hne Hy]]%Hl.
    + by split; apply Hbo.
    + pose proof (co_buf _ _ Hok b' y Hb' Hy) as Hby. by split; apply Hby.
  - intros b1 b2 y1 y2 Hb1 Hb2 [[-> ->]|[Hne1 Hy1]]%Hl [[-> ->]|[Hne2 Hy2]]%Hl Ed Eb Hd; try done.
    + specialize (Hu Hd b2 y2 Hb2 Hy2 Hne2). unfold is_block in Hu. rewrite Ed, Eb, !Z.eqb_refl in Hu. done.
    + rewrite Ed in Hd. specialize (Hu Hd b1 y1 Hb1 Hy1 Hne1). unfold is_block in Hu.
      rewrite Ed, Eb, !Z.eqb_refl in Hu. done.
    + by apply (co_uniq _ _ Hok b1 b2 y1 y2).
  - apply Hok.
Qed.

(** How the view changes with it. *)
Lemma blk_put f order b x x' d n : cache_ok f order -> cache_ok (put_buf f b x') order ->
  (b < NBUF)%nat -> fs_bufs f !! b = Some x -> d <> 0 ->
  blk (put_buf f b x') d n =
  if cached d n x' then b_data x'
  else if cached d n x then dblock (d_data (fs_disk f)) n else blk f d n.
Proof.
  intros Hok Hok' Hb Hx Hd.
  assert (Hbl : (b < length (fs_bufs f))%nat) by (by eapply lookup_lt_Some).
  destruct (cached d n x') eqn:Ec'.
  { apply (blk_hit _ order d n b); try done. by rewrite put_buf_lookup, decide_True. }
  destruct (blk_cases f order d n Hok Hd) as [(b1 & x1 & Hb1 & Hx1 & Hc1 & ->)|[Hno ->]].
  - destruct (decide (b1 = b)) as [->|Hne].
    + rewrite Hx in Hx1. injection Hx1 as <-. rewrite Hc1. apply (blk_miss (put_buf f b x') d n).
      intros b2 x2 Hb2. rewrite put_buf_lookup by done. case_decide as E; [by intros [= <-]|].
      intros Hx2. destruct (cached d n x2) eqn:Ec2; [|done]. apply cached_true in Hc1, Ec2.
      destruct E. apply (co_uniq _ _ Hok b2 b x2 x); try done; naive_solver congruence.
    + assert (cached d n x = false) as ->.
      { destruct (cached d n x) eqn:Ec; [|done]. apply cached_true in Hc1, Ec. destruct Hne.
        apply (co_uniq _ _ Hok b1 b x1 x); try done; naive_solver congruence. }
      apply (blk_hit _ order d n b1); try done. by rewrite put_buf_lookup, decide_False.
  - rewrite (Hno b x Hb Hx). apply (blk_miss (put_buf f b x') d n). intros b2 x2 Hb2. rewrite put_buf_lookup by done.
    case_decide; [by intros [= <-]|]. by apply Hno.
Qed.

End cache.

(** ** The operations *)

(** What the cache relies on of the driver: a read fills the buffer from its block, a write
    stores it, and the call returns when the transfer is done. *)
Definition write_block (d : disk) (n : Z) (data : list Z) : disk :=
  Disk (<[n := data]> (d_data d)) ((n, data) :: d_hist d).
Definition on_files (s : kern) (g : files -> files) : kern := s <| k_files ::= g |>.

Class DiskLaws `{DiskOps} : Prop := {
  disk_read : forall s c cur b x, calm s c cur [] -> bufs s !! b = Some x ->
    virtio_disk_rw b false s =
    Ok tt (on_files s (fun f => put_buf f b (x <| b_data := dblock (d_data (fs_disk f)) (b_blockno x) |>)));
  disk_write : forall s c cur b x, calm s c cur [] -> bufs s !! b = Some x ->
    virtio_disk_rw b true s =
    Ok tt (on_files s (fun f => f <| fs_disk ::= fun d => write_block d (b_blockno x) (b_data x) |>))
}.

(** A disk on which transfers take no time. *)
Definition ideal_rw (b : nat) (write : bool) : M kern unit :=
  x <- buf_get b (fun x => x) ;;
  if write then fset (fun f => f <| fs_disk ::= fun d => write_block d (b_blockno x) (b_data x) |>)
  else fset (fun f => put_buf f b (x <| b_data := dblock (d_data (fs_disk f)) (b_blockno x) |>)).
Definition ideal_disk : DiskOps := {| virtio_disk_rw := ideal_rw |}.
Lemma ideal_laws : @DiskLaws ideal_disk.
Proof.
  split; intros s c cur b x _ Hx; cbn; unfold ideal_rw;
    by rewrite (bind_ok _ _ _ _ _ (buf_get_run (fun x => x) s b x Hx)).
Qed.

Lemma bind_bind_ok {S A B C} (a : M S A) (k : A -> M S B) (h : B -> M S C) s r s' :
  mbind a k s = Ok r s' -> mbind a (fun x => mbind (k x) h) s = h r s'.
Proof. unfold mbind. destruct (a s) as [v s1|]; [|done]. by intros ->. Qed.

Lemma find_ext {A} (P Q : A -> bool) l : (forall a, P a = Q a) -> find P l = find Q l.
Proof. intros H. induction l as [|a l IH]; [done|]. simpl. by rewrite H, IH. Qed.

Lemma bind_ret_kern {A B} (a : A) (k : A -> M kern B) s : mbind (mret a) k s = k a s.
Proof. done. Qed.

Section ops.
Context {D : DiskOps} {DL : DiskLaws}.
Implicit Types (s : kern) (c : cpu) (cur : nat) (b : nat) (x : buf) (order : list nat) (d n : Z).

Lemma cache_free s c cur held : calm s c cur held -> LBcache ∉ held -> lk_free (k_mach s) LBcache.
Proof. intros Hc Hn. by apply (ca_free _ _ _ _ Hc). Qed.

(** The lock record of buffer [b] held by process [p]. *)
Definition taken_by (l : sleeplock) (p : proc) : sleeplock := l <| sl_locked := 1 |> <| sl_pid := p_pid p |>.

(** The result of bget: buffer [b] now is [x'], and its lock is held. *)
Definition got s b x' (l : sleeplock) (p : proc) : kern :=
  set_sleep (on_files s (fun f => put_buf f b x')) b (taken_by l p).

Lemma alter_put s b f x : bufs s !! b = Some x ->
  set_bufs s (alter f b (bufs s)) = on_files s (fun g => put_buf g b (f x)).
Proof.
  unfold bufs. intros Hx. unfold set_bufs, on_files, put_buf. simpl.
  by rewrite (list_alter_Some f b x).
Qed.

Lemma bget_hit s c cur p order dev bno b x l : calm s c cur [] -> k_procs s !! cur = Some p ->
  cache_ok (k_files s) order -> find (passes (is_block dev bno) (bufs s)) order = Some b ->
  bufs s !! b = Some x -> fs_sleep (k_files s) !! b = Some l -> sl_locked l = 0 ->
  bget dev bno s = Ok b (got s b (x <| b_refcnt := u32 (b_refcnt x + 1) |>) l p).
Proof.
  intros Hc Hp Hok Hf Hx Hl Hl0. pose proof (co_lru _ _ Hok) as Hlru.
  assert (Hb : (b < NBUF)%nat). { apply find_some in Hf as [Hin _].
    apply list_elem_of_In, (lru_in _ _ _ Hlru) in Hin. done. }
  pose proof (cache_free s c cur [] Hc ltac:(set_solver)) as Hfr.
  destruct (calm_acquire s c cur [] LBcache Hc Hfr ltac:(simpl; lia)) as [E Hc1].
  unfold bget. rewrite (bind_ok _ _ _ _ _ E).
  set (s1 := s <| k_mach := acq (k_mach s) c LBcache |>) in *.
  rewrite (bind_bind_ok _ _ _ _ _ _ (scan_hit s1 order (is_block dev bno) Hlru)).
  change (bufs s1) with (bufs s). rewrite Hf.
  rewrite (bind_ok _ _ _ _ _ (buf_set_run _ s1 b (lookup_lt_Some _ _ _ Hx))).
  rewrite (alter_put s1 b _ x Hx). set (s2 := on_files s1 _).
  rewrite (bind_ok _ _ _ _ _ (calm_release s s2 c cur [] LBcache Hc Hfr eq_refl)).
  set (s3 := s2 <| k_mach := k_mach s |>).
  assert (Hc3 : calm s3 c cur []) by (by apply (calm_data s)).
  rewrite (bind_ok _ _ _ _ _ (acquiresleep_run s3 c cur [] b l p Hc3 ltac:(lia) ltac:(set_solver)
    ltac:(simpl; lia) Hl Hp Hl0)). done.
Qed.

Lemma bget_recycle s c cur p order dev bno b x l : calm s c cur [] -> k_procs s !! cur = Some p ->
  cache_ok (k_files s) order -> find (passes (is_block dev bno) (bufs s)) order = None ->
  find (passes unused (bufs s)) (rev order) = Some b ->
  bufs s !! b = Some x -> fs_sleep (k_files s) !! b = Some l -> sl_locked l = 0 ->
  bget dev bno s = Ok b (got s b (x <| b_dev := dev |> <| b_blockno := bno |> <| b_valid := 0 |>
                                    <| b_refcnt := 1 |>) l p).
Proof.
  intros Hc Hp Hok Hno Hf Hx Hl Hl0. pose proof (co_lru _ _ Hok) as Hlru.
  assert (Hb : (b < NBUF)%nat). { apply find_some in Hf as [Hin _].
    apply list_elem_of_In, elem_of_rev, (lru_in _ _ _ Hlru) in Hin. done. }
  pose proof (cache_free s c cur [] Hc ltac:(set_solver)) as Hfr.
  destruct (calm_acquire s c cur [] LBcache Hc Hfr ltac:(simpl; lia)) as [E Hc1].
  unfold bget. rewrite (bind_ok _ _ _ _ _ E).
  set (s1 := s <| k_mach := acq (k_mach s) c LBcache |>) in *.
  rewrite (bind_bind_ok _ _ _ _ _ _ (scan_hit s1 order (is_block dev bno) Hlru)).
  change (bufs s1) with (bufs s). rewrite Hno.
  rewrite (bind_bind_ok _ _ _ _ _ _ (scan_free s1 order unused Hlru)).
  change (bufs s1) with (bufs s). rewrite Hf.
  assert (Hbl : (b < length (bufs s))%nat) by (by eapply lookup_lt_Some).
  rewrite (bind_ok _ _ _ _ _ (buf_set_run _ s1 b Hbl)). rewrite (alter_put s1 b _ x Hx).
  set (x1 := x <| b_dev := dev |>). set (s2 := on_files s1 _).
  assert (Hx2 : bufs s2 !! b = Some x1) by (by apply list_lookup_insert_eq).
  rewrite (bind_ok _ _ _ _ _ (buf_set_run _ s2 b (lookup_lt_Some _ _ _ Hx2))). rewrite (alter_put s2 b _ x1 Hx2).
  set (x2 := x1 <| b_blockno := bno |>). set (s3 := on_files s2 _).
  assert (Hx3 : bufs s3 !! b = Some x2) by (apply list_lookup_insert_eq; by eapply lookup_lt_Some).
  rewrite (bind_ok _ _ _ _ _ (buf_set_run _ s3 b (lookup_lt_Some _ _ _ Hx3))). rewrite (alter_put s3 b _ x2 Hx3).
  set (x3 := x2 <| b_valid := 0 |>). set (s4 := on_files s3 _).
  assert (Hx4 : bufs s4 !! b = Some x3) by (apply list_lookup_insert_eq; by eapply lookup_lt_Some).
  rewrite (bind_ok _ _ _ _ _ (buf_set_run _ s4 b (lookup_lt_Some _ _ _ Hx4))). rewrite (alter_put s4 b _ x3 Hx4).
  set (x4 := x3 <| b_refcnt := 1 |>).
  assert (E5 : on_files s4 (fun g => put_buf g b x4) = on_files s1 (fun g => put_buf g b x4)).
  { unfold s4, s3, s2, on_files, put_buf. simpl. by rewrite !list_insert_insert_eq. }
  rewrite E5. set (s5 := on_files s1 _).
  rewrite (bind_ok _ _ _ _ _ (calm_release s s5 c cur [] LBcache Hc Hfr eq_refl)).
  set (s6 := s5 <| k_mach := k_mach s |>).
  assert (Hc6 : calm s6 c cur []) by (by apply (calm_data s)).
  rewrite (bind_ok _ _ _ _ _ (acquiresleep_run s6 c cur [] b l p Hc6 ltac:(lia) ltac:(set_solver)
    ltac:(simpl; lia) Hl Hp Hl0)). done.
Qed.


(** A buffer for the block can be had without waiting. *)
Definition can_bread (f : files) order (bno : Z) : Prop :=
  match find (passes (is_block ROOTDEV bno) (fs_bufs f)) order with
  | Some b => exists x l, fs_bufs f !! b = Some x /\ b_refcnt x + 1 < 2 ^ 31 /\
                fs_sleep f !! b = Some l /\ sl_locked l = 0
  | None => is_Some (find (passes unused (fs_bufs f)) (rev order))
  end.

Lemma find_in_order bs order test b : lru bs order -> find (passes test bs) order = Some b ->
  (b < NBUF)%nat /\ exists x, bs !! b = Some x /\ test x = true.
Proof.
  intros Hl [Hin Hp]%find_some. apply list_elem_of_In, (lru_in _ _ _ Hl) in Hin. split; [done|].
  unfold passes in Hp. destruct (bs !! b) as [x|]; [eauto|done].
Qed.

Lemma find_none_order bs order test : lru bs order -> find (passes test bs) order = None ->
  forall b x, (b < NBUF)%nat -> bs !! b = Some x -> test x = false.
Proof.
  intros Hl Hf b x Hb Hx. apply (lru_in _ _ _ Hl) in Hb. apply list_elem_of_In in Hb.
  pose proof (find_none _ _ Hf b Hb) as Hn. unfold passes in Hn. by rewrite Hx in Hn.
Qed.

(** Locking a buffer that is in use keeps the invariant. *)
Lemma cache_lock f order b x l : cache_ok f order -> fs_bufs f !! b = Some x -> (b < NBUF)%nat ->
  (b_refcnt x <> 0 \/ sl_locked l = 0) -> cache_ok (f <| fs_sleep ::= insert b l |>) order.
Proof.
  intros Hok Hx Hb Hr. split; [apply Hok| |  |apply Hok|apply Hok].
  - simpl. rewrite length_insert. apply Hok.
  - intros b' y Hb' Hy. pose proof (co_buf _ _ Hok b' y Hb' Hy) as Hbo.
    split; [apply Hbo..| |apply Hbo]. intros H0. simpl.
    destruct (decide (b' = b)) as [->|Hne].
    + assert (Some x = Some y) as [= <-] by (by rewrite <- Hx, <- Hy).
      exists l. split; [|tauto]. apply list_lookup_insert_eq. rewrite (co_sleep _ _ Hok). lia.
    + rewrite list_lookup_insert_ne by done. by apply Hbo.
Qed.

(** bget found [x0] in buffer [b] and made it [x1]. *)
Record bgot (f : files) (bno : Z) b x0 x1 (l : sleeplock) : Prop := {
  bg_lt : (b < NBUF)%nat;
  bg_old : fs_bufs f !! b = Some x0;
  bg_sleep : fs_sleep f !! b = Some l;
  bg_unlocked : sl_locked l = 0;
  bg_dev : b_dev x1 = ROOTDEV;
  bg_bno : b_blockno x1 = bno;
  bg_valid : b_valid x1 = 0 \/ b_valid x1 = 1;
  bg_ref : 1 <= b_refcnt x1 < 2 ^ 31;
  bg_cnt : b_refcnt x1 = if is_block ROOTDEV bno x0 then b_refcnt x0 + 1 else 1;
  bg_unused : is_block ROOTDEV bno x0 = false -> b_refcnt x0 = 0;
  bg_links : b_prev x1 = b_prev x0 /\ b_next x1 = b_next x0;
  bg_len : length (b_data x1) = Z.to_nat BSIZE;
  bg_keep : b_valid x1 = 1 -> cached ROOTDEV bno x0 = true /\ b_data x1 = b_data x0;
  bg_miss : b_valid x1 = 0 ->
    forall b2 x2, (b2 < NBUF)%nat -> fs_bufs f !! b2 = Some x2 -> cached ROOTDEV bno x2 = false;
  bg_uniq : forall b2 x2, (b2 < NBUF)%nat -> fs_bufs f !! b2 = Some x2 -> b2 <> b ->
    is_block ROOTDEV bno x2 = false;
  bg_evict : cached ROOTDEV bno x0 = false -> b_valid x0 = 1 ->
    b_data x0 = dblock (d_data (fs_disk f)) (b_blockno x0)
}.

Lemma bget_run s c cur p order bno : calm s c cur [] -> k_procs s !! cur = Some p ->
  cache_ok (k_files s) order -> can_bread (k_files s) order bno ->
  exists b x0 x1 l, bget ROOTDEV bno s = Ok b (got s b x1 l p) /\ bgot (k_files s) bno b x0 x1 l.
Proof.
  intros Hc Hp Hok Hcan. pose proof (co_lru _ _ Hok) as Hlru. unfold can_bread in Hcan.
  destruct (find (passes (is_block ROOTDEV bno) (fs_bufs (k_files s))) order) as [b|] eqn:Ef.
  - destruct Hcan as (x & l & Hx & Hr & Hl & Hl0).
    destruct (find_in_order _ _ _ _ Hlru Ef) as [Hb (x' & Hx' & Ht)].
    rewrite Hx in Hx'. injection Hx' as <-. pose proof Ht as [Hd Hn]%is_block_true.
    pose proof (co_buf _ _ Hok b x Hb Hx) as Hbo. pose proof (bo_ref _ _ _ Hbo).
    assert (Hu : u32 (b_refcnt x + 1) = b_refcnt x + 1) by (apply Z.mod_small; lia).
    assert (Huq : forall b2 x2, (b2 < NBUF)%nat -> fs_bufs (k_files s) !! b2 = Some x2 -> b2 <> b ->
      is_block ROOTDEV bno x2 = false).
    { intros b2 x2 Hb2 Hx2 Hne. destruct (is_block ROOTDEV bno x2) eqn:E; [|done].
      apply is_block_true in E as [E1 E2]. destruct Hne.
      apply (co_uniq _ _ Hok b2 b x2 x); try done; [congruence..|by rewrite E1]. }
    exists b, x, (x <| b_refcnt := u32 (b_refcnt x + 1) |>), l.
    split; [by apply (bget_hit s c cur p order)|]. split; try done; try apply Hbo.
    + simpl. rewrite Hu. lia.
    + simpl. by rewrite Ht, Hu.
    + by rewrite Ht.
    + simpl. intros Hv. unfold cached. by rewrite Ht, Hv.
    + simpl. intros Hv b2 x2 Hb2 Hx2. unfold cached. destruct (decide (b2 = b)) as [->|Hne].
      * rewrite Hx in Hx2. injection Hx2 as <-. rewrite Hv. by rewrite andb_false_r.
      * by rewrite (Huq b2 x2).
    + unfold cached. rewrite Ht. intros Hcc Hv. by rewrite Hv in Hcc.
  - destruct Hcan as [b Eu]. pose proof (find_none_order _ _ _ Hlru Ef) as Hno.
    pose proof Eu as [Hin Hpass]%find_some.
    apply list_elem_of_In, elem_of_rev, (lru_in _ _ _ Hlru) in Hin. unfold passes in Hpass.
    destruct (fs_bufs (k_files s) !! b) as [x|] eqn:Hx; [|done]. apply Z.eqb_eq in Hpass.
    pose proof (co_buf _ _ Hok b x Hin Hx) as Hbo.
    destruct (bo_free _ _ _ Hbo Hpass) as (l & Hl & Hl0).
    exists b, x. eexists _, l. split; [by apply (bget_recycle s c cur p order)|].
    split; try done; try apply Hbo; try (by left).
    + simpl. by rewrite (Hno b x).
    + intros _ b2 x2 Hb2 Hx2. unfold cached. by rewrite (Hno b2 x2).
    + intros b2 x2 Hb2 Hx2 _. by apply (Hno b2 x2).
    + intros _ Hv. by apply Hbo.
Qed.

(** The buffer as bread returns it. *)
Definition filled (f : files) (bno : Z) x : buf :=
  x <| b_valid := 1 |> <| b_data := blk f ROOTDEV bno |>.

Lemma bgot_filled f order bno b x0 x1 l : cache_ok f order -> bgot f bno b x0 x1 l ->
  cache_ok (put_buf f b (filled f bno x1)) order /\
  (forall d n, d <> 0 -> blk (put_buf f b (filled f bno x1)) d n = blk f d n) /\
  (b_valid x1 = 0 -> blk f ROOTDEV bno = dblock (d_data (fs_disk f)) bno) /\
  (b_valid x1 = 1 -> blk f ROOTDEV bno = b_data x1).
Proof.
  intros Hok Hg. destruct (bg_links _ _ _ _ _ _ Hg) as [Hp Hn].
  assert (Hblk0 : b_valid x1 = 0 -> blk f ROOTDEV bno = dblock (d_data (fs_disk f)) bno).
  { intros Hv. apply blk_miss. by apply (bg_miss _ _ _ _ _ _ Hg). }
  assert (Hblk1 : b_valid x1 = 1 -> blk f ROOTDEV bno = b_data x1).
  { intros Hv. destruct (bg_keep _ _ _ _ _ _ Hg Hv) as [Hc ->].
    by apply (blk_hit f order ROOTDEV bno b); try apply Hg. }
  assert (Hok' : cache_ok (put_buf f b (filled f bno x1)) order).
  { apply (cache_put f order b x0); try done; try apply Hg.
    - split; simpl; try (pose proof (bg_ref _ _ _ _ _ _ Hg); lia); try (by right).
      + intros _. apply Hg.
      + destruct (bg_valid _ _ _ _ _ _ Hg) as [Hv|Hv];
          [rewrite (Hblk0 Hv); apply Hok|rewrite (Hblk1 Hv); apply Hg].
    - simpl. intros _. rewrite (bg_dev _ _ _ _ _ _ Hg), (bg_bno _ _ _ _ _ _ Hg). apply Hg. }
  split_and!; try done. intros d n Hd.
  rewrite (blk_put f order b x0) by (done || apply Hg).
  assert (Hc' : cached d n (filled f bno x1) = true <-> d = ROOTDEV /\ n = bno).
  { rewrite cached_true. simpl. rewrite (bg_dev _ _ _ _ _ _ Hg), (bg_bno _ _ _ _ _ _ Hg). naive_solver. }
  destruct (cached d n (filled f bno x1)) eqn:E1.
  { destruct (proj1 Hc' eq_refl) as [-> ->]. done. }
  destruct (cached d n x0) eqn:E2; [|done].
  rewrite (blk_hit f order d n b x0) by (done || apply Hg).
  apply cached_true in E2 as (Ed & En & Ev).
  assert (Hbo : buf_ok f b x0) by (apply Hok; apply Hg).
  destruct (bo_valid _ _ _ Hbo) as [?|Ev1]; [done|].
  assert (Ed' : d = ROOTDEV) by (rewrite <- Ed; by apply Hbo).
  rewrite (bg_evict _ _ _ _ _ _ Hg); [by rewrite En| |done].
  destruct (cached ROOTDEV bno x0) eqn:E3; [|done]. apply cached_true in E3 as (_ & En' & _).
  destruct (proj2 Hc') as []; [|done]. split; [done|congruence].
Qed.

(** bread: a locked buffer with the content of the block; nothing the file system sees of
    any block changes. *)
Lemma bread_run s c cur p order bno : calm s c cur [] -> k_procs s !! cur = Some p ->
  cache_ok (k_files s) order -> can_bread (k_files s) order bno ->
  exists b x0 x l, bread ROOTDEV bno s = Ok b (got s b x l p) /\ (b < NBUF)%nat /\
    bufs s !! b = Some x0 /\
    b_refcnt x = (if is_block ROOTDEV bno x0 then b_refcnt x0 + 1 else 1) /\
    (is_block ROOTDEV bno x0 = false -> b_refcnt x0 = 0) /\
    fs_sleep (k_files s) !! b = Some l /\ sl_locked l = 0 /\
    b_dev x = ROOTDEV /\ b_blockno x = bno /\ b_valid x = 1 /\ 1 <= b_refcnt x < 2 ^ 31 /\
    b_data x = blk (k_files s) ROOTDEV bno /\
    cache_ok (k_files (got s b x l p)) order /\
    (forall d n, d <> 0 -> blk (k_files (got s b x l p)) d n = blk (k_files s) d n).
Proof.
  intros Hc Hp Hok Hcan.
  destruct (bget_run s c cur p order bno Hc Hp Hok Hcan) as (b & x0 & x1 & l & Eget & Hg).
  destruct (bgot_filled _ order _ _ _ _ _ Hok Hg) as (Hok' & Hview & Hb0 & Hb1).
  pose proof (lookup_lt_Some _ _ _ (bg_old _ _ _ _ _ _ Hg)) as Hbl.
  exists b, x0, (filled (k_files s) bno x1), l. split_and!; try apply Hg; try done.
  - unfold bread. rewrite (bind_ok _ _ _ _ _ Eget).
    set (s1 := got s b x1 l p).
    assert (Hx1 : bufs s1 !! b = Some x1) by (by apply list_lookup_insert_eq).
    rewrite (bind_ok _ _ _ _ _ (buf_get_run b_valid s1 b x1 Hx1)).
    destruct (bg_valid _ _ _ _ _ _ Hg) as [Hv|Hv]; rewrite Hv; cbn [Z.eqb mwhen].
    + assert (Hc1 : calm s1 c cur []) by (by apply (calm_data s)).
      rewrite (bind_ok _ _ _ tt (got s b (filled (k_files s) bno x1) l p)); [done|].
      rewrite (bind_ok _ _ _ _ _ (disk_read s1 c cur b x1 Hc1 Hx1)).
      set (s2 := on_files s1 _).
      assert (Hx2 : bufs s2 !! b = Some (x1 <| b_data := dblock (d_data (fs_disk (k_files s))) (b_blockno x1) |>)).
      { apply list_lookup_insert_eq. by apply lookup_lt_Some in Hx1. }
      rewrite (buf_set_run _ s2 b (lookup_lt_Some _ _ _ Hx2)), (alter_put _ _ _ _ Hx2).
      f_equal. unfold s2, s1, got, on_files, set_sleep, put_buf, filled. simpl.
      rewrite !list_insert_insert_eq, (Hb0 Hv), (bg_bno _ _ _ _ _ _ Hg). done.
    + rewrite bind_ret_kern. unfold mret. f_equal. unfold s1. f_equal. unfold filled.
      rewrite (Hb1 Hv). destruct x1; simpl in *; by subst.
  - apply (cache_lock (put_buf (k_files s) b (filled (k_files s) bno x1)) order b
      (filled (k_files s) bno x1) (taken_by l p)); [done| |apply Hg|].
    + by apply list_lookup_insert_eq.
    + left. simpl. pose proof (bg_ref _ _ _ _ _ _ Hg). lia.
Qed.


(** Process [p] holds the lock of buffer [b], which is [x]. *)
Record owns s b x (p : proc) : Prop := {
  ow_lt : (b < NBUF)%nat;
  ow_buf : bufs s !! b = Some x;
  ow_lock : exists nm, fs_sleep (k_files s) !! b = Some (Sleeplock 1 nm (p_pid p));
  ow_ref : 1 <= b_refcnt x;
  ow_valid : b_valid x = 1
}.

Lemma owns_holding s c cur p b x held : calm s c cur held -> (length held < 90)%nat ->
  (forall i, LSleep i ∉ held) -> k_procs s !! cur = Some p -> owns s b x p ->
  holdingsleep (buf_lock b) s = Ok true s.
Proof.
  intros Hc Hf Hn Hp [Hb _ [nm Hl] _ _].
  unfold buf_lock.
  rewrite (holdingsleep_run s c cur held b (Sleeplock 1 nm (p_pid p)) p) by (done || lia).
  simpl. by rewrite Z.eqb_refl.
Qed.

Definition flushed (f : files) x : files :=
  f <| fs_disk ::= fun dk => write_block dk (b_blockno x) (b_data x) |>.

(** bwrite stores the buffer on the disk. *)
Lemma bwrite_run s c cur p b x : calm s c cur [] -> k_procs s !! cur = Some p -> owns s b x p ->
  bwrite b s = Ok tt (on_files s (fun f => flushed f x)).
Proof.
  intros Hc Hp Ho. unfold bwrite.
  rewrite (bind_ok _ _ _ _ _ (owns_holding s c cur p b x [] Hc ltac:(simpl; lia) ltac:(set_solver) Hp Ho)).
  cbn [negb]. apply (disk_write s c cur); [done|apply Ho].
Qed.

Lemma dblock_write (dk : disk) n (v : list Z) (k : Z) :
  dblock (d_data (write_block dk n v)) k = if decide (k = n) then v else dblock (d_data dk) k.
Proof.
  unfold dblock. simpl. case_decide as E; [subst; by rewrite lookup_insert_eq|].
  by rewrite lookup_insert_ne.
Qed.

Lemma cache_flush f order b x : cache_ok f order -> (b < NBUF)%nat -> fs_bufs f !! b = Some x ->
  b_valid x = 1 -> cache_ok (flushed f x) order /\
  (forall n, blk (flushed f x) ROOTDEV n = blk f ROOTDEV n).
Proof.
  intros Hok Hb Hx Hv. pose proof (co_buf _ _ Hok b x Hb Hx) as Hbo.
  assert (Hsame : forall b2 x2, (b2 < NBUF)%nat -> fs_bufs f !! b2 = Some x2 -> b_valid x2 = 1 ->
    b_blockno x2 = b_blockno x -> x2 = x).
  { intros b2 x2 Hb2 Hx2 Hv2 E. pose proof (co_buf _ _ Hok b2 x2 Hb2 Hx2) as Hbo2.
    assert (b2 = b) as ->; [|congruence].
    apply (co_uniq _ _ Hok b2 b x2 x); try done; rewrite (bo_dev _ _ _ Hbo2 Hv2); [|done].
    symmetry. by apply Hbo. }
  assert (Hok' : cache_ok (flushed f x) order).
  { split; [apply Hok|apply Hok| |apply Hok|].
    - intros b2 x2 Hb2 Hx2. pose proof (co_buf _ _ Hok b2 x2 Hb2 Hx2) as Hbo2.
      split; [apply Hbo2..|]. intros H0 H1.
      change (fs_disk (flushed f x)) with (write_block (fs_disk f) (b_blockno x) (b_data x)).
      rewrite dblock_write. case_decide as E; [by rewrite (Hsame b2 x2 Hb2 Hx2 H1 E)|].
      by apply Hbo2.
    - intros n. change (fs_disk (flushed f x)) with (write_block (fs_disk f) (b_blockno x) (b_data x)).
      rewrite dblock_write. case_decide; [apply Hbo|apply Hok]. }
  split; [done|]. intros n.
  destruct (blk_cases f order ROOTDEV n Hok ltac:(done)) as [(b1 & x1 & Hb1 & Hx1 & Hc1 & ->)|[Hno ->]].
  - by apply (blk_hit (flushed f x) order ROOTDEV n b1).
  - rewrite (blk_miss (flushed f x) ROOTDEV n Hno).
    change (fs_disk (flushed f x)) with (write_block (fs_disk f) (b_blockno x) (b_data x)).
    rewrite dblock_write. case_decide as E; [|done].
    specialize (Hno b x Hb Hx). assert (cached ROOTDEV n x = true); [|congruence].
    apply cached_true. split_and!; [by apply Hbo|done|lia].
Qed.

(** Changing the data of a buffer changes what is seen of its block. *)
Lemma cache_edit f order b x data : cache_ok f order -> (b < NBUF)%nat -> fs_bufs f !! b = Some x ->
  b_valid x = 1 -> 1 <= b_refcnt x -> length data = Z.to_nat BSIZE ->
  cache_ok (put_buf f b (x <| b_data := data |>)) order /\
  (forall n, blk (put_buf f b (x <| b_data := data |>)) ROOTDEV n =
     if decide (n = b_blockno x) then data else blk f ROOTDEV n).
Proof.
  intros Hok Hb Hx Hv Hr Hlen. pose proof (co_buf _ _ Hok b x Hb Hx) as Hbo.
  assert (Hdev : b_dev x = ROOTDEV) by (by apply Hbo).
  assert (Hok' : cache_ok (put_buf f b (x <| b_data := data |>)) order).
  { apply (cache_put f order b x); try done.
    - split; simpl; try apply Hbo; try done; lia.
    - simpl. intros _ b2 x2 Hb2 Hx2 Hne. destruct (is_block _ _ x2) eqn:E; [|done].
      apply is_block_true in E as [E1 E2]. destruct Hne.
      apply (co_uniq _ _ Hok b2 b x2 x); try done. by rewrite E1, Hdev. }
  split; [done|]. intros n. rewrite (blk_put f order b x) by done.
  assert (Hc : cached ROOTDEV n (x <| b_data := data |>) = true <-> n = b_blockno x).
  { rewrite cached_true. simpl. rewrite Hdev. split; [intros (_ & ? & _); done|]. intros ->. lia. }
  change (cached ROOTDEV n x) with (cached ROOTDEV n (x <| b_data := data |>)).
  destruct (cached ROOTDEV n (x <| b_data := data |>)).
  - rewrite decide_True by (by apply Hc). done.
  - rewrite decide_False; [done|]. intros E. by apply Hc in E.
Qed.


(** Relinking does not matter to the view. *)
Lemma core_field {A} (g : buf -> A) x y : (forall z, g z = g (core z)) -> core x = core y -> g x = g y.
Proof. intros Hg E. by rewrite (Hg x), (Hg y), E. Qed.

Lemma cache_relink f order bs order' : cache_ok f order -> lru bs order' ->
  core <$> bs = core <$> fs_bufs f ->
  cache_ok (f <| fs_bufs := bs |>) order' /\
  (forall n, blk (f <| fs_bufs := bs |>) ROOTDEV n = blk f ROOTDEV n).
Proof.
  intros Hok Hl Hcore.
  assert (Hlk : forall b y, bs !! b = Some y -> exists x, fs_bufs f !! b = Some x /\ core y = core x).
  { intros b y Hy. assert (E : core <$> fs_bufs f !! b = core <$> bs !! b)
      by (rewrite <- !list_lookup_fmap; by rewrite Hcore). rewrite Hy in E.
    destruct (fs_bufs f !! b) as [x|]; [|done]. exists x. split; [done|]. exact (eq_sym (inj Some _ _ E)). }
  assert (Hlk' : forall b x, fs_bufs f !! b = Some x -> exists y, bs !! b = Some y /\ core y = core x).
  { intros b x Hx. assert (E : core <$> fs_bufs f !! b = core <$> bs !! b)
      by (rewrite <- !list_lookup_fmap; by rewrite Hcore). rewrite Hx in E.
    destruct (bs !! b) as [y|]; [|done]. exists y. split; [done|]. exact (eq_sym (inj Some _ _ E)). }
  assert (Hok' : cache_ok (f <| fs_bufs := bs |>) order').
  { split; [done|apply Hok| | |apply Hok].
    - intros b y Hb Hy. destruct (Hlk b y Hy) as (x & Hx & E).
      pose proof (co_buf _ _ Hok b x Hb Hx) as Hbo.
      pose proof (core_field b_refcnt _ _ ltac:(done) E) as E1.
      pose proof (core_field b_valid _ _ ltac:(done) E) as E2.
      pose proof (core_field b_data _ _ ltac:(done) E) as E3.
      pose proof (core_field b_blockno _ _ ltac:(done) E) as E4.
      pose proof (core_field b_dev _ _ ltac:(done) E) as E5.
      split; simpl; rewrite ?E1, ?E2, ?E3, ?E4, ?E5; apply Hbo.
    - intros b1 b2 y1 y2 Hb1 Hb2 Hy1 Hy2 Ed En Hd.
      destruct (Hlk b1 y1 Hy1) as (x1 & Hx1 & E1). destruct (Hlk b2 y2 Hy2) as (x2 & Hx2 & E2).
      rewrite (core_field b_dev _ _ ltac:(done) E1) in Ed, Hd. rewrite (core_field b_dev _ _ ltac:(done) E2) in Ed.
      rewrite (core_field b_blockno _ _ ltac:(done) E1), (core_field b_blockno _ _ ltac:(done) E2) in En.
      by apply (co_uniq _ _ Hok b1 b2 x1 x2). }
  split; [done|]. intros n.
  destruct (blk_cases f order ROOTDEV n Hok ltac:(done)) as [(b1 & x1 & Hb1 & Hx1 & Hc1 & ->)|[Hno ->]].
  - destruct (Hlk' b1 x1 Hx1) as (y1 & Hy1 & E).
    rewrite <- (core_field b_data _ _ ltac:(done) E).
    apply (blk_hit _ order' ROOTDEV n b1); try done.
    by rewrite (core_field (cached ROOTDEV n) _ _ ltac:(done) E).
  - set (f' := f <| fs_bufs := bs |>). apply (blk_miss f' ROOTDEV n). intros b y Hb Hy.
    destruct (Hlk b y Hy) as (x & Hx & E). rewrite (core_field (cached ROOTDEV n) _ _ ltac:(done) E).
    by apply (Hno b x).
Qed.

(** What brelse leaves of the file layer. *)
Definition released (f : files) b x (l : sleeplock) : files :=
  let x' := x <| b_refcnt := b_refcnt x - 1 |> in
  let f' := put_buf (f <| fs_sleep ::= insert b (l <| sl_locked := 0 |> <| sl_pid := 0 |>) |>) b x' in
  if b_refcnt x =? 1 then f' <| fs_bufs := to_front (fs_bufs f') b |> else f'.
Definition lru_after (order : list nat) b x : list nat :=
  if b_refcnt x =? 1 then b :: filter (fun i => i <> b) order else order.

Lemma filter_split (l1 l2 : list nat) b : NoDup (l1 ++ b :: l2) ->
  filter (fun i => i <> b) (l1 ++ b :: l2) = l1 ++ l2.
Proof.
  intros Hnd. apply NoDup_app in Hnd as (_ & Hx & [Hb _]%NoDup_cons).
  assert (Hid : forall l : list nat, b ∉ l -> filter (fun i => i <> b) l = l).
  { induction l as [|a l IH]; intros Hn; [done|]. rewrite filter_cons_True by set_solver.
    by rewrite IH by set_solver. }
  rewrite filter_app, filter_cons_False by tauto. rewrite !Hid; [done|done|].
  intros Hin. apply (Hx b Hin). set_solver.
Qed.

Lemma released_ok f order b x l : cache_ok f order -> (b < NBUF)%nat -> fs_bufs f !! b = Some x ->
  fs_sleep f !! b = Some l -> 1 <= b_refcnt x -> b_valid x = 1 ->
  (b_refcnt x = 1 -> b_data x = dblock (d_data (fs_disk f)) (b_blockno x)) ->
  cache_ok (released f b x l) (lru_after order b x) /\
  (forall n, blk (released f b x l) ROOTDEV n = blk f ROOTDEV n).
Proof.
  intros Hok Hb Hx Hl Hr Hv Hclean. pose proof (co_buf _ _ Hok b x Hb Hx) as Hbo.
  assert (Hdev : b_dev x = ROOTDEV) by (by apply Hbo).
  set (l' := l <| sl_locked := 0 |> <| sl_pid := 0 |>).
  assert (Hok1 : cache_ok (f <| fs_sleep ::= insert b l' |>) order).
  { apply (cache_lock f order b x); [done..|by right]. }
  set (f1 := f <| fs_sleep ::= insert b l' |>) in *. set (x' := x <| b_refcnt := b_refcnt x - 1 |>).
  assert (Hok2 : cache_ok (put_buf f1 b x') order).
  { apply (cache_put f1 order b x); try done.
    - pose proof (bo_ref _ _ _ Hbo). split; simpl; try apply Hbo; try lia.
      + intros _. exists l'. split; [|done]. apply list_lookup_insert_eq. rewrite (co_sleep _ _ Hok). lia.
      + intros H0 _. apply Hclean. lia.
    - simpl. intros _ b2 x2 Hb2 Hx2 Hne. destruct (is_block _ _ x2) eqn:E; [|done].
      apply is_block_true in E as [E1 E2]. destruct Hne.
      apply (co_uniq _ _ Hok b2 b x2 x); try done. by rewrite E1, Hdev. }
  assert (Hv2 : forall n, blk (put_buf f1 b x') ROOTDEV n = blk f ROOTDEV n).
  { intros n. rewrite (blk_put f1 order b x) by done.
    change (cached ROOTDEV n x') with (cached ROOTDEV n x).
    destruct (cached ROOTDEV n x) eqn:E; [|done]. symmetry. by apply (blk_hit f order ROOTDEV n b x). }
  unfold released, lru_after. fold f1. fold x'. destruct (Z.eqb_spec (b_refcnt x) 1) as [H1|H1]; [|done].
  pose proof (co_lru _ _ Hok2) as Hlru. assert (Hin : b ∈ order) by (by apply (lru_in _ _ _ Hlru)).
  apply list_elem_of_split in Hin as (l1 & l2 & ->).
  rewrite filter_split by (pose proof (lru_nodup _ _ Hlru) as [_ ?]%NoDup_cons; done).
  destruct (cache_relink (put_buf f1 b x') _ (to_front (fs_bufs (put_buf f1 b x')) b) (b :: l1 ++ l2) Hok2)
    as [Hok3 Hv3]; [by apply lru_front|apply core_to_front|].
  split; [done|]. intros n. by rewrite Hv3.
Qed.


Lemma brelse_run s c cur p order b x l : calm s c cur [] -> k_procs s !! cur = Some p ->
  cache_ok (k_files s) order -> owns s b x p -> fs_sleep (k_files s) !! b = Some l ->
  brelse b s = Ok tt (on_files s (fun f => released f b x l)
                        <| k_procs := wakes cur (Some (ChSleep b)) (k_procs s) |>).
Proof.
  intros Hc Hp Hok Ho Hl. pose proof (ow_lt _ _ _ _ Ho) as Hb. pose proof (ow_buf _ _ _ _ Ho) as Hx.
  pose proof (co_buf _ _ Hok b x Hb Hx) as Hbo.
  unfold brelse. rewrite (bind_ok _ _ _ _ _ (owns_holding s c cur p b x [] Hc ltac:(simpl; lia) ltac:(set_solver) Hp Ho)).
  cbn [negb]. unfold buf_lock.
  rewrite (bind_ok _ _ _ _ _ (releasesleep_run s c cur [] b l p Hc ltac:(lia) ltac:(set_solver)
    ltac:(simpl; lia) Hl Hp ltac:(set_solver))).
  set (s1 := set_sleep s b _ <| k_procs := _ |>).
  assert (Hc1 : calm s1 c cur []) by (apply (calm_data s); [done|done|apply length_wakes]).
  pose proof (cache_free s1 c cur [] Hc1 ltac:(set_solver)) as Hfr.
  destruct (calm_acquire s1 c cur [] LBcache Hc1 Hfr ltac:(simpl; lia)) as [E Hc2].
  rewrite (bind_ok _ _ _ _ _ E). set (s2 := s1 <| k_mach := _ |>).
  assert (Hx2 : bufs s2 !! b = Some x) by exact Hx.
  rewrite (bind_ok _ _ _ _ _ (buf_set_run _ s2 b (lookup_lt_Some _ _ _ Hx2))), (alter_put s2 b _ x Hx2).
  assert (Hu : u32 (b_refcnt x - 1) = b_refcnt x - 1).
  { apply Z.mod_small. pose proof (bo_ref _ _ _ Hbo). pose proof (ow_ref _ _ _ _ Ho). lia. }
  set (x' := x <| b_refcnt := b_refcnt x - 1 |>).
  set (s3 := on_files s2 (fun g => put_buf g b x')).
  assert (E3 : on_files s2 (fun g => put_buf g b (x <| b_refcnt ::= fun n => u32 (n - 1) |>)) = s3).
  { unfold s3, x'. simpl. by rewrite Hu. }
  rewrite E3.
  assert (Hx3 : bufs s3 !! b = Some x') by (apply list_lookup_insert_eq; by eapply lookup_lt_Some).
  rewrite (bind_ok _ _ _ _ _ (buf_get_run b_refcnt s3 b x' Hx3)).
  replace (b_refcnt x' =? 0) with (b_refcnt x =? 1)
    by (simpl; destruct (Z.eqb_spec (b_refcnt x) 1), (Z.eqb_spec (b_refcnt x - 1) 0); lia).
  assert (Hlru3 : lru (bufs s3) order).
  { apply (lru_same (bufs s)); [apply Hok|apply length_insert| |]; intros i; unfold nxt, prv, bufs; simpl;
      (destruct (decide (i = b)) as [->|Hne]; [rewrite list_lookup_insert_eq by (by eapply lookup_lt_Some);
        unfold bufs in Hx; by rewrite Hx|by rewrite list_lookup_insert_ne]). }
  unfold released. fold x'. destruct (b_refcnt x =? 1); cbn [mwhen].
  - rewrite (bind_ok _ _ _ _ _ (front_run s3 b (lru_closed _ _ Hlru3) (lookup_lt_Some _ _ _ Hx3)
      ltac:(rewrite (lr_len _ _ Hlru3); unfold HEAD; lia))).
    set (s4 := set_bufs s3 _). rewrite (calm_release s1 s4 c cur [] LBcache Hc1 Hfr eq_refl). done.
  - rewrite bind_ret_kern. rewrite (calm_release s1 s3 c cur [] LBcache Hc1 Hfr eq_refl). done.
Qed.

(** bpin and bunpin count references. *)
Lemma count_run s c cur held b x (k : Z) : calm s c cur held -> LBcache ∉ held -> (length held < 90)%nat ->
  bufs s !! b = Some x -> 0 <= b_refcnt x + k < 2 ^ 32 ->
  (acquire LBcache ;;; buf_set b (fun x => x <| b_refcnt ::= fun n => u32 (n + k) |>) ;;; release LBcache) s =
  Ok tt (on_files s (fun f => put_buf f b (x <| b_refcnt := b_refcnt x + k |>))).
Proof.
  intros Hc Hn Hf Hx Hr. pose proof (cache_free s c cur held Hc Hn) as Hfr.
  destruct (calm_acquire s c cur held LBcache Hc Hfr ltac:(lia)) as [E Hc1].
  rewrite (bind_ok _ _ _ _ _ E). set (s1 := s <| k_mach := _ |>).
  assert (Hx1 : bufs s1 !! b = Some x) by exact Hx.
  rewrite (bind_ok _ _ _ _ _ (buf_set_run _ s1 b (lookup_lt_Some _ _ _ Hx1))), (alter_put s1 b _ x Hx1).
  set (s2 := on_files s1 _). rewrite (calm_release s s2 c cur held LBcache Hc Hfr eq_refl).
  assert (Hu : u32 (b_refcnt x + k) = b_refcnt x + k) by (apply Z.mod_small; lia).
  f_equal. unfold s2, on_files, put_buf. simpl. by rewrite Hu.
Qed.

Lemma bpin_run s c cur held b x : calm s c cur held -> LBcache ∉ held -> (length held < 90)%nat ->
  bufs s !! b = Some x -> 0 <= b_refcnt x < 2 ^ 31 ->
  bpin b s = Ok tt (on_files s (fun f => put_buf f b (x <| b_refcnt := b_refcnt x + 1 |>))).
Proof. intros. apply (count_run s c cur held b x 1); (done || lia). Qed.

Lemma bunpin_run s c cur held b x : calm s c cur held -> LBcache ∉ held -> (length held < 90)%nat ->
  bufs s !! b = Some x -> 0 < b_refcnt x < 2 ^ 31 ->
  bunpin b s = Ok tt (on_files s (fun f => put_buf f b (x <| b_refcnt := b_refcnt x - 1 |>))).
Proof. intros. apply (count_run s c cur held b x (-1)); (done || lia). Qed.

End ops.
