(* ===== verification/Bcache.v ===== *)
(** * The buffer cache as its clients see it

    A client of the cache knows which blocks it holds locked ([H], block number to buffer)
    and which are pinned by the log ([P]).  [binv] ties this to the buffers; the rules below
    say what each operation of kernel/bio.c does to the view of the blocks, to the disk, and
    to [H] and [P], and that it cannot fail. *)

From S2P Require Import Prelude Riscv CString Kalloc Vm Spinlock Proc ProcSpec Headers Sleeplock Bio Dlist.
From S2P Require Import BioSpec.

(** The content of block [n] as the file system sees it, and on the disk. *)
Definition view (s : kern) (n : Z) : list Z := blk (k_files s) ROOTDEV n.
Definition ondisk (s : kern) (n : Z) : list Z := dblock (d_data (fs_disk (k_files s))) n.

Section binv.
Implicit Types (s : kern) (p : proc) (H : gmap Z nat) (P : gset Z) (b : nat) (x : buf) (n : Z).

Definition pinned P x : bool := bool_decide (b_valid x = 1 /\ b_blockno x ∈ P).
Definition holds H b x : bool := bool_decide (H !! b_blockno x = Some b).

Record binv s p H P : Prop := {
  bi_cache : exists order, cache_ok (k_files s) order;
  bi_ref : forall b x, (b < NBUF)%nat -> bufs s !! b = Some x ->
    b_refcnt x = b2z (pinned P x) + b2z (holds H b x);
  bi_held : forall n b, H !! n = Some b -> exists x, (b < NBUF)%nat /\ bufs s !! b = Some x /\
    b_valid x = 1 /\ b_blockno x = n /\ exists nm, fs_sleep (k_files s) !! b = Some (Sleeplock 1 nm (p_pid p));
  bi_free : forall b, (b < NBUF)%nat -> (forall n, H !! n <> Some b) ->
    exists l, fs_sleep (k_files s) !! b = Some l /\ sl_locked l = 0;
  bi_pin : forall n, n ∈ P -> exists b x, (b < NBUF)%nat /\ bufs s !! b = Some x /\
    b_valid x = 1 /\ b_blockno x = n
}.

(** What the operations of the cache leave alone. *)
Record bframe (cur : nat) s s' : Prop := {
  bf_mach : k_mach s' = k_mach s;
  bf_phys : k_phys s' = k_phys s;
  bf_len : length (k_procs s') = length (k_procs s);
  bf_cur : k_procs s' !! cur = k_procs s !! cur;
  bf_misc : k_initproc s' = k_initproc s /\ k_nextpid s' = k_nextpid s /\ k_ticks s' = k_ticks s;
  bf_files : fs_log (k_files s') = fs_log (k_files s) /\ fs_sb (k_files s') = fs_sb (k_files s) /\
    fs_itable (k_files s') = fs_itable (k_files s) /\ fs_ftable (k_files s') = fs_ftable (k_files s) /\
    fs_pipes (k_files s') = fs_pipes (k_files s);
  bf_sleep : forall i, (NBUF <= i)%nat -> fs_sleep (k_files s') !! i = fs_sleep (k_files s) !! i;
  bf_uart : fs_uart (k_files s') = fs_uart (k_files s)
}.

Lemma bframe_refl cur s : bframe cur s s.
Proof. by split. Qed.
Lemma bframe_trans cur s1 s2 s3 : bframe cur s1 s2 -> bframe cur s2 s3 -> bframe cur s1 s3.
Proof.
  intros [A1 A2 A3 A4 (A5 & A6 & A7) (A8 & A9 & A10 & A11 & A12) A13 A14]
    [B1 B2 B3 B4 (B5 & B6 & B7) (B8 & B9 & B10 & B11 & B12) B13 B14].
  split; [congruence..| | |intros i Hi; by rewrite B13, A13|congruence]; repeat split; congruence.
Qed.
Lemma bframe_calm cur s s' c held : bframe cur s s' -> calm s c cur held -> calm s' c cur held.
Proof. intros Hf Hc. apply (calm_data s); [done|apply Hf..]. Qed.

(** At most one buffer per block. *)
Lemma binv_one s p H P b b' x x' : binv s p H P -> (b < NBUF)%nat -> (b' < NBUF)%nat ->
  bufs s !! b = Some x -> bufs s !! b' = Some x' -> b_valid x = 1 -> b_valid x' = 1 ->
  b_blockno x = b_blockno x' -> b = b'.
Proof.
  intros Hi Hb Hb' Hx Hx' Hv Hv' E. destruct (bi_cache _ _ _ _ Hi) as [order Hok].
  pose proof (co_buf _ _ Hok b x Hb Hx) as Ho. pose proof (co_buf _ _ Hok b' x' Hb' Hx') as Ho'.
  apply (co_uniq _ _ Hok b b' x x'); try done; rewrite (bo_dev _ _ _ Ho Hv); [|done].
  symmetry. by apply Ho'.
Qed.

Lemma binv_inj s p H P n n' b : binv s p H P -> H !! n = Some b -> H !! n' = Some b -> n = n'.
Proof.
  intros Hi H1 H2. destruct (bi_held _ _ _ _ Hi _ _ H1) as (x & _ & Hx & _ & <- & _).
  destruct (bi_held _ _ _ _ Hi _ _ H2) as (x' & _ & Hx' & _ & <- & _). congruence.
Qed.

(** A buffer in use has a block of [P] or [H]. *)
Lemma binv_used s p H P b x : binv s p H P -> (b < NBUF)%nat -> bufs s !! b = Some x ->
  b_refcnt x <> 0 -> b_valid x = 1 /\ b_blockno x ∈ P ∪ dom H.
Proof.
  intros Hi Hb Hx Hr. pose proof (bi_ref _ _ _ _ Hi b x Hb Hx) as E.
  unfold pinned, holds in E. destruct (decide (b_valid x = 1 /\ b_blockno x ∈ P)) as [[Hv Hp]|Hnp].
  - split; [done|]. set_solver.
  - rewrite bool_decide_false in E by done. destruct (decide (H !! b_blockno x = Some b)) as [Hh|Hnh].
    + destruct (bi_held _ _ _ _ Hi _ _ Hh) as (x' & _ & Hx' & Hv & _). split; [congruence|].
      apply elem_of_union_r, elem_of_dom. eauto.
    + rewrite bool_decide_false in E by done. simpl in E. lia.
Qed.

(** With fewer blocks in use than buffers, one is free. *)
Lemma binv_spare s p H P : binv s p H P -> (size (P ∪ dom H) < NBUF)%nat ->
  exists b x, (b < NBUF)%nat /\ bufs s !! b = Some x /\ b_refcnt x = 0.
Proof.
  intros Hi Hsz. destruct (bi_cache _ _ _ _ Hi) as [order Hok].
  destruct (decide (Forall (fun b => from_option b_refcnt 0 (bufs s !! b) <> 0) (seq 0 NBUF))) as [Hall|Hnot].
  - exfalso. rewrite Forall_forall in Hall.
    assert (Hlk : forall b, b ∈ seq 0 NBUF -> exists x, (b < NBUF)%nat /\ bufs s !! b = Some x /\ b_refcnt x <> 0).
    { intros b Hb. specialize (Hall b Hb). rewrite elem_of_seq in Hb.
      destruct (bufs s !! b) as [x|]; [|done]. exists x. split; [lia|done]. }
    set (bn := fun b => from_option b_blockno 0 (bufs s !! b)).
    assert (Hnd : NoDup (bn <$> seq 0 NBUF)).
    { apply NoDup_fmap_2_strong; [|apply NoDup_seq]. intros b b' Hb Hb' E.
      destruct (Hlk b Hb) as (x & Hlt & Hx & Hr). destruct (Hlk b' Hb') as (x' & Hlt' & Hx' & Hr').
      unfold bn in E. rewrite Hx, Hx' in E. simpl in E.
      destruct (binv_used s p H P b x Hi Hlt Hx Hr). destruct (binv_used s p H P b' x' Hi Hlt' Hx' Hr').
      by apply (binv_one s p H P b b' x x'). }
    assert (Hsub : list_to_set (bn <$> seq 0 NBUF) ⊆ P ∪ dom H).
    { intros n Hn. apply elem_of_list_to_set, list_elem_of_fmap in Hn as (b & -> & Hb).
      destruct (Hlk b Hb) as (x & Hlt & Hx & Hr). unfold bn. rewrite Hx. simpl.
      by destruct (binv_used s p H P b x Hi Hlt Hx Hr). }
    apply subseteq_size in Hsub. rewrite size_list_to_set in Hsub by done.
    rewrite length_fmap, length_seq in Hsub. lia.
  - apply not_Forall_Exists in Hnot; [|apply _]. apply Exists_exists in Hnot as (b & Hb & Hr).
    apply dec_stable in Hr. rewrite elem_of_seq in Hb.
    destruct (lru_lookup _ _ b (co_lru _ _ Hok) ltac:(lia)) as [x Hx]. exists b, x.
    split; [lia|]. split; [done|]. unfold bufs in Hr. by rewrite Hx in Hr.
Qed.

(** The view of a held block is the data of its buffer. *)
Lemma binv_view s p H P n b : binv s p H P -> H !! n = Some b ->
  exists x, (b < NBUF)%nat /\ bufs s !! b = Some x /\ b_valid x = 1 /\ b_blockno x = n /\
    b_data x = view s n /\ 1 <= b_refcnt x < 2 ^ 31 /\ b_refcnt x = (if decide (n ∈ P) then 2 else 1) /\
    owns s b x p.
Proof.
  intros Hi Hn. destruct (bi_held _ _ _ _ Hi _ _ Hn) as (x & Hb & Hx & Hv & Hbn & Hl).
  destruct (bi_cache _ _ _ _ Hi) as [order Hok]. pose proof (co_buf _ _ Hok b x Hb Hx) as Ho.
  assert (Hr : b_refcnt x = if decide (n ∈ P) then 2 else 1).
  { rewrite (bi_ref _ _ _ _ Hi b x Hb Hx). unfold pinned, holds. rewrite Hbn, Hv, Hn.
    rewrite (bool_decide_true (Some b = Some b)) by done.
    destruct (decide (n ∈ P)); [rewrite bool_decide_true|rewrite bool_decide_false]; tauto. }
  exists x. split_and!; try done.
  - symmetry. apply (blk_hit _ order ROOTDEV n b); try done. apply cached_true.
    split_and!; [by apply Ho|done|lia].
  - rewrite Hr. case_decide; lia.
  - rewrite Hr. case_decide; lia.
  - split; try done. rewrite Hr. case_decide; lia.
Qed.

End binv.

(** ** The rules *)

Section rules.
Context {D : DiskOps} {DL : DiskLaws}.
Implicit Types (s : kern) (c : cpu) (cur : nat) (p : proc) (H : gmap Z nat) (P : gset Z) (b : nat)
  (x : buf) (n : Z).

Lemma binv_can_bread s p H P order n : binv s p H P -> cache_ok (k_files s) order ->
  H !! n = None -> n ∈ P \/ (size (P ∪ dom H) < NBUF)%nat -> can_bread (k_files s) order n.
Proof.
  intros Hi Hok Hn Hroom. pose proof (co_lru _ _ Hok) as Hlru. unfold can_bread.
  destruct (find (passes (is_block ROOTDEV n) (fs_bufs (k_files s))) order) as [b|] eqn:Ef.
  - destruct (find_in_order _ _ _ _ Hlru Ef) as [Hb (x & Hx & Ht)]. apply is_block_true in Ht as [Hd Hbn].
    assert (Hnh : forall m, H !! m <> Some b).
    { intros m Hm. destruct (bi_held _ _ _ _ Hi _ _ Hm) as (x' & _ & Hx' & _ & Hm' & _).
      unfold bufs in Hx'. rewrite Hx in Hx'. injection Hx' as <-. congruence. }
    destruct (bi_free _ _ _ _ Hi b Hb Hnh) as (l & Hl & Hl0). exists x, l. split_and!; try done.
    rewrite (bi_ref _ _ _ _ Hi b x Hb Hx). destruct (pinned P x), (holds H b x); simpl; lia.
  - pose proof (find_none_order _ _ _ Hlru Ef) as Hno. destruct Hroom as [Hp|Hroom].
    + destruct (bi_pin _ _ _ _ Hi n Hp) as (b & x & Hb & Hx & Hv & Hbn).
      specialize (Hno b x Hb Hx). pose proof (co_buf _ _ Hok b x Hb Hx) as Ho.
      unfold is_block in Hno. rewrite (bo_dev _ _ _ Ho Hv), Hbn, !Z.eqb_refl in Hno. done.
    + destruct (binv_spare s p H P Hi Hroom) as (b & x & Hb & Hx & Hr).
      destruct (find (passes unused (fs_bufs (k_files s))) (rev order)) as [b'|] eqn:E; [eauto|].
      apply (lru_in _ _ _ Hlru), elem_of_rev, list_elem_of_In in Hb.
      pose proof (find_none _ _ E b Hb) as Hf. unfold passes in Hf. unfold bufs in Hx. rewrite Hx in Hf.
      unfold unused in Hf. simpl in Hf. rewrite Hr in Hf. done.
Qed.

Lemma got_lookup s b x l p b' : (b < length (bufs s))%nat ->
  bufs (got s b x l p) !! b' = if decide (b' = b) then Some x else bufs s !! b'.
Proof. intros Hb. apply (put_buf_lookup (k_files s)). done. Qed.
Lemma got_sleep s b x l p b' : (b < length (fs_sleep (k_files s)))%nat ->
  fs_sleep (k_files (got s b x l p)) !! b' =
  if decide (b' = b) then Some (taken_by l p) else fs_sleep (k_files s) !! b'.
Proof.
  intros Hb. simpl. case_decide as E; [subst; by apply list_lookup_insert_eq|].
  by apply list_lookup_insert_ne.
Qed.

(** The reference count of the buffer that bread returns: one for the caller, and one more for a pinned block. *)
Lemma bread_count s p H P order n b x0 x l : binv s p H P -> cache_ok (k_files s) order -> cache_ok (k_files (got s b x l p)) order ->
  (b < NBUF)%nat -> (b < length (bufs s))%nat -> bufs s !! b = Some x0 -> (forall m, H !! m <> Some b) ->
  b_dev x = ROOTDEV -> b_blockno x = n -> b_valid x = 1 ->
  b_refcnt x = (if is_block ROOTDEV n x0 then b_refcnt x0 + 1 else 1) -> b_refcnt x = b2z (pinned P x) + 1.
Proof.
  intros Hi Hok Hok' Hb Hbl Hx0 Hnh Hd Hbn Hv Hr.
  rewrite Hr. pose proof (bi_ref _ _ _ _ Hi b x0 Hb Hx0) as Hr1. unfold holds in Hr1.
  rewrite (bool_decide_false (H !! _ = _)) in Hr1 by apply Hnh. unfold pinned in *. rewrite Hv, Hbn.
  destruct (decide (n ∈ P)) as [Hin|Hout].
  - rewrite (bool_decide_true (1 = 1 /\ n ∈ P)) by done.
    destruct (bi_pin _ _ _ _ Hi n Hin) as (b2 & x2 & Hb2 & Hx2 & Hv2 & Hn2).
    pose proof (co_buf _ _ Hok b2 x2 Hb2 Hx2) as Ho2.
    destruct (decide (b2 = b)) as [->|Hne].
    + rewrite Hx0 in Hx2. injection Hx2 as <-.
      rewrite (bool_decide_true (b_valid x0 = 1 /\ _)) in Hr1 by (by rewrite Hn2).
      assert (is_block ROOTDEV n x0 = true) as -> by (apply is_block_true; split; [by apply Ho2|done]).
      simpl in *. lia.
    + exfalso. apply Hne. apply (co_uniq _ _ Hok' b2 b x2 x); try done.
      * fold (bufs (got s b x l p)). by rewrite got_lookup, decide_False.
      * fold (bufs (got s b x l p)). by rewrite got_lookup, decide_True.
      * rewrite Hd. by apply Ho2.
      * congruence.
      * rewrite (bo_dev _ _ _ Ho2 Hv2). done.
  - rewrite (bool_decide_false (1 = 1 /\ n ∈ P)) by tauto. simpl.
    destruct (is_block ROOTDEV n x0) eqn:Eb; [|done]. apply is_block_true in Eb as [_ Eb].
    rewrite bool_decide_false in Hr1 by (rewrite Eb; tauto). simpl in Hr1. lia.
Qed.

(** bread locks the block and shows its content. *)
Lemma bread_rule s c cur p H P n : calm s c cur [] -> k_procs s !! cur = Some p -> binv s p H P ->
  H !! n = None -> n ∈ P \/ (size (P ∪ dom H) < NBUF)%nat ->
  exists b s', bread ROOTDEV n s = Ok b s' /\ binv s' p (<[n := b]> H) P /\
    (forall k, view s' k = view s k) /\ fs_disk (k_files s') = fs_disk (k_files s) /\ bframe cur s s'.
Proof.
  intros Hc Hp Hi Hn Hroom. destruct (bi_cache _ _ _ _ Hi) as [order Hok].
  pose proof (binv_can_bread s p H P order n Hi Hok Hn Hroom) as Hcan.
  destruct (bread_run s c cur p order n Hc Hp Hok Hcan) as (b & x0 & x & l & E & Hb & Hx0 & Hr & Hr0 &
    Hl & Hl0 & Hd & Hbn & Hv & Hrr & Hdat & Hok' & Hview).
  exists b, (got s b x l p).
  assert (Hbl : (b < length (bufs s))%nat) by (by eapply lookup_lt_Some).
  assert (Hsl : (b < length (fs_sleep (k_files s)))%nat) by (by eapply lookup_lt_Some).
  (* the buffer was not held *)
  assert (Hnh : forall m, H !! m <> Some b).
  { intros m Hm. destruct (bi_held _ _ _ _ Hi _ _ Hm) as (x' & _ & Hx' & _ & Hm' & nm & Hl').
    rewrite Hl in Hl'. injection Hl' as ->. done. }
  assert (Hcnt : b_refcnt x = b2z (pinned P x) + 1) by (by apply (bread_count s p H P order n b x0 x l)).
  split; [done|]. split_and!; [split| | |].
  - by exists order.
  - intros b' x' Hb' Hx'. rewrite got_lookup in Hx' by done. unfold holds. case_decide as Eb.
    + subst b'. injection Hx' as <-. rewrite Hbn, lookup_insert_eq. by rewrite bool_decide_true.
    + rewrite (bi_ref _ _ _ _ Hi b' x' Hb' Hx'). f_equal. unfold holds. f_equal.
      apply bool_decide_ext. destruct (decide (b_blockno x' = n)) as [->|].
      * rewrite lookup_insert_eq, Hn. split; [done|congruence].
      * by rewrite lookup_insert_ne.
  - intros m b' [[<- <-]|[Hne Hm]]%lookup_insert_Some.
    + exists x. rewrite got_lookup, decide_True, got_sleep, decide_True by done.
      split_and!; try done. by exists (sl_name l).
    + destruct (bi_held _ _ _ _ Hi _ _ Hm) as (x' & Hb' & Hx' & Hv' & Hm' & nm & Hl').
      assert (b' <> b) by (intros ->; by apply (Hnh m)).
      exists x'. rewrite got_lookup, decide_False, got_sleep, decide_False by done.
      split_and!; try done. by exists nm.
  - intros b' Hb' Hnb'. assert (b' <> b).
    { intros ->. apply (Hnb' n). by rewrite lookup_insert_eq. }
    rewrite got_sleep, decide_False by done. apply (bi_free _ _ _ _ Hi b' Hb'). intros m Hm.
    apply (Hnb' m). rewrite lookup_insert_ne; [done|]. intros <-. congruence.
  - intros m Hm. destruct (bi_pin _ _ _ _ Hi m Hm) as (b' & x' & Hb' & Hx' & Hv' & Hm').
    destruct (decide (b' = b)) as [->|Hne].
    + rewrite Hx0 in Hx'. injection Hx' as <-.
      destruct (is_block ROOTDEV n x0) eqn:Eb.
      * apply is_block_true in Eb as [_ Eb]. exists b, x. rewrite got_lookup, decide_True by done.
        split_and!; try done. congruence.
      * specialize (Hr0 eq_refl). pose proof (bi_ref _ _ _ _ Hi b x0 Hb Hx0) as Hr1.
        unfold pinned in Hr1. rewrite bool_decide_true in Hr1 by (by rewrite Hm').
        unfold holds in Hr1. destruct (bool_decide _); simpl in Hr1; lia.
    + exists b', x'. rewrite got_lookup, decide_False by done. done.
  - intros k. by apply Hview.
  - done.
  - split; try done. intros i Hi'. simpl. rewrite list_lookup_insert_ne; [done|lia].
Qed.


(** Reading a held buffer. *)
Lemma data_rule s p H P n b : binv s p H P -> H !! n = Some b -> buf_get b b_data s = Ok (view s n) s.
Proof.
  intros Hi Hn. destruct (binv_view s p H P n b Hi Hn) as (x & _ & Hx & _ & _ & Hd & _).
  by rewrite (buf_get_run b_data s b x Hx), Hd.
Qed.
Lemma bno_rule s p H P n b : binv s p H P -> H !! n = Some b -> buf_get b b_blockno s = Ok n s.
Proof.
  intros Hi Hn. destruct (binv_view s p H P n b Hi Hn) as (x & _ & Hx & _ & Hb & _).
  by rewrite (buf_get_run b_blockno s b x Hx), Hb.
Qed.

Lemma on_files_lookup s b x b' : (b < length (bufs s))%nat ->
  bufs (on_files s (fun f => put_buf f b x)) !! b' = if decide (b' = b) then Some x else bufs s !! b'.
Proof. intros Hb. apply (put_buf_lookup (k_files s)). done. Qed.

(** A buffer replaced by one of the same block, with the reference count of [P']. *)
Lemma binv_put s p H P P' b x x' : binv s p H P -> (b < NBUF)%nat -> bufs s !! b = Some x ->
  b_valid x' = b_valid x -> b_blockno x' = b_blockno x ->
  (exists order, cache_ok (put_buf (k_files s) b x') order) ->
  (forall k, k <> b_blockno x -> k ∈ P' <-> k ∈ P) -> b_valid x = 1 ->
  b_refcnt x' = b2z (pinned P' x') + b2z (holds H b x') ->
  binv (on_files s (fun f => put_buf f b x')) p H P'.
Proof.
  intros Hi Hb Hx Hv Hn Hok HP Hv1 Hr.
  assert (Hbl : (b < length (bufs s))%nat) by (by eapply lookup_lt_Some).
  split.
  - done.
  - intros b' y Hb' Hy. rewrite on_files_lookup in Hy by done. case_decide as E.
    + subst. injection Hy as <-. done.
    + rewrite (bi_ref _ _ _ _ Hi b' y Hb' Hy). f_equal. unfold pinned. f_equal. apply bool_decide_ext.
      split; (intros [Hvy Hin]; split; [done|]); (rewrite HP || rewrite <- HP); try done;
        intros Eb; apply E; by apply (binv_one s p H P b' b y x).
  - intros m b' Hm. destruct (bi_held _ _ _ _ Hi m b' Hm) as (y & Hb' & Hy & Hvy & Hmy & Hl).
    destruct (decide (b' = b)) as [->|Hne].
    + rewrite Hx in Hy. injection Hy as <-. exists x'. rewrite on_files_lookup, decide_True by done.
      split_and!; try done; congruence.
    + exists y. rewrite on_files_lookup, decide_False by done. done.
  - apply Hi.
  - intros m Hm. destruct (decide (m = b_blockno x)) as [->|Hne].
    + exists b, x'. rewrite on_files_lookup, decide_True by done. split_and!; try done; congruence.
    + rewrite HP in Hm by done. destruct (bi_pin _ _ _ _ Hi m Hm) as (b' & y & Hb' & Hy & Hvy & Hmy).
      assert (b' <> b) by (intros ->; congruence).
      exists b', y. rewrite on_files_lookup, decide_False by done. done.
Qed.

(** Editing a held buffer. *)
Lemma edit_rule s p H P n b (g : list Z -> list Z) cur : binv s p H P -> H !! n = Some b ->
  length (g (view s n)) = Z.to_nat BSIZE ->
  exists s', buf_set b (fun x => x <| b_data ::= g |>) s = Ok tt s' /\ binv s' p H P /\
    (forall k, view s' k = if decide (k = n) then g (view s n) else view s k) /\
    fs_disk (k_files s') = fs_disk (k_files s) /\ bframe cur s s'.
Proof.
  intros Hi Hn Hlen. destruct (binv_view s p H P n b Hi Hn) as (x & Hb & Hx & Hv & Hbn & Hd & Hr & Hc & _).
  destruct (bi_cache _ _ _ _ Hi) as [order Hok].
  rewrite (buf_set_run _ s b (lookup_lt_Some _ _ _ Hx)), (alter_put s b _ x Hx).
  set (x' := x <| b_data := g (view s n) |>).
  assert (Ex : x <| b_data ::= g |> = x') by (unfold x'; simpl; by rewrite Hd).
  rewrite Ex. destruct (cache_edit (k_files s) order b x (g (view s n)) Hok Hb Hx Hv ltac:(lia) Hlen) as [Hok' Hview].
  eexists. split; [done|]. split_and!.
  - apply (binv_put s p H P P b x x'); try done; [by exists order|].
    exact (bi_ref _ _ _ _ Hi b x Hb Hx).
  - intros k. unfold view. simpl. rewrite Hview, Hbn. done.
  - done.
  - by split.
Qed.

(** Writing a held buffer to the disk. *)
Lemma bwrite_rule s c cur p H P n b : calm s c cur [] -> k_procs s !! cur = Some p -> binv s p H P ->
  H !! n = Some b ->
  exists s', bwrite b s = Ok tt s' /\ binv s' p H P /\ (forall k, view s' k = view s k) /\
    fs_disk (k_files s') = write_block (fs_disk (k_files s)) n (view s n) /\ bframe cur s s'.
Proof.
  intros Hc Hp Hi Hn. destruct (binv_view s p H P n b Hi Hn) as (x & Hb & Hx & Hv & Hbn & Hd & Hr & _ & Ho).
  destruct (bi_cache _ _ _ _ Hi) as [order Hok].
  rewrite (bwrite_run s c cur p b x Hc Hp Ho).
  destruct (cache_flush (k_files s) order b x Hok Hb Hx Hv) as [Hok' Hview].
  eexists. split; [done|]. split_and!.
  - split; try apply Hi. by exists order.
  - intros k. apply Hview.
  - simpl. by rewrite Hbn, Hd.
  - by split.
Qed.

(** A held buffer with another reference count, pinned or not: the view stays. *)
Lemma recount s p H P P' n b x k : binv s p H P -> H !! n = Some b -> bufs s !! b = Some x ->
  b_blockno x = n -> b_valid x = 1 -> (forall m, m <> n -> m ∈ P' <-> m ∈ P) ->
  b_refcnt x + k = (if decide (n ∈ P') then 2 else 1) ->
  let s' := on_files s (fun f => put_buf f b (x <| b_refcnt := b_refcnt x + k |>)) in
  binv s' p H P' /\ (forall m, view s' m = view s m).
Proof.
  intros Hi Hn Hx Hbn Hv HP Hk s'. destruct (bi_held _ _ _ _ Hi _ _ Hn) as (? & Hb & _).
  destruct (bi_cache _ _ _ _ Hi) as [order Hok].
  set (x' := x <| b_refcnt := b_refcnt x + k |>) in *.
  assert (Hk' : b_refcnt x' = if decide (n ∈ P') then 2 else 1) by done.
  assert (Hok' : cache_ok (put_buf (k_files s) b x') order).
  { pose proof (co_buf _ _ Hok b x Hb Hx) as Hbo. apply (cache_put (k_files s) order b x); try done.
    - split; try apply Hbo; rewrite Hk'; case_decide; lia.
    - simpl. intros Hd0 b2 x2 Hb2 Hx2 Hne. destruct (is_block _ _ x2) eqn:E; [|done].
      apply is_block_true in E as [E1 E2]. destruct Hne.
      apply (co_uniq _ _ Hok b2 b x2 x); try done. by rewrite E1. }
  split.
  - apply (binv_put s p H P P' b x x'); try done; [by exists order|by rewrite Hbn|].
    rewrite Hk'. unfold pinned, holds. change (b_blockno x') with (b_blockno x).
    change (b_valid x') with (b_valid x). rewrite Hv, Hbn, Hn, (bool_decide_true (Some b = Some b)) by done.
    destruct (decide (n ∈ P')); [rewrite bool_decide_true|rewrite bool_decide_false]; try done; tauto.
  - intros m. pose proof (blk_put (k_files s) order b x x' ROOTDEV m Hok Hok' Hb Hx ltac:(done)) as E.
    change (cached ROOTDEV m x') with (cached ROOTDEV m x) in E.
    transitivity (blk (put_buf (k_files s) b x') ROOTDEV m); [done|]. rewrite E.
    destruct (cached ROOTDEV m x) eqn:Ec; [|done]. symmetry. by apply (blk_hit _ order ROOTDEV m b x).
Qed.

(** Pinning and unpinning a held block. *)
Lemma bpin_rule s c cur held p H P n b : calm s c cur held -> LBcache ∉ held -> (length held < 90)%nat ->
  binv s p H P -> H !! n = Some b -> n ∉ P ->
  exists s', bpin b s = Ok tt s' /\ binv s' p H ({[n]} ∪ P) /\ (forall k, view s' k = view s k) /\
    fs_disk (k_files s') = fs_disk (k_files s) /\ bframe cur s s'.
Proof.
  intros Hc Hh Hf Hi Hn HnP. destruct (binv_view s p H P n b Hi Hn) as (x & Hb & Hx & Hv & Hbn & Hd & Hr & Hcnt & _).
  rewrite decide_False in Hcnt by done.
  rewrite (bpin_run s c cur held b x Hc Hh Hf Hx ltac:(lia)). eexists. split; [done|].
  destruct (recount s p H P ({[n]} ∪ P) n b x 1 Hi Hn Hx Hbn Hv) as [Hi' Hview]; [set_solver| |].
  { rewrite decide_True by set_solver. lia. }
  split_and!; [done|done|done|by split].
Qed.

Lemma bunpin_rule s c cur held p H P n b : calm s c cur held -> LBcache ∉ held -> (length held < 90)%nat ->
  binv s p H P -> H !! n = Some b -> n ∈ P ->
  exists s', bunpin b s = Ok tt s' /\ binv s' p H (P ∖ {[n]}) /\ (forall k, view s' k = view s k) /\
    fs_disk (k_files s') = fs_disk (k_files s) /\ bframe cur s s'.
Proof.
  intros Hc Hh Hf Hi Hn HnP. destruct (binv_view s p H P n b Hi Hn) as (x & Hb & Hx & Hv & Hbn & Hd & Hr & Hcnt & _).
  rewrite decide_True in Hcnt by done.
  rewrite (bunpin_run s c cur held b x Hc Hh Hf Hx ltac:(lia)). eexists. split; [done|].
  destruct (recount s p H P (P ∖ {[n]}) n b x (-1) Hi Hn Hx Hbn Hv) as [Hi' Hview]; [set_solver| |].
  { rewrite decide_False by set_solver. lia. }
  split_and!; [done|done|done|by split].
Qed.


(** The buffers after a release: only the count of [b] and the links change. *)
Lemma core_lookup (bs bs' : list buf) i : core <$> bs = core <$> bs' -> core <$> bs !! i = core <$> bs' !! i.
Proof. intros E. rewrite <- !list_lookup_fmap. by rewrite E. Qed.

Lemma released_core f b x l : (b < length (fs_bufs f))%nat ->
  core <$> fs_bufs (released f b x l) = core <$> fs_bufs (put_buf f b (x <| b_refcnt := b_refcnt x - 1 |>)).
Proof. intros Hb. unfold released. destruct (b_refcnt x =? 1); [|done]. apply core_to_front. Qed.
Lemma released_sleep f b x l : fs_sleep (released f b x l) =
  <[b := l <| sl_locked := 0 |> <| sl_pid := 0 |>]> (fs_sleep f).
Proof. unfold released. by destruct (b_refcnt x =? 1). Qed.

Lemma released_lookup f b x l : (b < length (fs_bufs f))%nat -> forall b',
  core <$> fs_bufs (released f b x l) !! b' =
  core <$> (if decide (b' = b) then Some (x <| b_refcnt := b_refcnt x - 1 |>) else fs_bufs f !! b').
Proof.
  intros Hb b'. rewrite (core_lookup _ _ b' (released_core f b x l Hb)).
  by rewrite put_buf_lookup by done.
Qed.

(** [binv] depends on the buffers up to their links. *)
Lemma core_eqs x y : core x = core y ->
  b_valid x = b_valid y /\ b_blockno x = b_blockno y /\ b_refcnt x = b_refcnt y.
Proof.
  intros E. split_and!; [apply (core_field b_valid)|apply (core_field b_blockno)|apply (core_field b_refcnt)]; done.
Qed.
Lemma core_some (o : option buf) x : core <$> o = core <$> Some x ->
  exists y, o = Some y /\ b_valid y = b_valid x /\ b_blockno y = b_blockno x /\ b_refcnt y = b_refcnt x.
Proof.
  destruct o as [y|]; [|done]. simpl. intros E. exists y. split; [done|].
  apply core_eqs. exact (inj Some _ _ E).
Qed.

Lemma released_binv s p H P n b x l : binv s p H P -> H !! n = Some b -> bufs s !! b = Some x ->
  b_valid x = 1 -> b_blockno x = n -> fs_sleep (k_files s) !! b = Some l ->
  (exists order, cache_ok (released (k_files s) b x l) order) ->
  binv (on_files s (fun f => released f b x l)) p (delete n H) P.
Proof.
  intros Hi Hn Hx Hv Hbn Hl Hok.
  assert (Hbl : (b < length (fs_bufs (k_files s)))%nat) by (by eapply lookup_lt_Some).
  assert (Hsl : (b < length (fs_sleep (k_files s)))%nat) by (by eapply lookup_lt_Some).
  destruct (bi_held _ _ _ _ Hi _ _ Hn) as (? & Hb & _).
  pose proof (released_lookup (k_files s) b x l Hbl) as Hlk. split.
  - done.
  - intros b' y Hb' Hy. specialize (Hlk b').
    change (fs_bufs (released (k_files s) b x l) !! b' = Some y) in Hy. rewrite Hy in Hlk. symmetry in Hlk. case_decide as E.
    + subst b'. apply core_some in Hlk as (z & [= <-] & E1 & E2 & E3). simpl in *.
      pose proof (bi_ref _ _ _ _ Hi b x Hb Hx) as Hrx. unfold pinned, holds in *.
      rewrite <- E1, <- E2, Hbn. rewrite Hbn, Hn in Hrx. rewrite lookup_delete_eq.
      rewrite (bool_decide_false (None = _)) by done. rewrite (bool_decide_true (Some b = _)) in Hrx by done.
      simpl in *. rewrite <- E3. simpl. lia.
    + apply core_some in Hlk as (z & Hz & E1 & E2 & E3).
      rewrite <- E3, (bi_ref _ _ _ _ Hi b' z Hb' Hz). unfold pinned, holds. rewrite E1, E2. f_equal. f_equal.
      apply bool_decide_ext. destruct (decide (b_blockno y = n)) as [->|Hne].
      * rewrite lookup_delete_eq, Hn. split; [intros [= ->]; done|done].
      * by rewrite lookup_delete_ne by done.
  - intros m b' Hm. apply lookup_delete_Some in Hm as [Hmn Hm].
    destruct (bi_held _ _ _ _ Hi _ _ Hm) as (y & Hb' & Hy & Hvy & Hmy & nm & Hly).
    assert (Hne : b' <> b) by (intros ->; by rewrite (binv_inj s p H P n m b Hi Hn Hm) in Hmn).
    specialize (Hlk b'). rewrite decide_False in Hlk by done. unfold bufs in Hy. rewrite Hy in Hlk.
    apply core_some in Hlk as (z & Hz & E1 & E2 & E3). exists z. split_and!; try done; try congruence.
    exists nm. simpl. rewrite released_sleep. by rewrite list_lookup_insert_ne.
  - intros b' Hb' Hfree. simpl. rewrite released_sleep. destruct (decide (b' = b)) as [->|Hne].
    + rewrite list_lookup_insert_eq by done. eauto.
    + rewrite list_lookup_insert_ne by done. apply (bi_free _ _ _ _ Hi b' Hb'). intros m Hm.
      apply (Hfree m). rewrite lookup_delete_ne; [done|]. intros ->. congruence.
  - intros m Hm. destruct (bi_pin _ _ _ _ Hi m Hm) as (b' & y & Hb' & Hy & Hvy & Hmy).
    specialize (Hlk b'). exists b'. case_decide as E.
    + subst b'. apply core_some in Hlk as (z & Hz & E1 & E2 & E3). exists z.
      simpl in E1, E2. split_and!; try done; congruence.
    + unfold bufs in Hy. rewrite Hy in Hlk. apply core_some in Hlk as (z & Hz & E1 & E2 & E3). exists z.
      split_and!; try done; congruence.
Qed.

Lemma cache_ok_frame f f' order : cache_ok f order -> fs_bufs f' = fs_bufs f ->
  fs_sleep f' = fs_sleep f -> fs_disk f' = fs_disk f -> cache_ok f' order.
Proof.
  intros [A B C E G] E1 E2 E3. split; rewrite ?E1, ?E2, ?E3; try done.
  intros b x Hb Hx. destruct (C b x Hb Hx). split; rewrite ?E2, ?E3; done.
Qed.
Lemma binv_frame s s' p H P : binv s p H P -> fs_bufs (k_files s') = fs_bufs (k_files s) ->
  fs_sleep (k_files s') = fs_sleep (k_files s) -> fs_disk (k_files s') = fs_disk (k_files s) ->
  binv s' p H P.
Proof.
  intros [[order A] B C E G] E1 E2 E3. unfold bufs in *. split; unfold bufs; rewrite ?E1, ?E2; try done.
  exists order. by apply (cache_ok_frame (k_files s)).
Qed.
Lemma binv_procs s p H P ps : binv s p H P -> binv (s <| k_procs := ps |>) p H P.
Proof. intros Hi. by apply (binv_frame s). Qed.

(** Releasing a block that is pinned or clean. *)
Lemma brelse_rule s c cur p H P n b : calm s c cur [] -> k_procs s !! cur = Some p -> binv s p H P ->
  H !! n = Some b -> n ∈ P \/ view s n = ondisk s n ->
  exists s', brelse b s = Ok tt s' /\ binv s' p (delete n H) P /\ (forall k, view s' k = view s k) /\
    fs_disk (k_files s') = fs_disk (k_files s) /\ bframe cur s s'.
Proof.
  intros Hc Hp Hi Hn Hclean.
  destruct (binv_view s p H P n b Hi Hn) as (x & Hb & Hx & Hv & Hbn & Hd & Hr & Hcnt & Ho).
  destruct (bi_held _ _ _ _ Hi _ _ Hn) as (? & _ & _ & _ & _ & nm & Hl).
  destruct (bi_cache _ _ _ _ Hi) as [order Hok].
  rewrite (brelse_run s c cur p order b x _ Hc Hp Hok Ho Hl).
  destruct (released_ok (k_files s) order b x _ Hok Hb Hx Hl ltac:(lia) Hv) as [Hok' Hview].
  { intros Hr1. destruct Hclean as [Hin|Hclean]; [rewrite decide_True in Hcnt by done; lia|].
    rewrite Hd, Hbn. done. }
  eexists. split; [done|]. split_and!.
  - apply binv_procs. apply (released_binv s p H P n b x); try done. by eexists.
  - done.
  - simpl. unfold released. by destruct (b_refcnt x =? 1).
  - split; simpl; try done; [apply length_wakes|apply wakes_cur| | |].
    + unfold released. by destruct (b_refcnt x =? 1).
    + intros i Hi'. rewrite released_sleep. rewrite list_lookup_insert_ne by lia. done.
    + unfold released. by destruct (b_refcnt x =? 1).
Qed.


(** A block that is neither pinned nor held is the same in the cache and on the disk. *)
Lemma binv_clean s p H P n : binv s p H P -> n ∉ P -> H !! n = None -> view s n = ondisk s n.
Proof.
  intros Hi HP Hn. destruct (bi_cache _ _ _ _ Hi) as [order Hok]. unfold view, ondisk.
  destruct (blk_cases (k_files s) order ROOTDEV n Hok ltac:(done)) as [(b & x & Hb & Hx & Hc & ->) | [_ ->]]; [|done].
  apply cached_true in Hc as (Hd & Hbn & Hv). pose proof (co_buf _ _ Hok b x Hb Hx) as Ho.
  assert (Hv1 : b_valid x = 1) by (destruct (bo_valid _ _ _ Ho); [congruence|done]).
  rewrite (bo_clean _ _ _ Ho); [by rewrite Hbn| |done].
  rewrite (bi_ref _ _ _ _ Hi b x Hb Hx). unfold pinned, holds. rewrite Hbn, Hn.
  rewrite !bool_decide_false; [done|done|tauto].
Qed.

Lemma binv_size s p H P n : binv s p H P -> length (view s n) = Z.to_nat BSIZE.
Proof.
  intros Hi. destruct (bi_cache _ _ _ _ Hi) as [order Hok]. unfold view.
  destruct (blk_cases (k_files s) order ROOTDEV n Hok ltac:(done)) as [(b & x & Hb & Hx & Hc & ->) | [_ ->]];
    [by apply (co_buf _ _ Hok b x Hb Hx)|apply Hok].
Qed.

End rules.
