(* ===== verification/Example.v ===== *)
(** * An example kernel with files

    A running process on a hart, every lock free, a cleared buffer cache over a given disk:
    the concrete state on which the theorems about the file layer are instantiated. *)

From S2P Require Import Prelude Riscv CString Kalloc Vm Spinlock Proc ProcSpec Headers Dlist Sleeplock Bio.
From S2P Require Import BioSpec Bcache.

Definition all_static : list lockid :=
  (LProc <$> seq 0 NPROC) ++ (LSleep <$> seq 0 (NBUF + NINODE)) ++
  [LWait; LPid; LTicks; LBcache; LLog; LFtable; LItable; LCons; LUart; LDisk; LPr].
Definition fs_locks : gmap lockid spinlock :=
  list_to_map ((fun l => (l, Spinlock 0 "lock" None)) <$> all_static).
Definition fs_mach : mach :=
  Mach ex_hart context0 (ex_cpu (Some 0%nat) :: replicate (NCPU - 1) cpu0) fs_locks.

(** A cleared cache with its list in the order binit leaves. *)
Definition ring_buf (b : nat) : buf :=
  buf0 <| b_prev := if decide (b = NBUF - 1)%nat then HEAD else if decide (b = HEAD) then 0%nat else S b |>
       <| b_next := if decide (b = 0)%nat then HEAD else (b - 1)%nat |>.
Definition ring : list buf := ring_buf <$> seq 0 (S NBUF).
Definition ring_order : list nat := rev (seq 0 NBUF).
Definition log0 : logstate := Log 2 30 0 0 ROOTDEV 0 (replicate (Z.to_nat LOGSIZE) 0).
Definition sb0 : superblock := Superblock FSMAGIC 1000 954 200 30 2 32 45.
Definition fs_files (d : gmap Z (list Z)) : files :=
  Files (Disk d []) (replicate (NBUF + NINODE) sleeplock0) ring log0 sb0 (replicate NINODE inode0)
    (replicate 100 file0) ∅ (Cons (replicate 128 0) 0 0 0) (Uart (replicate 32 0) 0 0 [] [] true) vdisk0 [].
Definition fs_kern (f : files) : kern :=
  KState fs_mach (Phys (Mem ∅) 0) (ex_proc 1 RUNNING :: replicate (NPROC - 1) proc0) (Some 0%nat) 2 10 37
    (replicate 5 mlfq0) f.

Lemma all_static_in l : static_lock l = true -> l ∈ all_static.
Proof.
  unfold static_lock, all_static. rewrite !elem_of_app. destruct l as [q| | | | | | | | |i| | | | ]; intros H; try done;
    try (right; right; set_solver).
  - left. apply list_elem_of_fmap. exists q. split; [done|]. apply Nat.ltb_lt in H. apply elem_of_seq. lia.
  - right. left. apply list_elem_of_fmap. exists i. split; [done|]. apply Nat.ltb_lt in H. apply elem_of_seq. lia.
Qed.
Lemma all_static_nodup : NoDup all_static.
Proof. apply (bool_decide_unpack _). vm_compute. exact I. Qed.
Lemma fs_lock_free l : static_lock l = true -> lk_free fs_mach l.
Proof.
  intros Hl. exists "lock"%string. change (m_locks fs_mach) with fs_locks. unfold fs_locks.
  apply elem_of_list_to_map_1.
  - rewrite <- list_fmap_compose. rewrite list_fmap_id. apply all_static_nodup.
  - apply list_elem_of_fmap. exists l. split; [done|]. by apply all_static_in.
Qed.

Lemma fs_calm f : calm (fs_kern f) (ex_cpu (Some 0%nat)) 0 [].
Proof.
  split; try done.
  - simpl. lia.
  - simpl. unfold NPROC. lia.
  - intros l Hl _. by apply fs_lock_free.
Qed.

Lemma ring_lru : lru ring ring_order.
Proof.
  split; [done|symmetry; apply Permutation_rev|]. vm_compute. tauto.
Qed.
Lemma ring_lookup b x : ring !! b = Some x -> x = ring_buf b /\ (b <= NBUF)%nat.
Proof.
  unfold ring. rewrite list_lookup_fmap. intros H. destruct (seq 0 (S NBUF) !! b) as [i|] eqn:E; [|done].
  apply lookup_seq in E as [-> Hlt]. simpl in H. injection H as <-. split; [done|lia].
Qed.

Definition disk_wf (d : gmap Z (list Z)) : Prop := map_Forall (fun _ v => length v = Z.to_nat BSIZE) d.
Lemma dblock_len d n : disk_wf d -> length (dblock d n) = Z.to_nat BSIZE.
Proof.
  intros H. unfold dblock. destruct (d !! n) as [v|] eqn:E; simpl; [by apply (H n)|]. done.
Qed.

Lemma fs_sleep_free b : (b < NBUF + NINODE)%nat ->
  exists l, replicate (NBUF + NINODE) sleeplock0 !! b = Some l /\ sl_locked l = 0.
Proof. intros Hb. exists sleeplock0. split; [|done]. by apply lookup_replicate. Qed.

Lemma fs_cache d : disk_wf d -> cache_ok (fs_files d) ring_order.
Proof.
  intros Hd. split.
  - apply ring_lru.
  - apply length_replicate.
  - intros b x Hb Hx. apply ring_lookup in Hx as [-> _]. split; try done; [by left|].
    intros _. apply fs_sleep_free. lia.
  - intros b b' x x' Hb Hb' Hx Hx' _ _ Hne. apply ring_lookup in Hx as [-> _]. done.
  - intros n. by apply dblock_len.
Qed.

Lemma fs_binv d p : disk_wf d -> binv (fs_kern (fs_files d)) p ∅ ∅.
Proof.
  intros Hd. split.
  - exists ring_order. by apply fs_cache.
  - intros b x Hb Hx. apply ring_lookup in Hx as [-> _]. done.
  - done.
  - intros b Hb _. apply fs_sleep_free. lia.
  - intros n Hn. by apply elem_of_empty in Hn.
Qed.

(** The same with block [n] pinned by the log, its content [v] not yet on the disk. *)
Definition pin_buf (n : Z) (v : list Z) : buf :=
  ring_buf 0 <| b_valid := 1 |> <| b_dev := ROOTDEV |> <| b_blockno := n |> <| b_refcnt := 1 |> <| b_data := v |>.
Definition pin_log (n : Z) : logstate := log0 <| l_n := 1 |> <| l_block ::= insert 0%nat n |>.
Definition pin_files (d : gmap Z (list Z)) (n : Z) (v : list Z) : files :=
  put_buf (fs_files d <| fs_log := pin_log n |>) 0 (pin_buf n v).

Lemma pin_cache d n v : disk_wf d -> length v = Z.to_nat BSIZE -> cache_ok (pin_files d n v) ring_order.
Proof.
  intros Hd Hv. unfold pin_files. apply (cache_put _ ring_order 0 (ring_buf 0)); try done.
  - apply (cache_ok_frame (fs_files d)); try done. by apply fs_cache.
  - change NBUF with 30%nat. lia.
  - split; try done. by right.
  - intros _ b x Hb Hx _. apply ring_lookup in Hx as [-> _]. done.
Qed.
Lemma pin_binv d n v p : disk_wf d -> length v = Z.to_nat BSIZE ->
  binv (fs_kern (pin_files d n v)) p ∅ {[n]}.
Proof.
  intros Hd Hv.
  assert (Hl : forall b, bufs (fs_kern (pin_files d n v)) !! b = if decide (b = 0)%nat then Some (pin_buf n v) else ring !! b).
  { intros b. set (f := fs_files d <| fs_log := pin_log n |>).
    change (fs_bufs (put_buf f 0 (pin_buf n v)) !! b = if decide (b = 0)%nat then Some (pin_buf n v) else fs_bufs f !! b).
    rewrite put_buf_lookup; [by repeat case_decide|]. change (0 < 31)%nat. lia. }
  split.
  - exists ring_order. by apply pin_cache.
  - intros b x Hb Hx. rewrite Hl in Hx. unfold pinned, holds. rewrite lookup_empty.
    rewrite (bool_decide_false (None = _)) by done. case_decide.
    + injection Hx as <-. simpl. rewrite bool_decide_true by set_solver. done.
    + apply ring_lookup in Hx as [-> _]. done.
  - done.
  - intros b Hb _. apply fs_sleep_free. lia.
  - intros m Hm. apply elem_of_singleton in Hm as ->. exists 0%nat, (pin_buf n v). rewrite Hl.
    split_and!; try done. change NBUF with 30%nat. lia.
Qed.
