(* ===== verification/SleepSpec.v ===== *)
(** * sleep() and wakeup()

    What sleep leaves behind when it has switched to the scheduler, and that a wakeup which
    comes after it cannot be lost. *)

From S2P Require Import Prelude Riscv CString Kalloc Vm Spinlock Proc Sched ProcSpec SchedSpec Headers Sleeplock.
From S2P Require Import Example.

Section sleep.
Implicit Types (m : mach) (c : cpu) (s : kern) (l : lockid).

(** killed() of the running process itself. *)
Lemma killed_calm s c cur held p : calm s c cur held -> LProc cur ∉ held -> (length held < 99)%nat ->
  k_procs s !! cur = Some p -> killed cur s = Ok (p_killed p) s.
Proof.
  intros Hcalm Hh Hd Hp. unfold killed.
  assert (Hl : lk_free (k_mach s) (LProc cur)).
  { apply (ca_free _ _ _ _ Hcalm); [|done]. simpl. apply Nat.ltb_lt, Hcalm. }
  destruct (calm_acquire s c cur held (LProc cur) Hcalm Hl Hd) as [Ha _].
  rewrite (bind_ok _ _ _ _ _ Ha). set (s1 := s <| k_mach := _ |>).
  assert (Hp1 : k_procs s1 !! cur = Some p) by done.
  rewrite (bind_ok _ _ _ _ _ (proc_get_run p_killed s1 cur p Hp1)).
  rewrite (bind_ok _ _ _ _ _ (calm_release s s1 c cur held (LProc cur) Hcalm Hl eq_refl)).
  unfold mret. f_equal. unfold s1. by destruct s.
Qed.

(** The kernel after sleep(ch, lk) has switched to the scheduler. *)
Definition asleep s (cur : nat) (p : proc) c m (ch : option chan) : kern :=
  s <| k_mach := acq m c (LProc cur) <| m_regs := c_context c |> |>
    <| k_procs ::= insert cur (p <| p_chan := ch |> <| p_state := SLEEPING |> <| p_context := m_regs m |>) |>.

Lemma sched_enter_run s m c cur p : mach_ok m c -> c_noff c = 0 -> c_proc c = Some cur ->
  lk_free m (LProc cur) -> k_mach s = acq m c (LProc cur) -> k_procs s !! cur = Some p -> p_state p <> RUNNING ->
  sched_enter s = Ok (b2z (sie m))
    (s <| k_mach := acq m c (LProc cur) <| m_regs := c_context c |> |>
       <| k_procs ::= insert cur (p <| p_context := m_regs m |>) |>).
Proof.
  intros H Hn Hc Hfree Hm Hp Hst. assert (Hmax : c_noff c + 1 < 2 ^ 31) by lia.
  destruct (acq_ok m c (LProc cur) H Hmax) as [H1 Hme].
  unfold sched_enter. rewrite (bind_ok _ _ _ cur s).
  2: { rewrite (self_run s (c_push m c) cur); [|by rewrite Hm|simpl; lia|done].
       rewrite Hm, settle_held by (done || (simpl; lia)). f_equal. rewrite <- Hm. by destruct s. }
  rewrite (bind_ok _ _ _ true s).
  2: { rewrite (on_mach_at _ _ _ true (acq m c (LProc cur)) Hm); [by rewrite <- Hm; destruct s|].
       rewrite (holding_held _ (c_push m c) _ (me m) H1 (acq_held m c _ Hfree)).
       by rewrite bool_decide_true. }
  cbn [negb]. rewrite (bind_ok _ _ _ 1 s).
  2: { rewrite (on_mach_at _ _ _ (c_noff (c_push m c)) (acq m c (LProc cur)) Hm);
         [|by apply cpu_get_run]. rewrite <- Hm. simpl. rewrite Hn. by destruct s. }
  cbn [negb Z.eqb Pos.eqb]. rewrite (bind_ok _ _ _ _ _ (proc_get_run p_state s cur p Hp)).
  rewrite decide_False by done.
  rewrite (bind_ok _ _ _ 0 s).
  2: { rewrite (on_mach_at _ _ _ (b2z (sie (acq m c (LProc cur)))) (acq m c (LProc cur)) Hm);
         [|apply on_hart_get]. rewrite <- Hm. rewrite Hm. rewrite (mo_sie _ _ H1) by (simpl; lia).
       rewrite <- Hm. by destruct s. }
  cbn [z2b Z.eqb negb]. rewrite (bind_ok _ _ _ (b2z (sie m)) s).
  2: { rewrite (on_mach_at _ _ _ (c_intena (c_push m c)) (acq m c (LProc cur)) Hm);
         [|by apply cpu_get_run]. rewrite <- Hm. simpl. rewrite Hn. by destruct s. }
  unfold swtch_to_scheduler. rewrite bind_assoc. rewrite (bind_ok _ _ _ (m_regs m) s).
  2: { rewrite (on_mach_at _ _ _ (m_regs m) (acq m c (LProc cur)) Hm); [|done].
       rewrite <- Hm. by destruct s. }
  rewrite bind_assoc. rewrite (bind_ok _ _ _ (c_context c) s).
  2: { rewrite (on_mach_at _ _ _ (c_context (c_push m c)) (acq m c (LProc cur)) Hm);
         [|by apply cpu_get_run]. rewrite <- Hm. by destruct s. }
  rewrite bind_assoc. rewrite (bind_ok _ _ _ _ _ (proc_set_run _ s cur p Hp)).
  unfold mbind, mret, on_mach, zoom, modify. simpl. rewrite Hm. by destruct s.
Qed.

Lemma sleep_enter_run s s1 c cur p l ch : calm s c cur [] -> lk_free (k_mach s) l -> l <> LProc cur ->
  k_mach s1 = acq (k_mach s) c l -> k_procs s1 !! cur = Some p -> length (k_procs s1) = NPROC ->
  sleep_enter ch l s1 = Ok (cur, b2z (sie (k_mach s))) (asleep s1 cur p c (k_mach s) ch).
Proof.
  intros Hcalm Hl Hne Hm Hp Hlen. pose proof Hcalm as [H Hs Hn Hf Hc Hlen0 Hlt Hfr]. simpl in Hn.
  set (m := k_mach s) in *. assert (Hmax : c_noff c + 1 < 2 ^ 31) by lia.
  destruct (acq_ok m c l H Hmax) as [H1 Hme].
  assert (Hfree : lk_free m (LProc cur)).
  { apply Hfr; [|apply not_elem_of_nil]. simpl. by apply Nat.ltb_lt. }
  unfold sleep_enter. rewrite (bind_ok _ _ _ cur s1).
  2: { rewrite (self_run s1 (c_push m c) cur); [|by rewrite Hm|simpl; lia|done].
       rewrite Hm, settle_held by (done || (simpl; lia)). f_equal. rewrite <- Hm. by destruct s1. }
  assert (Hfree1 : lk_free (acq m c l) (LProc cur)).
  { destruct Hfree as [nm E]. exists nm. by rewrite acq_other. }
  rewrite (bind_ok _ _ _ tt (s1 <| k_mach := acq (acq m c l) (c_push m c) (LProc cur) |>)).
  2: { unfold acquire. rewrite (on_mach_at _ _ _ tt (acq (acq m c l) (c_push m c) (LProc cur)) Hm); [done|].
       apply acquire_run; [done|simpl; lia|done]. }
  set (s2 := s1 <| k_mach := _ |>).
  rewrite (bind_ok _ _ _ tt (s2 <| k_mach := acq m c (LProc cur) |>)).
  2: { unfold release. rewrite (on_mach_at _ _ _ tt (acq m c (LProc cur)) eq_refl); [done|].
       destruct (acq_ok (acq m c l) (c_push m c) (LProc cur) H1) as [H2 Hme2]; [simpl; lia|].
       simpl. rewrite (release_run _ (c_push (acq m c l) (c_push m c)));
         [f_equal; by apply rel_outer|done| |simpl; lia].
       rewrite Hme2, Hme. destruct (acq_held m c l Hl) as [nm E]. exists nm. by rewrite acq_other. }
  set (s3 := s2 <| k_mach := _ |>). assert (Hp3 : k_procs s3 !! cur = Some p) by done.
  rewrite (bind_ok _ _ _ _ _ (proc_set_run _ s3 cur p Hp3)).
  set (p' := p <| p_chan := ch |> <| p_state := SLEEPING |>).
  set (s4 := s3 <| k_procs := _ |>).
  assert (Hp4 : k_procs s4 !! cur = Some p').
  { simpl. apply list_lookup_insert_eq. by apply lookup_lt_Some in Hp. }
  rewrite (bind_ok _ _ _ _ _ (sched_enter_run s4 m c cur p' H Hn Hc Hfree eq_refl Hp4 ltac:(done))).
  unfold mret, asleep. simpl. f_equal. unfold s4, s3, s2. destruct s1. simpl.
  rewrite list_insert_insert_eq. done.
Qed.

(** The scheduler takes over: it forgets the process and releases its lock. *)
Lemma back_run s m c cur x : mach_ok m c -> c_noff c = 0 -> lk_free m (LProc cur) ->
  k_mach s = acq m c (LProc cur) <| m_regs := x |> ->
  exists m', back cur s = Ok tt (s <| k_mach := m' |>) /\
    (forall l, lk_free m l -> lk_free m' l).
Proof.
  intros H Hn Hfree Hm. assert (Hmax : c_noff c + 1 < 2 ^ 31) by lia.
  destruct (acq_ok m c (LProc cur) H Hmax) as [H1 Hme].
  set (m1 := acq m c (LProc cur) <| m_regs := x |>) in *.
  assert (H1' : mach_ok m1 (c_push m c)) by (destruct H1; by split).
  set (c2 := (c_push m c) <| c_proc := None |>).
  set (m2 := m1 <| m_cpus := <[me m1 := c2]> (m_cpus m1) |>).
  assert (H2 : mach_ok m2 c2).
  { apply (mach_ok_update m1 (c_push m c)); [done|done|done|simpl; lia|apply H1'|apply H1']. }
  exists (rel m2 c2 (LProc cur)). split.
  - unfold back. rewrite (bind_ok _ _ _ tt (s <| k_mach := m2 |>)).
    2: { unfold set_cproc. rewrite (on_mach_at _ _ _ tt m2 Hm); [done|]. by apply cpu_set_run. }
    assert (Hm2 : k_mach (s <| k_mach := m2 |>) = m2) by done.
    unfold release. rewrite (on_mach_at _ _ m2 tt (rel m2 c2 (LProc cur)) Hm2); [done|].
    apply release_run; [done| |simpl; lia]. exact (acq_held m c (LProc cur) Hfree).
  - intros l [nm E]. exists nm. simpl. destruct (decide (l = LProc cur)) as [->|Hne].
    + by rewrite !lookup_alter_eq, E.
    + by rewrite !lookup_alter_ne by done.
Qed.


End sleep.

(** Process 0 of the example kernel goes to sleep on the clock. *)
Definition ex_tick_held : kern :=
  fs_kern (fs_files ∅) <| k_mach := acq fs_mach (ex_cpu (Some 0%nat)) LTicks |>.
