(* ===== verification/PipeSpec.v ===== *)
(** * Pipes are bounded queues

    The ring buffer of a pipe stands for the queue [pqueue].  pipewrite appends user bytes
    to it and piperead takes bytes off its front; both are shown for the whole functions,
    with the locks, the wakeups and the user memory. *)

From S2P Require Import Prelude Riscv CString Kalloc Vm VmSpec Uvm UvmProps Spinlock Proc Sched ProcSpec SchedSpec.
From S2P Require Import Headers Sleeplock Ring Pipe Example SleepSpec.

(** ** The abstraction *)

Record pipe_ok (x : pipe) : Prop := {
  po_len : Z.of_nat (length (pi_data x)) = PIPESIZE;
  po_r : 0 <= nread x < 2 ^ 32;
  po_w : 0 <= nwrite x < 2 ^ 32;
  po_used : used (2 ^ 32) (nread x) (nwrite x) <= PIPESIZE
}.
Definition pqueue (x : pipe) : list Z := Ring.ring PIPESIZE (2 ^ 32) (pi_data x) (nread x) (nwrite x).

#[export] Instance pipe_dims : Dims PIPESIZE (2 ^ 32).
Proof. split; [done|done|by exists (2 ^ 23)|done]. Qed.

Lemma pqueue_length x : Z.of_nat (length (pqueue x)) = used (2 ^ 32) (nread x) (nwrite x).
Proof. exact (length_ring PIPESIZE (2 ^ 32) _ _ _). Qed.

Lemma pipe_full_spec x : pipe_ok x -> pipe_full x = bool_decide (Z.of_nat (length (pqueue x)) = PIPESIZE).
Proof.
  intros H. rewrite pqueue_length. unfold pipe_full.
  pose proof (used_full PIPESIZE (2 ^ 32) (nread x) (nwrite x) (po_r _ H) (po_w _ H)) as Hf.
  unfold u32. destruct (Z.eqb_spec (nwrite x) ((nread x + PIPESIZE) mod 2 ^ 32)) as [E|E]; symmetry.
  - apply bool_decide_eq_true. by apply Hf.
  - apply bool_decide_eq_false. intros Hu. by apply E, Hf.
Qed.
Lemma pipe_empty_spec x : pipe_ok x -> pipe_empty x = bool_decide (pqueue x = []).
Proof.
  intros H. unfold pipe_empty. pose proof (pqueue_length x) as Hlen.
  pose proof (used_0 PIPESIZE (2 ^ 32) (nread x) (nwrite x) (po_r _ H) (po_w _ H)) as H0.
  destruct (Z.eqb_spec (nread x) (nwrite x)) as [E|E]; symmetry.
  - apply bool_decide_eq_true. apply H0 in E. rewrite E in Hlen. destruct (pqueue x); [done|]. simpl in Hlen. lia.
  - apply bool_decide_eq_false. intros Hq. rewrite Hq in Hlen. apply E, H0. by symmetry.
Qed.

Lemma put_byte_ok x ch : pipe_ok x -> pipe_full x = false ->
  pipe_ok (put_byte x ch) /\ pqueue (put_byte x ch) = pqueue x ++ [ch].
Proof.
  intros H Hf. rewrite pipe_full_spec in Hf by done. apply bool_decide_eq_false in Hf.
  rewrite pqueue_length in Hf. pose proof H as [Hl Hr Hw Hu].
  assert (Hlt : used (2 ^ 32) (nread x) (nwrite x) < PIPESIZE) by lia. split.
  - split; simpl.
    + by rewrite length_insert.
    + done.
    + apply u32_range.
    + unfold u32. rewrite (used_push PIPESIZE (2 ^ 32)) by done. lia.
  - unfold pqueue. simpl. by apply (ring_push PIPESIZE (2 ^ 32)).
Qed.

Lemma get_byte_ok x : pipe_ok x -> pipe_empty x = false ->
  pipe_ok (drop_byte x) /\ pqueue x = get_byte x :: pqueue (drop_byte x).
Proof.
  intros H He. pose proof H as [Hl Hr Hw Hu].
  rewrite pipe_empty_spec in He by done. apply bool_decide_eq_false in He.
  pose proof (pqueue_length x) as Hlen.
  assert (Hpos : 0 < used (2 ^ 32) (nread x) (nwrite x)) by (destruct (pqueue x); [done|simpl in Hlen; lia]).
  split.
  - split; simpl; [done|apply u32_range|done|]. unfold u32. rewrite (used_pop PIPESIZE (2 ^ 32)) by done. lia.
  - unfold pqueue. simpl. by rewrite (ring_pop PIPESIZE (2 ^ 32)).
Qed.

(** ** One byte of user memory *)

Section byte.
Context (kend root : Z).

Lemma copyin_byte s va : user_space kend root s -> 0 <= va < 2 ^ 64 ->
  (is_Some (uaddr root s va) /\ copyin root va 1 s = Ok (0, [ubyte root s va]) s) \/
  (uaddr root s va = None /\ exists bs, copyin root va 1 s = Ok (-1, bs) s).
Proof.
  intros (own & fl & Huo) Hva.
  destruct (copyin_loop_run kend root 2 s own fl va 1 [] (uo_pt _ _ _ _ _ Huo)) as (r & bs & Hrun & Hr); [lia..|].
  destruct Hr as [(-> & Hacc & ->)|(-> & Hn)].
  - left. split; [|exact Hrun]. specialize (Hacc 0 ltac:(lia)). by rewrite Z.add_0_r in Hacc.
  - right. split; [|by eexists]. apply eq_None_not_Some. intros Hs. apply Hn. intros i Hi.
    by replace (va + i) with va by lia.
Qed.

Lemma copyout_byte s va b : user_space kend root s -> 0 <= va < 2 ^ 64 -> is_Some (uaddr root s va) ->
  exists s', copyout root va [b] s = Ok 0 s' /\ user_space kend root s' /\
    (forall v, uaddr root s' v = uaddr root s v) /\ ubyte root s' va = b /\
    (forall v, 0 <= v -> v <> va -> is_Some (uaddr root s v) -> ubyte root s' v = ubyte root s v) /\
    (forall x, (forall v, uaddr root s v <> Some x) -> rd (ram s') x = rd (ram s) x).
Proof.
  intros (own & fl & Huo) Hva Hs.
  destruct (copyout_loop_run kend root 2 s own fl va [b] Huo) as (r & s' & Hrun & Huo' & Hu & Hkeep & Hout & Hr);
    [simpl; lia|done|].
  destruct Hr as [(-> & _ & Hb)|(_ & Hn)].
  - exists s'. split_and!; [exact Hrun|by exists own, fl|done|by injection Hb| |done].
    intros v Hv Hne. apply Hkeep; [done|simpl; lia].
  - destruct Hn. intros i Hi. simpl in Hi. by replace (va + i) with va by lia.
Qed.
End byte.

(** ** pipewrite *)

Section pipewrite.
Context (kend : Z) (s : kern) (c : cpu) (cur : nat) (p : proc) (pi : Z).
Notation root := (p_pagetable p).
Implicit Types (t : kern) (x : pipe).

(** The pipe of a state, and a state with another one. *)
Definition with_pipe t x : kern := t <| k_files ::= fun f => f <| fs_pipes ::= insert pi x |> |>.
Definition the_pipe t : option pipe := fs_pipes (k_files t) !! pi.

Lemma pipe_get_run {A} (f : pipe -> A) t x : the_pipe t = Some x -> pipe_get pi f t = Ok (f x) t.
Proof. intros E. unfold pipe_get, mbind, fget, gets, mlookup. unfold the_pipe in E. by rewrite E. Qed.
Lemma pipe_set_run f t x : the_pipe t = Some x -> pipe_set pi f t = Ok tt (with_pipe t (f x)).
Proof.
  intros E. unfold pipe_set, mbind, fget, fset, gets, mlookup, modify. unfold the_pipe in E. rewrite E.
  unfold mret. f_equal. unfold with_pipe. destruct t as [? ? ? ? ? ? ? ? g]; destruct g; simpl in *.
  by rewrite (map_alter_Some f _ x _ E).
Qed.
Lemma with_pipe_get t x : the_pipe (with_pipe t x) = Some x.
Proof. unfold the_pipe. simpl. apply lookup_insert_eq. Qed.
Lemma with_pipe_twice t x y : with_pipe (with_pipe t x) y = with_pipe t y.
Proof.
  unfold with_pipe. destruct t as [? ? ? ? ? ? ? ? g]; destruct g; simpl. by rewrite insert_insert_eq.
Qed.
Lemma with_pipe_id t x : the_pipe t = Some x -> with_pipe t x = t.
Proof.
  unfold with_pipe, the_pipe. destruct t as [? ? ? ? ? ? ? ? g]; destruct g; simpl. intros E. by rewrite insert_id.
Qed.

Lemma pipewrite_loop_run fuel addr n : forall t x i c1, calm t c1 cur [LPipe pi] -> k_procs t !! cur = Some p ->
  the_pipe t = Some x -> pipe_ok x -> readopen x <> 0 -> p_killed p = 0 -> user_space kend root (k_phys t) ->
  0 <= addr -> addr + n <= 2 ^ 64 -> 0 <= i <= n -> (Z.to_nat (n - i) < fuel)%nat ->
  exists j x', i <= j <= n /\ pipe_ok x' /\ readopen x' = readopen x /\ writeopen x' = writeopen x /\
    uaccess root (k_phys t) (addr + i) (j - i) /\
    pqueue x' = pqueue x ++ ubytes root (k_phys t) (addr + i) (Z.to_nat (j - i)) /\
    (((j = n \/ uaddr root (k_phys t) (addr + j) = None) /\
      pipewrite_loop fuel pi cur addr n i t =
        (wakeup (Some (ChPipeR pi)) ;;; release (LPipe pi) ;;; mret (Done j)) (with_pipe t x')) \/
     (j < n /\ Z.of_nat (length (pqueue x')) = PIPESIZE /\
      pipewrite_loop fuel pi cur addr n i t =
        (wakeup (Some (ChPipeR pi)) ;;; k <- sleep_enter (Some (ChPipeW pi)) (LPipe pi) ;; mret (Parked (k, j)))
          (with_pipe t x'))).
Proof.
  induction fuel as [|fuel IH]; intros t x i c1 Hcalm Hp Hx Hok Hro Hk Hus Ha Han Hi Hf; [lia|].
  cbn [pipewrite_loop]. destruct (Z.ltb_spec i n) as [Hin|Hin].
  2: { exists i, x. rewrite Z.sub_diag. split_and!; try done; [lia|intros k; lia|by rewrite app_nil_r|].
       left. split; [left; lia|]. by rewrite with_pipe_id. }
  rewrite (bind_ok _ _ _ _ _ (pipe_get_run readopen t x Hx)).
  rewrite (bind_ok _ _ _ false t).
  2: { destruct (Z.eqb_spec (readopen x) 0); [done|].
       rewrite (bind_ok _ _ _ _ _ (killed_calm t c1 cur [LPipe pi] p Hcalm ltac:(set_solver) ltac:(simpl; lia) Hp)).
       by rewrite Hk. }
  cbn iota. rewrite (bind_ok _ _ _ _ _ (pipe_get_run pipe_full t x Hx)).
  destruct (pipe_full x) eqn:Hfull.
  { exists i, x. rewrite Z.sub_diag. split_and!; try done; [lia|intros k; lia|by rewrite app_nil_r|].
    right. split_and!; [done| |by rewrite with_pipe_id].
    rewrite pipe_full_spec in Hfull by done. by apply bool_decide_eq_true in Hfull. }
  rewrite (bind_ok _ _ _ _ _ (proc_get_run p_pagetable t cur p Hp)).
  assert (Hu : u64 (addr + i) = addr + i) by (apply u64_small; lia). rewrite Hu.
  destruct (copyin_byte kend root (k_phys t) (addr + i) Hus ltac:(lia)) as [(Hs & Hrun)|(Hs & bs & Hrun)].
  - rewrite (bind_ok _ _ _ _ _ (on_phys_run _ t _ _ Hrun)).
    replace (t <| k_phys := k_phys t |>) with t by (by destruct t). cbn [Z.eqb Pos.eqb]. cbn iota beta.
    set (b := ubyte root (k_phys t) (addr + i)) in *.
    rewrite (bind_ok _ _ _ b t) by done.
    rewrite (bind_ok _ _ _ _ _ (pipe_set_run (fun y => put_byte y b) t x Hx)).
    destruct (put_byte_ok x b Hok Hfull) as [Hok1 Hq1].
    destruct (IH (with_pipe t (put_byte x b)) (put_byte x b) (i + 1) c1) as
      (j & x' & Hj & Hok' & Hro' & Hwo' & Hacc & Hq & Hres); try done; [by apply (calm_data t)| |lia|lia|].
    { apply with_pipe_get. }
    exists j, x'. split_and!; [lia|lia|done|done|done| | |].
    + intros k Hk'. destruct (decide (k = 0)) as [->|]; [by rewrite Z.add_0_r|].
      replace (addr + i + k) with (addr + (i + 1) + (k - 1)) by lia. apply Hacc. lia.
    + rewrite Hq, Hq1, <- app_assoc. f_equal. simpl.
      replace (Z.to_nat (j - i)) with (S (Z.to_nat (j - (i + 1)))) by lia. simpl. do 2 f_equal. lia.
    + rewrite with_pipe_twice in Hres. exact Hres.
  - rewrite (bind_ok _ _ _ _ _ (on_phys_run _ t _ _ Hrun)).
    replace (t <| k_phys := k_phys t |>) with t by (by destruct t). cbn [Z.eqb Pos.eqb]. cbn iota beta.
    exists i, x. rewrite Z.sub_diag. split_and!; try done; [lia|intros k; lia|by rewrite app_nil_r|].
    left. split; [by right|]. by rewrite with_pipe_id.
Qed.

Context (Hcalm : calm s c cur []) (Hl : lk_free (k_mach s) (LPipe pi)).

(** The critical section of the pipe's lock. *)
Lemma pipe_enter : acquire (LPipe pi) s = Ok tt (s <| k_mach := acq (k_mach s) c (LPipe pi) |>) /\
  calm (s <| k_mach := acq (k_mach s) c (LPipe pi) |>) (c_push (k_mach s) c) cur [LPipe pi].
Proof. apply calm_acquire; [done|done|simpl; lia]. Qed.

Lemma pipe_leave ch {A} (v : A) t : k_mach t = acq (k_mach s) c (LPipe pi) -> length (k_procs t) = length (k_procs s) ->
  (wakeup ch ;;; release (LPipe pi) ;;; mret v) t =
    Ok v (t <| k_mach := k_mach s |> <| k_procs := wakes cur ch (k_procs t) |>).
Proof.
  intros Hm Hlen. destruct pipe_enter as [_ Hc1].
  assert (Hct : calm t (c_push (k_mach s) c) cur [LPipe pi]) by (by apply (calm_data _ _ _ _ _ Hc1)).
  rewrite (bind_ok _ _ _ _ _ (wakeup_calm t _ cur [LPipe pi] ch Hct ltac:(set_solver))).
  set (t' := t <| k_procs := _ |>). assert (Hm' : k_mach t' = acq (k_mach s) c (LPipe pi)) by done.
  rewrite (bind_ok _ _ _ _ _ (calm_release s t' c cur [] (LPipe pi) Hcalm Hl Hm')).
  unfold mret. by destruct t.
Qed.
End pipewrite.

(** C32. A pipe is a bounded FIFO queue to its writer.  pipewrite appends the user's bytes to
    the queue in order.  It returns the number of bytes when all are queued or the next one
    is not mapped for the user, with the readers woken and the lock free; or it stops with
    the queue holding PIPESIZE bytes, the readers woken, the lock free and the process
    asleep, waiting for room, and has kept count of the bytes queued.  It changes no user
    memory. *)
Theorem pipewrite_appends kend s c cur p pi x addr n : calm s c cur [] -> lk_free (k_mach s) (LPipe pi) ->
  k_procs s !! cur = Some p -> the_pipe pi s = Some x -> pipe_ok x -> readopen x <> 0 -> p_killed p = 0 ->
  user_space kend (p_pagetable p) (k_phys s) -> 0 <= addr -> 0 <= n -> addr + n <= 2 ^ 64 ->
  exists r s' j x', pipewrite_call pi addr n s = Ok r s' /\ the_pipe pi s' = Some x' /\ pipe_ok x' /\
    0 <= j <= n /\ pqueue x' = pqueue x ++ ubytes (p_pagetable p) (k_phys s) addr (Z.to_nat j) /\
    uaccess (p_pagetable p) (k_phys s) addr j /\ k_phys s' = k_phys s /\ lk_free (k_mach s') (LPipe pi) /\
    (forall q, q <> cur -> k_procs s' !! q = wakes cur (Some (ChPipeR pi)) (k_procs s) !! q) /\
    match r with
    | Done v => v = j /\ (j = n \/ uaddr (p_pagetable p) (k_phys s) (addr + j) = None) /\
        k_mach s' = k_mach s /\ k_procs s' !! cur = Some p
    | Parked (_, i) => i = j /\ j < n /\ Z.of_nat (length (pqueue x')) = PIPESIZE /\
        exists p', k_procs s' !! cur = Some p' /\ p_state p' = SLEEPING /\ p_chan p' = Some (ChPipeW pi)
    end.
Proof.
  intros Hcalm Hl Hp Hx Hok Hro Hk Hus Ha Hn Han. destruct (pipe_enter s c cur pi Hcalm Hl) as [Hacq Hc1].
  set (s1 := s <| k_mach := _ |>) in *.
  destruct (pipewrite_loop_run kend cur p pi (pipewrite_fuel n 0) addr n s1 x 0 _ Hc1 Hp Hx Hok Hro Hk Hus Ha Han)
    as (j & x' & Hj & Hok' & Hro' & Hwo' & Hacc & Hq & Hres); [lia|unfold pipewrite_fuel; lia|].
  rewrite Z.add_0_r, Z.sub_0_r in *. unfold pipewrite_call.
  rewrite (bind_ok _ _ _ _ _ (self_calm s c cur [] Hcalm)), (bind_ok _ _ _ _ _ Hacq).
  set (t := with_pipe pi s1 x') in *.
  destruct Hres as [(Hend & ->)|(Hlt & Hfull & ->)].
  - rewrite (pipe_leave s c cur pi Hcalm Hl (Some (ChPipeR pi)) (Done j) t eq_refl eq_refl).
    eexists (Done j), _, j, x'. split_and!; try done; try lia; [exact (with_pipe_get pi s1 x')|].
    simpl. by rewrite wakes_cur.
  - assert (Hct : calm t (c_push (k_mach s) c) cur [LPipe pi]) by (by apply (calm_data _ _ _ _ _ Hc1)).
    rewrite (bind_ok _ _ _ _ _ (wakeup_calm t _ cur [LPipe pi] (Some (ChPipeR pi)) Hct ltac:(set_solver))).
    set (t' := t <| k_procs := _ |>).
    assert (Hp' : k_procs t' !! cur = Some p) by (simpl; by rewrite wakes_cur).
    rewrite (bind_ok _ _ _ _ _ (sleep_enter_run s t' c cur p (LPipe pi) (Some (ChPipeW pi)) Hcalm Hl ltac:(discriminate) eq_refl Hp'
      ltac:(simpl; rewrite length_wakes; apply Hcalm))).
    eexists (Parked _), _, j, x'. split_and!; try done; try lia; [exact (with_pipe_get pi s1 x')| | |].
    + simpl. destruct Hl as [nm E]. exists nm. simpl. by rewrite lookup_alter_ne.
    + intros q Hne. simpl. by rewrite list_lookup_insert_ne.
    + cbn iota beta. split_and!; [done|done|done|]. eexists.
      split; [apply list_lookup_insert_eq; by apply lookup_lt_Some in Hp'|done].
Qed.

(** Writing to a pipe nobody can read any more, or after the process was killed, fails: pipewrite
    returns -1 at once, queues nothing, releases the lock and leaves the kernel as it was. *)
Theorem pipewrite_broken s c cur p pi x addr n : calm s c cur [] -> lk_free (k_mach s) (LPipe pi) ->
  k_procs s !! cur = Some p -> the_pipe pi s = Some x -> 0 < n -> readopen x = 0 \/ p_killed p <> 0 ->
  pipewrite_call pi addr n s = Ok (Done (-1)) s.
Proof.
  intros Hcalm Hl Hp Hx Hn Hbroken. destruct (pipe_enter s c cur pi Hcalm Hl) as [Hacq Hc1].
  set (s1 := s <| k_mach := _ |>) in *. unfold pipewrite_call.
  rewrite (bind_ok _ _ _ _ _ (self_calm s c cur [] Hcalm)), (bind_ok _ _ _ _ _ Hacq).
  unfold pipewrite_fuel. cbn [pipewrite_loop]. destruct (Z.ltb_spec 0 n) as [_|]; [|lia].
  rewrite (bind_ok _ _ _ _ _ (pipe_get_run pi readopen s1 x Hx)).
  rewrite (bind_ok _ _ _ true s1).
  2: { destruct (Z.eqb_spec (readopen x) 0) as [|Hro]; [done|]. destruct Hbroken as [|Hk]; [done|].
       rewrite (bind_ok _ _ _ _ _ (killed_calm s1 _ cur [LPipe pi] p Hc1 ltac:(set_solver) ltac:(simpl; lia) Hp)).
       unfold mret, z2b. apply Z.eqb_neq in Hk. by rewrite Hk. }
  cbn iota. rewrite (bind_ok _ _ _ _ _ (calm_release s s1 c cur [] (LPipe pi) Hcalm Hl eq_refl)).
  unfold mret. f_equal. unfold s1. by destruct s.
Qed.

(** ** piperead *)

(** The user's bytes from [va] on, and that nothing else the user can see has changed. *)
Definition delivered (root : Z) (ph ph' : phys) (va : Z) (bs : list Z) : Prop :=
  ubytes root ph' va (length bs) = bs /\ (forall v, uaddr root ph' v = uaddr root ph v) /\
  (forall v, 0 <= v -> ~ (va <= v < va + Z.of_nat (length bs)) -> is_Some (uaddr root ph v) ->
     ubyte root ph' v = ubyte root ph v) /\
  (forall a, (forall v, uaddr root ph v <> Some a) -> rd (ram ph') a = rd (ram ph) a).

Lemma delivered_nil root ph va : delivered root ph ph va [].
Proof. by split_and!. Qed.
Lemma delivered_cons root ph ph1 ph2 va b bs : 0 <= va -> is_Some (uaddr root ph va) ->
  delivered root ph ph1 va [b] -> delivered root ph1 ph2 (va + 1) bs -> delivered root ph ph2 va (b :: bs).
Proof.
  intros Hva Hs (H1 & Hu1 & Hk1 & Ho1) (H2 & Hu2 & Hk2 & Ho2). injection H1 as H1. split_and!.
  - simpl. f_equal; [|done]. rewrite Hk2, H1; [done|lia|lia|by rewrite Hu1].
  - intros v. by rewrite Hu2, Hu1.
  - intros v Hv Hn Hsv. cbn [length] in Hn. rewrite Hk2; [|lia|lia|by rewrite Hu1]. apply Hk1; [lia|simpl; lia|done].
  - intros a Hn. rewrite Ho2; [by apply Ho1|]. intros v. by rewrite Hu1.
Qed.

Section piperead.
Context (kend : Z) (cur : nat) (p : proc) (pi : Z).
Notation root := (p_pagetable p).
Implicit Types (t : kern) (x : pipe).

Lemma piperead_copy_run fuel addr n : forall t x i, k_procs t !! cur = Some p -> the_pipe pi t = Some x -> pipe_ok x ->
  user_space kend root (k_phys t) -> uaccess root (k_phys t) (addr + i) (Z.of_nat fuel) ->
  0 <= addr + i -> addr + i + Z.of_nat fuel <= 2 ^ 64 ->
  exists ph x', piperead_copy fuel pi cur addr n i t =
      Ok (i + Z.of_nat (fuel `min` length (pqueue x))) (with_pipe pi (t <| k_phys := ph |>) x') /\
    pipe_ok x' /\ readopen x' = readopen x /\ writeopen x' = writeopen x /\
    pqueue x' = drop fuel (pqueue x) /\ user_space kend root ph /\
    delivered root (k_phys t) ph (addr + i) (take fuel (pqueue x)).
Proof.
  induction fuel as [|fuel IH]; intros t x i Hp Hx Hok Hus Hacc Ha Han; cbn [piperead_copy].
  { exists (k_phys t), x. split_and!; try done. unfold mret. rewrite Z.add_0_r. f_equal.
    rewrite (with_pipe_id pi); [by destruct t|done]. }
  rewrite (bind_ok _ _ _ _ _ (pipe_get_run pi pipe_empty t x Hx)).
  destruct (pipe_empty x) eqn:Hemp.
  { rewrite pipe_empty_spec in Hemp by done. apply bool_decide_eq_true in Hemp.
    exists (k_phys t), x. rewrite Hemp. split_and!; try done. unfold mret. simpl. rewrite Z.add_0_r. f_equal.
    rewrite (with_pipe_id pi); [by destruct t|done]. }
  rewrite (bind_ok _ _ _ _ _ (pipe_get_run pi get_byte t x Hx)).
  rewrite (bind_ok _ _ _ _ _ (pipe_set_run pi drop_byte t x Hx)).
  destruct (get_byte_ok x Hok Hemp) as [Hok1 Hq1]. set (b := get_byte x) in *.
  set (t1 := with_pipe pi t (drop_byte x)). assert (Hp1 : k_procs t1 !! cur = Some p) by done.
  rewrite (bind_ok _ _ _ _ _ (proc_get_run p_pagetable t1 cur p Hp1)).
  assert (Hu : u64 (addr + i) = addr + i) by (apply u64_small; lia). rewrite Hu.
  assert (Hs : is_Some (uaddr root (k_phys t) (addr + i))).
  { specialize (Hacc 0 ltac:(lia)). by rewrite Z.add_0_r in Hacc. }
  destruct (copyout_byte kend root (k_phys t1) (addr + i) b Hus ltac:(lia) Hs) as
    (ph1 & Hrun & Hus1 & Hu1 & Hb & Hk1 & Ho1).
  rewrite (bind_ok _ _ _ _ _ (on_phys_run _ t1 _ _ Hrun)). cbn [Z.eqb]. cbn iota.
  set (t2 := t1 <| k_phys := ph1 |>).
  destruct (IH t2 (drop_byte x) (i + 1)) as (ph & x' & Hrun' & Hok' & Hro & Hwo & Hq & Hus' & Hd); try done.
  { apply with_pipe_get. }
  { intros k Hk. simpl. rewrite Hu1. replace (addr + (i + 1) + k) with (addr + i + (k + 1)) by lia. apply Hacc. lia. }
  { lia. }
  { lia. }
  exists ph, x'. split_and!; try done.
  - rewrite Hrun', Hq1. simpl. f_equal; [lia|]. unfold t2, t1, with_pipe.
    destruct t as [? ? ? ? ? ? ? ? g]; destruct g; simpl. by rewrite insert_insert_eq.
  - by rewrite Hq, Hq1.
  - rewrite Hq1. cbn [take]. apply (delivered_cons root (k_phys t) ph1); [lia|done| |].
    + split_and!; [simpl; by rewrite Hb|done| |done]. intros v Hv Hn. apply Hk1; [done|simpl in Hn; lia].
    + by replace (addr + i + 1) with (addr + (i + 1)) by lia.
Qed.
End piperead.

(** C33. A pipe is a FIFO queue to its reader.  Into a range that is mapped for the user, piperead delivers
    the oldest bytes, as many as were asked for and are queued, removes exactly these from
    the queue, changes no other byte the user sees, and wakes the writers.  It returns 0 only if
    nothing was asked for or the queue is empty and every writer is gone; on an empty queue
    with a writer it goes to sleep with the lock free. *)
Theorem piperead_takes kend s c cur p pi x addr n : calm s c cur [] -> lk_free (k_mach s) (LPipe pi) ->
  k_procs s !! cur = Some p -> the_pipe pi s = Some x -> pipe_ok x -> p_killed p = 0 ->
  user_space kend (p_pagetable p) (k_phys s) -> uaccess (p_pagetable p) (k_phys s) addr n ->
  0 <= addr -> 0 <= n -> addr + n <= 2 ^ 64 ->
  exists r s' x', piperead_call pi addr n s = Ok r s' /\ the_pipe pi s' = Some x' /\ pipe_ok x' /\
    readopen x' = readopen x /\ writeopen x' = writeopen x /\ lk_free (k_mach s') (LPipe pi) /\
    match r with
    | Done v => (pqueue x = [] -> writeopen x = 0) /\ v = Z.of_nat (Z.to_nat n `min` length (pqueue x)) /\
        pqueue x' = drop (Z.to_nat n) (pqueue x) /\
        delivered (p_pagetable p) (k_phys s) (k_phys s') addr (take (Z.to_nat n) (pqueue x)) /\
        k_mach s' = k_mach s /\ k_procs s' = wakes cur (Some (ChPipeW pi)) (k_procs s)
    | Parked _ => pqueue x = [] /\ writeopen x <> 0 /\ x' = x /\ k_phys s' = k_phys s /\
        exists p', k_procs s' = <[cur := p']> (k_procs s) /\ p_state p' = SLEEPING /\ p_chan p' = Some (ChPipeR pi)
    end.
Proof.
  intros Hcalm Hl Hp Hx Hok Hk Hus Hacc Ha Hn Han. destruct (pipe_enter s c cur pi Hcalm Hl) as [Hacq Hc1].
  set (s1 := s <| k_mach := _ |>) in *. unfold piperead_call.
  rewrite (bind_ok _ _ _ _ _ (self_calm s c cur [] Hcalm)), (bind_ok _ _ _ _ _ Hacq). unfold piperead_turn.
  rewrite (bind_ok _ _ _ _ _ (pipe_get_run pi pipe_empty s1 x Hx)).
  rewrite (bind_ok _ _ _ _ _ (pipe_get_run pi writeopen s1 x Hx)).
  rewrite pipe_empty_spec by done. destruct (bool_decide (pqueue x = []) && z2b (writeopen x)) eqn:Hwait.
  - apply andb_true_iff in Hwait as [He Hw]. apply bool_decide_eq_true in He. unfold z2b in Hw.
    apply negb_true_iff, Z.eqb_neq in Hw.
    rewrite (bind_ok _ _ _ _ _ (killed_calm s1 _ cur [LPipe pi] p Hc1 ltac:(set_solver) ltac:(simpl; lia) Hp)), Hk.
    cbn [z2b Z.eqb negb]. cbn iota.
    rewrite (bind_ok _ _ _ _ _ (sleep_enter_run s s1 c cur p (LPipe pi) (Some (ChPipeR pi)) Hcalm Hl ltac:(discriminate) eq_refl Hp
      (ca_len _ _ _ _ Hcalm))).
    eexists (Parked _), _, x. split_and!; try done.
    + destruct Hl as [nm E]. exists nm. simpl. by rewrite lookup_alter_ne.
    + by eexists.
  - assert (Hacc1 : uaccess (p_pagetable p) (k_phys s1) (addr + 0) (Z.of_nat (Z.to_nat n)))
      by (rewrite Z.add_0_r, Z2Nat.id by done; exact Hacc).
    destruct (piperead_copy_run kend cur p pi (Z.to_nat n) addr n s1 x 0 Hp Hx Hok Hus Hacc1) as
      (ph & x' & Hrun & Hok' & Hro & Hwo & Hq & Hus' & Hd); [lia|lia|].
    rewrite (bind_ok _ _ _ _ _ Hrun). rewrite Z.add_0_l, Z.add_0_r in *. set (t := with_pipe pi _ x').
    rewrite (pipe_leave s c cur pi Hcalm Hl (Some (ChPipeW pi)) _ t eq_refl eq_refl).
    eexists (Done _), _, x'. split_and!; try done; [exact (with_pipe_get pi _ x')|].
    intros He. rewrite He in Hwait. simpl in Hwait. unfold z2b in Hwait. by apply negb_false_iff, Z.eqb_eq in Hwait.
Qed.

(** ** Example: a process with user memory and a pipe whose counters are about to wrap *)

Definition ex_pipe : pipe := Pipe (<[510%nat := 7]> (<[511%nat := 8]> (replicate 512 0))) (2 ^ 32 - 2) 0 1 1.
Definition ex_pi : Z := 0x80200000.
Definition pipe_mach : mach := fs_mach <| m_locks ::= insert (LPipe ex_pi) (Spinlock 0 "pipe" None) |>.
Definition pipe_proc : proc := ex_proc 1 RUNNING <| p_pagetable := ex_root |>.
Definition pipe_kern : kern :=
  KState pipe_mach ex_s1 (pipe_proc :: replicate (NPROC - 1) proc0) (Some 0%nat) 2 10 37
    (replicate 5 mlfq0) (fs_files ∅ <| fs_pipes := {[ex_pi := ex_pipe]} |>).

Lemma pipe_calm : calm pipe_kern (ex_cpu (Some 0%nat)) 0 [].
Proof.
  split; try done.
  - simpl. lia.
  - simpl. unfold NPROC. lia.
  - intros l Hl _. destruct (fs_lock_free l Hl) as [nm E]. exists nm.
    change (m_locks (k_mach pipe_kern)) with (<[LPipe ex_pi := Spinlock 0 "pipe" None]> (m_locks fs_mach)).
    rewrite lookup_insert_ne; [exact E|]. intros <-. discriminate Hl.
Qed.
Lemma pipe_lock_free : lk_free (k_mach pipe_kern) (LPipe ex_pi).
Proof. exists "pipe"%string. apply lookup_insert_eq. Qed.
Lemma ex_pipe_ok : pipe_ok ex_pipe.
Proof. split; vm_compute; intuition congruence. Qed.
Lemma ex_pipe_there : the_pipe ex_pi pipe_kern = Some ex_pipe.
Proof. apply lookup_insert_eq. Qed.
Lemma ex_uaccess va n : 0 <= va -> va + n <= 8192 -> uaccess ex_root ex_s1 va n.
Proof. intros Hva Hn i Hi. destruct ex_user as (_ & _ & _ & _ & _ & _ & _ & H & _). apply H. lia. Qed.

Lemma pipewrite_appends_witness : exists r s' j x',
  pipewrite_call ex_pi 4090 20 pipe_kern = Ok r s' /\ the_pipe ex_pi s' = Some x' /\ pipe_ok x' /\
  pqueue x' = [7; 8] ++ ubytes ex_root ex_s1 4090 (Z.to_nat j).
Proof.
  destruct (pipewrite_appends ex_kend pipe_kern (ex_cpu (Some 0%nat)) 0 pipe_proc ex_pi ex_pipe 4090 20 pipe_calm pipe_lock_free
    eq_refl ex_pipe_there ex_pipe_ok ltac:(discriminate) eq_refl ex_user_space ltac:(lia) ltac:(lia) ltac:(lia))
    as (r & s' & j & x' & H1 & H2 & H3 & _ & H4 & _).
  exists r, s', j, x'. split_and!; [exact H1|exact H2|exact H3|exact H4].
Defined.
Lemma piperead_takes_witness : exists r s' x', piperead_call ex_pi 4095 20 pipe_kern = Ok r s' /\
  the_pipe ex_pi s' = Some x' /\ lk_free (k_mach s') (LPipe ex_pi).
Proof.
  destruct (piperead_takes ex_kend pipe_kern (ex_cpu (Some 0%nat)) 0 pipe_proc ex_pi ex_pipe 4095 20 pipe_calm pipe_lock_free
    eq_refl ex_pipe_there ex_pipe_ok eq_refl ex_user_space (ex_uaccess 4095 20 ltac:(lia) ltac:(lia))
    ltac:(lia) ltac:(lia) ltac:(lia)) as (r & s' & x' & H1 & H2 & _ & _ & _ & H3 & _).
  exists r, s', x'. split_and!; [exact H1|exact H2|exact H3].
Defined.
Lemma pipewrite_broken_witness :
  let s := with_pipe ex_pi pipe_kern (ex_pipe <| readopen := 0 |>) in
  pipewrite_call ex_pi 4090 20 s = Ok (Done (-1)) s.
Proof.
  intros s. apply (pipewrite_broken s (ex_cpu (Some 0%nat)) 0 pipe_proc ex_pi (ex_pipe <| readopen := 0 |>)).
  - exact (calm_data pipe_kern s _ _ _ pipe_calm eq_refl eq_refl).
  - exact pipe_lock_free.
  - reflexivity.
  - apply with_pipe_get.
  - lia.
  - left. reflexivity.
Defined.
