(* ===== verification/ConsoleSpec.v ===== *)
(** * The console's line editor

    The console buffer stands for two strings: the committed input, which consoleread may
    take, and the line being edited. *)

From S2P Require Import Prelude Riscv CString Kalloc Vm VmSpec Uvm UvmProps Spinlock Proc Sched ProcSpec SchedSpec.
From S2P Require Import Headers Sleeplock Ring Uart Printf Console Pipe Example SleepSpec PipeSpec.

(** ** The abstraction *)

Notation M32 := (2 ^ 32).
Definition committed (x : cons_state) : list Z := Ring.ring INPUT_BUF_SIZE M32 (cons_buf x) (cons_r x) (cons_w x).
Definition line (x : cons_state) : list Z := Ring.ring INPUT_BUF_SIZE M32 (cons_buf x) (cons_w x) (cons_e x).

#[export] Instance cons_dims : Dims INPUT_BUF_SIZE M32.
Proof. split; [done|done|by exists (2 ^ 25)|done]. Qed.

Record cons_ok (x : cons_state) : Prop := {
  co_len : Z.of_nat (length (cons_buf x)) = INPUT_BUF_SIZE;
  co_r : 0 <= cons_r x < M32;
  co_w : 0 <= cons_w x < M32;
  co_e : 0 <= cons_e x < M32;
  co_used : used M32 (cons_r x) (cons_w x) + used M32 (cons_w x) (cons_e x) = used M32 (cons_r x) (cons_e x);
  co_room : used M32 (cons_r x) (cons_e x) <= INPUT_BUF_SIZE;
  co_line : NL ∉ line x
}.

(** What a character other than ^P does to the two strings. *)
Definition edit_line (c : Z) (cm ln : list Z) : list Z * list Z :=
  if c =? ctrl 85 then (cm, [])
  else if (c =? ctrl 72) || (c =? DEL) then (cm, removelast ln)
  else if negb (c =? 0) && (Z.of_nat (length cm + length ln) <? INPUT_BUF_SIZE) then
    let c := if c =? CR then NL else c in
    let ln' := ln ++ [c] in
    if (c =? NL) || (c =? ctrl 68) || (Z.of_nat (length cm + length ln') =? INPUT_BUF_SIZE) then (cm ++ ln', [])
    else (cm, ln')
  else (cm, ln).

Section spec.
Implicit Types (x : cons_state).

Lemma whole_ring x : cons_ok x ->
  Ring.ring INPUT_BUF_SIZE M32 (cons_buf x) (cons_r x) (cons_e x) = committed x ++ line x.
Proof. intros H. unfold committed, line. apply ring_app; [apply _|apply H]. Qed.
Lemma length_committed x : Z.of_nat (length (committed x)) = used M32 (cons_r x) (cons_w x).
Proof. exact (length_ring INPUT_BUF_SIZE M32 _ _ _). Qed.
Lemma length_line x : Z.of_nat (length (line x)) = used M32 (cons_w x) (cons_e x).
Proof. exact (length_ring INPUT_BUF_SIZE M32 _ _ _). Qed.
Lemma room_left x : cons_ok x -> u32 (cons_e x - cons_r x) = Z.of_nat (length (committed x) + length (line x)).
Proof. intros H. rewrite Nat2Z.inj_add, length_committed, length_line. symmetry. apply H. Qed.

(** Taking back the last character of the line. *)
Definition erase x : cons_state := x <| cons_e := u32 (cons_e x - 1) |>.
Lemma line_empty x : cons_ok x -> cons_e x = cons_w x <-> line x = [].
Proof.
  intros H. pose proof (used_0 INPUT_BUF_SIZE M32 (cons_w x) (cons_e x) (co_w _ H) (co_e _ H)) as H0.
  pose proof (length_line x) as Hl. split.
  - intros E. destruct (line x); [done|]. destruct H0 as [_ H0]. rewrite H0 in Hl by done. simpl in Hl. lia.
  - intros E. rewrite E in Hl. symmetry. apply H0. by symmetry.
Qed.
Lemma erase_ok x : cons_ok x -> line x <> [] ->
  cons_ok (erase x) /\ committed (erase x) = committed x /\ line x = line (erase x) ++ [cons_at (u32 (cons_e x - 1)) x].
Proof.
  intros H Hne. pose proof H as [Hl Hr Hw He Hu Hroom Hnl].
  assert (Hpos : 0 < used M32 (cons_w x) (cons_e x)).
  { rewrite <- length_line. destruct (line x); [done|]. simpl. lia. }
  assert (Hline : line x = line (erase x) ++ [cons_at (u32 (cons_e x - 1)) x]).
  { unfold line at 1. rewrite (ring_unpush INPUT_BUF_SIZE M32) by done. f_equal. f_equal.
    unfold cons_at. unfold u32. rewrite (mod_mod_N INPUT_BUF_SIZE M32). done. }
  split_and!; [|done|done]. split; try done.
  - apply u32_range.
  - simpl. unfold u32. rewrite (used_unpush INPUT_BUF_SIZE M32 (cons_w x)) by done.
    rewrite (used_unpush INPUT_BUF_SIZE M32 (cons_r x)); [lia|]. pose proof (used_range INPUT_BUF_SIZE M32 (cons_r x) (cons_w x)). lia.
  - simpl. unfold u32. rewrite (used_unpush INPUT_BUF_SIZE M32 (cons_r x)); [lia|].
    pose proof (used_range INPUT_BUF_SIZE M32 (cons_r x) (cons_w x)). lia.
  - rewrite Hline in Hnl. set_solver.
Qed.

(** Adding one. *)
Definition append x (c : Z) : cons_state :=
  x <| cons_buf := <[Z.to_nat (cons_e x mod INPUT_BUF_SIZE) := u8 c]> (cons_buf x) |> <| cons_e := u32 (cons_e x + 1) |>.
Lemma append_ok x c : cons_ok x -> used M32 (cons_r x) (cons_e x) < INPUT_BUF_SIZE -> 0 <= c < 256 ->
  committed (append x c) = committed x /\ line (append x c) = line x ++ [c] /\
  used M32 (cons_r x) (cons_w x) + used M32 (cons_w x) (cons_e (append x c)) = used M32 (cons_r x) (cons_e (append x c)) /\
  used M32 (cons_r x) (cons_e (append x c)) = used M32 (cons_r x) (cons_e x) + 1.
Proof.
  intros H Hroom Hc. pose proof H as [Hl Hr Hw He Hu Hrm Hnl].
  pose proof (used_range INPUT_BUF_SIZE M32 (cons_r x) (cons_w x)). pose proof (used_range INPUT_BUF_SIZE M32 (cons_w x) (cons_e x)).
  assert (Hpush : used M32 (cons_w x) (cons_e (append x c)) = used M32 (cons_w x) (cons_e x) + 1).
  { simpl. unfold u32. apply (used_push INPUT_BUF_SIZE M32); lia. }
  assert (Hpush' : used M32 (cons_r x) (cons_e (append x c)) = used M32 (cons_r x) (cons_e x) + 1).
  { simpl. unfold u32. apply (used_push INPUT_BUF_SIZE M32); lia. }
  assert (Hline : line (append x c) = line x ++ [c]).
  { unfold line. simpl. rewrite u8_small by lia. apply (ring_push INPUT_BUF_SIZE M32); [done|lia]. }
  split_and!; [|done|lia|done].
  assert (Hall : committed (append x c) ++ line (append x c) = committed x ++ line (append x c)).
  { rewrite Hline at 2. rewrite app_assoc, <- (whole_ring x H).
    transitivity (Ring.ring INPUT_BUF_SIZE M32 (cons_buf (append x c)) (cons_r x) (cons_e (append x c))).
    - symmetry. apply (ring_app INPUT_BUF_SIZE M32 (cons_buf (append x c)) (cons_r x) (cons_w x)). lia.
    - simpl. rewrite u8_small by lia. apply (ring_push INPUT_BUF_SIZE M32); [done|lia]. }
  by apply app_inv_tail in Hall.
Qed.
End spec.

(** ** consoleintr *)

Section intr.
Context {B : Board} (Hidle : forall u, next_idle u = true).
Context (cur : nat).
Implicit Types (s t : kern) (c : cpu) (x : cons_state).

Definition with_cons s x : kern := s <| k_files ::= fun f => f <| fs_cons := x |> |>.
(** The bytes of [out] have been sent to the transmitter. *)
Definition sent (out : list Z) s : kern :=
  s <| k_files ::= fun f => f <| fs_uart ::= fun u => u <| u_out := rev out ++ u_out u |> <| u_idle := true |> |> |>.
Definition cons_of s : cons_state := fs_cons (k_files s).

Lemma sent_nil s : u_idle (fs_uart (k_files s)) = true -> sent [] s = s.
Proof. unfold sent. destruct s as [? ? ? ? ? ? ? ? g]; destruct g as [? ? ? ? ? ? ? ? ? u]; destruct u. simpl. by intros ->. Qed.
Lemma sent_app a b s : sent b (sent a s) = sent (a ++ b) s.
Proof.
  unfold sent. destruct s as [? ? ? ? ? ? ? ? g]; destruct g as [? ? ? ? ? ? ? ? ? u]; destruct u. simpl.
  by rewrite rev_app_distr, app_assoc.
Qed.
Lemma sent_cons a x s : with_cons (sent a s) x = sent a (with_cons s x).
Proof. by destruct s as [? ? ? ? ? ? ? ? g]; destruct g. Qed.
Lemma with_cons_id s : with_cons s (cons_of s) = s.
Proof. by destruct s as [? ? ? ? ? ? ? ? g]; destruct g. Qed.
Lemma with_cons_twice s x y : with_cons (with_cons s x) y = with_cons s y.
Proof. by destruct s as [? ? ? ? ? ? ? ? g]; destruct g. Qed.

Lemma putc_run s c held ch : calm s c cur held -> (length held < 90)%nat -> u_idle (fs_uart (k_files s)) = true ->
  0 <= ch < 256 -> uartputc_sync ch s = Ok tt (sent [ch] s).
Proof.
  intros Hcalm Hd Hid Hch. pose proof Hcalm as [H Hs Hn Hf Hc Hlen Hlt Hfr]. unfold uartputc_sync.
  assert (Hmax : c_noff c + 1 < 2 ^ 31) by lia.
  rewrite (bind_ok _ _ _ _ _ (on_mach_run _ s _ _ (push_off_run (k_mach s) c H Hmax))).
  rewrite (bind_ok _ _ _ true _) by (unfold uget, fget, gets; simpl; by rewrite Hid). cbn [negb]. cbn iota.
  set (s1 := s <| k_mach := pushed (k_mach s) c |>). set (s2 := s1 <| k_files ::= fun f => f <| fs_uart ::= write_thr ch |> |>).
  rewrite (bind_ok _ _ _ tt s2) by done.
  assert (Hm2 : k_mach s2 = pushed (k_mach s) c) by done.
  rewrite (on_mach_at _ s2 _ tt (k_mach s) Hm2); [|by rewrite pop_pushed, Hs].
  f_equal. unfold s2, s1, sent, write_thr. destruct s as [? ? ? ? ? ? ? ? g]; destruct g as [? ? ? ? ? ? ? ? ? u]; destruct u. simpl.
  by rewrite Hidle, u8_small.
Qed.

Lemma sent_calm s c held a : calm s c cur held -> calm (sent a s) c cur held.
Proof. intros H. by apply (calm_data s). Qed.
Lemma cons_calm s c held x : calm s c cur held -> calm (with_cons s x) c cur held.
Proof. intros H. by apply (calm_data s). Qed.

Definition RUBOUT : list Z := [8; 32; 8].
Lemma consputc_run s c held ch : calm s c cur held -> (length held < 90)%nat -> u_idle (fs_uart (k_files s)) = true ->
  0 <= ch < 256 \/ ch = BACKSPACE -> consputc ch s = Ok tt (sent (if ch =? BACKSPACE then RUBOUT else [ch]) s).
Proof.
  intros Hcalm Hd Hid Hch. unfold consputc. destruct (Z.eqb_spec ch BACKSPACE) as [->|Hne].
  - rewrite (bind_ok _ _ _ _ _ (putc_run s c held 8 Hcalm Hd Hid ltac:(lia))).
    rewrite (bind_ok _ _ _ _ _ (putc_run (sent [8] s) c held 32 (sent_calm _ _ _ _ Hcalm) Hd eq_refl ltac:(lia))).
    rewrite (putc_run _ c held 8 (sent_calm _ _ _ _ (sent_calm _ _ _ _ Hcalm)) Hd eq_refl ltac:(lia)).
    by rewrite !sent_app.
  - apply (putc_run s c held); [done..|]. destruct Hch; [done|done].
Qed.

(** ^U. *)
Lemma kill_line_run fuel : forall s c held, calm s c cur held -> (length held < 90)%nat ->
  u_idle (fs_uart (k_files s)) = true -> cons_ok (cons_of s) -> (length (line (cons_of s)) < fuel)%nat ->
  exists x, kill_line fuel s = Ok tt (sent (concat (replicate (length (line (cons_of s))) RUBOUT)) (with_cons s x)) /\
    cons_ok x /\ committed x = committed (cons_of s) /\ line x = [].
Proof.
  induction fuel as [|fuel IH]; intros s c held Hcalm Hd Hid Hok Hf; [lia|]. cbn [kill_line].
  set (x := cons_of s) in *. rewrite (bind_ok _ _ _ (cons_e x) s) by done. rewrite (bind_ok _ _ _ (cons_w x) s) by done.
  destruct (Z.eqb_spec (cons_e x) (cons_w x)) as [E|E]; cbn [negb]; cbn iota.
  { assert (El : line x = []) by (by apply line_empty). exists x. rewrite El. split_and!; [|done..]. simpl.
    rewrite sent_nil by done. unfold x. by rewrite with_cons_id. }
  assert (Hne : line x <> []) by (intros El; by apply E, line_empty).
  destruct (erase_ok x Hok Hne) as (Hok1 & Hcm & Hln). set (b := cons_at (u32 (cons_e x - 1)) x) in *.
  rewrite (bind_ok _ _ _ b s) by done.
  assert (Hb : b <> NL). { intros ->. apply (co_line _ Hok). rewrite Hln. set_solver. }
  apply Z.eqb_neq in Hb. rewrite Hb. cbn [negb]. cbn iota.
  set (s1 := with_cons s (erase x)).
  rewrite (bind_ok _ _ _ tt s1) by (unfold s1, cset, fset, modify, with_cons, erase, x, cons_of; by destruct s).
  rewrite (bind_ok _ _ _ _ _ (consputc_run s1 c held BACKSPACE (cons_calm _ _ _ _ Hcalm) Hd Hid (or_intror eq_refl))).
  change (BACKSPACE =? BACKSPACE) with true. cbn iota.
  assert (Hlen : length (line x) = S (length (line (erase x)))) by (rewrite Hln, length_app; simpl; lia).
  destruct (IH (sent RUBOUT s1) c held (sent_calm _ _ _ _ (cons_calm _ _ _ _ Hcalm)) Hd eq_refl Hok1) as (x' & Hrun & Hok' & Hcm' & Hln');
    [change (cons_of (sent RUBOUT s1)) with (erase x); lia|].
  exists x'. split_and!; [|done|by rewrite Hcm'|done].
  change (cons_of (sent RUBOUT s1)) with (erase x) in Hrun. rewrite Hrun, Hlen. f_equal.
  rewrite sent_cons. unfold s1. rewrite with_cons_twice. by rewrite sent_app.
Qed.

(** The end of the edited line becomes the end of the input. *)
Definition commit_line x : cons_state := x <| cons_w := cons_e x |>.
Lemma commit_line_ok x : Z.of_nat (length (cons_buf x)) = INPUT_BUF_SIZE -> 0 <= cons_r x < M32 -> 0 <= cons_e x < M32 ->
  used M32 (cons_r x) (cons_w x) + used M32 (cons_w x) (cons_e x) = used M32 (cons_r x) (cons_e x) ->
  used M32 (cons_r x) (cons_e x) <= INPUT_BUF_SIZE ->
  cons_ok (commit_line x) /\ committed (commit_line x) = committed x ++ line x /\ line (commit_line x) = [].
Proof.
  intros Hl Hr He Hu Hroom.
  assert (Hline : line (commit_line x) = []) by exact (ring_nil INPUT_BUF_SIZE M32 _ _).
  split_and!; [|exact (ring_app INPUT_BUF_SIZE M32 _ _ _ _ Hu)|done].
  split; try done; [|by rewrite Hline; set_solver].
  assert (E : used M32 (cons_e x) (cons_e x) = 0) by (unfold used; by rewrite Z.sub_diag). simpl cons_w. simpl cons_e. simpl cons_r. lia.
Qed.

(** The echo of a character. *)
Definition echo (c : Z) (cm ln : list Z) : list Z :=
  if c =? ctrl 85 then concat (replicate (length ln) RUBOUT)
  else if (c =? ctrl 72) || (c =? DEL) then (if decide (ln = []) then [] else RUBOUT)
  else if negb (c =? 0) && (Z.of_nat (length cm + length ln) <? INPUT_BUF_SIZE) then [if c =? CR then NL else c]
  else [].

Lemma intr_append_run s c held ch : calm s c cur held -> (forall p, LProc p ∉ held \/ p = cur) -> (length held < 90)%nat ->
  u_idle (fs_uart (k_files s)) = true -> cons_ok (cons_of s) -> 0 < ch < 256 -> ch <> CR ->
  let x := cons_of s in Z.of_nat (length (committed x) + length (line x)) < INPUT_BUF_SIZE ->
  let commits := (ch =? NL) || (ch =? ctrl 68) || (Z.of_nat (length (committed x) + length (line x ++ [ch])) =? INPUT_BUF_SIZE) in
  exists x', (consputc ch ;;;
       cset (fun x => x <| cons_buf := <[Z.to_nat (cons_e (cons_of s) mod INPUT_BUF_SIZE) := u8 ch]> (cons_buf x) |>
                        <| cons_e := u32 (cons_e (cons_of s) + 1) |>) ;;;
       mwhen ((ch =? NL) || (ch =? ctrl 68) || (u32 (u32 (cons_e (cons_of s) + 1) - cons_r (cons_of s)) =? INPUT_BUF_SIZE))
         (cset (fun x => x <| cons_w := cons_e x |>) ;;;
          wakeup (Some ChCons))) s =
      Ok tt (sent [ch] (with_cons s x') <| k_procs ::= if commits then wakes cur (Some ChCons) else id |>) /\
    cons_ok x' /\ (committed x', line x') =
      if commits then (committed x ++ line x ++ [ch], []) else (committed x, line x ++ [ch]).
Proof.
  intros Hcalm Hp Hd Hid Hok Hch Hcr x Hroom commits. pose proof Hok as [Hl Hr Hw He Hu Hrm Hnl]. fold x in Hl, Hr, Hw, He, Hu, Hrm, Hnl, Hok.
  assert (Hused : used M32 (cons_r x) (cons_e x) = Z.of_nat (length (committed x) + length (line x))).
  { rewrite Nat2Z.inj_add, length_committed, length_line. lia. }
  rewrite (bind_ok _ _ _ _ _ (consputc_run s c held ch Hcalm Hd Hid ltac:(lia))).
  destruct (Z.eqb_spec ch BACKSPACE) as [E|_]; [unfold BACKSPACE in E; lia|].
  set (s1 := sent [ch] (with_cons s (append x ch))).
  rewrite (bind_ok _ _ _ tt s1).
  2: { unfold s1. rewrite <- sent_cons. unfold cset, fset, modify, with_cons, append, x, cons_of. by destruct s. }
  destruct (append_ok x ch Hok ltac:(lia) ltac:(lia)) as (Hcm & Hln & Hu' & Hpush).
  assert (Hfull : u32 (u32 (cons_e x + 1) - cons_r x) = Z.of_nat (length (committed x) + length (line x ++ [ch]))).
  { change (u32 (u32 (cons_e x + 1) - cons_r x)) with (used M32 (cons_r x) (cons_e (append x ch))).
    rewrite Hpush, Hused, length_app. simpl. lia. }
  fold x. rewrite Hfull. fold commits. assert (Hcw : cons_w (append x ch) = cons_w x) by done. destruct commits eqn:Ec; cbn [mwhen].
  - set (s2 := sent [ch] (with_cons s (commit_line (append x ch)))).
    rewrite (bind_ok _ _ _ tt s2) by (unfold s2, s1, commit_line, cset, fset, modify, with_cons, sent; by destruct s as [? ? ? ? ? ? ? ? g]; destruct g).
    assert (Hc2 : calm s2 c cur held) by (by apply sent_calm, cons_calm).
    rewrite (wakeup_calm s2 c cur held (Some ChCons) Hc2 Hp).
    destruct (commit_line_ok (append x ch)) as (Hok2 & Hcm2 & Hln2); [simpl; by rewrite length_insert|done|apply u32_range|exact Hu'|change (cons_r (append x ch)) with (cons_r x); lia|].
    exists (commit_line (append x ch)). split_and!; [by destruct s|done|]. rewrite Hcm2, Hln2, Hcm, Hln. done.
  - exists (append x ch). split_and!; [unfold mret, s1; by destruct s| |by rewrite Hcm, Hln].
    split; try done; [simpl; by rewrite length_insert|apply u32_range|change (cons_r (append x ch)) with (cons_r x); lia|].
    rewrite Hln. intros [Hin|Hin]%elem_of_app; [done|]. apply list_elem_of_singleton in Hin. unfold commits in Ec. by rewrite <- Hin in Ec.
Qed.

Lemma intr_case_run s c held ch : calm s c cur held -> (forall p, LProc p ∉ held \/ p = cur) -> (length held < 90)%nat ->
  u_idle (fs_uart (k_files s)) = true -> cons_ok (cons_of s) -> 0 <= ch < 256 ->
  let x := cons_of s in
  exists x' (ps : list proc -> list proc),
    intr_case ch s = Ok tt (sent (echo ch (committed x) (line x)) (with_cons s x') <| k_procs ::= ps |>) /\
    cons_ok x' /\ (committed x', line x') = edit_line ch (committed x) (line x) /\
    ps = if decide (committed x' = committed x) then id else wakes cur (Some ChCons).
Proof.
  intros Hcalm Hp Hd Hid Hok Hch x. unfold intr_case, echo, edit_line.
  destruct (ch =? ctrl 85).
  { rewrite (bind_ok _ _ _ (used M32 (cons_w x) (cons_e x)) s) by done. rewrite <- length_line, Nat2Z.id.
    destruct (kill_line_run (S (length (line x))) s c held Hcalm Hd Hid Hok) as (x' & -> & Hok' & Hcm & Hln); [unfold x; lia|].
    exists x', id. split_and!; [by destruct s|done|by rewrite Hcm, Hln|by rewrite decide_True]. }
  destruct ((ch =? ctrl 72) || (ch =? DEL)).
  { rewrite (bind_ok _ _ _ (cons_e x) s) by done. rewrite (bind_ok _ _ _ (cons_w x) s) by done.
    destruct (Z.eqb_spec (cons_e x) (cons_w x)) as [E|E]; cbn [negb mwhen].
    - apply line_empty in E; [|done]. exists x, id. rewrite decide_True by done.
      split_and!; [|done|by rewrite E|by rewrite decide_True]. unfold mret. rewrite sent_nil by done. unfold x. rewrite with_cons_id. by destruct s.
    - assert (Hne : line x <> []) by (intros El; by apply E, line_empty). rewrite decide_False by done.
      destruct (erase_ok x Hok Hne) as (Hok1 & Hcm & Hln). exists (erase x), id.
      rewrite (bind_ok _ _ _ tt (with_cons s (erase x))) by (unfold cset, fset, modify, with_cons, erase, x, cons_of; by destruct s).
      rewrite (consputc_run _ c held BACKSPACE (cons_calm _ _ _ _ Hcalm) Hd Hid (or_intror eq_refl)).
      change (BACKSPACE =? BACKSPACE) with true. cbn iota.
      split_and!; [by destruct s|done| |by rewrite decide_True]. rewrite Hcm. f_equal. rewrite Hln. by rewrite removelast_last. }
  rewrite (bind_ok _ _ _ (cons_e x) s) by done. rewrite (bind_ok _ _ _ (cons_r x) s) by done.
  rewrite room_left by done. destruct (negb (ch =? 0) && _) eqn:Eroom; cbn [mwhen].
  - apply andb_true_iff in Eroom as [Hz Hroom]. apply negb_true_iff, Z.eqb_neq in Hz. apply Z.ltb_lt in Hroom.
    set (ch' := if ch =? CR then NL else ch).
    assert (Hch' : 0 < ch' < 256 /\ ch' <> CR).
    { unfold ch'. destruct (Z.eqb_spec ch CR); unfold NL, CR in *; lia. }
    destruct (intr_append_run s c held ch' Hcalm Hp Hd Hid Hok (proj1 Hch') (proj2 Hch') Hroom) as (x' & Hrun & Hok' & Hpair).
    fold x in Hrun, Hpair. cbv zeta. rewrite Hrun. eexists x', _. split_and!; [reflexivity|done|done|].
    match type of Hpair with _ = if ?b then _ else _ => destruct b end; injection Hpair as E1 E2; [|by rewrite decide_True].
    rewrite decide_False; [done|]. rewrite E1. intros E. apply (f_equal length) in E. rewrite !length_app in E. simpl in E. lia.
  - exists x, id. split_and!; [|done|done|by rewrite decide_True]. unfold mret. rewrite sent_nil by done.
    unfold x. rewrite with_cons_id. by destruct s.
Qed.
End intr.

(** C34. The console interrupt handler is a line editor.  The buffer stands for the committed
    input and the line being edited: an ordinary character is added to the line and echoed
    if there is room, carriage return counts as newline, backspace and delete take back the
    last character of the line and never committed input, ^U the whole line; newline, ^D and
    a full buffer commit the line and wake the readers. *)
Theorem consoleintr_edits {B : Board} s c cur ch : (forall u, next_idle u = true) -> calm s c cur [] ->
  u_idle (fs_uart (k_files s)) = true -> cons_ok (cons_of s) -> 0 <= ch < 256 -> ch <> ctrl 80 ->
  let cm := committed (cons_of s) in let ln := line (cons_of s) in
  exists s', consoleintr ch s = Ok tt s' /\ cons_ok (cons_of s') /\
    (committed (cons_of s'), line (cons_of s')) = edit_line ch cm ln /\
    u_out (fs_uart (k_files s')) = rev (echo ch cm ln) ++ u_out (fs_uart (k_files s)) /\
    k_procs s' = (if decide (committed (cons_of s') = cm) then k_procs s else wakes cur (Some ChCons) (k_procs s)) /\
    k_mach s' = k_mach s /\ k_phys s' = k_phys s.
Proof.
  intros Hidle Hcalm Hid Hok Hch Hne cm ln. unfold consoleintr.
  assert (Hl : lk_free (k_mach s) LCons) by (apply (ca_free _ _ _ _ Hcalm); [done|set_solver]).
  destruct (calm_acquire s c cur [] LCons Hcalm Hl) as [Ha Hc1]; [simpl; lia|]. rewrite (bind_ok _ _ _ _ _ Ha).
  set (s1 := s <| k_mach := _ |>) in *. apply Z.eqb_neq in Hne. rewrite Hne.
  destruct (intr_case_run Hidle cur s1 _ [LCons] ch Hc1 ltac:(set_solver) ltac:(simpl; lia) Hid Hok Hch) as
    (x' & ps & Hrun & Hok' & Hpair & ->). rewrite (bind_ok _ _ _ _ _ Hrun).
  set (s2 := (sent _ _) <| k_procs ::= _ |>).
  rewrite (calm_release s s2 c cur [] LCons Hcalm Hl eq_refl). eexists. split; [reflexivity|].
  change (cons_of s1) with (cons_of s) in *. fold cm ln in Hpair |- *.
  split_and!; try done. simpl. by destruct (decide _).
Qed.

(** ** consoleread *)

(** What a read of [n] characters takes from the input [q]: the characters, the input that is
    left, and whether the read is complete.  ^D ends the input: it is taken only by a read
    that has nothing else to return. *)
Fixpoint readline (first : bool) (n : nat) (q : list Z) : list Z * list Z * bool :=
  match n with
  | O => ([], q, true)
  | S n' =>
      match q with
      | [] => ([], [], false)
      | b :: q' =>
          if b =? ctrl 68 then ([], if first then q' else q, true)
          else if b =? NL then ([b], q', true)
          else let '(bs, rest, fin) := readline false n' q' in (b :: bs, rest, fin)
      end
  end.

Section read.
Context (kend : Z) (cur : nat) (p : proc).
Notation root := (p_pagetable p).
Implicit Types (s t : kern) (c : cpu) (x : cons_state).

Definition take_char x : cons_state := x <| cons_r := u32 (cons_r x + 1) |>.
Lemma committed_nil x : cons_ok x -> cons_r x = cons_w x <-> committed x = [].
Proof.
  intros H. pose proof (used_0 INPUT_BUF_SIZE M32 (cons_r x) (cons_w x) (co_r _ H) (co_w _ H)) as H0.
  pose proof (length_committed x) as Hl. split.
  - intros E. destruct (committed x); [done|]. destruct H0 as [_ H0]. rewrite H0 in Hl by done. simpl in Hl. lia.
  - intros E. rewrite E in Hl. apply H0. by symmetry.
Qed.
Lemma take_char_ok x : cons_ok x -> cons_r x <> cons_w x ->
  cons_ok (take_char x) /\ committed x = cons_at (cons_r x) x :: committed (take_char x) /\ line (take_char x) = line x.
Proof.
  intros H Hne. pose proof H as [Hl Hr Hw He Hu Hroom Hnl].
  assert (Hpos : 0 < used M32 (cons_r x) (cons_w x)).
  { rewrite <- length_committed. destruct (committed x) eqn:E; [|simpl; lia]. by apply committed_nil in E. }
  pose proof (used_range INPUT_BUF_SIZE M32 (cons_w x) (cons_e x)).
  assert (Hp1 : used M32 (u32 (cons_r x + 1)) (cons_w x) = used M32 (cons_r x) (cons_w x) - 1)
    by exact (used_pop INPUT_BUF_SIZE M32 _ _ Hpos).
  assert (Hp2 : used M32 (u32 (cons_r x + 1)) (cons_e x) = used M32 (cons_r x) (cons_e x) - 1).
  { apply (used_pop INPUT_BUF_SIZE M32). lia. }
  split_and!; [|exact (ring_pop INPUT_BUF_SIZE M32 _ _ _ Hpos)|done].
  split; try done; [apply u32_range|simpl cons_w; simpl cons_e; simpl cons_r; lia|simpl cons_e; simpl cons_r; lia].
Qed.

Lemma consoleread_loop_run fuel target : forall t c x dst n bs rest fin, calm t c cur [LCons] -> k_procs t !! cur = Some p ->
  cons_of t = x -> cons_ok x -> p_killed p = 0 -> user_space kend root (k_phys t) -> uaccess root (k_phys t) dst n ->
  0 <= dst -> dst + n < 2 ^ 64 -> 0 <= n <= target -> (Z.to_nat n < fuel)%nat ->
  readline (n =? target) (Z.to_nat n) (committed x) = (bs, rest, fin) ->
  exists ph x', cons_ok x' /\ committed x' = rest /\ line x' = line x /\ user_space kend root ph /\
    delivered root (k_phys t) ph dst bs /\
    consoleread_loop fuel true target dst n t =
      (if fin then release LCons ;;; mret (Done (target - (n - Z.of_nat (length bs))))
       else k <- sleep_enter (Some ChCons) LCons ;;
            mret (Parked (k, dst + Z.of_nat (length bs), n - Z.of_nat (length bs))))
      ((with_cons t x') <| k_phys := ph |>).
Proof.
  induction fuel as [|fuel IH]; intros t c x dst n bs rest fin Hcalm Hp Hx Hok Hk Hus Hacc Hd Hdn Hn Hf Hread; [lia|].
  cbn [consoleread_loop].
  assert (Hsame : with_cons t x <| k_phys := k_phys t |> = t) by (subst x; rewrite with_cons_id; by destruct t).
  destruct (Z.ltb_spec 0 n) as [Hpos|Hz].
  2: { assert (n = 0) as -> by lia. simpl in Hread. injection Hread as <- <- <-.
       exists (k_phys t), x. split_and!; try done. by rewrite Hsame. }
  replace (Z.to_nat n) with (S (Z.to_nat (n - 1))) in Hread by lia. cbn [readline] in Hread.
  rewrite (bind_ok _ _ _ (cons_r x) t) by (by subst x). rewrite (bind_ok _ _ _ (cons_w x) t) by (by subst x).
  destruct (Z.eqb_spec (cons_r x) (cons_w x)) as [E|E].
  { apply committed_nil in E; [|done]. rewrite E in Hread. injection Hread as <- <- <-.
    rewrite (bind_ok _ _ _ _ _ (self_calm t c cur [LCons] Hcalm)).
    rewrite (bind_ok _ _ _ _ _ (killed_calm t c cur [LCons] p Hcalm ltac:(set_solver) ltac:(simpl; lia) Hp)), Hk.
    cbn [z2b Z.eqb negb]. cbn iota. exists (k_phys t), x. split_and!; try done.
    rewrite Hsame. simpl. by rewrite Z.add_0_r, Z.sub_0_r. }
  destruct (take_char_ok x Hok E) as (Hok1 & Hcm & Hln). set (b := cons_at (cons_r x) x) in *. rewrite Hcm in Hread.
  rewrite (bind_ok _ _ _ b t) by (by subst x). set (t1 := with_cons t (take_char x)).
  rewrite (bind_ok _ _ _ tt t1) by (subst x; unfold t1, cset, fset, modify, with_cons, take_char, cons_of; by destruct t).
  destruct (b =? ctrl 68).
  { injection Hread as <- <- <-. exists (k_phys t), (if n <? target then x else take_char x).
    assert (Hback : mwhen (n <? target) (cset (fun x => x <| cons_r ::= fun r => u32 (r - 1) |>)) t1 =
      Ok tt (with_cons t (if n <? target then x else take_char x) <| k_phys := k_phys t |>)).
    { destruct (n <? target); cbn [mwhen].
      - unfold cset, fset, modify. f_equal. unfold t1, with_cons, take_char. destruct t as [? ? ? ? ? ? ? ? g]; destruct g; simpl. do 2 f_equal.
        destruct x as [a b0 c0 d0]. simpl. f_equal. unfold u32. rewrite Zminus_mod_idemp_l.
        replace (b0 + 1 - 1) with b0 by lia. apply Z.mod_small. apply (co_r _ Hok).
      - unfold mret, t1. by destruct t. }
    rewrite (bind_ok _ _ _ _ _ Hback). simpl length. rewrite Z.sub_0_r.
    destruct (Z.eqb_spec n target) as [->|Hne].
    - rewrite Z.ltb_irrefl. split_and!; done.
    - destruct (Z.ltb_spec n target); [|lia]. split_and!; done. }
  assert (Hs : is_Some (uaddr root (k_phys t1) dst)).
  { specialize (Hacc 0 ltac:(lia)). by rewrite Z.add_0_r in Hacc. }
  destruct (copyout_byte kend root (k_phys t1) dst b Hus ltac:(lia) Hs) as (ph1 & Hrun & Hus1 & Hu1 & Hb & Hk1 & Ho1).
  assert (Hc1 : calm t1 c cur [LCons]) by (by apply (calm_data t)).
  assert (Hp1 : k_procs t1 !! cur = Some p) by done.
  set (t2 := t1 <| k_phys := ph1 |>).
  assert (Hd1 : delivered root (k_phys t) ph1 dst [b]).
  { split_and!; [simpl; by rewrite Hb|done| |done]. intros v Hv Hnv. apply Hk1; [done|simpl in Hnv; lia]. }
  rewrite (bind_ok _ _ _ 0 t2).
  2: { unfold either_copyout. rewrite (bind_ok _ _ _ _ _ (myproc_calm t1 c cur [LCons] Hc1)).
       rewrite (bind_ok _ _ _ cur t1) by done.
       rewrite (bind_ok _ _ _ _ _ (proc_get_run p_pagetable t1 cur p Hp1)). by apply on_phys_run. }
  cbn [Z.eqb]. cbn iota. destruct (b =? NL).
  { injection Hread as <- <- <-. exists ph1, (take_char x). split_and!; done. }
  destruct (readline false (Z.to_nat (n - 1)) (committed (take_char x))) as [[bs' rest'] fin'] eqn:Hr.
  injection Hread as <- <- <-. assert (Hu : u64 (dst + 1) = dst + 1) by (apply u64_small; lia). rewrite Hu.
  destruct (IH t2 c (take_char x) (dst + 1) (n - 1) bs' rest' fin') as (ph & x' & Hok' & Hcm' & Hln' & Hus' & Hd' & Hrun'); try done; try lia.
  { by apply (calm_data t). }
  { intros k Hk'. simpl. rewrite Hu1. replace (dst + 1 + k) with (dst + (k + 1)) by lia. apply Hacc. lia. }
  { by destruct (Z.eqb_spec (n - 1) target); [lia|]. }
  exists ph, x'. split_and!; try done.
  { by apply (delivered_cons root (k_phys t) ph1). }
  rewrite Hrun'. unfold t2, t1. replace (with_cons (with_cons t (take_char x) <| k_phys := ph1 |>) x' <| k_phys := ph |>)
    with (with_cons t x' <| k_phys := ph |>) by (by destruct t as [? ? ? ? ? ? ? ? g]; destruct g).
  cbn [length]. rewrite Nat2Z.inj_succ.
  replace (n - 1 - Z.of_nat (length bs')) with (n - Z.succ (Z.of_nat (length bs'))) by lia.
  by replace (dst + 1 + Z.of_nat (length bs')) with (dst + Z.succ (Z.of_nat (length bs'))) by lia.
Qed.
End read.

(** C35. consoleread gives a program its input a line at a time: it delivers the committed
    characters in order up to the requested number, through the first newline, or up to a
    ^D, which it takes only when it has nothing else to return (so the program sees the end
    of the file); what it does not deliver stays, and the line being edited is untouched.
    When the input runs out before that it sleeps, with the lock free and the characters so
    far delivered and accounted for. *)
Theorem consoleread_line kend s c cur p dst n bs rest fin : calm s c cur [] -> k_procs s !! cur = Some p -> p_killed p = 0 ->
  cons_ok (cons_of s) -> user_space kend (p_pagetable p) (k_phys s) -> uaccess (p_pagetable p) (k_phys s) dst n ->
  0 <= dst -> 0 <= n -> dst + n < 2 ^ 64 ->
  readline true (Z.to_nat n) (committed (cons_of s)) = (bs, rest, fin) ->
  exists r s', consoleread_call true dst n s = Ok r s' /\ cons_ok (cons_of s') /\
    committed (cons_of s') = rest /\ line (cons_of s') = line (cons_of s) /\
    delivered (p_pagetable p) (k_phys s) (k_phys s') dst bs /\ lk_free (k_mach s') LCons /\
    if fin then r = Done (Z.of_nat (length bs)) /\ k_mach s' = k_mach s /\ k_procs s' = k_procs s
    else exists k p', r = Parked (k, dst + Z.of_nat (length bs), n - Z.of_nat (length bs)) /\
      k_procs s' = <[cur := p']> (k_procs s) /\ p_state p' = SLEEPING /\ p_chan p' = Some ChCons.
Proof.
  intros Hcalm Hp Hk Hok Hus Hacc Hd Hn Hdn Hread. unfold consoleread_call.
  assert (Hl : lk_free (k_mach s) LCons) by (apply (ca_free _ _ _ _ Hcalm); [done|set_solver]).
  destruct (calm_acquire s c cur [] LCons Hcalm Hl) as [Ha Hc1]; [simpl; lia|]. rewrite (bind_ok _ _ _ _ _ Ha).
  set (s1 := s <| k_mach := _ |>) in *.
  destruct (consoleread_loop_run kend cur p (S (Z.to_nat n)) n s1 _ (cons_of s) dst n bs rest fin Hc1 Hp eq_refl Hok Hk Hus Hacc Hd Hdn)
    as (ph & x' & Hok' & Hcm & Hln & Hus' & Hdel & Hrun); [lia|lia|by rewrite Z.eqb_refl|].
  rewrite Hrun. set (s2 := (with_cons s1 x') <| k_phys := ph |>). destruct fin.
  - rewrite (bind_ok _ _ _ _ _ (calm_release s s2 c cur [] LCons Hcalm Hl eq_refl)).
    eexists _, _. split; [reflexivity|]. split_and!; try done. f_equal. lia.
  - rewrite (bind_ok _ _ _ _ _ (sleep_enter_run s s2 c cur p LCons (Some ChCons) Hcalm Hl ltac:(discriminate) eq_refl Hp
      (ca_len _ _ _ _ Hcalm))).
    eexists _, _. split; [reflexivity|]. split_and!; try done.
    + destruct Hl as [nm El]. exists nm. simpl. by rewrite lookup_alter_ne.
    + by eexists _, _.
Qed.

(** ** Example: "hi" and a newline are committed, the user has typed an x *)

Definition ex_board : Board := {| answer := fun _ _ => 0; next_idle := fun _ => true |}.
Definition ex_cons : cons_state :=
  Cons (<[126%nat := 104]> (<[127%nat := 105]> (<[0%nat := 10]> (<[1%nat := 120]> (replicate 128 0))))) (2 ^ 32 - 2) 1 2.
Definition cons_kern : kern := with_cons pipe_kern ex_cons.
Lemma ex_cons_line : line ex_cons = [120].
Proof. by vm_compute. Qed.
Lemma ex_cons_ok : cons_ok ex_cons.
Proof.
  split; [vm_compute; intuition congruence..|]. rewrite ex_cons_line.
  apply (bool_decide_unpack _). by vm_compute.
Qed.
Lemma cons_kern_calm : calm cons_kern (ex_cpu (Some 0%nat)) 0 [].
Proof. exact (calm_data pipe_kern cons_kern _ _ _ pipe_calm eq_refl eq_refl). Qed.

Lemma consoleintr_edits_witness : exists s', consoleintr (H := ex_board) 8 cons_kern = Ok tt s' /\
  committed (cons_of s') = [104; 105; 10] /\ line (cons_of s') = [] /\
  u_out (fs_uart (k_files s')) = [8; 32; 8].
Proof.
  destruct (consoleintr_edits (B := ex_board) cons_kern (ex_cpu (Some 0%nat)) 0 8 (fun _ => eq_refl) cons_kern_calm eq_refl
    ex_cons_ok ltac:(lia) ltac:(discriminate)) as (s' & H1 & _ & H2 & H3 & _).
  exists s'. split; [exact H1|]. change (cons_of cons_kern) with ex_cons in H2, H3.
  assert (E : edit_line 8 (committed ex_cons) (line ex_cons) = ([104; 105; 10], [])) by (by vm_compute).
  rewrite E in H2. injection H2 as E1 E2. split; [exact E1|]. split; [exact E2|].
  rewrite H3. by vm_compute.
Defined.
Lemma consoleread_line_witness : exists r s', consoleread_call true 4095 20 cons_kern = Ok r s' /\
  committed (cons_of s') = [] /\ ubytes ex_root (k_phys s') 4095 3 = [104; 105; 10] /\ r = Done 3.
Proof.
  assert (E : readline true 20 (committed ex_cons) = ([104; 105; 10], [], true)) by (by vm_compute).
  destruct (consoleread_line ex_kend cons_kern (ex_cpu (Some 0%nat)) 0 pipe_proc 4095 20 _ _ _ cons_kern_calm eq_refl eq_refl
    ex_cons_ok ex_user_space (ex_uaccess 4095 20 ltac:(lia) ltac:(lia)) ltac:(lia) ltac:(lia) ltac:(lia) E)
    as (r & s' & H1 & _ & H2 & _ & (H3 & _) & _ & H4 & _).
  exists r, s'. split; [exact H1|]. split; [exact H2|]. split; [exact H3|exact H4].
Defined.
