(* ===== verification/Log.v ===== *)
(** * The log: kernel/log.c

    begin_op sleeps while the log is committing or could overflow; [begin_op_turn] is one
    turn of its loop with log.lock held, and [begin_op] is the call of a process that does
    not have to wait. *)

From S2P Require Import Prelude Riscv CString Kalloc Vm Spinlock Proc ProcSpec Headers Sleeplock Bio.

Definition log_get {A} (f : logstate -> A) : M kern A := fget (fun s => f (fs_log s)).
Definition log_set (f : logstate -> logstate) : M kern unit := fset (fun s => s <| fs_log ::= f |>).

(** log.lh.block[i], an array of LOGSIZE ints. *)
Definition lh_block (i : nat) : M kern Z := bl <- log_get l_block ;; mlookup (bl !! i).
Definition set_lh_block (i : nat) (v : Z) : M kern unit :=
  bl <- log_get l_block ;; _ <- mlookup (bl !! i) ;;
  log_set (fun l => l <| l_block ::= insert i v |>).

(** The fields of a header block. *)
Definition hb_n (data : list Z) : Z := i32 (get_le 4 data 0).
Definition hb_block (data : list Z) (i : nat) : Z := i32 (get_le 4 data (4 + 4 * i)).
Definition set_hb_n (data : list Z) (v : Z) : list Z := put_le 4 data 0 (u32 v).
Definition set_hb_block (data : list Z) (i : nat) (v : Z) : list Z := put_le 4 data (4 + 4 * i) (u32 v).

Section log.
Context `{DiskOps}.

Definition install_trans (recovering : bool) : M kern unit :=
  n <- log_get l_n ;;
  mfor (Z.to_nat n) (fun tail =>
    dev <- log_get l_dev ;;
    start <- log_get l_start ;;
    lbuf <- bread (u32 dev) (u32 (start + Z.of_nat tail + 1)) ;;
    home <- lh_block tail ;;
    dbuf <- bread (u32 dev) (u32 home) ;;
    data <- buf_get lbuf b_data ;;
    buf_set dbuf (fun x => x <| b_data := data |>) ;;;
    bwrite dbuf ;;;
    mwhen (negb recovering) (bunpin dbuf) ;;;
    brelse lbuf ;;;
    brelse dbuf).

Definition read_head : M kern unit :=
  dev <- log_get l_dev ;;
  start <- log_get l_start ;;
  buf <- bread (u32 dev) (u32 start) ;;
  data <- buf_get buf b_data ;;
  log_set (fun l => l <| l_n := hb_n data |>) ;;;
  n <- log_get l_n ;;
  mfor (Z.to_nat n) (fun i => set_lh_block i (hb_block data i)) ;;;
  brelse buf.

Definition write_head : M kern unit :=
  dev <- log_get l_dev ;;
  start <- log_get l_start ;;
  buf <- bread (u32 dev) (u32 start) ;;
  n <- log_get l_n ;;
  buf_set buf (fun x => x <| b_data ::= fun d => set_hb_n d n |>) ;;;
  mfor (Z.to_nat n) (fun i =>
    v <- lh_block i ;;
    buf_set buf (fun x => x <| b_data ::= fun d => set_hb_block d i v |>)) ;;;
  bwrite buf ;;;
  brelse buf.

Definition recover_from_log : M kern unit :=
  read_head ;;;
  install_trans true ;;;
  log_set (fun l => l <| l_n := 0 |>) ;;;
  write_head.

(** sizeof(struct logheader) is 124, less than BSIZE. *)
Definition initlog (dev : Z) (sb : superblock) : M kern unit :=
  if BSIZE <=? 4 + 4 * LOGSIZE then panic "initlog: too big logheader"
  else
    on_mach (initlock LLog "log") ;;;
    log_set (fun l => l <| l_start := i32 (sb_logstart sb) |> <| l_size := i32 (sb_nlog sb) |>
                        <| l_dev := dev |>) ;;;
    recover_from_log.

Definition begin_op_turn : M kern (outcome unit (nat * Z)) :=
  committing <- log_get l_committing ;;
  n <- log_get l_n ;;
  outstanding <- log_get l_outstanding ;;
  if z2b committing then k <- sleep_enter (Some ChLog) LLog ;; mret (Parked k)
  else if LOGSIZE <? n + (outstanding + 1) * MAXOPBLOCKS then
    k <- sleep_enter (Some ChLog) LLog ;; mret (Parked k)
  else
    log_set (fun l => l <| l_outstanding ::= fun k => i32 (k + 1) |>) ;;;
    release LLog ;;;
    mret (Done tt).
Definition begin_op_call : M kern (outcome unit (nat * Z)) := acquire LLog ;;; begin_op_turn.
Definition begin_op_resume (k : nat * Z) : M kern (outcome unit (nat * Z)) :=
  sleep_exit LLog k ;;; begin_op_turn.
Definition begin_op : M kern unit :=
  r <- begin_op_call ;;
  match r with Done _ => mret tt | Parked _ => mfail Block end.

Definition write_log : M kern unit :=
  n <- log_get l_n ;;
  mfor (Z.to_nat n) (fun tail =>
    dev <- log_get l_dev ;;
    start <- log_get l_start ;;
    to <- bread (u32 dev) (u32 (start + Z.of_nat tail + 1)) ;;
    home <- lh_block tail ;;
    from <- bread (u32 dev) (u32 home) ;;
    data <- buf_get from b_data ;;
    buf_set to (fun x => x <| b_data := data |>) ;;;
    bwrite to ;;;
    brelse from ;;;
    brelse to).

Definition commit : M kern unit :=
  n <- log_get l_n ;;
  mwhen (0 <? n)
    (write_log ;;;
     write_head ;;;
     install_trans false ;;;
     log_set (fun l => l <| l_n := 0 |>) ;;;
     write_head).

Definition end_op : M kern unit :=
  acquire LLog ;;;
  log_set (fun l => l <| l_outstanding ::= fun k => i32 (k - 1) |>) ;;;
  committing <- log_get l_committing ;;
  if z2b committing then panic "log.committing"
  else
    outstanding <- log_get l_outstanding ;;
    (if outstanding =? 0 then log_set (fun l => l <| l_committing := 1 |>)
     else wakeup (Some ChLog)) ;;;
    release LLog ;;;
    mwhen (outstanding =? 0)
      (commit ;;;
       acquire LLog ;;;
       log_set (fun l => l <| l_committing := 0 |>) ;;;
       wakeup (Some ChLog) ;;;
       release LLog).

(** [for(i = 0; i < log.lh.n; i++) if(log.lh.block[i] == b->blockno) break;] *)
Fixpoint log_slot (blocks : list Z) (bno : Z) (i n : nat) : M kern nat :=
  match n with
  | O => mret i
  | S n' =>
      v <- mlookup (blocks !! i) ;;
      if u32 v =? bno then mret i else log_slot blocks bno (S i) n'
  end.

Definition log_write (b : nat) : M kern unit :=
  acquire LLog ;;;
  n <- log_get l_n ;;
  size <- log_get l_size ;;
  if (LOGSIZE <=? n) || (i32 (size - 1) <=? n) then panic "too big a transaction"
  else
    outstanding <- log_get l_outstanding ;;
    if outstanding <? 1 then panic "log_write outside of trans"
    else
      bno <- buf_get b b_blockno ;;
      blocks <- log_get l_block ;;
      i <- log_slot blocks bno 0 (Z.to_nat n) ;;
      set_lh_block i (i32 bno) ;;;
      mwhen (Z.of_nat i =? n)
        (bpin b ;;;
         log_set (fun l => l <| l_n ::= fun k => i32 (k + 1) |>)) ;;;
      release LLog.

End log.
