(* ===== verification/Blocks.v ===== *)
(** * Triples for the block layer

    [blocks c cur p s0 H P V d s]: process [cur] runs on CPU [c] and holds the blocks of [H];
    [V] is the content of every block as the file system sees it, [d] the disk, and what the
    block operations leave alone is as in [s0].  One rule per operation of kernel/bio.c; the
    log and the file system are verified against these rules. *)

From S2P Require Import Prelude Riscv CString Kalloc Vm Spinlock Proc ProcSpec Headers Sleeplock Bio BioSpec.
From S2P Require Import Bcache Log.

(** ** Sequences of block writes *)

(** Contents of blocks. *)
Notation contents := (Z -> list Z).
Definition bset (V : contents) (n : Z) (v : list Z) : contents := fun k => if decide (k = n) then v else V k.
Definition after (V : contents) (ws : list (Z * list Z)) : contents :=
  foldl (fun V w => bset V w.1 w.2) V ws.
Definition write_all (d : disk) (ws : list (Z * list Z)) : disk :=
  foldl (fun d w => write_block d w.1 w.2) d ws.
Definition content (d : disk) : contents := dblock (d_data d).

Section writes.
Implicit Types (V : contents) (n : Z) (v : list Z) (ws : list (Z * list Z)) (d : disk).

Lemma bset_eq V n v : bset V n v n = v.
Proof. unfold bset. by rewrite decide_True. Qed.
Lemma bset_ne V n v k : k <> n -> bset V n v k = V k.
Proof. intros. unfold bset. by rewrite decide_False. Qed.

Lemma content_write d n v k : content (write_block d n v) k = bset (content d) n v k.
Proof.
  unfold content, write_block, dblock, bset. simpl. case_decide as E.
  - subst. by rewrite lookup_insert_eq.
  - by rewrite lookup_insert_ne by done.
Qed.
Lemma after_ext V V' ws k : (forall k, V k = V' k) -> after V ws k = after V' ws k.
Proof.
  revert V V'. induction ws as [|w ws IH]; intros V V' E; [apply E|]. simpl. apply IH.
  intros j. unfold bset. case_decide; [done|apply E].
Qed.
Lemma content_write_all d ws k : content (write_all d ws) k = after (content d) ws k.
Proof.
  revert d. induction ws as [|w ws IH]; intros d; [done|]. simpl. rewrite IH.
  apply after_ext. intros j. apply content_write.
Qed.
Lemma after_app V ws ws' : after V (ws ++ ws') = after (after V ws) ws'.
Proof. apply foldl_app. Qed.
Lemma write_all_app d ws ws' : write_all d (ws ++ ws') = write_all (write_all d ws) ws'.
Proof. apply foldl_app. Qed.
Lemma write_all_hist d ws : d_hist (write_all d ws) = rev ws ++ d_hist d.
Proof.
  revert d. induction ws as [|[n v] ws IH]; intros d; [done|]. simpl. rewrite IH. simpl.
  by rewrite <- app_assoc.
Qed.
Lemma after_out V ws k : k ∉ ws.*1 -> after V ws k = V k.
Proof.
  revert V. induction ws as [|w ws IH]; intros V Hk; [done|].
  apply not_elem_of_cons in Hk as [Hw Hk]. simpl. rewrite IH by done. by apply bset_ne.
Qed.
(** A block written with one content only. *)
Lemma after_in V ws k v : k ∈ ws.*1 -> (forall v', (k, v') ∈ ws -> v' = v) -> after V ws k = v.
Proof.
  revert V. induction ws as [|[k' v'] ws IH]; intros V Hk Hv; [by apply not_elem_of_nil in Hk|]. simpl.
  destruct (decide (k ∈ ws.*1)) as [Hin|Hout].
  - apply IH; [done|]. intros v2 H2. apply Hv. by apply list_elem_of_further.
  - rewrite after_out by done. apply elem_of_cons in Hk as [Hk|Hk]; [|done]. simpl in Hk. subst k'.
    rewrite bset_eq. apply Hv. apply list_elem_of_here.
Qed.
Lemma after_len V ws : (forall k, length (V k) = Z.to_nat BSIZE) ->
  Forall (fun w => length w.2 = Z.to_nat BSIZE) ws -> forall k, length (after V ws k) = Z.to_nat BSIZE.
Proof.
  intros HV Hws. revert V HV. induction Hws as [|w ws Hw _ IH]; intros V HV; [done|]. simpl. apply IH.
  intros k. unfold bset. by case_decide.
Qed.

End writes.

(** ** The triples *)

Record blocks (c : cpu) (cur : nat) (p : proc) (s0 : kern) (H : gmap Z nat) (P : gset Z)
    (V : contents) (d : disk) (s : kern) : Prop := {
  bl_calm : calm s c cur [];
  bl_proc : k_procs s !! cur = Some p;
  bl_inv : binv s p H P;
  bl_view : forall k, view s k = V k;
  bl_disk : fs_disk (k_files s) = d;
  bl_frame : bframe cur s0 s
}.

Section triples.
Context {D : DiskOps} {DL : DiskLaws} (c : cpu) (cur : nat) (p : proc).
Implicit Types (s : kern) (H : gmap Z nat) (P : gset Z) (V : contents) (d : disk) (n : Z) (b : nat).

Lemma blocks_ext s0 H P V V' d s : (forall k, V k = V' k) ->
  blocks c cur p s0 H P V d s -> blocks c cur p s0 H P V' d s.
Proof. intros E []. split; try done. intros k. by rewrite <- E. Qed.

Lemma blocks_start s H P : calm s c cur [] -> k_procs s !! cur = Some p -> binv s p H P ->
  blocks c cur p s H P (view s) (fs_disk (k_files s)) s.
Proof. intros. by split. Qed.

Lemma blocks_step s0 H P V d s H' P' V' d' s' : blocks c cur p s0 H P V d s ->
  binv s' p H' P' -> (forall k, view s' k = V' k) -> fs_disk (k_files s') = d' -> bframe cur s s' ->
  blocks c cur p s0 H' P' V' d' s'.
Proof.
  intros B Hi HV Hd Hf. split; try done.
  - apply (bframe_calm cur s); [done|apply B].
  - rewrite (bf_cur _ _ _ Hf). apply B.
  - apply (bframe_trans cur s0 s); [apply B|done].
Qed.

Lemma blocks_clean s0 H P V d s n : blocks c cur p s0 H P V d s -> n ∉ P -> H !! n = None ->
  V n = content d n.
Proof.
  intros B HP Hn. rewrite <- (bl_view _ _ _ _ _ _ _ _ _ B), (binv_clean s p H P n (bl_inv _ _ _ _ _ _ _ _ _ B) HP Hn).
  unfold ondisk. by rewrite (bl_disk _ _ _ _ _ _ _ _ _ B).
Qed.
Lemma blocks_size s0 H P V d s n : blocks c cur p s0 H P V d s -> length (V n) = Z.to_nat BSIZE.
Proof. intros B. rewrite <- (bl_view _ _ _ _ _ _ _ _ _ B). apply (binv_size s p H P n), B. Qed.

Lemma bread_tri s0 H P V d s n : blocks c cur p s0 H P V d s -> H !! n = None ->
  n ∈ P \/ (size (P ∪ dom H) < NBUF)%nat ->
  runs (bread ROOTDEV n) s (fun b s' => blocks c cur p s0 (<[n := b]> H) P V d s').
Proof.
  intros B Hn Hroom. destruct (bread_rule s c cur p H P n (bl_calm _ _ _ _ _ _ _ _ _ B)
    (bl_proc _ _ _ _ _ _ _ _ _ B) (bl_inv _ _ _ _ _ _ _ _ _ B) Hn Hroom) as (b & s' & E & Hi & HV & Hd & Hf).
  apply (runs_ok _ _ _ b s' E). apply (blocks_step s0 H P V d s); try done.
  - intros k. rewrite HV. apply B.
  - rewrite Hd. apply B.
Qed.

Lemma data_tri s0 H P V d s n b : blocks c cur p s0 H P V d s -> H !! n = Some b ->
  runs (buf_get b b_data) s (fun v s' => v = V n /\ s' = s).
Proof.
  intros B Hn. apply (runs_ok _ _ _ _ _ (data_rule s p H P n b (bl_inv _ _ _ _ _ _ _ _ _ B) Hn)).
  split; [apply B|done].
Qed.

Lemma edit_tri s0 H P V d s n b (g : list Z -> list Z) : blocks c cur p s0 H P V d s -> H !! n = Some b ->
  length (g (V n)) = Z.to_nat BSIZE ->
  runs (buf_set b (fun x => x <| b_data ::= g |>)) s
    (fun _ s' => blocks c cur p s0 H P (bset V n (g (V n))) d s').
Proof.
  intros B Hn Hlen. pose proof (bl_view _ _ _ _ _ _ _ _ _ B) as HV.
  destruct (edit_rule s p H P n b g cur (bl_inv _ _ _ _ _ _ _ _ _ B) Hn) as (s' & E & Hi & HV' & Hd & Hf);
    [by rewrite HV|].
  apply (runs_ok _ _ _ _ s' E). apply (blocks_step s0 H P V d s); try done.
  - intros k. rewrite HV', HV. unfold bset. case_decide; [done|apply HV].
  - rewrite Hd. apply B.
Qed.

Lemma bwrite_tri s0 H P V d s n b : blocks c cur p s0 H P V d s -> H !! n = Some b ->
  runs (bwrite b) s (fun _ s' => blocks c cur p s0 H P V (write_block d n (V n)) s').
Proof.
  intros B Hn. destruct (bwrite_rule s c cur p H P n b (bl_calm _ _ _ _ _ _ _ _ _ B)
    (bl_proc _ _ _ _ _ _ _ _ _ B) (bl_inv _ _ _ _ _ _ _ _ _ B) Hn) as (s' & E & Hi & HV & Hd & Hf).
  apply (runs_ok _ _ _ _ s' E). apply (blocks_step s0 H P V d s); try done.
  - intros k. rewrite HV. apply B.
  - rewrite Hd, (bl_disk _ _ _ _ _ _ _ _ _ B), (bl_view _ _ _ _ _ _ _ _ _ B). done.
Qed.

Lemma brelse_tri s0 H P V d s n b : blocks c cur p s0 H P V d s -> H !! n = Some b ->
  n ∈ P \/ V n = content d n ->
  runs (brelse b) s (fun _ s' => blocks c cur p s0 (delete n H) P V d s').
Proof.
  intros B Hn Hcl. destruct (brelse_rule s c cur p H P n b (bl_calm _ _ _ _ _ _ _ _ _ B)
    (bl_proc _ _ _ _ _ _ _ _ _ B) (bl_inv _ _ _ _ _ _ _ _ _ B) Hn) as (s' & E & Hi & HV & Hd & Hf).
  { destruct Hcl as [?|Hcl]; [by left|right]. rewrite (bl_view _ _ _ _ _ _ _ _ _ B), Hcl.
    unfold ondisk. by rewrite (bl_disk _ _ _ _ _ _ _ _ _ B). }
  apply (runs_ok _ _ _ _ s' E). apply (blocks_step s0 H P V d s); try done.
  - intros k. rewrite HV. apply B.
  - rewrite Hd. apply B.
Qed.

Lemma bunpin_tri s0 H P V d s n b : blocks c cur p s0 H P V d s -> H !! n = Some b -> n ∈ P ->
  runs (bunpin b) s (fun _ s' => blocks c cur p s0 H (P ∖ {[n]}) V d s').
Proof.
  intros B Hn HnP. destruct (bunpin_rule s c cur [] p H P n b (bl_calm _ _ _ _ _ _ _ _ _ B)
    ltac:(set_solver) ltac:(simpl; lia) (bl_inv _ _ _ _ _ _ _ _ _ B) Hn HnP) as (s' & E & Hi & HV & Hd & Hf).
  apply (runs_ok _ _ _ _ s' E). apply (blocks_step s0 H P V d s); try done.
  - intros k. rewrite HV. apply B.
  - rewrite Hd. apply B.
Qed.

(** The log's fields are part of the frame. *)
Definition set_log s (g : logstate -> logstate) : kern := s <| k_files ::= fun f => f <| fs_log ::= g |> |>.

Lemma log_get_tri {A} (g : logstate -> A) s0 H P V d s : blocks c cur p s0 H P V d s ->
  runs (log_get g) s (fun v s' => v = g (fs_log (k_files s0)) /\ s' = s).
Proof.
  intros B. apply (runs_ok _ _ _ (g (fs_log (k_files s))) s); [done|]. split; [|done].
  by rewrite (proj1 (bf_files _ _ _ (bl_frame _ _ _ _ _ _ _ _ _ B))).
Qed.
Lemma log_set_tri g s0 H P V d s : blocks c cur p s0 H P V d s ->
  runs (log_set g) s (fun _ s' => blocks c cur p (set_log s0 g) H P V d s').
Proof.
  intros [Hc Hp Hi HV Hd Hf]. apply (runs_ok _ _ _ tt (set_log s g)); [done|].
  split; try done; [by apply (calm_data s)|by apply (binv_frame s)|].
  destruct Hf as [A1 A2 A3 A4 A5 (A8 & A9 & A10 & A11 & A12) A13 A14]. split; try done.
  split_and!; try done. simpl. by rewrite A8.
Qed.

End triples.

(** One step of a program whose triple is known. *)
Tactic Notation "step" uconstr(H) := apply runs_bind; eapply runs_conseq; [eapply H; try eassumption; try done|cbv beta].
