(* ===== verification/CacheProps.v ===== *)
(** * What the buffer cache promises

    binit makes an empty cache over the disk; reads and writes through the cache behave as
    if there were no cache; a miss takes the least recently used free buffer. *)

From S2P Require Import Prelude Riscv CString Kalloc Vm Spinlock Proc ProcSpec Headers Dlist Sleeplock Bio.
From S2P Require Import BioSpec Bcache Example Blocks.

(** ** Reading and writing blocks *)

(** Change block [n] with [g] and write it through. *)
Definition update_block `{DiskOps} (n : Z) (g : list Z -> list Z) : M kern unit :=
  b <- bread ROOTDEV n ;;
  buf_set b (fun x => x <| b_data ::= g |>) ;;;
  bwrite b ;;;
  brelse b.

(** C31. The cache is transparent.  Changing a block through bread, bwrite and brelse writes
    exactly that block of the disk, with the new content and once; no other block changes,
    in the cache or on the disk, however many blocks were evicted on the way; the buffer is
    given back; and the next bread of the block, from the cache or from the disk, returns
    the new content. *)
Theorem cache_transparent `{DiskLaws} s c cur p P n g : calm s c cur [] -> k_procs s !! cur = Some p -> binv s p ∅ P ->
  n ∉ P -> (size P < NBUF)%nat -> length (g (view s n)) = Z.to_nat BSIZE ->
  exists s', update_block n g s = Ok tt s' /\ binv s' p ∅ P /\ calm s' c cur [] /\
    fs_disk (k_files s') = write_block (fs_disk (k_files s)) n (g (view s n)) /\
    (forall k, view s' k = if decide (k = n) then g (view s n) else view s k) /\
    exists b s'', bread ROOTDEV n s' = Ok b s'' /\ buf_get b b_data s'' = Ok (g (view s n)) s''.
Proof.
  intros Hc Hp Hi HnP Hsz Hlen.
  assert (Hsz' : (size (P ∪ dom (∅ : gmap Z nat)) < NBUF)%nat) by (by rewrite dom_empty_L, union_empty_r_L).
  pose proof (blocks_start c cur p s ∅ P Hc Hp Hi) as B. set (d := fs_disk (k_files s)) in *.
  assert (Hrun : runs (update_block n g) s (fun _ s' =>
    blocks c cur p s ∅ P (bset (view s) n (g (view s n))) (write_block d n (g (view s n))) s')).
  { unfold update_block. step (bread_tri c cur p s ∅ P (view s) d s n); [by right|]. intros b s1 B1.
    step (edit_tri c cur p s _ P (view s) d s1 n b g); [apply lookup_insert_eq|]. intros _ s2 B2.
    step (bwrite_tri c cur p s _ P _ d s2 n b); [apply lookup_insert_eq|]. intros _ s3 B3. rewrite bset_eq in B3.
    eapply runs_conseq; [eapply (brelse_tri c cur p s _ P _ _ s3 n b B3); [apply lookup_insert_eq|right]|].
    - rewrite bset_eq, content_write, bset_eq. done.
    - cbv beta. intros _ s4 B4. by rewrite delete_insert_id in B4. }
  apply runs_inv in Hrun as ([] & s' & E & B'). exists s'.
  split_and!; [done|apply B'|apply B'|apply B'| |].
  - intros k. rewrite (bl_view _ _ _ _ _ _ _ _ _ B'). unfold bset. by repeat case_decide.
  - destruct (runs_inv _ _ _ (bread_tri c cur p s ∅ P _ _ s' n B' (lookup_empty _) (or_intror Hsz'))) as (b & s'' & Eb & Bb).
    exists b, s''. split; [done|].
    destruct (runs_inv _ _ _ (data_tri c cur p s _ P _ _ s'' n b Bb (lookup_insert_eq _ _ _))) as (v & s3 & Ev & -> & ->).
    by rewrite bset_eq in Ev.
Qed.

(** ** A miss *)

Lemma find_rev_split (test : nat -> bool) (l : list nat) b : find test (rev l) = Some b ->
  exists l1 l2, l = l1 ++ b :: l2 /\ test b = true /\ Forall (fun i => test i = false) l2.
Proof.
  induction l as [|a l IH] using rev_ind; [done|]. rewrite rev_app_distr. simpl. destruct (test a) eqn:E.
  - intros [= <-]. by exists l, [].
  - intros H. destruct (IH H) as (l1 & l2 & -> & Hb & Hl2). exists l1, (l2 ++ [a]). split; [by rewrite <- app_assoc|].
    split; [done|]. apply Forall_app. by split; [|apply Forall_singleton].
Qed.

Lemma bget_panics `{DiskOps} s c cur order dev bno : calm s c cur [] -> cache_ok (k_files s) order ->
  find (passes (is_block dev bno) (bufs s)) order = None -> find (passes unused (bufs s)) (rev order) = None ->
  bget dev bno s = Err (Panic "bget: no buffers").
Proof.
  intros Hc Hok Hno Hf. pose proof (co_lru _ _ Hok) as Hlru.
  pose proof (cache_free s c cur [] Hc ltac:(set_solver)) as Hfr.
  destruct (calm_acquire s c cur [] LBcache Hc Hfr ltac:(simpl; lia)) as [E Hc1].
  unfold bget. rewrite (bind_ok _ _ _ _ _ E). set (s1 := s <| k_mach := acq (k_mach s) c LBcache |>) in *.
  rewrite (bind_bind_ok _ _ _ _ _ _ (scan_hit s1 order (is_block dev bno) Hlru)).
  change (bufs s1) with (bufs s). rewrite Hno.
  rewrite (bind_bind_ok _ _ _ _ _ _ (scan_free s1 order unused Hlru)).
  change (bufs s1) with (bufs s). by rewrite Hf.
Qed.

(** Replacement.  When no buffer has the block, bget takes the least recently used of
    the buffers nobody refers to (every buffer behind it in the list is in use), gives it to
    the block with one reference and returns it locked; it panics exactly when every buffer
    is in use. *)
Theorem bget_takes_lru `{DiskLaws} s c cur p order bno : calm s c cur [] -> k_procs s !! cur = Some p ->
  cache_ok (k_files s) order ->
  (forall b x, (b < NBUF)%nat -> bufs s !! b = Some x -> is_block ROOTDEV bno x = false) ->
  (bget ROOTDEV bno s = Err (Panic "bget: no buffers") /\
   forall b x, (b < NBUF)%nat -> bufs s !! b = Some x -> b_refcnt x <> 0) \/
  exists b x l1 l2 s', bget ROOTDEV bno s = Ok b s' /\ order = l1 ++ b :: l2 /\
    bufs s !! b = Some x /\ b_refcnt x = 0 /\
    Forall (fun i => exists y, bufs s !! i = Some y /\ b_refcnt y <> 0) l2 /\
    bufs s' !! b = Some (x <| b_dev := ROOTDEV |> <| b_blockno := bno |> <| b_valid := 0 |> <| b_refcnt := 1 |>) /\
    (forall i, i <> b -> bufs s' !! i = bufs s !! i) /\
    (exists nm, fs_sleep (k_files s') !! b = Some (Sleeplock 1 nm (p_pid p))).
Proof.
  intros Hc Hp Hok Hmiss. pose proof (co_lru _ _ Hok) as Hlru.
  assert (Hno : find (passes (is_block ROOTDEV bno) (bufs s)) order = None).
  { destruct (find _ order) as [b|] eqn:E; [|done]. destruct (find_in_order _ _ _ _ Hlru E) as [Hb (x & Hx & Ht)].
    by rewrite (Hmiss b x) in Ht. }
  destruct (find (passes unused (bufs s)) (rev order)) as [b|] eqn:Ef.
  - right. destruct (find_rev_split _ _ _ Ef) as (l1 & l2 & Ho & Hb & Hl2).
    assert (Hall : forall i, i ∈ order -> exists y, bufs s !! i = Some y).
    { intros i Hi. apply (lru_in _ _ _ Hlru) in Hi. destruct (lru_lookup _ _ i Hlru ltac:(lia)) as [y Hy]. by exists y. }
    assert (Hbo : b ∈ order) by (rewrite Ho; set_solver).
    destruct (Hall b Hbo) as [x Hx]. pose proof (proj1 (lru_in _ _ _ Hlru) Hbo) as Hbl.
    unfold passes in Hb. rewrite Hx in Hb. unfold unused in Hb. apply Z.eqb_eq in Hb.
    destruct (bo_free _ _ _ (co_buf _ _ Hok b x Hbl Hx) Hb) as (l & Hl & Hl0).
    exists b, x, l1, l2. eexists. split; [by apply (bget_recycle s c cur p order ROOTDEV bno b x l)|].
    split_and!; try done.
    + rewrite Forall_forall in Hl2 |- *. intros i Hi. specialize (Hl2 i Hi).
      destruct (Hall i) as [y Hy]; [rewrite Ho; set_solver|]. exists y. split; [done|].
      unfold passes in Hl2. rewrite Hy in Hl2. by apply Z.eqb_neq.
    + rewrite got_lookup; [by rewrite decide_True|]. by apply lookup_lt_Some in Hx.
    + intros i Hne. rewrite got_lookup; [by rewrite decide_False|]. by apply lookup_lt_Some in Hx.
    + destruct l as [lk nm pid]. exists nm. rewrite got_sleep; [by rewrite decide_True|]. by apply lookup_lt_Some in Hl.
  - left. split; [by apply (bget_panics s c cur order)|]. intros b x Hb Hx.
    apply (lru_in _ _ _ Hlru), elem_of_rev, list_elem_of_In in Hb.
    pose proof (find_none _ _ Ef b Hb) as Hn. unfold passes in Hn. rewrite Hx in Hn. by apply Z.eqb_neq.
Qed.

(** ** binit *)

Section init.
Implicit Types (s : kern) (bs : list buf) (b : nat).

Definition push bs b : list buf :=
  let bs1 := set_prev (set_next bs b (nxt bs HEAD)) b HEAD in
  set_next (set_prev bs1 (nxt bs1 HEAD) b) HEAD b.

Lemma push_chain bs l b : length bs = S NBUF -> chain (nxt bs) (prv bs) HEAD l HEAD -> NoDup (HEAD :: l) ->
  (forall i, i ∈ l -> (i < NBUF)%nat) -> (b < NBUF)%nat -> b ∉ l ->
  length (push bs b) = S NBUF /\ core <$> push bs b = core <$> bs /\
  chain (nxt (push bs b)) (prv (push bs b)) HEAD (b :: l) HEAD.
Proof.
  intros Hlen Hch Hnd Hl Hb Hbl. unfold push. cbv zeta. set (f := nxt bs HEAD).
  assert (Hf : (f < S NBUF)%nat).
  { unfold f. rewrite (chain_next _ _ _ _ _ Hch). destruct l as [|a l]; simpl; [unfold HEAD; lia|].
    specialize (Hl a). set_unfold. specialize (Hl (or_introl eq_refl)). lia. }
  assert (Hbh : b <> HEAD) by (unfold HEAD; lia).
  assert (Ef : nxt (set_prev (set_next bs b f) b HEAD) HEAD = f).
  { rewrite nxt_set_prev, nxt_set_next by lia. by rewrite upd_ne. }
  rewrite Ef. split_and!.
  - by rewrite length_set_next, length_set_prev, length_set_prev, length_set_next.
  - by rewrite core_set_next, core_set_prev, core_set_prev, core_set_next.
  - eapply chain_ext; [apply (chain_push _ _ HEAD l b Hch Hnd)| |].
    + intros [?|?]%elem_of_cons; [done|done].
    + intros i. rewrite nxt_set_next by (rewrite ?length_set_prev, ?length_set_next; unfold HEAD; lia).
      unfold upd at 1 2. case_decide; [done|]. rewrite !nxt_set_prev. apply nxt_set_next. lia.
    + intros i. rewrite prv_set_next. rewrite prv_set_prev by (rewrite ?length_set_prev, ?length_set_next; lia).
      fold f. destruct (decide (i = f)) as [->|]; [by rewrite !upd_eq|]. rewrite !(upd_ne _ f) by done.
      rewrite prv_set_prev by (rewrite length_set_next; lia).
      unfold upd. case_decide; [done|]. apply prv_set_next.
Qed.

(** The state of binit after [k] turns of its loop. *)
Record binit_at s0 (k : nat) s : Prop := {
  ia_len : length (bufs s) = S NBUF;
  ia_core : core <$> bufs s = core <$> bufs s0;
  ia_chain : chain (nxt (bufs s)) (prv (bufs s)) HEAD (rev (seq 0 k)) HEAD;
  ia_sleep : length (fs_sleep (k_files s)) = (NBUF + NINODE)%nat;
  ia_unlocked : forall b, (b < k)%nat -> fs_sleep (k_files s) !! b = Some (Sleeplock 0 "buffer" 0);
  ia_lock : lk_free (k_mach s) LBcache;
  ia_disk : fs_disk (k_files s) = fs_disk (k_files s0)
}.

Lemma initsleeplock_run s i name : (i < length (fs_sleep (k_files s)))%nat ->
  exists s', initsleeplock i name s = Ok tt s' /\ bufs s' = bufs s /\ fs_disk (k_files s') = fs_disk (k_files s) /\
    fs_sleep (k_files s') = <[i := Sleeplock 0 name 0]> (fs_sleep (k_files s)) /\
    m_locks (k_mach s') = <[LSleep i := Spinlock 0 "sleep lock" None]> (m_locks (k_mach s)).
Proof.
  intros Hi. destruct (lookup_lt_is_Some_2 _ _ Hi) as [l El]. unfold initsleeplock.
  set (s1 := s <| k_mach := k_mach s <| m_locks ::= insert (LSleep i) (Spinlock 0 "sleep lock" None) |> |>).
  rewrite (bind_ok _ _ _ tt s1) by done. assert (E1 : fs_sleep (k_files s1) !! i = Some l) by done.
  eexists. split.
  - rewrite (bind_ok _ _ _ _ _ (sl_set_run i _ s1 l E1)). rewrite (bind_ok _ _ _ _ _ (sl_set_run i _ _ _ (set_sleep_lookup i s1 _ l E1))).
    rewrite set_sleep_twice. exact (sl_set_run i _ _ _ (set_sleep_lookup i s1 _ l E1)).
  - rewrite set_sleep_twice. split_and!; done.
Qed.

Lemma binit_turn s0 s b : binit_at s0 b s -> (b < NBUF)%nat ->
  runs (first <- buf_get HEAD b_next ;;
    buf_set b (fun x => x <| b_next := first |>) ;;;
    buf_set b (fun x => x <| b_prev := HEAD |>) ;;;
    initsleeplock (buf_lock b) "buffer" ;;;
    first <- buf_get HEAD b_next ;;
    buf_set first (fun x => x <| b_prev := b |>) ;;;
    buf_set HEAD (fun x => x <| b_next := b |>)) s (fun _ s' => binit_at s0 (S b) s').
Proof.
  intros [Hlen Hcore Hch Hsl Hun Hlk Hd] Hb.
  assert (Hin : forall i, i ∈ rev (seq 0 b) -> (i < b)%nat) by (intros i Hi; rewrite elem_of_rev, elem_of_seq in Hi; lia).
  destruct (push_chain (bufs s) (rev (seq 0 b)) b Hlen Hch) as (Hl' & Hc' & Hch'); [|..].
  { apply NoDup_cons. split; [intros Hi%Hin; unfold HEAD in Hi; lia|]. rewrite <- Permutation_rev. apply NoDup_seq. }
  { intros i Hi%Hin. lia. }
  { done. }
  { intros Hi%Hin. lia. }
  assert (Hh : (HEAD < length (bufs s))%nat) by (rewrite Hlen; unfold HEAD; lia).
  destruct (initsleeplock_run (set_bufs s (set_prev (set_next (bufs s) b (nxt (bufs s) HEAD)) b HEAD)) b "buffer") as
    (s2 & E2 & Hb2 & Hd2 & Hsl2 & Hlk2); [simpl; lia|].
  assert (Hlen2 : length (bufs s2) = S NBUF) by (rewrite Hb2, bufs_set, length_set_prev, length_set_next; done).
  assert (Hf2 : (nxt (bufs s2) HEAD < length (bufs s2))%nat).
  { rewrite Hb2, bufs_set. rewrite nxt_set_prev, nxt_set_next by lia. rewrite upd_ne by (unfold HEAD; lia).
    rewrite length_set_prev, length_set_next, (chain_next _ _ _ _ _ Hch), Hlen.
    destruct (rev (seq 0 b)) as [|a l] eqn:El; simpl; [unfold HEAD; lia|]. specialize (Hin a ltac:(set_solver)). lia. }
  eapply (runs_ok _ _ _ tt (set_bufs s2 (push (bufs s) b))).
  - rewrite (bind_ok _ _ _ _ _ (get_next s HEAD Hh)).
    rewrite (bind_ok _ _ _ _ _ (buf_set_run _ s b ltac:(lia))). fold (set_next (bufs s) b (nxt (bufs s) HEAD)).
    set (s1 := set_bufs s _). assert (Hb1 : (b < length (bufs s1))%nat) by (unfold s1; rewrite bufs_set, length_set_next; lia).
    rewrite (bind_ok _ _ _ _ _ (buf_set_run _ s1 b Hb1)).
    change (alter (fun x => x <| b_prev := HEAD |>) b (bufs s1)) with (set_prev (set_next (bufs s) b (nxt (bufs s) HEAD)) b HEAD).
    unfold s1. rewrite set_bufs_twice. rewrite (bind_ok _ _ _ _ _ E2).
    rewrite (bind_ok _ _ _ _ _ (get_next s2 HEAD ltac:(rewrite Hlen2; unfold HEAD; lia))).
    rewrite (bind_ok _ _ _ _ _ (buf_set_run _ s2 _ Hf2)).
    set (s3 := set_bufs s2 _). assert (Hh3 : (HEAD < length (bufs s3))%nat) by (unfold s3; rewrite bufs_set, length_alter, Hlen2; unfold HEAD; lia).
    rewrite (buf_set_run _ s3 HEAD Hh3). unfold s3. rewrite set_bufs_twice, bufs_set, Hb2, bufs_set. done.
  - split.
    + by rewrite bufs_set.
    + by rewrite bufs_set, Hc'.
    + rewrite bufs_set. rewrite seq_S, rev_app_distr. exact Hch'.
    + simpl. rewrite Hsl2, length_insert. done.
    + intros i Hi. simpl. rewrite Hsl2. destruct (decide (i = b)) as [->|Hne].
      * apply list_lookup_insert_eq. simpl. lia.
      * rewrite list_lookup_insert_ne by done. apply Hun. lia.
    + destruct Hlk as [nm E]. exists nm. simpl. rewrite Hlk2. by rewrite lookup_insert_ne.
    + simpl. by rewrite Hd2.
Qed.
End init.

(** binit turns zeroed buffers into an empty cache: the circular list holds every buffer
    exactly once, no buffer is in use or locked, and the file system's view of every block
    is what the disk has. *)
Theorem binit_cache s p : length (bufs s) = S NBUF -> length (fs_sleep (k_files s)) = (NBUF + NINODE)%nat ->
  (forall b x, bufs s !! b = Some x -> b_refcnt x = 0 /\ b_valid x = 0 /\ b_dev x = 0 /\ length (b_data x) = Z.to_nat BSIZE) ->
  (forall n, length (ondisk s n) = Z.to_nat BSIZE) ->
  exists s', binit s = Ok tt s' /\ lru (bufs s') (rev (seq 0 NBUF)) /\ binv s' p ∅ ∅ /\ lk_free (k_mach s') LBcache /\
    (forall n, view s' n = ondisk s n) /\ fs_disk (k_files s') = fs_disk (k_files s).
Proof.
  intros Hlen Hsl Hzero Hdisk.
  assert (Hrun : runs binit s (fun _ s' => binit_at s NBUF s')).
  { unfold binit. set (s1 := s <| k_mach := k_mach s <| m_locks ::= insert LBcache (Spinlock 0 "bcache" None) |> |>).
    apply runs_bind, (runs_ok _ _ _ tt s1); [done|].
    assert (Hh : (HEAD < length (bufs s1))%nat) by (change (bufs s1) with (bufs s); rewrite Hlen; unfold HEAD; lia).
    apply runs_bind, (runs_ok _ _ _ _ _ (buf_set_run _ s1 HEAD Hh)).
    fold (set_prev (bufs s1) HEAD HEAD). set (s2 := set_bufs s1 _).
    assert (Hh2 : (HEAD < length (bufs s2))%nat) by (unfold s2; rewrite bufs_set, length_set_prev; done).
    apply runs_bind, (runs_ok _ _ _ _ _ (buf_set_run _ s2 HEAD Hh2)).
    set (s3 := set_bufs s2 _). assert (Hb3 : bufs s3 = set_next (set_prev (bufs s) HEAD HEAD) HEAD HEAD) by done.
    apply (runs_for (binit_at s)); [|intros i s' Hi Hat; by apply binit_turn|done]. split.
    - by rewrite Hb3, length_set_next, length_set_prev.
    - by rewrite Hb3, core_set_next, core_set_prev.
    - rewrite Hb3. simpl. rewrite nxt_set_next, prv_set_next, prv_set_prev by (rewrite ?length_set_prev; done). by rewrite !upd_eq.
    - done.
    - intros b Hb. lia.
    - exists "bcache"%string. simpl. apply lookup_insert_eq.
    - done. }
  apply runs_inv in Hrun as ([] & s' & E & Hat). pose proof Hat as [Hl Hc Hch Hs Hu Hlk Hd].
  assert (Hx : forall b x, bufs s' !! b = Some x -> b_refcnt x = 0 /\ b_valid x = 0 /\ b_dev x = 0 /\ length (b_data x) = Z.to_nat BSIZE).
  { intros b x Hbx. assert (Hcx : (core <$> bufs s') !! b = Some (core x)) by (by rewrite list_lookup_fmap, Hbx).
    rewrite Hc, list_lookup_fmap in Hcx. destruct (bufs s !! b) as [y|] eqn:Ey; [|done]. simpl in Hcx. apply (inj Some) in Hcx.
    destruct (Hzero b y Ey) as (H1 & H2 & H3 & H4). destruct x, y. unfold core in Hcx. simpl in *. injection Hcx as -> -> -> -> -> ->. done. }
  assert (Hlru : lru (bufs s') (rev (seq 0 NBUF))) by (split; [done|symmetry; apply Permutation_rev|done]).
  assert (Hdk : forall n, dblock (d_data (fs_disk (k_files s'))) n = ondisk s n) by (intros n; by rewrite Hd).
  exists s'. split_and!; try done.
  - split; try done.
    + exists (rev (seq 0 NBUF)). split; try done.
      * intros b x Hb Hbx. destruct (Hx b x Hbx) as (H1 & H2 & H3 & H4). split; try done; [lia|by left|congruence| |congruence].
        intros _. eexists. split; [by apply Hu|done].
      * intros b b' x x' _ _ Hbx _ _ _ Hne. by destruct (Hx b x Hbx) as (_ & _ & ? & _).
      * intros n. rewrite Hdk. apply Hdisk.
    + intros b x Hb Hbx. destruct (Hx b x Hbx) as (-> & Hv & _). unfold pinned, holds.
      rewrite !bool_decide_false; [done|by rewrite lookup_empty|set_solver].
    + intros b Hb _. eexists. split; [by apply Hu|done].
  - intros n. rewrite <- Hdk. unfold view, blk. destruct (find _ (seq 0 NBUF)) as [b|] eqn:Ef; [|done].
    apply find_some in Ef as [_ Hp]. unfold passes in Hp. change (fs_bufs (k_files s')) with (bufs s') in Hp.
    destruct (bufs s' !! b) as [x|] eqn:Ex; [|done]. apply cached_true in Hp as (Hdev & _).
    destruct (Hx b x Ex) as (_ & _ & H3 & _). rewrite H3 in Hdev. done.
Qed.

(** ** Example: the cache of the example kernel *)

Lemma ex_disk_wf : disk_wf ∅.
Proof. apply map_Forall_empty. Qed.
Definition ex_edit (d : list Z) : list Z := <[0%nat := 7]> d.

Lemma cache_transparent_witness : exists s', @update_block ideal_disk 45 ex_edit (fs_kern (fs_files ∅)) = Ok tt s' /\
  view s' 45 = ex_edit block0.
Proof.
  assert (Hl : length (ex_edit (view (fs_kern (fs_files ∅)) 45)) = Z.to_nat BSIZE).
  { unfold ex_edit. rewrite length_insert. apply (binv_size _ (ex_proc 1 RUNNING) ∅ ∅). by apply fs_binv, ex_disk_wf. }
  destruct (cache_transparent (H := ideal_disk) (H0 := ideal_laws) (fs_kern (fs_files ∅)) (ex_cpu (Some 0%nat)) 0
    (ex_proc 1 RUNNING) ∅ 45 ex_edit (fs_calm _) eq_refl (fs_binv _ _ ex_disk_wf) ltac:(set_solver)
    ltac:(rewrite size_empty; change NBUF with 30%nat; lia) Hl) as (s' & E & _ & _ & _ & Hv & _).
  exists s'. split; [exact E|]. rewrite Hv, decide_True by reflexivity. reflexivity.
Defined.

Lemma bget_takes_lru_witness : exists b s', @bget ROOTDEV 45 (fs_kern (fs_files ∅)) = Ok b s' /\
  exists l1 l2, ring_order = l1 ++ b :: l2.
Proof.
  assert (Hmiss : forall b x, (b < NBUF)%nat -> bufs (fs_kern (fs_files ∅)) !! b = Some x -> is_block ROOTDEV 45 x = false).
  { intros b x _ Hx. apply ring_lookup in Hx as [-> _]. reflexivity. }
  destruct (bget_takes_lru (H := ideal_disk) (H0 := ideal_laws) (fs_kern (fs_files ∅)) (ex_cpu (Some 0%nat)) 0
    (ex_proc 1 RUNNING) ring_order 45 (fs_calm _) eq_refl (fs_cache ∅ ex_disk_wf) Hmiss)
    as [[_ Hall]|(b & x & l1 & l2 & s' & E & Ho & _)].
  - exfalso. apply (Hall 0%nat (ring_buf 0)); [change NBUF with 30%nat; lia|reflexivity|reflexivity].
  - exists b, s'. split; [exact E|]. exists l1, l2. exact Ho.
Defined.

Definition zero_files : files := fs_files ∅ <| fs_bufs := replicate (S NBUF) buf0 |>.
Lemma binit_cache_witness : exists s', binit (fs_kern zero_files) = Ok tt s' /\ lru (bufs s') (rev (seq 0 NBUF)).
Proof.
  destruct (binit_cache (fs_kern zero_files) (ex_proc 1 RUNNING)) as (s' & E & Hl & _).
  - reflexivity.
  - reflexivity.
  - intros b x Hx. apply lookup_replicate in Hx as [-> _]. split; [reflexivity|]. split; [reflexivity|]. split; reflexivity.
  - intros n. exact (dblock_len ∅ n ex_disk_wf).
  - exists s'. split; [exact E|exact Hl].
Defined.
