(* ===== verification/LogSpec.v ===== *)
(** * The log is crash-safe

    What the functions of kernel/log.c write to the disk, block by block, and what recovery
    makes of a disk on which only a prefix of the writes of a commit arrived. *)

From S2P Require Import Prelude Riscv CString Kalloc Vm Spinlock Proc ProcSpec Headers Codec Sleeplock Bio.
From S2P Require Import BioSpec Bcache Log Blocks.

(** ** The log area and the writes of a commit *)

(** The blocks of the log: the header and one block per entry. *)
Definition log_area (l : logstate) (n : Z) : Prop := l_start l <= n < l_start l + l_size l.
Definition slot (l : logstate) (i : nat) : Z := l_start l + Z.of_nat i + 1.
Definition homes (l : logstate) : list Z := take (Z.to_nat (l_n l)) (l_block l).

Record log_wf (l : logstate) : Prop := {
  lw_dev : l_dev l = ROOTDEV;
  lw_start : 0 <= l_start l < 2 ^ 31 - LOGSIZE;
  lw_size : 1 <= l_size l <= LOGSIZE;
  lw_len : length (l_block l) = Z.to_nat LOGSIZE;
  lw_n : 0 <= l_n l < l_size l;
  lw_homes : Forall (fun h => 0 <= h < 2 ^ 31 /\ ~ log_area l h) (homes l)
}.

Definition enc_head (data : list Z) (bl : list Z) : list Z :=
  foldl (fun d e => set_hb_block d e.1 e.2) (set_hb_n data (Z.of_nat (length bl)))
    (zip (seq 0 (length bl)) bl).

Definition log_writes (V : contents) (l : logstate) : list (Z * list Z) :=
  imap (fun i h => (slot l i, V h)) (homes l).
Definition home_writes (V : contents) (l : logstate) : list (Z * list Z) :=
  imap (fun i h => (h, V (slot l i))) (homes l).

(** ** Header blocks *)

Section header.
Implicit Types (data bl : list Z).

Lemma length_set_hb_n data v : length (set_hb_n data v) = length data.
Proof. apply length_put_le. Qed.
Lemma length_set_hb_block data i v : length (set_hb_block data i v) = length data.
Proof. apply length_put_le. Qed.

(** The header when the first [k] entries of [bl] have been stored. *)
Definition part_head data bl k : list Z :=
  foldl (fun d e => set_hb_block d e.1 e.2) (set_hb_n data (Z.of_nat (length bl)))
    (take k (zip (seq 0 (length bl)) bl)).

Lemma zip_seq_lookup bl k v : bl !! k = Some v -> zip (seq 0 (length bl)) bl !! k = Some (k, v).
Proof.
  intros Hk. apply lookup_zip_Some. split; [|done]. apply lookup_seq. apply lookup_lt_Some in Hk. lia.
Qed.
Lemma part_head_S data bl k v : bl !! k = Some v ->
  part_head data bl (S k) = set_hb_block (part_head data bl k) k v.
Proof.
  intros Hk. unfold part_head. rewrite (take_S_r _ _ (k, v)) by (by apply zip_seq_lookup).
  by rewrite foldl_app.
Qed.
Lemma part_head_all data bl : part_head data bl (length bl) = enc_head data bl.
Proof.
  unfold part_head, enc_head. rewrite take_ge; [done|]. rewrite length_zip, length_seq. lia.
Qed.
Lemma length_part_head data bl k : length (part_head data bl k) = length data.
Proof.
  unfold part_head. generalize (take k (zip (seq 0 (length bl)) bl)). intros l.
  rewrite <- (length_set_hb_n data (Z.of_nat (length bl))).
  generalize (set_hb_n data (Z.of_nat (length bl))). induction l as [|e l IH]; intros d; [done|].
  simpl. by rewrite IH, length_set_hb_block.
Qed.
Lemma length_enc_head data bl : length (enc_head data bl) = length data.
Proof. rewrite <- part_head_all. apply length_part_head. Qed.

Lemma part_head_n data bl k : (124 <= length data)%nat -> (k <= length bl)%nat -> (length bl <= 30)%nat ->
  hb_n (part_head data bl k) = Z.of_nat (length bl).
Proof.
  intros Hd Hk Hbl. induction k as [|k IH].
  - unfold part_head, hb_n, set_hb_n. simpl. apply i32_get_put; [lia|]. lia.
  - destruct (lookup_lt_is_Some_2 bl k ltac:(lia)) as [v Hv]. rewrite (part_head_S _ _ _ v Hv).
    rewrite <- IH by lia. unfold hb_n, set_hb_block. by rewrite get_put_other by lia.
Qed.
Lemma part_head_block data bl k i v : (124 <= length data)%nat -> (k <= length bl)%nat ->
  (length bl <= 30)%nat -> Forall (fun h => 0 <= h < 2 ^ 31) bl -> (i < k)%nat -> bl !! i = Some v ->
  hb_block (part_head data bl k) i = v.
Proof.
  intros Hd Hk Hbl Hr. induction k as [|k IH]; intros Hi Hv; [lia|].
  destruct (lookup_lt_is_Some_2 bl k ltac:(lia)) as [w Hw]. rewrite (part_head_S _ _ _ w Hw).
  unfold hb_block, set_hb_block. destruct (decide (i = k)) as [->|Hne].
  - rewrite Hv in Hw. injection Hw as <-. rewrite Forall_lookup in Hr. specialize (Hr k v Hv).
    apply i32_get_put; [rewrite length_part_head; lia|lia].
  - rewrite get_put_other by lia. apply IH; [lia|lia|done].
Qed.

(** What read_head makes of a header block. *)
Definition dec_head (data : list Z) : list Z := hb_block data <$> seq 0 (Z.to_nat (hb_n data)).

Lemma enc_head_n data bl : (124 <= length data)%nat -> (length bl <= 30)%nat ->
  hb_n (enc_head data bl) = Z.of_nat (length bl).
Proof. intros. rewrite <- part_head_all. by apply part_head_n. Qed.
Lemma dec_enc_head data bl : (124 <= length data)%nat -> (length bl <= 30)%nat ->
  Forall (fun h => 0 <= h < 2 ^ 31) bl -> dec_head (enc_head data bl) = bl.
Proof.
  intros Hd Hl Hr. unfold dec_head. rewrite enc_head_n, Nat2Z.id by done. apply list_eq. intros i.
  rewrite list_lookup_fmap. destruct (bl !! i) as [v|] eqn:E.
  - rewrite lookup_seq_lt by (by eapply lookup_lt_Some). simpl. f_equal. rewrite <- part_head_all.
    apply part_head_block; try done. by eapply lookup_lt_Some.
  - apply lookup_ge_None in E. by rewrite lookup_seq_ge by lia.
Qed.

End header.

(** ** Lemmas on the writes *)

Section writes.
Implicit Types (V : contents) (l : logstate) (d : disk).

Lemma homes_lookup l i h : homes l !! i = Some h -> l_block l !! i = Some h /\ (i < Z.to_nat (l_n l))%nat.
Proof.
  unfold homes. intros E. pose proof (lookup_lt_Some _ _ _ E) as Hl. rewrite length_take in Hl.
  rewrite lookup_take_lt in E by lia. split; [done|lia].
Qed.
Lemma length_homes l : log_wf l -> length (homes l) = Z.to_nat (l_n l).
Proof.
  intros W. unfold homes. rewrite length_take, (lw_len _ W). destruct (lw_n _ W), (lw_size _ W). lia.
Qed.
Lemma homes_ok l i h : log_wf l -> homes l !! i = Some h -> 0 <= h < 2 ^ 31 /\ ~ log_area l h.
Proof. intros W E. pose proof (lw_homes _ W) as F. rewrite Forall_lookup in F. by apply (F i). Qed.
Lemma homes_get l i : log_wf l -> (i < Z.to_nat (l_n l))%nat ->
  exists h, homes l !! i = Some h /\ l_block l !! i = Some h /\ 0 <= h < 2 ^ 31 /\ ~ log_area l h.
Proof.
  intros W Hi. destruct (lookup_lt_is_Some_2 (homes l) i) as [h Hh]; [by rewrite length_homes|].
  exists h. destruct (homes_lookup l i h Hh), (homes_ok l i h W Hh). done.
Qed.
Lemma slot_area l i : log_wf l -> (i < Z.to_nat (l_n l))%nat -> log_area l (slot l i) /\ slot l i <> l_start l.
Proof. intros W Hi. pose proof (lw_n _ W). unfold log_area, slot. lia. Qed.
Lemma slot_u32 l i : log_wf l -> (i < Z.to_nat (l_n l))%nat -> u32 (l_start l + Z.of_nat i + 1) = slot l i.
Proof.
  intros W Hi. pose proof (lw_n _ W). pose proof (lw_start _ W). pose proof (lw_size _ W). unfold LOGSIZE, MAXOPBLOCKS in *.
  unfold slot; apply u32_small. lia.
Qed.

Lemma log_writes_keys V l n : log_wf l -> ~ log_area l n -> n ∉ (log_writes V l).*1.
Proof.
  intros W Hn Hin. apply list_elem_of_fmap in Hin as ([k v] & -> & Hin). apply Hn.
  apply list_elem_of_lookup in Hin as [i Hi]. unfold log_writes in Hi. rewrite list_lookup_imap in Hi.
  destruct (homes l !! i) as [h|] eqn:E; [|done]. injection Hi as <- <-.
  apply slot_area; [done|]. by apply homes_lookup in E as [_ ?].
Qed.
Lemma log_writes_head V l : log_wf l -> l_start l ∉ (log_writes V l).*1.
Proof.
  intros W Hin. apply list_elem_of_fmap in Hin as ([k v] & E & Hin).
  apply list_elem_of_lookup in Hin as [i Hi]. unfold log_writes in Hi. rewrite list_lookup_imap in Hi.
  destruct (homes l !! i) as [h|] eqn:Eh; [|done]. injection Hi as <- <-. simpl in E.
  apply homes_lookup in Eh as [_ ?]. by destruct (slot_area l i W).
Qed.
Lemma home_writes_keys V l n : log_wf l -> log_area l n -> n ∉ (home_writes V l).*1.
Proof.
  intros W Hn Hin. apply list_elem_of_fmap in Hin as ([k v] & -> & Hin).
  apply list_elem_of_lookup in Hin as [i Hi]. unfold home_writes in Hi. rewrite list_lookup_imap in Hi.
  destruct (homes l !! i) as [h|] eqn:E; [|done]. injection Hi as <- <-.
  by destruct (homes_ok l i h W E).
Qed.
Lemma after_take V (ws : list (Z * list Z)) i w : ws !! i = Some w ->
  after V (take (S i) ws) = bset (after V (take i ws)) w.1 w.2.
Proof. intros E. rewrite (take_S_r _ _ w E). by rewrite after_app. Qed.
Lemma write_all_take d (ws : list (Z * list Z)) i w : ws !! i = Some w ->
  write_all d (take (S i) ws) = write_block (write_all d (take i ws)) w.1 w.2.
Proof. intros E. rewrite (take_S_r _ _ w E). by rewrite write_all_app. Qed.
Lemma after_take_out V (ws : list (Z * list Z)) i n : n ∉ ws.*1 -> after V (take i ws) n = V n.
Proof.
  intros Hn. apply after_out. intros Hin. apply Hn. rewrite fmap_take in Hin.
  rewrite <- (take_drop i (ws.*1)). apply elem_of_app. by left.
Qed.

End writes.

(** ** The functions of kernel/log.c *)

Section ops.
Context {D : DiskOps} {DL : DiskLaws} (c : cpu) (cur : nat) (p : proc).
Implicit Types (s : kern) (H : gmap Z nat) (P : gset Z) (V : contents) (d : disk).

Lemma lh_block_tri s0 H P V d s i h : blocks c cur p s0 H P V d s -> l_block (fs_log (k_files s0)) !! i = Some h ->
  runs (lh_block i) s (fun v s' => v = h /\ s' = s).
Proof.
  intros B Hh. unfold lh_block. apply runs_bind. eapply runs_conseq; [by apply (log_get_tri c cur p l_block s0 H P V d)|].
  intros ? ? [-> ->]. rewrite Hh. by apply runs_ret.
Qed.


Lemma write_log_body s0 P V d s i h :
  let l := fs_log (k_files s0) in
  blocks c cur p s0 ∅ P V d s -> log_wf l -> (size P < NBUF)%nat -> homes l !! i = Some h -> h ∈ P ->
  runs (dev <- log_get l_dev ;; start <- log_get l_start ;;
    to <- bread (u32 dev) (u32 (start + Z.of_nat i + 1)) ;;
    home <- lh_block i ;; from <- bread (u32 dev) (u32 home) ;; data <- buf_get from b_data ;;
    buf_set to (fun x => x <| b_data := data |>) ;;; bwrite to ;;; brelse from ;;; brelse to) s
    (fun _ s' => blocks c cur p s0 ∅ P (bset V (slot l i) (V h)) (write_block d (slot l i) (V h)) s').
Proof.
  intros l B W Hsz Hh HhP. destruct (homes_lookup l i h Hh) as [Hb Hi].
  destruct (homes_ok l i h W Hh) as [Hr Ha]. destruct (slot_area l i W Hi) as [Hsa _].
  assert (Hne : slot l i <> h) by congruence.
  step @log_get_tri. intros ? ? [-> ->]. step @log_get_tri. intros ? ? [-> ->].
  fold l. rewrite (lw_dev _ W), (slot_u32 l i W Hi). change (u32 ROOTDEV) with ROOTDEV.
  step @bread_tri. { right. rewrite dom_empty_L. by rewrite (right_id_L ∅ (∪)). }
  intros to s1 B1. step @lh_block_tri. intros ? ? [-> ->]. rewrite u32_small by lia.
  step @bread_tri; [by rewrite lookup_insert_ne|by left|]. intros from s2 B2.
  step (data_tri c cur p s0 _ P V d s2 h from); [by rewrite lookup_insert_eq|]. intros ? ? [-> ->].
  step (edit_tri c cur p s0 _ P V d s2 (slot l i) to (fun _ => V h));
    [by rewrite lookup_insert_ne, lookup_insert_eq by done|apply (blocks_size c cur p _ _ _ _ _ _ h B2)|].
  intros _ s3 B3.
  step (bwrite_tri c cur p s0 _ P _ d s3 (slot l i) to);
    [by rewrite lookup_insert_ne, lookup_insert_eq by done|]. rewrite bset_eq. intros _ s4 B4.
  step (brelse_tri c cur p s0 _ P _ _ s4 h from); [by rewrite lookup_insert_eq|by left|]. intros _ s5 B5.
  rewrite delete_insert_id in B5 by (by rewrite lookup_insert_ne).
  eapply runs_conseq; [eapply (brelse_tri c cur p s0 _ P _ _ s5 (slot l i) to B5); [by rewrite lookup_insert_eq|]|].
  - right. by rewrite bset_eq, content_write, bset_eq.
  - cbv beta. intros _ s6 B6. by rewrite delete_insert_id in B6.
Qed.

Lemma write_log_tri s0 P V d s : let l := fs_log (k_files s0) in
  blocks c cur p s0 ∅ P V d s -> log_wf l -> (size P < NBUF)%nat -> Forall (fun h => h ∈ P) (homes l) ->
  runs write_log s (fun _ s' =>
    blocks c cur p s0 ∅ P (after V (log_writes V l)) (write_all d (log_writes V l)) s').
Proof.
  intros l B W Hsz HP. unfold write_log. step @log_get_tri. intros ? ? [-> ->]. fold l.
  set (ws := log_writes V l).
  assert (Hlen : length ws = Z.to_nat (l_n l)) by (unfold ws, log_writes; by rewrite length_imap, length_homes).
  apply (runs_for (fun i s' => blocks c cur p s0 ∅ P (after V (take i ws)) (write_all d (take i ws)) s')).
  - done.
  - intros i s' Hi B'. destruct (homes_get l i W Hi) as (h & Hh & Hb & Hr & Ha).
    assert (Hw : ws !! i = Some (slot l i, V h)) by (unfold ws, log_writes; by rewrite list_lookup_imap, Hh).
    rewrite (after_take _ _ _ _ Hw), (write_all_take _ _ _ _ Hw). simpl.
    rewrite <- (after_take_out V ws i h) by (by apply log_writes_keys).
    apply write_log_body; try done. rewrite Forall_lookup in HP. by apply (HP i).
  - intros s'. rewrite <- Hlen, take_ge by done. done.
Qed.

Lemma write_head_tri s0 P V d s : let l := fs_log (k_files s0) in
  blocks c cur p s0 ∅ P V d s -> log_wf l -> (size P < NBUF)%nat ->
  let v := enc_head (V (l_start l)) (homes l) in
  runs write_head s (fun _ s' => blocks c cur p s0 ∅ P (bset V (l_start l) v) (write_block d (l_start l) v) s').
Proof.
  intros l B W Hsz v. unfold write_head. step @log_get_tri. intros ? ? [-> ->].
  step @log_get_tri. intros ? ? [-> ->]. fold l. rewrite (lw_dev _ W). change (u32 ROOTDEV) with ROOTDEV.
  pose proof (lw_start _ W). unfold LOGSIZE, MAXOPBLOCKS in *. rewrite u32_small by lia. set (n := l_start l) in *.
  pose proof (blocks_size c cur p _ _ _ _ _ _ n B) as Hl0.
  step @bread_tri. { right. rewrite dom_empty_L. by rewrite (right_id_L ∅ (∪)). } intros b s1 B1.
  step @log_get_tri. intros ? ? [-> ->]. fold l.
  step (edit_tri c cur p s0 _ P V d s1 n b (fun v => set_hb_n v (l_n l)));
    [by rewrite lookup_insert_eq|by rewrite length_set_hb_n|]. intros _ s2 B2.
  assert (Hln : l_n l = Z.of_nat (length (homes l)))
    by (rewrite length_homes by done; pose proof (lw_n _ W); lia).
  apply runs_bind. apply (runs_for (fun i s' => blocks c cur p s0 (<[n:=b]> ∅) P
    (bset V n (part_head (V n) (homes l) i)) d s')).
  - unfold part_head. by rewrite take_0, <- Hln.
  - intros i s' Hi B'. destruct (homes_get l i W Hi) as (h & Hh & Hb & Hr & Ha).
    step @lh_block_tri. intros ? ? [-> ->]. eapply runs_conseq.
    + apply (edit_tri c cur p s0 _ P _ d s' n b (fun v => set_hb_block v i h) B'); [by rewrite lookup_insert_eq|].
      by rewrite length_set_hb_block, bset_eq, length_part_head.
    + cbv beta. intros _ s3. apply blocks_ext. intros k. rewrite bset_eq, (part_head_S _ _ _ h Hh).
      unfold bset. by case_decide.
  - intros s3 B3. rewrite Hln, Nat2Z.id, part_head_all in B3. fold v in B3.
    step (bwrite_tri c cur p s0 _ P _ d s3 n b); [by rewrite lookup_insert_eq|]. rewrite bset_eq. intros _ s4 B4.
    eapply runs_conseq; [eapply (brelse_tri c cur p s0 _ P _ _ s4 n b B4); [by rewrite lookup_insert_eq|]|].
    + right. by rewrite bset_eq, content_write, bset_eq.
    + cbv beta. intros _ s5 B5. by rewrite delete_insert_id in B5.
Qed.


Definition can_install (recovering : bool) P (h : Z) : Prop :=
  if recovering then (size P + 1 < NBUF)%nat else h ∈ P /\ (size P < NBUF)%nat.
Definition unpinned (recovering : bool) P (h : Z) : gset Z := if recovering then P else P ∖ {[h]}.

Lemma install_body r s0 P V d s i h : let l := fs_log (k_files s0) in
  blocks c cur p s0 ∅ P V d s -> log_wf l -> can_install r P h -> homes l !! i = Some h -> slot l i ∉ P ->
  runs (dev <- log_get l_dev ;; start <- log_get l_start ;;
    lbuf <- bread (u32 dev) (u32 (start + Z.of_nat i + 1)) ;;
    home <- lh_block i ;; dbuf <- bread (u32 dev) (u32 home) ;; data <- buf_get lbuf b_data ;;
    buf_set dbuf (fun x => x <| b_data := data |>) ;;; bwrite dbuf ;;;
    mwhen (negb r) (bunpin dbuf) ;;; brelse lbuf ;;; brelse dbuf) s
    (fun _ s' => blocks c cur p s0 ∅ (unpinned r P h) (bset V h (V (slot l i)))
                   (write_block d h (V (slot l i))) s').
Proof.
  intros l B W Hcan Hh HsP. destruct (homes_lookup l i h Hh) as [Hb Hi].
  destruct (homes_ok l i h W Hh) as [Hr Ha]. destruct (slot_area l i W Hi) as [Hsa _].
  assert (Hne : slot l i <> h) by congruence.
  assert (Hcl : V (slot l i) = content d (slot l i)) by (by apply (blocks_clean c cur p s0 ∅ P V d s)).
  assert (Hroom1 : (size P < NBUF)%nat) by (destruct r; simpl in Hcan; [lia|tauto]).
  assert (Hroom2 : forall to : nat, h ∈ P \/ (size (P ∪ dom (<[slot l i := to]> (∅ : gmap Z nat))) < NBUF)%nat).
  { intros to. destruct r; [right|left; apply Hcan]. rewrite dom_insert_L, dom_empty_L, (right_id_L ∅ (∪)).
    simpl in Hcan. pose proof (size_union_alt P {[slot l i]}) as E.
    assert (size ({[slot l i]} ∖ P) <= 1)%nat; [|lia].
    rewrite <- (size_singleton (C := gset Z) (slot l i)). apply subseteq_size. set_solver. }
  step @log_get_tri. intros ? ? [-> ->]. step @log_get_tri. intros ? ? [-> ->].
  fold l. rewrite (lw_dev _ W), (slot_u32 l i W Hi). change (u32 ROOTDEV) with ROOTDEV.
  step @bread_tri. { right. rewrite dom_empty_L. by rewrite (right_id_L ∅ (∪)). }
  intros lb s1 B1. step @lh_block_tri. intros ? ? [-> ->]. rewrite u32_small by lia.
  step @bread_tri; [by rewrite lookup_insert_ne|]. intros db s2 B2.
  step (data_tri c cur p s0 _ P V d s2 (slot l i) lb); [by rewrite lookup_insert_ne, lookup_insert_eq by done|].
  intros ? ? [-> ->]. set (v := V (slot l i)) in *.
  step (edit_tri c cur p s0 _ P V d s2 h db (fun _ => v));
    [by rewrite lookup_insert_eq|apply (blocks_size c cur p _ _ _ _ _ _ (slot l i) B2)|].
  intros _ s3 B3.
  step (bwrite_tri c cur p s0 _ P _ d s3 h db); [by rewrite lookup_insert_eq|]. rewrite bset_eq. intros _ s4 B4.
  apply runs_bind. apply (runs_conseq _ _ (fun _ s' => blocks c cur p s0 (<[h:=db]> (<[slot l i:=lb]> ∅))
    (unpinned r P h) (bset V h v) (write_block d h v) s')).
  { destruct r; simpl; [by apply runs_ret|]. apply bunpin_tri; [done|by rewrite lookup_insert_eq|apply Hcan]. }
  intros _ s5 B5.
  step (brelse_tri c cur p s0 _ _ _ _ s5 (slot l i) lb); [by rewrite lookup_insert_ne, lookup_insert_eq by done| |].
  { right. by rewrite content_write, !bset_ne by done. }
  rewrite delete_insert_ne, delete_insert_id by done. intros _ s6 B6.
  eapply runs_conseq; [apply (brelse_tri c cur p s0 _ _ _ _ s6 h db B6); [by rewrite lookup_insert_eq|]|].
  - right. by rewrite content_write, !bset_eq.
  - cbv beta. intros _ s7 B7. by rewrite delete_insert_id in B7.
Qed.

Definition pins (recovering : bool) P (hs : list Z) : gset Z :=
  if recovering then P else P ∖ list_to_set hs.

Lemma install_tri (r : bool) s0 P V d s : let l := fs_log (k_files s0) in
  blocks c cur p s0 ∅ P V d s -> log_wf l -> (forall n, n ∈ P -> ~ log_area l n) ->
  (if r then (size P + 1 < NBUF)%nat
   else (size P < NBUF)%nat /\ NoDup (homes l) /\ Forall (fun h => h ∈ P) (homes l)) ->
  runs (install_trans r) s (fun _ s' => blocks c cur p s0 ∅ (pins r P (homes l))
    (after V (home_writes V l)) (write_all d (home_writes V l)) s').
Proof.
  intros l B W HP Hcan. unfold install_trans. step @log_get_tri. intros ? ? [-> ->]. fold l.
  set (ws := home_writes V l).
  assert (Hlen : length ws = Z.to_nat (l_n l)) by (unfold ws, home_writes; by rewrite length_imap, length_homes).
  apply (runs_for (fun i s' => blocks c cur p s0 ∅ (pins r P (take i (homes l)))
    (after V (take i ws)) (write_all d (take i ws)) s')).
  - unfold pins. rewrite !take_0. simpl. replace (P ∖ ∅) with P by set_solver. by destruct r.
  - intros i s' Hi B'. destruct (homes_get l i W Hi) as (h & Hh & Hb & Hr & Ha).
    destruct (slot_area l i W Hi) as [Hsa _].
    assert (Hw : ws !! i = Some (h, V (slot l i))) by (unfold ws, home_writes; by rewrite list_lookup_imap, Hh).
    rewrite (after_take _ _ _ _ Hw), (write_all_take _ _ _ _ Hw). simpl.
    rewrite <- (after_take_out V ws i (slot l i)) by (by apply home_writes_keys).
    assert (Hsub : pins r P (take i (homes l)) ⊆ P) by (unfold pins; destruct r; set_solver).
    pose proof (subseteq_size _ _ Hsub) as Hsz.
    assert (E : pins r P (take (S i) (homes l)) = unpinned r (pins r P (take i (homes l))) h).
    { unfold pins, unpinned. destruct r; [done|]. rewrite (take_S_r _ _ h Hh), list_to_set_app_L. set_solver. }
    rewrite E. apply install_body; try done.
    + unfold can_install. destruct r; [lia|]. destruct Hcan as (Hs & Hnd & Hall). split; [|lia].
      rewrite Forall_lookup in Hall. unfold pins. apply elem_of_difference. split; [by apply (Hall i)|].
      rewrite elem_of_list_to_set. intros Hin. apply elem_of_take in Hin as (j & Hj & Hji).
      rewrite NoDup_alt in Hnd. specialize (Hnd i j h Hh Hj). lia.
    + intros Hin. apply (HP (slot l i)); [by apply Hsub|done].
  - intros s'. rewrite (take_ge (homes l)) by (by rewrite length_homes). by rewrite take_ge by (by rewrite Hlen).
Qed.


(** ** Commit *)

Definition head_set V (l : logstate) : list Z := enc_head (V (l_start l)) (homes l).
Definition head_cleared V (l : logstate) : list Z := enc_head (head_set V l) [].
(** Every block write of a commit, in order: the log blocks, the header, the home locations,
    and the header again, cleared. *)
Definition commit_writes V (l : logstate) : list (Z * list Z) :=
  if 0 <? l_n l then
    log_writes V l ++ [(l_start l, head_set V l)] ++ ((fun h => (h, V h)) <$> homes l) ++
    [(l_start l, head_cleared V l)]
  else [].

Lemma logged V0 V l i h : log_wf l -> homes l !! i = Some h -> after V0 (log_writes V l) (slot l i) = V h.
Proof.
  intros W Hh. apply after_in.
  - apply list_elem_of_fmap. exists (slot l i, V h). split; [done|]. apply list_elem_of_lookup. exists i.
    unfold log_writes. by rewrite list_lookup_imap, Hh.
  - intros v' Hv. apply list_elem_of_lookup in Hv as [j Hj]. unfold log_writes in Hj.
    rewrite list_lookup_imap in Hj. destruct (homes l !! j) as [h'|] eqn:E; [|done]. simpl in Hj.
    injection Hj as Es <-. unfold slot in Es. replace j with i in E by lia. congruence.
Qed.

Lemma home_writes_logged V l v : log_wf l ->
  home_writes (bset (after V (log_writes V l)) (l_start l) v) l = (fun h => (h, V h)) <$> homes l.
Proof.
  intros W. unfold home_writes. apply list_eq. intros i. rewrite list_lookup_imap, list_lookup_fmap.
  destruct (homes l !! i) as [h|] eqn:E; [|done]. simpl. f_equal. f_equal.
  destruct (homes_lookup l i h E) as [_ Hi]. destruct (slot_area l i W Hi) as [_ Hne].
  rewrite bset_ne by done. by apply logged.
Qed.

Lemma log_n_id l : l_n l = 0 -> l <| l_n := 0 |> = l.
Proof. destruct l. simpl. by intros ->. Qed.
Lemma set_log_id s g : g (fs_log (k_files s)) = fs_log (k_files s) -> set_log s g = s.
Proof. destruct s as [? ? ? ? ? ? ? ? []]. unfold set_log. simpl. by intros ->. Qed.
Lemma log_wf_empty l : log_wf l -> log_wf (l <| l_n := 0 |>).
Proof. intros []. split; simpl; try done; lia. Qed.

Lemma commit_tri s0 P V d s : let l := fs_log (k_files s0) in
  blocks c cur p s0 ∅ P V d s -> log_wf l -> (size P < NBUF)%nat -> NoDup (homes l) ->
  P = list_to_set (homes l) ->
  runs commit s (fun _ s' => blocks c cur p (set_log s0 (fun l => l <| l_n := 0 |>)) ∅ ∅
    (after V (commit_writes V l)) (write_all d (commit_writes V l)) s').
Proof.
  intros l B W Hsz Hnd HP. unfold commit, commit_writes. step @log_get_tri. intros ? ? [-> ->]. fold l.
  assert (Hin : Forall (fun h => h ∈ P) (homes l)).
  { apply Forall_forall. intros h Hh. rewrite HP. by apply elem_of_list_to_set. }
  assert (Hout : forall n, n ∈ P -> ~ log_area l n).
  { intros n Hn. rewrite HP in Hn. apply elem_of_list_to_set in Hn. pose proof (lw_homes _ W) as F.
    rewrite Forall_forall in F. by apply F. }
  destruct (Z.ltb_spec 0 (l_n l)) as [Hn|Hn]; cbn [mwhen].
  2:{ pose proof (lw_n _ W). assert (E : l_n l = 0) by lia.
      assert (P = ∅) as -> by (rewrite HP; unfold homes; by rewrite E).
      eapply runs_ok; [done|]. rewrite set_log_id; [done|]. by apply log_n_id. }
  step write_log_tri. intros _ s1 B1.
  step (write_head_tri s0 P _ _ s1). intros _ s2 B2. fold l in B2.
  assert (Hst : l_start l ∉ (log_writes V l).*1) by (by apply log_writes_head).
  rewrite (after_out V _ _ Hst) in B2. fold (head_set V l) in B2.
  step (install_tri false s0 P _ _ s2). intros _ s3 B3. fold l in B3.
  rewrite (home_writes_logged V l _ W) in B3.
  step @log_set_tri. intros _ s4 B4.
  assert (Hpins : pins false P (homes l) = ∅) by (unfold pins; rewrite HP; set_solver).
  rewrite Hpins in B4.
  eapply runs_conseq; [apply (write_head_tri _ ∅ _ _ s4 B4); [by apply log_wf_empty|rewrite size_empty; change NBUF with 30%nat; lia]|].
  cbv beta. intros _ s5 B5. rewrite !after_app, !write_all_app. revert B5.
  change (homes (fs_log _)) with (@nil Z). change (l_start (fs_log _)) with (l_start l).
  rewrite after_out, bset_eq; [done|]. rewrite <- list_fmap_compose. intros Hs.
  apply list_elem_of_fmap in Hs as (h & E & Hh). apply (Hout h); [rewrite HP; by apply elem_of_list_to_set|].
  simpl in E. rewrite <- E. pose proof (lw_size _ W). unfold log_area. lia.
Qed.


(** ** Recovery *)

Definition dec_log (l : logstate) (data : list Z) : logstate :=
  l <| l_n := hb_n data |>
    <| l_block := dec_head data ++ drop (Z.to_nat (hb_n data)) (l_block l) |>.

Lemma length_dec_head data : length (dec_head data) = Z.to_nat (hb_n data).
Proof. unfold dec_head. by rewrite length_fmap, length_seq. Qed.
Lemma homes_dec l data : homes (dec_log l data) = dec_head data.
Proof. unfold homes, dec_log. simpl. by rewrite take_app_le, take_ge by (by rewrite length_dec_head). Qed.

Lemma insert_mid {A} (xs ys : list A) i v : xs !! i = Some v -> (i < length ys)%nat ->
  <[i := v]> (take i xs ++ drop i ys) = take (S i) xs ++ drop (S i) ys.
Proof.
  intros Hx Hi. destruct (lookup_lt_is_Some_2 ys i Hi) as [y Hy].
  pose proof (lookup_lt_Some _ _ _ Hx) as Hl. rewrite (take_S_r xs i v Hx), (drop_S ys y i Hy).
  rewrite insert_app_r_alt by (rewrite length_take; lia). rewrite length_take, Nat.min_l, Nat.sub_diag by lia.
  simpl. by rewrite <- app_assoc.
Qed.

Lemma read_head_tri s0 P V d s : let l := fs_log (k_files s0) in
  blocks c cur p s0 ∅ P V d s -> (size P < NBUF)%nat -> l_dev l = ROOTDEV -> 0 <= l_start l < 2 ^ 31 ->
  length (l_block l) = Z.to_nat LOGSIZE -> hb_n (V (l_start l)) <= LOGSIZE -> l_start l ∉ P ->
  runs read_head s (fun _ s' =>
    blocks c cur p (set_log s0 (fun l => dec_log l (V (l_start l)))) ∅ P V d s').
Proof.
  intros l B Hsz Hdev Hst Hlen Hn HsP. unfold read_head.
  step @log_get_tri. intros ? ? [-> ->]. step @log_get_tri. intros ? ? [-> ->]. fold l.
  rewrite Hdev. change (u32 ROOTDEV) with ROOTDEV. rewrite u32_small by lia. set (n := l_start l) in *.
  assert (Hcl : V n = content d n) by (by apply (blocks_clean c cur p s0 ∅ P V d s)).
  step @bread_tri. { right. rewrite dom_empty_L. by rewrite (right_id_L ∅ (∪)). } intros b s1 B1.
  step (data_tri c cur p s0 _ P V d s1 n b); [by rewrite lookup_insert_eq|]. intros ? ? [-> ->].
  set (data := V n) in *. set (k := Z.to_nat (hb_n data)) in *.
  step @log_set_tri. intros _ s2 B2. step @log_get_tri. intros ? ? [-> ->].
  change (l_n (fs_log _)) with (hb_n data). fold k.
  apply runs_bind. apply (runs_for (fun i s' => blocks c cur p (set_log s0 (fun l => l <| l_n := hb_n data |>
      <| l_block := take i (dec_head data) ++ drop i (l_block l) |>)) (<[n:=b]> ∅) P V d s')).
  - done.
  - intros i s' Hi B'. unfold set_lh_block.
    assert (Hlen' : (i < length (take i (dec_head data) ++ drop i (l_block l)))%nat).
    { rewrite length_app, length_take, length_drop, length_dec_head, Hlen.
      unfold k, LOGSIZE, MAXOPBLOCKS in *. lia. }
    assert (Hdi : dec_head data !! i = Some (hb_block data i)).
    { unfold dec_head. by rewrite list_lookup_fmap, lookup_seq_lt. }
    destruct (lookup_lt_is_Some_2 _ _ Hlen') as [y Hy].
    step @log_get_tri. intros ? ? [-> ->]. change (l_block (fs_log _)) with (take i (dec_head data) ++ drop i (l_block l)).
    rewrite Hy. apply runs_bind, runs_ret.
    eapply runs_conseq; [by apply (log_set_tri c cur p _ _ _ _ _ _ s' B')|]. cbv beta. intros _ s4.
    assert (E : set_log (set_log s0 (fun l => l <| l_n := hb_n data |>
        <| l_block := take i (dec_head data) ++ drop i (l_block l) |>))
        (fun l => l <| l_block ::= insert i (hb_block data i) |>) =
      set_log s0 (fun l => l <| l_n := hb_n data |>
        <| l_block := take (S i) (dec_head data) ++ drop (S i) (l_block l) |>)); [|by rewrite E].
    unfold set_log. simpl. rewrite insert_mid; [done|done|]. fold l. rewrite Hlen. unfold k in Hi. lia.
  - intros s3 B3. fold k in B3. rewrite take_ge in B3 by (rewrite length_dec_head; done).
    eapply runs_conseq; [apply (brelse_tri c cur p _ _ _ _ _ s3 n b B3); [by rewrite lookup_insert_eq|by right]|].
    cbv beta. intros _ s4. by rewrite delete_insert_id.
Qed.

Definition recover_writes V (l : logstate) : list (Z * list Z) :=
  home_writes V l ++ [(l_start l, enc_head (V (l_start l)) [])].

(** The log state and the disk from which recovery succeeds. *)
Record recoverable (l : logstate) V : Prop := {
  rc_wf : log_wf (dec_log l (V (l_start l)));
  rc_len : length (l_block l) = Z.to_nat LOGSIZE
}.

Lemma recover_tri s0 V d s : let l := fs_log (k_files s0) in
  blocks c cur p s0 ∅ ∅ V d s -> recoverable l V ->
  let ws := recover_writes V (dec_log l (V (l_start l))) in
  runs recover_from_log s (fun _ s' =>
    blocks c cur p (set_log s0 (fun l => dec_log l (V (l_start l)) <| l_n := 0 |>)) ∅ ∅
      (after V ws) (write_all d ws) s').
Proof.
  intros l B [W Hlen] ws. unfold recover_from_log.
  pose proof (lw_n _ W) as Hn. pose proof (lw_size _ W) as Hsz. pose proof (lw_start _ W) as Hst.
  change (l_n (dec_log _ _)) with (hb_n (V (l_start l))) in Hn. change (l_size (dec_log _ _)) with (l_size l) in *.
  change (l_start (dec_log _ _)) with (l_start l) in *. unfold LOGSIZE, MAXOPBLOCKS in *.
  assert (Hfree : (size (∅ : gset Z) < NBUF)%nat) by (rewrite size_empty; change NBUF with 30%nat; lia).
  step (read_head_tri s0 ∅ V d s); [exact (lw_dev _ W)|fold l; lia|fold l; unfold LOGSIZE, MAXOPBLOCKS; lia|].
  intros _ s1 B1.
  step (install_tri true _ ∅ V d s1 B1); [rewrite size_empty; change NBUF with 30%nat; lia|].
  intros _ s2 B2. step @log_set_tri. intros _ s3 B3.
  eapply runs_conseq; [apply (write_head_tri _ ∅ _ _ s3 B3); [by apply log_wf_empty|done]|].
  cbv beta. intros _ s4. unfold ws, recover_writes. rewrite !after_app, !write_all_app.
  change (homes (fs_log (k_files (set_log (set_log s0 _) _)))) with (@nil Z).
  change (l_start (fs_log (k_files (set_log (set_log s0 _) _)))) with (l_start l).
  change (l_start (dec_log l _)) with (l_start l).
  change (fs_log (k_files (set_log s0 (fun l => dec_log l (V (l_start l)))))) with (dec_log l (V (l_start l))).
  rewrite (after_out V _ (l_start l)); [done|]. apply home_writes_keys; [done|]. unfold log_area. simpl. lia.
Qed.

End ops.
