(* ===== verification/Crash.v ===== *)
(** * A commit is atomic with respect to crashes

    The disk does one block write at a time, in the order the kernel issues them.  A crash
    during a commit leaves the disk with a prefix of the commit's writes; the next boot runs
    recover_from_log.  The file system then has all the blocks of the transaction or none. *)

From S2P Require Import Prelude Riscv CString Kalloc Vm Spinlock Proc ProcSpec Headers Codec Sleeplock Bio.
From S2P Require Import BioSpec Bcache Example Log Blocks LogSpec.

Section crash.
Implicit Types (V E : contents) (l : logstate) (d : disk) (ws : list (Z * list Z)).

(** The log of a freshly booted kernel, over the same disk area as [l]. *)
Record same_log l l' : Prop := {
  sa_dev : l_dev l' = l_dev l;
  sa_start : l_start l' = l_start l;
  sa_size : l_size l' = l_size l;
  sa_len : length (l_block l') = Z.to_nat LOGSIZE
}.

Lemma dec_wf l l' bl data : log_wf l -> same_log l l' -> dec_head data = bl ->
  hb_n data = Z.of_nat (length bl) -> Z.of_nat (length bl) < l_size l ->
  Forall (fun h => 0 <= h < 2 ^ 31 /\ ~ log_area l h) bl -> log_wf (dec_log l' data).
Proof.
  intros W [S1 S2 S3 S4] Ed En Hn F. destruct W. split; simpl; rewrite ?S1, ?S2, ?S3; try done; [| |].
  - rewrite length_app, Ed, length_drop, En, S4. unfold LOGSIZE, MAXOPBLOCKS in *. lia.
  - lia.
  - rewrite homes_dec, Ed. unfold log_area in *. simpl. by rewrite S2, S3.
Qed.

(** A cleared header: recovery only rewrites the header. *)
Lemma recover_clear l l' E n : log_wf l -> same_log l l' -> hb_n (E (l_start l)) = 0 ->
  let lr := dec_log l' (E (l_start l')) in
  recoverable l' E /\ (~ log_area l n -> after E (recover_writes E lr) n = E n).
Proof.
  intros W S H0 lr. pose proof (lw_size _ W) as Hsz.
  assert (Hd : dec_head (E (l_start l')) = []) by (unfold dec_head; by rewrite (sa_start _ _ S), H0).
  split.
  - split; [|apply S]. apply (dec_wf l l' []); try done; [|simpl; lia].
    by rewrite (sa_start _ _ S).
  - intros Hn. unfold recover_writes, lr. unfold home_writes. rewrite homes_dec, Hd. simpl.
    apply bset_ne. intros ->. apply Hn. unfold log_area. rewrite (sa_start _ _ S). lia.
Qed.

(** A header that names [l]'s home blocks, with their new contents in the log. *)
Lemma recover_full l l' V E n : log_wf l -> same_log l l' ->
  dec_head (E (l_start l)) = homes l -> hb_n (E (l_start l)) = l_n l ->
  (forall i h, homes l !! i = Some h -> E (slot l i) = V h) ->
  (forall k, ~ log_area l k -> k ∉ homes l -> E k = V k) ->
  let lr := dec_log l' (E (l_start l')) in
  recoverable l' E /\ (~ log_area l n -> after E (recover_writes E lr) n = V n).
Proof.
  intros W S Hd Hh Hlog Hrest lr. pose proof (lw_n _ W) as Hln. pose proof (sa_start _ _ S) as Es.
  assert (Hlen : Z.of_nat (length (homes l)) = l_n l) by (rewrite length_homes by done; lia).
  split.
  - split; [|apply S]. rewrite Es. apply (dec_wf l l' (homes l)); try done; [lia..|apply W].
  - intros Hn. unfold recover_writes. rewrite after_app. simpl.
    rewrite bset_ne by (intros ->; apply Hn; unfold log_area; rewrite Es; lia).
    unfold lr, home_writes. rewrite Es, homes_dec, Hd.
    set (ws := imap (fun i h => (h, E (slot (dec_log l' (E (l_start l))) i))) (homes l)).
    assert (Hk : ws.*1 = homes l).
    { unfold ws. rewrite fmap_imap. apply list_eq. intros i. rewrite list_lookup_imap. by destruct (homes l !! i). }
    assert (Hs : forall i, slot (dec_log l' (E (l_start l))) i = slot l i) by (intros i; unfold slot; simpl; by rewrite Es).
    destruct (decide (n ∈ homes l)) as [Hin|Hout].
    + apply after_in; [by rewrite Hk|]. intros v' Hv. apply list_elem_of_lookup in Hv as [i Hi].
      unfold ws in Hi. rewrite list_lookup_imap in Hi. destruct (homes l !! i) as [h|] eqn:Eh; [|done].
      simpl in Hi. injection Hi as -> <-. rewrite Hs. by apply Hlog.
    + rewrite after_out by (by rewrite Hk). by apply Hrest.
Qed.

Lemma take_cases {A} (xs : list A) y zs w k : let ws := xs ++ [y] ++ zs ++ [w] in
  (exists j, (j <= length xs)%nat /\ take k ws = take j xs /\ (k <= length xs)%nat) \/
  (exists j, (j <= length zs)%nat /\ take k ws = xs ++ [y] ++ take j zs /\ (length xs < k < length ws)%nat) \/
  (take k ws = ws /\ (length ws <= k)%nat).
Proof.
  intros ws. assert (Hl : length ws = (length xs + 1 + length zs + 1)%nat)
    by (unfold ws; rewrite !length_app; simpl; lia).
  destruct (decide (k <= length xs)%nat); [left|right; destruct (decide (k < length ws)%nat); [left|right]].
  - exists k. unfold ws. rewrite take_app_le by lia. done.
  - exists (k - length xs - 1)%nat. split; [lia|]. split; [|lia]. unfold ws.
    rewrite take_app_ge by lia. f_equal. rewrite take_app_ge by (simpl; lia). f_equal. simpl length.
    rewrite take_app_le by lia. done.
  - rewrite take_ge by lia. split; [done|lia].
Qed.

(** The disk after a crash in the middle of a commit, and what recovery makes of it. *)
Section cut.
Context (l l' : logstate) (V : contents) (d : disk).
Context (W : log_wf l) (S : same_log l l') (Hclear : hb_n (content d (l_start l)) = 0).
Context (Hlen : length (V (l_start l)) = Z.to_nat BSIZE) (Hrest : forall n, n ∉ homes l -> V n = content d n).

Let W1 := log_writes V l.
Let W3 := (fun h => (h, V h)) <$> homes l.
Let recovered E n := after E (recover_writes E (dec_log l' (E (l_start l')))) n.

Lemma cut_start : log_area l (l_start l) /\ l_start l ∉ homes l.
Proof.
  assert (Ha : log_area l (l_start l)) by (pose proof (lw_size _ W); unfold log_area; lia). split; [done|].
  intros Hin. pose proof (lw_homes _ W) as F. rewrite Forall_forall in F. by apply (F _ Hin).
Qed.
Lemma cut_homes D j n : n ∉ homes l -> after D (take j W3) n = D n.
Proof. intros Hn. apply after_take_out. unfold W3. rewrite <- list_fmap_compose. by rewrite list_fmap_id. Qed.
Lemma cut_head : dec_head (head_set V l) = homes l /\ hb_n (head_set V l) = l_n l.
Proof.
  pose proof (length_homes l W) as Hh. pose proof (lw_n _ W). pose proof (lw_size _ W).
  unfold LOGSIZE, MAXOPBLOCKS in *. unfold head_set.
  rewrite dec_enc_head, enc_head_n; rewrite ?Hlen; try (change (Z.to_nat BSIZE) with 1024%nat; lia); try lia.
  - split; [done|]. rewrite Hh. lia.
  - eapply Forall_impl; [apply (lw_homes _ W)|]. simpl. tauto.
Qed.

(** The header is still clear: nothing happened. *)
Lemma cut_before E j n : (forall n, E n = after (content d) (take j W1) n) ->
  recoverable l' E /\ (~ log_area l n -> recovered E n = content d n).
Proof.
  intros HE. assert (Hh0 : hb_n (E (l_start l)) = 0).
  { rewrite HE, after_take_out; [done|]. by apply log_writes_head. }
  destruct (recover_clear l l' E n W S Hh0) as [Hrec Hr]. split; [done|]. intros Hn.
  unfold recovered. rewrite (Hr Hn), HE. apply after_take_out. by apply log_writes_keys.
Qed.

(** The header names the home blocks: recovery installs them all. *)
Lemma cut_between E j n :
  (forall n, E n = after (content d) (W1 ++ [(l_start l, head_set V l)] ++ take j W3) n) ->
  recoverable l' E /\ (~ log_area l n -> recovered E n = V n).
Proof.
  intros HE. destruct cut_start as [Hst Hsth].
  assert (Hhs : E (l_start l) = head_set V l) by (rewrite HE, !after_app, cut_homes by done; apply bset_eq).
  apply recover_full; try done; [by rewrite Hhs; apply cut_head..| |].
  - intros i h Hi. destruct (homes_lookup l i h Hi) as [_ Hi']. destruct (slot_area l i W Hi') as [Hsa Hss].
    rewrite HE, !after_app, cut_homes.
    2: { intros Hin. pose proof (lw_homes _ W) as F. rewrite Forall_forall in F. by apply (F _ Hin). }
    simpl. rewrite bset_ne by done. by apply logged.
  - intros k Hk Hout. rewrite HE, !after_app, cut_homes by done. simpl.
    rewrite bset_ne by (intros ->; done). rewrite after_out by (by apply log_writes_keys).
    symmetry. by apply Hrest.
Qed.

(** Everything is written: recovery has nothing to do. *)
Lemma cut_done n : ~ log_area l n ->
  after (content d) (W1 ++ [(l_start l, head_set V l)] ++ W3 ++ [(l_start l, head_cleared V l)]) n = V n.
Proof.
  intros Hn. destruct cut_start as [Hst _]. rewrite !after_app. simpl. rewrite bset_ne by (intros ->; done).
  destruct (decide (n ∈ homes l)) as [Hin|Hout].
  - apply after_in.
    + unfold W3. rewrite <- list_fmap_compose. by rewrite list_fmap_id.
    + intros v' Hv. apply list_elem_of_fmap in Hv as (h & Eh & _). by injection Eh as <- <-.
  - rewrite <- (take_ge W3 (length W3)) by lia. rewrite cut_homes by done. rewrite bset_ne by (intros ->; done).
    rewrite after_out by (by apply log_writes_keys). symmetry. by apply Hrest.
Qed.
Lemma cut_end E n :
  (forall n, E n = after (content d) (W1 ++ [(l_start l, head_set V l)] ++ W3 ++ [(l_start l, head_cleared V l)]) n) ->
  recoverable l' E /\ (~ log_area l n -> recovered E n = V n).
Proof.
  intros HE. assert (Hh0 : hb_n (E (l_start l)) = 0).
  { rewrite HE, !after_app. simpl. rewrite bset_eq. unfold head_cleared.
    rewrite enc_head_n; simpl; [done| |lia]. unfold head_set. rewrite length_enc_head, Hlen.
    change (Z.to_nat BSIZE) with 1024%nat. lia. }
  destruct (recover_clear l l' E n W S Hh0) as [Hrec Hr]. split; [done|]. intros Hn.
  unfold recovered. rewrite (Hr Hn), HE. by apply cut_done.
Qed.

Lemma commit_done n : ~ log_area l n -> after (content d) (commit_writes V l) n = V n.
Proof.
  intros Hn. unfold commit_writes. destruct (Z.ltb_spec 0 (l_n l)); [by apply cut_done|].
  symmetry. apply Hrest. unfold homes. replace (l_n l) with 0 by (pose proof (lw_n _ W); lia).
  apply not_elem_of_nil.
Qed.

Lemma cut_recovers k : 0 < l_n l ->
  let E := content (write_all d (take k (commit_writes V l))) in
  recoverable l' E /\
  forall n, ~ log_area l n -> recovered E n = if (k <=? length (homes l))%nat then content d n else V n.
Proof.
  intros Hpos E.
  assert (L1 : length W1 = length (homes l)) by apply length_imap.
  assert (HE : forall n, E n = after (content d) (take k (commit_writes V l)) n)
    by (intros n; apply content_write_all).
  assert (Ecw : commit_writes V l = W1 ++ [(l_start l, head_set V l)] ++ W3 ++ [(l_start l, head_cleared V l)]).
  { unfold commit_writes. destruct (Z.ltb_spec 0 (l_n l)); [done|lia]. }
  rewrite Ecw in HE.
  destruct (take_cases W1 (l_start l, head_set V l) W3 (l_start l, head_cleared V l) k)
    as [(j & Hj & Et & Hk) | [(j & Hj & Et & Hk) | [Et Hk]]]; rewrite Et in HE; rewrite <- L1.
  - split; [apply (cut_before E j 0 HE)|]. intros n Hn. rewrite (proj2 (cut_before E j n HE) Hn).
    destruct (Nat.leb_spec k (length W1)); [done|lia].
  - split; [apply (cut_between E j 0 HE)|]. intros n Hn. rewrite (proj2 (cut_between E j n HE) Hn).
    destruct (Nat.leb_spec k (length W1)); [lia|done].
  - split; [apply (cut_end E 0 HE)|]. intros n Hn. rewrite (proj2 (cut_end E n HE) Hn).
    rewrite !length_app in Hk. destruct (Nat.leb_spec k (length W1)); [simpl in Hk; lia|done].
Qed.

Lemma cut_all k :
  let E := content (write_all d (take k (commit_writes V l))) in
  recoverable l' E /\
  forall n, ~ log_area l n -> recovered E n = if (k <=? length (homes l))%nat then content d n else V n.
Proof.
  destruct (decide (0 < l_n l)) as [Hpos|Hnp]; [by apply cut_recovers|].
  pose proof (lw_n _ W). assert (Hz : l_n l = 0) by lia.
  assert (commit_writes V l = []) as -> by (unfold commit_writes; by rewrite Hz). rewrite take_nil. intros E.
  split; [apply (recover_clear l l' (content d) 0 W S Hclear)|]. intros n Hn.
  unfold recovered. change E with (content d). rewrite (proj2 (recover_clear l l' (content d) n W S Hclear) Hn).
  destruct (_ <=? _)%nat; [done|]. symmetry. apply Hrest. unfold homes. rewrite Hz. apply not_elem_of_nil.
Qed.

End cut.

(** A crash during recovery, and a second recovery. *)
Lemma after_base V V' ws n : n ∈ ws.*1 \/ V n = V' n -> after V ws n = after V' ws n.
Proof.
  revert V V'. induction ws as [|w ws IH]; intros V V' Hn; simpl.
  - destruct Hn as [Hn|Hn]; [by apply not_elem_of_nil in Hn|done].
  - apply IH. destruct (decide (n ∈ ws.*1)); [by left|right]. unfold bset. case_decide; [done|].
    destruct Hn as [Hn|Hn]; [|done]. apply elem_of_cons in Hn as [Hn|Hn]; done.
Qed.

Lemma recover_again l l1 E E' k : recoverable l E -> length (E (l_start l)) = Z.to_nat BSIZE ->
  let lr := dec_log l (E (l_start l)) in let ws := recover_writes E lr in
  same_log lr l1 -> (forall n, E' n = after E (take k ws) n) ->
  recoverable l1 E' /\
  forall n, ~ log_area l n ->
    after E' (recover_writes E' (dec_log l1 (E' (l_start l1)))) n = after E ws n.
Proof.
  intros [W _] Hlen lr ws S HE. fold lr in W. set (HW := home_writes E lr).
  assert (Hst : l_start l ∉ HW.*1).
  { apply home_writes_keys; [done|]. pose proof (lw_size _ W). unfold log_area in *. simpl in *. lia. }
  destruct (decide (k <= length HW)%nat) as [Hk|Hk].
  - unfold ws, recover_writes in HE. fold HW in HE. setoid_rewrite take_app_le in HE; [|done].
    assert (Hsame : forall n, n ∉ HW.*1 -> E' n = E n) by (intros n Hn; rewrite HE; by apply after_take_out).
    assert (Es : E' (l_start l1) = E (l_start l)) by (rewrite (sa_start _ _ S); by apply Hsame).
    assert (El : homes (dec_log l1 (E' (l_start l1))) = homes lr) by (unfold lr; by rewrite !homes_dec, Es).
    assert (EW : home_writes E' (dec_log l1 (E' (l_start l1))) = HW).
    { unfold HW, home_writes. rewrite El. apply list_eq. intros i. rewrite !list_lookup_imap.
      destruct (homes lr !! i) as [h|] eqn:Eh; [|done]. simpl. f_equal. f_equal.
      destruct (homes_lookup _ _ _ Eh) as [_ Hi]. destruct (slot_area lr i W Hi) as [Ha _].
      replace (slot (dec_log l1 _) i) with (slot lr i) by (unfold slot; simpl; by rewrite (sa_start _ _ S)).
      apply Hsame. by apply home_writes_keys. }
    split.
    + split; [|apply S]. rewrite Es. apply (dec_wf lr l1 (homes lr)); try done.
      * unfold lr. by rewrite homes_dec.
      * rewrite length_homes by done. pose proof (lw_n _ W). simpl in *. lia.
      * rewrite length_homes by done. pose proof (lw_n _ W). simpl in *. lia.
      * apply W.
    + intros n Hn. unfold ws, recover_writes. fold HW. rewrite EW, !after_app. simpl.
      assert (Hne : n <> l_start l).
      { intros ->. apply Hn. pose proof (lw_size _ W). unfold log_area in *. simpl in *. lia. }
      rewrite (sa_start _ _ S). rewrite !bset_ne by done. apply after_base.
      destruct (decide (n ∈ HW.*1)); [by left|right]. by apply Hsame.
  - assert (Et : take k ws = ws).
    { apply take_ge. unfold ws, recover_writes. fold HW. rewrite length_app. simpl. lia. }
    rewrite Et in HE. assert (Hh0 : hb_n (E' (l_start lr)) = 0).
    { rewrite HE. unfold ws, recover_writes. rewrite after_app. simpl. rewrite bset_eq.
      rewrite enc_head_n; simpl; [done| |lia]. rewrite Hlen. change (Z.to_nat BSIZE) with 1024%nat. lia. }
    split; [apply (recover_clear lr l1 E' 0 W S Hh0)|]. intros n Hn. rewrite <- HE.
    by apply (recover_clear lr l1 E' n W S Hh0).
Qed.

End crash.

(** ** Atomicity *)

(** The log between transactions' writes and their commit: [P] are the blocks of the
    transaction, pinned in the cache, and the header on the disk is clear. *)
Record log_inv (s : kern) (P : gset Z) : Prop := {
  li_wf : log_wf (fs_log (k_files s));
  li_nodup : NoDup (homes (fs_log (k_files s)));
  li_pins : P = list_to_set (homes (fs_log (k_files s)));
  li_clear : hb_n (ondisk s (l_start (fs_log (k_files s)))) = 0
}.

(** A kernel that booted after a crash: the cache is empty and the disk holds [d]. *)
Record booted (l : logstate) (d : disk) (r : kern) (c : cpu) (cur : nat) (p : proc) : Prop := {
  bt_calm : calm r c cur [];
  bt_proc : k_procs r !! cur = Some p;
  bt_cache : binv r p ∅ ∅;
  bt_log : same_log l (fs_log (k_files r));
  bt_disk : d_data (fs_disk (k_files r)) = d_data d
}.

Section atomic.
Context {D : DiskOps} {DL : DiskLaws}.
Implicit Types (s r : kern) (P : gset Z) (l : logstate) (d : disk).

Lemma log_inv_few s P : log_inv s P -> (size P < NBUF)%nat.
Proof.
  intros [W Hnd -> _]. rewrite size_list_to_set, length_homes by done. pose proof (lw_n _ W).
  pose proof (lw_size _ W). unfold LOGSIZE, MAXOPBLOCKS in *. change NBUF with 30%nat. lia.
Qed.

Lemma recover_booted l d r c cur p : booted l d r c cur p -> recoverable (fs_log (k_files r)) (content d) ->
  exists r', recover_from_log r = Ok tt r' /\ l_n (fs_log (k_files r')) = 0 /\ binv r' p ∅ ∅ /\
    let ws := recover_writes (content d) (dec_log (fs_log (k_files r)) (content d (l_start (fs_log (k_files r))))) in
    fs_disk (k_files r') = write_all (fs_disk (k_files r)) ws /\
    forall n, ondisk r' n = after (content d) ws n.
Proof.
  intros [Hc Hp Hb _ Hd] Hrec.
  assert (Econt : content (fs_disk (k_files r)) = content d) by (unfold content; by rewrite Hd).
  pose proof (blocks_start c cur p r ∅ ∅ Hc Hp Hb) as B.
  apply (blocks_ext c cur p _ _ _ _ (content d)) in B.
  2: { intros k. rewrite (blocks_clean c cur p _ _ _ _ _ _ k B) by done. by rewrite Econt. }
  pose proof (recover_tri c cur p r (content d) _ r B Hrec) as Hrun.
  apply runs_inv in Hrun as ([] & r' & E & [_ _ Hb' _ Hd' Hf]). exists r'. split; [done|].
  destruct (bf_files _ _ _ Hf) as (El & _). split; [by rewrite El|]. split; [done|].
  split; [done|]. intros n. unfold ondisk. fold (content (fs_disk (k_files r'))).
  rewrite Hd', content_write_all. by rewrite Econt.
Qed.

(** C1. commit is atomic.  From a state where the log holds a transaction, commit returns,
    writes exactly the block sequence [ws] to the disk, and leaves every file-system block
    on the disk as the transaction made it.  If the machine stops after any prefix of those
    writes, the recovery of the next boot returns and the disk then has either every block
    as before the transaction or every block as the transaction made it, outside the log
    area; once commit has written its header the new contents are not lost. *)
Theorem commit_crash_atomic s c cur p P :
  calm s c cur [] -> k_procs s !! cur = Some p -> binv s p ∅ P -> log_inv s P ->
  let l := fs_log (k_files s) in
  exists s' ws, commit s = Ok tt s' /\
    fs_disk (k_files s') = write_all (fs_disk (k_files s)) ws /\ l_n (fs_log (k_files s')) = 0 /\
    (forall n, ~ log_area l n -> ondisk s' n = view s n) /\
    forall k r rc rcur rp, booted l (write_all (fs_disk (k_files s)) (take k ws)) r rc rcur rp ->
      exists r', recover_from_log r = Ok tt r' /\
        ((forall n, ~ log_area l n -> ondisk r' n = ondisk s n) \/
         (forall n, ~ log_area l n -> ondisk r' n = view s n)) /\
        ((Z.to_nat (l_n l) < k)%nat -> forall n, ~ log_area l n -> ondisk r' n = view s n).
Proof.
  intros Hc Hp Hb Hl l. pose proof (log_inv_few s P Hl) as Hfew. destruct Hl as [W Hnd HP H0]. fold l in W, Hnd, HP, H0.
  pose proof (blocks_start c cur p s ∅ P Hc Hp Hb) as B.
  pose proof (commit_tri c cur p s P _ _ s B W Hfew Hnd HP) as Hrun.
  apply runs_inv in Hrun as ([] & s' & E & [_ _ _ _ Hd Hf]). fold l in Hd.
  set (d := fs_disk (k_files s)) in *. set (ws := commit_writes (view s) l) in *.
  assert (Hrest : forall n, n ∉ homes l -> view s n = content d n).
  { intros n Hn. apply (blocks_clean c cur p _ _ _ _ _ _ n B); [|done]. rewrite HP. by rewrite elem_of_list_to_set. }
  assert (Hlen : length (view s (l_start l)) = Z.to_nat BSIZE) by apply (binv_size s p ∅ P _ Hb).
  exists s', ws. split; [done|]. split; [done|]. split; [by rewrite (proj1 (bf_files _ _ _ Hf))|]. split.
  - intros n Hn. unfold ondisk. fold (content (fs_disk (k_files s'))). rewrite Hd, content_write_all.
    by apply commit_done.
  - intros k r rc rcur rp Hbt. pose proof (bt_log _ _ _ _ _ _ Hbt) as Sl.
    destruct (cut_all l (fs_log (k_files r)) (view s) d W Sl H0 Hlen Hrest k) as [Hrec Hres]. fold ws in Hrec, Hres.
    destruct (recover_booted l _ r rc rcur rp Hbt Hrec) as (r' & Er & _ & _ & _ & Hon).
    exists r'. split; [done|]. rewrite length_homes in Hres by done. split.
    + destruct (Nat.leb_spec k (Z.to_nat (l_n l))); [left|right]; intros n Hn; by rewrite Hon, Hres.
    + intros Hk n Hn. rewrite Hon, Hres by done. destruct (Nat.leb_spec k (Z.to_nat (l_n l))); [lia|done].
Qed.

(** C2. Recovery can itself be interrupted.  If recover_from_log would succeed and the
    machine stops after any prefix of the block writes it makes, running it again on the
    next boot succeeds and leaves every block outside the log area as an uninterrupted
    recovery would have. *)
Theorem recovery_restartable l d r c cur p : booted l d r c cur p ->
  recoverable (fs_log (k_files r)) (content d) ->
  exists r' ws, recover_from_log r = Ok tt r' /\ fs_disk (k_files r') = write_all (fs_disk (k_files r)) ws /\
    hb_n (ondisk r' (l_start l)) = 0 /\
    forall k q qc qcur qp, booted l (write_all (fs_disk (k_files r)) (take k ws)) q qc qcur qp ->
      exists q', recover_from_log q = Ok tt q' /\
        forall n, ~ log_area l n -> ondisk q' n = ondisk r' n.
Proof.
  intros Hbt Hrec. destruct (recover_booted l d r c cur p Hbt Hrec) as (r' & E & _ & _ & Hd & Hon).
  set (ws := recover_writes _ _) in *. exists r', ws. split; [done|]. split; [done|].
  destruct (bt_log _ _ _ _ _ _ Hbt) as [S1 S2 S3 S4]. set (lr := fs_log (k_files r)) in *.
  assert (Hlen : length (content d (l_start lr)) = Z.to_nat BSIZE).
  { unfold content. rewrite <- (bt_disk _ _ _ _ _ _ Hbt).
    destruct (bi_cache _ _ _ _ (bt_cache _ _ _ _ _ _ Hbt)) as [order Hok]. apply (co_disk _ _ Hok). }
  assert (Ec : content (fs_disk (k_files r)) = content d) by (unfold content; by rewrite (bt_disk _ _ _ _ _ _ Hbt)).
  split.
  - rewrite Hon, <- S2. unfold ws, recover_writes. rewrite after_app. simpl. rewrite bset_eq.
    rewrite enc_head_n; simpl; [done| |lia]. rewrite Hlen. change (Z.to_nat BSIZE) with 1024%nat. lia.
  - intros k q qc qcur qp Hq. destruct (bt_log _ _ _ _ _ _ Hq) as [T1 T2 T3 T4].
    destruct (recover_again lr (fs_log (k_files q)) (content d)
      (content (write_all (fs_disk (k_files r)) (take k ws))) k Hrec Hlen) as [Hrec' Hres].
    + split; simpl; congruence.
    + intros n. rewrite content_write_all. by rewrite Ec.
    + destruct (recover_booted l _ q qc qcur qp Hq Hrec') as (q' & Eq & _ & _ & _ & Honq).
      exists q'. split; [done|]. intros n Hn. rewrite Honq, Hon. apply Hres.
      unfold log_area in *. by rewrite S2, S3.
Qed.

End atomic.
