(* ===== verification/LogOps.v ===== *)
(** * Transactions: begin_op, log_write, end_op

    Inside a transaction log_write records a block in the in-memory header and pins it in
    the cache; begin_op admits an operation only while the log can take its blocks; end_op
    of the last operation commits. *)

From S2P Require Import Prelude Riscv CString Kalloc Vm Spinlock Proc ProcSpec Headers Codec Sleeplock Bio.
From S2P Require Import BioSpec Bcache Example Log Blocks LogSpec Crash.

Section slots.
Implicit Types (bl : list Z) (s : kern).

(** The first entry of [bl] for block [bno], or its length. *)
Definition slot_of bl (bno : Z) : nat :=
  match list_find (fun h => u32 h = bno) bl with Some (i, _) => i | None => length bl end.

Lemma log_slot_run bl bno n : forall i s, (i + n <= length bl)%nat ->
  log_slot bl bno i n s = Ok (i + slot_of (take n (drop i bl)) bno)%nat s.
Proof.
  induction n as [|n IH]; intros i s Hl; simpl.
  - unfold slot_of. simpl. by rewrite Nat.add_0_r.
  - destruct (lookup_lt_is_Some_2 bl i ltac:(lia)) as [v Hv]. rewrite Hv. cbn [mlookup].
    rewrite (bind_ok _ _ _ v s) by done. rewrite (drop_S bl v i Hv). simpl.
    unfold slot_of. simpl. destruct (Z.eqb_spec (u32 v) bno) as [E|E].
    + rewrite decide_True by done. unfold mret. f_equal. lia.
    + rewrite decide_False by done. rewrite IH by lia. f_equal. unfold slot_of.
      destruct (list_find _ _) as [[j w]|] eqn:Ef; simpl; rewrite ?Ef; simpl; lia.
Qed.

Lemma slot_of_in bl bno : Forall (fun h => 0 <= h < 2 ^ 31) bl -> bno ∈ bl -> 
  (slot_of bl bno < length bl)%nat /\ bl !! slot_of bl bno = Some bno.
Proof.
  intros F Hin. rewrite Forall_forall in F. unfold slot_of. destruct (list_find _ _) as [[j w]|] eqn:E.
  - apply list_find_Some in E as (Hj & Hw & _). split; [by eapply lookup_lt_Some|].
    rewrite Hj. f_equal. rewrite <- Hw. symmetry. apply u32_small.
    apply list_elem_of_lookup_2, F in Hj. lia.
  - apply list_find_None in E. rewrite Forall_forall in E. destruct (E bno Hin).
    apply u32_small. specialize (F bno Hin). lia.
Qed.
Lemma slot_of_out bl bno : Forall (fun h => 0 <= h < 2 ^ 31) bl -> bno ∉ bl -> slot_of bl bno = length bl.
Proof.
  intros F Hn. rewrite Forall_forall in F. unfold slot_of. destruct (list_find _ _) as [[j w]|] eqn:E; [|done].
  apply list_find_Some in E as (Hj & Hw & _). apply list_elem_of_lookup_2 in Hj. destruct Hn.
  rewrite <- Hw, u32_small; [done|]. specialize (F w Hj). lia.
Qed.

End slots.

Section trans.
Context {D : DiskOps} {DL : DiskLaws}.
Implicit Types (s : kern) (P : gset Z) (H : gmap Z nat) (l : logstate).

Lemma log_free s c cur held : calm s c cur held -> LLog ∉ held -> lk_free (k_mach s) LLog.
Proof. intros Hc Hn. by apply (ca_free _ _ _ _ Hc). Qed.

(** What log_write does to the log's header. *)
Definition logged_block l (n : Z) : logstate :=
  if decide (n ∈ homes l) then l
  else l <| l_n := l_n l + 1 |> <| l_block := <[Z.to_nat (l_n l) := n]> (l_block l) |>.

Lemma homes_logged l n : log_wf l -> n ∉ homes l -> homes (logged_block l n) = homes l ++ [n].
Proof.
  intros W Hn. unfold logged_block. rewrite decide_False by done. unfold homes. simpl.
  pose proof (lw_n _ W) as Hln. pose proof (lw_len _ W) as Hlen. pose proof (lw_size _ W).
  unfold LOGSIZE, MAXOPBLOCKS in *. replace (Z.to_nat (l_n l + 1)) with (S (Z.to_nat (l_n l))) by lia.
  rewrite (take_S_r _ _ n) by (apply list_lookup_insert_eq; lia). by rewrite take_insert_ge by lia.
Qed.

Lemma log_wf_logged l n : log_wf l -> 0 <= n < 2 ^ 31 -> ~ log_area l n -> l_n l < l_size l - 1 ->
  log_wf (logged_block l n).
Proof.
  intros W Hr Ha Hn. destruct (decide (n ∈ homes l)) as [Hin|Hout].
  { unfold logged_block. by rewrite decide_True. }
  pose proof (homes_logged l n W Hout) as Eh. pose proof W as [].
  unfold logged_block in *. rewrite decide_False in * by done.
  split; try done.
  - simpl. by rewrite length_insert.
  - simpl. lia.
  - rewrite Eh. apply Forall_app. split; [done|]. by apply Forall_singleton.
Qed.

Lemma log_inv_logged s s' P n : log_inv s P -> 0 <= n < 2 ^ 31 ->
  let l := fs_log (k_files s) in ~ log_area l n -> l_n l < l_size l - 1 ->
  fs_log (k_files s') = logged_block l n -> fs_disk (k_files s') = fs_disk (k_files s) ->
  log_inv s' ({[n]} ∪ P).
Proof.
  intros [W Hnd HP H0] Hr l Ha Hn El Ed. fold l in W, Hnd, HP, H0.
  assert (Est : l_start (logged_block l n) = l_start l) by (unfold logged_block; by case_decide).
  split; rewrite El.
  - by apply log_wf_logged.
  - destruct (decide (n ∈ homes l)) as [Hin|Hout]; [unfold logged_block; by rewrite decide_True|].
    rewrite homes_logged by done. apply NoDup_app. split_and!; [done|set_solver|apply NoDup_singleton].
  - destruct (decide (n ∈ homes l)) as [Hin|Hout]; [unfold logged_block; rewrite decide_True by done; set_solver|].
    rewrite homes_logged by done. rewrite list_to_set_app_L. set_solver.
  - rewrite Est. unfold ondisk in *. by rewrite Ed.
Qed.


Lemma homes_range l : log_wf l -> Forall (fun h => 0 <= h < 2 ^ 31) (homes l).
Proof. intros W. eapply Forall_impl; [apply (lw_homes _ W)|]. simpl. tauto. Qed.

Lemma log_slot_homes l bno s : log_wf l ->
  log_slot (l_block l) bno 0 (Z.to_nat (l_n l)) s = Ok (slot_of (homes l) bno) s.
Proof.
  intros W. pose proof (lw_n _ W). pose proof (lw_size _ W). pose proof (lw_len _ W).
  unfold LOGSIZE, MAXOPBLOCKS in *. rewrite log_slot_run by lia. by rewrite drop_0.
Qed.

Lemma log_block_id l i n : l_block l !! i = Some n -> l <| l_block ::= insert i n |> = l.
Proof. destruct l. simpl. intros E. f_equal. by apply list_insert_id. Qed.

(** The part of log_write between acquire and release. *)
Definition log_record (b : nat) : M kern unit :=
  bno <- buf_get b b_blockno ;;
  blocks <- log_get l_block ;;
  n <- log_get l_n ;;
  i <- log_slot blocks bno 0 (Z.to_nat n) ;;
  set_lh_block i (i32 bno) ;;;
  mwhen (Z.of_nat i =? n) (bpin b ;;; log_set (fun l => l <| l_n ::= fun k => i32 (k + 1) |>)).

Lemma log_record_split b (s : kern) s2 (k : M kern unit) : log_record b s = Ok tt s2 ->
  (bno <- buf_get b b_blockno ;;
   blocks <- log_get l_block ;;
   i <- log_slot blocks bno 0 (Z.to_nat (l_n (fs_log (k_files s)))) ;;
   set_lh_block i (i32 bno) ;;;
   mwhen (Z.of_nat i =? l_n (fs_log (k_files s)))
     (bpin b ;;; log_set (fun l => l <| l_n ::= fun k => i32 (k + 1) |>)) ;;;
   k) s = k s2.
Proof.
  unfold log_record. intros E. apply bind_inv in E as (bno & t & E1 & E).
  assert (t = s) as ->.
  { revert E1. unfold buf_get, fget, mbind, gets, mlookup, mret, mfail. by destruct (_ !! b); intros [= _ ->]. }
  rewrite (bind_ok _ _ _ _ _ E1). clear E1. unfold log_get, fget in *. unfold mbind, gets in *.
  destruct (log_slot _ _ _ _ _) as [i t|]; [|done]. destruct (set_lh_block _ _ _) as [[] t1|]; [|done].
  by rewrite E.
Qed.

Lemma set_lh_run s i v : (i < length (l_block (fs_log (k_files s))))%nat ->
  set_lh_block i v s = Ok tt (set_log s (fun l => l <| l_block ::= insert i v |>)).
Proof.
  intros Hi. destruct (lookup_lt_is_Some_2 _ _ Hi) as [y Hy]. unfold set_lh_block.
  rewrite (bind_ok _ _ _ (l_block (fs_log (k_files s))) s) by done. rewrite Hy. cbn [mlookup].
  by rewrite (bind_ok _ _ _ y s).
Qed.

Lemma log_record_run s c cur held p H P n b : calm s c cur held -> LBcache ∉ held -> (length held < 90)%nat ->
  binv s p H P -> H !! n = Some b -> log_inv s P -> 0 <= n < 2 ^ 31 ->
  let l := fs_log (k_files s) in l_n l < l_size l - 1 ->
  exists s', log_record b s = Ok tt s' /\ binv s' p H ({[n]} ∪ P) /\ (forall k, view s' k = view s k) /\
    fs_disk (k_files s') = fs_disk (k_files s) /\ bframe cur (set_log s (fun l => logged_block l n)) s'.
Proof.
  intros Hc Hbc Hh Hi Hb [W Hnd HP H0] Hr l Hn. fold l in W, Hnd, HP.
  pose proof (lw_n _ W) as Hln. pose proof (lw_len _ W) as Hlen. pose proof (lw_size _ W).
  unfold LOGSIZE, MAXOPBLOCKS in *. pose proof (homes_range l W) as F.
  unfold log_record. rewrite (bind_ok _ _ _ _ _ (bno_rule s p H P n b Hi Hb)).
  rewrite (bind_ok _ _ _ (l_block l) s), (bind_ok _ _ _ (l_n l) s) by done.
  rewrite (bind_ok _ _ _ _ _ (log_slot_homes l n s W)). rewrite i32_small by lia.
  destruct (decide (n ∈ homes l)) as [Hin|Hout].
  - destruct (slot_of_in (homes l) n F Hin) as [Hlt Hsl]. destruct (homes_lookup _ _ _ Hsl) as [Hbl Hlt'].
    rewrite (bind_ok _ _ _ _ _ (set_lh_run s (slot_of (homes l) n) n ltac:(fold l; lia))).
    rewrite (set_log_id s) by (by apply log_block_id).
    destruct (Z.eqb_spec (Z.of_nat (slot_of (homes l) n)) (l_n l)); [lia|]. cbn [mwhen].
    exists s. split; [done|]. rewrite (set_log_id s) by (unfold logged_block; fold l; by rewrite decide_True).
    replace ({[n]} ∪ P) with P by set_solver. done.
  - rewrite (slot_of_out (homes l) n F Hout), length_homes by done.
    rewrite (bind_ok _ _ _ _ _ (set_lh_run s (Z.to_nat (l_n l)) n ltac:(fold l; lia))).
    set (s1 := set_log s _). destruct (Z.eqb_spec (Z.of_nat (Z.to_nat (l_n l))) (l_n l)); [|lia]. cbn [mwhen].
    assert (Hc1 : calm s1 c cur held) by (by apply (calm_data s)).
    assert (Hi1 : binv s1 p H P) by (by apply (binv_frame s)).
    destruct (bpin_rule s1 c cur held p H P n b Hc1 Hbc Hh Hi1 Hb) as (s2 & E2 & Hi2 & HV2 & Hd2 & Hf2).
    { rewrite HP. by rewrite elem_of_list_to_set. }
    rewrite (bind_ok _ _ _ _ _ E2). eexists. split; [done|]. split_and!.
    + by apply (binv_frame s2).
    + done.
    + done.
    + destruct Hf2 as [A1 A2 A3 A4 A5 (A8 & A9 & A10 & A11 & A12) A13 A14]. split; try done.
      split_and!; try done. simpl. rewrite A8. simpl. fold l. unfold logged_block. rewrite decide_False by done.
      by rewrite i32_small by lia.
Qed.

Lemma log_write_run s c cur p H P n b :
  calm s c cur [] -> binv s p H P -> H !! n = Some b -> log_inv s P -> 0 <= n < 2 ^ 31 ->
  let l := fs_log (k_files s) in l_n l < l_size l - 1 -> 1 <= l_outstanding l ->
  exists s', log_write b s = Ok tt s' /\ binv s' p H ({[n]} ∪ P) /\ (forall k, view s' k = view s k) /\
    fs_disk (k_files s') = fs_disk (k_files s) /\ bframe cur (set_log s (fun l => logged_block l n)) s'.
Proof.
  intros Hc Hi Hb Hl Hr l Hroom Ho. pose proof (li_wf _ _ Hl) as W. fold l in W.
  pose proof (lw_n _ W) as Hln. pose proof (lw_size _ W). unfold LOGSIZE, MAXOPBLOCKS in *.
  pose proof (log_free s c cur [] Hc ltac:(set_solver)) as Hfr.
  destruct (calm_acquire s c cur [] LLog Hc Hfr ltac:(simpl; lia)) as [E1 Hc1].
  unfold log_write. rewrite (bind_ok _ _ _ _ _ E1). set (s1 := s <| k_mach := _ |>) in *.
  rewrite (bind_ok _ _ _ (l_n l) s1), (bind_ok _ _ _ (l_size l) s1) by done.
  rewrite i32_small by lia. unfold LOGSIZE, MAXOPBLOCKS.
  destruct (Z.leb_spec (10 * 3) (l_n l)); [lia|]. destruct (Z.leb_spec (l_size l - 1) (l_n l)); [lia|].
  cbn [orb]. cbv match. rewrite (bind_ok _ _ _ (l_outstanding l) s1) by done.
  destruct (Z.ltb_spec (l_outstanding l) 1) as [Ho'|_]; [lia|].
  assert (Hi1 : binv s1 p H P) by (by apply (binv_frame s)).
  assert (Hl1 : log_inv s1 P) by (by destruct Hl).
  destruct (log_record_run s1 _ cur [LLog] p H P n b Hc1 ltac:(set_solver) ltac:(simpl; lia) Hi1 Hb Hl1 Hr Hroom)
    as (s2 & E2 & Hi2 & HV & Hd & Hf).
  assert (Em : k_mach s2 = acq (k_mach s) c LLog) by (by rewrite (bf_mach _ _ _ Hf)).
  exists (s2 <| k_mach := k_mach s |>). split_and!; try done.
  - pose proof (calm_release s s2 c cur [] LLog Hc Hfr Em) as E3.
    rewrite <- E3. exact (log_record_split b s1 s2 (release LLog) E2).
  - by apply (binv_frame s2).
  - destruct Hf as [A1 A2 A3 A4 A5 A6 A7 A8]. by split.
Qed.

(** C4. log_write, inside a transaction and while the log has room, records the block once:
    a block already in the header is absorbed, a new one is appended and pinned in the
    cache.  The log invariant is kept, and the contents of all blocks and the disk are
    untouched until the commit.  With no room left, or outside a transaction, it panics. *)
Theorem log_write_records s c cur p H P n b :
  calm s c cur [] -> k_procs s !! cur = Some p -> binv s p H P -> H !! n = Some b -> log_inv s P ->
  0 <= n < 2 ^ 31 -> let l := fs_log (k_files s) in ~ log_area l n ->
  if decide (l_size l - 1 <= l_n l) then log_write b s = Err (Panic "too big a transaction")
  else if decide (l_outstanding l < 1) then log_write b s = Err (Panic "log_write outside of trans")
  else exists s', log_write b s = Ok tt s' /\ fs_log (k_files s') = logged_block l n /\
    binv s' p H ({[n]} ∪ P) /\ log_inv s' ({[n]} ∪ P) /\ (forall k, view s' k = view s k) /\
    fs_disk (k_files s') = fs_disk (k_files s) /\ k_mach s' = k_mach s.
Proof.
  intros Hc Hp Hi Hb Hl Hr l Ha. pose proof (li_wf _ _ Hl) as W. fold l in W.
  pose proof (lw_n _ W) as Hln. pose proof (lw_size _ W). unfold LOGSIZE, MAXOPBLOCKS in *.
  case_decide as Hfull; [|case_decide as Ho].
  3: { destruct (log_write_run s c cur p H P n b Hc Hi Hb Hl Hr) as (s' & E & Hi' & HV & Hd & Hf); [fold l; lia..|].
       assert (El : fs_log (k_files s') = logged_block l n) by (by rewrite (proj1 (bf_files _ _ _ Hf))).
       exists s'. split_and!; try done; [|apply (bf_mach _ _ _ Hf)].
       apply (log_inv_logged s _ P); try done. fold l. lia. }
  all: pose proof (log_free s c cur [] Hc ltac:(set_solver)) as Hfr;
    destruct (calm_acquire s c cur [] LLog Hc Hfr ltac:(simpl; lia)) as [E1 Hc1];
    unfold log_write; rewrite (bind_ok _ _ _ _ _ E1); set (s1 := s <| k_mach := _ |>) in *;
    rewrite (bind_ok _ _ _ (l_n l) s1), (bind_ok _ _ _ (l_size l) s1) by done;
    rewrite i32_small by lia; unfold LOGSIZE, MAXOPBLOCKS.
  - destruct (Z.leb_spec (l_size l - 1) (l_n l)); [by rewrite orb_true_r|lia].
  - destruct (Z.leb_spec (10 * 3) (l_n l)); [lia|]. destruct (Z.leb_spec (l_size l - 1) (l_n l)); [lia|].
    cbn [orb]. cbv match. rewrite (bind_ok _ _ _ (l_outstanding l) s1) by done.
    destruct (Z.ltb_spec (l_outstanding l) 1) as [Ho'|Ho']; [done|lia].
Qed.


(** ** The end of a transaction *)

(** A short critical section under log.lock that changes the log's fields. *)
Lemma commit_run s c cur p P : calm s c cur [] -> k_procs s !! cur = Some p -> binv s p ∅ P -> log_inv s P ->
  let l := fs_log (k_files s) in
  exists s', commit s = Ok tt s' /\ binv s' p ∅ ∅ /\ log_inv s' ∅ /\
    bframe cur (set_log s (fun l => l <| l_n := 0 |>)) s' /\
    (forall n, ~ log_area l n -> view s' n = view s n /\ ondisk s' n = view s n).
Proof.
  intros Hc Hp Hb Hl l. pose proof (log_inv_few s P Hl) as Hfew. destruct Hl as [W Hnd HP H0]. fold l in W, Hnd, HP, H0.
  pose proof (blocks_start c cur p s ∅ P Hc Hp Hb) as B.
  pose proof (commit_tri c cur p s P _ _ s B W Hfew Hnd HP) as Hrun.
  apply runs_inv in Hrun as ([] & s' & E & B'). fold l in B'. destruct B' as [Hc' Hp' Hb' HV Hd Hf].
  pose proof (proj1 (bf_files _ _ _ Hf)) as El. simpl in El. fold l in El.
  assert (Hrest : forall n, n ∉ homes l -> view s n = ondisk s n).
  { intros n Hn. apply (blocks_clean c cur p _ _ _ _ _ _ n B); [|done]. rewrite HP. by rewrite elem_of_list_to_set. }
  assert (Hon : forall n, ondisk s' n = view s' n) by (intros n; symmetry; by apply (binv_clean s' p ∅ ∅)).
  assert (Hout : forall n, ~ log_area l n -> ondisk s' n = view s n).
  { intros n Hn. unfold ondisk. fold (content (fs_disk (k_files s'))). rewrite Hd, content_write_all.
    apply (commit_done l (view s) _ W); [apply (binv_size s p ∅ P _ Hb)|done|done]. }
  exists s'. split; [done|]. split; [done|]. split; [|split; [done|]].
  - split; rewrite El; [by apply log_wf_empty|by constructor|done|].
    simpl. rewrite Hon, HV. unfold commit_writes. destruct (Z.ltb_spec 0 (l_n l)) as [Hn|Hn].
    + rewrite !after_app. simpl. rewrite bset_eq. unfold head_cleared.
      rewrite enc_head_n; simpl; [done| |lia]. unfold head_set. rewrite length_enc_head, (binv_size s p ∅ P _ Hb).
      change (Z.to_nat BSIZE) with 1024%nat. lia.
    + simpl. rewrite Hrest; [done|]. unfold homes. replace (l_n l) with 0 by (pose proof (lw_n _ W); lia).
      apply not_elem_of_nil.
  - intros n Hn. rewrite <- Hon. split; by apply Hout.
Qed.

(** The end_op of the last operation of a transaction: the log's counters go back to zero and
    the rest of the kernel is as before, except that processes waiting for the log wake up. *)
Lemma end_op_run s c cur p P :
  calm s c cur [] -> k_procs s !! cur = Some p -> binv s p ∅ P -> log_inv s P ->
  let l := fs_log (k_files s) in l_outstanding l = 1 -> l_committing l = 0 ->
  exists s', end_op s = Ok tt s' /\ binv s' p ∅ ∅ /\ log_inv s' ∅ /\
    bframe cur (set_log s (fun l => l <| l_outstanding := 0 |> <| l_n := 0 |>)) s' /\
    (forall n, ~ log_area l n -> view s' n = view s n /\ ondisk s' n = view s n).
Proof.
  intros Hc Hp Hi Hl l Ho Hcm.
  pose proof (log_free s c cur [] Hc ltac:(set_solver)) as Hfr.
  destruct (calm_acquire s c cur [] LLog Hc Hfr ltac:(simpl; lia)) as [E1 Hc1].
  unfold end_op. rewrite (bind_ok _ _ _ _ _ E1). set (s1 := s <| k_mach := _ |>) in *.
  set (l2 := l <| l_outstanding := 0 |>).
  assert (E2 : log_set (fun l => l <| l_outstanding ::= fun k => i32 (k - 1) |>) s1 = Ok tt (set_log s1 (fun _ => l2))).
  { unfold log_set, fset, modify. f_equal. unfold set_log. simpl. fold l. by rewrite Ho. }
  rewrite (bind_ok _ _ _ _ _ E2). set (s2 := set_log s1 _).
  rewrite (bind_ok _ _ _ 0 s2) by (by rewrite <- Hcm). cbn [z2b negb Z.eqb].
  rewrite (bind_ok _ _ _ 0 s2) by done. cbn [Z.eqb]. cbv match.
  set (s3 := set_log s2 (fun l => l <| l_committing := 1 |>)). rewrite (bind_ok _ _ _ tt s3) by done.
  pose proof (calm_release s s3 c cur [] LLog Hc Hfr eq_refl) as E3. rewrite (bind_ok _ _ _ _ _ E3).
  set (s4 := s3 <| k_mach := k_mach s |>). cbn [mwhen].
  assert (Hl4 : log_inv s4 P) by (destruct Hl as [[] ? ? ?]; by split).
  destruct (commit_run s4 c cur p P) as (s5 & E5 & Hi5 & Hl5 & Hf5 & HV5); [by apply (calm_data s)|done|by apply (binv_frame s)|done|].
  rewrite (bind_ok _ _ _ _ _ E5).
  assert (Hm5 : k_mach s5 = k_mach s) by (by rewrite (bf_mach _ _ _ Hf5)).
  assert (Hc5 : calm s5 c cur []) by (apply (calm_data s); [done|done|by rewrite (bf_len _ _ _ Hf5)]).
  assert (Hfr5 : lk_free (k_mach s5) LLog) by (by rewrite Hm5).
  destruct (calm_acquire s5 c cur [] LLog Hc5 Hfr5 ltac:(simpl; lia)) as [E6 Hc6].
  rewrite (bind_ok _ _ _ _ _ E6). set (s6 := s5 <| k_mach := _ |>) in *.
  set (s7 := set_log s6 (fun l => l <| l_committing := 0 |>)). rewrite (bind_ok _ _ _ tt s7) by done.
  assert (Hc7 : calm s7 (c_push (k_mach s5) c) cur [LLog]) by (by apply (calm_data s6)).
  rewrite (bind_ok _ _ _ _ _ (wakeup_calm s7 _ cur _ _ Hc7 ltac:(set_solver))). set (s8 := s7 <| k_procs := _ |>).
  rewrite (calm_release s5 s8 c cur [] LLog Hc5 Hfr5 eq_refl). eexists. split; [done|].
  pose proof (proj1 (bf_files _ _ _ Hf5)) as El5.
  split; [by apply (binv_frame s5)|]. split; [destruct Hl5 as [[] ? ? ?]; by split|]. split; [|done].
  destruct Hf5 as [F1 F2 F3 F4 F5 (F6 & F7) F8 F9]. split; simpl; try done.
  - by rewrite length_wakes, F3.
  - by rewrite wakes_cur, F4.
  - split; [|done]. rewrite F6. simpl. fold l. rewrite <- Hcm. by destruct l.
Qed.


(** C3. The end_op of the last operation of a transaction commits it: end_op returns, the
    log is empty, nobody is committing any more, no block is pinned, and outside the log
    area every block is on the disk with the content the transaction gave it, as the file
    system went on seeing it. *)
Theorem end_op_commits s c cur p P :
  calm s c cur [] -> k_procs s !! cur = Some p -> binv s p ∅ P -> log_inv s P ->
  let l := fs_log (k_files s) in l_outstanding l = 1 -> l_committing l = 0 ->
  exists s', end_op s = Ok tt s' /\ binv s' p ∅ ∅ /\ log_inv s' ∅ /\
    l_outstanding (fs_log (k_files s')) = 0 /\ l_committing (fs_log (k_files s')) = 0 /\ k_mach s' = k_mach s /\
    (forall n, ~ log_area l n -> view s' n = view s n /\ ondisk s' n = view s n).
Proof.
  intros Hc Hp Hi Hl l Ho Hcm. destruct (end_op_run s c cur p P Hc Hp Hi Hl Ho Hcm) as (s' & E & Hi' & Hl' & Hf & HV).
  pose proof (proj1 (bf_files _ _ _ Hf)) as El. exists s'. split_and!; try done; [by rewrite El|by rewrite El|apply Hf].
Qed.

End trans.

(** ** Instances *)

Definition ex_block : list Z := replicate (Z.to_nat BSIZE) 7.
(** Block 100 has been changed by a transaction whose last operation is about to end. *)
Definition tx_kern : kern := set_log (fs_kern (pin_files ∅ 100 ex_block)) (fun l => l <| l_outstanding := 1 |>).
Definition tx_cpu : cpu := ex_cpu (Some 0%nat).
Definition tx_proc : proc := ex_proc 1 RUNNING.

Lemma tx_calm : calm tx_kern tx_cpu 0 [].
Proof. apply (calm_data (fs_kern (pin_files ∅ 100 ex_block))); [apply fs_calm|done..]. Qed.
Lemma tx_binv : binv tx_kern tx_proc ∅ {[100]}.
Proof. apply (binv_frame (fs_kern (pin_files ∅ 100 ex_block))); [|done..]. by apply pin_binv. Qed.
Lemma tx_wf : log_wf (fs_log (k_files tx_kern)).
Proof.
  split; try done. apply Forall_singleton. unfold log_area. simpl. lia.
Qed.
Lemma tx_inv : log_inv tx_kern {[100]}.
Proof. split; [apply tx_wf|apply NoDup_singleton|symmetry; apply (right_id_L ∅ (∪))|done]. Qed.
Lemma boot_booted : booted (fs_log (k_files tx_kern)) (fs_disk (k_files tx_kern)) (fs_kern (fs_files ∅)) tx_cpu 0 tx_proc.
Proof. split; try done; [apply fs_calm|by apply fs_binv]. Qed.

Lemma commit_crash_atomic_witness : exists s' ws r',
  commit (H := ideal_disk) tx_kern = Ok tt s' /\
  fs_disk (k_files s') = write_all (fs_disk (k_files tx_kern)) ws /\ ondisk s' 100 = view tx_kern 100 /\
  recover_from_log (H := ideal_disk) (fs_kern (fs_files ∅)) = Ok tt r'.
Proof.
  destruct (commit_crash_atomic (D := ideal_disk) (DL := ideal_laws) tx_kern tx_cpu 0 tx_proc {[100]} tx_calm
    eq_refl tx_binv tx_inv) as (s' & ws & E & Hd & _ & Hon & Hcrash).
  destruct (Hcrash 0%nat _ _ _ _ boot_booted) as (r' & Er & _).
  exists s', ws, r'. split_and!; [exact E|exact Hd| |exact Er]. apply Hon. unfold log_area. simpl. lia.
Defined.

Lemma recovery_restartable_witness : exists r' ws q',
  recover_from_log (H := ideal_disk) (fs_kern (fs_files ∅)) = Ok tt r' /\
  fs_disk (k_files r') = write_all (Disk ∅ []) ws /\
  recover_from_log (H := ideal_disk) (fs_kern (fs_files ∅)) = Ok tt q' /\ ondisk q' 100 = ondisk r' 100.
Proof.
  destruct (recovery_restartable (D := ideal_disk) (DL := ideal_laws) _ _ _ _ _ _ boot_booted) as
    (r' & ws & E & Hd & _ & Hcrash).
  { split; [|done]. by split. }
  destruct (Hcrash 0%nat _ _ _ _ boot_booted) as (q' & Eq & Hq).
  exists r', ws, q'. split_and!; [exact E|exact Hd|exact Eq|]. apply Hq. unfold log_area. simpl. lia.
Defined.

Lemma end_op_commits_witness : exists s', end_op (H := ideal_disk) tx_kern = Ok tt s' /\
  ondisk s' 100 = view tx_kern 100 /\ view tx_kern 100 = ex_block /\ ondisk tx_kern 100 = block0.
Proof.
  destruct (end_op_commits (D := ideal_disk) (DL := ideal_laws) tx_kern tx_cpu 0 tx_proc {[100]} tx_calm
    eq_refl tx_binv tx_inv eq_refl eq_refl) as (s' & E & _ & _ & _ & _ & _ & Hon).
  exists s'. split_and!; [exact E| |vm_compute; reflexivity|vm_compute; reflexivity]. apply Hon. unfold log_area. simpl. lia.
Defined.

Lemma log_write_records_witness : exists b s1 s2,
  bread (H := ideal_disk) ROOTDEV 50 tx_kern = Ok b s1 /\ log_write b s1 = Ok tt s2 /\
  homes (fs_log (k_files s2)) = [100; 50].
Proof.
  destruct (bread_rule (D := ideal_disk) (DL := ideal_laws) tx_kern tx_cpu 0 tx_proc ∅ {[100]} 50 tx_calm eq_refl
    tx_binv eq_refl) as (b & s1 & E & Hi & _ & Hd & Hf).
  { right. rewrite dom_empty_L, (right_id_L ∅ (∪)), size_singleton. change NBUF with 30%nat. lia. }
  pose proof (proj1 (bf_files _ _ _ Hf)) as El.
  assert (Hl1 : log_inv s1 {[100]}).
  { destruct tx_inv as [W Hn HP H0]. split; rewrite El; [exact W|exact Hn|exact HP|].
    unfold ondisk in *. rewrite Hd. exact H0. }
  pose proof (log_write_records (D := ideal_disk) (DL := ideal_laws) s1 tx_cpu 0 tx_proc (<[50:=b]> ∅) {[100]} 50 b (bframe_calm _ _ _ _ _ Hf tx_calm)
    ltac:(by rewrite (bf_cur _ _ _ Hf)) Hi ltac:(by rewrite lookup_insert_eq) Hl1 ltac:(lia)
    ltac:(rewrite El; unfold log_area; simpl; lia)) as Hw. cbv zeta in Hw. rewrite El in Hw.
  rewrite decide_False in Hw by (simpl; lia). rewrite decide_False in Hw by (simpl; lia).
  destruct Hw as (s2 & Ew & Elog & _). exists b, s1, s2. split; [exact E|]. split; [exact Ew|].
  rewrite Elog. vm_compute. reflexivity.
Defined.

(** begin_op lets an operation in exactly when the log can take its blocks next to those of
    the operations already in it. *)
Lemma begin_op_run s c cur : calm s c cur [] -> let l := fs_log (k_files s) in l_committing l = 0 ->
  l_n l + (l_outstanding l + 1) * MAXOPBLOCKS <= LOGSIZE -> 0 <= l_n l -> 0 <= l_outstanding l ->
  begin_op s = Ok tt (set_log s (fun l => l <| l_outstanding := l_outstanding l + 1 |>)).
Proof.
  intros Hc l Hcm Hroom Hn Ho. pose proof (log_free s c cur [] Hc ltac:(set_solver)) as Hfr.
  destruct (calm_acquire s c cur [] LLog Hc Hfr ltac:(simpl; lia)) as [E1 Hc1].
  unfold begin_op, begin_op_call. rewrite bind_assoc, (bind_ok _ _ _ _ _ E1). set (s1 := s <| k_mach := _ |>) in *.
  unfold begin_op_turn. rewrite !bind_assoc, (bind_ok _ _ _ 0 s1) by (by rewrite <- Hcm).
  rewrite bind_assoc, (bind_ok _ _ _ (l_n l) s1) by done.
  rewrite bind_assoc, (bind_ok _ _ _ (l_outstanding l) s1) by done. cbn [z2b Z.eqb negb].
  destruct (Z.ltb_spec LOGSIZE (l_n l + (l_outstanding l + 1) * MAXOPBLOCKS)); [lia|].
  set (s2 := set_log s1 (fun l => l <| l_outstanding := l_outstanding l + 1 |>)).
  assert (E2 : log_set (fun l => l <| l_outstanding ::= fun k => i32 (k + 1) |>) s1 = Ok tt s2).
  { unfold log_set, fset, modify. f_equal. unfold s2, set_log. simpl. fold l. rewrite i32_small; [done|].
    unfold LOGSIZE, MAXOPBLOCKS in *. lia. }
  rewrite bind_assoc, (bind_ok _ _ _ _ _ E2).
  rewrite bind_assoc, (bind_ok _ _ _ _ _ (calm_release s s2 c cur [] LLog Hc Hfr eq_refl)). done.
Qed.

(** The reservation of begin_op is one block too generous.  mkfs makes a log of LOGSIZE
    blocks of which the header takes one, and begin_op admits three operations of
    MAXOPBLOCKS blocks into it; but log_write refuses the thirtieth block, so three
    admitted operations that each stay within MAXOPBLOCKS can panic the kernel. *)
Theorem log_reservation_short s c cur b : calm s c cur [] ->
  fs_log (k_files s) = Log 2 LOGSIZE 2 0 ROOTDEV 0 (replicate (Z.to_nat LOGSIZE) 0) ->
  exists s', begin_op s = Ok tt s' /\ l_outstanding (fs_log (k_files s')) * MAXOPBLOCKS = LOGSIZE /\
    forall t, calm t c cur [] -> l_size (fs_log (k_files t)) = LOGSIZE -> l_n (fs_log (k_files t)) = LOGSIZE - 1 ->
      l_outstanding (fs_log (k_files t)) = l_outstanding (fs_log (k_files s')) ->
      log_write b t = Err (Panic "too big a transaction").
Proof.
  intros Hc El. eexists. split; [apply (begin_op_run s c cur Hc); rewrite El; done|].
  split; [simpl; by rewrite El|]. intros t Ht Hsz Hn _.
  destruct (calm_acquire t c cur [] LLog Ht (log_free t c cur [] Ht ltac:(set_solver)) ltac:(simpl; lia)) as [E1 _].
  unfold log_write. rewrite (bind_ok _ _ _ _ _ E1). set (t1 := t <| k_mach := _ |>).
  rewrite (bind_ok _ _ _ (LOGSIZE - 1) t1), (bind_ok _ _ _ LOGSIZE t1); [done|by rewrite <- Hsz|by rewrite <- Hn].
Qed.

Lemma log_reservation_short_witness :
  let s := set_log (fs_kern (fs_files ∅)) (fun l => l <| l_outstanding := 2 |>) in
  exists s', begin_op s = Ok tt s' /\ l_outstanding (fs_log (k_files s')) * MAXOPBLOCKS = LOGSIZE.
Proof.
  intros s. destruct (log_reservation_short s tx_cpu 0 0) as (s' & E & H & _).
  - apply (calm_data (fs_kern (fs_files ∅))); [apply fs_calm|done..].
  - reflexivity.
  - exists s'. split; [exact E|exact H].
Defined.
