(* ===== verification/Fs.v ===== *)
(** * The file system: kernel/fs.c

    Blocks, inodes, directories and path names.  An inode pointer is an index into the
    inode table; the null checks of ilock and iunlock do not arise.  readi and writei are
    generic in the place the bytes go to or come from: a (user or kernel) address, or a
    local struct of the caller, which is a list of bytes.  Character arrays are lists of
    bytes; the byte after the end of a list is NUL. *)

From S2P Require Import Prelude Riscv CString Kalloc Vm Spinlock Proc ProcSpec Headers Sleeplock Uart Printf.
From S2P Require Import Bio Log.

Definition inode_get {A} (ip : nat) (f : inode -> A) : M kern A :=
  t <- fget fs_itable ;; x <- mlookup (t !! ip) ;; mret (f x).
Definition inode_set (ip : nat) (f : inode -> inode) : M kern unit :=
  t <- fget fs_itable ;; _ <- mlookup (t !! ip) ;;
  fset (fun s => s <| fs_itable ::= alter f ip |>).

(** ** Structs inside blocks *)

Definition get_sb (d : list Z) : superblock :=
  let w i := get_le 4 d (4 * i) in
  Superblock (w 0%nat) (w 1%nat) (w 2%nat) (w 3%nat) (w 4%nat) (w 5%nat) (w 6%nat) (w 7%nat).

(** struct dinode, at byte [o] of a block. *)
Definition di_off (inum : Z) : nat := Z.to_nat (inum mod IPB * sizeof_dinode).
Definition di_type (d : list Z) (o : nat) : Z := i16 (get_le 2 d o).
Definition di_addr (d : list Z) (o i : nat) : Z := get_le 4 d (o + 12 + 4 * i).
Definition load_dinode (d : list Z) (o : nat) (x : inode) : inode :=
  x <| i_type := di_type d o |> <| i_major := i16 (get_le 2 d (o + 2)) |>
    <| i_minor := i16 (get_le 2 d (o + 4)) |> <| i_nlink := i16 (get_le 2 d (o + 6)) |>
    <| i_size := get_le 4 d (o + 8) |> <| i_addrs := di_addr d o <$> seq 0 13 |>.
Definition put_addrs (d : list Z) (o : nat) (addrs : list Z) : list Z :=
  foldl (fun d e => put_le 4 d (o + 12 + 4 * e.1) (u32 e.2)) d (zip (seq 0 13) addrs).
Definition store_dinode (d : list Z) (o : nat) (x : inode) : list Z :=
  let d := put_le 2 d o (u16 (i_type x)) in
  let d := put_le 2 d (o + 2) (u16 (i_major x)) in
  let d := put_le 2 d (o + 4) (u16 (i_minor x)) in
  let d := put_le 2 d (o + 6) (u16 (i_nlink x)) in
  let d := put_le 4 d (o + 8) (u32 (i_size x)) in
  put_addrs d o (i_addrs x).

Section fs.
Context `{DiskOps} `{Board}.

Definition edit (b : nat) (f : list Z -> list Z) : M kern unit := buf_set b (fun x => x <| b_data ::= f |>).

Definition readsb (dev : Z) : M kern superblock :=
  bp <- bread (u32 dev) 1 ;;
  d <- buf_get bp b_data ;;
  brelse bp ;;;
  mret (get_sb d).

Definition fsinit (dev : Z) : M kern unit :=
  sb <- readsb dev ;;
  fset (fun s => s <| fs_sb := sb |>) ;;;
  if negb (sb_magic sb =? FSMAGIC) then panic "invalid file system"
  else initlog dev sb.

(** ** Blocks *)

Definition bzero (dev bno : Z) : M kern unit :=
  bp <- bread (u32 dev) (u32 bno) ;;
  edit bp (fun _ => replicate (Z.to_nat BSIZE) 0) ;;;
  log_write bp ;;;
  brelse bp.

(** Bit [bi] of a bitmap block. *)
Definition bit_mask (bi : Z) : Z := Z.shiftl 1 (bi mod 8).
Definition bit_byte (d : list Z) (bi : Z) : Z := default 0 (d !! Z.to_nat (bi / 8)).
Definition bit_free (d : list Z) (bi : Z) : bool := Z.land (bit_byte d bi) (bit_mask bi) =? 0.
Definition bit_mark (bi : Z) (d : list Z) : list Z :=
  <[Z.to_nat (bi / 8) := Z.lor (bit_byte d bi) (bit_mask bi)]> d.
Definition bit_clear (bi : Z) (d : list Z) : list Z :=
  <[Z.to_nat (bi / 8) := Z.ldiff (bit_byte d bi) (bit_mask bi)]> d.

(** [for(bi = 0; bi < BPB && b + bi < sb.size; bi++)]: the first free bit. *)
Fixpoint bit_scan (d : list Z) (b size bi : Z) (fuel : nat) : option Z :=
  match fuel with
  | O => None
  | S fuel' =>
      if (bi <? BPB) && (b + bi <? size) then
        if bit_free d bi then Some bi else bit_scan d b size (bi + 1) fuel'
      else None
  end.

Definition NO_BLOCKS : list Z := bytes_of "balloc: out of blocks" ++ [10].
Fixpoint balloc_from (fuel : nat) (dev b : Z) : M kern Z :=
  match fuel with
  | O => mfail NoFuel
  | S fuel' =>
      sb <- fget fs_sb ;;
      if b <? sb_size sb then
        bp <- bread dev (BBLOCK b sb) ;;
        d <- buf_get bp b_data ;;
        match bit_scan d b (sb_size sb) 0 (Z.to_nat BPB) with
        | Some bi =>
            edit bp (bit_mark bi) ;;;
            log_write bp ;;;
            brelse bp ;;;
            bzero dev (b + bi) ;;;
            mret (b + bi)
        | None =>
            brelse bp ;;;
            balloc_from fuel' dev (b + BPB)
        end
      else
        printf NO_BLOCKS [] ;;;
        mret 0
  end.
Definition balloc (dev : Z) : M kern Z :=
  sb <- fget fs_sb ;;
  balloc_from (Z.to_nat (sb_size sb / BPB) + 2) dev 0.

Definition bfree (dev b : Z) : M kern unit :=
  sb <- fget fs_sb ;;
  bp <- bread (u32 dev) (BBLOCK b sb) ;;
  d <- buf_get bp b_data ;;
  if bit_free d (b mod BPB) then panic "freeing free block"
  else
    edit bp (bit_clear (b mod BPB)) ;;;
    log_write bp ;;;
    brelse bp.

(** ** Inodes *)

Definition iinit : M kern unit :=
  on_mach (initlock LItable "itable") ;;;
  mfor NINODE (fun i => initsleeplock (inode_lock i) "inode").

(** One turn of iget's loop: the entry for (dev, inum), and the first empty slot. *)
Fixpoint itable_find (t : list inode) (dev inum : Z) (i : nat) (empty : option nat) : option nat * option nat :=
  match t with
  | [] => (None, empty)
  | x :: t' =>
      if (0 <? i_ref x) && (i_dev x =? dev) && (i_inum x =? inum) then (Some i, empty)
      else itable_find t' dev inum (S i)
             (match empty with None => if i_ref x =? 0 then Some i else None | Some e => Some e end)
  end.
Definition iget (dev inum : Z) : M kern nat :=
  acquire LItable ;;;
  t <- fget fs_itable ;;
  match itable_find t dev inum 0 None with
  | (Some ip, _) =>
      inode_set ip (fun x => x <| i_ref ::= fun n => i32 (n + 1) |>) ;;;
      release LItable ;;;
      mret ip
  | (None, None) => panic "iget: no inodes"
  | (None, Some ip) =>
      inode_set ip (fun x => x <| i_dev := dev |> <| i_inum := inum |> <| i_ref := 1 |> <| i_valid := 0 |>) ;;;
      release LItable ;;;
      mret ip
  end.

Definition NO_INODES : list Z := bytes_of "ialloc: no inodes" ++ [10].
Fixpoint ialloc_from (fuel : nat) (dev type inum : Z) : M kern (option nat) :=
  match fuel with
  | O => mfail NoFuel
  | S fuel' =>
      sb <- fget fs_sb ;;
      if inum <? sb_ninodes sb then
        bp <- bread dev (IBLOCK inum sb) ;;
        d <- buf_get bp b_data ;;
        if di_type d (di_off inum) =? 0 then
          edit bp (fun d => put_le 2 (list_inserts (di_off inum) (replicate (Z.to_nat sizeof_dinode) 0) d)
                                   (di_off inum) (u16 type)) ;;;
          log_write bp ;;;
          brelse bp ;;;
          ip <- iget dev inum ;;
          mret (Some ip)
        else
          brelse bp ;;;
          ialloc_from fuel' dev type (inum + 1)
      else
        printf NO_INODES [] ;;;
        mret None
  end.
Definition ialloc (dev type : Z) : M kern (option nat) :=
  sb <- fget fs_sb ;;
  ialloc_from (S (Z.to_nat (sb_ninodes sb))) dev type 1.

Definition iupdate (ip : nat) : M kern unit :=
  sb <- fget fs_sb ;;
  x <- inode_get ip (fun x => x) ;;
  bp <- bread (i_dev x) (IBLOCK (i_inum x) sb) ;;
  edit bp (fun d => store_dinode d (di_off (i_inum x)) x) ;;;
  log_write bp ;;;
  brelse bp.

Definition idup (ip : nat) : M kern nat :=
  acquire LItable ;;;
  inode_set ip (fun x => x <| i_ref ::= fun n => i32 (n + 1) |>) ;;;
  release LItable ;;;
  mret ip.

Definition ilock (ip : nat) : M kern unit :=
  ref <- inode_get ip i_ref ;;
  if ref <? 1 then panic "ilock"
  else
    acquiresleep (inode_lock ip) ;;;
    valid <- inode_get ip i_valid ;;
    if valid =? 0 then
      sb <- fget fs_sb ;;
      x <- inode_get ip (fun x => x) ;;
      bp <- bread (i_dev x) (IBLOCK (i_inum x) sb) ;;
      d <- buf_get bp b_data ;;
      inode_set ip (load_dinode d (di_off (i_inum x))) ;;;
      brelse bp ;;;
      inode_set ip (fun x => x <| i_valid := 1 |>) ;;;
      type <- inode_get ip i_type ;;
      if type =? 0 then panic "ilock: no type" else mret tt
    else mret tt.

Definition iunlock (ip : nat) : M kern unit :=
  h <- holdingsleep (inode_lock ip) ;;
  if negb h then panic "iunlock"
  else
    ref <- inode_get ip i_ref ;;
    if ref <? 1 then panic "iunlock"
    else releasesleep (inode_lock ip).

(** ** Inode content *)

Definition addr_get (ip : nat) (i : nat) : M kern Z :=
  a <- inode_get ip i_addrs ;; mlookup (a !! i).
Definition addr_set (ip : nat) (i : nat) (v : Z) : M kern unit :=
  inode_set ip (fun x => x <| i_addrs ::= insert i v |>).

(** [if((addr = ip->addrs[i]) == 0){ addr = balloc(ip->dev); if(addr == 0) return 0; ip->addrs[i] = addr; }] *)
Definition bmap_slot (ip : nat) (i : nat) : M kern Z :=
  addr <- addr_get ip i ;;
  if addr =? 0 then
    dev <- inode_get ip i_dev ;;
    addr <- balloc dev ;;
    if addr =? 0 then mret 0 else addr_set ip i addr ;;; mret addr
  else mret addr.
Definition bmap (ip : nat) (bn : Z) : M kern Z :=
  if bn <? NDIRECT then bmap_slot ip (Z.to_nat bn)
  else
    let bn := bn - NDIRECT in
    if bn <? NINDIRECT then
      addr <- bmap_slot ip (Z.to_nat NDIRECT) ;;
      if addr =? 0 then mret 0
      else
        dev <- inode_get ip i_dev ;;
        bp <- bread dev addr ;;
        d <- buf_get bp b_data ;;
        let addr := get_le 4 d (Z.to_nat (4 * bn)) in
        addr <- (if addr =? 0 then
                   addr <- balloc dev ;;
                   mwhen (negb (addr =? 0))
                     (edit bp (fun d => put_le 4 d (Z.to_nat (4 * bn)) addr) ;;; log_write bp) ;;;
                   mret addr
                 else mret addr) ;;
        brelse bp ;;;
        mret addr
    else panic "bmap: out of range".

Definition itrunc (ip : nat) : M kern unit :=
  mfor (Z.to_nat NDIRECT) (fun i =>
    addr <- addr_get ip i ;;
    mwhen (negb (addr =? 0))
      (dev <- inode_get ip i_dev ;; bfree dev addr ;;; addr_set ip i 0)) ;;;
  ind <- addr_get ip (Z.to_nat NDIRECT) ;;
  mwhen (negb (ind =? 0))
    (dev <- inode_get ip i_dev ;;
     bp <- bread dev ind ;;
     mfor (Z.to_nat NINDIRECT) (fun j =>
       d <- buf_get bp b_data ;;
       let a := get_le 4 d (4 * j) in
       mwhen (negb (a =? 0)) (bfree dev a)) ;;;
     brelse bp ;;;
     bfree dev ind ;;;
     addr_set ip (Z.to_nat NDIRECT) 0) ;;;
  inode_set ip (fun x => x <| i_size := 0 |>) ;;;
  iupdate ip.

Definition iput (ip : nat) : M kern unit :=
  acquire LItable ;;;
  x <- inode_get ip (fun x => x) ;;
  mwhen ((i_ref x =? 1) && z2b (i_valid x) && (i_nlink x =? 0))
    (acquiresleep (inode_lock ip) ;;;
     release LItable ;;;
     itrunc ip ;;;
     inode_set ip (fun x => x <| i_type := 0 |>) ;;;
     iupdate ip ;;;
     inode_set ip (fun x => x <| i_valid := 0 |>) ;;;
     releasesleep (inode_lock ip) ;;;
     acquire LItable) ;;;
  inode_set ip (fun x => x <| i_ref ::= fun n => i32 (n - 1) |>) ;;;
  release LItable.

Definition iunlockput (ip : nat) : M kern unit := iunlock ip ;;; iput ip.

(** struct stat *)
Record stat := Stat { st_dev : Z; st_ino : Z; st_type : Z; st_nlink : Z; st_size : Z }.
Definition stati (ip : nat) : M kern stat :=
  inode_get ip (fun x => Stat (i32 (i_dev x)) (i_inum x) (i_type x) (i_nlink x) (i_size x)).

Section copy.
(** Where the bytes go or come from, and the copy of one piece: [None] is failure. *)
Context {A : Type} (out : A -> list Z -> M kern (option A)) (inp : A -> Z -> M kern (bool * list Z * A)).

Fixpoint readi_loop (fuel : nat) (ip : nat) (dst : A) (off n tot : Z) : M kern (Z * A) :=
  match fuel with
  | O => mfail NoFuel
  | S fuel' =>
      if tot <? n then
        addr <- bmap ip (off / BSIZE) ;;
        if addr =? 0 then mret (tot, dst)
        else
          dev <- inode_get ip i_dev ;;
          bp <- bread dev addr ;;
          let m := Z.min (n - tot) (BSIZE - off mod BSIZE) in
          d <- buf_get bp b_data ;;
          r <- out dst (take (Z.to_nat m) (drop (Z.to_nat (off mod BSIZE)) d)) ;;
          match r with
          | None => brelse bp ;;; mret (-1, dst)
          | Some dst' => brelse bp ;;; readi_loop fuel' ip dst' (off + m) n (tot + m)
          end
      else mret (tot, dst)
  end.
Definition blocks_of (n : Z) : nat := Z.to_nat (n / BSIZE) + 3.
Definition readi_gen (ip : nat) (dst : A) (off n : Z) : M kern (Z * A) :=
  size <- inode_get ip i_size ;;
  if (size <? off) || (u32 (off + n) <? off) then mret (0, dst)
  else
    let n := if size <? u32 (off + n) then u32 (size - off) else n in
    readi_loop (blocks_of n) ip dst off n 0.

Fixpoint writei_loop (fuel : nat) (ip : nat) (src : A) (off n tot : Z) : M kern (Z * Z) :=
  match fuel with
  | O => mfail NoFuel
  | S fuel' =>
      if tot <? n then
        addr <- bmap ip (off / BSIZE) ;;
        if addr =? 0 then mret (tot, off)
        else
          dev <- inode_get ip i_dev ;;
          bp <- bread dev addr ;;
          let m := Z.min (n - tot) (BSIZE - off mod BSIZE) in
          ' (ok, bs, src') <- inp src m ;;
          edit bp (list_inserts (Z.to_nat (off mod BSIZE)) bs) ;;;
          if (ok : bool) then
            log_write bp ;;;
            brelse bp ;;;
            writei_loop fuel' ip src' (off + m) n (tot + m)
          else brelse bp ;;; mret (tot, off)
      else mret (tot, off)
  end.
Definition writei_gen (ip : nat) (src : A) (off n : Z) : M kern Z :=
  size <- inode_get ip i_size ;;
  if (size <? off) || (u32 (off + n) <? off) then mret (-1)
  else if MAXFILE * BSIZE <? u32 (off + n) then mret (-1)
  else
    ' (tot, off') <- writei_loop (blocks_of n) ip src off n 0 ;;
    size <- inode_get ip i_size ;;
    mwhen (size <? off') (inode_set ip (fun x => x <| i_size := off' |>)) ;;;
    iupdate ip ;;;
    mret (i32 tot).
End copy.

(** To and from an address, and to and from a local struct. *)
Definition out_addr (user : bool) (dst : Z) (bs : list Z) : M kern (option Z) :=
  r <- either_copyout user dst bs ;;
  mret (if r =? -1 then None else Some (u64 (dst + Z.of_nat (length bs)))).
Definition inp_addr (user : bool) (src m : Z) : M kern (bool * list Z * Z) :=
  ' (r, bs) <- either_copyin user src m ;;
  mret (negb (r =? -1), bs, u64 (src + m)).
Definition out_local (dst : list Z) (bs : list Z) : M kern (option (list Z)) := mret (Some (dst ++ bs)).
Definition inp_local (src : list Z) (m : Z) : M kern (bool * list Z * list Z) :=
  mret (true, take (Z.to_nat m) src, drop (Z.to_nat m) src).

Definition readi (ip : nat) (user_dst : bool) (dst off n : Z) : M kern Z :=
  ' (tot, _) <- readi_gen (out_addr user_dst) ip dst off n ;; mret (i32 tot).
Definition readi_local (ip : nat) (off n : Z) : M kern (Z * list Z) :=
  ' (tot, bs) <- readi_gen out_local ip [] off n ;; mret (i32 tot, bs).
Definition writei (ip : nat) (user_src : bool) (src off n : Z) : M kern Z :=
  writei_gen (inp_addr user_src) ip src off n.
Definition writei_local (ip : nat) (bs : list Z) (off n : Z) : M kern Z :=
  writei_gen inp_local ip bs off n.

(** ** Directories *)

(** strncmp and strncpy of kernel/string.c on arrays. *)
Fixpoint strncmp_arr (n : nat) (p q : list Z) : Z :=
  match n with
  | O => 0
  | S n' =>
      let a := default 0 (p !! 0%nat) in let b := default 0 (q !! 0%nat) in
      if negb (a =? 0) && (a =? b) then strncmp_arr n' (tail p) (tail q) else a - b
  end.
Fixpoint strncpy_arr (n : nat) (t : list Z) : list Z :=
  match n with
  | O => []
  | S n' =>
      let a := default 0 (t !! 0%nat) in
      a :: (if a =? 0 then replicate n' 0 else strncpy_arr n' (tail t))
  end.

Definition namecmp (s t : list Z) : Z := strncmp_arr (Z.to_nat DIRSIZ) s t.

(** struct dirent *)
Definition de_inum (de : list Z) : Z := get_le 2 de 0.
Definition de_name (de : list Z) : list Z := take (Z.to_nat DIRSIZ) (drop 2 de).
Definition mk_dirent (inum : Z) (name : list Z) : list Z :=
  le_bytes 2 (u16 inum) ++ strncpy_arr (Z.to_nat DIRSIZ) name.

Fixpoint dirlookup_from (fuel : nat) (dp : nat) (name : list Z) (off : Z) : M kern (option (nat * Z)) :=
  match fuel with
  | O => mfail NoFuel
  | S fuel' =>
      size <- inode_get dp i_size ;;
      if off <? size then
        ' (r, de) <- readi_local dp off sizeof_dirent ;;
        if negb (r =? sizeof_dirent) then panic "dirlookup read"
        else if de_inum de =? 0 then dirlookup_from fuel' dp name (off + sizeof_dirent)
        else if namecmp name (de_name de) =? 0 then
          dev <- inode_get dp i_dev ;;
          ip <- iget dev (de_inum de) ;;
          mret (Some (ip, off))
        else dirlookup_from fuel' dp name (off + sizeof_dirent)
      else mret None
  end.
Definition dir_fuel (size : Z) : nat := Z.to_nat (size / sizeof_dirent) + 2.
Definition dirlookup (dp : nat) (name : list Z) : M kern (option (nat * Z)) :=
  type <- inode_get dp i_type ;;
  if negb (type =? T_DIR) then panic "dirlookup not DIR"
  else
    size <- inode_get dp i_size ;;
    dirlookup_from (dir_fuel size) dp name 0.

(** The offset of the first empty entry, or the directory's size. *)
Fixpoint dirent_free (fuel : nat) (dp : nat) (off : Z) : M kern Z :=
  match fuel with
  | O => mfail NoFuel
  | S fuel' =>
      size <- inode_get dp i_size ;;
      if off <? size then
        ' (r, de) <- readi_local dp off sizeof_dirent ;;
        if negb (r =? sizeof_dirent) then panic "dirlink read"
        else if de_inum de =? 0 then mret off
        else dirent_free fuel' dp (off + sizeof_dirent)
      else mret off
  end.
Definition dirlink (dp : nat) (name : list Z) (inum : Z) : M kern Z :=
  found <- dirlookup dp name ;;
  match found with
  | Some (ip, _) => iput ip ;;; mret (-1)
  | None =>
      size <- inode_get dp i_size ;;
      off <- dirent_free (dir_fuel size) dp 0 ;;
      r <- writei_local dp (mk_dirent inum name) off sizeof_dirent ;;
      mret (if r =? sizeof_dirent then 0 else -1)
  end.

(** ** Paths *)

Definition SLASH : Z := 47.
Fixpoint skip_slashes (path : list Z) : list Z :=
  match path with c :: path' => if c =? SLASH then skip_slashes path' else path | [] => [] end.
(** The bytes up to the next slash, and the rest. *)
Fixpoint elem (path : list Z) : list Z * list Z :=
  match path with
  | [] => ([], [])
  | c :: path' => if c =? SLASH then ([], path) else let '(e, rest) := elem path' in (c :: e, rest)
  end.
(** The path is its bytes without the NUL; [name] is the caller's DIRSIZ-byte array. *)
Definition skipelem (path name : list Z) : option (list Z * list Z) :=
  match skip_slashes path with
  | [] => None
  | path =>
      let '(s, rest) := elem path in
      let len := length s in
      let name' := if (Z.to_nat DIRSIZ <=? len)%nat then list_inserts 0 (take (Z.to_nat DIRSIZ) s) name
                   else <[len := 0]> (list_inserts 0 s name) in
      Some (skip_slashes rest, name')
  end.

Fixpoint namex_loop (fuel : nat) (ip : nat) (path : list Z) (nameiparent : bool) (name : list Z)
    : M kern (option nat * list Z) :=
  match fuel with
  | O => mfail NoFuel
  | S fuel' =>
      match skipelem path name with
      | None =>
          if nameiparent then iput ip ;;; mret (None, name) else mret (Some ip, name)
      | Some (path', name') =>
          ilock ip ;;;
          type <- inode_get ip i_type ;;
          if negb (type =? T_DIR) then iunlockput ip ;;; mret (None, name')
          else if nameiparent && bool_decide (path' = []) then iunlock ip ;;; mret (Some ip, name')
          else
            next <- dirlookup ip name' ;;
            match next with
            | None => iunlockput ip ;;; mret (None, name')
            | Some (next, _) => iunlockput ip ;;; namex_loop fuel' next path' nameiparent name'
            end
      end
  end.
Definition namex (path : list Z) (nameiparent : bool) (name : list Z) : M kern (option nat * list Z) :=
  ip <- (if default 0 (path !! 0%nat) =? SLASH then iget ROOTDEV ROOTINO
         else
           p <- self ;; cwd <- proc_get p p_cwd ;; cwd <- mlookup cwd ;; idup cwd) ;;
  namex_loop (S (length path)) ip path nameiparent name.

Definition namei (path : list Z) : M kern (option nat) :=
  ' (ip, _) <- namex path false (replicate (Z.to_nat DIRSIZ) 0) ;; mret ip.
Definition nameiparent (path name : list Z) : M kern (option nat * list Z) := namex path true name.

End fs.
