(* ===== verification/FsTx.v ===== *)
(** * Triples for transactions

    [tx c cur p s0 H P V s]: process [cur] runs on CPU [c] inside a transaction that began
    in (or is framed by) [s0]; it holds the blocks of [H], the log has recorded the blocks
    of [P], and [V] is the content of every block as the file system sees it.  One rule per
    operation kernel/fs.c is built from. *)

From S2P Require Import Prelude Riscv CString Kalloc Vm Spinlock Proc ProcSpec Headers Codec Sleeplock.
From S2P Require Import Uart Printf Bio BioSpec Bcache Example ConsoleSpec Log Blocks LogSpec Crash LogOps Fs.

(** The part of the log's state that log_write does not touch. *)
Definition log_const (l : logstate) : Z * Z * Z * Z * Z :=
  (l_start l, l_size l, l_outstanding l, l_committing l, l_dev l).
Definition set_itable (s : kern) (g : list inode -> list inode) : kern :=
  s <| k_files ::= fun f => f <| fs_itable ::= g |> |>.
Definition sblock (s : kern) : superblock := fs_sb (k_files s).
Definition logsize (s : kern) : Z := l_size (fs_log (k_files s)).
Definition in_log (s : kern) (n : Z) : Prop := log_area (fs_log (k_files s)) n.

Record tx (c : cpu) (cur : nat) (p : proc) (s0 : kern) (H : gmap Z nat) (P : gset Z) (V : contents) (s : kern) : Prop := {
  tx_blocks : blocks c cur p (set_log s0 (fun _ => fs_log (k_files s))) H P V (fs_disk (k_files s0)) s;
  tx_log : log_inv s P;
  tx_const : log_const (fs_log (k_files s)) = log_const (fs_log (k_files s0));
  tx_open : 1 <= l_outstanding (fs_log (k_files s0))
}.

(** Room for [k] more blocks in the log. *)
Definition room (s0 : kern) (P : gset Z) (k : Z) : Prop := Z.of_nat (size P) + k <= logsize s0 - 1.

Section tx.
Context {D : DiskOps} {DL : DiskLaws} {B : Board} (c : cpu) (cur : nat) (p : proc).
Implicit Types (s : kern) (H : gmap Z nat) (P : gset Z) (V : contents) (n : Z) (b : nat).
Notation tx := (tx c cur p).

Lemma tx_start s P : calm s c cur [] -> k_procs s !! cur = Some p -> binv s p ∅ P -> log_inv s P ->
  1 <= l_outstanding (fs_log (k_files s)) -> tx s ∅ P (view s) s.
Proof.
  intros Hc Hp Hb Hl Ho. by split.
Qed.
Lemma tx_ext s0 H P V V' s : (forall k, V k = V' k) -> tx s0 H P V s -> tx s0 H P V' s.
Proof. intros E [T1 T2 T3 T4]. split; try done. by apply (blocks_ext c cur p _ H P V). Qed.

Lemma tx_step s0 H P V s H' V' s' : tx s0 H P V s ->
  blocks c cur p (set_log s0 (fun _ => fs_log (k_files s))) H' P V' (fs_disk (k_files s0)) s' -> tx s0 H' P V' s'.
Proof.
  intros [T1 T2 T3 T4] Hb. assert (El : fs_log (k_files s') = fs_log (k_files s)).
  { by rewrite (proj1 (bf_files _ _ _ (bl_frame _ _ _ _ _ _ _ _ _ Hb))). }
  split; rewrite ?El; try done. destruct T2 as [A1 A2 A3 A4]. split; rewrite ?El; try done.
  unfold ondisk in *. rewrite (bl_disk _ _ _ _ _ _ _ _ _ Hb). by rewrite (bl_disk _ _ _ _ _ _ _ _ _ T1) in A4.
Qed.

Lemma tx_clean s0 H P V s n : tx s0 H P V s -> n ∉ P -> H !! n = None -> V n = content (fs_disk (k_files s0)) n.
Proof. intros T. exact (blocks_clean c cur p _ H P V _ s n (tx_blocks _ _ _ _ _ _ _ _ T)). Qed.
Lemma tx_len s0 H P V s n : tx s0 H P V s -> length (V n) = Z.to_nat BSIZE.
Proof. intros T. exact (blocks_size c cur p _ H P V _ s n (tx_blocks _ _ _ _ _ _ _ _ T)). Qed.

Lemma bread_tx s0 H P V s n : tx s0 H P V s -> H !! n = None -> n ∈ P \/ (size (P ∪ dom H) < NBUF)%nat ->
  runs (bread ROOTDEV n) s (fun b s' => tx s0 (<[n := b]> H) P V s').
Proof.
  intros T Hn Hr. eapply runs_conseq; [by apply (bread_tri c cur p _ H P V _ s n (tx_blocks _ _ _ _ _ _ _ _ T))|].
  intros b s' Hb. by apply (tx_step s0 H P V s).
Qed.
Lemma data_tx s0 H P V s n b : tx s0 H P V s -> H !! n = Some b ->
  runs (buf_get b b_data) s (fun v s' => v = V n /\ s' = s).
Proof. intros T Hn. by apply (data_tri c cur p _ H P V _ s n b (tx_blocks _ _ _ _ _ _ _ _ T)). Qed.
Lemma edit_tx s0 H P V s n b g : tx s0 H P V s -> H !! n = Some b -> length (g (V n)) = Z.to_nat BSIZE ->
  runs (edit b g) s (fun _ s' => tx s0 H P (bset V n (g (V n))) s').
Proof.
  intros T Hn Hg. eapply runs_conseq; [by apply (edit_tri c cur p _ H P V _ s n b g (tx_blocks _ _ _ _ _ _ _ _ T))|].
  intros [] s' Hb. by apply (tx_step s0 H P V s).
Qed.
Lemma brelse_tx s0 H P V s n b : tx s0 H P V s -> H !! n = Some b -> n ∈ P \/ V n = content (fs_disk (k_files s0)) n ->
  runs (brelse b) s (fun _ s' => tx s0 (delete n H) P V s').
Proof.
  intros T Hn Hcl. eapply runs_conseq; [by apply (brelse_tri c cur p _ H P V _ s n b (tx_blocks _ _ _ _ _ _ _ _ T))|].
  intros [] s' Hb. by apply (tx_step s0 H P V s).
Qed.

Lemma log_len s P : log_inv s P -> Z.of_nat (size P) = l_n (fs_log (k_files s)).
Proof.
  intros [W Hnd -> _]. rewrite size_list_to_set by done. rewrite length_homes by done. pose proof (lw_n _ W). lia.
Qed.
Lemma log_write_tx s0 H P V s n b : tx s0 H P V s -> H !! n = Some b -> 0 <= n < 2 ^ 31 -> ~ in_log s0 n ->
  room s0 P 1 -> runs (log_write b) s (fun _ s' => tx s0 H ({[n]} ∪ P) V s').
Proof.
  intros [[Tc Tp Ti TV Td Tf] Tl Tk To] Hn Hr Ha Hroom. unfold room, logsize, in_log in *.
  pose proof (log_len s P Tl) as Hlen. injection Tk as K1 K2 K3 K4 K5.
  destruct (log_write_run s c cur p H P n b Tc Ti Hn Tl Hr) as (s' & E & Hi & HV & Hd & Hf); [lia..|].
  apply (runs_ok _ _ _ _ _ E).
  assert (El : fs_log (k_files s') = logged_block (fs_log (k_files s)) n) by (by rewrite (proj1 (bf_files _ _ _ Hf))).
  assert (Ec : log_const (logged_block (fs_log (k_files s)) n) = log_const (fs_log (k_files s))).
  { unfold logged_block. by case_decide. }
  split; [|apply (log_inv_logged s s' P n); try done; [unfold log_area in *; by rewrite K1, K2|lia]
          |rewrite El, Ec; unfold log_const; congruence|done].
  split; try done.
  - by apply (bframe_calm cur (set_log s (fun l => logged_block l n))), (calm_data s).
  - by rewrite (bf_cur _ _ _ Hf).
  - intros k. by rewrite HV.
  - by rewrite Hd.
  - rewrite El. apply (bframe_trans cur _ (set_log s (fun l => logged_block l n))); [|done].
    destruct Tf as [A1 A2 A3 A4 A5 (A8 & A9 & A10 & A11 & A12) A13 A14]. by split.
Qed.

(** ** The in-memory inodes *)

Lemma blocks_itable s0 H P V d s g : blocks c cur p s0 H P V d s ->
  blocks c cur p (set_itable s0 g) H P V d (set_itable s g).
Proof.
  intros [Hc Hp Hi HV Hd Hf]. split; try done; [by apply (calm_data s)|by apply (binv_frame s)|].
  destruct Hf as [A1 A2 A3 A4 A5 (A8 & A9 & A10 & A11 & A12) A13 A14]. split; try done.
  split_and!; try done. simpl. by rewrite A10.
Qed.
Lemma tx_itable s0 H P V s : tx s0 H P V s -> fs_itable (k_files s) = fs_itable (k_files s0).
Proof. intros T. apply (bf_files _ _ _ (bl_frame _ _ _ _ _ _ _ _ _ (tx_blocks _ _ _ _ _ _ _ _ T))). Qed.
Lemma tx_sb s0 H P V s : tx s0 H P V s -> fs_sb (k_files s) = sblock s0.
Proof. intros T. apply (bf_files _ _ _ (bl_frame _ _ _ _ _ _ _ _ _ (tx_blocks _ _ _ _ _ _ _ _ T))). Qed.

Lemma sb_tx {A} (Q : A -> kern -> Prop) (k : superblock -> M kern A) s0 H P V s : tx s0 H P V s ->
  runs (k (sblock s0)) s Q -> runs (mbind (fget fs_sb) k) s Q.
Proof. intros T Hk. apply runs_bind, runs_gets. by rewrite (tx_sb s0 H P V s T). Qed.

Lemma inode_get_tx {A} (f : inode -> A) s0 H P V s ip x : tx s0 H P V s -> fs_itable (k_files s0) !! ip = Some x ->
  runs (inode_get ip f) s (fun v s' => v = f x /\ s' = s).
Proof.
  intros T Hx. apply (runs_ok _ _ _ (f x) s); [|done]. unfold inode_get, fget. rewrite (bind_ok _ _ _ (fs_itable (k_files s)) s) by done.
  by rewrite (tx_itable s0 H P V s T), Hx.
Qed.
Lemma inode_set_tx g s0 H P V s ip x : tx s0 H P V s -> fs_itable (k_files s0) !! ip = Some x ->
  runs (inode_set ip g) s (fun _ s' => tx (set_itable s0 (alter g ip)) H P V s').
Proof.
  intros T Hx. apply (runs_ok _ _ _ tt (set_itable s (alter g ip))).
  { unfold inode_set, fget. rewrite (bind_ok _ _ _ (fs_itable (k_files s)) s) by done.
    rewrite (tx_itable s0 H P V s T), Hx. done. }
  destruct T as [T1 T2 T3 T4]. split; try done; [|by destruct T2].
  change (set_log (set_itable s0 (alter g ip)) (fun _ => fs_log (k_files (set_itable s (alter g ip)))))
    with (set_itable (set_log s0 (fun _ => fs_log (k_files s))) (alter g ip)). by apply blocks_itable.
Qed.

(** ** Messages *)

Lemma blocks_sent out s0 H P V d s : blocks c cur p s0 H P V d s -> blocks c cur p (sent out s0) H P V d (sent out s).
Proof.
  intros [Hc Hp Hi HV Hd Hf]. split; try done; [by apply (calm_data s)|by apply (binv_frame s)|].
  destruct Hf as [A1 A2 A3 A4 A5 A6 A13 A14]. split; try done. simpl. by rewrite A14.
Qed.
Lemma putall_run cs (Hidle : forall u, next_idle u = true) : forall s c' held, calm s c' cur held -> (length held < 90)%nat ->
  u_idle (fs_uart (k_files s)) = true -> Forall (fun ch => 0 <= ch < 256) cs -> putall cs s = Ok tt (sent cs s).
Proof.
  induction cs as [|ch cs IH]; intros s c' held Hc Hd Hi HF; [simpl; by rewrite sent_nil|].
  apply Forall_cons in HF as [Hch HF]. simpl.
  rewrite (bind_ok _ _ _ _ _ (consputc_run Hidle cur s c' held ch Hc Hd Hi (or_introl Hch))).
  assert ((ch =? BACKSPACE) = false) as -> by (apply Z.eqb_neq; unfold BACKSPACE; lia).
  rewrite (IH _ c' held); try done; [by rewrite sent_app|by apply sent_calm].
Qed.
Lemma printf_tx fmt (Hidle : forall u, next_idle u = true) s0 H P V s : tx s0 H P V s ->
  u_idle (fs_uart (k_files s0)) = true -> Forall (fun ch => 0 <= ch < 256) (format fmt []) ->
  runs (printf fmt []) s (fun _ s' => tx (sent (format fmt []) s0) H P V s').
Proof.
  intros [T1 T2 T3 T4] Hi HF. pose proof (bl_calm _ _ _ _ _ _ _ _ _ T1) as Hc.
  assert (Hfr : lk_free (k_mach s) LPr) by (by apply (ca_free _ _ _ _ Hc); [|set_solver]).
  assert (Hu : u_idle (fs_uart (k_files s)) = true) by (by rewrite (bf_uart _ _ _ (bl_frame _ _ _ _ _ _ _ _ _ T1))).
  destruct (calm_acquire s c cur [] LPr Hc Hfr ltac:(simpl; lia)) as [E1 Hc1].
  apply (runs_ok _ _ _ tt (sent (format fmt []) s)).
  { unfold printf. rewrite (bind_ok _ _ _ _ _ E1). set (s1 := s <| k_mach := _ |>) in *.
    rewrite (bind_ok _ _ _ _ _ (putall_run _ Hidle s1 _ _ Hc1 ltac:(simpl; lia) Hu HF)).
    rewrite (calm_release s (sent (format fmt []) s1) c cur [] LPr Hc Hfr eq_refl). by destruct s. }
  split; try done; [|by destruct T2].
  change (set_log (sent (format fmt []) s0) (fun _ => fs_log (k_files (sent (format fmt []) s))))
    with (sent (format fmt []) (set_log s0 (fun _ => fs_log (k_files s)))). by apply blocks_sent.
Qed.

End tx.
