(* ===== verification/Balloc.v ===== *)
(** * Disk blocks: balloc and bfree of kernel/fs.c

    The free bitmap of the disk and what allocating and freeing a block do to it, inside a
    transaction. *)

From S2P Require Import Prelude Riscv CString Kalloc Vm Spinlock Proc ProcSpec Headers Codec Sleeplock.
From S2P Require Import Uart Printf Bio BioSpec Bcache Example ConsoleSpec Log Blocks LogSpec Crash LogOps Fs FsTx.

(** ** Bits of a bitmap block *)

Section bits.
Implicit Types (d : list Z) (i j : Z).

Lemma shift_bit k n : 0 <= k -> 0 <= n -> Z.testbit (Z.shiftl 1 k) n = bool_decide (n = k).
Proof.
  intros. rewrite Z.shiftl_1_l, Z.pow2_bits_eqb by lia.
  destruct (Z.eqb_spec k n); [by rewrite bool_decide_true|by rewrite bool_decide_false].
Qed.
Lemma land_bit x k : 0 <= k -> (Z.land x (Z.shiftl 1 k) =? 0) = negb (Z.testbit x k).
Proof.
  intros Hk. destruct (Z.testbit x k) eqn:E; simpl.
  - apply Z.eqb_neq. intros H0. apply (f_equal (fun z => Z.testbit z k)) in H0.
    by rewrite Z.land_spec, E, Z.bits_0, shift_bit, bool_decide_true in H0 by lia.
  - apply Z.eqb_eq, Z.bits_inj'. intros n Hn. rewrite Z.land_spec, Z.bits_0, shift_bit by done.
    destruct (decide (n = k)) as [->|Hne]; [by rewrite E|]. by rewrite bool_decide_false, andb_false_r.
Qed.

(** Whether block bit [i] is taken. *)
Lemma bit_free_spec d i : bit_free d i = negb (Z.testbit (bit_byte d i) (i mod 8)).
Proof. unfold bit_free, bit_mask. apply land_bit. apply Z.mod_pos_bound. lia. Qed.

Lemma same_bit i j : 0 <= i -> 0 <= j -> Z.to_nat (i / 8) = Z.to_nat (j / 8) -> i mod 8 = j mod 8 -> i = j.
Proof.
  intros Hi Hj E1 E2. pose proof (Z.div_pos i 8 Hi ltac:(lia)). pose proof (Z.div_pos j 8 Hj ltac:(lia)).
  pose proof (Z.div_mod i 8 ltac:(lia)). pose proof (Z.div_mod j 8 ltac:(lia)). lia.
Qed.
Lemma byte_update d i j x : 0 <= i < BPB -> 0 <= j -> length d = Z.to_nat BSIZE ->
  bit_byte (<[Z.to_nat (i / 8) := x]> d) j = if decide (Z.to_nat (j / 8) = Z.to_nat (i / 8)) then x else bit_byte d j.
Proof.
  intros Hi Hj Hd. unfold bit_byte. case_decide as E.
  - rewrite E, list_lookup_insert_eq; [done|]. rewrite Hd. unfold BPB in Hi.
    assert (i / 8 < BSIZE) by (apply Z.div_lt_upper_bound; lia). pose proof (Z.div_pos i 8 ltac:(lia) ltac:(lia)). lia.
  - by rewrite list_lookup_insert_ne by done.
Qed.

Lemma mark_free d i j : 0 <= i < BPB -> 0 <= j -> length d = Z.to_nat BSIZE ->
  bit_free (bit_mark i d) j = if decide (j = i) then false else bit_free d j.
Proof.
  intros Hi Hj Hd. pose proof (Z.mod_pos_bound i 8 ltac:(lia)). pose proof (Z.mod_pos_bound j 8 ltac:(lia)).
  rewrite !bit_free_spec. unfold bit_mark, bit_mask. rewrite byte_update by done. case_decide as E; case_decide as Ej; subst.
  - rewrite Z.lor_spec, shift_bit, bool_decide_true, orb_true_r by lia. done.
  - rewrite Z.lor_spec, shift_bit by lia. rewrite bool_decide_false, orb_false_r.
    { unfold bit_byte. by rewrite E. }
    intros Em. apply Ej. apply same_bit; lia.
  - done.
  - done.
Qed.
Lemma clear_free d i j : 0 <= i < BPB -> 0 <= j -> length d = Z.to_nat BSIZE ->
  bit_free (bit_clear i d) j = if decide (j = i) then true else bit_free d j.
Proof.
  intros Hi Hj Hd. pose proof (Z.mod_pos_bound i 8 ltac:(lia)). pose proof (Z.mod_pos_bound j 8 ltac:(lia)).
  rewrite !bit_free_spec. unfold bit_clear, bit_mask. rewrite byte_update by done. case_decide as E; case_decide as Ej; subst.
  - rewrite Z.ldiff_spec, shift_bit, bool_decide_true, andb_false_r by lia. done.
  - rewrite Z.ldiff_spec, shift_bit by lia. rewrite bool_decide_false, andb_true_r.
    { unfold bit_byte. by rewrite E. }
    intros Em. apply Ej. apply same_bit; lia.
  - done.
  - done.
Qed.

Lemma bit_scan_spec d b size fuel : forall i, 0 <= i -> BPB - i <= Z.of_nat fuel ->
  match bit_scan d b size i fuel with
  | Some k => i <= k < BPB /\ b + k < size /\ bit_free d k = true /\ forall j, i <= j < k -> bit_free d j = false
  | None => forall j, i <= j < BPB -> b + j < size -> bit_free d j = false
  end.
Proof.
  induction fuel as [|fuel IH]; intros i Hi Hf; simpl; [intros j Hj; lia|].
  destruct (Z.ltb_spec i BPB) as [H1|H1], (Z.ltb_spec (b + i) size) as [H2|H2]; simpl; [|intros j Hj Hs; lia..].
  destruct (bit_free d i) eqn:E.
  - split_and!; [lia..|done|]. intros j Hj. lia.
  - specialize (IH (i + 1) ltac:(lia) ltac:(lia)). destruct (bit_scan d b size (i + 1) fuel) as [k|].
    + destruct IH as (K1 & K2 & K3 & K4). split_and!; [lia..|done|].
      intros j Hj. destruct (decide (j = i)) as [->|]; [done|]. apply K4. lia.
    + intros j Hj Hs. destruct (decide (j = i)) as [->|]; [done|]. apply IH; lia.
Qed.
End bits.

(** ** The layout of the disk *)

(** Boot block, superblock, log, inodes and bitmap come before the data. *)
Definition datastart (sb : superblock) : Z := sb_bmapstart sb + (sb_size sb - 1) / BPB + 1.
Record layout (s : kern) : Prop := {
  ly_size : 0 < sb_size (sblock s) < 2 ^ 31;
  ly_bmap : 1 <= sb_bmapstart (sblock s);
  ly_data : datastart (sblock s) <= sb_size (sblock s);
  ly_log : forall n, in_log s n -> n < sb_bmapstart (sblock s)
}.

Definition used (sb : superblock) (V : contents) (b : Z) : bool := negb (bit_free (V (BBLOCK b sb)) (b mod BPB)).
(** The blocks before the data are never free. *)
Definition meta_used (sb : superblock) (V : contents) : Prop := forall n, 0 <= n < datastart sb -> used sb V n = true.
(** The process holds neither bitmap blocks nor free blocks, and at most one block. *)
Record quiet (sb : superblock) (V : contents) (H : gmap Z nat) : Prop := {
  qu_bmap : forall b, 0 <= b < sb_size sb -> H !! BBLOCK b sb = None;
  qu_free : forall n, 0 <= n < sb_size sb -> used sb V n = false -> H !! n = None;
  qu_one : (size H <= 1)%nat
}.
(** What allocating block [a] does. *)
Definition alloc (sb : superblock) (V : contents) (a : Z) : contents :=
  bset (bset V (BBLOCK a sb) (bit_mark (a mod BPB) (V (BBLOCK a sb)))) a block0.
(** What freeing block [b] does. *)
Definition release_block (sb : superblock) (V : contents) (b : Z) : contents :=
  bset V (BBLOCK b sb) (bit_clear (b mod BPB) (V (BBLOCK b sb))).

Section layout.
Implicit Types (s : kern) (V : contents).

Lemma bblock_eq s b : layout s -> 0 <= b < sb_size (sblock s) ->
  BBLOCK b (sblock s) = b / BPB + sb_bmapstart (sblock s) /\
  sb_bmapstart (sblock s) <= BBLOCK b (sblock s) < datastart (sblock s).
Proof.
  intros [L1 L2 L3 L4] Hb. unfold datastart in *.
  assert (0 <= b / BPB) by (apply Z.div_pos; unfold BPB, BSIZE; lia).
  assert (b / BPB <= (sb_size (sblock s) - 1) / BPB) by (apply Z.div_le_mono; unfold BPB, BSIZE; lia).
  assert (E : BBLOCK b (sblock s) = b / BPB + sb_bmapstart (sblock s)) by (unfold BBLOCK; apply u32_small; lia).
  split; [done|]. rewrite E. lia.
Qed.

(** The blocks one bitmap block is about. *)
Lemma same_bmap sb b0 n : (BPB | b0) -> b0 <= n < b0 + BPB -> BBLOCK n sb = BBLOCK b0 sb /\ n mod BPB = n - b0.
Proof.
  intros [q ->] Hn. assert (Hp : BPB <> 0) by (unfold BPB, BSIZE; lia).
  assert (Hn' : n = q * BPB + (n - q * BPB)) by lia. unfold BBLOCK. split.
  - rewrite Hn', Z.div_add_l, Z.div_mul by done. rewrite (Z.div_small (n - q * BPB)) by lia. do 2 f_equal. lia.
  - rewrite Hn' at 1. rewrite Z.add_comm, Z_mod_plus_full. apply Z.mod_small. lia.
Qed.

(** Allocation marks the block and no other. *)
Lemma used_alloc s V a b : layout s -> (forall n, length (V n) = Z.to_nat BSIZE) ->
  datastart (sblock s) <= a < sb_size (sblock s) -> 0 <= b < sb_size (sblock s) ->
  used (sblock s) (alloc (sblock s) V a) b = if decide (b = a) then true else used (sblock s) V b.
Proof.
  intros L HV Ha Hb. destruct (bblock_eq s a L) as [Ea Ra]; [pose proof (ly_bmap s L); pose proof (ly_data s L); unfold datastart in *;
    pose proof (Z.div_pos (sb_size (sblock s) - 1) BPB) as Hp; unfold BPB, BSIZE in *; lia|].
  destruct (bblock_eq s b L Hb) as [Eb Rb]. unfold used, alloc. rewrite bset_ne by lia. unfold bset.
  case_decide as E.
  - rewrite mark_free; [|apply Z.mod_pos_bound; unfold BPB, BSIZE; lia|apply Z.mod_pos_bound; unfold BPB, BSIZE; lia|apply HV].
    rewrite E in Eb. assert (Hq : b / BPB = a / BPB) by lia.
    destruct (decide (b = a)) as [->|Hne]; [by rewrite decide_True|]. rewrite decide_False; [by rewrite E|].
    intros Em. apply Hne. rewrite (Z.div_mod b BPB), (Z.div_mod a BPB) by (unfold BPB, BSIZE; lia). by rewrite Hq, Em.
  - rewrite decide_False; [done|]. by intros ->.
Qed.
Lemma used_release s V a b : layout s -> (forall n, length (V n) = Z.to_nat BSIZE) ->
  0 <= a < sb_size (sblock s) -> 0 <= b < sb_size (sblock s) ->
  used (sblock s) (release_block (sblock s) V a) b = if decide (b = a) then false else used (sblock s) V b.
Proof.
  intros L HV Ha Hb. destruct (bblock_eq s a L Ha) as [Ea Ra]. destruct (bblock_eq s b L Hb) as [Eb Rb].
  assert (Hp : 0 < BPB) by (unfold BPB, BSIZE; lia). unfold used, release_block, bset. case_decide as E.
  - rewrite clear_free; [|by apply Z.mod_pos_bound|by apply Z.mod_pos_bound|apply HV].
    rewrite E in Eb. assert (Hq : b / BPB = a / BPB) by lia.
    destruct (decide (b = a)) as [->|Hne]; [by rewrite decide_True|]. rewrite decide_False; [by rewrite E|].
    intros Em. apply Hne. rewrite (Z.div_mod b BPB), (Z.div_mod a BPB) by lia. by rewrite Hq, Em.
  - rewrite decide_False; [done|]. by intros ->.
Qed.
End layout.

Lemma size_diff (P Q : gset Z) : (size (P ∖ Q) <= size P)%nat.
Proof. apply subseteq_size. set_solver. Qed.
Lemma size_add1 (a : Z) (P : gset Z) : (size ({[a]} ∪ P) <= size P + 1)%nat.
Proof. pose proof (size_union_alt {[a]} P). pose proof (size_diff P {[a]}). rewrite size_singleton in *. lia. Qed.

(** The log blocks an operation is charged for: every bitmap block is counted from the start,
    so that an allocation costs one more block. *)
Definition bitmaps (sb : superblock) : gset Z := list_to_set (seqZ (sb_bmapstart sb) (datastart sb - sb_bmapstart sb)).
Definition logged (sb : superblock) (P : gset Z) : nat := size (bitmaps sb ∪ P).
Definition reserve (s0 : kern) (P : gset Z) (k : Z) : Prop := Z.of_nat (logged (sblock s0) P) + k <= logsize s0 - 1.

Lemma elem_of_bitmaps sb n : n ∈ bitmaps sb <-> sb_bmapstart sb <= n < datastart sb.
Proof. unfold bitmaps. rewrite elem_of_list_to_set, elem_of_seqZ. lia. Qed.
Lemma logged_mono sb P P' : P ⊆ P' -> (logged sb P <= logged sb P')%nat.
Proof. intros HP. apply subseteq_size. set_solver. Qed.
Lemma logged_in sb n P : n ∈ bitmaps sb ∪ P -> logged sb ({[n]} ∪ P) = logged sb P.
Proof. intros Hn. unfold logged. f_equal. set_solver. Qed.
Lemma logged_add sb n P : (logged sb ({[n]} ∪ P) <= logged sb P + 1)%nat.
Proof.
  unfold logged. replace (bitmaps sb ∪ ({[n]} ∪ P)) with ({[n]} ∪ (bitmaps sb ∪ P)) by set_solver. apply size_add1.
Qed.
Lemma logged_alloc s a P : layout s -> 0 <= a < sb_size (sblock s) ->
  (logged (sblock s) ({[a]} ∪ ({[BBLOCK a (sblock s)]} ∪ P)) <= logged (sblock s) P + 1)%nat.
Proof.
  intros L Ha. etransitivity; [apply logged_add|]. rewrite logged_in; [done|].
  apply elem_of_union_l, elem_of_bitmaps. by apply bblock_eq.
Qed.
Lemma logged_got sb n P : (logged sb P <= logged sb ({[n]} ∪ P))%nat.
Proof. apply logged_mono. set_solver. Qed.
Lemma reserve_room s0 P k : reserve s0 P k -> room s0 P k.
Proof. unfold reserve, room, logged. pose proof (subseteq_size P (bitmaps (sblock s0) ∪ P) ltac:(set_solver)). lia. Qed.
#[export] Hint Resolve reserve_room : core.

Section balloc.
Context {D : DiskOps} {DL : DiskLaws} {B : Board} (Hidle : forall u, next_idle u = true).
Context (c : cpu) (cur : nat) (p : proc).
Implicit Types (s : kern) (H : gmap Z nat) (P : gset Z) (V : contents) (n : Z) (b : nat).
Notation tx := (tx c cur p).

(** Read a block, change it, record it in the log, release it. *)
Lemma cache_room s0 H P k : (size H <= 1)%nat -> room s0 P k -> 1 <= k -> logsize s0 <= LOGSIZE ->
  (size (P ∪ dom H) < NBUF)%nat.
Proof using.
  intros HH Hr Hk Hl. unfold room, LOGSIZE, MAXOPBLOCKS in *. pose proof (size_union_alt P (dom H)) as E.
  pose proof (size_diff (dom H) P) as Hs. rewrite size_dom in Hs.
  change NBUF with 30%nat. lia.
Qed.
Lemma tx_logsize s0 H P V s : tx s0 H P V s -> logsize s0 <= LOGSIZE.
Proof.
  intros [_ T2 T3 _]. pose proof (lw_size _ (li_wf _ _ T2)). injection T3 as _ K2 _ _ _. unfold logsize. lia.
Qed.

Lemma bzero_tx s0 H P V s n : tx s0 H P V s -> H !! n = None -> 0 <= n < 2 ^ 31 -> ~ in_log s0 n -> room s0 P 1 ->
  (size H <= 1)%nat ->
  runs (bzero ROOTDEV n) s (fun _ s' => tx s0 H ({[n]} ∪ P) (bset V n block0) s').
Proof.
  intros T Hn Hr Ha Hroom HH. unfold bzero. change (u32 ROOTDEV) with ROOTDEV. rewrite u32_small by lia.
  apply runs_bind. eapply runs_conseq; [apply (bread_tx c cur p s0 H P V s n T Hn); right;
    apply (cache_room s0 H P 1 HH Hroom); [lia|by apply (tx_logsize s0 H P V s)]|]. intros b s1 T1.
  apply runs_bind. eapply runs_conseq; [apply (edit_tx c cur p _ _ _ _ s1 n b _ T1); [apply lookup_insert_eq|done]|]. intros [] s2 T2.
  apply runs_bind. eapply runs_conseq; [apply (log_write_tx c cur p _ _ _ _ s2 n b T2); [apply lookup_insert_eq|done..]|]. intros [] s3 T3.
  eapply runs_conseq; [apply (brelse_tx c cur p _ _ _ _ s3 n b T3); [apply lookup_insert_eq|left; set_solver]|]. intros [] s4 T4.
  cbv beta. by rewrite delete_insert_id in T4.
Qed.

Lemma balloc_found s0 H P V s (b0 bi : Z) (bp : nat) : tx s0 (<[BBLOCK b0 (sblock s0) := bp]> H) P V s -> layout s0 ->
  quiet (sblock s0) V H -> meta_used (sblock s0) V -> reserve s0 P 1 ->
  0 <= b0 -> (BPB | b0) -> 0 <= bi < BPB -> b0 + bi < sb_size (sblock s0) ->
  bit_free (V (BBLOCK b0 (sblock s0))) bi = true ->
  runs (edit bp (bit_mark bi) ;;; log_write bp ;;; brelse bp ;;; bzero ROOTDEV (b0 + bi) ;;; mret (b0 + bi)) s
    (fun a s' => a = b0 + bi /\ datastart (sblock s0) <= a /\ used (sblock s0) V a = false /\
       tx s0 H ({[a]} ∪ ({[BBLOCK a (sblock s0)]} ∪ P)) (alloc (sblock s0) V a) s').
Proof.
  intros T L Q HM Hroom Hb Hdiv Hbi Hlt Hfree. set (sb := sblock s0) in *. set (a := b0 + bi) in *.
  destruct (same_bmap sb b0 a Hdiv ltac:(unfold a; lia)) as [Hq Hm]. replace (a - b0) with bi in Hm by (unfold a; lia).
  rewrite <- Hq in T, Hfree. set (k := BBLOCK a sb) in *.
  assert (Hused : used sb V a = false) by (unfold used; fold k; by rewrite Hm, Hfree).
  assert (Hdata : datastart sb <= a).
  { destruct (Z.leb_spec (datastart sb) a); [done|]. rewrite HM in Hused by (unfold a in *; lia). done. }
  destruct (bblock_eq s0 a L ltac:(fold sb; unfold a in *; lia)) as [_ Hk]. fold sb k in Hk.
  pose proof (ly_bmap s0 L) as Lb. pose proof (ly_size s0 L) as Ls. fold sb in Lb, Ls.
  assert (Hnk : ~ in_log s0 k). { intros Hin. apply (ly_log s0 L) in Hin. fold sb in Hin. lia. }
  assert (Hna : ~ in_log s0 a). { intros Hin. apply (ly_log s0 L) in Hin. fold sb in Hin. lia. }
  assert (Hkn : H !! k = None) by (apply (qu_bmap _ _ _ Q); lia).
  apply runs_bind. eapply runs_conseq; [apply (edit_tx c cur p _ _ _ _ s k bp _ T); [apply lookup_insert_eq|]|].
  { unfold bit_mark. rewrite length_insert. exact (tx_len c cur p _ _ _ _ _ k T). }
  intros [] s1 T1. apply runs_bind. eapply runs_conseq; [apply (log_write_tx c cur p _ _ _ _ s1 k bp T1);
    [apply lookup_insert_eq|lia|done|by apply reserve_room]|]. intros [] s2 T2.
  apply runs_bind. eapply runs_conseq; [apply (brelse_tx c cur p _ _ _ _ s2 k bp T2); [apply lookup_insert_eq|left; set_solver]|].
  intros [] s3 T3. cbv beta. rewrite delete_insert_id in T3 by done.
  assert (Hroom' : room s0 ({[k]} ∪ P) 1).
  { apply reserve_room. unfold reserve in *. rewrite logged_in; [done|]. apply elem_of_union_l, elem_of_bitmaps. exact Hk. }
  apply runs_bind. eapply runs_conseq; [apply (bzero_tx _ _ _ _ s3 a T3); [by apply (qu_free _ _ _ Q); [unfold a in *; lia|]|lia|done|done|apply Q]|].
  intros [] s4 T4. apply runs_ret. split_and!; try done. unfold alloc. fold k. by rewrite Hm.
Qed.

Lemma balloc_from_tx fuel : forall s0 H P V s (b0 : Z), tx s0 H P V s -> layout s0 -> quiet (sblock s0) V H ->
  meta_used (sblock s0) V -> reserve s0 P 1 -> u_idle (fs_uart (k_files s0)) = true ->
  0 <= b0 -> (BPB | b0) -> (forall n, 0 <= n < b0 -> n < sb_size (sblock s0) -> used (sblock s0) V n = true) ->
  b0 < sb_size (sblock s0) + BPB -> sb_size (sblock s0) + BPB <= b0 + Z.of_nat fuel * BPB ->
  runs (balloc_from fuel ROOTDEV b0) s (fun a s' =>
    (a = 0 /\ (forall n, 0 <= n < sb_size (sblock s0) -> used (sblock s0) V n = true) /\ tx (sent (format NO_BLOCKS []) s0) H P V s') \/
    (datastart (sblock s0) <= a < sb_size (sblock s0) /\ used (sblock s0) V a = false /\ (forall n, 0 <= n < a -> used (sblock s0) V n = true) /\
     tx s0 H ({[a]} ∪ ({[BBLOCK a (sblock s0)]} ∪ P)) (alloc (sblock s0) V a) s')).
Proof.
  induction fuel as [|fuel IH]; intros s0 H P V s b0 T L Q HM Hroom Hid Hb Hdiv Hbelow Hend Hfuel.
  { simpl in Hfuel. lia. }
  cbn [balloc_from]. apply (sb_tx c cur p _ _ s0 H P V s T). set (sb := sblock s0) in *.
  destruct (Z.ltb_spec b0 (sb_size sb)) as [Hlt|Hge].
  2: { apply runs_bind. eapply runs_conseq; [apply (printf_tx c cur p NO_BLOCKS Hidle s0 H P V s T Hid)|].
       { apply (bool_decide_unpack _). vm_compute. exact I. }
       intros [] s1 T1. apply runs_ret. left. split_and!; try done. intros n Hn. apply Hbelow; lia. }
  assert (Hkn : H !! BBLOCK b0 sb = None) by (apply (qu_bmap _ _ _ Q); lia).
  apply runs_bind. eapply runs_conseq; [apply (bread_tx c cur p s0 H P V s _ T Hkn); right;
    apply (cache_room s0 H P 1 (qu_one _ _ _ Q) (reserve_room _ _ _ Hroom)); [lia|by apply (tx_logsize s0 H P V s)]|]. intros bp s1 T1. cbv beta in T1.
  apply runs_bind. eapply runs_conseq; [apply (data_tx c cur p _ _ _ _ s1 (BBLOCK b0 sb) bp T1), lookup_insert_eq|]. intros d s1' [-> ->].
  pose proof (bit_scan_spec (V (BBLOCK b0 sb)) b0 (sb_size sb) (Z.to_nat BPB) 0 ltac:(lia) ltac:(lia)) as Hscan.
  destruct (bit_scan _ _ _ _ _) as [bi|].
  - destruct Hscan as (K1 & K2 & K3 & K4). eapply runs_conseq; [by apply (balloc_found s0 H P V s1 b0 bi bp)|].
    intros a s2 (-> & Hd & Hu & T2). right. split_and!; try done. intros n Hn.
    destruct (Z.ltb_spec n b0); [apply Hbelow; lia|]. unfold used.
    destruct (same_bmap sb b0 n Hdiv ltac:(lia)) as [-> ->]. by rewrite K4 by lia.
  - apply runs_bind. eapply runs_conseq; [apply (brelse_tx c cur p _ _ _ _ s1 (BBLOCK b0 sb) bp T1); [apply lookup_insert_eq|]|].
    { destruct (decide (BBLOCK b0 sb ∈ P)); [by left|right]. by apply (tx_clean c cur p s0 H P V s). }
    intros [] s2 T2. cbv beta in T2. rewrite delete_insert_id in T2 by done.
    apply IH; try done; [unfold BPB, BSIZE; lia|by apply Z.divide_add_r; [|exists 1; lia]| |fold sb; lia|fold sb; unfold BPB, BSIZE in *; lia].
    fold sb. intros n Hn Hs. destruct (Z.ltb_spec n b0); [apply Hbelow; lia|]. unfold used.
    destruct (same_bmap sb b0 n Hdiv ltac:(lia)) as [-> ->]. by rewrite Hscan by lia.
Qed.

Lemma balloc_tx s0 H P V s : tx s0 H P V s -> layout s0 -> quiet (sblock s0) V H ->
  meta_used (sblock s0) V -> reserve s0 P 1 -> u_idle (fs_uart (k_files s0)) = true ->
  runs (balloc ROOTDEV) s (fun a s' =>
    (a = 0 /\ (forall n, 0 <= n < sb_size (sblock s0) -> used (sblock s0) V n = true) /\ tx (sent (format NO_BLOCKS []) s0) H P V s') \/
    (datastart (sblock s0) <= a < sb_size (sblock s0) /\ used (sblock s0) V a = false /\ (forall n, 0 <= n < a -> used (sblock s0) V n = true) /\
     tx s0 H ({[a]} ∪ ({[BBLOCK a (sblock s0)]} ∪ P)) (alloc (sblock s0) V a) s')).
Proof.
  intros T L Q HM Hroom Hid. unfold balloc. apply (sb_tx c cur p _ _ s0 H P V s T).
  pose proof (ly_size s0 L) as Hs. assert (Hp : 0 < BPB) by (unfold BPB, BSIZE; lia).
  apply balloc_from_tx; try done; [by exists 0|lia|lia|].
  pose proof (Z.div_pos (sb_size (sblock s0)) BPB ltac:(lia) Hp). pose proof (Z.div_mod (sb_size (sblock s0)) BPB ltac:(lia)).
  pose proof (Z.mod_pos_bound (sb_size (sblock s0)) BPB Hp). rewrite Nat2Z.inj_add, Z2Nat.id by lia. lia.
Qed.

Lemma bfree_tx s0 H P V s n : tx s0 H P V s -> layout s0 -> (size H <= 1)%nat -> H !! BBLOCK n (sblock s0) = None ->
  0 <= n < sb_size (sblock s0) -> room s0 P 1 ->
  if used (sblock s0) V n then
    runs (bfree ROOTDEV n) s (fun _ s' => tx s0 H ({[BBLOCK n (sblock s0)]} ∪ P) (release_block (sblock s0) V n) s')
  else bfree ROOTDEV n s = Err (Panic "freeing free block").
Proof.
  intros T L HH Hk Hn Hroom. destruct (bblock_eq s0 n L Hn) as [_ Rk]. set (sb := sblock s0) in *. set (k := BBLOCK n sb) in *.
  pose proof (ly_bmap s0 L) as Lb. pose proof (ly_size s0 L) as Ls. pose proof (ly_data s0 L) as Ld. fold sb in Lb, Ls, Ld.
  assert (Hnk : ~ in_log s0 k). { intros Hin. apply (ly_log s0 L) in Hin. fold sb in Hin. lia. }
  pose proof (bread_tx c cur p s0 H P V s k T Hk (or_intror (cache_room s0 H P 1 HH Hroom ltac:(lia) (tx_logsize s0 H P V s T)))) as Hrd.
  apply runs_inv in Hrd as (bp & s1 & E1 & T1).
  pose proof (data_tx c cur p _ _ _ _ s1 k bp T1 (lookup_insert_eq _ _ _)) as Hdt. apply runs_inv in Hdt as (d & s1' & E2 & -> & ->).
  assert (Estart : bfree ROOTDEV n s = (if bit_free (V k) (n mod BPB) then panic "freeing free block"
    else edit bp (bit_clear (n mod BPB)) ;;; log_write bp ;;; brelse bp) s1).
  { unfold bfree. rewrite (bind_ok _ _ _ sb s). 2: { unfold fget, gets. by rewrite (tx_sb c cur p s0 H P V s T). }
    change (u32 ROOTDEV) with ROOTDEV. fold k. by rewrite (bind_ok _ _ _ _ _ E1), (bind_ok _ _ _ _ _ E2). }
  unfold used. fold k. destruct (bit_free (V k) (n mod BPB)) eqn:Ef; cbn [negb]; [by rewrite Estart|].
  unfold runs. rewrite Estart. apply runs_bind.
  eapply runs_conseq; [apply (edit_tx c cur p _ _ _ _ s1 k bp _ T1); [apply lookup_insert_eq|]|].
  { unfold bit_clear. rewrite length_insert. exact (tx_len c cur p _ _ _ _ _ k T). }
  intros [] s2 T2. apply runs_bind. eapply runs_conseq; [apply (log_write_tx c cur p _ _ _ _ s2 k bp T2);
    [apply lookup_insert_eq|lia|done|done]|]. intros [] s3 T3.
  eapply runs_conseq; [apply (brelse_tx c cur p _ _ _ _ s3 k bp T3); [apply lookup_insert_eq|left; by apply elem_of_union_l, elem_of_singleton]|].
  intros [] s4 T4. cbv beta. by rewrite delete_insert_id in T4.
Qed.
End balloc.
