(* ===== verification/Bmap.v ===== *)
(** * The blocks of a file: bmap of kernel/fs.c

    A file has 13 + 256 slots for block addresses: the twelve direct ones, the indirect
    block, and its entries.  [own_ok] says that the blocks in the slots are data blocks,
    allocated, and all different; bmap keeps it, and gives the file a fresh block where it
    had none. *)

From S2P Require Import Prelude Riscv CString Kalloc Vm Spinlock Proc ProcSpec Headers Codec Sleeplock.
From S2P Require Import Uart Printf Bio BioSpec Bcache Example ConsoleSpec Log Blocks LogSpec Crash LogOps Fs FsTx.
From S2P Require Import Balloc.

Definition NSLOT : nat := 269.
Definition indirect (x : inode) : Z := nth 12 (i_addrs x) 0.
Definition slot_addr (x : inode) (V : contents) (i : nat) : Z :=
  if (i <=? 12)%nat then nth i (i_addrs x) 0
  else if indirect x =? 0 then 0 else get_le 4 (V (indirect x)) (4 * (i - 13)).
(** The slot and the address of block [k] of the file, 0 if it has none. *)
Definition slot_of_block (k : Z) : nat := if k <? NDIRECT then Z.to_nat k else S (Z.to_nat k).
Definition faddr (x : inode) (V : contents) (k : Z) : Z := slot_addr x V (slot_of_block k).

Record own_ok (sb : superblock) (x : inode) (V : contents) : Prop := {
  ow_len : length (i_addrs x) = 13%nat;
  ow_dev : i_dev x = ROOTDEV;
  ow_data : forall i, (i < NSLOT)%nat -> slot_addr x V i <> 0 ->
    datastart sb <= slot_addr x V i < sb_size sb /\ used sb V (slot_addr x V i) = true;
  ow_inj : forall i j, (i < NSLOT)%nat -> (j < NSLOT)%nat -> slot_addr x V i = slot_addr x V j ->
    slot_addr x V i <> 0 -> i = j
}.

Section slots.
Implicit Types (s : kern) (x : inode) (V : contents) (a : Z) (i j : nat).

Lemma slot_of_block_lt k : 0 <= k < MAXFILE -> (slot_of_block k < NSLOT)%nat /\ slot_of_block k <> 12%nat.
Proof.
  unfold slot_of_block, MAXFILE, NDIRECT, NINDIRECT, BSIZE, NSLOT. intros Hk. change (1024 / 4) with 256 in *.
  destruct (Z.ltb_spec k 12); lia.
Qed.
Lemma slot_of_block_inj k k' : 0 <= k -> 0 <= k' -> slot_of_block k = slot_of_block k' -> k = k'.
Proof. unfold slot_of_block, NDIRECT. intros. destruct (Z.ltb_spec k 12), (Z.ltb_spec k' 12); lia. Qed.

Lemma get_le_zero n o : get_le n block0 o = 0.
Proof.
  unfold get_le, block0. rewrite skipn_replicate || rewrite drop_replicate. rewrite take_replicate.
  generalize (n `min` (Z.to_nat BSIZE - o))%nat. intros m. induction m as [|m IH]; [done|]. simpl. by rewrite IH.
Qed.

(** One slot gets a fresh block. *)
Lemma own_step sb x V x' V' i a : own_ok sb x V -> length (i_addrs x') = 13%nat -> i_dev x' = ROOTDEV ->
  (forall j, (j < NSLOT)%nat -> slot_addr x' V' j = if decide (j = i) then a else slot_addr x V j) ->
  a <> 0 -> datastart sb <= a < sb_size sb -> used sb V a = false -> used sb V' a = true ->
  (forall n, datastart sb <= n < sb_size sb -> used sb V n = true -> used sb V' n = true) -> own_ok sb x' V'.
Proof.
  intros [O1 O2 O3 O4] Hl Hdev Hs Ha0 Ha Hfree Hua Hu. split; try done.
  - intros j Hj Hne. rewrite Hs in * by done. case_decide; [done|]. destruct (O3 j Hj Hne) as [Hr Hus].
    split; [done|]. by apply Hu.
  - intros j k Hj Hk E Hne. rewrite !Hs in * by done.
    assert (Hno : forall m, (m < NSLOT)%nat -> slot_addr x V m <> a).
    { intros m Hm Em. destruct (O3 m Hm) as [_ Hum]; [by rewrite Em|]. by rewrite Em, Hfree in Hum. }
    repeat case_decide; subst; try done; [by destruct (Hno k)|by destruct (Hno j)|by apply O4].
Qed.

Lemma alloc_other s V a n : layout s -> 0 <= a < sb_size (sblock s) -> datastart (sblock s) <= n -> n <> a ->
  alloc (sblock s) V a n = V n.
Proof. intros L Ha Hn Hne. destruct (bblock_eq s a L Ha) as [_ R]. unfold alloc. rewrite !bset_ne by lia. done. Qed.
Lemma alloc_low s V a n : layout s -> datastart (sblock s) <= a < sb_size (sblock s) -> 0 <= a -> n < sb_bmapstart (sblock s) ->
  alloc (sblock s) V a n = V n.
Proof.
  intros L Ha Ha0 Hn. destruct (bblock_eq s a L ltac:(lia)) as [_ R]. unfold alloc. rewrite !bset_ne by lia. done.
Qed.
Lemma datastart_pos s : layout s -> 0 < datastart (sblock s).
Proof.
  intros [L1 L2 L3 L4]. unfold datastart. pose proof (Z.div_pos (sb_size (sblock s) - 1) BPB) as Hp.
  unfold BPB, BSIZE in *. lia.
Qed.

Lemma nth_insert i j a (l : list Z) : (i < length l)%nat -> nth j (<[i := a]> l) 0 = if decide (j = i) then a else nth j l 0.
Proof.
  intros Hi. rewrite !nth_lookup. case_decide as E.
  - subst. by rewrite list_lookup_insert_eq.
  - by rewrite list_lookup_insert_ne by done.
Qed.

(** A direct slot, or the slot of the indirect block. *)
Lemma own_direct s x V i a : layout s -> own_ok (sblock s) x V -> (forall n, length (V n) = Z.to_nat BSIZE) -> (i <= 12)%nat ->
  slot_addr x V i = 0 -> datastart (sblock s) <= a < sb_size (sblock s) -> used (sblock s) V a = false ->
  let x' := x <| i_addrs := <[i := a]> (i_addrs x) |> in let V' := alloc (sblock s) V a in
  own_ok (sblock s) x' V' /\ (forall j, (j < NSLOT)%nat -> slot_addr x' V' j = if decide (j = i) then a else slot_addr x V j).
Proof.
  intros L O HV Hi Hz Ha Hfree x' V'. pose proof (datastart_pos s L) as Hpos. pose proof O as [O1 O2 O3 O4].
  assert (Hnth : forall j, nth j (i_addrs x') 0 = if decide (j = i) then a else nth j (i_addrs x) 0) by (intros j; apply nth_insert; lia).
  assert (Hs : forall j, (j < NSLOT)%nat -> slot_addr x' V' j = if decide (j = i) then a else slot_addr x V j).
  { intros j Hj. unfold slot_addr, indirect. rewrite !Hnth. destruct (Nat.leb_spec j 12) as [Hle|Hgt]; [done|].
    rewrite (decide_False (P := j = i)) by lia. destruct (decide (12%nat = i)) as [<-|Hne].
    - unfold slot_addr in Hz. simpl in Hz. rewrite Hz. destruct (Z.eqb_spec a 0); [lia|]. rewrite Z.eqb_refl.
      unfold V', alloc. rewrite bset_eq. apply get_le_zero.
    - fold (indirect x). destruct (Z.eqb_spec (indirect x) 0) as [E|E]; [done|].
      destruct (O3 12%nat ltac:(unfold NSLOT; lia) E) as [Hr Hu]. change (slot_addr x V 12) with (indirect x) in *.
      unfold V'. rewrite alloc_other; [done|done|lia|lia|]. intros E'. by rewrite E', Hfree in Hu. }
  split; [|done]. apply (own_step (sblock s) x V x' V' i a); try done; [|lia| |].
  - simpl. by rewrite length_insert.
  - unfold V'. rewrite used_alloc by (done || lia). by rewrite decide_True.
  - intros n Hn Hun. unfold V'. rewrite used_alloc by (done || lia). by case_decide.
Qed.

(** An entry of the indirect block. *)
Definition set_entry V (ind : Z) i a : contents := bset V ind (put_le 4 (V ind) (4 * (i - 13)) a).
Lemma used_set_entry s V ind i a n : layout s -> datastart (sblock s) <= ind -> 0 <= n < sb_size (sblock s) ->
  used (sblock s) (set_entry V ind i a) n = used (sblock s) V n.
Proof.
  intros L Hi Hn. destruct (bblock_eq s n L Hn) as [_ R]. unfold used, set_entry. by rewrite bset_ne by lia.
Qed.
Lemma own_entry s x V i a : layout s -> own_ok (sblock s) x V -> (forall n, length (V n) = Z.to_nat BSIZE) -> (12 < i < NSLOT)%nat ->
  indirect x <> 0 -> slot_addr x V i = 0 -> datastart (sblock s) <= a < sb_size (sblock s) -> used (sblock s) V a = false ->
  let V' := set_entry (alloc (sblock s) V a) (indirect x) i a in
  own_ok (sblock s) x V' /\ (forall j, (j < NSLOT)%nat -> slot_addr x V' j = if decide (j = i) then a else slot_addr x V j).
Proof.
  intros L O HV Hi Hind Hz Ha Hfree V'. pose proof (datastart_pos s L) as Hpos. pose proof O as [O1 O2 O3 O4].
  pose proof (ly_size s L) as Hsz.
  destruct (O3 12%nat ltac:(unfold NSLOT; lia) Hind) as [Hr Hu]. change (slot_addr x V 12) with (indirect x) in *.
  assert (Hne : indirect x <> a) by (intros E; by rewrite E, Hfree in Hu).
  assert (Hal : alloc (sblock s) V a (indirect x) = V (indirect x)) by (apply alloc_other; [done|lia|lia|done]).
  assert (Hs : forall j, (j < NSLOT)%nat -> slot_addr x V' j = if decide (j = i) then a else slot_addr x V j).
  { intros j Hj. unfold slot_addr. destruct (Nat.leb_spec j 12) as [Hle|Hgt]; [rewrite decide_False by lia; done|].
    destruct (Z.eqb_spec (indirect x) 0); [done|]. unfold V', set_entry. rewrite bset_eq, Hal. unfold NSLOT in *. case_decide as E.
    - subst j. rewrite get_put_same by (rewrite HV; change (Z.to_nat BSIZE) with 1024%nat; lia).
      apply Z.mod_small. change (256 ^ Z.of_nat 4) with (2 ^ 32). lia.
    - rewrite get_put_other by lia. done. }
  split; [|done]. apply (own_step (sblock s) x V x V' i a); try done; [lia| |].
  - unfold V'. rewrite used_set_entry, used_alloc by (done || lia). by rewrite decide_True.
  - intros n Hn Hun. unfold V'. rewrite used_set_entry, used_alloc by (done || lia). by case_decide.
Qed.
End slots.

(** ** bmap *)

(** [s0] with another inode in slot [ip] of the table, after the output [out]. *)
Definition upd (s0 : kern) (ip : nat) (x : inode) (out : list Z) : kern := sent out (set_itable s0 (insert ip x)).

(** The file has got blocks that were free; everything it and others had is as before. *)
Record grown (sb : superblock) (x : inode) (V : contents) (x' : inode) (V' : contents) : Prop := {
  gr_own : own_ok sb x' V';
  gr_meta : meta_used sb V';
  gr_slots : forall i, (i < NSLOT)%nat -> slot_addr x V i <> 0 -> slot_addr x' V' i = slot_addr x V i;
  gr_fresh : forall i, (i < NSLOT)%nat -> slot_addr x V i = 0 -> slot_addr x' V' i <> 0 -> used sb V (slot_addr x' V' i) = false;
  gr_ind : indirect x' = indirect x \/ used sb V (indirect x') = false;
  gr_used : forall n, 0 <= n < sb_size sb -> used sb V n = true -> used sb V' n = true;
  gr_data : forall n, datastart sb <= n < sb_size sb -> used sb V n = true -> n <> indirect x -> V' n = V n;
  gr_low : forall n, n < sb_bmapstart sb -> V' n = V n;
  gr_mine : forall n, 0 <= n < sb_size sb -> used sb V n = false -> used sb V' n = true ->
    exists i, (i < NSLOT)%nat /\ slot_addr x' V' i = n;
  gr_fields : x' = x <| i_addrs := i_addrs x' |>
}.
(** What bmap does: [a] is the address it returns. *)
Record mapped (sb : superblock) (x : inode) (V : contents) (k a : Z) (x' : inode) (V' : contents) : Prop := {
  mp_grown : grown sb x V x' V';
  mp_addr : faddr x' V' k = a;
  mp_other : forall j, 0 <= j < MAXFILE -> j <> k -> faddr x' V' j = faddr x V j;
  mp_keep : faddr x V k <> 0 -> a = faddr x V k /\ V' = V;
  mp_full : a = 0 -> forall n, 0 <= n < sb_size sb -> used sb V' n = true;
  mp_new : faddr x V k = 0 -> a <> 0 -> used sb V a = false /\ V' a = block0
}.

(** The blocks the log records when block [a] is allocated or changed. *)
Definition touch (sb : superblock) (a : Z) : gset Z := if a =? 0 then ∅ else {[a; BBLOCK a sb]}.

Section grown.
Implicit Types (s : kern) (x : inode) (V : contents) (a : Z).

Lemma grown_refl sb x V : own_ok sb x V -> meta_used sb V -> grown sb x V x V.
Proof. intros O HM. split; try done; [by left|intros n _ H1 H2; congruence|by destruct x]. Qed.
Lemma grown_trans s x V x1 V1 x2 V2 : layout s -> meta_used (sblock s) V -> grown (sblock s) x V x1 V1 -> grown (sblock s) x1 V1 x2 V2 ->
  grown (sblock s) x V x2 V2.
Proof.
  intros L HM [A1 A2 A3 A0 A4 A5 A6 A7 A8 A9] [B1 B2 B3 B0 B4 B5 B6 B7 B8 B9].
  pose proof (datastart_pos s L) as Hp. split; try done.
  - intros i Hi Hne. rewrite B3; [by apply A3|done|]. by rewrite A3.
  - intros i Hi Hz Hne. destruct (decide (slot_addr x1 V1 i = 0)) as [E|E].
    + destruct (ow_data _ _ _ B1 i Hi Hne) as [Hr _]. destruct (used (sblock s) V (slot_addr x2 V2 i)) eqn:Eu; [|done].
      specialize (B0 i Hi E Hne). rewrite A5 in B0; [done|lia|done].
    + rewrite B3 by done. by apply A0.
  - destruct B4 as [->|B4]; [done|]. right. destruct (used (sblock s) V (indirect x2)) eqn:E; [|done].
    rewrite A5 in B4; [done| |done]. destruct (decide (indirect x2 = 0)) as [E0|E0].
    + rewrite E0. pose proof (ly_data s L). lia.
    + destruct (ow_data _ _ _ B1 12%nat ltac:(unfold NSLOT; lia) E0) as [Hr _].
      change (slot_addr x2 V2 12) with (indirect x2) in Hr. lia.
  - intros n Hn Hu. apply B5; [done|]. by apply A5.
  - intros n Hn Hu Hne. rewrite B6; [by apply A6|done|apply A5; [lia|done]|].
    destruct A4 as [->|A4]; [done|]. intros ->. congruence.
  - intros n Hn. rewrite B7 by done. by apply A7.
  - intros n Hn H1 H2. destruct (used (sblock s) V1 n) eqn:E; [|by apply B8].
    destruct (A8 n Hn H1 E) as (i & Hi & Ei). exists i. split; [done|]. rewrite B3; [done|done|].
    rewrite Ei. intros ->. rewrite HM in H1; [done|lia].
  - rewrite B9, A9. simpl. by destruct x.
Qed.

(** A fresh block [a] for slot [i]. *)
Lemma grown_fresh s x V x' V' i a : layout s -> own_ok (sblock s) x V -> meta_used (sblock s) V -> (i < NSLOT)%nat ->
  slot_addr x V i = 0 -> datastart (sblock s) <= a < sb_size (sblock s) -> used (sblock s) V a = false ->
  own_ok (sblock s) x' V' -> (forall j, (j < NSLOT)%nat -> slot_addr x' V' j = if decide (j = i) then a else slot_addr x V j) ->
  (forall n, 0 <= n < sb_size (sblock s) -> used (sblock s) V' n = if decide (n = a) then true else used (sblock s) V n) ->
  (forall n, datastart (sblock s) <= n -> n <> a -> n <> indirect x -> V' n = V n) ->
  (forall n, n < sb_bmapstart (sblock s) -> V' n = V n) ->
  x' = x <| i_addrs := i_addrs x' |> -> grown (sblock s) x V x' V'.
Proof.
  intros L O HM Hi Hz Ha Hf O' Hs Hu Hd Hl Hx. pose proof (datastart_pos s L) as Hp. split; try done.
  - intros n Hn. pose proof (ly_data s L). rewrite Hu by lia. case_decide; [done|]. by apply HM.
  - intros j Hj Hne. rewrite Hs by done. case_decide; [congruence|done].
  - intros j Hj Hz' Hne. rewrite Hs in Hne |- * by done. by case_decide.
  - pose proof (Hs 12%nat ltac:(unfold NSLOT; lia)) as E. change (slot_addr x' V' 12) with (indirect x') in E.
    change (slot_addr x V 12) with (indirect x) in E. rewrite E. case_decide; [by right|by left].
  - intros n Hn Hun. rewrite Hu by done. by case_decide.
  - intros n Hn Hun Hne. apply Hd; [lia| |done]. intros ->. congruence.
  - intros n Hn Hun Hun'. rewrite Hu in Hun' by done. case_decide as E; [|congruence]. subst n. exists i.
    split; [done|]. rewrite Hs by done. by rewrite decide_True.
Qed.
End grown.

Section got.
Implicit Types (s : kern) (P : gset Z) (V : contents) (x : inode).

(** The file blocks [bmap_slot] looks at: the address was there, or the disk is full, or
    a fresh block is put into the slot. *)
Definition slot_got (sb : superblock) x V P (i : nat) (a : Z) x' V' P' : Prop :=
  (slot_addr x V i = a /\ x' = x /\ V' = V /\ P' = P /\
   (a = 0 -> forall n, 0 <= n < sb_size sb -> used sb V n = true)) \/
  (slot_addr x V i = 0 /\ datastart sb <= a < sb_size sb /\ used sb V a = false /\
   x' = x <| i_addrs := <[i := a]> (i_addrs x) |> /\ V' = alloc sb V a /\ P' = {[a]} ∪ ({[BBLOCK a sb]} ∪ P)).

(** The second half of bmap: an entry of the indirect block. *)
Definition entry_got (sb : superblock) x V P (i : nat) (a : Z) V' P' : Prop :=
  (slot_addr x V i = a /\ V' = V /\ P' = P /\ (a = 0 -> forall n, 0 <= n < sb_size sb -> used sb V n = true)) \/
  (slot_addr x V i = 0 /\ datastart sb <= a < sb_size sb /\ used sb V a = false /\
   V' = set_entry (alloc sb V a) (indirect x) i a /\ P' = {[indirect x]} ∪ ({[a]} ∪ ({[BBLOCK a sb]} ∪ P))).

Lemma slot_grown s0 x V P i a x' V' P' : layout s0 -> meta_used (sblock s0) V -> own_ok (sblock s0) x V ->
  (forall n, length (V n) = Z.to_nat BSIZE) -> (i <= 12)%nat -> slot_got (sblock s0) x V P i a x' V' P' ->
  grown (sblock s0) x V x' V' /\ (forall j, (j < NSLOT)%nat -> j <> i -> slot_addr x' V' j = slot_addr x V j) /\
  slot_addr x' V' i = a /\ P ⊆ P' /\ (logged (sblock s0) ({[a]} ∪ P') <= logged (sblock s0) P + 1)%nat /\
  (a <> 0 -> slot_addr x V i = 0 -> a ∈ P' /\ V' a = block0).
Proof.
  intros L HM O HV Hi [(Es & -> & -> & -> & _)|(Es & Ha & Hfree & -> & -> & ->)].
  { split_and!; try done; [by apply grown_refl|apply logged_add|congruence]. }
  pose proof (datastart_pos s0 L) as Hp.
  destruct (own_direct s0 x V i a L O HV Hi Es Ha Hfree) as [O' Hs]. cbv zeta in O', Hs. split_and!.
  - apply (grown_fresh s0 x V _ _ i a); try done; [unfold NSLOT; lia|..].
    + intros n Hn. by rewrite used_alloc by (done || lia).
    + intros n Hn Hne _. apply alloc_other; (done || lia).
    + intros n Hn. apply alloc_low; (done || lia).
  - intros j Hj Hne. rewrite Hs by done. by rewrite decide_False.
  - rewrite Hs by (unfold NSLOT; lia). by rewrite decide_True.
  - set_solver.
  - rewrite logged_in by (clear; set_solver). apply logged_alloc; (done || lia).
  - intros _ _. split; [set_solver|]. unfold alloc. by rewrite bset_eq.
Qed.

Lemma entry_grown s0 x V P i a V' P' : layout s0 -> meta_used (sblock s0) V -> own_ok (sblock s0) x V ->
  (forall n, length (V n) = Z.to_nat BSIZE) -> (12 < i < NSLOT)%nat -> indirect x <> 0 -> entry_got (sblock s0) x V P i a V' P' ->
  grown (sblock s0) x V x V' /\ (forall j, (j < NSLOT)%nat -> j <> i -> slot_addr x V' j = slot_addr x V j) /\
  slot_addr x V' i = a /\ P ⊆ P' /\ (indirect x ∈ P -> (logged (sblock s0) ({[a]} ∪ P') <= logged (sblock s0) P + 1)%nat) /\
  (logged (sblock s0) ({[a]} ∪ P') <= logged (sblock s0) P + 2)%nat /\
  (a <> 0 -> slot_addr x V i = 0 -> a ∈ P' /\ V' a = block0 /\ used (sblock s0) V a = false) /\
  (a = 0 -> forall n, 0 <= n < sb_size (sblock s0) -> used (sblock s0) V' n = true).
Proof.
  intros L HM O HV Hi Hind [(Es & -> & -> & Hf)|(Es & Ha & Hfree & -> & ->)].
  { pose proof (logged_add (sblock s0) a P). split_and!; try done; [by apply grown_refl|lia|congruence]. }
  pose proof (datastart_pos s0 L) as Hp. pose proof O as [O1 O2 O3 O4].
  destruct (O3 12%nat ltac:(unfold NSLOT; lia) Hind) as [Hr Hu]. change (slot_addr x V 12) with (indirect x) in Hr, Hu.
  assert (Hne : a <> indirect x) by (intros ->; congruence).
  destruct (own_entry s0 x V i a L O HV Hi Hind Es Ha Hfree) as [O' Hs]. cbv zeta in O', Hs.
  pose proof (logged_add (sblock s0) (indirect x) ({[a]} ∪ ({[BBLOCK a (sblock s0)]} ∪ P))).
  pose proof (logged_alloc s0 a P L ltac:(lia)).
  rewrite (logged_in _ a) by (clear; set_solver). split_and!.
  - apply (grown_fresh s0 x V _ _ i a); try done; [lia|..].
    + intros n Hn. rewrite used_set_entry, used_alloc by (done || lia). done.
    + intros n Hn Hna Hni. unfold set_entry. rewrite bset_ne by done. apply alloc_other; (done || lia).
    + intros n Hn. unfold set_entry. rewrite bset_ne; [apply alloc_low; (done || lia)|].
      unfold datastart in Hr. pose proof (Z.div_pos (sb_size (sblock s0) - 1) BPB). pose proof (ly_size s0 L). unfold BPB, BSIZE in *. lia.
    + by destruct x.
  - intros j Hj Hnj. rewrite Hs by done. by rewrite decide_False.
  - rewrite Hs by lia. by rewrite decide_True.
  - set_solver.
  - intros Hin. rewrite logged_in; [done|]. clear -Hin. set_solver.
  - lia.
  - intros _ _. split_and!; [set_solver| |done]. unfold set_entry. rewrite bset_ne by done. unfold alloc. by rewrite bset_eq.
  - intros ->. lia.
Qed.

Lemma slot_pins s0 x V P i a x' V' P' : layout s0 -> slot_got (sblock s0) x V P i a x' V' P' -> P' ⊆ P ∪ touch (sblock s0) a.
Proof.
  intros L [(_ & _ & _ & -> & _)|(_ & Ha & _ & _ & _ & ->)]; [clear; set_solver|].
  pose proof (datastart_pos s0 L). unfold touch. destruct (Z.eqb_spec a 0); [lia|]. clear. set_solver.
Qed.
Lemma entry_pins s0 x V P i a V' P' : layout s0 -> indirect x <> 0 -> entry_got (sblock s0) x V P i a V' P' ->
  P' ⊆ P ∪ touch (sblock s0) a ∪ touch (sblock s0) (indirect x).
Proof.
  intros L Hind [(_ & _ & -> & _)|(_ & Ha & _ & _ & ->)]; [clear; set_solver|].
  pose proof (datastart_pos s0 L). unfold touch. destruct (Z.eqb_spec a 0); [lia|].
  destruct (Z.eqb_spec (indirect x) 0); [done|]. clear. set_solver.
Qed.

Lemma mapped_slot s0 x V P k a x' V' P' : layout s0 -> meta_used (sblock s0) V -> own_ok (sblock s0) x V ->
  (forall n, length (V n) = Z.to_nat BSIZE) -> 0 <= k < NDIRECT -> slot_got (sblock s0) x V P (Z.to_nat k) a x' V' P' ->
  mapped (sblock s0) x V k a x' V'.
Proof.
  intros L HM O HV Hk G. unfold NDIRECT in Hk.
  destruct (slot_grown s0 x V P (Z.to_nat k) a x' V' P' L HM O HV ltac:(lia) G) as (HG & Hs & Ha & HP & Hsz & Hnew).
  assert (Ek : slot_of_block k = Z.to_nat k) by (unfold slot_of_block, NDIRECT; destruct (Z.ltb_spec k 12); [done|lia]).
  assert (Hf : faddr x V k = slot_addr x V (Z.to_nat k)) by (unfold faddr; by rewrite Ek).
  split; try done.
  - unfold faddr. by rewrite Ek.
  - intros j Hj Hne. unfold faddr. apply Hs; [by apply slot_of_block_lt|]. rewrite <- Ek. intros E. by apply slot_of_block_inj in E; [|lia|lia].
  - intros Hne. rewrite Hf in *. destruct G as [(Es & _ & -> & _)|(Es & _)]; [done|congruence].
  - intros E. pose proof (datastart_pos s0 L). destruct G as [(_ & _ & -> & _ & Hfull)|(_ & R & _)]; [by apply Hfull|lia].
  - intros Hz Hne. rewrite Hf in Hz. destruct (Hnew Hne Hz) as [_ Hb]. split; [|done].
    destruct G as [(Es & _)|(_ & _ & Hfree & _)]; [congruence|done].
Qed.

Lemma mapped_indirect s0 x V P k a1 x1 V1 P1 a V2 P2 : layout s0 -> meta_used (sblock s0) V -> own_ok (sblock s0) x V ->
  (forall n, length (V n) = Z.to_nat BSIZE) -> (forall n, length (V1 n) = Z.to_nat BSIZE) -> NDIRECT <= k < MAXFILE ->
  slot_got (sblock s0) x V P 12 a1 x1 V1 P1 -> a1 <> 0 -> entry_got (sblock s0) x1 V1 P1 (13 + Z.to_nat (k - NDIRECT)) a V2 P2 ->
  mapped (sblock s0) x V k a x1 V2.
Proof.
  intros L HM O HV HV1 Hk G1 E1 G2. set (sb := sblock s0) in *. unfold NDIRECT in *. set (i := (13 + Z.to_nat (k - 12))%nat) in *.
  assert (Ek : slot_of_block k = i) by (unfold slot_of_block, NDIRECT; destruct (Z.ltb_spec k 12); unfold i; lia).
  assert (Hi : (12 < i < NSLOT)%nat) by (unfold i, NSLOT, MAXFILE, NDIRECT, NINDIRECT, BSIZE in *; change (1024 / 4) with 256 in *; lia).
  destruct (slot_grown s0 x V P 12 a1 x1 V1 P1 L HM O HV ltac:(lia) G1) as (HG1 & Hs1 & Ha1 & _). fold sb in HG1.
  change (slot_addr x1 V1 12) with (indirect x1) in Ha1. pose proof HG1 as [O' M' _ _ _ _ _ _ _ _].
  assert (Hother : forall j, 0 <= j < MAXFILE -> faddr x1 V1 j = faddr x V j).
  { intros j Hj. destruct (slot_of_block_lt j Hj). unfold faddr. by apply Hs1. }
  assert (Hind : indirect x1 <> 0) by congruence.
  destruct (entry_grown s0 x1 V1 P1 i a V2 P2 L M' O' HV1 Hi Hind G2) as (HG2 & Hs2 & Ha2 & _ & _ & _ & Hnew2 & Hfull2).
  fold sb in HG2, Hnew2, Hfull2. assert (Hfk : faddr x1 V1 k = slot_addr x1 V1 i) by (unfold faddr; by rewrite Ek). split.
  - by apply (grown_trans s0 x V x1 V1).
  - unfold faddr. by rewrite Ek.
  - intros j Hj Hne. rewrite <- (Hother j Hj). destruct (slot_of_block_lt j Hj). unfold faddr. apply Hs2; [done|].
    rewrite <- Ek. intros E. by apply slot_of_block_inj in E; [|lia|lia].
  - intros Hne. rewrite <- Hother in Hne |- * by lia. rewrite Hfk in *.
    destruct G2 as [(Es & -> & _)|(Es & _)]; [|congruence]. split; [done|].
    destruct G1 as [(_ & _ & -> & _)|(Ez & _ & _ & _ & EV & _)]; [done|]. exfalso. apply Hne.
    rewrite Hs1 by lia. change (indirect x = 0) in Ez. unfold slot_addr. rewrite Ez. destruct (Nat.leb_spec i 12); [lia|done].
  - done.
  - intros Hz Hne. rewrite <- Hother in Hz by lia. rewrite Hfk in Hz. destruct (Hnew2 Hne Hz) as (_ & Hb & Hfree). split; [|done].
    destruct (used sb V a) eqn:Eu; [|done]. destruct G2 as [(Es & _)|(_ & R & _)]; [congruence|].
    pose proof (datastart_pos s0 L) as Hp. fold sb in Hp. rewrite (gr_used _ _ _ _ _ HG1) in Hfree; [done|lia|done].
Qed.

End got.

Section bmap.
Context {D : DiskOps} {DL : DiskLaws} {B : Board} (Hidle : forall u, next_idle u = true).
Context (c : cpu) (cur : nat) (p : proc).
Implicit Types (s : kern) (H : gmap Z nat) (P : gset Z) (V : contents) (x : inode) (ip : nat).
Notation tx := (tx c cur p).
Notation blocks := (blocks c cur p).

Lemma upd_id s0 ip x : fs_itable (k_files s0) !! ip = Some x -> u_idle (fs_uart (k_files s0)) = true -> upd s0 ip x [] = s0.
Proof.
  intros Hx Hi. unfold upd. rewrite sent_nil by done. unfold set_itable. destruct s0 as [? ? ? ? ? ? ? ? g]; destruct g. simpl in *.
  by rewrite list_insert_id.
Qed.
Lemma upd_upd s0 ip x x' out out' : upd (upd s0 ip x out) ip x' out' = upd s0 ip x' (out ++ out').
Proof.
  unfold upd. rewrite <- sent_app. f_equal. unfold sent, set_itable.
  destruct s0 as [? ? ? ? ? ? ? ? g]; destruct g. simpl. by rewrite list_insert_insert_eq.
Qed.
Lemma upd_lookup s0 ip x out : (ip < length (fs_itable (k_files s0)))%nat -> fs_itable (k_files (upd s0 ip x out)) !! ip = Some x.
Proof. intros Hi. apply list_lookup_insert_eq. done. Qed.

(** *** A block the file has *)

Lemma inode_get_bl {A} (f : inode -> A) s0 H P V d s ip x : blocks s0 H P V d s -> fs_itable (k_files s0) !! ip = Some x ->
  runs (inode_get ip f) s (fun v s' => v = f x /\ s' = s).
Proof.
  intros T Hx. apply (runs_ok _ _ _ (f x) s); [|done]. unfold inode_get, fget. rewrite (bind_ok _ _ _ (fs_itable (k_files s)) s) by done.
  assert (fs_itable (k_files s) = fs_itable (k_files s0)) as -> by apply (bf_files _ _ _ (bl_frame _ _ _ _ _ _ _ _ _ T)). by rewrite Hx.
Qed.
Lemma addr_get_bl s0 H P V d s ip x i : blocks s0 H P V d s -> fs_itable (k_files s0) !! ip = Some x -> (i < length (i_addrs x))%nat ->
  runs (addr_get ip i) s (fun v s' => v = nth i (i_addrs x) 0 /\ s' = s).
Proof.
  intros T Hx Hi. unfold addr_get. apply runs_bind. eapply runs_conseq; [by apply (inode_get_bl i_addrs s0 H P V d s ip x)|].
  intros l s' [-> ->]. destruct (lookup_lt_is_Some_2 _ _ Hi) as [v Hv]. rewrite Hv. apply runs_ret. by rewrite nth_lookup, Hv.
Qed.

Lemma bmap_hit s0 P V d s ip x k : blocks s0 ∅ P V d s -> fs_itable (k_files s0) !! ip = Some x -> length (i_addrs x) = 13%nat ->
  i_dev x = ROOTDEV -> 0 <= k < MAXFILE -> faddr x V k <> 0 -> (size P < NBUF)%nat ->
  runs (bmap ip k) s (fun a s' => a = faddr x V k /\ blocks s0 ∅ P V d s').
Proof.
  intros T Hx Hlen Hdev Hk Hne HP. unfold bmap, faddr, slot_of_block in *. destruct (Z.ltb_spec k NDIRECT) as [Hlt|Hge].
  - unfold NDIRECT in *. unfold slot_addr in *. destruct (Nat.leb_spec (Z.to_nat k) 12); [|lia]. unfold bmap_slot.
    apply runs_bind. eapply runs_conseq; [apply (addr_get_bl s0 ∅ P V d s ip x (Z.to_nat k) T Hx); lia|]. intros a s' [-> ->].
    destruct (Z.eqb_spec (nth (Z.to_nat k) (i_addrs x) 0) 0); [done|]. by apply runs_ret.
  - assert (Hk2 : k - NDIRECT < NINDIRECT) by (unfold MAXFILE in Hk; lia). cbv zeta.
    destruct (Z.ltb_spec (k - NDIRECT) NINDIRECT); [|lia]. unfold slot_addr in *. unfold NDIRECT in *.
    destruct (Nat.leb_spec (S (Z.to_nat k)) 12); [lia|]. destruct (Z.eqb_spec (indirect x) 0) as [|Hind]; [done|].
    unfold bmap_slot. apply runs_bind. apply runs_bind.
    eapply runs_conseq; [apply (addr_get_bl s0 ∅ P V d s ip x 12 T Hx); lia|]. intros a s' [-> ->]. fold (indirect x).
    destruct (Z.eqb_spec (indirect x) 0); [done|]. apply runs_ret. destruct (Z.eqb_spec (indirect x) 0); [done|].
    apply runs_bind. eapply runs_conseq; [by apply (inode_get_bl i_dev s0 ∅ P V d s ip x)|]. intros dv s' [-> ->]. rewrite Hdev.
    apply runs_bind. eapply runs_conseq; [apply (bread_tri c cur p s0 ∅ P V d s (indirect x) T); [done|right]|].
    { by rewrite dom_empty_L, (right_id_L ∅ (∪)). }
    intros bp s1 T1. cbv beta in T1. apply runs_bind.
    eapply runs_conseq; [apply (data_tri c cur p _ _ _ _ _ s1 (indirect x) bp T1), lookup_insert_eq|]. intros dd s1' [-> ->].
    replace (Z.to_nat (4 * (k - 12))) with (4 * (S (Z.to_nat k) - 13))%nat by lia. cbv zeta.
    destruct (Z.eqb_spec (get_le 4 (V (indirect x)) (4 * (S (Z.to_nat k) - 13))) 0); [done|].
    apply runs_bind, runs_ret, runs_bind.
    eapply runs_conseq; [apply (brelse_tri c cur p _ _ _ _ _ s1 (indirect x) bp T1); [apply lookup_insert_eq|]|].
    { destruct (decide (indirect x ∈ P)); [by left|right]. by apply (blocks_clean c cur p s0 ∅ P V d s). }
    intros [] s2 T2. cbv beta in T2. rewrite delete_insert_id in T2 by done. by apply runs_ret.
Qed.

(** *** A block it may have to get *)

Lemma quiet_none sb V : quiet sb V ∅.
Proof using. split; [done|done|]. rewrite map_size_empty. lia. Qed.
Lemma alter_upd s0 ip x g : fs_itable (k_files s0) !! ip = Some x -> u_idle (fs_uart (k_files s0)) = true ->
  set_itable s0 (alter g ip) = upd s0 ip (g x) [].
Proof.
  intros Hx Hi. unfold upd. rewrite sent_nil by done. unfold set_itable. destruct s0 as [? ? ? ? ? ? ? ? f]; destruct f. simpl in *.
  do 2 f_equal. apply list_eq. intros i. destruct (decide (i = ip)) as [->|Hne].
  - rewrite list_lookup_alter_eq, Hx, list_lookup_insert_eq; [done|]. by eapply lookup_lt_Some.
  - by rewrite list_lookup_alter_ne, list_lookup_insert_ne by done.
Qed.

Lemma bmap_slot_tx s0 P V s ip x i : tx s0 ∅ P V s -> layout s0 -> meta_used (sblock s0) V -> own_ok (sblock s0) x V ->
  fs_itable (k_files s0) !! ip = Some x -> (i <= 12)%nat -> reserve s0 P 1 -> u_idle (fs_uart (k_files s0)) = true ->
  runs (bmap_slot ip i) s (fun a s' => exists x' V' P' out, tx (upd s0 ip x' out) ∅ P' V' s' /\
    slot_got (sblock s0) x V P i a x' V' P').
Proof.
  intros T L HM O Hx Hi Hroom Hid. pose proof O as [O1 O2 O3 O4].
  assert (Hsl : slot_addr x V i = nth i (i_addrs x) 0) by (unfold slot_addr; destruct (Nat.leb_spec i 12); [done|lia]).
  unfold bmap_slot. apply runs_bind.
  eapply runs_conseq; [apply (addr_get_bl _ ∅ P V _ s ip x i (tx_blocks _ _ _ _ _ _ _ _ T) Hx); lia|]. intros a s' [-> ->].
  rewrite <- Hsl. destruct (Z.eqb_spec (slot_addr x V i) 0) as [E|E].
  2: { apply runs_ret. exists x, V, P, []. rewrite upd_id by done. split; [done|]. left. by split_and!. }
  apply runs_bind. eapply runs_conseq; [by apply (inode_get_tx c cur p i_dev s0 ∅ P V s ip x)|]. intros dv s' [-> ->]. rewrite O2.
  apply runs_bind. eapply runs_conseq; [by apply (balloc_tx Hidle c cur p s0 ∅ P V s T L (quiet_none _ _) HM)|].
  intros a s1 [(-> & Hfull & T1)|(Ha & Hfree & _ & T1)].
  - rewrite Z.eqb_refl. apply runs_ret. exists x, V, P, (format NO_BLOCKS []). split; [|left; by split_and!].
    rewrite <- (upd_id s0 ip x) in T1 by done. unfold upd in *. rewrite sent_app, app_nil_l in T1. exact T1.
  - pose proof (datastart_pos s0 L). destruct (Z.eqb_spec a 0); [lia|]. apply runs_bind.
    eapply runs_conseq; [apply (inode_set_tx c cur p (fun x => x <| i_addrs ::= insert i a |>) _ _ _ _ s1 ip x T1 Hx)|].
    intros [] s2 T2. cbv beta in T2. rewrite (alter_upd s0 ip x) in T2 by done. apply runs_ret.
    eexists _, _, _, []. split; [exact T2|]. right. split; [exact E|]. split; [exact Ha|]. split; [exact Hfree|]. done.
Qed.

Lemma bmap_entry_tx s0 P V s ip x bn : tx s0 ∅ P V s -> layout s0 -> meta_used (sblock s0) V -> own_ok (sblock s0) x V ->
  fs_itable (k_files s0) !! ip = Some x -> indirect x <> 0 -> 0 <= bn < NINDIRECT -> reserve s0 P 2 -> u_idle (fs_uart (k_files s0)) = true ->
  runs (dev <- inode_get ip i_dev ;;
        bp <- bread dev (indirect x) ;;
        d <- buf_get bp b_data ;;
        let addr := get_le 4 d (Z.to_nat (4 * bn)) in
        addr <- (if addr =? 0 then
                   addr <- balloc dev ;;
                   mwhen (negb (addr =? 0))
                     (edit bp (fun d => put_le 4 d (Z.to_nat (4 * bn)) addr) ;;; log_write bp) ;;;
                   mret addr
                 else mret addr) ;;
        brelse bp ;;;
        mret addr) s (fun a s' => exists V' P' out, tx (upd s0 ip x out) ∅ P' V' s' /\
          entry_got (sblock s0) x V P (13 + Z.to_nat bn) a V' P').
Proof.
  intros T L HM O Hx Hind Hbn Hroom Hid. pose proof O as [O1 O2 O3 O4]. set (sb := sblock s0) in *. set (q := indirect x) in *.
  destruct (O3 12%nat ltac:(unfold NSLOT; lia) Hind) as [Hr Hu]. change (slot_addr x V 12) with q in Hr, Hu.
  pose proof (datastart_pos s0 L) as Hpos. pose proof (ly_size s0 L) as Hsz. fold sb in Hpos, Hsz.
  assert (Hsl : slot_addr x V (13 + Z.to_nat bn) = get_le 4 (V q) (Z.to_nat (4 * bn))).
  { unfold slot_addr. destruct (Nat.leb_spec (13 + Z.to_nat bn) 12); [lia|]. fold q. destruct (Z.eqb_spec q 0); [done|]. f_equal. lia. }
  assert (Hnl : ~ in_log s0 q).
  { intros Hin. apply (ly_log s0 L) in Hin. fold sb in Hin. unfold datastart in Hr.
    pose proof (Z.div_pos (sb_size sb - 1) BPB) as Hp. unfold BPB, BSIZE in *. lia. }
  apply runs_bind. eapply runs_conseq; [by apply (inode_get_tx c cur p i_dev s0 ∅ P V s ip x)|]. intros dv s' [-> ->]. rewrite O2.
  apply runs_bind. eapply runs_conseq; [apply (bread_tx c cur p s0 ∅ P V s q T); [done|right]|].
  { apply (cache_room s0 ∅ P 2); [rewrite map_size_empty; lia|by apply reserve_room|lia|]. exact (tx_logsize c cur p _ _ _ _ _ T). }
  intros bp s1 T1. cbv beta in T1. apply runs_bind.
  eapply runs_conseq; [apply (data_tx c cur p _ _ _ _ s1 q bp T1), lookup_insert_eq|]. intros dd s1' [-> ->]. cbv zeta. rewrite <- Hsl.
  assert (Hclean : q ∈ P \/ V q = content (fs_disk (k_files s0)) q).
  { destruct (decide (q ∈ P)); [by left|right]. by apply (tx_clean c cur p s0 ∅ P V s). }
  destruct (Z.eqb_spec (slot_addr x V (13 + Z.to_nat bn)) 0) as [E|E].
  2: { apply runs_bind, runs_ret, runs_bind.
       eapply runs_conseq; [apply (brelse_tx c cur p _ _ _ _ s1 q bp T1); [apply lookup_insert_eq|done]|].
       intros [] s2 T2. cbv beta in T2. rewrite delete_insert_id in T2 by done. apply runs_ret.
       exists V, P, []. rewrite upd_id by done. split; [exact T2|]. left. by split_and!. }
  assert (Q : quiet sb V (<[q := bp]> ∅)).
  { split.
    - intros b Hb. destruct (bblock_eq s0 b L Hb) as [_ R]. fold sb in R. rewrite lookup_insert_ne by lia. done.
    - intros n Hn Hf. rewrite lookup_insert_ne; [done|]. intros <-. congruence.
    - rewrite map_size_insert_None by done. rewrite map_size_empty. lia. }
  apply runs_bind, runs_bind. eapply runs_conseq; [apply (balloc_tx Hidle c cur p s0 _ P V s1 T1 L Q HM); [unfold reserve in *; lia|done]|].
  intros a s2 [(-> & Hfull & T2)|(Ha & Hfree & _ & T2)].
  - cbn [Z.eqb negb mwhen]. apply runs_bind, runs_ret, runs_ret, runs_bind.
    eapply runs_conseq; [apply (brelse_tx c cur p _ _ _ _ s2 q bp T2); [apply lookup_insert_eq|exact Hclean]|].
    intros [] s3 T3. cbv beta in T3. rewrite delete_insert_id in T3 by done. apply runs_ret.
    exists V, P, (format NO_BLOCKS []). split; [|left; by split_and!].
    rewrite <- (upd_id s0 ip x) in T3 by done. unfold upd in *. rewrite sent_app, app_nil_l in T3. exact T3.
  - fold sb in Ha, Hfree, T2. destruct (Z.eqb_spec a 0); [lia|]. cbn [negb mwhen]. apply runs_bind, runs_bind.
    assert (Hqa : alloc sb V a q = V q). { apply (alloc_other s0); [done|fold sb; lia|fold sb; lia|]. intros ->. congruence. }
    assert (HlenV : length (V q) = Z.to_nat BSIZE) by exact (tx_len c cur p _ _ _ _ _ q T).
    eapply runs_conseq; [apply (edit_tx c cur p _ _ _ _ s2 q bp _ T2); [apply lookup_insert_eq|by rewrite length_put_le, Hqa]|].
    intros [] s3 T3. cbv beta in T3.
    eapply runs_conseq; [apply (log_write_tx c cur p _ _ _ _ s3 q bp T3); [apply lookup_insert_eq|lia|done|]|].
    { apply reserve_room. unfold reserve in *. pose proof (logged_alloc s0 a P L ltac:(fold sb; lia)) as Hla. fold sb in Hla, Hroom |- *. lia. }
    intros [] s4 T4. cbv beta in T4. apply runs_ret, runs_bind.
    eapply runs_conseq; [apply (brelse_tx c cur p _ _ _ _ s4 q bp T4); [apply lookup_insert_eq|left; set_solver]|].
    intros [] s5 T5. cbv beta in T5. rewrite delete_insert_id in T5 by done. apply runs_ret.
    exists (set_entry (alloc sb V a) q (13 + Z.to_nat bn) a), ({[q]} ∪ ({[a]} ∪ ({[BBLOCK a sb]} ∪ P))), [].
    rewrite upd_id by done. split; [|right; split; [exact E|]; split; [exact Ha|]; by split].
    unfold set_entry. replace (4 * (13 + Z.to_nat bn - 13))%nat with (Z.to_nat (4 * bn)) by lia. exact T5.
Qed.

(** bmap returns the block's address; a file that had no such block gets a zeroed one that
    was free, or 0 if the disk is full. *)
Lemma bmap_tx s0 P V s ip x k : tx s0 ∅ P V s -> layout s0 -> meta_used (sblock s0) V -> own_ok (sblock s0) x V ->
  fs_itable (k_files s0) !! ip = Some x -> 0 <= k < MAXFILE -> reserve s0 P 3 -> u_idle (fs_uart (k_files s0)) = true ->
  runs (bmap ip k) s (fun a s' => exists x' V' P' out, tx (upd s0 ip x' out) ∅ P' V' s' /\ mapped (sblock s0) x V k a x' V' /\
    P ⊆ P' /\ (logged (sblock s0) ({[a]} ∪ P') <= logged (sblock s0) P + 2)%nat /\ P' ⊆ P ∪ touch (sblock s0) a ∪ touch (sblock s0) (indirect x')).
Proof.
  intros T L HM O Hx Hk Hroom Hid. assert (HV : forall n, length (V n) = Z.to_nat BSIZE) by (intros n; exact (tx_len c cur p _ _ _ _ _ n T)).
  set (sb := sblock s0) in *. unfold bmap. destruct (Z.ltb_spec k NDIRECT) as [Hlt|Hge].
  { eapply runs_conseq; [apply (bmap_slot_tx s0 P V s ip x (Z.to_nat k) T L HM O Hx); [unfold NDIRECT in *; lia|unfold reserve in *; lia|done]|].
    intros a s1 (x' & V' & P' & out & T1 & G). exists x', V', P', out. split; [done|].
    destruct (slot_grown s0 x V P (Z.to_nat k) a x' V' P' L HM O HV ltac:(unfold NDIRECT in *; lia) G) as (_ & _ & _ & HP & Hsz & _). fold sb in Hsz.
    split; [apply (mapped_slot s0 x V P k a x' V' P'); (done || lia)|]. split; [done|]. split; [lia|]. pose proof (slot_pins s0 x V P _ a x' V' P' L G) as K1. fold sb in K1. clear -K1. set_solver. }
  assert (Hbn : 0 <= k - NDIRECT < NINDIRECT) by (unfold MAXFILE in Hk; lia). cbv zeta.
  destruct (Z.ltb_spec (k - NDIRECT) NINDIRECT); [|lia]. unfold NDIRECT in *.
  set (i := (13 + Z.to_nat (k - 12))%nat).
  assert (Ek : slot_of_block k = i) by (unfold slot_of_block, NDIRECT; destruct (Z.ltb_spec k 12); unfold i; lia).
  assert (Hi : (12 < i < NSLOT)%nat) by (unfold i, NSLOT, NINDIRECT, BSIZE in *; change (1024 / 4) with 256 in *; lia).
  apply runs_bind. eapply runs_conseq; [apply (bmap_slot_tx s0 P V s ip x 12 T L HM O Hx); [lia|unfold reserve in *; lia|done]|].
  intros a1 s1 (x1 & V1 & P1 & out1 & T1 & G1).
  destruct (slot_grown s0 x V P 12 a1 x1 V1 P1 L HM O HV ltac:(lia) G1) as (HG1 & Hs1 & Ha1 & HP1 & Hsz1 & Hnew1). fold sb in Hsz1. pose proof (logged_got sb a1 P1) as Hgot.
  change (slot_addr x1 V1 12) with (indirect x1) in Ha1. change (slot_addr x V 12) with (indirect x) in Hnew1.
  fold sb in HG1. pose proof HG1 as [O' M' _ _ _ _ _ _ _ _].
  assert (Hother : forall j, 0 <= j < MAXFILE -> faddr x1 V1 j = faddr x V j).
  { intros j Hj. destruct (slot_of_block_lt j Hj). unfold faddr. by apply Hs1. }
  destruct (Z.eqb_spec a1 0) as [E1|E1].
  { apply runs_ret. exists x1, V1, P1, out1. split; [done|]. rewrite E1 in Hsz1. subst a1.
    assert (Hz : faddr x1 V1 k = 0). { unfold faddr, slot_addr. rewrite Ek, E1. destruct (Nat.leb_spec i 12); [lia|done]. }
    split; [|split; [done|]; split; [lia|]; pose proof (slot_pins s0 x V P _ _ x1 V1 P1 L G1) as K1; fold sb in K1; clear -K1; set_solver]. split; try done.
    - intros j Hj _. by apply Hother.
    - rewrite <- Hother by done. congruence.
    - intros _. pose proof (datastart_pos s0 L). destruct G1 as [(_ & _ & -> & _ & Hfull)|(_ & R & _)]; [by apply Hfull|lia]. }
  set (s0' := upd s0 ip x1 out1) in *.
  assert (Hx1 : fs_itable (k_files s0') !! ip = Some x1) by (apply upd_lookup; by eapply lookup_lt_Some).
  assert (HV1 : forall n, length (V1 n) = Z.to_nat BSIZE) by (intros n; exact (tx_len c cur p _ _ _ _ _ n T1)).
  assert (Hind : indirect x1 <> 0) by congruence. rewrite <- Ha1.
  eapply runs_conseq; [apply (bmap_entry_tx s0' P1 V1 s1 ip x1 (k - 12) T1); try done; [by destruct L|]|].
  { unfold reserve in *. change (logsize s0') with (logsize s0). change (sblock s0') with (sblock s0). fold sb in Hroom |- *. lia. }
  intros a s2 (V2 & P2 & out2 & T2 & G2). unfold s0' in T2. rewrite upd_upd in T2. fold i in G2. exists x1, V2, P2, (out1 ++ out2). split; [done|].
  destruct (entry_grown s0 x1 V1 P1 i a V2 P2 L M' O' HV1 Hi Hind G2) as (HG2 & Hs2 & Ha2 & HP2 & Hsz2 & Hsz2' & Hnew2 & Hfull2).
  fold sb in HG2, Hnew2, Hfull2, Hsz2, Hsz2'. assert (Hfk : faddr x1 V1 k = slot_addr x1 V1 i) by (unfold faddr; by rewrite Ek).
  split; [|split; [set_solver|split]].
  3: { pose proof (slot_pins s0 x V P _ _ x1 V1 P1 L G1) as K1. pose proof (entry_pins s0' x1 V1 P1 i a V2 P2 ltac:(by destruct L) Hind G2) as K2.
       rewrite <- Ha1 in K1. change (sblock s0') with sb in K2. fold sb in K1. clear -K1 K2. clearbody sb. set_solver. }
  - apply (mapped_indirect s0 x V P k a1 x1 V1 P1 a V2 P2); try done. unfold NDIRECT. lia.
  - destruct (decide (indirect x1 ∈ P1)) as [Hin|Hout]; [specialize (Hsz2 Hin); lia|].
    destruct G1 as [(_ & _ & _ & -> & _)|(Ez & _)]; [done|]. destruct (Hnew1 E1 Ez) as [Hin _]. congruence.
Qed.
End bmap.
