(* ===== verification/Content.v ===== *)
(** * The bytes of a file: readi and writei of kernel/fs.c

    [fbyte x V o] is byte [o] of the file whose inode is [x]; a file is the bytes below its
    size.  readi is shown for any destination that accepts the bytes it is given ([sink]),
    writei for any source that supplies them ([source]); kernel structs and user memory are
    both. *)

From S2P Require Import Prelude Riscv CString Kalloc Vm Uvm UvmProps Spinlock Proc ProcSpec Headers Codec Sleeplock.
From S2P Require Import Uart Printf Bio BioSpec Bcache Example PipeSpec ConsoleSpec Log Blocks LogSpec Crash LogOps.
From S2P Require Import Fs FsTx Balloc Bmap.

Definition fbyte (x : inode) (V : contents) (o : Z) : Z :=
  default 0 (V (faddr x V (o / BSIZE)) !! Z.to_nat (o mod BSIZE)).
Definition fbytes (x : inode) (V : contents) (off : Z) (n : nat) : list Z :=
  (fun i => fbyte x V (off + Z.of_nat i)) <$> seq 0 n.

(** A well-formed file: its blocks are its own, and it has all blocks below its size. *)
Record file_ok (sb : superblock) (x : inode) (V : contents) : Prop := {
  fo_own : own_ok sb x V;
  fo_size : 0 <= i_size x <= MAXFILE * BSIZE;
  fo_has : forall k, 0 <= k -> k * BSIZE < i_size x -> faddr x V k <> 0
}.

Section bytes.
Implicit Types (x : inode) (V : contents) (off : Z).

Lemma length_fbytes x V off n : length (fbytes x V off n) = n.
Proof. unfold fbytes. by rewrite length_fmap, length_seq. Qed.
Lemma fbytes_lookup x V off n i : (i < n)%nat -> fbytes x V off n !! i = Some (fbyte x V (off + Z.of_nat i)).
Proof. intros Hi. unfold fbytes. rewrite list_lookup_fmap, lookup_seq_lt by done. done. Qed.
Lemma fbytes_app x V off n m : fbytes x V off (n + m) = fbytes x V off n ++ fbytes x V (off + Z.of_nat n) m.
Proof.
  apply list_eq. intros i. destruct (decide (i < n)%nat) as [H1|H1].
  - rewrite lookup_app_l by (rewrite length_fbytes; lia). by rewrite !fbytes_lookup by lia.
  - rewrite lookup_app_r by (rewrite length_fbytes; lia). rewrite length_fbytes.
    destruct (decide (i < n + m)%nat).
    + rewrite !fbytes_lookup by lia. do 2 f_equal. lia.
    + by rewrite !lookup_ge_None_2 by (rewrite length_fbytes; lia).
Qed.

(** A piece of one block. *)
Lemma piece x V off m : (forall n, length (V n) = Z.to_nat BSIZE) -> 0 <= off -> 0 <= m -> off mod BSIZE + m <= BSIZE ->
  take (Z.to_nat m) (drop (Z.to_nat (off mod BSIZE)) (V (faddr x V (off / BSIZE)))) = fbytes x V off (Z.to_nat m).
Proof.
  intros HV Ho Hm Hfit. pose proof (Z.mod_pos_bound off BSIZE ltac:(unfold BSIZE; lia)) as Hb. set (a := faddr x V (off / BSIZE)).
  apply list_eq. intros i. destruct (decide (i < Z.to_nat m)%nat) as [Hi|Hi].
  - rewrite lookup_take_lt, lookup_drop, fbytes_lookup by done. unfold fbyte.
    assert (Hd : (off + Z.of_nat i) / BSIZE = off / BSIZE /\ (off + Z.of_nat i) mod BSIZE = off mod BSIZE + Z.of_nat i).
    { pose proof (Z.div_mod off BSIZE ltac:(unfold BSIZE; lia)) as Hdm.
      assert (He : off + Z.of_nat i = off / BSIZE * BSIZE + (off mod BSIZE + Z.of_nat i)) by lia.
      rewrite He, Z.div_add_l by (unfold BSIZE; lia). rewrite Z.add_comm at 1. split.
      - rewrite Z.div_small by lia. lia.
      - rewrite (Z.add_comm (off / BSIZE * BSIZE)), Z_mod_plus_full. rewrite Z.mod_small by lia. lia. }
    destruct Hd as [-> ->]. fold a. replace (Z.to_nat (off mod BSIZE + Z.of_nat i)) with (Z.to_nat (off mod BSIZE) + i)%nat by lia.
    destruct (lookup_lt_is_Some_2 (V a) (Z.to_nat (off mod BSIZE) + i)) as [v Hv]; [rewrite HV; unfold BSIZE in *; lia|]. by rewrite Hv.
  - rewrite (lookup_ge_None_2 (fbytes _ _ _ _)) by (rewrite length_fbytes; lia). apply lookup_ge_None_2. rewrite length_take. lia.
Qed.

Lemma maxfile_block o : 0 <= o < MAXFILE * BSIZE -> 0 <= o / BSIZE < MAXFILE.
Proof. intros Ho. split; [apply Z.div_pos; unfold BSIZE; lia|apply Z.div_lt_upper_bound; unfold BSIZE in *; lia]. Qed.
Lemma below_size o size : 0 <= o < size -> o / BSIZE * BSIZE < size.
Proof. intros Ho. pose proof (Z.div_mod o BSIZE ltac:(unfold BSIZE; lia)). pose proof (Z.mod_pos_bound o BSIZE ltac:(unfold BSIZE; lia)). lia. Qed.
Lemma next_mod off m : 0 <= off -> off mod BSIZE + m = BSIZE -> (off + m) mod BSIZE = 0.
Proof.
  intros Ho Hm. pose proof (Z.div_mod off BSIZE ltac:(unfold BSIZE; lia)) as Hdm.
  replace (off + m) with ((off / BSIZE + 1) * BSIZE) by lia. apply Z_mod_mult.
Qed.
End bytes.

(** ** Reading *)

Section readi.
Context {D : DiskOps} {DL : DiskLaws} {B : Board} (c : cpu) (cur : nat) (p : proc).
Implicit Types (s : kern) (P : gset Z) (V : contents) (x : inode) (ip : nat).
Notation blocks := (blocks c cur p).

(** A destination: [I dst acc s0] says that the bytes [acc] have been delivered; it takes
    up to [max] bytes. *)
Definition sink {A} (out : A -> list Z -> M kern (option A)) (I : A -> list Z -> kern -> Prop) (max : nat) : Prop :=
  forall dst acc bs s0 H P V d s, blocks s0 H P V d s -> I dst acc s0 -> (length acc + length bs <= max)%nat ->
  runs (out dst bs) s (fun r s' => exists dst' s0', r = Some dst' /\ I dst' (acc ++ bs) s0' /\
    fs_itable (k_files s0') = fs_itable (k_files s0) /\ blocks s0' H P V d s').

Context {A : Type} (out : A -> list Z -> M kern (option A)) (I : A -> list Z -> kern -> Prop) (max : nat).
Context (Hout : sink out I max).

Lemma readi_loop_tri P V d ip x (HP : (size P < NBUF)%nat) (Hlen : length (i_addrs x) = 13%nat) (Hdev : i_dev x = ROOTDEV)
    (Hsize : i_size x <= MAXFILE * BSIZE) (Hhas : forall k, 0 <= k -> k * BSIZE < i_size x -> faddr x V k <> 0) n fuel :
  forall s0 s dst acc off tot, blocks s0 ∅ P V d s -> fs_itable (k_files s0) !! ip = Some x -> I dst acc s0 ->
  (length acc + Z.to_nat (n - tot) <= max)%nat -> 0 <= off -> 0 <= tot <= n -> off + (n - tot) <= i_size x -> (1 <= fuel)%nat ->
  (tot < n -> n - tot + off mod BSIZE <= (Z.of_nat fuel - 1) * BSIZE) ->
  runs (readi_loop out fuel ip dst off n tot) s (fun r s' => exists dst' s0', r = (n, dst') /\
    I dst' (acc ++ fbytes x V off (Z.to_nat (n - tot))) s0' /\ fs_itable (k_files s0') = fs_itable (k_files s0) /\ blocks s0' ∅ P V d s').
Proof.
  induction fuel as [|fuel IH]; intros s0 s dst acc off tot T Hx HI Hmax Ho Ht Hfit Hf Hfuel; [lia|]. cbn [readi_loop].
  destruct (Z.ltb_spec tot n) as [Hlt|Hge].
  2: { apply runs_ret. replace tot with n by lia. rewrite Z.sub_diag. exists dst, s0. simpl. rewrite app_nil_r. done. }
  specialize (Hfuel Hlt). pose proof (Z.mod_pos_bound off BSIZE ltac:(unfold BSIZE; lia)) as Hb.
  assert (HV : forall n, length (V n) = Z.to_nat BSIZE) by (intros m; exact (blocks_size c cur p _ _ _ _ _ _ m T)).
  assert (Hne : faddr x V (off / BSIZE) <> 0) by (apply Hhas; [apply Z.div_pos; unfold BSIZE; lia|apply below_size; lia]).
  apply runs_bind. eapply runs_conseq; [apply (bmap_hit c cur p s0 P V d s ip x (off / BSIZE)); try done; apply maxfile_block; lia|].
  intros a s1 [-> T1]. destruct (Z.eqb_spec (faddr x V (off / BSIZE)) 0); [done|]. set (a := faddr x V (off / BSIZE)) in *.
  apply runs_bind. eapply runs_conseq; [by apply (inode_get_bl c cur p i_dev s0 ∅ P V d s1 ip x)|]. intros dv s1' [-> ->]. rewrite Hdev.
  apply runs_bind. eapply runs_conseq; [apply (bread_tri c cur p s0 ∅ P V d s1 a T1); [done|right; by rewrite dom_empty_L, (right_id_L ∅ (∪))]|].
  intros bp s2 T2. cbv beta in T2. set (m := Z.min (n - tot) (BSIZE - off mod BSIZE)).
  apply runs_bind. eapply runs_conseq; [apply (data_tri c cur p _ _ _ _ _ s2 a bp T2), lookup_insert_eq|]. intros dd s2' [-> ->].
  unfold a at 1. rewrite (piece x V off m HV Ho) by lia.
  apply runs_bind. eapply runs_conseq; [apply (Hout dst acc _ s0 _ _ _ _ s2 T2 HI); rewrite length_fbytes; lia|].
  intros r s3 (dst' & s0' & -> & HI' & Hit & T3). apply runs_bind.
  eapply runs_conseq; [apply (brelse_tri c cur p _ _ _ _ _ s3 a bp T3); [apply lookup_insert_eq|]|].
  { destruct (decide (a ∈ P)); [by left|right]. by apply (blocks_clean c cur p s0 ∅ P V d s). }
  intros [] s4 T4. cbv beta in T4. rewrite delete_insert_id in T4 by done.
  eapply runs_conseq; [apply (IH s0' s4 dst' (acc ++ fbytes x V off (Z.to_nat m)) (off + m) (tot + m) T4); try done; try lia|].
  - by rewrite Hit.
  - rewrite length_app, length_fbytes. lia.
  - destruct fuel; [|lia]. simpl in Hfuel. lia.
  - intros Hlt'. rewrite (next_mod off m) by lia. lia.
  - intros r s5 (dst2 & s02 & -> & HI2 & Hit2 & T5). exists dst2, s02. split_and!; [done| |by rewrite Hit2|done].
    rewrite <- app_assoc in HI2. replace (Z.to_nat (n - tot)) with (Z.to_nat m + Z.to_nat (n - (tot + m)))%nat by lia.
    rewrite fbytes_app. by replace (off + Z.of_nat (Z.to_nat m)) with (off + m) by lia.
Qed.

(** readi delivers the bytes from [off] on, as many as asked for and below the size. *)
Lemma readi_gen_tri P V d ip x s0 s dst off n : blocks s0 ∅ P V d s -> fs_itable (k_files s0) !! ip = Some x ->
  (size P < NBUF)%nat -> file_ok (sblock s0) x V -> I dst [] s0 -> 0 <= off -> 0 <= n -> off + n < 2 ^ 32 ->
  let m := if i_size x <? off then 0 else Z.min n (i_size x - off) in (Z.to_nat m <= max)%nat ->
  runs (readi_gen out ip dst off n) s (fun r s' => exists dst' s0', r = (m, dst') /\ I dst' (fbytes x V off (Z.to_nat m)) s0' /\
    fs_itable (k_files s0') = fs_itable (k_files s0) /\ blocks s0' ∅ P V d s').
Proof.
  intros T Hx HP [[O1 O2 O3 O4] F2 F3] HI Ho Hn Hfit m Hmax. unfold readi_gen.
  apply runs_bind. eapply runs_conseq; [by apply (inode_get_bl c cur p i_size s0 ∅ P V d s ip x)|]. intros sz s' [-> ->].
  rewrite u32_small by lia. destruct (Z.ltb_spec (i_size x) off) as [Hout'|Hin]; cbn [orb].
  { apply runs_ret. exists dst, s0. done. }
  destruct (Z.ltb_spec (off + n) off); [lia|]. cbv zeta.
  replace (if i_size x <? off + n then u32 (i_size x - off) else n) with m.
  2: { unfold m. destruct (Z.ltb_spec (i_size x) off); [lia|]. unfold MAXFILE, NDIRECT, NINDIRECT, BSIZE in *. change (1024 / 4) with 256 in *.
       destruct (Z.ltb_spec (i_size x) (off + n)); [rewrite u32_small by lia; lia|lia]. }
  assert (Hm : 0 <= m /\ off + m <= i_size x) by (unfold m; destruct (Z.ltb_spec (i_size x) off); lia).
  pose proof (Z.mod_pos_bound off BSIZE ltac:(unfold BSIZE; lia)). pose proof (Z.div_pos m BSIZE ltac:(lia) ltac:(unfold BSIZE; lia)).
  pose proof (Z.div_mod m BSIZE ltac:(unfold BSIZE; lia)). pose proof (Z.mod_pos_bound m BSIZE ltac:(unfold BSIZE; lia)).
  eapply runs_conseq; [apply (readi_loop_tri P V d ip x HP O1 O2 ltac:(lia) F3 m (blocks_of m) s0 s dst [] off 0 T Hx HI); simpl; try lia|].
  - unfold blocks_of. lia.
  - intros Hpos. unfold blocks_of. rewrite Nat2Z.inj_add, Z2Nat.id by lia. lia.
  - rewrite Z.sub_0_r. done.
Qed.
End readi.

(** A struct of the kernel. *)
Lemma local_sink `{DiskOps} c cur p s0 max : sink c cur p out_local (fun dst acc s => dst = acc /\ s = s0) max.
Proof. intros dst acc bs s1 H' P V d s T [-> ->] _. apply runs_ret. exists (acc ++ bs), s0. done. Qed.
