(* ===== verification/Dinode.v ===== *)
(** * Inodes on the disk

    struct dinode is read and written field by field: what iupdate stores is what ilock
    loads, and the other inodes of the block are untouched. *)

From S2P Require Import Prelude Riscv CString Kalloc Vm Spinlock Proc ProcSpec Headers Codec Sleeplock.
From S2P Require Import Uart Printf Bio Log Fs.

(** The fields of an inode are in the range of their C types. *)
Record inode_range (x : inode) : Prop := {
  ir_type : - 2 ^ 15 <= i_type x < 2 ^ 15;
  ir_major : - 2 ^ 15 <= i_major x < 2 ^ 15;
  ir_minor : - 2 ^ 15 <= i_minor x < 2 ^ 15;
  ir_nlink : - 2 ^ 15 <= i_nlink x < 2 ^ 15;
  ir_size : 0 <= i_size x < 2 ^ 32;
  ir_addrs : length (i_addrs x) = 13%nat /\ Forall (fun a => 0 <= a < 2 ^ 32) (i_addrs x)
}.

Section dinode.
Implicit Types (d : list Z) (o : nat) (x y : inode).

Lemma i16_small (x : Z) : - 2 ^ 15 <= x < 2 ^ 15 -> i16 x = x.
Proof.
  intros Hx. unfold i16, sint. destruct (Z_lt_dec x 0) as [Hn|Hn].
  - assert (x mod 2 ^ 16 = x + 2 ^ 16) as ->.
    { rewrite <- (Z_mod_plus_full x 1 (2 ^ 16)). apply Z.mod_small. lia. }
    destruct (Z.ltb_spec (x + 2 ^ 16) (2 ^ (16 - 1))); lia.
  - rewrite Z.mod_small by lia.
    destruct (Z.ltb_spec x (2 ^ (16 - 1))); lia.
Qed.
Lemma i16_get_put bs off v : (off + 2 <= length bs)%nat -> - 2 ^ 15 <= v < 2 ^ 15 ->
  i16 (get_le 2 (put_le 2 bs off (u16 v)) off) = v.
Proof.
  intros Hl Hv. rewrite get_put_same by done. change (256 ^ Z.of_nat 2) with (2 ^ 16).
  unfold u16. rewrite Z.mod_mod by lia. rewrite <- (i16_small v) at 2 by done.
  unfold i16, sint. by rewrite Z.mod_mod by lia.
Qed.

(** The addresses: 13 words from byte 12 of the struct on. *)
Lemma length_put_addrs_from addrs : forall i d o,
  length (foldl (fun d e => put_le 4 d (o + 12 + 4 * e.1) (u32 e.2)) d (zip (seq i (length addrs)) addrs)) = length d.
Proof. induction addrs as [|a addrs IH]; intros i d o; [done|]. simpl. by rewrite IH, length_put_le. Qed.
Lemma put_addrs_out addrs : forall i d o j, (j < o + 12 + 4 * i \/ o + 12 + 4 * (i + length addrs) <= j)%nat ->
  foldl (fun d e => put_le 4 d (o + 12 + 4 * e.1) (u32 e.2)) d (zip (seq i (length addrs)) addrs) !! j = d !! j.
Proof.
  induction addrs as [|a addrs IH]; intros i d o j Hj; [done|]. cbn [length seq zip_with foldl].
  rewrite IH by (simpl in Hj; lia). apply put_le_out. cbn [fst]. simpl in Hj. lia.
Qed.
Lemma put_addrs_in addrs : forall i d o k a, (o + 12 + 4 * (i + length addrs) <= length d)%nat -> addrs !! k = Some a ->
  0 <= a < 2 ^ 32 ->
  get_le 4 (foldl (fun d e => put_le 4 d (o + 12 + 4 * e.1) (u32 e.2)) d (zip (seq i (length addrs)) addrs)) (o + 12 + 4 * (i + k)) = a.
Proof.
  induction addrs as [|b addrs IH]; intros i d o k a Hl Hk Ha; [done|]. cbn [length seq zip_with foldl].
  destruct k as [|k].
  - injection Hk as ->. rewrite (get_le_ext 4 _ (put_le 4 d (o + 12 + 4 * i) (u32 a))).
    + rewrite Nat.add_0_r, get_put_same by (simpl in Hl; lia). change (256 ^ Z.of_nat 4) with (2 ^ 32).
      unfold u32. rewrite Zmod_mod. by apply Z.mod_small.
    + intros j Hj. apply put_addrs_out. lia.
  - rewrite <- (IH (S i) (put_le 4 d (o + 12 + 4 * i) (u32 b)) o k a); [do 2 f_equal; lia| |done|done].
    rewrite length_put_le. simpl in Hl. lia.
Qed.

(** Outside the struct nothing changes. *)
Lemma length_store d o x : length (i_addrs x) = 13%nat -> length (store_dinode d o x) = length d.
Proof.
  intros Hl. unfold store_dinode, put_addrs. rewrite <- Hl, length_put_addrs_from. by rewrite !length_put_le.
Qed.
Lemma store_out d o x j : length (i_addrs x) = 13%nat -> (j < o \/ o + 64 <= j)%nat -> store_dinode d o x !! j = d !! j.
Proof.
  intros Hl Hj. unfold store_dinode, put_addrs. rewrite <- Hl, put_addrs_out by lia. rewrite !put_le_out by lia. done.
Qed.

Lemma load_store d o x y : inode_range x -> (o + 64 <= length d)%nat ->
  load_dinode (store_dinode d o x) o y =
  y <| i_type := i_type x |> <| i_major := i_major x |> <| i_minor := i_minor x |> <| i_nlink := i_nlink x |>
    <| i_size := i_size x |> <| i_addrs := i_addrs x |>.
Proof.
  intros [R1 R2 R3 R4 R5 [R6 R7]] Hl. unfold load_dinode.
  set (d5 := put_le 4 (put_le 2 (put_le 2 (put_le 2 (put_le 2 d o (u16 (i_type x))) (o + 2) (u16 (i_major x))) (o + 4) (u16 (i_minor x)))
                 (o + 6) (u16 (i_nlink x))) (o + 8) (u32 (i_size x))).
  assert (Hd : store_dinode d o x = put_addrs d5 o (i_addrs x)) by done.
  assert (Hlen : length d5 = length d) by (unfold d5; by rewrite !length_put_le).
  assert (Hlow : forall n k, (k + n <= 12)%nat -> get_le n (put_addrs d5 o (i_addrs x)) (o + k) = get_le n d5 (o + k)).
  { intros n k Hk. apply get_le_ext. intros i Hi. unfold put_addrs. rewrite <- R6. apply put_addrs_out. lia. }
  assert (E1 : di_type (store_dinode d o x) o = i_type x).
  { unfold di_type. rewrite Hd. pose proof (Hlow 2%nat 0%nat ltac:(lia)) as H0. rewrite Nat.add_0_r in H0. rewrite H0.
    unfold d5. rewrite !get_put_other by lia. by apply i16_get_put; [lia|]. }
  assert (E2 : i16 (get_le 2 (store_dinode d o x) (o + 2)) = i_major x).
  { rewrite Hd, Hlow by lia. unfold d5. rewrite !get_put_other by lia. apply i16_get_put; [rewrite length_put_le; lia|done]. }
  assert (E3 : i16 (get_le 2 (store_dinode d o x) (o + 4)) = i_minor x).
  { rewrite Hd, Hlow by lia. unfold d5. do 2 rewrite get_put_other by lia. apply i16_get_put; [rewrite !length_put_le; lia|done]. }
  assert (E4 : i16 (get_le 2 (store_dinode d o x) (o + 6)) = i_nlink x).
  { rewrite Hd, Hlow by lia. unfold d5. rewrite get_put_other by lia. apply i16_get_put; [rewrite !length_put_le; lia|done]. }
  assert (E5 : get_le 4 (store_dinode d o x) (o + 8) = i_size x).
  { rewrite Hd, Hlow by lia. unfold d5. rewrite get_put_same by (rewrite !length_put_le; lia). change (256 ^ Z.of_nat 4) with (2 ^ 32).
    unfold u32. rewrite Zmod_mod. by apply Z.mod_small. }
  assert (E6 : di_addr (store_dinode d o x) o <$> seq 0 13 = i_addrs x).
  { apply list_eq. intros k. rewrite list_lookup_fmap. destruct (decide (k < 13)%nat) as [Hk|Hk].
    - rewrite lookup_seq_lt by done. simpl. destruct (lookup_lt_is_Some_2 (i_addrs x) k) as [a Ha]; [lia|]. rewrite Ha. f_equal.
      unfold di_addr. rewrite Hd. unfold put_addrs. rewrite <- R6. apply (put_addrs_in (i_addrs x) 0 d5 o k a); [rewrite Hlen; lia|done|].
      rewrite Forall_forall in R7. apply R7. by eapply list_elem_of_lookup_2.
    - rewrite (lookup_ge_None_2 (seq 0 13)) by (rewrite length_seq; lia). rewrite (lookup_ge_None_2 (i_addrs x)) by lia. done. }
  by rewrite E1, E2, E3, E4, E5, E6.
Qed.
End dinode.
