(* ===== verification/Writei.v ===== *)
(** * Writing to a file: writei and iupdate of kernel/fs.c

    [wrote sb x V off bs x' V'] says that the bytes [bs] have been written at [off]: they
    can be read back, and every other byte of this and of any other file is as before. *)

From S2P Require Import Prelude Riscv CString Kalloc Vm Uvm UvmProps Spinlock Proc ProcSpec Headers Codec Sleeplock.
From S2P Require Import Uart Printf Bio BioSpec Bcache Example PipeSpec ConsoleSpec Log Blocks LogSpec Crash LogOps.
From S2P Require Import Fs FsTx Balloc Bmap Content.

Record wrote (sb : superblock) (x : inode) (V : contents) (off : Z) (bs : list Z) (x' : inode) (V' : contents) : Prop := {
  wr_own : own_ok sb x' V';
  wr_meta : meta_used sb V';
  wr_slots : forall i, (i < NSLOT)%nat -> slot_addr x V i <> 0 -> slot_addr x' V' i = slot_addr x V i;
  wr_fresh : forall i, (i < NSLOT)%nat -> slot_addr x V i = 0 -> slot_addr x' V' i <> 0 -> used sb V (slot_addr x' V' i) = false;
  wr_used : forall n, 0 <= n < sb_size sb -> used sb V n = true -> used sb V' n = true;
  wr_in : forall i v, bs !! i = Some v -> faddr x' V' ((off + Z.of_nat i) / BSIZE) <> 0 /\ fbyte x' V' (off + Z.of_nat i) = v;
  wr_out : forall o, 0 <= o < MAXFILE * BSIZE -> ~ (off <= o < off + Z.of_nat (length bs)) -> faddr x V (o / BSIZE) <> 0 ->
    fbyte x' V' o = fbyte x V o;
  wr_others : forall n, datastart sb <= n < sb_size sb -> used sb V n = true -> (forall i, (i < NSLOT)%nat -> slot_addr x V i <> n) ->
    V' n = V n;
  wr_low : forall n, n < sb_bmapstart sb -> V' n = V n;
  wr_mine : forall n, 0 <= n < sb_size sb -> used sb V n = false -> used sb V' n = true ->
    exists i, (i < NSLOT)%nat /\ slot_addr x' V' i = n;
  wr_fields : x' = x <| i_addrs := i_addrs x' |>
}.

(** [bs] written into block [a] at byte [o]. *)
Definition put_at (V : contents) (a : Z) (o : nat) (bs : list Z) : contents := bset V a (list_inserts o bs (V a)).

Section wrote.
Implicit Types (x : inode) (V : contents) (s : kern) (bs : list Z).

Lemma slots_faddr x V x' V' : (forall i, (i < NSLOT)%nat -> slot_addr x V i <> 0 -> slot_addr x' V' i = slot_addr x V i) ->
  forall k, 0 <= k < MAXFILE -> faddr x V k <> 0 -> faddr x' V' k = faddr x V k.
Proof. intros Hs k Hk Hne. unfold faddr. apply Hs; [by apply slot_of_block_lt|done]. Qed.

Lemma wrote_refl sb x V off : own_ok sb x V -> meta_used sb V -> wrote sb x V off [] x V.
Proof. intros O HM. split; try done; [intros n _ H1 H2; congruence|by destruct x]. Qed.
Lemma grown_wrote sb x V x' V' off : (forall k, 0 <= k < MAXFILE -> faddr x V k <> 0 -> V' (faddr x V k) = V (faddr x V k)) ->
  grown sb x V x' V' -> wrote sb x V off [] x' V'.
Proof.
  intros Hk [G1 G2 G3 G0 G4 G5 G6 G7 G8 G9]. split; try done.
  - intros o Ho _ Hne. pose proof (maxfile_block o Ho). unfold fbyte. rewrite (slots_faddr x V x' V' G3) by done. by rewrite Hk.
  - intros n Hn Hu Hs. apply G6; try done. intros E. apply (Hs 12%nat); [unfold NSLOT; lia|]. done.
Qed.

Lemma wrote_trans sb x V off bs x1 V1 bs' x2 V2 : 0 < datastart sb -> 0 <= off ->
  off + Z.of_nat (length bs) <= MAXFILE * BSIZE -> meta_used sb V ->
  wrote sb x V off bs x1 V1 -> wrote sb x1 V1 (off + Z.of_nat (length bs)) bs' x2 V2 -> wrote sb x V off (bs ++ bs') x2 V2.
Proof.
  intros Hp Ho Hfit HM [A1 A2 A3 A4 A5 A6 A7 A8 A9 A10 A11] [B1 B2 B3 B4 B5 B6 B7 B8 B9 B10 B11].
  assert (Hdata : forall i, (i < NSLOT)%nat -> slot_addr x2 V2 i <> 0 -> 0 <= slot_addr x2 V2 i < sb_size sb).
  { intros i Hi Hne. destruct (ow_data _ _ _ B1 i Hi Hne). lia. }
  split; try done.
  - intros i Hi Hne. rewrite B3; [by apply A3|done|]. by rewrite A3.
  - intros i Hi Hz Hne. destruct (decide (slot_addr x1 V1 i = 0)) as [E|E].
    + destruct (used sb V (slot_addr x2 V2 i)) eqn:Eu; [|done]. specialize (B4 i Hi E Hne). rewrite A5 in B4; [done|by apply Hdata|done].
    + rewrite B3 by done. by apply A4.
  - intros n Hn Hu. apply B5; [done|]. by apply A5.
  - intros i v Hv. destruct (decide (i < length bs)%nat) as [Hi|Hi].
    + rewrite lookup_app_l in Hv by done. destruct (A6 i v Hv) as [Hf Hb].
      assert (Hr : 0 <= off + Z.of_nat i < MAXFILE * BSIZE) by lia. pose proof (maxfile_block _ Hr).
      split; [by rewrite (slots_faddr x1 V1 x2 V2 B3)|]. rewrite B7; [done|done|lia|done].
    + rewrite lookup_app_r in Hv by lia. destruct (B6 _ v Hv) as [Hf Hb].
      replace (off + Z.of_nat i) with (off + Z.of_nat (length bs) + Z.of_nat (i - length bs)) by lia. done.
  - intros o Hr Hn Hne. rewrite length_app in Hn. pose proof (maxfile_block _ Hr). rewrite B7; [apply A7; [done|lia|done]|done|lia|].
    by rewrite (slots_faddr x V x1 V1 A3).
  - intros n Hn Hu Hs. rewrite B8; [by apply A8|done|by apply A5; [lia|]|].
    intros i Hi E. destruct (decide (slot_addr x V i = 0)) as [Ez|Ez].
    + rewrite <- E in Hu. rewrite A4 in Hu; [done|done|done|lia].
    + apply (Hs i Hi). rewrite <- E. symmetry. by apply A3.
  - intros n Hn. rewrite B9 by done. by apply A9.
  - intros n Hn H1 H2. destruct (used sb V1 n) eqn:E; [|by apply B10].
    destruct (A10 n Hn H1 E) as (i & Hi & Ei). exists i. split; [done|]. rewrite B3; [done|done|].
    rewrite Ei. intros ->. rewrite HM in H1; [done|lia].
  - rewrite B11, A11. simpl. by destruct x.
Qed.

Lemma slot_put x V a o bs i : a <> indirect x -> slot_addr x (put_at V a o bs) i = slot_addr x V i.
Proof. intros Hne. unfold slot_addr, put_at. rewrite bset_ne by done. done. Qed.
Lemma used_put s V a o bs n : layout s -> datastart (sblock s) <= a -> 0 <= n < sb_size (sblock s) ->
  used (sblock s) (put_at V a o bs) n = used (sblock s) V n.
Proof. intros L Ha Hn. destruct (bblock_eq s n L Hn) as [_ R]. unfold used, put_at. by rewrite bset_ne by lia. Qed.

(** Writing a piece into one block of the file. *)
Lemma wrote_piece s x V off bs : layout s -> own_ok (sblock s) x V -> meta_used (sblock s) V ->
  (forall n, length (V n) = Z.to_nat BSIZE) -> let a := faddr x V (off / BSIZE) in a <> 0 ->
  0 <= off < MAXFILE * BSIZE -> off mod BSIZE + Z.of_nat (length bs) <= BSIZE ->
  wrote (sblock s) x V off bs x (put_at V a (Z.to_nat (off mod BSIZE)) bs).
Proof.
  intros L O HM HV a Hne Hoff Hfit. pose proof O as [O1 O2 O3 O4]. pose proof (maxfile_block _ Hoff) as Hk.
  set (k := off / BSIZE) in *. destruct (slot_of_block_lt k Hk) as [Hs1 Hs2].
  destruct (O3 _ Hs1 Hne) as [Ha Hu]. change (slot_addr x V (slot_of_block k)) with a in Ha, Hu.
  pose proof (Z.mod_pos_bound off BSIZE ltac:(unfold BSIZE; lia)) as Hb.
  pose proof (Z.div_mod off BSIZE ltac:(unfold BSIZE; lia)) as Hdm. fold k in Hdm.
  assert (Hind : a <> indirect x).
  { intros E. apply Hs2. apply O4; [done|unfold NSLOT; lia|exact E|exact Hne]. }
  set (V' := put_at V a (Z.to_nat (off mod BSIZE)) bs).
  assert (Hsl : forall i, slot_addr x V' i = slot_addr x V i) by (intros i; by apply slot_put).
  assert (Hus : forall n, 0 <= n < sb_size (sblock s) -> used (sblock s) V' n = used (sblock s) V n) by (intros n Hn; apply used_put; [done|lia|done]).
  assert (Hfa : forall j, faddr x V' j = faddr x V j) by (intros j; apply Hsl).
  pose proof (datastart_pos s L) as Hp. pose proof (ly_data s L) as Hd.
  assert (Hbyte : forall o, 0 <= o -> fbyte x V' o = if decide (faddr x V (o / BSIZE) = a)
    then default 0 (list_inserts (Z.to_nat (off mod BSIZE)) bs (V a) !! Z.to_nat (o mod BSIZE)) else fbyte x V o).
  { intros o Ho. unfold fbyte. rewrite Hfa. unfold V', put_at, bset. case_decide; [done|done]. }
  assert (Hlen : forall q, (q < Z.to_nat BSIZE)%nat -> (q < length (V a))%nat) by (intros q Hq; by rewrite HV).
  split; try done.
  - split; [done|done| |].
    + intros i Hi Hn. rewrite Hsl in *. destruct (O3 i Hi Hn) as [R U]. rewrite Hus by lia. done.
    + intros i j Hi Hj. rewrite !Hsl. by apply O4.
  - intros n Hn. rewrite Hus by lia. by apply HM.
  - intros i Hi Hz. rewrite Hsl. congruence.
  - intros n Hn. by rewrite Hus.
  - intros i v Hv. assert (Hi : (i < length bs)%nat) by (by eapply lookup_lt_Some).
    assert (Hq : (off + Z.of_nat i) / BSIZE = k /\ (off + Z.of_nat i) mod BSIZE = off mod BSIZE + Z.of_nat i).
    { replace (off + Z.of_nat i) with (k * BSIZE + (off mod BSIZE + Z.of_nat i)) by lia. split.
      - rewrite Z.div_add_l by (unfold BSIZE; lia). rewrite Z.div_small by lia. lia.
      - rewrite Z.add_comm, Z_mod_plus_full. apply Z.mod_small. lia. }
    rewrite Hbyte by lia. destruct Hq as [Hq1 Hq2]. rewrite Hq1, Hq2. split; [by rewrite Hfa|]. rewrite decide_True by done.
    rewrite list_lookup_inserts by (try apply Hlen; lia).
    replace (Z.to_nat (off mod BSIZE + Z.of_nat i) - Z.to_nat (off mod BSIZE))%nat with i by lia. by rewrite Hv.
  - intros o Ho Hnot Hn. rewrite Hbyte by lia. case_decide as E; [|done].
    assert (Ek : o / BSIZE = k).
    { apply slot_of_block_inj; [apply Z.div_pos; unfold BSIZE; lia|lia|]. apply O4; [by apply slot_of_block_lt, maxfile_block|done|exact E|exact Hn]. }
    pose proof (Z.div_mod o BSIZE ltac:(unfold BSIZE; lia)) as Hdo. pose proof (Z.mod_pos_bound o BSIZE ltac:(unfold BSIZE; lia)) as Hbo.
    unfold fbyte. rewrite E. f_equal. rewrite Ek in Hdo. destruct (Z.ltb_spec o off).
    + apply list_lookup_inserts_lt. lia.
    + apply list_lookup_inserts_ge. lia.
  - intros n Hn Hun Hnot. unfold V', put_at. apply bset_ne. intros ->. by apply (Hnot (slot_of_block k)).
  - intros n Hn. unfold V', put_at. apply bset_ne. unfold datastart in *. pose proof (Z.div_pos (sb_size (sblock s) - 1) BPB) as Hq.
    pose proof (ly_size s L). unfold BPB, BSIZE in *. lia.
  - intros n Hn H1 H2. rewrite Hus in H2 by done. congruence.
  - by destruct x.
Qed.
End wrote.

(** ** The loop of writei *)

(** The blocks the log records for the blocks [js] of a file. *)
Definition pinset (sb : superblock) (x : inode) (V : contents) (js : list Z) : gset Z :=
  touch sb (indirect x) ∪ ⋃ ((fun j => touch sb (faddr x V j)) <$> js).

Section pins.
Implicit Types (x : inode) (V : contents) (P : gset Z).

Lemma pinset_cons sb x V j js : pinset sb x V (j :: js) =
  touch sb (indirect x) ∪ (touch sb (faddr x V j) ∪ ⋃ ((fun j => touch sb (faddr x V j)) <$> js)).
Proof. done. Qed.
Lemma touch_zero sb : touch sb 0 = ∅.
Proof. done. Qed.
Lemma pinset_mono sb x V x' V' js : (forall i, (i < NSLOT)%nat -> slot_addr x V i <> 0 -> slot_addr x' V' i = slot_addr x V i) ->
  Forall (fun j => 0 <= j < MAXFILE) js -> pinset sb x V js ⊆ pinset sb x' V' js.
Proof.
  intros Hs Hjs. unfold pinset. apply union_mono.
  - destruct (decide (indirect x = 0)) as [E|E]; [rewrite E, touch_zero; apply empty_subseteq|].
    pose proof (Hs 12%nat ltac:(unfold NSLOT; lia) E) as E'. change (indirect x' = indirect x) in E'. by rewrite E'.
  - induction Hjs as [|j js Hj _ IH]; [done|]. simpl. apply union_mono; [|done].
    destruct (decide (faddr x V j = 0)) as [E|E]; [rewrite E, touch_zero; apply empty_subseteq|].
    by rewrite (slots_faddr x V x' V' Hs).
Qed.
(** The blocks pinned by one piece, then by the others. *)
Lemma pinset_next sb x1 V1 x' V' k js a P P1 P' : (forall i, (i < NSLOT)%nat -> slot_addr x1 V1 i <> 0 -> slot_addr x' V' i = slot_addr x1 V1 i) ->
  0 <= k < MAXFILE -> faddr x1 V1 k = a -> a <> 0 -> P1 ⊆ P ∪ touch sb a ∪ touch sb (indirect x1) ->
  P' ⊆ {[a]} ∪ P1 ∪ pinset sb x' V' js -> P' ⊆ P ∪ pinset sb x' V' (k :: js).
Proof.
  intros Hmono Hk Efa Ha Hpin1 Hpin2.
  assert (Hpa : pinset sb x1 V1 [k] ⊆ pinset sb x' V' [k]) by (apply pinset_mono; [done|by apply Forall_singleton]).
  rewrite !pinset_cons, !fmap_nil in Hpa. change (⋃ []) with (∅ : gset Z) in Hpa. rewrite pinset_cons. rewrite Efa in Hpa. unfold pinset in Hpin2.
  assert (Hin : a ∈ touch sb a) by (unfold touch; destruct (Z.eqb_spec a 0); [done|set_solver]).
  clear -Hpin1 Hpin2 Hpa Hin. revert Hpin1 Hpin2 Hpa Hin. generalize (⋃ ((fun j => touch sb (faddr x' V' j)) <$> js)).
  generalize (touch sb (indirect x')), (touch sb (indirect x1)), (touch sb (faddr x' V' k)), (touch sb a).
  intros T1' T2' T3' T4' T5' K1 K2 K3 K4 z Hz. specialize (K1 z). specialize (K2 z Hz). specialize (K3 z).
  rewrite !elem_of_union in *. rewrite elem_of_singleton in K2. rewrite elem_of_empty in K3. destruct K2 as [[->|?]|[?|?]]; tauto.
Qed.
End pins.

Section writei.
Context {D : DiskOps} {DL : DiskLaws} {B : Board} (Hidle : forall u, next_idle u = true).
Context (c : cpu) (cur : nat) (p : proc).
Implicit Types (s : kern) (P : gset Z) (V : contents) (x : inode) (ip : nat).
Notation tx := (tx c cur p).

(** A source: [J src rest ph] says that the bytes [rest] are to be had from [src] when the
    memory is [ph]. *)
Definition source {A} (inp : A -> Z -> M kern (bool * list Z * A)) (J : A -> list Z -> phys -> Prop) : Prop :=
  forall src rest s0 H P V s m, tx s0 H P V s -> J src rest (k_phys s0) -> 0 <= m <= Z.of_nat (length rest) ->
  runs (inp src m) s (fun r s' => s' = s /\ exists src', r = (true, take (Z.to_nat m) rest, src') /\ J src' (drop (Z.to_nat m) rest) (k_phys s0)).

Lemma mapped_wrote s x V k a x' V' off : layout s -> own_ok (sblock s) x V -> mapped (sblock s) x V k a x' V' ->
  wrote (sblock s) x V off [] x' V'.
Proof using.
  intros L [O1 O2 O3 O4] Hm. apply grown_wrote; [|apply Hm]. intros j Hj Hne. destruct (slot_of_block_lt j Hj) as [S1 S2].
  destruct (O3 _ S1 Hne) as [R U]. apply (gr_data _ _ _ _ _ (mp_grown _ _ _ _ _ _ _ Hm)); [done|done|].
  intros E. apply S2. apply O4; [done|unfold NSLOT; lia|exact E|exact Hne].
Qed.

Lemma upd_layout s0 ip x out : layout s0 -> layout (upd s0 ip x out).
Proof using. by destruct 1. Qed.

Context {A : Type} (inp : A -> Z -> M kern (bool * list Z * A)) (J : A -> list Z -> phys -> Prop).
Context (Hinp : source inp J).

Lemma writei_loop_tx n fuel : forall s0 P V s ip x src rest off tot r, tx s0 ∅ P V s -> layout s0 -> meta_used (sblock s0) V ->
  own_ok (sblock s0) x V -> fs_itable (k_files s0) !! ip = Some x -> u_idle (fs_uart (k_files s0)) = true ->
  J src rest (k_phys s0) -> Z.of_nat (length rest) = n - tot -> 0 <= off -> 0 <= tot <= n -> off + (n - tot) <= MAXFILE * BSIZE ->
  (1 <= fuel)%nat -> (tot < n -> n - tot + off mod BSIZE <= (Z.of_nat fuel - 1) * BSIZE) ->
  0 <= r -> (tot < n -> n - tot + off mod BSIZE <= r * BSIZE) -> reserve s0 P (2 * r + 1) ->
  runs (writei_loop inp fuel ip src off n tot) s (fun res s' => exists k x' V' P' out js, res = (tot + k, off + k) /\ 0 <= k <= n - tot /\
    (k = n - tot \/ forall b, 0 <= b < sb_size (sblock s0) -> used (sblock s0) V' b = true) /\
    wrote (sblock s0) x V off (take (Z.to_nat k) rest) x' V' /\ tx (upd s0 ip x' out) ∅ P' V' s' /\
    P ⊆ P' /\ P' ⊆ P ∪ pinset (sblock s0) x' V' js /\ Z.of_nat (length js) <= r /\ Forall (fun j => 0 <= j < MAXFILE) js /\
    Z.of_nat (logged (sblock s0) P') <= Z.of_nat (logged (sblock s0) P) + 2 * r).
Proof.
  induction fuel as [|fuel IH]; intros s0 P V s ip x src rest off tot r T L HM O Hx Hid HJ Hrest Ho Ht Hfit Hf Hfuel Hr Hrb Hroom; [lia|].
  cbn [writei_loop]. set (sb := sblock s0) in *. destruct (Z.ltb_spec tot n) as [Hlt|Hge].
  2: { apply runs_ret. exists 0, x, V, P, [], []. rewrite upd_id by done. split_and!; try done; try lia; [f_equal; lia|by apply wrote_refl|set_solver]. }
  specialize (Hfuel Hlt). specialize (Hrb Hlt). pose proof (Z.mod_pos_bound off BSIZE ltac:(unfold BSIZE; lia)) as Hb.
  assert (Hoff : 0 <= off < MAXFILE * BSIZE) by lia. pose proof (maxfile_block off Hoff) as Hk.
  assert (Hr1 : 1 <= r) by (destruct (Z.ltb_spec r 1); [|lia]; assert (r * BSIZE <= 0) by (unfold BSIZE in *; lia); lia).
  apply runs_bind. eapply runs_conseq; [apply (bmap_tx Hidle c cur p s0 P V s ip x (off / BSIZE) T L HM O Hx Hk); [unfold reserve in *; lia|done]|].
  intros a s1 (x1 & V1 & P1 & out1 & T1 & Hm & HP1 & Hsz1 & Hpin1). fold sb in Hm, Hpin1, Hsz1. pose proof (logged_got sb a P1) as Hgot.
  pose proof (mapped_wrote s0 x V _ a x1 V1 off L O Hm) as W1. fold sb in W1.
  destruct (Z.eqb_spec a 0) as [Ea|Ea].
  { apply runs_ret. exists 0, x1, V1, P1, out1, []. split_and!; try done; try lia; [f_equal; lia| |].
    - right. by apply (mp_full _ _ _ _ _ _ _ Hm).
    - subst a. unfold pinset. rewrite touch_zero in Hpin1. clear -Hpin1. clearbody sb. set_solver. }
  set (s0' := upd s0 ip x1 out1) in *. pose proof (wr_own _ _ _ _ _ _ _ W1) as O1. pose proof (wr_meta _ _ _ _ _ _ _ W1) as M1.
  assert (Hx1 : fs_itable (k_files s0') !! ip = Some x1) by (apply upd_lookup; by eapply lookup_lt_Some).
  assert (HV1 : forall n, length (V1 n) = Z.to_nat BSIZE) by (intros q; exact (tx_len c cur p _ _ _ _ _ q T1)).
  pose proof (mp_addr _ _ _ _ _ _ _ Hm) as Efa. destruct (slot_of_block_lt _ Hk) as [S1 S2].
  destruct (ow_data _ _ _ O1 _ S1 ltac:(fold (faddr x1 V1 (off / BSIZE)); by rewrite Efa)) as [Ra Ua]. fold (faddr x1 V1 (off / BSIZE)) in Ra, Ua. rewrite Efa in Ra, Ua.
  pose proof (ly_size s0 L) as Hsz. fold sb in Hsz.
  assert (Hnl : ~ in_log s0' a).
  { intros Hin. apply (ly_log s0 L) in Hin. fold sb in Hin. unfold datastart in Ra. pose proof (Z.div_pos (sb_size sb - 1) BPB) as Hq. unfold BPB, BSIZE in *. lia. }
  pose proof (datastart_pos s0 L) as Hdp. fold sb in Hdp.
  apply runs_bind. eapply runs_conseq; [by apply (inode_get_tx c cur p i_dev s0' ∅ P1 V1 s1 ip x1)|]. intros dv s1' [-> ->]. rewrite (ow_dev _ _ _ O1).
  assert (Hroom1 : room s0' P1 1).
  { apply reserve_room. unfold reserve in *. change (logsize s0') with (logsize s0). change (sblock s0') with sb. fold sb in Hroom. lia. }
  apply runs_bind. eapply runs_conseq; [apply (bread_tx c cur p s0' ∅ P1 V1 s1 a T1); [done|right]|].
  { apply (cache_room s0' ∅ P1 1); [rewrite map_size_empty; lia|done|lia|]. exact (tx_logsize c cur p _ _ _ _ _ T1). }
  intros bp s2 T2. cbv beta in T2. set (m := Z.min (n - tot) (BSIZE - off mod BSIZE)). assert (Hm' : 0 < m) by lia.
  apply runs_bind. eapply runs_conseq; [apply (Hinp src rest s0' _ _ _ s2 m T2 HJ); lia|]. intros res s2' (-> & src' & -> & HJ').
  set (bs := take (Z.to_nat m) rest) in *. assert (Hbs : Z.of_nat (length bs) = m) by (unfold bs; rewrite length_take; lia).
  apply runs_bind. eapply runs_conseq; [apply (edit_tx c cur p _ _ _ _ s2 a bp _ T2); [apply lookup_insert_eq|by rewrite length_inserts]|].
  intros [] s3 T3. cbv beta in T3. apply runs_bind.
  eapply runs_conseq; [apply (log_write_tx c cur p _ _ _ _ s3 a bp T3); [apply lookup_insert_eq|lia|done|done]|].
  intros [] s4 T4. cbv beta in T4. apply runs_bind.
  eapply runs_conseq; [apply (brelse_tx c cur p _ _ _ _ s4 a bp T4); [apply lookup_insert_eq|left; set_solver]|].
  intros [] s5 T5. cbv beta in T5. rewrite delete_insert_id in T5 by done. fold (put_at V1 a (Z.to_nat (off mod BSIZE)) bs) in T5.
  set (V2 := put_at V1 a (Z.to_nat (off mod BSIZE)) bs) in *.
  assert (W2 : wrote sb x1 V1 off bs x1 V2).
  { unfold V2. rewrite <- Efa. apply (wrote_piece s0); [done|done|done|done|by rewrite Efa|done|lia]. }
  assert (W12 : wrote sb x V off bs x1 V2).
  { apply (wrote_trans sb x V off [] x1 V1 bs x1 V2); [done|done|simpl; lia|done|done|]. simpl. by rewrite Z.add_0_r. }
  eapply runs_conseq; [apply (IH s0' ({[a]} ∪ P1) V2 s5 ip x1 src' (drop (Z.to_nat m) rest) (off + m) (tot + m) (r - 1)); try done; try lia|].
  - by apply upd_layout.
  - apply W12.
  - apply W12.
  - rewrite length_drop. lia.
  - destruct fuel; [|lia]. simpl in Hfuel. lia.
  - intros Hlt'. rewrite (next_mod off m) by lia. lia.
  - intros Hlt'. rewrite (next_mod off m) by lia. lia.
  - unfold reserve in *. change (logsize s0') with (logsize s0). change (sblock s0') with sb. fold sb in Hroom. lia.
  - change (sblock s0') with sb. intros res s6 (k & x' & V' & P' & out & js & -> & Hk' & Hend & W3 & T6 & HP2 & Hpin2 & Hjs & Fjs & Hsz3).
    unfold s0' in T6. rewrite upd_upd in T6. exists (m + k), x', V', P', (out1 ++ out), ((off / BSIZE) :: js).
    assert (Etk : take (Z.to_nat (m + k)) rest = bs ++ take (Z.to_nat k) (drop (Z.to_nat m) rest)).
    { unfold bs. rewrite Z2Nat.inj_add by lia. by rewrite take_add || rewrite <- take_take_drop. }
    split_and!; try done; try lia.
    + f_equal; lia.
    + destruct Hend as [->|Hend]; [left; lia|by right].
    + rewrite Etk. apply (wrote_trans sb x V off bs x1 V2); [done|done|lia|done|done|]. by rewrite Hbs.
    + set_solver.
    + apply (pinset_next sb x1 V2 x' V' (off / BSIZE) js a P P1 P'); [apply (wr_slots _ _ _ _ _ _ _ W3)|done| |done|done|done].
      rewrite (slots_faddr x1 V1 x1 V2 (wr_slots _ _ _ _ _ _ _ W2)); [done|done|by rewrite Efa].
    + simpl length. lia.
    + by constructor.
Qed.
End writei.
