(* ===== verification/FileProps.v ===== *)
(** * Files hold what was written to them

    readi and writei of kernel/fs.c as whole functions, with kernel structs and with user
    memory on the other side, and the disk inode that iupdate writes. *)

From S2P Require Import Prelude Riscv CString Kalloc Vm Uvm UvmProps Spinlock Proc ProcSpec Headers Codec Sleeplock.
From S2P Require Import Uart Printf Bio BioSpec Bcache Example PipeSpec ConsoleSpec Log Blocks LogSpec Crash LogOps.
From S2P Require Import Fs FsTx Balloc Bmap Content Dinode Writei.

(** The block of a disk inode is before the bitmap and outside the log. *)
Definition inode_area (s : kern) (inum : Z) : Prop :=
  0 <= inum /\ 0 <= IBLOCK inum (sblock s) < sb_bmapstart (sblock s) /\ ~ in_log s (IBLOCK inum (sblock s)).
(** No block is in both files. *)
Definition disjoint_files (x y : inode) (V : contents) : Prop :=
  forall i j, (i < NSLOT)%nat -> (j < NSLOT)%nat -> slot_addr y V i <> 0 -> slot_addr y V i <> slot_addr x V j.

(** The file has the same blocks with the same bytes. *)
Record same_file (y : inode) (V V' : contents) : Prop := {
  sf_slots : forall i, (i < NSLOT)%nat -> slot_addr y V' i = slot_addr y V i;
  sf_bytes : forall o, 0 <= o < MAXFILE * BSIZE -> faddr y V (o / BSIZE) <> 0 -> fbyte y V' o = fbyte y V o
}.

Section agree.
Implicit Types (s : kern) (x y : inode) (V : contents).

Lemma bmap_data s : layout s -> sb_bmapstart (sblock s) < datastart (sblock s).
Proof.
  intros L. pose proof (ly_size s L). unfold datastart. pose proof (Z.div_pos (sb_size (sblock s) - 1) BPB). unfold BPB, BSIZE in *. lia.
Qed.

(** Changes before the bitmap do not concern the content of files. *)
Lemma slots_agree s x V V' : layout s -> own_ok (sblock s) x V -> (forall n, sb_bmapstart (sblock s) <= n -> V' n = V n) ->
  forall i, (i < NSLOT)%nat -> slot_addr x V' i = slot_addr x V i.
Proof.
  intros L O HV i Hi. unfold slot_addr. destruct (Nat.leb_spec i 12); [done|]. destruct (Z.eqb_spec (indirect x) 0) as [|E]; [done|].
  destruct (ow_data _ _ _ O 12%nat ltac:(unfold NSLOT; lia) E) as [R _]. change (slot_addr x V 12) with (indirect x) in R.
  pose proof (bmap_data s L). by rewrite HV by lia.
Qed.
Lemma used_agree s V V' n : layout s -> (forall n, sb_bmapstart (sblock s) <= n -> V' n = V n) -> 0 <= n < sb_size (sblock s) ->
  used (sblock s) V' n = used (sblock s) V n.
Proof. intros L HV Hn. destruct (bblock_eq s n L Hn) as [_ R]. unfold used. by rewrite HV by lia. Qed.
Lemma same_faddr y V V' k : same_file y V V' -> 0 <= k < MAXFILE -> faddr y V' k = faddr y V k.
Proof. intros S0 Hk. apply (sf_slots _ _ _ S0). by apply slot_of_block_lt. Qed.
Lemma same_trans y V V1 V2 : same_file y V V1 -> same_file y V1 V2 -> same_file y V V2.
Proof.
  intros S1 S2. split.
  - intros i Hi. rewrite (sf_slots _ _ _ S2), (sf_slots _ _ _ S1); done.
  - intros o Ho Hne. rewrite (sf_bytes _ _ _ S2), (sf_bytes _ _ _ S1); try done. by rewrite (same_faddr y V V1) by (done || by apply maxfile_block).
Qed.
Lemma same_content sb y V V' o : file_ok sb y V -> same_file y V V' -> 0 <= o < i_size y -> fbyte y V' o = fbyte y V o.
Proof.
  intros [_ F2 F3] S0 Ho. apply (sf_bytes _ _ _ S0); [lia|]. apply F3; [apply Z.div_pos; unfold BSIZE; lia|apply below_size; lia].
Qed.
Lemma file_agree s x V V' : layout s -> file_ok (sblock s) x V -> (forall n, sb_bmapstart (sblock s) <= n -> V' n = V n) ->
  file_ok (sblock s) x V' /\ same_file x V V'.
Proof.
  intros L [O F2 F3] HV. pose proof (slots_agree s x V V' L O HV) as Hs. pose proof (datastart_pos s L).
  assert (Hfa : forall k, 0 <= k < MAXFILE -> faddr x V' k = faddr x V k) by (intros k Hk; apply Hs; by apply slot_of_block_lt).
  split.
  - split; [|done|].
    + destruct O as [O1 O2 O3 O4]. split; [done|done| |].
      * intros i Hi Hne. rewrite Hs in * by done. destruct (O3 i Hi Hne) as [R U]. rewrite (used_agree s V V') by (done || lia). done.
      * intros i j Hi Hj. rewrite !Hs by done. by apply O4.
    + intros k Hk Hlt. rewrite Hfa; [by apply F3|]. unfold BSIZE in *. lia.
  - split; [done|]. intros o Ho Hne. assert (Hk : 0 <= o / BSIZE < MAXFILE) by (apply maxfile_block; lia). unfold fbyte. rewrite Hfa by done.
    destruct (slot_of_block_lt _ Hk) as [S1 _]. destruct (ow_data _ _ _ O _ S1 Hne) as [R _].
    pose proof (bmap_data s L). by rewrite HV by (unfold faddr; lia).
Qed.

Lemma disjoint_agree s x y V V' : layout s -> own_ok (sblock s) x V -> own_ok (sblock s) y V ->
  (forall n, sb_bmapstart (sblock s) <= n -> V' n = V n) -> disjoint_files x y V -> disjoint_files x y V'.
Proof.
  intros L Ox Oy HV Hd i j Hi Hj. rewrite (slots_agree s x V V' L Ox HV j Hj), (slots_agree s y V V' L Oy HV i Hi). by apply Hd.
Qed.

(** Another file is not affected by a write. *)
Lemma wrote_other s x y V off bs x' V' : layout s -> file_ok (sblock s) y V -> disjoint_files x y V ->
  wrote (sblock s) x V off bs x' V' ->
  file_ok (sblock s) y V' /\ disjoint_files x' y V' /\ same_file y V V'.
Proof.
  intros L [O F2 F3] Hdis W. pose proof (datastart_pos s L) as Hp. pose proof O as [O1 O2 O3 O4].
  assert (Hkeep : forall i, (i < NSLOT)%nat -> slot_addr y V i <> 0 -> V' (slot_addr y V i) = V (slot_addr y V i)).
  { intros i Hi Hne. destruct (O3 i Hi Hne) as [R U]. apply (wr_others _ _ _ _ _ _ _ W); [done|done|].
    intros j Hj E. by apply (Hdis i j Hi Hj Hne). }
  assert (Hs : forall i, (i < NSLOT)%nat -> slot_addr y V' i = slot_addr y V i).
  { intros i Hi. unfold slot_addr. destruct (Nat.leb_spec i 12); [done|]. destruct (Z.eqb_spec (indirect y) 0) as [|E]; [done|].
    by rewrite (Hkeep 12%nat ltac:(unfold NSLOT; lia) E : V' (indirect y) = _). }
  assert (Hfa : forall k, 0 <= k < MAXFILE -> faddr y V' k = faddr y V k) by (intros k Hk; apply Hs; by apply slot_of_block_lt).
  split; [|split].
  - split; [|done|].
    + split; [done|done| |].
      * intros i Hi Hne. rewrite Hs in * by done. destruct (O3 i Hi Hne) as [R U]. split; [done|].
        apply (wr_used _ _ _ _ _ _ _ W); [lia|done].
      * intros i j Hi Hj. rewrite !Hs by done. by apply O4.
    + intros k Hk Hlt. rewrite Hfa; [by apply F3|]. unfold BSIZE in *. lia.
  - intros i j Hi Hj Hne E. rewrite Hs in * by done. destruct (decide (slot_addr x V j = 0)) as [Ez|Ez].
    + rewrite E in Hne. pose proof (wr_fresh _ _ _ _ _ _ _ W j Hj Ez Hne) as Hf. rewrite <- E in Hf, Hne.
      destruct (O3 i Hi Hne) as [_ U]. congruence.
    + rewrite (wr_slots _ _ _ _ _ _ _ W j Hj Ez) in E. by apply (Hdis i j).
  - split; [done|]. intros o Ho Hne. assert (Hk : 0 <= o / BSIZE < MAXFILE) by (apply maxfile_block; lia). unfold fbyte. rewrite Hfa by done.
    destruct (slot_of_block_lt _ Hk) as [S1 _]. by rewrite (Hkeep _ S1 Hne : V' (faddr y V (o / BSIZE)) = _).
Qed.

(** The inode after the write, with its new size. *)
Lemma wrote_file s x V off bs x' V' : layout s -> file_ok (sblock s) x V -> 0 <= off <= i_size x ->
  off + Z.of_nat (length bs) <= MAXFILE * BSIZE -> wrote (sblock s) x V off bs x' V' ->
  let x2 := x' <| i_size := Z.max (i_size x) (off + Z.of_nat (length bs)) |> in
  file_ok (sblock s) x2 V' /\
  (forall o, 0 <= o < i_size x2 -> fbyte x2 V' o =
     if decide (off <= o < off + Z.of_nat (length bs)) then default 0 (bs !! Z.to_nat (o - off)) else fbyte x V o).
Proof.
  intros L [O F2 F3] Hoff Hfit W x2. pose proof W as [A1 A2 A3 A4 A5 A6 A7 A8 A9 A10 A11].
  assert (Hin : forall o, off <= o < off + Z.of_nat (length bs) -> exists v, bs !! Z.to_nat (o - off) = Some v /\
    faddr x' V' (o / BSIZE) <> 0 /\ fbyte x' V' o = v).
  { intros o Ho. destruct (lookup_lt_is_Some_2 bs (Z.to_nat (o - off))) as [v Hv]; [lia|]. exists v. split; [done|].
    specialize (A6 _ _ Hv). by replace (off + Z.of_nat (Z.to_nat (o - off))) with o in A6 by lia. }
  split.
  - split; [by destruct A1|simpl; lia|]. intros k Hk Hlt. simpl in Hlt. change (faddr x2 V' k) with (faddr x' V' k).
    destruct (Z.ltb_spec (k * BSIZE) (i_size x)) as [Hlow|Hhigh].
    + rewrite (slots_faddr x V x' V' A3); [by apply F3|unfold BSIZE in *; lia|by apply F3].
    + destruct (Hin (k * BSIZE)) as (v & _ & Hne & _); [lia|]. by rewrite Z.div_mul in Hne by (unfold BSIZE; lia).
  - intros o Ho. change (fbyte x2 V' o) with (fbyte x' V' o). simpl in Ho. case_decide as E.
    + destruct (Hin o E) as (v & -> & _ & Hb). done.
    + apply A7; [lia|done|]. apply F3; [apply Z.div_pos; unfold BSIZE; lia|apply below_size; lia].
Qed.
End agree.

(** ** iupdate *)

Section iupdate.
Context {D : DiskOps} {DL : DiskLaws} {B : Board} (c : cpu) (cur : nat) (p : proc).
Implicit Types (s : kern) (P : gset Z) (V : contents) (x : inode) (ip : nat).
Notation tx := (tx c cur p).

Lemma di_off_fits inum : 0 <= inum -> (di_off inum + 64 <= Z.to_nat BSIZE)%nat.
Proof using.
  intros Hi. unfold di_off, IPB, sizeof_dinode, BSIZE. change (1024 / 64) with 16.
  pose proof (Z.mod_pos_bound inum 16 ltac:(lia)). lia.
Qed.
Lemma iupdate_tx s0 P V s ip x : tx s0 ∅ P V s -> fs_itable (k_files s0) !! ip = Some x -> i_dev x = ROOTDEV ->
  length (i_addrs x) = 13%nat -> inode_area s0 (i_inum x) -> sb_bmapstart (sblock s0) < 2 ^ 31 -> room s0 P 1 ->
  runs (iupdate ip) s (fun _ s' => let ib := IBLOCK (i_inum x) (sblock s0) in
    tx s0 ∅ ({[ib]} ∪ P) (bset V ib (store_dinode (V ib) (di_off (i_inum x)) x)) s').
Proof.
  intros T Hx Hdev Hlen (Hi0 & Hib & Hnl) Hbm Hroom. unfold iupdate. apply (sb_tx c cur p _ _ s0 ∅ P V s T).
  apply runs_bind. eapply runs_conseq; [by apply (inode_get_tx c cur p (fun x => x) s0 ∅ P V s ip x)|]. intros y s' [-> ->]. rewrite Hdev.
  set (ib := IBLOCK (i_inum x) (sblock s0)) in *.
  apply runs_bind. eapply runs_conseq; [apply (bread_tx c cur p s0 ∅ P V s ib T); [done|right]|].
  { apply (cache_room s0 ∅ P 1); [rewrite map_size_empty; lia|done|lia|]. exact (tx_logsize c cur p _ _ _ _ _ T). }
  intros bp s1 T1. cbv beta in T1. apply runs_bind.
  eapply runs_conseq; [apply (edit_tx c cur p _ _ _ _ s1 ib bp _ T1); [apply lookup_insert_eq|]|].
  { rewrite length_store by done. exact (tx_len c cur p _ _ _ _ _ ib T). }
  intros [] s2 T2. cbv beta in T2. apply runs_bind.
  eapply runs_conseq; [apply (log_write_tx c cur p _ _ _ _ s2 ib bp T2); [apply lookup_insert_eq|lia|done|done]|].
  intros [] s3 T3. cbv beta in T3.
  eapply runs_conseq; [apply (brelse_tx c cur p _ _ _ _ s3 ib bp T3); [apply lookup_insert_eq|left; set_solver]|].
  intros [] s4 T4. cbv beta in T4. rewrite delete_insert_id in T4 by done. done.
Qed.
End iupdate.

(** ** writei *)

(** The number of blocks [n] bytes at [off] touch. *)
Definition spans (off n : Z) : Z := (n + off mod BSIZE + BSIZE - 1) / BSIZE.

(** What a write of [r] bytes of [data] at [off] leaves. *)
Record stored (sb : superblock) (x : inode) (V : contents) (data : list Z) (off r : Z) (x' : inode) (V' : contents) : Prop := {
  wt_file : file_ok sb x' V';
  wt_meta : meta_used sb V';
  wt_size : i_size x' = Z.max (i_size x) (off + r);
  wt_bytes : forall o, 0 <= o < i_size x' -> fbyte x' V' o =
    if decide (off <= o < off + r) then default 0 (data !! Z.to_nat (o - off)) else fbyte x V o;
  wt_others : forall y, file_ok sb y V -> disjoint_files x y V ->
    file_ok sb y V' /\ disjoint_files x' y V' /\ same_file y V V';
  wt_disk : load_dinode (V' (IBLOCK (i_inum x) sb)) (di_off (i_inum x)) x' = x';
  wt_inodes : forall j, (j < di_off (i_inum x) \/ di_off (i_inum x) + 64 <= j)%nat ->
    V' (IBLOCK (i_inum x) sb) !! j = V (IBLOCK (i_inum x) sb) !! j;
  wt_fields : x' = x <| i_addrs := i_addrs x' |> <| i_size := i_size x' |>
}.
(** The same with nothing else changed before the bitmap. *)
Record written (sb : superblock) (x : inode) (V : contents) (data : list Z) (off r : Z) (x' : inode) (V' : contents) : Prop := {
  wt_stored :> stored sb x V data off r x' V';
  wt_low : forall n, n < sb_bmapstart sb -> n <> IBLOCK (i_inum x) sb -> V' n = V n
}.

Lemma own_range s x V : layout s -> own_ok (sblock s) x V -> Forall (fun a => 0 <= a < 2 ^ 32) (i_addrs x).
Proof.
  intros L [O1 O2 O3 O4]. pose proof (datastart_pos s L). pose proof (ly_size s L). apply Forall_lookup. intros i a Ha.
  assert (Hi : (i < 13)%nat) by (rewrite <- O1; by eapply lookup_lt_Some). destruct (decide (a = 0)) as [->|Hne]; [lia|].
  assert (Es : slot_addr x V i = a) by (unfold slot_addr; destruct (Nat.leb_spec i 12); [by rewrite nth_lookup, Ha|lia]).
  destruct (O3 i ltac:(unfold NSLOT; lia)) as [R _]; [congruence|]. lia.
Qed.

(** The blocks before the bitmap are changed by iupdate only. *)
Lemma written_final s x V data off r x' V' : layout s -> file_ok (sblock s) x V -> inode_area s (i_inum x) -> inode_range x ->
  (forall n, length (V' n) = Z.to_nat BSIZE) ->
  0 <= off <= i_size x -> 0 <= r <= Z.of_nat (length data) -> off + r <= MAXFILE * BSIZE ->
  wrote (sblock s) x V off (take (Z.to_nat r) data) x' V' ->
  let x2 := x' <| i_size := Z.max (i_size x) (off + r) |> in let ib := IBLOCK (i_inum x) (sblock s) in
  written (sblock s) x V data off r x2 (bset V' ib (store_dinode (V' ib) (di_off (i_inum x)) x2)).
Proof.
  intros L F Ha Hr HV Hoff Hrr Hfit W x2 ib. pose proof Ha as (Hi0 & Hib & Hnl). fold ib in Hib, Hnl.
  assert (Hlen : Z.of_nat (length (take (Z.to_nat r) data)) = r) by (rewrite length_take; lia).
  destruct (wrote_file s x V off (take (Z.to_nat r) data) x' V' L F Hoff ltac:(lia) W) as [F2 Hb]. rewrite Hlen in F2, Hb. fold x2 in F2, Hb.
  set (V2 := bset V' ib _). assert (Hag : forall n, sb_bmapstart (sblock s) <= n -> V2 n = V' n) by (intros n Hn; apply bset_ne; lia).
  destruct (file_agree s x2 V' V2 L F2 Hag) as [F3 Hb3]. pose proof (bmap_data s L) as Hbd. pose proof (ly_data s L) as Hld.
  pose proof (fo_own _ _ _ F2) as O2. pose proof (wr_fields _ _ _ _ _ _ _ W) as Hfl.
  split.
  2: { intros n Hn Hne. unfold V2. rewrite bset_ne by done. by apply (wr_low _ _ _ _ _ _ _ W). }
  split; try done.
  - intros n Hn. rewrite (used_agree s V' V2) by (done || lia). by apply (wr_meta _ _ _ _ _ _ _ W).
  - intros o Ho. rewrite (same_content _ _ _ _ _ F2 Hb3), Hb by done. case_decide; [|done]. rewrite lookup_take_lt by lia. done.
  - intros y Fy Hd. destruct (wrote_other s x y V off _ x' V' L Fy Hd W) as (Fy' & Hd' & Hby).
    destruct (file_agree s y V' V2 L Fy' Hag) as [Fy2 Hby2]. split; [done|]. split; [exact (disjoint_agree s x2 y V' V2 L O2 (fo_own _ _ _ Fy') Hag Hd')|].
    by apply (same_trans y V V').
  - fold ib. unfold V2. rewrite bset_eq. rewrite load_store.
    + destruct x2. done.
    + destruct Hr as [R1 R2 R3 R4 R5 R6]. split.
      * unfold x2. simpl. by rewrite Hfl.
      * unfold x2. simpl. by rewrite Hfl.
      * unfold x2. simpl. by rewrite Hfl.
      * unfold x2. simpl. by rewrite Hfl.
      * pose proof (fo_size _ _ _ F2). unfold MAXFILE, NDIRECT, NINDIRECT, BSIZE in *. change (1024 / 4) with 256 in *. lia.
      * split; [apply O2|]. by apply (own_range s x2 V').
    + rewrite HV. by apply di_off_fits.
  - intros j Hj. fold ib. unfold V2. rewrite bset_eq, store_out by (done || apply O2). by rewrite (wr_low _ _ _ _ _ _ _ W) by lia.
  - unfold x2. rewrite Hfl. simpl. done.
Qed.

Section writei.
Context {D : DiskOps} {DL : DiskLaws} {B : Board} (Hidle : forall u, next_idle u = true).
Context (c : cpu) (cur : nat) (p : proc).
Implicit Types (s : kern) (P : gset Z) (V : contents) (x : inode) (ip : nat).
Notation tx := (tx c cur p).
Context {A : Type} (inp : A -> Z -> M kern (bool * list Z * A)) (J : A -> list Z -> phys -> Prop).
Context (Hinp : source c cur p inp J).

Lemma writei_gen_tx s0 P V s ip x src data off : tx s0 ∅ P V s -> layout s0 -> meta_used (sblock s0) V -> file_ok (sblock s0) x V ->
  inode_area s0 (i_inum x) -> inode_range x -> fs_itable (k_files s0) !! ip = Some x -> u_idle (fs_uart (k_files s0)) = true ->
  J src data (k_phys s0) -> let n := Z.of_nat (length data) in 0 <= off <= i_size x -> off + n <= MAXFILE * BSIZE ->
  reserve s0 P (2 * spans off n + 1) ->
  runs (writei_gen inp ip src off n) s (fun r s' => exists x' V' P' out js,
    tx (upd s0 ip x' out) ∅ P' V' s' /\ written (sblock s0) x V data off r x' V' /\ 0 <= r <= n /\
    (r = n \/ forall b, 0 <= b < sb_size (sblock s0) -> used (sblock s0) V' b = true) /\
    P' ⊆ {[IBLOCK (i_inum x) (sblock s0)]} ∪ (P ∪ pinset (sblock s0) x' V' js) /\ Forall (fun j => 0 <= j < MAXFILE) js /\
    Z.of_nat (length js) <= spans off n).
Proof.
  intros T L HM F Ha Hr Hx Hid HJ n Hoff Hfit Hroom. set (sb := sblock s0) in *.
  assert (Hn : 0 <= n) by (unfold n; lia). pose proof (fo_size _ _ _ F) as Hsz.
  assert (Hmax : MAXFILE * BSIZE < 2 ^ 31) by done.
  pose proof (Z.mod_pos_bound off BSIZE ltac:(unfold BSIZE; lia)) as Hb.
  pose proof (Z.div_pos n BSIZE Hn ltac:(unfold BSIZE; lia)). pose proof (Z.div_mod n BSIZE ltac:(unfold BSIZE; lia)) as Hdn.
  pose proof (Z.mod_pos_bound n BSIZE ltac:(unfold BSIZE; lia)).
  assert (Hsp : 0 <= spans off n /\ n + off mod BSIZE <= spans off n * BSIZE).
  { unfold spans. split; [apply Z.div_pos; unfold BSIZE in *; lia|].
    pose proof (Z.div_mod (n + off mod BSIZE + BSIZE - 1) BSIZE ltac:(unfold BSIZE; lia)).
    pose proof (Z.mod_pos_bound (n + off mod BSIZE + BSIZE - 1) BSIZE ltac:(unfold BSIZE; lia)). lia. }
  unfold writei_gen. apply runs_bind. eapply runs_conseq; [by apply (inode_get_tx c cur p i_size s0 ∅ P V s ip x)|]. intros sz s' [-> ->].
  rewrite u32_small by lia. destruct (Z.ltb_spec (i_size x) off); [lia|]. destruct (Z.ltb_spec (off + n) off); [lia|]. cbn [orb].
  destruct (Z.ltb_spec (MAXFILE * BSIZE) (off + n)); [lia|].
  apply runs_bind. eapply runs_conseq; [apply (writei_loop_tx Hidle c cur p inp J Hinp n (blocks_of n) s0 P V s ip x src data off 0 (spans off n));
    try done; try lia; [apply F|unfold blocks_of; lia|]|].
  { intros _. unfold blocks_of. rewrite Nat2Z.inj_add, Z2Nat.id by lia. lia. }
  intros res s1 (k & x1 & V1 & P1 & out1 & js & -> & Hk & Hend & W & T1 & HP1 & Hpin1 & Hjs & Fjs & Hsz1). fold sb in Hend, W, Hpin1, Hsz1.
  set (s0' := upd s0 ip x1 out1) in *. rewrite Z.sub_0_r in Hk, Hend.
  assert (Hx1 : fs_itable (k_files s0') !! ip = Some x1) by (apply upd_lookup; by eapply lookup_lt_Some).
  pose proof (wr_fields _ _ _ _ _ _ _ W) as Hfl. pose proof (wr_own _ _ _ _ _ _ _ W) as O1.
  assert (Hs1 : i_size x1 = i_size x) by (by rewrite Hfl). assert (Hi1 : i_inum x1 = i_inum x) by (by rewrite Hfl).
  set (x2 := x1 <| i_size := Z.max (i_size x) (off + k) |>).
  apply runs_bind. eapply runs_conseq; [by apply (inode_get_tx c cur p i_size s0' ∅ P1 V1 s1 ip x1)|]. intros sz s1' [-> ->]. rewrite Hs1.
  apply runs_bind. eapply (runs_conseq _ _ (fun _ s2 => tx (upd s0 ip x2 out1) ∅ P1 V1 s2)).
  { destruct (Z.ltb_spec (i_size x) (off + k)) as [Hbig|Hsmall]; cbn [mwhen].
    - eapply runs_conseq; [apply (inode_set_tx c cur p (fun x => x <| i_size := off + k |>) s0' ∅ P1 V1 s1 ip x1 T1 Hx1)|].
      intros [] s2 T2. cbv beta in T2. rewrite (alter_upd s0' ip x1) in T2 by done. unfold s0' in T2. rewrite upd_upd, app_nil_r in T2.
      unfold x2. rewrite Z.max_r by lia. exact T2.
    - apply runs_ret. unfold x2. rewrite Z.max_l, <- Hs1 by lia. replace (x1 <| i_size := i_size x1 |>) with x1 by (by destruct x1). exact T1. }
  intros [] s2 T2. set (s02 := upd s0 ip x2 out1) in *.
  assert (Hx2 : fs_itable (k_files s02) !! ip = Some x2) by (apply upd_lookup; by eapply lookup_lt_Some).
  assert (Hbm : sb_bmapstart sb < 2 ^ 31). { pose proof (bmap_data s0 L). pose proof (ly_data s0 L). pose proof (ly_size s0 L). unfold sb. lia. }
  apply runs_bind. eapply runs_conseq; [apply (iupdate_tx c cur p s02 P1 V1 s2 ip x2 T2 Hx2); [apply O1|apply O1| |exact Hbm|]|].
  { change (i_inum x2) with (i_inum x1). rewrite Hi1. exact Ha. }
  { apply reserve_room. unfold reserve in *. change (logsize s02) with (logsize s0). change (sblock s02) with sb. fold sb in Hroom. lia. }
  intros [] s3 T3. cbv zeta in T3. change (i_inum x2) with (i_inum x1) in T3. rewrite Hi1 in T3. change (sblock s02) with sb in T3.
  apply runs_ret. rewrite i32_small by lia. eexists x2, _, _, out1, js. split; [exact T3|]. split.
  { apply (written_final s0); try done; try lia. intros q. exact (tx_len c cur p _ _ _ _ _ q T1). }
  split; [lia|]. split; [|split; [|done]].
  - destruct Hend as [->|Hfull]; [left; lia|right]. intros b Hb'. fold sb. rewrite (used_agree s0 V1); [by apply Hfull|done| |done].
    intros q Hq. apply bset_ne. destruct Ha as (_ & Hib & _). fold sb in Hib, Hq. lia.
  - assert (Epin : pinset sb x2 (bset V1 (IBLOCK (i_inum x) sb) (store_dinode (V1 (IBLOCK (i_inum x) sb)) (di_off (i_inum x)) x2)) js = pinset sb x1 V1 js).
    { unfold pinset. change (indirect x2) with (indirect x1). f_equal. f_equal. apply list_fmap_ext. intros i j Hj. f_equal.
      unfold faddr. apply (slots_agree s0 x1 V1); [done|done| |].
      - intros q Hq. apply bset_ne. destruct Ha as (_ & Hib & _). fold sb in Hib, Hq. lia.
      - apply slot_of_block_lt. rewrite Forall_forall in Fjs. apply Fjs. by eapply list_elem_of_lookup_2. }
    rewrite Epin. clear -Hpin1. clearbody sb. revert Hpin1. generalize (pinset sb x1 V1 js). set_solver.
Qed.
End writei.

(** ** User memory as source and destination *)

Section user.
Context {D : DiskOps} {DL : DiskLaws} {B : Board} (c : cpu) (cur : nat) (p : proc) (kend : Z).
Implicit Types (s : kern) (P : gset Z) (V : contents) (H : gmap Z nat) (ph : phys).
Notation pt := (p_pagetable p).
Notation blocks := (blocks c cur p).

Lemma ubytes_drop ph va n m : (m <= n)%nat -> drop m (ubytes pt ph va n) = ubytes pt ph (va + Z.of_nat m) (n - m).
Proof using. intros Hm. replace n with (m + (n - m))%nat at 1 by lia. rewrite ubytes_app, drop_app_length' by (symmetry; apply ubytes_length). done. Qed.
Lemma ubytes_take ph va n m : (m <= n)%nat -> take m (ubytes pt ph va n) = ubytes pt ph va m.
Proof using. intros Hm. replace n with (m + (n - m))%nat at 1 by lia. rewrite ubytes_app, take_app_length' by (symmetry; apply ubytes_length). done. Qed.

(** The user's bytes from [src] on. *)
Definition from_user (src : Z) (rest : list Z) (ph : phys) : Prop :=
  user_space kend pt ph /\ 0 <= src /\ src + Z.of_nat (length rest) < 2 ^ 64 /\
  uaccess pt ph src (Z.of_nat (length rest)) /\ rest = ubytes pt ph src (length rest).

Lemma from_user_drop src rest ph m : (m <= length rest)%nat -> from_user src rest ph -> from_user (src + Z.of_nat m) (drop m rest) ph.
Proof using.
  intros Hm (Hus & Hs0 & Hs1 & Hacc & Hrest). unfold from_user. rewrite length_drop. split_and!; [done|lia|lia| |].
  - intros i Hi. replace (src + Z.of_nat m + i) with (src + (Z.of_nat m + i)) by lia. apply Hacc. lia.
  - rewrite Hrest at 1. by apply ubytes_drop.
Qed.
Lemma from_user_take src rest ph m : (m <= length rest)%nat -> from_user src rest ph -> from_user src (take m rest) ph.
Proof using.
  intros Hm (Hus & Hs0 & Hs1 & Hacc & Hrest). unfold from_user. rewrite length_take_le by done. split_and!; [done|lia|lia| |].
  - intros i Hi. apply Hacc. lia.
  - rewrite Hrest at 1. by apply ubytes_take.
Qed.

Lemma user_source : source c cur p (inp_addr true) from_user.
Proof.
  intros src rest s0 H P V s m T HJ Hm. pose proof HJ as (Hus & Hs0 & Hs1 & Hacc & Hrest). pose proof (tx_blocks _ _ _ _ _ _ _ _ T) as Tb.
  pose proof (bl_calm _ _ _ _ _ _ _ _ _ Tb) as Hc. pose proof (bl_proc _ _ _ _ _ _ _ _ _ Tb) as Hp.
  assert (Eph : k_phys s = k_phys s0) by apply (bf_phys _ _ _ (bl_frame _ _ _ _ _ _ _ _ _ Tb)).
  destruct Hus as (own & fl & Huo).
  destruct (copyin_loop_run kend pt (S (Z.to_nat m)) (k_phys s0) own fl src m [] (uo_pt _ _ _ _ _ Huo)) as (r & bs & Hrun & Hr); [lia..|].
  destruct Hr as [(-> & _ & ->)|(_ & Hn)]; [|destruct Hn; intros i Hi; apply Hacc; lia].
  apply (runs_ok _ _ _ (true, take (Z.to_nat m) rest, src + m) s).
  - unfold inp_addr, either_copyin. rewrite bind_assoc, (bind_ok _ _ _ _ _ (myproc_calm s c cur [] Hc)).
    rewrite (bind_ok _ _ _ (0, ubytes pt (k_phys s0) src (Z.to_nat m)) s).
    + cbn [Z.eqb negb]. unfold mret. rewrite u64_small by lia. f_equal. rewrite Hrest, ubytes_take by lia. done.
    + rewrite (bind_ok _ _ _ cur s) by done. rewrite (bind_ok _ _ _ _ _ (proc_get_run p_pagetable s cur p Hp)).
      rewrite (on_phys_run _ s (0, ubytes pt (k_phys s0) src (Z.to_nat m)) (k_phys s0)); [|by rewrite Eph].
      rewrite <- Eph. by destruct s.
  - split; [done|]. exists (src + m). split; [done|]. replace m with (Z.of_nat (Z.to_nat m)) at 1 by lia. apply from_user_drop; [lia|done].
Qed.

Lemma blocks_phys s0 H P V d s ph : blocks s0 H P V d s -> blocks (s0 <| k_phys := ph |>) H P V d (s <| k_phys := ph |>).
Proof.
  intros [Hc Hp Hi HV Hd Hf]. split; try done; [by apply (calm_data s)|by apply (binv_frame s)|].
  destruct Hf as [A1 A2 A3 A4 A5 A6 A13 A14]. by split.
Qed.

Lemma delivered_app root ph ph1 ph2 va bs bs' : 0 <= va -> uaccess root ph va (Z.of_nat (length bs)) ->
  delivered root ph ph1 va bs -> delivered root ph1 ph2 (va + Z.of_nat (length bs)) bs' -> delivered root ph ph2 va (bs ++ bs').
Proof using.
  intros Hva Hacc (H1 & Hu1 & Hk1 & Ho1) (H2 & Hu2 & Hk2 & Ho2). split_and!.
  - rewrite length_app, ubytes_app, H2. f_equal. apply ubytes_eq.
    intros i Hi. rewrite <- H1. rewrite ubytes_lookup by done. f_equal. symmetry. apply Hk2; [lia|lia|].
    rewrite Hu1. apply Hacc. lia.
  - intros v. by rewrite Hu2, Hu1.
  - intros v Hv Hn Hsv. rewrite length_app in Hn. rewrite Hk2; [|lia|lia|by rewrite Hu1]. apply Hk1; [lia|lia|done].
  - intros a Hn. rewrite Ho2; [by apply Ho1|]. intros v. by rewrite Hu1.
Qed.

(** The user's memory at [addr], starting from the kernel state [s0]. *)
Definition to_user (s0 : kern) (addr : Z) (dst : Z) (acc : list Z) (s : kern) : Prop :=
  dst = addr + Z.of_nat (length acc) /\ user_space kend pt (k_phys s) /\ delivered pt (k_phys s0) (k_phys s) addr acc /\
  s = s0 <| k_phys := k_phys s |>.

Lemma user_sink s0 addr max : 0 <= addr -> addr + Z.of_nat max < 2 ^ 64 -> uaccess pt (k_phys s0) addr (Z.of_nat max) ->
  sink c cur p (out_addr true) (to_user s0 addr) max.
Proof.
  intros Ha Hb Hacc dst acc bs s1 H P V d s T (-> & (own & fl & Huo) & Hdel & Es) Hlen.
  pose proof (bl_calm _ _ _ _ _ _ _ _ _ T) as Hc. pose proof (bl_proc _ _ _ _ _ _ _ _ _ T) as Hp.
  assert (Eph : k_phys s = k_phys s1) by apply (bf_phys _ _ _ (bl_frame _ _ _ _ _ _ _ _ _ T)).
  pose proof Hdel as (_ & Hu1 & _ & _).
  destruct (copyout_loop_run kend pt (S (length bs)) (k_phys s1) own fl (addr + Z.of_nat (length acc)) bs Huo)
    as (r & ph & Hrun & Huo' & Hu & Hk & Ho & Hr); [lia..|].
  destruct Hr as [(-> & _ & Hbs)|(_ & Hn)].
  2: { destruct Hn. intros i Hi. rewrite Hu1. replace (addr + Z.of_nat (length acc) + i) with (addr + (Z.of_nat (length acc) + i)) by lia.
       apply Hacc. lia. }
  apply (runs_ok _ _ _ (Some (addr + Z.of_nat (length (acc ++ bs)))) (s <| k_phys := ph |>)).
  - unfold out_addr, either_copyout. rewrite bind_assoc, (bind_ok _ _ _ _ _ (myproc_calm s c cur [] Hc)).
    rewrite (bind_ok _ _ _ 0 (s <| k_phys := ph |>)).
    + cbn [Z.eqb]. unfold mret. rewrite u64_small by lia. do 2 f_equal. rewrite length_app. lia.
    + rewrite (bind_ok _ _ _ cur s) by done. rewrite (bind_ok _ _ _ _ _ (proc_get_run p_pagetable s cur p Hp)).
      apply on_phys_run. by rewrite Eph.
  - exists (addr + Z.of_nat (length (acc ++ bs))), (s1 <| k_phys := ph |>). split; [done|]. split; [|split; [done|by apply blocks_phys]].
    split; [done|]. split; [by exists own, fl|]. split; [|rewrite Es; done].
    apply (delivered_app pt (k_phys s0) (k_phys s1) ph addr acc bs); [done| |done|].
    + intros i Hi. apply Hacc. lia.
    + split_and!; done.
Qed.

Lemma local_source : source c cur p inp_local (fun src rest _ => src = rest).
Proof. intros src rest s0 H P V s m T -> Hm. apply runs_ret. split; [done|]. by eexists. Qed.
End user.
