(* ===== verification/File.v ===== *)
(** * Open files: kernel/file.c, and pipealloc of kernel/pipe.c

    A struct file is an entry of the file table, named by its index.  The device switch has
    the console as its only device.  Calls that would have to sleep end in [Err Block]. *)

From S2P Require Import Prelude Riscv CString Kalloc Vm Spinlock Proc ProcSpec Headers Sleeplock Bio Log Fs.
From S2P Require Import Pipe Uart Printf Console.

Definition CONSOLE : Z := 1.

Definition file_get {A} (f : nat) (g : file -> A) : M kern A :=
  t <- fget fs_ftable ;; x <- mlookup (t !! f) ;; mret (g x).
Definition file_set (f : nat) (g : file -> file) : M kern unit :=
  t <- fget fs_ftable ;; _ <- mlookup (t !! f) ;;
  fset (fun s => s <| fs_ftable ::= alter g f |>).

Definition fileinit : M kern unit := on_mach (initlock LFtable "ftable").

Definition filealloc : M kern (option nat) :=
  acquire LFtable ;;;
  t <- fget fs_ftable ;;
  match list_find (fun x => f_ref x = 0) (take NFILE t) with
  | Some (f, _) =>
      file_set f (fun x => x <| f_ref := 1 |>) ;;;
      release LFtable ;;;
      mret (Some f)
  | None => release LFtable ;;; mret None
  end.

Definition filedup (f : nat) : M kern nat :=
  acquire LFtable ;;;
  ref <- file_get f f_ref ;;
  if ref <? 1 then panic "filedup"
  else
    file_set f (fun x => x <| f_ref := i32 (ref + 1) |>) ;;;
    release LFtable ;;;
    mret f.

Section files.
Context `{DiskOps} `{Board} (kend : Z).

Definition fileclose (f : nat) : M kern unit :=
  acquire LFtable ;;;
  ref <- file_get f f_ref ;;
  if ref <? 1 then panic "fileclose"
  else
    file_set f (fun x => x <| f_ref := ref - 1 |>) ;;;
    if 0 <? ref - 1 then release LFtable
    else
      ff <- file_get f (fun x => x) ;;
      file_set f (fun x => x <| f_ref := 0 |> <| f_type := FD_NONE |>) ;;;
      release LFtable ;;;
      match f_type ff with
      | FD_PIPE => pipeclose kend (f_pipe ff) (z2b (f_writable ff))
      | FD_INODE | FD_DEVICE =>
          ip <- mlookup (f_ip ff) ;;
          begin_op ;;; iput ip ;;; end_op
      | FD_NONE => mret tt
      end.

(** struct stat as it is copied to the user: dev, ino, type, nlink, padding, size. *)
Definition stat_bytes (st : stat) : list Z :=
  le_bytes 4 (u32 (st_dev st)) ++ le_bytes 4 (st_ino st) ++ le_bytes 2 (u16 (st_type st)) ++
  le_bytes 2 (u16 (st_nlink st)) ++ le_bytes 4 0 ++ le_bytes 8 (st_size st).

Definition filestat (f : nat) (addr : Z) : M kern Z :=
  p <- self ;;
  x <- file_get f (fun x => x) ;;
  match f_type x with
  | FD_INODE | FD_DEVICE =>
      ip <- mlookup (f_ip x) ;;
      ilock ip ;;;
      st <- stati ip ;;
      iunlock ip ;;;
      pt <- proc_get p p_pagetable ;;
      r <- on_phys (copyout pt addr (stat_bytes st)) ;;
      mret (if r <? 0 then -1 else 0)
  | _ => mret (-1)
  end.

(** [f->major < 0 || f->major >= NDEV || !devsw[f->major].read] *)
Definition no_device (major : Z) : bool := (major <? 0) || (NDEV <=? major) || negb (major =? CONSOLE).

Definition fileread (f : nat) (addr n : Z) : M kern Z :=
  x <- file_get f (fun x => x) ;;
  if f_readable x =? 0 then mret (-1)
  else
    match f_type x with
    | FD_PIPE => piperead (f_pipe x) addr n
    | FD_DEVICE => if no_device (f_major x) then mret (-1) else consoleread true addr n
    | FD_INODE =>
        ip <- mlookup (f_ip x) ;;
        ilock ip ;;;
        r <- readi ip true addr (f_off x) (u32 n) ;;
        mwhen (0 <? r) (file_set f (fun x => x <| f_off := u32 (f_off x + r) |>)) ;;;
        iunlock ip ;;;
        mret r
    | FD_NONE => panic "fileread"
    end.

Definition write_max : Z := (MAXOPBLOCKS - 1 - 1 - 2) / 2 * BSIZE.
Fixpoint filewrite_loop (fuel : nat) (f ip : nat) (addr n i : Z) : M kern Z :=
  match fuel with
  | O => mfail NoFuel
  | S fuel' =>
      if i <? n then
        let n1 := Z.min (n - i) write_max in
        begin_op ;;;
        ilock ip ;;;
        off <- file_get f f_off ;;
        r <- writei ip true (u64 (addr + i)) off n1 ;;
        mwhen (0 <? r) (file_set f (fun x => x <| f_off := u32 (f_off x + r) |>)) ;;;
        iunlock ip ;;;
        end_op ;;;
        if negb (r =? n1) then mret i else filewrite_loop fuel' f ip addr n (i + r)
      else mret i
  end.
Definition filewrite (f : nat) (addr n : Z) : M kern Z :=
  x <- file_get f (fun x => x) ;;
  if f_writable x =? 0 then mret (-1)
  else
    match f_type x with
    | FD_PIPE => pipewrite (f_pipe x) addr n
    | FD_DEVICE => if no_device (f_major x) then mret (-1) else consolewrite true addr n
    | FD_INODE =>
        ip <- mlookup (f_ip x) ;;
        i <- filewrite_loop (Z.to_nat (n / write_max) + 2) f ip addr n 0 ;;
        mret (if i =? n then n else -1)
    | FD_NONE => panic "filewrite"
    end.

(** kernel/pipe.c: pipealloc.  The two files, when it returns 0. *)
Definition pipe0 : pipe := Pipe (replicate (Z.to_nat PIPESIZE) 5) 0 0 1 1.
Definition pipealloc : M kern (option (nat * nat)) :=
  f0 <- filealloc ;;
  match f0 with
  | None => mret None
  | Some f0 =>
      f1 <- filealloc ;;
      match f1 with
      | None => fileclose f0 ;;; mret None
      | Some f1 =>
          pi <- on_phys kalloc ;;
          if pi =? 0 then fileclose f0 ;;; fileclose f1 ;;; mret None
          else
            fset (fun s => s <| fs_pipes ::= insert pi pipe0 |>) ;;;
            on_mach (initlock (LPipe pi) "pipe") ;;;
            file_set f0 (fun x => x <| f_type := FD_PIPE |> <| f_readable := 1 |> <| f_writable := 0 |>
                                    <| f_pipe := pi |>) ;;;
            file_set f1 (fun x => x <| f_type := FD_PIPE |> <| f_readable := 0 |> <| f_writable := 1 |>
                                    <| f_pipe := pi |>) ;;;
            mret (Some (f0, f1))
      end
  end.

End files.
