(* ===== verification/FileWrite.v ===== *)
(** * Writing to an open file

    filewrite of kernel/file.c splits a write into pieces, each a transaction of its own: it
    begins an operation, locks the inode, calls writei, moves the file offset, unlocks and
    ends the operation, which commits.  [at_rest] is the state of the file system between
    two transactions; a piece leads from one such state to the next. *)

From S2P Require Import Prelude Riscv CString Kalloc Vm Uvm UvmProps Spinlock Proc ProcSpec Headers Codec Sleeplock.
From S2P Require Import Uart Printf Bio BioSpec Bcache Example PipeSpec ConsoleSpec Log Blocks LogSpec Crash LogOps.
From S2P Require Import Fs FsTx Balloc Bmap Content Dinode Writei FileProps File.

(** ** Pieces of a write *)

Section stored.
Implicit Types (s : kern) (x y : inode) (V : contents) (data : list Z).

Lemma stored_range s x V data off r x' V' : layout s -> inode_range x -> stored (sblock s) x V data off r x' V' -> inode_range x'.
Proof.
  intros L [R1 R2 R3 R4 R5 R6] [F _ _ _ _ _ _ Hf]. pose proof (fo_size _ _ _ F) as Hs.
  split; [by rewrite Hf..| |].
  - unfold MAXFILE, NDIRECT, NINDIRECT, BSIZE in *. change (1024 / 4) with 256 in *. lia.
  - split; [apply F|]. apply (own_range s x' V' L), F.
Qed.

(** The log area holds no part of a file. *)
Lemma stored_agree s x V data off r x' V' V2 : layout s -> inode_area s (i_inum x) -> stored (sblock s) x V data off r x' V' ->
  (forall n, ~ in_log s n -> V2 n = V' n) -> stored (sblock s) x V data off r x' V2.
Proof.
  intros L (_ & _ & Hib) [F M Hs Hb Ho Hd Hi Hf] HV.
  assert (Hag : forall n, sb_bmapstart (sblock s) <= n -> V2 n = V' n).
  { intros n Hn. apply HV. intros Hin. pose proof (ly_log s L n Hin). lia. }
  destruct (file_agree s x' V' V2 L F Hag) as [F2 Hb2]. pose proof (ly_data s L) as Hld. split; try done.
  - intros n Hn. rewrite (used_agree s V' V2) by (done || lia). by apply M.
  - intros o Hoo. rewrite (same_content _ _ _ _ _ F Hb2) by done. by apply Hb.
  - intros y Fy Hdis. destruct (Ho y Fy Hdis) as (Fy' & Hdis' & Hby). destruct (file_agree s y V' V2 L Fy' Hag) as [Fy2 Hby2].
    split_and!; [done|exact (disjoint_agree s x' y V' V2 L (fo_own _ _ _ F) (fo_own _ _ _ Fy') Hag Hdis')|].
    by apply (same_trans y V V').
  - by rewrite HV.
  - intros j Hj. rewrite HV by done. by apply Hi.
Qed.

Lemma stored_none sb x V data off : file_ok sb x V -> meta_used sb V -> off <= i_size x ->
  load_dinode (V (IBLOCK (i_inum x) sb)) (di_off (i_inum x)) x = x -> stored sb x V data off 0 x V.
Proof.
  intros F M Hoff Hd. split; try done; [lia| |by destruct x]. intros o Ho. by rewrite decide_False by lia.
Qed.

Lemma stored_trans sb x V data off i x1 V1 r x2 V2 : 0 <= off -> 0 <= i -> 0 <= r -> i + r <= Z.of_nat (length data) ->
  stored sb x V data off i x1 V1 -> stored sb x1 V1 (drop (Z.to_nat i) data) (off + i) r x2 V2 ->
  stored sb x V data off (i + r) x2 V2.
Proof.
  intros Hoff Hi Hr Hlen [F1 M1 S1 B1 O1 D1 I1 E1] [F2 M2 S2 B2 O2 D2 I2 E2].
  assert (En : i_inum x1 = i_inum x) by (by rewrite E1). rewrite En in D2, I2. split; try done.
  - lia.
  - intros o Ho. rewrite B2 by done. case_decide as K.
    + rewrite decide_True by lia. rewrite lookup_drop. do 2 f_equal. lia.
    + rewrite B1 by lia. repeat case_decide; try lia; done.
  - intros y Fy Hd. destruct (O1 y Fy Hd) as (Fy1 & Hd1 & Hb1). destruct (O2 y Fy1 Hd1) as (Fy2 & Hd2 & Hb2).
    split_and!; [done|done|by apply (same_trans y V V1)].
  - intros j Hj. rewrite I2, I1; done.
  - rewrite E2, E1. by destruct x.
Qed.
Lemma stored_take sb x V data off r x' V' m : r <= Z.of_nat m -> stored sb x V (take m data) off r x' V' -> stored sb x V data off r x' V'.
Proof.
  intros Hr [F M S0 B0 O D0 I E]. split; try done. intros o Ho. rewrite B0 by done. case_decide; [|done]. by rewrite lookup_take_lt by lia.
Qed.
End stored.

(** ** The file system between transactions *)

Record at_rest (c : cpu) (cur : nat) (p : proc) (s : kern) : Prop := {
  ar_calm : calm s c cur [];
  ar_proc : k_procs s !! cur = Some p;
  ar_cache : binv s p ∅ ∅;
  ar_log : log_inv s ∅;
  ar_out : l_outstanding (fs_log (k_files s)) = 0;
  ar_com : l_committing (fs_log (k_files s)) = 0;
  ar_layout : layout s;
  ar_bitmap : sb_size (sblock s) <= BPB;
  ar_room : MAXOPBLOCKS <= logsize s - 1;
  ar_meta : meta_used (sblock s) (view s);
  ar_uart : u_idle (fs_uart (k_files s)) = true
}.

(** Inode [ip] is in memory as [x], referenced and not locked; its file is well formed and
    the disk inode is up to date. *)
Record inode_rest (s : kern) (ip : nat) (x : inode) : Prop := {
  in_entry : fs_itable (k_files s) !! ip = Some x;
  in_lt : (ip < NINODE)%nat;
  in_ref : 1 <= i_ref x;
  in_valid : i_valid x <> 0;
  in_free : exists l, fs_sleep (k_files s) !! inode_lock ip = Some l /\ sl_locked l = 0;
  in_file : file_ok (sblock s) x (view s);
  in_area : inode_area s (i_inum x);
  in_range : inode_range x;
  in_disk : load_dinode (view s (IBLOCK (i_inum x) (sblock s))) (di_off (i_inum x)) x = x
}.

Lemma rest_ondisk c cur p s n : at_rest c cur p s -> ondisk s n = view s n.
Proof. intros R. symmetry. apply (binv_clean s p ∅ ∅); [apply R|set_solver|done]. Qed.

Section ilock.
Context {D : DiskOps} {DL : DiskLaws} {B : Board}.
Implicit Types (s : kern) (c : cpu) (cur ip : nat) (p : proc) (x : inode) (l : sleeplock).

Lemma binv_isleep s p H P i l : binv s p H P -> (NBUF <= i)%nat -> binv (set_sleep s i l) p H P.
Proof using.
  intros [[order [A1 A2 A3 A4 A5]] B1 B2 B3 B4] Hi.
  assert (Hs : forall b, (b < NBUF)%nat -> fs_sleep (k_files (set_sleep s i l)) !! b = fs_sleep (k_files s) !! b).
  { intros b Hb. simpl. apply list_lookup_insert_ne. lia. }
  split; try done.
  - exists order. split; try done; [simpl; by rewrite length_insert|].
    intros b x Hb Hx. destruct (A3 b x Hb Hx). split; try done. by rewrite Hs.
  - intros n b Hn. destruct (B2 n b Hn) as (x & K1 & K2 & K3 & K4 & K5). exists x. by rewrite Hs.
  - intros b Hb Hn. rewrite Hs by done. by apply B3.
Qed.

Lemma inode_get_run {A} (g : inode -> A) s ip x : fs_itable (k_files s) !! ip = Some x -> inode_get ip g s = Ok (g x) s.
Proof using. intros Hx. unfold inode_get, fget. rewrite (bind_ok _ _ _ (fs_itable (k_files s)) s) by done. by rewrite Hx. Qed.

(** ilock of a valid inode that nobody has locked, and its iunlock. *)
Lemma ilock_run s c cur p ip x l : calm s c cur [] -> k_procs s !! cur = Some p -> (ip < NINODE)%nat ->
  fs_itable (k_files s) !! ip = Some x -> 1 <= i_ref x -> i_valid x <> 0 -> fs_sleep (k_files s) !! inode_lock ip = Some l -> sl_locked l = 0 ->
  ilock ip s = Ok tt (set_sleep s (inode_lock ip) (l <| sl_locked := 1 |> <| sl_pid := p_pid p |>)).
Proof using.
  intros Hc Hp Hip Hx Hr Hv Hl Hfree. unfold ilock. rewrite (bind_ok _ _ _ _ _ (inode_get_run i_ref s ip x Hx)).
  destruct (Z.ltb_spec (i_ref x) 1); [lia|].
  assert (Ea : acquiresleep (inode_lock ip) s = Ok tt (set_sleep s (inode_lock ip) (l <| sl_locked := 1 |> <| sl_pid := p_pid p |>))).
  { apply (acquiresleep_run s c cur []); try done; [unfold inode_lock; lia|apply not_elem_of_nil|simpl; lia]. }
  rewrite (bind_ok _ _ _ _ _ Ea). set (s1 := set_sleep _ _ _).
  rewrite (bind_ok _ _ _ _ _ (inode_get_run i_valid s1 ip x Hx)). by destruct (Z.eqb_spec (i_valid x) 0).
Qed.
Lemma iunlock_run s c cur p ip x l : calm s c cur [] -> k_procs s !! cur = Some p -> (ip < NINODE)%nat ->
  fs_itable (k_files s) !! ip = Some x -> 1 <= i_ref x -> fs_sleep (k_files s) !! inode_lock ip = Some l -> sl_locked l = 1 -> sl_pid l = p_pid p ->
  iunlock ip s = Ok tt (set_sleep s (inode_lock ip) (l <| sl_locked := 0 |> <| sl_pid := 0 |>)
    <| k_procs := wakes cur (Some (ChSleep (inode_lock ip))) (k_procs s) |>).
Proof using.
  intros Hc Hp Hip Hx Hr Hl H1 Hpid. unfold iunlock.
  assert (Hi : (inode_lock ip < NBUF + NINODE)%nat) by (unfold inode_lock; lia).
  rewrite (bind_ok _ _ _ true s).
  2: { rewrite (holdingsleep_run s c cur [] _ l p); try done; [|apply not_elem_of_nil|simpl; lia]. by rewrite H1, Hpid, Z.eqb_refl. }
  cbn [negb]. rewrite (bind_ok _ _ _ _ _ (inode_get_run i_ref s ip x Hx)). destruct (Z.ltb_spec (i_ref x) 1); [lia|].
  apply (releasesleep_run s c cur [] _ l p); try done; [apply not_elem_of_nil|simpl; lia|]. intros q. left. apply not_elem_of_nil.
Qed.
End ilock.

(** No block of the disk is free. *)
Definition disk_full (sb : superblock) (V : contents) : Prop := forall b, 0 <= b < sb_size sb -> used sb V b = true.

Lemma full_view c cur p s0 hs P V s sb : tx c cur p s0 hs P V s -> disk_full sb V -> disk_full sb (view s).
Proof.
  intros T Hf b Hb. unfold used. rewrite (bl_view _ _ _ _ _ _ _ _ _ (tx_blocks _ _ _ _ _ _ _ _ T)). by apply Hf.
Qed.

(** ** The space a piece needs *)

Lemma spans_max off n : 0 <= n <= write_max -> spans off n <= 4.
Proof.
  intros Hn. unfold write_max, MAXOPBLOCKS in Hn. change ((10 - 1 - 1 - 2) / 2 * BSIZE) with 3072 in Hn. unfold spans.
  pose proof (Z.mod_pos_bound off BSIZE ltac:(unfold BSIZE; lia)). unfold BSIZE in *. apply Z.lt_succ_r, Z.div_lt_upper_bound; lia.
Qed.
Lemma one_bitmap s : layout s -> sb_size (sblock s) <= BPB -> bitmaps (sblock s) = {[sb_bmapstart (sblock s)]}.
Proof.
  intros L Hs. apply set_eq. intros n. rewrite elem_of_bitmaps, elem_of_singleton. pose proof (ly_size s L).
  unfold datastart. rewrite Z.div_small by lia. lia.
Qed.
Lemma reserve_write s P off n : layout s -> sb_size (sblock s) <= BPB -> 0 <= n <= write_max ->
  Z.of_nat (size P) + MAXOPBLOCKS <= logsize s - 1 -> reserve s P (2 * spans off n + 1).
Proof.
  intros L Hs Hn Hr. pose proof (spans_max off n Hn). unfold reserve, logged. rewrite one_bitmap by done.
  pose proof (size_add1 (sb_bmapstart (sblock s)) P). unfold MAXOPBLOCKS in Hr. lia.
Qed.

(** ** One piece *)

Lemma same_layout s s' : layout s -> sblock s' = sblock s -> l_start (fs_log (k_files s')) = l_start (fs_log (k_files s)) ->
  l_size (fs_log (k_files s')) = l_size (fs_log (k_files s)) -> layout s' /\ forall n, in_log s' n <-> in_log s n.
Proof.
  intros [L1 L2 L3 L4] Esb E1 E2. assert (Hin : forall n, in_log s' n <-> in_log s n) by (intros n; unfold in_log, log_area; by rewrite E1, E2).
  split; [|done]. split; rewrite ?Esb; try done. intros n Hn. apply L4. by apply Hin.
Qed.

Section piece.
Context {D : DiskOps} {DL : DiskLaws} {B : Board} (Hidle : forall u, next_idle u = true).
Context (c : cpu) (cur : nat) (p : proc) (kend : Z).
Implicit Types (s : kern) (f ip : nat) (x : inode) (y : file) (data : list Z).

(** What a piece of [r] bytes that turns inode [x] into [x'] leaves. *)
Record piece_done s f y ip x data r x' s' : Prop := {
  pd_rest : at_rest c cur p s';
  pd_inode : inode_rest s' ip x';
  pd_stored : stored (sblock s) x (view s) data (f_off y) r x' (view s');
  pd_full : r = Z.of_nat (length data) \/ disk_full (sblock s) (view s');
  pd_phys : k_phys s' = k_phys s;
  pd_sb : sblock s' = sblock s;
  pd_file : fs_ftable (k_files s') !! f = Some (y <| f_off := f_off y + r |>);
  pd_others : forall g, g <> f -> fs_ftable (k_files s') !! g = fs_ftable (k_files s) !! g
}.

(** The end of a piece: the offset moves, the inode is unlocked, the transaction commits. *)
Record closed s0 V f y ip r s' : Prop := {
  cl_calm : calm s' c cur [];
  cl_proc : k_procs s' !! cur = Some p;
  cl_cache : binv s' p ∅ ∅;
  cl_log : log_inv s' ∅;
  cl_const : let l := fs_log (k_files s') in let l0 := fs_log (k_files s0) in
    l_start l = l_start l0 /\ l_size l = l_size l0 /\ l_outstanding l = 0 /\ l_committing l = 0;
  cl_phys : k_phys s' = k_phys s0;
  cl_files : sblock s' = sblock s0 /\ fs_itable (k_files s') = fs_itable (k_files s0) /\ fs_uart (k_files s') = fs_uart (k_files s0);
  cl_file : fs_ftable (k_files s') = <[f := y <| f_off := f_off y + r |>]> (fs_ftable (k_files s0));
  cl_lock : exists l, fs_sleep (k_files s') !! inode_lock ip = Some l /\ sl_locked l = 0;
  cl_view : forall n, ~ in_log s0 n -> view s' n = V n
}.

Lemma file_set_run f y r s : fs_ftable (k_files s) !! f = Some y -> 0 <= r -> 0 <= f_off y + r < 2 ^ 32 ->
  mwhen (0 <? r) (file_set f (fun x : file => x <| f_off := u32 (f_off x + r) |>)) s =
  Ok tt (s <| k_files ::= fun g => g <| fs_ftable ::= insert f (y <| f_off := f_off y + r |>) |> |>).
Proof using.
  intros Hy Hr Hfit. destruct (Z.ltb_spec 0 r) as [Hp|Hp]; cbn [mwhen].
  - unfold file_set, fget. rewrite (bind_ok _ _ _ (fs_ftable (k_files s)) s) by done. rewrite Hy. unfold mlookup, fset, modify.
    rewrite (bind_ok _ _ _ y s) by done. f_equal. simpl. rewrite (list_alter_Some _ _ y) by done. by rewrite u32_small by lia.
  - replace r with 0 by lia. rewrite Z.add_0_r. unfold mret. f_equal. destruct s as [? ? ? ? ? ? ? ? g]; destruct g; simpl in *.
    unfold setf. simpl. rewrite list_insert_id; [done|]. rewrite Hy. f_equal. by destruct y.
Qed.

Lemma piece_closed {A} (Q : A -> kern -> Prop) (k : M kern A) s0 P V s f y ip x l r : tx c cur p s0 ∅ P V s ->
  fs_ftable (k_files s0) !! f = Some y -> fs_itable (k_files s0) !! ip = Some x -> (ip < NINODE)%nat -> 1 <= i_ref x ->
  fs_sleep (k_files s0) !! inode_lock ip = Some l -> sl_locked l = 1 -> sl_pid l = p_pid p ->
  l_outstanding (fs_log (k_files s0)) = 1 -> l_committing (fs_log (k_files s0)) = 0 -> 0 <= r -> 0 <= f_off y + r < 2 ^ 32 ->
  (forall s', closed s0 V f y ip r s' -> runs k s' Q) ->
  runs (mwhen (0 <? r) (file_set f (fun x : file => x <| f_off := u32 (f_off x + r) |>)) ;;; iunlock ip ;;; end_op ;;; k) s Q.
Proof using Type*.
  intros [[Tc Tp Tb TV Td Tf] Tl Tk To] Hy Hx Hip Href Hl H1 Hpid Ho Hcm Hr Hfit Hk.
  pose proof Tf as [F1 F2 F3 F4 F5 (_ & F7 & F8 & F9 & F10) F11 F12]. injection Tk as K1 K2 K3 K4 K5.
  assert (Hib : (NBUF <= inode_lock ip)%nat) by (unfold inode_lock; lia).
  simpl in F2, F7, F8, F9, F12. rewrite <- F9 in Hy. rewrite <- F8 in Hx.
  assert (Hl' : fs_sleep (k_files s) !! inode_lock ip = Some l) by (by rewrite F11). clear Hl. rename Hl' into Hl.
  unfold runs. rewrite (bind_ok _ _ _ _ _ (file_set_run f y r s Hy Hr Hfit)). set (s1 := s <| k_files ::= _ |>).
  assert (Hc1 : calm s1 c cur []) by (by apply (calm_data s)).
  rewrite (bind_ok _ _ _ _ _ (iunlock_run s1 c cur p ip x l Hc1 Tp Hip Hx Href Hl H1 Hpid)).
  set (l2 := l <| sl_locked := 0 |> <| sl_pid := 0 |>). set (s2 := set_sleep s1 _ l2 <| k_procs := _ |>).
  assert (Hp2 : k_procs s2 !! cur = Some p) by (simpl; by rewrite wakes_cur).
  destruct (end_op_run s2 c cur p P) as (s3 & E3 & Hb3 & Hl3 & Hf3 & HV3); try done.
  { apply (calm_data s); [done|done|simpl; apply length_wakes]. }
  { apply (binv_frame (set_sleep s1 (inode_lock ip) l2)); [|done..]. apply binv_isleep; [|done]. by apply (binv_frame s). }
  { by destruct Tl. }
  { by rewrite <- Ho. }
  { by rewrite <- Hcm. }
  rewrite (bind_ok _ _ _ _ _ E3). apply Hk. destruct Hf3 as [G1 G2 G3 G4 G5 (G6 & G7 & G8 & G9 & G10) G11 G12]. split; try done.
  - apply (calm_data s); [done|by rewrite G1|rewrite G3; simpl; apply length_wakes].
  - by rewrite G4.
  - cbv zeta. rewrite G6. simpl. rewrite K1, K2, K4. done.
  - by rewrite G2.
  - unfold sblock. rewrite G7, G8, G12. simpl. by rewrite F7, F8, F12.
  - rewrite G9. simpl. by rewrite F9.
  - exists l2. rewrite G11 by done. split; [|done]. simpl. apply list_lookup_insert_eq. by eapply lookup_lt_Some.
  - intros n Hn. rewrite <- (TV n). apply HV3. unfold in_log, log_area in *. simpl. rewrite K1, K2. done.
Qed.

Lemma write_piece {A} (Q : A -> kern -> Prop) (k : Z -> M kern A) s f y ip x src data : at_rest c cur p s -> inode_rest s ip x ->
  fs_ftable (k_files s) !! f = Some y -> from_user p kend src data (k_phys s) -> let n := Z.of_nat (length data) in
  n <= write_max -> 0 <= f_off y <= i_size x -> f_off y + n <= MAXFILE * BSIZE ->
  (forall r x' s', 0 <= r <= n -> piece_done s f y ip x data r x' s' -> runs (k r) s' Q) ->
  runs (begin_op ;;;
        ilock ip ;;;
        off <- file_get f f_off ;;
        r <- writei ip true src off n ;;
        mwhen (0 <? r) (file_set f (fun x : file => x <| f_off := u32 (f_off x + r) |>)) ;;;
        iunlock ip ;;;
        end_op ;;;
        k r) s Q.
Proof.
  intros [Rc Rp Rb Rl Ro Rm L R1 Rr M Ru] [Ie Il Ir Iv (l & Hl & Hfree) If Ia Ig Id] Hy HJ n Hn Hoff Hfit Hk.
  pose proof (li_wf _ _ Rl) as W. pose proof (log_len s ∅ Rl) as Hln. rewrite size_empty in Hln.
  unfold logsize in Rr. pose proof (lw_size _ W) as Hls.
  assert (E1 : begin_op s = Ok tt (set_log s (fun l => l <| l_outstanding := l_outstanding l + 1 |>))).
  { apply (begin_op_run s c cur Rc Rm); [|lia|lia]. rewrite Ro. unfold LOGSIZE, MAXOPBLOCKS in *. lia. }
  unfold runs. rewrite (bind_ok _ _ _ _ _ E1). set (s1 := set_log s _).
  assert (E2 : ilock ip s1 = Ok tt (set_sleep s1 (inode_lock ip) (l <| sl_locked := 1 |> <| sl_pid := p_pid p |>))).
  { apply (ilock_run s1 c cur p ip x l); try done. by apply (calm_data s). }
  rewrite (bind_ok _ _ _ _ _ E2). set (l1 := l <| sl_locked := 1 |> <| sl_pid := p_pid p |>). set (s2 := set_sleep s1 _ l1).
  assert (E3 : file_get f f_off s2 = Ok (f_off y) s2).
  { unfold file_get, fget. rewrite (bind_ok _ _ _ (fs_ftable (k_files s)) s2) by done. by rewrite Hy. }
  rewrite (bind_ok _ _ _ _ _ E3).
  assert (T2 : tx c cur p s2 ∅ ∅ (view s) s2).
  { apply (tx_start c cur p s2 ∅); [by apply (calm_data s)|done|apply binv_isleep; [by apply (binv_frame s)|unfold inode_lock; lia]| |simpl; lia].
    destruct Rl as [[] ? ? ?]. by split. }
  pose proof (writei_gen_tx Hidle c cur p (inp_addr true) (from_user p kend) (user_source c cur p kend) s2 ∅ (view s) s2 ip x src data
    (f_off y) T2 ltac:(by destruct L) M If Ia Ig Ie Ru HJ Hoff Hfit) as Hrun. fold n in Hrun.
  specialize (Hrun ltac:(apply reserve_write; [by destruct L|done|lia|rewrite size_empty; exact Rr])).
  apply runs_inv in Hrun as (r & s3 & E4 & x' & V' & P' & out & js & T3 & Wr & Hr & Hfull & _).
  assert (Ew : writei ip true src (f_off y) n s2 = Ok r s3) by exact E4. rewrite (bind_ok _ _ _ _ _ Ew).
  pose proof (wt_fields _ _ _ _ _ _ _ _ Wr) as Hfl. assert (Hlen : (ip < length (fs_itable (k_files s2)))%nat) by (by eapply lookup_lt_Some).
  apply (piece_closed Q (k r) (upd s2 ip x' out) P' V' s3 f y ip x' l1 r T3); try done; try lia.
  { by apply upd_lookup. }
  { by rewrite Hfl. }
  { simpl. apply list_lookup_insert_eq. by eapply lookup_lt_Some. }
  { simpl. by rewrite Ro. }
  { unfold write_max, MAXFILE, NDIRECT, NINDIRECT, BSIZE in *. change (1024 / 4) with 256 in *. lia. }
  intros s' [C1 C2 C3 C4 (C5 & C6 & C7 & C8) C9 (C10 & C11 & C12) C13 C14 C15]. apply (Hk r x' s' Hr).
  assert (St : stored (sblock s) x (view s) data (f_off y) r x' (view s')) by exact (stored_agree s _ _ _ _ _ _ _ _ L Ia Wr C15).
  change (sblock s' = sblock s) in C10. destruct (same_layout s s' L C10 C5 C6) as [L' Hin].
  assert (Ei : i_inum x' = i_inum x) by (by rewrite Hfl). split; try done.
  - split; try done; rewrite ?C10; try done; [unfold logsize; rewrite C6; exact Rr|by apply (wt_meta _ _ _ _ _ _ _ _ St)|by rewrite C12].
  - split; rewrite ?C10, ?C11, ?Ei; try done.
    + by apply upd_lookup.
    + by rewrite Hfl.
    + by rewrite Hfl.
    + by apply (wt_file _ _ _ _ _ _ _ _ St).
    + destruct Ia as (A1 & A2 & A3). unfold inode_area. rewrite C10, Hin. done.
    + by apply (stored_range s x (view s) data (f_off y) r x' (view s')).
    + by apply (wt_disk _ _ _ _ _ _ _ _ St).
  - destruct Hfull as [->|Hfull]; [by left|right]. intros b Hb. destruct (bblock_eq s b L Hb) as [_ Rb'].
    unfold used. rewrite C15; [by apply Hfull|]. intros Hlog. apply (ly_log s L) in Hlog. lia.
  - rewrite C13. apply list_lookup_insert_eq. by eapply lookup_lt_Some.
  - intros g Hg. rewrite C13. by apply list_lookup_insert_ne.
Qed.
Lemma piece_none s f y ip x : at_rest c cur p s -> inode_rest s ip x -> fs_ftable (k_files s) !! f = Some y -> f_off y <= i_size x ->
  piece_done s f y ip x [] 0 x s.
Proof using.
  intros R I Hy Hoff. split; try done; [|by left|].
  - apply stored_none; [apply I|apply R|done|apply I].
  - rewrite Hy, Z.add_0_r. by destruct y.
Qed.
Lemma piece_take s f y ip x data m r x' s' : r <= Z.of_nat m -> (m <= length data)%nat -> r < Z.of_nat m ->
  piece_done s f y ip x (take m data) r x' s' -> piece_done s f y ip x data r x' s'.
Proof using.
  intros Hr Hm Hlt [A1 A2 A3 A4 A5 A6 A7 A8]. split; try done; [by apply (stored_take _ _ _ _ _ _ _ _ m)|].
  right. destruct A4 as [E|]; [|done]. rewrite length_take_le in E by done. lia.
Qed.
Lemma piece_trans s f y ip x data m x1 s1 r x2 s2 : 0 <= f_off y -> (m <= length data)%nat -> 0 <= r <= Z.of_nat (length data - m) ->
  piece_done s f y ip x (take m data) (Z.of_nat m) x1 s1 ->
  piece_done s1 f (y <| f_off := f_off y + Z.of_nat m |>) ip x1 (drop m data) r x2 s2 ->
  piece_done s f y ip x data (Z.of_nat m + r) x2 s2.
Proof using.
  intros Hoff Hm Hr [A1 A2 A3 A4 A5 A6 A7 A8] [B1 B2 B3 B4 B5 B6 B7 B8]. rewrite A6 in B3, B4. split; try done.
  - apply (stored_trans _ x (view s) data (f_off y) (Z.of_nat m) x1 (view s1)); [lia..| |by rewrite Nat2Z.id].
    by apply (stored_take _ _ _ _ _ _ _ _ m).
  - destruct B4 as [->|B4]; [left; rewrite length_drop; lia|by right].
  - by rewrite B5.
  - by rewrite B6.
  - rewrite B7. simpl. by rewrite Z.add_assoc.
  - intros g Hg. by rewrite B8, A8.
Qed.

Lemma filewrite_loop_run addr n f ip fuel : forall s y x i rest, at_rest c cur p s -> inode_rest s ip x ->
  fs_ftable (k_files s) !! f = Some y -> from_user p kend (addr + i) rest (k_phys s) -> Z.of_nat (length rest) = n - i -> 0 <= i ->
  0 <= f_off y <= i_size x -> f_off y + (n - i) <= MAXFILE * BSIZE -> (1 <= fuel)%nat -> n - i <= (Z.of_nat fuel - 1) * write_max ->
  runs (filewrite_loop fuel f ip addr n i) s (fun v s' => exists r x', 0 <= r <= n - i /\ piece_done s f y ip x rest r x' s' /\
    i <= v <= n /\ (v = n <-> r = n - i)).
Proof.
  induction fuel as [|fuel IH]; intros s y x i rest R I Hy HJ Hlen Hi Hoff Hfit Hf Hfuel; [lia|]. cbn [filewrite_loop].
  destruct (Z.ltb_spec i n) as [Hlt|Hge].
  2: { apply runs_ret. destruct rest as [|? rest]; [|simpl in Hlen; lia]. exists 0, x. simpl in Hlen. split_and!; try lia.
       apply piece_none; [done|done|done|lia]. }
  assert (Hw : 0 < write_max) by done. set (n1 := Z.min (n - i) write_max). set (m := Z.to_nat n1).
  assert (Hm : (m <= length rest)%nat) by (unfold m; lia).
  assert (En : n1 = Z.of_nat (length (take m rest))) by (rewrite length_take_le by done; unfold m; lia).
  pose proof HJ as (J1 & J2 & J3 & J4 & J5). rewrite u64_small by lia. rewrite En.
  apply (write_piece _ _ s f y ip x (addr + i) (take m rest)); try done; [by apply from_user_take|lia|lia|].
  intros r x1 s1 Hr Hd. rewrite <- En in Hr |- *. destruct (Z.eqb_spec r n1) as [->|Hne]; cbn [negb].
  2: { apply runs_ret. exists r, x1. split; [lia|]. split; [|lia]. apply (piece_take s f y ip x rest m); [unfold m; lia|done|unfold m; lia|done]. }
  replace n1 with (Z.of_nat m) in Hd |- * by (unfold m; lia).
  pose proof (wt_size _ _ _ _ _ _ _ _ (pd_stored _ _ _ _ _ _ _ _ _ Hd)) as Hsz.
  eapply runs_conseq; [apply (IH s1 (y <| f_off := f_off y + Z.of_nat m |>) x1 (i + Z.of_nat m) (drop m rest)); try apply Hd; simpl|].
  - rewrite (pd_phys _ _ _ _ _ _ _ _ _ Hd), Z.add_assoc. by apply from_user_drop.
  - rewrite length_drop. lia.
  - lia.
  - lia.
  - lia.
  - destruct fuel; [|lia]. simpl in Hfuel. lia.
  - unfold m. destruct (Z.min_spec (n - i) write_max) as [[K E]|[K E]]; fold n1 in E; [|lia].
    destruct fuel as [|fuel]; [simpl in Hfuel; lia|]. rewrite Z2Nat.id by lia. assert (0 <= (Z.of_nat (S fuel) - 1) * write_max) by nia. lia.
  - intros v s' (r & x' & Hr2 & Hd2 & Hv & Hiff). exists (Z.of_nat m + r), x'. split; [unfold m in *; lia|].
    split; [by apply (piece_trans s f y ip x rest m x1 s1); [lia|done|lia|..]|lia].
Qed.

(** ** The whole call *)

Lemma filewrite_run s f y ip x addr n : at_rest c cur p s -> inode_rest s ip x -> fs_ftable (k_files s) !! f = Some y ->
  f_type y = FD_INODE -> f_ip y = Some ip -> f_writable y <> 0 ->
  user_space kend (p_pagetable p) (k_phys s) -> uaccess (p_pagetable p) (k_phys s) addr n -> 0 <= addr -> addr + n < 2 ^ 64 ->
  0 <= n -> 0 <= f_off y <= i_size x -> f_off y + n <= MAXFILE * BSIZE ->
  exists r x' s', filewrite f addr n s = Ok (if r =? n then n else -1) s' /\ 0 <= r <= n /\
    piece_done s f y ip x (ubytes (p_pagetable p) (k_phys s) addr (Z.to_nat n)) r x' s'.
Proof.
  intros R I Hy Hty Hfi Hwr Hus Hacc Ha0 Ha1 Hn Hoff Hfit. set (data := ubytes _ _ _ _).
  assert (Hlen : length data = Z.to_nat n) by apply ubytes_length. assert (Hw : 0 < write_max) by done.
  pose proof (Z.div_mod n write_max ltac:(lia)). pose proof (Z.mod_pos_bound n write_max Hw). pose proof (Z.div_pos n write_max Hn Hw).
  pose proof (filewrite_loop_run addr n f ip (Z.to_nat (n / write_max) + 2) s y x 0 data R I Hy) as Hrun.
  rewrite Z.add_0_r, Z.sub_0_r in Hrun. specialize (Hrun ltac:(unfold from_user; rewrite Hlen, Z2Nat.id by lia; by split_and!)
    ltac:(lia) ltac:(lia) Hoff Hfit ltac:(lia) ltac:(rewrite Nat2Z.inj_add, Z2Nat.id by lia; lia)).
  apply runs_inv in Hrun as (v & s' & E & r & x' & Hr & Hd & Hv & Hiff). exists r, x', s'. split_and!; try lia; [|done].
  unfold filewrite. rewrite (bind_ok _ _ _ y s).
  2: { unfold file_get, fget. rewrite (bind_ok _ _ _ (fs_ftable (k_files s)) s) by done. by rewrite Hy. }
  destruct (Z.eqb_spec (f_writable y) 0); [done|]. rewrite Hty, Hfi. rewrite (bind_ok _ _ _ ip s) by done.
  rewrite (bind_ok _ _ _ _ _ E). unfold mret. f_equal. destruct (Z.eqb_spec v n), (Z.eqb_spec r n); (done || lia).
Qed.

(** ** Reading *)

Lemma readi_run s0 P V d s ip x dst off n : blocks c cur p s0 ∅ P V d s -> (size P < NBUF)%nat -> file_ok (sblock s0) x V ->
  fs_itable (k_files s0) !! ip = Some x -> user_space kend (p_pagetable p) (k_phys s0) -> uaccess (p_pagetable p) (k_phys s0) dst n ->
  0 <= dst -> dst + n < 2 ^ 64 -> 0 <= n -> 0 <= off -> off + n < 2 ^ 32 ->
  let m := if i_size x <? off then 0 else Z.min n (i_size x - off) in
  exists s' ph, readi ip true dst off n s = Ok m s' /\ blocks c cur p (s0 <| k_phys := ph |>) ∅ P V d s' /\
    delivered (p_pagetable p) (k_phys s0) ph dst (fbytes x V off (Z.to_nat m)).
Proof using D DL B c cur p kend.
  intros T HP F Hx Hus Hacc Hd0 Hd1 Hn Hoff Hfit m. pose proof (fo_size _ _ _ F) as Hsz.
  assert (Hmax : MAXFILE * BSIZE < 2 ^ 31) by done.
  assert (Hm : 0 <= m <= n /\ m <= i_size x) by (unfold m; destruct (Z.ltb_spec (i_size x) off); lia).
  assert (HI : to_user p kend s0 dst dst [] s0).
  { split_and!; [simpl; lia|done|apply delivered_nil|by destruct s0]. }
  assert (Hsink : sink c cur p (out_addr true) (to_user p kend s0 dst) (Z.to_nat n)).
  { apply user_sink; [done|lia|]. by rewrite Z2Nat.id. }
  pose proof (readi_gen_tri c cur p (out_addr true) (to_user p kend s0 dst) (Z.to_nat n) Hsink P V d ip x s0 s dst off n
    T Hx HP F HI Hoff Hn Hfit) as Hrun. fold m in Hrun. specialize (Hrun ltac:(lia)).
  apply runs_inv in Hrun as ([m' dst'] & s' & E & dst2 & s0' & Er & (_ & _ & Hdel & Es) & _ & T'). injection Er as -> ->.
  exists s', (k_phys s0'). split_and!; [|by rewrite <- Es|done].
  unfold readi. rewrite (bind_ok _ _ _ _ _ E). unfold mret. by rewrite i32_small by lia.
Qed.

(** A descriptor at [off] on an inode that is at rest. *)
Record read_done s f y (ph : phys) r s' : Prop := {
  rd_rest : at_rest c cur p s';
  rd_phys : k_phys s' = ph;
  rd_files : sblock s' = sblock s /\ fs_itable (k_files s') = fs_itable (k_files s);
  rd_view : forall n, view s' n = view s n;
  rd_file : fs_ftable (k_files s') = <[f := y <| f_off := f_off y + r |>]> (fs_ftable (k_files s))
}.

Lemma fileread_run s f y ip x dst n : at_rest c cur p s -> inode_rest s ip x -> fs_ftable (k_files s) !! f = Some y ->
  f_type y = FD_INODE -> f_ip y = Some ip -> f_readable y <> 0 ->
  user_space kend (p_pagetable p) (k_phys s) -> uaccess (p_pagetable p) (k_phys s) dst n -> 0 <= dst -> dst + n < 2 ^ 64 ->
  0 <= n -> 0 <= f_off y -> f_off y + n < 2 ^ 32 ->
  let m := if i_size x <? f_off y then 0 else Z.min n (i_size x - f_off y) in
  exists s' ph, fileread f dst n s = Ok m s' /\ read_done s f y ph m s' /\
    delivered (p_pagetable p) (k_phys s) ph dst (fbytes x (view s) (f_off y) (Z.to_nat m)).
Proof using D DL B c cur p kend.
  intros R I Hy Hty Hfi Hrd Hus Hacc Hd0 Hd1 Hn Hoff Hfit m.
  destruct R as [Rc Rp Rb Rl Ro Rm L R1 Rr M Ru]. destruct I as [Ie Il Ir Iv (l & Hl & Hfree) If Ia Ig Id].
  assert (Hm : 0 <= m <= n) by (unfold m; pose proof (fo_size _ _ _ If); destruct (Z.ltb_spec (i_size x) (f_off y)); lia).
  unfold fileread. rewrite (bind_ok _ _ _ y s).
  2: { unfold file_get, fget. rewrite (bind_ok _ _ _ (fs_ftable (k_files s)) s) by done. by rewrite Hy. }
  destruct (Z.eqb_spec (f_readable y) 0); [done|]. rewrite Hty, Hfi. rewrite (bind_ok _ _ _ ip s) by done.
  pose proof (ilock_run s c cur p ip x l Rc Rp Il Ie Ir Iv Hl Hfree) as E1. rewrite (bind_ok _ _ _ _ _ E1).
  set (l1 := l <| sl_locked := 1 |> <| sl_pid := p_pid p |>). set (s1 := set_sleep s _ l1). rewrite u32_small by lia.
  assert (Hib : (NBUF <= inode_lock ip)%nat) by (unfold inode_lock; lia).
  assert (B1 : blocks c cur p s1 ∅ ∅ (view s) (fs_disk (k_files s)) s1).
  { apply (blocks_start c cur p s1 ∅ ∅); [by apply (calm_data s)|done|by apply binv_isleep]. }
  destruct (readi_run s1 ∅ (view s) _ s1 ip x dst (f_off y) n B1) as (s2 & ph & E2 & B2 & Hdel); try done.
  { rewrite size_empty. change NBUF with 30%nat. lia. }
  fold m in E2, Hdel. rewrite (bind_ok _ _ _ _ _ E2). destruct B2 as [Hc2 Hp2 Hb2 HV2 Hd2 Hf2].
  destruct Hf2 as [F1 F2 F3 F4 F5 (F6 & F7 & F8 & F9 & F10) F11 F12]. simpl in F2, F6, F7, F8, F9, F12.
  rewrite (bind_ok _ _ _ _ _ (file_set_run f y m s2 ltac:(by rewrite F9) ltac:(lia) ltac:(lia))). set (s3 := s2 <| k_files ::= _ |>).
  assert (Hl3 : fs_sleep (k_files s3) !! inode_lock ip = Some l1).
  { simpl. rewrite F11 by done. simpl. apply list_lookup_insert_eq. by eapply lookup_lt_Some. }
  rewrite (bind_ok _ _ _ _ _ (iunlock_run s3 c cur p ip x l1 ltac:(by apply (calm_data s2)) Hp2 Il ltac:(simpl; by rewrite F8) Ir Hl3 eq_refl eq_refl)).
  eexists _, ph. split; [reflexivity|]. split; [|done]. set (s4 := set_sleep s3 _ _ <| k_procs := _ |>).
  assert (Esb : sblock s4 = sblock s) by exact F7. assert (El : fs_log (k_files s4) = fs_log (k_files s)) by exact F6.
  assert (HV4 : forall b, view s4 b = view s b) by exact HV2.
  destruct (same_layout s s4 L Esb ltac:(by rewrite El) ltac:(by rewrite El)) as [L4 _].
  assert (Hon : ondisk s4 (l_start (fs_log (k_files s))) = ondisk s (l_start (fs_log (k_files s)))).
  { unfold ondisk. change (fs_disk (k_files s4)) with (fs_disk (k_files s2)). by rewrite Hd2. }
  split; try done.
  - split; rewrite ?El, ?Esb; try done.
    + apply (calm_data s2); [done|done|simpl; apply length_wakes].
    + simpl. by rewrite wakes_cur.
    + apply (binv_frame (set_sleep s3 (inode_lock ip) (l1 <| sl_locked := 0 |> <| sl_pid := 0 |>))); [|done..].
      apply binv_isleep; [|done]. by apply (binv_frame s2).
    + destruct Rl as [A1 A2 A3 A4]. split; rewrite ?El; try done. by rewrite Hon.
    + unfold logsize. rewrite El. exact Rr.
    + intros b Hb. unfold used. rewrite HV4. by apply M.
    + simpl. by rewrite F12.
  - simpl. by rewrite F9.
Qed.
End piece.
