(* ===== verification/FsExample.v ===== *)
(** * An example file system

    A disk of 1000 blocks whose first 46 are in use, with an empty file that a process has
    open through two descriptors: the state on which the theorems about the file system are
    instantiated. *)

From S2P Require Import Prelude Riscv CString Kalloc Vm Uvm UvmProps Spinlock Proc ProcSpec Headers Codec Sleeplock.
From S2P Require Import Uart Printf Bio BioSpec Bcache Example PipeSpec ConsoleSpec Log Blocks LogSpec Crash LogOps.
From S2P Require Import Fs FsTx Balloc Bmap Content Dinode Writei FileProps File FileWrite.

(** The bitmap with the bits of blocks 0 to 45 set. *)
Definition ex_bitmap : list Z := [255; 255; 255; 255; 255; 63] ++ replicate 1018 0.
Definition ex_inode : inode := Inode ROOTDEV 5 2 1 T_FILE 0 0 1 0 (replicate 13 0).
Definition ex_iblock : list Z := store_dinode block0 (di_off 5) ex_inode.
Definition ex_disk : gmap Z (list Z) := {[45 := ex_bitmap; 32 := ex_iblock]}.
Definition ex_file : file := File FD_INODE 1 1 1 0 (Some 3%nat) 0 0.
Definition ex_files : files :=
  fs_files ex_disk <| fs_itable ::= insert 3%nat ex_inode |> <| fs_ftable ::= fun t => <[0%nat := ex_file]> (<[1%nat := ex_file]> t) |>.
Definition ex_kern : kern :=
  KState fs_mach ex_s1 (pipe_proc :: replicate (NPROC - 1) proc0) (Some 0%nat) 2 10 37 (replicate 5 mlfq0) ex_files.
Notation ex_hart_cpu := (ex_cpu (Some 0%nat)).

Lemma ex_range : inode_range ex_inode.
Proof. split; unfold T_FILE; simpl; unfold T_FILE; try lia. split; [done|]. apply (bool_decide_unpack _). vm_compute. exact I. Qed.
Lemma ex_image_wf : disk_wf ex_disk.
Proof.
  intros n v Hn. unfold ex_disk in Hn. apply lookup_insert_Some in Hn as [[<- <-]|[_ Hn]]; [done|].
  apply lookup_singleton_Some in Hn as [<- <-]. unfold ex_iblock. by rewrite length_store.
Qed.
Lemma ex_binv : binv ex_kern pipe_proc ∅ ∅.
Proof. apply (binv_frame (fs_kern (fs_files ex_disk))); [|done..]. apply fs_binv, ex_image_wf. Qed.
Lemma ex_calm : calm ex_kern ex_hart_cpu 0 [].
Proof.
  split; try done.
  - simpl. lia.
  - simpl. unfold NPROC. lia.
  - intros l Hl _. by apply fs_lock_free.
Qed.
Lemma ex_view n : view ex_kern n = dblock ex_disk n.
Proof. by rewrite (binv_clean ex_kern pipe_proc ∅ ∅ n ex_binv) by set_solver. Qed.
Lemma ex_view_bitmap : view ex_kern 45 = ex_bitmap.
Proof. by rewrite ex_view. Qed.
Lemma ex_view_inode : view ex_kern 32 = ex_iblock.
Proof. rewrite ex_view. unfold dblock, ex_disk. by rewrite lookup_insert_ne, lookup_singleton_eq by done. Qed.
Lemma ex_log : log_inv ex_kern ∅.
Proof. split; [|by constructor|done|]. { by split. } done. Qed.
Lemma ex_layout : layout ex_kern.
Proof.
  split; try done. intros n. unfold in_log, log_area. simpl. lia.
Qed.
Lemma ex_bit n : 0 <= n < 1000 -> used sb0 (view ex_kern) n = negb (bit_free ex_bitmap n).
Proof.
  intros Hn. unfold used. destruct (bblock_eq ex_kern n ex_layout Hn) as [E _]. change (sblock ex_kern) with sb0 in E. rewrite E.
  unfold BPB, BSIZE. rewrite Z.div_small, Z.mod_small by lia. change (0 + sb_bmapstart sb0) with 45. by rewrite ex_view_bitmap.
Qed.
Lemma ex_meta : meta_used sb0 (view ex_kern).
Proof.
  intros n Hn. change (datastart sb0) with 46 in Hn. rewrite ex_bit by lia.
  assert (HF : Forall (fun n => negb (bit_free ex_bitmap n) = true) (seqZ 0 46)) by (apply (bool_decide_unpack _); vm_compute; exact I).
  rewrite Forall_forall in HF. apply HF, elem_of_seqZ. lia.
Qed.
Lemma ex_free : used sb0 (view ex_kern) 46 = false.
Proof. by rewrite ex_bit by lia. Qed.
Lemma ex_rest : at_rest ex_hart_cpu 0 pipe_proc ex_kern.
Proof. split; try done; [apply ex_calm|apply ex_binv|apply ex_log|apply ex_layout|apply ex_meta]. Qed.

(** A file without blocks. *)
Lemma empty_file sb V : file_ok sb ex_inode V.
Proof.
  assert (Hz : forall i, slot_addr ex_inode V i = 0).
  { intros i. unfold slot_addr. destruct (i <=? 12)%nat; [|done]. change (i_addrs ex_inode) with (replicate 13 0).
    do 13 (destruct i as [|i]; [done|]). by destruct i. }
  split; [|done|].
  - split; try done; intros i; [by rewrite Hz|]. intros j _ _ _. by rewrite Hz.
  - intros k Hk Hs. simpl in Hs. unfold BSIZE in Hs. lia.
Qed.
Lemma ex_area : inode_area ex_kern 5.
Proof. unfold inode_area, in_log, log_area. change (IBLOCK 5 (sblock ex_kern)) with 32. simpl. lia. Qed.
Lemma ex_inode_rest : inode_rest ex_kern 3 ex_inode.
Proof.
  split; try done; [unfold NINODE; lia| |apply empty_file|apply ex_area|apply ex_range].
  exists sleeplock0. split; reflexivity.
Qed.
(** The same inside an operation. *)
Definition ex_tx_kern : kern := set_log ex_kern (fun l => l <| l_outstanding := 1 |>).
Lemma ex_tx : tx ex_hart_cpu 0 pipe_proc ex_tx_kern ∅ ∅ (view ex_kern) ex_tx_kern.
Proof.
  apply (tx_start ex_hart_cpu 0 pipe_proc ex_tx_kern); [by apply (calm_data ex_kern); [apply ex_calm|..]|done| | |done].
  - apply (binv_frame ex_kern); [apply ex_binv|done..].
  - destruct ex_log as [[] ? ? ?]. by split.
Qed.
Lemma ex_tx_layout : layout ex_tx_kern.
Proof. by destruct ex_layout. Qed.
