(* ===== verification/FsProps.v ===== *)
(** * What the file system guarantees

    The properties of block allocation and of reading and writing files, stated for whole
    functions of kernel/fs.c, with a concrete kernel on which each applies. *)

From S2P Require Import Prelude Riscv CString Kalloc Vm Uvm UvmProps Spinlock Proc ProcSpec Headers Codec Sleeplock.
From S2P Require Import Uart Printf Bio BioSpec Bcache Example PipeSpec ConsoleSpec Log Blocks LogSpec Crash LogOps.
From S2P Require Import Fs FsTx Balloc Bmap Content Dinode Writei FileProps File FileWrite FsExample.

(** C19. balloc returns the first free block of the disk: it marks the block and no other as
    used, gives it to the caller zeroed, and records the bitmap block and the new block in
    the log.  If every block is in use it prints a message, returns 0 and changes nothing. *)
Theorem balloc_fresh `{DiskLaws} `{Board} c cur p s0 hs P V s : (forall u, next_idle u = true) ->
  tx c cur p s0 hs P V s -> layout s0 -> quiet (sblock s0) V hs -> meta_used (sblock s0) V -> reserve s0 P 1 ->
  u_idle (fs_uart (k_files s0)) = true -> let sb := sblock s0 in
  exists a s', balloc ROOTDEV s = Ok a s' /\
    ((a = 0 /\ disk_full sb V /\
      tx c cur p (sent (format NO_BLOCKS []) s0) hs P V s') \/
     (datastart sb <= a < sb_size sb /\ used sb V a = false /\ (forall n, 0 <= n < a -> used sb V n = true) /\
      exists V', tx c cur p s0 hs ({[a]} ∪ ({[BBLOCK a sb]} ∪ P)) V' s' /\ V' a = block0 /\
        (forall n, 0 <= n < sb_size sb -> used sb V' n = if decide (n = a) then true else used sb V n) /\
        (forall n, n <> a -> n <> BBLOCK a sb -> V' n = V n))).
Proof.
  intros Hidle T L Q HM Hroom Hid sb. pose proof (balloc_tx Hidle c cur p s0 hs P V s T L Q HM Hroom Hid) as Hrun.
  assert (HV : forall n, length (V n) = Z.to_nat BSIZE) by (intros n; exact (tx_len c cur p _ _ _ _ _ n T)).
  apply runs_inv in Hrun as (a & s' & E & [HA|(Ha & Hf & Hlow & T')]); exists a, s'; (split; [exact E|]); [by left|].
  right. split; [done|]. split; [done|]. split; [done|]. exists (alloc sb V a). split; [done|]. split_and!.
  - unfold alloc. by rewrite bset_eq.
  - intros n Hn. by apply used_alloc.
  - intros n K1 K2. unfold alloc. by rewrite !bset_ne by done.
Qed.

(** bfree gives a block back: the block and no other becomes free, and the bitmap block is
    recorded in the log.  Freeing a block that is free is caught with a panic. *)
Theorem bfree_frees `{DiskLaws} c cur p s0 hs P V s n : tx c cur p s0 hs P V s -> layout s0 -> (size hs <= 1)%nat ->
  hs !! BBLOCK n (sblock s0) = None -> 0 <= n < sb_size (sblock s0) -> room s0 P 1 -> let sb := sblock s0 in
  if used sb V n then
    exists s' V', bfree ROOTDEV n s = Ok tt s' /\ tx c cur p s0 hs ({[BBLOCK n sb]} ∪ P) V' s' /\
      (forall b, 0 <= b < sb_size sb -> used sb V' b = if decide (b = n) then false else used sb V b) /\
      (forall b, b <> BBLOCK n sb -> V' b = V b)
  else bfree ROOTDEV n s = Err (Panic "freeing free block").
Proof.
  intros T L Hh Hn Hr Hroom sb. pose proof (bfree_tx c cur p s0 hs P V s n T L Hh Hn Hr Hroom) as Hrun. fold sb in Hrun.
  destruct (used sb V n); [|done]. apply runs_inv in Hrun as ([] & s' & E & T'). exists s', (release_block sb V n).
  split; [exact E|]. split; [done|]. split.
  - intros b Hb. apply (used_release s0); try done. intros k. exact (tx_len c cur p _ _ _ _ _ k T).
  - intros b Hb. by apply bset_ne.
Qed.

(** C7. writei stores the user's bytes.  Inside a transaction with room in the log, a write of
    [n] bytes at an offset up to the end of the file stores them, grows the file if it has
    to, and updates the disk inode; it stores fewer only if the disk is full.  The bytes of
    the file outside the range, every other file, the other disk inodes and the metadata
    keep their content.  A write past the end or past the maximal size returns -1. *)
Theorem writei_stores `{DiskLaws} `{Board} kend c cur p s0 P V s ip x src off n : (forall u, next_idle u = true) ->
  tx c cur p s0 ∅ P V s -> layout s0 -> meta_used (sblock s0) V -> file_ok (sblock s0) x V -> inode_area s0 (i_inum x) ->
  inode_range x -> fs_itable (k_files s0) !! ip = Some x -> u_idle (fs_uart (k_files s0)) = true ->
  user_space kend (p_pagetable p) (k_phys s0) -> uaccess (p_pagetable p) (k_phys s0) src n -> 0 <= src -> src + n < 2 ^ 64 ->
  0 <= n -> 0 <= off -> off + n < 2 ^ 32 -> reserve s0 P (2 * spans off n + 1) ->
  let sb := sblock s0 in let data := ubytes (p_pagetable p) (k_phys s0) src (Z.to_nat n) in
  if (i_size x <? off) || (MAXFILE * BSIZE <? off + n) then writei ip true src off n s = Ok (-1) s
  else exists r s' x' V' P' out, writei ip true src off n s = Ok r s' /\ tx c cur p (upd s0 ip x' out) ∅ P' V' s' /\
    written sb x V data off r x' V' /\ 0 <= r <= n /\ (r = n \/ disk_full sb V').
Proof.
  intros Hidle T L HM F Ha Hr Hx Hid Hus Hacc Hs0 Hs1 Hn Hoff Hfit Hroom sb data.
  assert (Hlen : Z.of_nat (length data) = n) by (unfold data; rewrite ubytes_length; lia).
  destruct (Z.ltb_spec (i_size x) off) as [K1|K1]; [|destruct (Z.ltb_spec (MAXFILE * BSIZE) (off + n)) as [K2|K2]]; cbn [orb].
  1, 2: unfold writei, writei_gen;
    pose proof (inode_get_tx c cur p i_size s0 ∅ P V s ip x T Hx) as Hg; apply runs_inv in Hg as (v & s' & Eg & -> & ->);
    rewrite (bind_ok _ _ _ _ _ Eg), u32_small by lia.
  - destruct (Z.ltb_spec (i_size x) off); [done|lia].
  - destruct (Z.ltb_spec (i_size x) off); [lia|]. destruct (Z.ltb_spec (off + n) off); [lia|]. cbn [orb].
    destruct (Z.ltb_spec (MAXFILE * BSIZE) (off + n)); [done|lia].
  - assert (HJ : from_user p kend src data (k_phys s0)).
    { split_and!; [done|lia|lia|by rewrite Hlen|]. unfold data. by rewrite ubytes_length. }
    pose proof (writei_gen_tx Hidle c cur p (inp_addr true) (from_user p kend) (user_source c cur p kend) s0 P V s ip x src data off
      T L HM F Ha Hr Hx Hid HJ) as Hrun. cbv zeta in Hrun. rewrite Hlen in Hrun.
    specialize (Hrun ltac:(lia) ltac:(lia) Hroom). apply runs_inv in Hrun as (r & s' & E & x' & V' & P' & out & js & T' & W & Hrr & Hend & _).
    exists r, s', x', V', P', out. done.
Qed.

(** readi delivers the file to the user.  It copies the bytes from the offset on to user
    memory, as many as were asked for and the file has, changes no other memory, and neither
    blocks nor inodes: it also works outside a transaction, on a well-formed file. *)
Theorem readi_delivers `{DiskLaws} `{Board} kend c cur p s0 P V d s ip x dst off n : blocks c cur p s0 ∅ P V d s ->
  (size P < NBUF)%nat -> file_ok (sblock s0) x V -> fs_itable (k_files s0) !! ip = Some x ->
  user_space kend (p_pagetable p) (k_phys s0) -> uaccess (p_pagetable p) (k_phys s0) dst n -> 0 <= dst -> dst + n < 2 ^ 64 ->
  0 <= n -> 0 <= off -> off + n < 2 ^ 32 ->
  let m := if i_size x <? off then 0 else Z.min n (i_size x - off) in
  exists s' ph, readi ip true dst off n s = Ok m s' /\ blocks c cur p (s0 <| k_phys := ph |>) ∅ P V d s' /\
    delivered (p_pagetable p) (k_phys s0) ph dst (fbytes x V off (Z.to_nat m)).
Proof.
  apply readi_run.
Qed.

(** ** The reservation of a write *)

Section fits.
Implicit Types (s : kern) (x : inode) (V : contents) (js : list Z).

(** With a single bitmap block. *)
Lemma touch_one s a : layout s -> sb_size (sblock s) <= BPB -> a = 0 \/ 0 <= a < sb_size (sblock s) ->
  touch (sblock s) a ⊆ {[sb_bmapstart (sblock s); a]}.
Proof.
  intros L Hs Ha. unfold touch. destruct (Z.eqb_spec a 0); [set_solver|]. destruct Ha as [|Ha]; [done|].
  destruct (bblock_eq s a L Ha) as [-> _]. rewrite Z.div_small by lia. rewrite Z.add_0_l. set_solver.
Qed.
Lemma pinset_size s x V js : layout s -> own_ok (sblock s) x V -> sb_size (sblock s) <= BPB -> Forall (fun j => 0 <= j < MAXFILE) js ->
  pinset (sblock s) x V js ⊆ {[sb_bmapstart (sblock s)]} ∪ ({[indirect x]} ∪ list_to_set (faddr x V <$> js)).
Proof.
  intros L [O1 O2 O3 O4] Hs Hjs. pose proof (datastart_pos s L) as Hp.
  assert (Hr : forall i, (i < NSLOT)%nat -> slot_addr x V i = 0 \/ 0 <= slot_addr x V i < sb_size (sblock s)).
  { intros i Hi. destruct (decide (slot_addr x V i = 0)) as [|Hne]; [by left|right]. destruct (O3 i Hi Hne). lia. }
  unfold pinset. apply union_least.
  - etransitivity; [apply touch_one; [done|done|exact (Hr 12%nat ltac:(unfold NSLOT; lia))]|]. set_solver.
  - induction Hjs as [|j js Hj _ IH]; [apply empty_subseteq|]. rewrite fmap_cons. cbn [union_list foldr].
    assert (Ht : touch (sblock s) (faddr x V j) ⊆ {[sb_bmapstart (sblock s); faddr x V j]}).
    { apply touch_one; [done|done|]. apply (Hr (slot_of_block j)). by apply slot_of_block_lt. }
    rewrite fmap_cons. cbn [list_to_set]. set_solver.
Qed.
Lemma size_list (l : list Z) : (size (list_to_set l : gset Z) <= length l)%nat.
Proof.
  induction l as [|a l IH]; [done|]. cbn [list_to_set length]. pose proof (size_add1 a (list_to_set l)). lia.
Qed.
Lemma size_union (X Y : gset Z) : (size (X ∪ Y) <= size X + size Y)%nat.
Proof. rewrite size_union_alt. pose proof (size_diff Y X). lia. Qed.
End fits.

(** C18. One chunk of filewrite fits the space begin_op reserves for it.  On a disk with one
    bitmap block, writei of at most (MAXOPBLOCKS-1-1-2)/2 blocks adds at most seven blocks
    to the log (the inode, the bitmap, the indirect block and four data blocks); room for the
    MAXOPBLOCKS of the reservation is enough for it to succeed: log_write never panics and
    all bytes are stored unless the disk is full. *)
Theorem write_fits_log `{DiskLaws} `{Board} kend c cur p s0 P V s ip x src off n : (forall u, next_idle u = true) ->
  tx c cur p s0 ∅ P V s -> layout s0 -> sb_size (sblock s0) <= BPB -> meta_used (sblock s0) V -> file_ok (sblock s0) x V ->
  inode_area s0 (i_inum x) -> inode_range x -> fs_itable (k_files s0) !! ip = Some x -> u_idle (fs_uart (k_files s0)) = true ->
  user_space kend (p_pagetable p) (k_phys s0) -> uaccess (p_pagetable p) (k_phys s0) src n -> 0 <= src -> src + n < 2 ^ 64 ->
  0 <= n <= write_max -> 0 <= off <= i_size x -> off + n <= MAXFILE * BSIZE -> Z.of_nat (size P) + MAXOPBLOCKS <= logsize s0 - 1 ->
  exists r s' P', writei ip true src off n s = Ok r s' /\ log_inv s' P' /\
    Z.of_nat (size P') <= Z.of_nat (size P) + 7 /\ (r = n \/ disk_full (sblock s0) (view s')).
Proof.
  intros Hidle T L Hone HM F Ha Hr Hx Hid Hus Hacc Hs0 Hs1 Hn Hoff Hfit Hroom.
  set (data := ubytes (p_pagetable p) (k_phys s0) src (Z.to_nat n)).
  assert (Hlen : Z.of_nat (length data) = n) by (unfold data; rewrite ubytes_length; lia).
  assert (HJ : from_user p kend src data (k_phys s0)).
  { split_and!; [done|lia|lia|by rewrite Hlen|]. unfold data. by rewrite ubytes_length. }
  pose proof (spans_max off n Hn) as Hsp.
  pose proof (writei_gen_tx Hidle c cur p (inp_addr true) (from_user p kend) (user_source c cur p kend) s0 P V s ip x src data off
    T L HM F Ha Hr Hx Hid HJ) as Hrun. cbv zeta in Hrun. rewrite Hlen in Hrun.
  specialize (Hrun ltac:(lia) ltac:(lia) ltac:(by apply reserve_write)).
  apply runs_inv in Hrun as (r & s' & E & x' & V' & P' & out & js & T' & W & _ & Hend & Hpin & Fjs & Hjs).
  exists r, s', P'. split; [exact E|]. split; [apply T'|]. split.
  2: { destruct Hend as [->|Hend]; [by left|right]. by apply (full_view _ _ _ _ _ _ _ _ _ T'). }
  pose proof (pinset_size s0 x' V' js L (fo_own _ _ _ (wt_file _ _ _ _ _ _ _ _ W)) Hone Fjs) as Hps.
  set (T1 := list_to_set (faddr x' V' <$> js) : gset Z) in *. set (ib := IBLOCK (i_inum x) (sblock s0)) in *.
  set (bm := sb_bmapstart (sblock s0)) in *. set (q := indirect x') in *.
  assert (Hsub : P' ⊆ {[ib]} ∪ ({[bm]} ∪ ({[q]} ∪ (P ∪ T1)))).
  { clear -Hpin Hps. revert Hpin Hps. generalize (pinset (sblock s0) x' V' js). clearbody ib bm q T1. set_solver. }
  apply subseteq_size in Hsub. pose proof (size_add1 ib ({[bm]} ∪ ({[q]} ∪ (P ∪ T1)))). pose proof (size_add1 bm ({[q]} ∪ (P ∪ T1))).
  pose proof (size_add1 q (P ∪ T1)). pose proof (size_union P T1). pose proof (size_list (faddr x' V' <$> js)) as Hl. fold T1 in Hl.
  rewrite length_fmap in Hl. lia.
Qed.

(** ** Whole system calls *)


(** C6. What a process writes to a file it can read back.  Two descriptors are open on the
    same inode at the same offset; after filewrite of [n] bytes through the first returned
    [n], fileread of [n] bytes through the second returns [n] and puts the same bytes into
    the user's memory. *)
Theorem write_read `{DiskLaws} `{Board} kend c cur p s f g y z ip x addr dst n : (forall u, next_idle u = true) ->
  at_rest c cur p s -> inode_rest s ip x -> f <> g -> fs_ftable (k_files s) !! f = Some y -> fs_ftable (k_files s) !! g = Some z ->
  f_type y = FD_INODE -> f_ip y = Some ip -> f_writable y <> 0 -> f_type z = FD_INODE -> f_ip z = Some ip -> f_readable z <> 0 ->
  f_off z = f_off y -> user_space kend (p_pagetable p) (k_phys s) ->
  uaccess (p_pagetable p) (k_phys s) addr n -> 0 <= addr -> addr + n < 2 ^ 64 ->
  uaccess (p_pagetable p) (k_phys s) dst n -> 0 <= dst -> dst + n < 2 ^ 64 ->
  0 <= n -> 0 <= f_off y <= i_size x -> f_off y + n <= MAXFILE * BSIZE ->
  exists v s', filewrite f addr n s = Ok v s' /\ (v = n -> exists s'', fileread g dst n s' = Ok n s'' /\
    ubytes (p_pagetable p) (k_phys s'') dst (Z.to_nat n) = ubytes (p_pagetable p) (k_phys s) addr (Z.to_nat n)).
Proof.
  intros Hidle R I Hfg Hy Hz Hty Hfi Hwr Htz Hfz Hrd Hzo Hus Hacc Ha0 Ha1 Haccd Hd0 Hd1 Hn Hoff Hfit.
  destruct (filewrite_run Hidle c cur p kend s f y ip x addr n R I Hy Hty Hfi Hwr Hus Hacc Ha0 Ha1 Hn Hoff Hfit)
    as (r & x' & s' & E & Hr & Hd). exists (if r =? n then n else -1), s'. split; [exact E|]. intros Ev.
  assert (r = n) as -> by (destruct (Z.eqb_spec r n); lia). clear Ev E. destruct Hd as [R' I' St _ Eph Esb _ Hot].
  pose proof (wt_size _ _ _ _ _ _ _ _ St) as Hsz. assert (Hmax : MAXFILE * BSIZE < 2 ^ 31) by done.
  destruct (fileread_run c cur p kend s' g z ip x' dst n R' I') as (s2 & ph & E2 & Hrd2 & Hdel & _);
    try done; try lia; [by rewrite Hot|by rewrite Eph|by rewrite Eph|].
  replace (if i_size x' <? f_off z then 0 else Z.min n (i_size x' - f_off z)) with n in E2, Hdel
    by (destruct (Z.ltb_spec (i_size x') (f_off z)); lia).
  exists s2. split; [exact E2|]. rewrite (rd_phys _ _ _ _ _ _ _ _ _ Hrd2). rewrite length_fbytes in Hdel. rewrite Hdel.
  set (data := ubytes _ _ _ _) in *. apply list_eq. intros i. destruct (decide (i < Z.to_nat n)%nat) as [Hi|Hi].
  - rewrite fbytes_lookup by done. rewrite (wt_bytes _ _ _ _ _ _ _ _ St), Hzo by lia. rewrite decide_True by lia.
    replace (Z.to_nat (f_off y + Z.of_nat i - f_off y)) with i by lia.
    destruct (lookup_lt_is_Some_2 data i) as [v Hv]; [unfold data; by rewrite ubytes_length|]. by rewrite Hv.
  - rewrite !lookup_ge_None_2; [done|unfold data; rewrite ubytes_length; lia|rewrite length_fbytes; lia].
Qed.

(** ** Instances *)

Lemma balloc_fresh_witness : exists a s', balloc (H := ideal_disk) (H0 := ex_board) ROOTDEV ex_tx_kern = Ok a s' /\ a = 46.
Proof.
  destruct (balloc_fresh (H := ideal_disk) (H0 := ideal_laws) (H1 := ex_board) ex_hart_cpu 0 pipe_proc ex_tx_kern ∅ ∅ (view ex_kern) ex_tx_kern
    (fun _ => eq_refl) ex_tx ex_tx_layout (quiet_none _ _) ex_meta ltac:(unfold reserve; vm_compute; congruence) eq_refl)
    as (a & s' & E & [(_ & Hf & _)|(Ha & Hu & Hlow & _)]).
  - pose proof (Hf 46 ltac:(simpl; lia)) as K. change (sblock ex_tx_kern) with sb0 in K. by rewrite ex_free in K.
  - exists a, s'. split; [exact E|]. change (datastart (sblock ex_tx_kern)) with 46 in Ha.
    destruct (Z.ltb_spec 46 a); [|lia]. pose proof (Hlow 46 ltac:(lia)) as K. change (sblock ex_tx_kern) with sb0 in K. by rewrite ex_free in K.
Defined.
Lemma bfree_frees_witness : bfree (H := ideal_disk) ROOTDEV 46 ex_tx_kern = Err (Panic "freeing free block") /\
  exists s', bfree (H := ideal_disk) ROOTDEV 45 ex_tx_kern = Ok tt s'.
Proof.
  split.
  - pose proof (bfree_frees (H := ideal_disk) (H0 := ideal_laws) ex_hart_cpu 0 pipe_proc ex_tx_kern ∅ ∅ (view ex_kern) ex_tx_kern 46
      ex_tx ex_tx_layout ltac:(rewrite map_size_empty; lia) eq_refl ltac:(simpl; lia) ltac:(unfold room; vm_compute; congruence)) as K.
    cbv zeta in K. change (sblock ex_tx_kern) with sb0 in K. by rewrite ex_free in K.
  - pose proof (bfree_frees (H := ideal_disk) (H0 := ideal_laws) ex_hart_cpu 0 pipe_proc ex_tx_kern ∅ ∅ (view ex_kern) ex_tx_kern 45
      ex_tx ex_tx_layout ltac:(rewrite map_size_empty; lia) eq_refl ltac:(simpl; lia) ltac:(unfold room; vm_compute; congruence)) as K.
    cbv zeta in K. change (sblock ex_tx_kern) with sb0 in K. rewrite ex_meta in K by (change (datastart sb0) with 46; lia).
    destruct K as (s' & _ & E & _). by exists s'.
Defined.
Lemma writei_stores_witness : exists r s', writei (H := ideal_disk) (H0 := ex_board) 3 true 4090 0 20 ex_tx_kern = Ok r s' /\ 0 <= r <= 20.
Proof.
  destruct (writei_stores (H := ideal_disk) (H0 := ideal_laws) (H1 := ex_board) ex_kend ex_hart_cpu 0 pipe_proc ex_tx_kern ∅ (view ex_kern) ex_tx_kern
    3 ex_inode 4090 0 20 (fun _ => eq_refl) ex_tx ex_tx_layout ex_meta (empty_file _ _) ex_area ex_range eq_refl eq_refl ex_user_space
    (ex_uaccess 4090 20 ltac:(lia) ltac:(lia)) ltac:(lia) ltac:(lia) ltac:(lia) ltac:(lia) ltac:(lia)
    ltac:(unfold reserve; vm_compute; congruence)) as (r & s' & x' & V' & P' & out & E & _ & _ & Hr & _).
  exists r, s'. split; [exact E|exact Hr].
Defined.
Lemma readi_delivers_witness : exists s', readi (H := ideal_disk) (H0 := ex_board) 3 true 4090 0 20 ex_tx_kern = Ok 0 s'.
Proof.
  destruct (readi_delivers (H := ideal_disk) (H0 := ideal_laws) (H1 := ex_board) ex_kend ex_hart_cpu 0 pipe_proc ex_tx_kern ∅ (view ex_kern)
    (fs_disk (k_files ex_tx_kern)) ex_tx_kern 3 ex_inode 4090 0 20 (tx_blocks _ _ _ _ _ _ _ _ ex_tx) ltac:(rewrite size_empty; apply Nat.ltb_lt; reflexivity)
    (empty_file _ _) eq_refl ex_user_space (ex_uaccess 4090 20 ltac:(lia) ltac:(lia)) ltac:(lia) ltac:(lia) ltac:(lia) ltac:(lia) ltac:(lia))
    as (s' & ph & E & _). exists s'. exact E.
Defined.
Lemma write_fits_log_witness : exists r s' P', writei (H := ideal_disk) (H0 := ex_board) 3 true 100 0 write_max ex_tx_kern = Ok r s' /\
  log_inv s' P' /\ Z.of_nat (size P') <= 7.
Proof.
  destruct (write_fits_log (H := ideal_disk) (H0 := ideal_laws) (H1 := ex_board) ex_kend ex_hart_cpu 0 pipe_proc ex_tx_kern ∅ (view ex_kern) ex_tx_kern
    3 ex_inode 100 0 write_max (fun _ => eq_refl) ex_tx ex_tx_layout ltac:(done) ex_meta (empty_file _ _) ex_area ex_range eq_refl eq_refl ex_user_space
    (ex_uaccess 100 write_max ltac:(lia) ltac:(vm_compute; congruence)) ltac:(lia) ltac:(vm_compute; reflexivity)
    ltac:(vm_compute; split; congruence) ltac:(simpl; lia) ltac:(vm_compute; congruence) ltac:(vm_compute; congruence))
    as (r & s' & P' & E & Hl & Hs & _).
  exists r, s', P'. split; [exact E|]. split; [exact Hl|]. exact Hs.
Defined.
Lemma write_read_witness : exists v s', filewrite (H := ideal_disk) (H0 := ex_board) 0 4090 20 ex_kern = Ok v s' /\
  (v = 20 -> exists s'', fileread (H := ideal_disk) (H0 := ex_board) 1 100 20 s' = Ok 20 s'').
Proof.
  destruct (write_read (H := ideal_disk) (H0 := ideal_laws) (H1 := ex_board) ex_kend ex_hart_cpu 0 pipe_proc ex_kern 0 1 ex_file ex_file 3 ex_inode
    4090 100 20 (fun _ => eq_refl) ex_rest ex_inode_rest ltac:(done) eq_refl eq_refl eq_refl eq_refl ltac:(done) eq_refl eq_refl ltac:(done) eq_refl
    ex_user_space (ex_uaccess 4090 20 ltac:(lia) ltac:(lia)) ltac:(lia) ltac:(lia) (ex_uaccess 100 20 ltac:(lia) ltac:(lia)) ltac:(lia) ltac:(lia)
    ltac:(lia) ltac:(simpl; lia) ltac:(vm_compute; congruence)) as (v & s' & E & K).
  exists v, s'. split; [exact E|]. intros Ev. destruct (K Ev) as (s'' & E2 & _). by exists s''.
Defined.
