(* ===== verification/Mkfs.v ===== *)
(** * The image builder: mkfs/mkfs.c

    mkfs runs on the host, which is taken to be little-endian, as its use of the superblock
    through IBLOCK requires.  The image file is a map from sectors to blocks; a read past its
    end fails.  struct dinode is represented by the kernel's [inode], whose first four fields
    are not on the disk.  Of a file given on the command line the model has its name and what
    successive calls of read return, or [None] if it cannot be opened.  The messages mkfs
    prints are left out. *)

From S2P Require Import Prelude Riscv CString Kalloc Vm Spinlock Proc Headers Codec Sleeplock Bio Log Fs.

Record image := Image { im_sect : gmap Z (list Z); freeinode : Z; freeblock : Z }.
#[export] Instance image_eta : Eta image := fun i => Image (im_sect i) (freeinode i) (freeblock i).

(** The integer whose bytes in memory are those of [x], least significant first. *)
Definition xshort (x : Z) : Z := Z.lor (u8 x) (Z.shiftl (u8 (Z.shiftr x 8)) 8).
Definition xint (x : Z) : Z :=
  Z.lor (Z.lor (u8 x) (Z.shiftl (u8 (Z.shiftr x 8)) 8))
    (Z.lor (Z.shiftl (u8 (Z.shiftr x 16)) 16) (Z.shiftl (u8 (Z.shiftr x 24)) 24)).

Definition NINODES : Z := 200.
Definition nbitmap : Z := FSSIZE / (BSIZE * 8) + 1.
Definition ninodeblocks : Z := NINODES / IPB + 1.
Definition nlog : Z := LOGSIZE.
Definition nmeta : Z := 2 + nlog + ninodeblocks + nbitmap.
Definition nblocks : Z := FSSIZE - nmeta.
Definition sb : superblock :=
  Superblock FSMAGIC (xint FSSIZE) (xint nblocks) (xint NINODES) (xint nlog) (xint 2) (xint (2 + nlog))
    (xint (2 + nlog + ninodeblocks)).
Definition zeroes : list Z := replicate (Z.to_nat BSIZE) 0.
(** memmove(buf, &sb, sizeof(sb)) into a cleared block *)
Definition sb_bytes (s : superblock) : list Z :=
  let ws := [sb_magic s; sb_size s; sb_nblocks s; sb_ninodes s; sb_nlog s; sb_logstart s; sb_inodestart s; sb_bmapstart s] in
  list_inserts 0 (mjoin (le_bytes 4 <$> ws)) zeroes.

Definition die {A} (msg : string) : M image A := panic msg.
Definition assert_that (b : bool) : M image unit := if b then mret tt else panic "assert".

Definition wsect (sec : Z) (buf : list Z) : M image unit := modify (fun i => i <| im_sect ::= insert sec buf |>).
Definition rsect (sec : Z) : M image (list Z) :=
  b <- gets (fun i => im_sect i !! sec) ;;
  match b with Some buf => mret buf | None => die "read" end.

Definition winode (inum : Z) (ip : inode) : M image unit :=
  let bn := IBLOCK inum sb in
  buf <- rsect bn ;;
  wsect bn (store_dinode buf (di_off inum) ip).
Definition rinode (inum : Z) : M image inode :=
  let bn := IBLOCK inum sb in
  buf <- rsect bn ;;
  mret (load_dinode buf (di_off inum) (inode0 <| i_dev := ROOTDEV |> <| i_inum := inum |>)).

Definition ialloc (type : Z) : M image Z :=
  inum <- gets freeinode ;;
  modify (fun i => i <| freeinode := u32 (inum + 1) |>) ;;;
  winode inum (inode0 <| i_dev := ROOTDEV |> <| i_inum := inum |>
                 <| i_type := i16 (xshort type) |> <| i_nlink := i16 (xshort 1) |> <| i_size := xint 0 |>) ;;;
  mret inum.

(** [freeblock++] *)
Definition next_block : M image Z :=
  b <- gets freeblock ;;
  modify (fun i => i <| freeblock := u32 (b + 1) |>) ;;;
  mret b.

Definition set_bit (buf : list Z) (i : nat) : list Z :=
  <[(i / 8)%nat := Z.lor (nth (i / 8)%nat buf 0) (Z.shiftl 1 (Z.of_nat i mod 8))]> buf.
Definition balloc (used : Z) : M image unit :=
  assert_that (used <? BSIZE * 8) ;;;
  wsect (sb_bmapstart sb) (foldl set_bit zeroes (seq 0 (Z.to_nat used))).

(** The block for file block [fbn], allocated if the inode has none. *)
Definition iappend_block (din : inode) (fbn : Z) : M image (inode * Z) :=
  if fbn <? NDIRECT then
    din <- (if xint (nth (Z.to_nat fbn) (i_addrs din) 0) =? 0 then
              b <- next_block ;;
              mret (din <| i_addrs ::= insert (Z.to_nat fbn) (xint b) |>)
            else mret din) ;;
    mret (din, xint (nth (Z.to_nat fbn) (i_addrs din) 0))
  else
    din <- (if xint (nth 12 (i_addrs din) 0) =? 0 then
              b <- next_block ;;
              mret (din <| i_addrs ::= insert 12%nat (xint b) |>)
            else mret din) ;;
    let ind := xint (nth 12 (i_addrs din) 0) in
    let k := Z.to_nat (4 * (fbn - NDIRECT)) in
    indirect <- rsect ind ;;
    indirect <- (if get_le 4 indirect k =? 0 then
                   b <- next_block ;;
                   let indirect := put_le 4 indirect k (xint b) in
                   wsect ind indirect ;;;
                   mret indirect
                 else mret indirect) ;;
    mret (din, xint (get_le 4 indirect k)).

Fixpoint iappend_loop (fuel : nat) (din : inode) (off : Z) (p : list Z) : M image (inode * Z) :=
  match fuel with
  | O => mfail NoFuel
  | S fuel' =>
      let n := Z.of_nat (length p) in
      if 0 <? n then
        let fbn := off / BSIZE in
        assert_that (fbn <? MAXFILE) ;;;
        ' (din, x) <- iappend_block din fbn ;;
        let n1 := Z.min n ((fbn + 1) * BSIZE - off) in
        buf <- rsect x ;;
        wsect x (list_inserts (Z.to_nat (off - fbn * BSIZE)) (take (Z.to_nat n1) p) buf) ;;;
        iappend_loop fuel' din (u32 (off + n1)) (drop (Z.to_nat n1) p)
      else mret (din, off)
  end.
Definition iappend (inum : Z) (p : list Z) : M image unit :=
  din <- rinode inum ;;
  ' (din, off) <- iappend_loop (S (length p)) din (xint (i_size din)) p ;;
  winode inum (din <| i_size := xint off |>).

(** ** main *)

Definition UNDERSCORE : Z := 95.
Definition user_dir : list Z := [117; 115; 101; 114; 47].
Definition shortname (arg : list Z) : list Z :=
  if strncmp_arr 5 arg user_dir =? 0 then drop 5 arg else arg.
Definition skip_underscore (name : list Z) : list Z :=
  match name with c :: name' => if c =? UNDERSCORE then name' else name | [] => [] end.

(** A name on the command line and the results of reading the file. *)
Record host_file := HostFile { hf_name : list Z; hf_reads : option (list (list Z)) }.

(** [while((cc = read(fd, buf, sizeof(buf))) > 0) iappend(inum, buf, cc);] *)
Fixpoint append_reads (inum : Z) (reads : list (list Z)) : M image unit :=
  match reads with
  | [] | [] :: _ => mret tt
  | buf :: reads' => iappend inum buf ;;; append_reads inum reads'
  end.
Definition add_file (rootino : Z) (f : host_file) : M image unit :=
  let name := shortname (hf_name f) in
  assert_that (negb (bool_decide (SLASH ∈ name))) ;;;
  match hf_reads f with
  | None => die "open"
  | Some reads =>
      inum <- ialloc T_FILE ;;
      iappend rootino (mk_dirent (xshort inum) (skip_underscore name)) ;;;
      append_reads inum reads
  end.
Fixpoint add_files (rootino : Z) (fs : list host_file) : M image unit :=
  match fs with
  | [] => mret tt
  | f :: fs' => add_file rootino f ;;; add_files rootino fs'
  end.

Definition DOT : Z := 46.
Definition fix_root (rootino : Z) : M image unit :=
  din <- rinode rootino ;;
  let off := xint (i_size din) in
  winode rootino (din <| i_size := xint ((off / BSIZE + 1) * BSIZE) |>).
Definition main (fs : list host_file) : M image unit :=
  modify (fun i => i <| freeblock := nmeta |>) ;;;
  mfor (Z.to_nat FSSIZE) (fun i => wsect (Z.of_nat i) zeroes) ;;;
  wsect 1 (sb_bytes sb) ;;;
  rootino <- ialloc T_DIR ;;
  assert_that (rootino =? ROOTINO) ;;;
  iappend rootino (mk_dirent (xshort rootino) [DOT]) ;;;
  iappend rootino (mk_dirent (xshort rootino) [DOT; DOT]) ;;;
  add_files rootino fs ;;;
  fix_root rootino ;;;
  used <- gets freeblock ;;
  balloc used.
(** The image file is created empty. *)
Definition image0 : image := Image ∅ 1 0.
