(* ===== verification/MkfsProps.v ===== *)
(** * What mkfs builds

    While mkfs works, the image is described by the content the blocks would have if the
    bitmap were written now, so that the notions of the kernel's file system apply to it.
    The theorem says that the finished image is a file system the kernel can mount: its
    superblock, an empty log, a bitmap that marks exactly the blocks in use, the root
    directory with an entry for each file, and the files with their content. *)

From S2P Require Import Prelude Riscv CString Kalloc Vm Uvm UvmProps Spinlock Proc ProcSpec Headers Codec Sleeplock.
From S2P Require Import Uart Printf Bio BioSpec Bcache Example PipeSpec ConsoleSpec Log Blocks LogSpec Crash LogOps.
From S2P Require Import Fs FsTx Balloc Bmap Content Dinode Writei FileProps File FileWrite Mkfs.

(** ** Byte order *)

Section order.
Implicit Types (x k n : Z).

Lemma bit_mod x k n : 0 <= k -> 0 <= n -> Z.testbit (x mod 2 ^ k) n = (n <? k) && Z.testbit x n.
Proof.
  intros Hk Hn. destruct (Z.ltb_spec n k); [by rewrite Z.mod_pow2_bits_low|by rewrite Z.mod_pow2_bits_high by lia].
Qed.
(** One byte moved back to its place. *)
Lemma bit_byte_at x k n : 0 <= k -> 0 <= n -> Z.testbit (Z.shiftl (u8 (Z.shiftr x k)) k) n = (k <=? n) && (n <? k + 8) && Z.testbit x n.
Proof.
  intros Hk Hn. rewrite Z.shiftl_spec by done. destruct (Z.leb_spec k n); [|by rewrite Z.testbit_neg_r by lia].
  unfold u8. rewrite bit_mod, Z.shiftr_spec by lia. replace (n - k + k) with n by lia.
  destruct (Z.ltb_spec (n - k) 8), (Z.ltb_spec n (k + 8)); (done || lia).
Qed.
Lemma xint_id x : 0 <= x < 2 ^ 32 -> xint x = x.
Proof.
  intros Hx. rewrite <- (Z.mod_small x (2 ^ 32)) at 2 by done. apply Z.bits_inj'. intros n Hn. unfold xint.
  rewrite !Z.lor_spec, !bit_byte_at, bit_mod by lia. unfold u8. rewrite bit_mod by lia. destruct (Z.testbit x n); [|by rewrite !andb_false_r].
  rewrite !andb_true_r. destruct (Z.ltb_spec n 8), (Z.leb_spec 8 n), (Z.ltb_spec n (8 + 8)), (Z.leb_spec 16 n), (Z.ltb_spec n (16 + 8)),
    (Z.leb_spec 24 n), (Z.ltb_spec n (24 + 8)), (Z.ltb_spec n 32); simpl; (done || lia).
Qed.
Lemma xshort_id x : 0 <= x < 2 ^ 16 -> xshort x = x.
Proof.
  intros Hx. rewrite <- (Z.mod_small x (2 ^ 16)) at 2 by done. apply Z.bits_inj'. intros n Hn. unfold xshort.
  rewrite Z.lor_spec, bit_byte_at, bit_mod by lia. unfold u8. rewrite bit_mod by lia. destruct (Z.testbit x n); [|by rewrite !andb_false_r].
  rewrite !andb_true_r. destruct (Z.ltb_spec n 8), (Z.leb_spec 8 n), (Z.ltb_spec n (8 + 8)), (Z.ltb_spec n 16); simpl; (done || lia).
Qed.
End order.

(** ** The bitmap *)

(** The kernel state that has the superblock of the image; only its layout matters. *)
Definition mounted : kern := fs_kern (fs_files ∅ <| fs_sb := sb |>).
Definition bits (m : nat) : list Z := foldl set_bit zeroes (seq 0 m).

Lemma sb_eq : sb = Superblock FSMAGIC 2000 1954 200 30 2 32 45.
Proof. reflexivity. Qed.
Lemma mounted_sb : sblock mounted = sb.
Proof. reflexivity. Qed.
Lemma mounted_layout : layout mounted.
Proof. split; rewrite ?mounted_sb, ?sb_eq; try done. intros n. unfold in_log, log_area. simpl. lia. Qed.
Lemma bits_S m : bits (S m) = set_bit (bits m) m.
Proof. unfold bits. by rewrite seq_S, foldl_app. Qed.
Lemma set_bit_mark buf m : set_bit buf m = bit_mark (Z.of_nat m) buf.
Proof.
  unfold set_bit, bit_mark, bit_mask, bit_byte. replace (Z.to_nat (Z.of_nat m / 8)) with (m / 8)%nat by (change 8 with (Z.of_nat 8); by rewrite <- Nat2Z.inj_div, Nat2Z.id).
  by rewrite nth_lookup.
Qed.
Lemma length_bits m : length (bits m) = Z.to_nat BSIZE.
Proof. induction m as [|m IH]; [done|]. rewrite bits_S. unfold set_bit. by rewrite length_insert. Qed.
Lemma bits_free m n : Z.of_nat m <= BPB -> 0 <= n -> bit_free (bits m) n = (Z.of_nat m <=? n).
Proof.
  intros Hm Hn. induction m as [|m IH].
  - rewrite bit_free_spec. unfold bit_byte. change (bits 0) with zeroes. unfold zeroes.
    destruct (replicate (Z.to_nat BSIZE) 0 !! Z.to_nat (n / 8)) as [v|] eqn:E; [apply lookup_replicate in E as [-> _]|]; cbn [default];
      rewrite Z.bits_0; symmetry; by apply Z.leb_le.
  - rewrite bits_S, set_bit_mark, mark_free, IH by (try apply length_bits; lia).
    case_decide; [symmetry; apply Z.leb_gt; lia|]. destruct (Z.leb_spec (Z.of_nat m) n), (Z.leb_spec (Z.of_nat (S m)) n); (done || lia).
Qed.

(** ** The image under construction *)

(** [W] is the image with the bitmap it would get now. *)
Record rep (s : image) (W : contents) : Prop := {
  rp_free : 46 <= freeblock s <= 2000;
  rp_sect : forall n, 0 <= n < 2000 -> n <> 45 -> im_sect s !! n = Some (W n);
  rp_len : forall n, length (W n) = Z.to_nat BSIZE;
  rp_bits : W 45 = bits (Z.to_nat (freeblock s));
  rp_zero : forall n, freeblock s <= n -> W n = block0
}.

Section rep.
Implicit Types (s : image) (W : contents) (x din : inode) (n fbn : Z).

Lemma bblock_sb n : 0 <= n < 2000 -> BBLOCK n sb = 45 /\ n mod BPB = n.
Proof.
  intros Hn. destruct (bblock_eq mounted n mounted_layout ltac:(rewrite mounted_sb, sb_eq; exact Hn)) as [E _]. rewrite mounted_sb in E. rewrite E.
  unfold BPB, BSIZE. rewrite Z.div_small, Z.mod_small by lia. done.
Qed.
Lemma rep_used s W n : rep s W -> 0 <= n < 2000 -> used sb W n = (n <? freeblock s).
Proof.
  intros [Hf _ _ Hb _] Hn. destruct (bblock_sb n Hn) as [E1 E2]. unfold used. rewrite E1, E2, Hb, bits_free by (unfold BPB, BSIZE; lia).
  rewrite Z2Nat.id by lia. by rewrite Z.leb_antisym, negb_involutive.
Qed.
Lemma rep_meta s W : rep s W -> meta_used sb W.
Proof.
  intros R n Hn. pose proof (rp_free _ _ R). change (datastart sb) with 46 in Hn. rewrite (rep_used s W n R) by lia. apply Z.ltb_lt. lia.
Qed.

Lemma rsect_rep s W n : rep s W -> 0 <= n < 2000 -> n <> 45 -> rsect n s = Ok (W n) s.
Proof. intros R Hn Hne. unfold rsect. rewrite (bind_ok _ _ _ (im_sect s !! n) s) by done. by rewrite (rp_sect _ _ R). Qed.
Lemma wsect_rep s W n buf : rep s W -> n < freeblock s -> n <> 45 -> length buf = Z.to_nat BSIZE ->
  runs (wsect n buf) s (fun _ s' => rep s' (bset W n buf) /\ freeblock s' = freeblock s /\ freeinode s' = freeinode s).
Proof.
  intros [Hf Hs Hl Hb Hz] Hn Hne Hlen. apply runs_modify. split; [|done]. split; try done.
  - intros m Hm Hm45. simpl. destruct (decide (m = n)) as [->|Hmn]; [by rewrite lookup_insert_eq, bset_eq|].
    rewrite lookup_insert_ne, bset_ne by done. by apply Hs.
  - intros m. destruct (decide (m = n)) as [->|Hmn]; [by rewrite bset_eq|by rewrite bset_ne].
  - by rewrite bset_ne.
  - intros m Hm. simpl in Hm. rewrite bset_ne by lia. by apply Hz.
Qed.
Lemma next_block_rep s W : rep s W -> freeblock s < 2000 ->
  runs next_block s (fun b s' => b = freeblock s /\ rep s' (alloc sb W b) /\ freeblock s' = freeblock s + 1 /\ freeinode s' = freeinode s).
Proof.
  intros [Hf Hs Hl Hb Hz] Hlt. set (b := freeblock s). destruct (bblock_sb b ltac:(unfold b; lia)) as [E1 E2].
  unfold next_block. apply runs_bind, runs_gets. fold b. apply runs_bind, runs_modify, runs_ret. rewrite u32_small by (unfold b; lia).
  split; [done|]. split; [|done]. unfold alloc. rewrite E1, E2. split; try done.
  - simpl. unfold b. lia.
  - intros n Hn Hne. simpl. destruct (decide (n = b)) as [->|Hnb]; [rewrite bset_eq, <- (Hz b) by (unfold b; lia); by apply Hs|].
    rewrite !bset_ne by done. by apply Hs.
  - intros n. destruct (decide (n = b)) as [->|Hnb]; [by rewrite bset_eq|]. rewrite (bset_ne _ b) by done.
    destruct (decide (n = 45)) as [->|Hn]; [|by rewrite bset_ne]. rewrite bset_eq. unfold bit_mark. by rewrite length_insert.
  - rewrite bset_ne by (unfold b; lia). rewrite bset_eq, Hb. simpl. replace (Z.to_nat (b + 1)) with (S (Z.to_nat b)) by (unfold b; lia).
    rewrite bits_S, set_bit_mark. by rewrite Z2Nat.id by (unfold b; lia).
  - intros n Hn. simpl in Hn. rewrite !bset_ne by (unfold b in *; lia). apply Hz. unfold b in *. lia.
Qed.

(** A direct slot, or the slot of the indirect block. *)
Lemma slot_rep s W din i : rep s W -> own_ok sb din W -> (i <= 12)%nat -> (slot_addr din W i = 0 -> freeblock s < 2000) ->
  runs (if xint (nth i (i_addrs din) 0) =? 0 then b <- next_block ;; mret (din <| i_addrs ::= insert i (xint b) |>) else mret din) s
    (fun din' s' => exists W' P', rep s' W' /\ slot_got sb din W ∅ i (nth i (i_addrs din') 0) din' W' P' /\
       46 <= nth i (i_addrs din') 0 < 2000 /\ (i <> 12%nat -> indirect din' = indirect din) /\ freeinode s' = freeinode s /\
       freeblock s' = freeblock s + if slot_addr din W i =? 0 then 1 else 0).
Proof.
  intros R [O1 O2 O3 O4] Hi Hroom. pose proof (rp_free _ _ R) as Hf.
  assert (Hsl : slot_addr din W i = nth i (i_addrs din) 0) by (unfold slot_addr; destruct (Nat.leb_spec i 12); [done|lia]).
  rewrite <- Hsl. destruct (Z.eqb_spec (slot_addr din W i) 0) as [E|E].
  - rewrite E. change (xint 0 =? 0) with true. cbn iota. apply runs_bind. eapply runs_conseq; [by apply (next_block_rep s W R), Hroom|].
    intros b s' (-> & R' & Ef & Ei). apply runs_ret. rewrite xint_id by lia.
    eexists (alloc sb W (freeblock s)), _. split; [done|]. simpl.
    assert (En : nth i (<[i := freeblock s]> (i_addrs din)) 0 = freeblock s).
    { rewrite nth_lookup, list_lookup_insert_eq; [done|]. rewrite O1. lia. }
    rewrite En. split; [|split; [specialize (Hroom E); lia|split; [|done]]].
    2: { intros Hne. unfold indirect. simpl. rewrite nth_insert by (rewrite O1; lia). by rewrite decide_False. } right. split; [done|]. change (datastart sb) with 46. change (sb_size sb) with 2000.
    split; [specialize (Hroom E); lia|]. split; [|done]. rewrite (rep_used s W _ R) by (specialize (Hroom E); lia). apply Z.ltb_irrefl.
  - destruct (O3 i ltac:(unfold NSLOT; lia) E) as [Hr _]. change (datastart sb) with 46 in Hr. change (sb_size sb) with 2000 in Hr.
    rewrite xint_id by lia. destruct (Z.eqb_spec (slot_addr din W i) 0); [done|]. apply runs_ret. exists W, ∅. rewrite <- Hsl.
    split; [done|]. split; [left; by split_and!|]. split; [done|]. split; [done|]. split; [done|lia].
Qed.

Lemma iappend_block_rep s W din fbn : rep s W -> own_ok sb din W -> 0 <= fbn < MAXFILE ->
  let need := (if faddr din W fbn =? 0 then 1 else 0) + (if (NDIRECT <=? fbn) && (indirect din =? 0) then 1 else 0) in
  freeblock s + need <= 2000 ->
  runs (iappend_block din fbn) s (fun r s' => exists W', rep s' W' /\ mapped sb din W fbn r.2 r.1 W' /\ 46 <= r.2 < 2000 /\
    (fbn < NDIRECT -> indirect r.1 = indirect din) /\ freeinode s' = freeinode s /\ freeblock s' = freeblock s + need).
Proof.
  intros R O Hk need Hroom. pose proof (rp_free _ _ R) as Hf. pose proof (rep_meta _ _ R) as HM. pose proof mounted_layout as L.
  unfold iappend_block. destruct (Z.ltb_spec fbn NDIRECT) as [Hlt|Hge].
  { assert (Ek : faddr din W fbn = slot_addr din W (Z.to_nat fbn)).
    { unfold faddr, slot_of_block. by destruct (Z.ltb_spec fbn NDIRECT); [|lia]. }
    unfold need in *. rewrite Ek in *. destruct (Z.leb_spec NDIRECT fbn); [lia|]. cbn [andb] in *.
    apply runs_bind. eapply runs_conseq; [apply (slot_rep s W din (Z.to_nat fbn) R O); [unfold NDIRECT in *; lia|]|].
    { intros E. rewrite E in Hroom. simpl in Hroom. lia. }
    intros din' s' (W' & P' & R' & G & Hr & Hin & Ei & Ef). apply runs_ret. rewrite xint_id by lia. exists W'. cbn [fst snd].
    split; [done|]. split; [|split; [done|]; split; [intros _; apply Hin; unfold NDIRECT in *; lia|]; split; [done|lia]].
    apply (mapped_slot mounted din W ∅ fbn _ din' W' P'); try done; [apply (rp_len _ _ R)|lia]. }
  destruct (Z.leb_spec NDIRECT fbn); [|lia]. cbn [andb] in *. change (indirect din) with (slot_addr din W 12) in *.
  apply runs_bind. eapply runs_conseq; [apply (slot_rep s W din 12 R O); [lia|]|].
  { intros E. unfold need in Hroom. rewrite E in Hroom. simpl in Hroom. destruct (faddr din W fbn =? 0); lia. }
  intros din1 s1 (W1 & P1 & R1 & G1 & Hr1 & _ & Ei1 & Ef1). set (q := nth 12 (i_addrs din1) 0) in *. rewrite xint_id by lia.
  destruct (slot_grown mounted din W ∅ 12 q din1 W1 P1 L HM O (rp_len _ _ R) ltac:(lia) G1) as ([O1 _ _ _ _ _ _ _ _ _] & Hs1 & _ & _).
  apply runs_bind. apply (runs_ok _ _ _ (W1 q) s1); [apply rsect_rep; [done|lia|lia]|].
  set (i := (13 + Z.to_nat (fbn - NDIRECT))%nat).
  assert (Hsl : slot_addr din1 W1 i = get_le 4 (W1 q) (Z.to_nat (4 * (fbn - NDIRECT)))).
  { unfold slot_addr. destruct (Nat.leb_spec i 12); [unfold i in *; lia|]. change (indirect din1) with q. destruct (Z.eqb_spec q 0); [lia|].
    f_equal. unfold i, NDIRECT in *. lia. }
  assert (Efa : slot_addr din1 W1 i = faddr din W fbn).
  { assert (Ei : slot_of_block fbn = i) by (unfold slot_of_block; destruct (Z.ltb_spec fbn NDIRECT); unfold i, NDIRECT in *; lia).
    unfold faddr. rewrite Ei. apply Hs1; [|unfold i; lia]. rewrite <- Ei. by apply slot_of_block_lt. }
  rewrite <- Hsl, Efa. apply runs_bind.
  assert (Hmap : forall a W2 P2, entry_got sb din1 W1 P1 i a W2 P2 -> mapped sb din W fbn a din1 W2).
  { intros a W2 P2 G2. apply (mapped_indirect mounted din W ∅ fbn q din1 W1 P1 a W2 P2); try done; [apply (rp_len _ _ R)|apply (rp_len _ _ R1)|lia|lia]. }
  pose proof (rp_free _ _ R1) as Hf1. assert (Hqf : q < freeblock s1).
  { destruct (ow_data _ _ _ O1 12%nat ltac:(unfold NSLOT; lia)) as [_ U]; [change (q <> 0); lia|]. change (slot_addr din1 W1 12) with q in U.
    rewrite mounted_sb, (rep_used s1 W1 q R1) in U by lia. lia. }
  assert (Hfr : freeblock s1 = freeblock s + if slot_addr din W 12 =? 0 then 1 else 0) by exact Ef1. unfold need in *.
  destruct (Z.eqb_spec (faddr din W fbn) 0) as [E|E].
  - apply runs_bind. eapply runs_conseq; [apply (next_block_rep s1 W1 R1); lia|]. intros b s2 (Eb & R2 & Ef2 & Ei2).
    rewrite xint_id by lia. set (k := Z.to_nat (4 * (fbn - NDIRECT))).
    assert (Hq : alloc sb W1 b q = W1 q).
    { apply (alloc_other mounted); rewrite ?mounted_sb; change (sb_size sb) with 2000; change (datastart sb) with 46; (done || lia). }
    apply runs_bind. eapply runs_conseq; [apply (wsect_rep s2 _ q (put_le 4 (W1 q) k b) R2); [lia|lia|by rewrite length_put_le, (rp_len _ _ R1)]|].
    intros [] s3 (R3 & Ef3 & Ei3). apply runs_ret, runs_ret. exists (set_entry (alloc sb W1 b) q i b). cbn [fst snd].
    assert (Eg : get_le 4 (put_le 4 (W1 q) k b) k = b).
    { rewrite get_put_same; [apply Z.mod_small; change (256 ^ Z.of_nat 4) with (2 ^ 32); lia|]. rewrite (rp_len _ _ R1). unfold k.
      unfold MAXFILE, NDIRECT, NINDIRECT, BSIZE in *. change (1024 / 4) with 256 in *. lia. }
    rewrite Eg, xint_id by lia. split; [|split; [|split; [lia|]; split; [lia|]; split; [congruence|lia]]].
    + unfold set_entry. rewrite Hq. replace (4 * (i - 13))%nat with k by (unfold i, k, NDIRECT in *; lia). exact R3.
    + eapply Hmap. right. split; [by rewrite Efa|]. change (datastart sb) with 46. change (sb_size sb) with 2000.
      split; [lia|]. split; [rewrite (rep_used s1 W1 b R1) by lia; subst b; apply Z.ltb_irrefl|]. done.
  - apply runs_ret, runs_ret. exists W1. cbn [fst snd]. rewrite <- Hsl, Efa.
    assert (Ha : 46 <= faddr din W fbn < 2000).
    { destruct (slot_of_block_lt fbn Hk) as [S1 _]. by destruct (ow_data _ _ _ O _ S1 E) as [? _]. }
    rewrite xint_id by lia. split; [done|]. split; [|split; [done|]; split; [lia|]; split; [done|lia]].
    eapply Hmap. left. split; [done|]. split; [done|]. split; [done|]. intros K. lia.
Qed.

(** The file has exactly the blocks that [sz] bytes need, with zeros after its end. *)
Record tight (sz : Z) x W : Prop := {
  ti_has : forall k, 0 <= k -> k * BSIZE < sz -> faddr x W k <> 0;
  ti_not : forall k, 0 <= k < MAXFILE -> sz <= k * BSIZE -> faddr x W k = 0;
  ti_ind : sz <= NDIRECT * BSIZE -> indirect x = 0;
  ti_tail : forall o, sz <= o < MAXFILE * BSIZE -> faddr x W (o / BSIZE) <> 0 -> fbyte x W o = 0
}.
Definition blocks_in (sz : Z) : Z := (sz + BSIZE - 1) / BSIZE.
Definition need (sz : Z) : Z := blocks_in sz + if NDIRECT <? blocks_in sz then 1 else 0.

Lemma blocks_in_eq k sz : k * BSIZE < sz <= (k + 1) * BSIZE -> blocks_in sz = k + 1.
Proof. intros Hs. unfold blocks_in. symmetry. apply Z.div_unique with (sz + BSIZE - 1 - (k + 1) * BSIZE); unfold BSIZE in *; lia. Qed.
Lemma no_indirect x W k : NDIRECT <= k -> indirect x = 0 -> faddr x W k = 0.
Proof.
  intros Hk Hi. unfold faddr, slot_of_block, slot_addr. destruct (Z.ltb_spec k NDIRECT); [lia|]. unfold NDIRECT in *.
  destruct (Nat.leb_spec (S (Z.to_nat k)) 12); [lia|]. by rewrite Hi.
Qed.

Lemma need_mono a b : 0 <= a -> a <= b -> need a <= need b.
Proof.
  intros Ha Hb. unfold need, blocks_in. assert ((a + BSIZE - 1) / BSIZE <= (b + BSIZE - 1) / BSIZE) by (apply Z.div_le_mono; unfold BSIZE; lia).
  destruct (Z.ltb_spec NDIRECT ((a + BSIZE - 1) / BSIZE)), (Z.ltb_spec NDIRECT ((b + BSIZE - 1) / BSIZE)); lia.
Qed.
(** What one round of the loop allocates. *)
Lemma need_round x W off n : 0 <= off < MAXFILE * BSIZE -> 0 < n -> off mod BSIZE + n <= BSIZE -> tight off x W -> let k := off / BSIZE in
  (if faddr x W k =? 0 then 1 else 0) + (if (NDIRECT <=? k) && (indirect x =? 0) then 1 else 0) = need (off + n) - need off.
Proof.
  intros Hoff Hn Hfit [T1 T2 T3 _] k. pose proof (maxfile_block off Hoff) as Hk. fold k in Hk.
  pose proof (Z.div_mod off BSIZE ltac:(unfold BSIZE; lia)) as Hd. pose proof (Z.mod_pos_bound off BSIZE ltac:(unfold BSIZE; lia)) as Hm. fold k in Hd.
  assert (E2 : blocks_in (off + n) = k + 1) by (apply blocks_in_eq; lia). unfold need. rewrite E2.
  assert (Hind : NDIRECT <= k -> indirect x = 0 -> off <= NDIRECT * BSIZE).
  { intros Hk1 Hi. destruct (Z.leb_spec off (NDIRECT * BSIZE)); [done|]. exfalso. apply (T1 NDIRECT); [unfold NDIRECT; lia|lia|]. by apply no_indirect. }
  destruct (decide (off mod BSIZE = 0)) as [E0|E0].
  - assert (E1 : blocks_in off = k) by (replace k with (k - 1 + 1) by lia; apply blocks_in_eq; unfold BSIZE in *; lia). rewrite E1.
    rewrite T2 by lia. cbn [Z.eqb]. destruct (Z.leb_spec NDIRECT k) as [K|K]; cbn [andb].
    + destruct (Z.eqb_spec (indirect x) 0) as [I|I].
      * specialize (Hind K I). assert (k = NDIRECT) as -> by (unfold NDIRECT, BSIZE in *; lia). done.
      * destruct (Z.ltb_spec NDIRECT (k + 1)), (Z.ltb_spec NDIRECT k); try lia. assert (k = NDIRECT) as Ek by lia.
        destruct I. apply T3. rewrite Ek in Hd. lia.
    + destruct (Z.ltb_spec NDIRECT (k + 1)), (Z.ltb_spec NDIRECT k); lia.
  - assert (E1 : blocks_in off = k + 1) by (apply blocks_in_eq; lia). rewrite E1.
    destruct (Z.eqb_spec (faddr x W k) 0) as [I|I]; [exfalso; apply (T1 k); [lia|lia|done]|].
    destruct (Z.leb_spec NDIRECT k) as [K|K]; cbn [andb]; [|lia]. destruct (Z.eqb_spec (indirect x) 0) as [I2|I2]; [|lia].
    specialize (Hind K I2). unfold NDIRECT, BSIZE in *. lia.
Qed.

Lemma tight_round x W k a x' W' off n : 0 <= off < MAXFILE * BSIZE -> 0 < n -> off mod BSIZE + n <= BSIZE -> k = off / BSIZE ->
  tight off x W -> mapped sb x W k a x' W' -> a <> 0 -> (k < NDIRECT -> indirect x' = indirect x) -> tight (off + n) x' W'.
Proof.
  intros Hoff Hn Hfit Ek [T1 T2 T3 T4] [_ M2 M3 M4 _ M6] Ha Hin. pose proof (maxfile_block off Hoff) as Hk. rewrite <- Ek in Hk.
  pose proof (Z.div_mod off BSIZE ltac:(unfold BSIZE; lia)) as Hd. pose proof (Z.mod_pos_bound off BSIZE ltac:(unfold BSIZE; lia)) as Hm. rewrite <- Ek in Hd.
  split.
  - intros j Hj Hlt. destruct (decide (j = k)) as [->|Hne]; [congruence|]. rewrite M3 by (unfold BSIZE in *; lia). apply T1; unfold BSIZE in *; lia.
  - intros j Hj Hge. rewrite M3 by (unfold BSIZE in *; lia). apply T2; unfold BSIZE in *; lia.
  - intros Hle. rewrite Hin by (unfold BSIZE in *; lia). apply T3. lia.
  - intros o Ho Hne. assert (Hok : 0 <= o / BSIZE < MAXFILE) by (apply maxfile_block; lia).
    assert (Eo : o / BSIZE = k).
    { destruct (decide (o / BSIZE = k)) as [|Hk']; [done|]. destruct Hne. rewrite M3 by done. apply T2; [done|].
      assert (k <= o / BSIZE) by (rewrite Ek; apply Z.div_le_mono; unfold BSIZE in *; lia). unfold BSIZE in *. lia. }
    unfold fbyte. rewrite Eo, M2. destruct (decide (faddr x W k = 0)) as [E0|E0].
    + destruct (M6 E0 Ha) as [_ ->]. unfold block0. destruct (replicate _ 0 !! _) as [v|] eqn:Ev; [by apply lookup_replicate in Ev as [-> _]|done].
    + destruct (M4 E0) as [-> ->]. rewrite <- Eo in E0 |- *. apply (T4 o); [lia|done].
Qed.

Lemma iappend_loop_rep fuel : forall s W din off p, rep s W -> own_ok sb din W -> tight off din W -> 0 <= off ->
  let n := Z.of_nat (length p) in off + n <= MAXFILE * BSIZE -> (length p < fuel)%nat -> freeblock s + (need (off + n) - need off) <= 2000 ->
  runs (iappend_loop fuel din off p) s (fun r s' => exists W', rep s' W' /\ r.2 = off + n /\ wrote sb din W off p r.1 W' /\
    tight (off + n) r.1 W' /\ freeinode s' = freeinode s /\ freeblock s' = freeblock s + (need (off + n) - need off)).
Proof.
  induction fuel as [|fuel IH]; intros s W din off p R O T Hoff n Hfit Hfuel Hroom; [lia|]. cbn [iappend_loop]. fold n.
  pose proof (rep_meta _ _ R) as HM. destruct (Z.ltb_spec 0 n) as [Hn|Hn].
  2: { destruct p as [|? p]; [|unfold n in Hn; simpl in Hn; lia]. change n with 0. rewrite Z.add_0_r. apply runs_ret. exists W.
       split; [done|]. split; [done|]. split; [by apply wrote_refl|]. split; [done|]. split; [done|]. simpl. lia. }
  pose proof (Z.div_mod off BSIZE ltac:(unfold BSIZE; lia)) as Hd. pose proof (Z.mod_pos_bound off BSIZE ltac:(unfold BSIZE; lia)) as Hm.
  assert (Hlt : 0 <= off < MAXFILE * BSIZE) by lia. pose proof (maxfile_block off Hlt) as Hk. set (k := off / BSIZE) in *.
  destruct (Z.ltb_spec k MAXFILE); [|lia]. apply runs_bind, runs_ret. set (n1 := Z.min n ((k + 1) * BSIZE - off)).
  assert (Hn1 : 0 < n1 /\ n1 <= n /\ off mod BSIZE + n1 <= BSIZE) by (unfold n1; lia).
  pose proof (need_round din W off n1 Hlt ltac:(lia) ltac:(lia) T) as Hneed. fold k in Hneed. cbv zeta in Hneed.
  pose proof (need_mono (off + n1) (off + n) ltac:(lia) ltac:(lia)) as Hmono.
  apply runs_bind. eapply runs_conseq; [apply (iappend_block_rep s W din k R O Hk); lia|].
  intros [din1 a] s1 (W1 & R1 & M1 & Ha & Hin & Ei1 & Ef1). cbn [fst snd] in *.
  pose proof (mapped_wrote mounted din W k a din1 W1 off mounted_layout O M1) as Wr1. rewrite mounted_sb in Wr1.
  pose proof (wr_own _ _ _ _ _ _ _ Wr1) as O1. pose proof (mp_addr _ _ _ _ _ _ _ M1) as Efa.
  apply runs_bind. apply (runs_ok _ _ _ (W1 a) s1); [apply rsect_rep; [done|lia|lia]|].
  set (bs := take (Z.to_nat n1) p). assert (Hbs : Z.of_nat (length bs) = n1) by (unfold bs; rewrite length_take; lia).
  assert (Haf : a < freeblock s1).
  { destruct (slot_of_block_lt k Hk) as [S1 _]. destruct (ow_data _ _ _ O1 _ S1) as [_ U]; [change (faddr din1 W1 k <> 0); lia|].
    change (slot_addr din1 W1 (slot_of_block k)) with (faddr din1 W1 k) in U. rewrite Efa, (rep_used s1 W1 a R1) in U by lia. lia. }
  apply runs_bind. eapply runs_conseq; [apply (wsect_rep s1 W1 a _ R1); [done|lia|by rewrite length_inserts, (rp_len _ _ R1)]|].
  intros [] s2 (R2 & Ef2 & Ei2). replace (off - k * BSIZE) with (off mod BSIZE) in R2 by lia. fold (put_at W1 a (Z.to_nat (off mod BSIZE)) bs) in R2.
  set (W2 := put_at W1 a (Z.to_nat (off mod BSIZE)) bs) in *. rewrite u32_small by (unfold MAXFILE, NDIRECT, NINDIRECT, BSIZE in *; change (1024 / 4) with 256 in *; lia).
  assert (Wr2 : wrote sb din1 W1 off bs din1 W2).
  { unfold W2. rewrite <- Efa. apply (wrote_piece mounted); [apply mounted_layout|done|apply Wr1|apply (rp_len _ _ R1)|fold k; lia|done|lia]. }
  assert (Wr : wrote sb din W off bs din1 W2).
  { apply (wrote_trans sb din W off [] din1 W1 bs din1 W2); [done|done|simpl; lia|done|done|]. simpl. by rewrite Z.add_0_r. }
  assert (T1 : tight (off + n1) din1 W1) by (apply (tight_round din W k a din1 W1); (done || lia)).
  assert (Hne : a <> indirect din1).
  { intros E. destruct (slot_of_block_lt k Hk) as [S1 S2]. apply S2. apply (ow_inj _ _ _ O1); [done|unfold NSLOT; lia| |];
      change (slot_addr din1 W1 (slot_of_block k)) with (faddr din1 W1 k); rewrite Efa; [exact E|lia]. }
  assert (T2 : tight (off + n1) din1 W2).
  { destruct T1 as [A1 A2 A3 A4]. assert (Hfa : forall j, faddr din1 W2 j = faddr din1 W1 j) by (intros j; unfold faddr, W2; by apply slot_put).
    split; [intros j; rewrite Hfa; apply A1|intros j; rewrite Hfa; apply A2|done|]. intros o Ho Hno. rewrite Hfa in Hno.
    rewrite (wr_out _ _ _ _ _ _ _ Wr2) by (done || lia). by apply A4. }
  pose proof (IH s2 W2 din1 (off + n1) (drop (Z.to_nat n1) p) R2 (wr_own _ _ _ _ _ _ _ Wr2) T2 ltac:(lia)) as Hrun.
  rewrite length_drop in Hrun. replace (off + n1 + Z.of_nat (length p - Z.to_nat n1)) with (off + n) in Hrun by lia.
  specialize (Hrun ltac:(lia) ltac:(lia) ltac:(lia)). eapply runs_conseq; [exact Hrun|].
  intros r s3 (W3 & R3 & Er & Wr3 & T3 & Ei3 & Ef3). exists W3. split; [done|]. split; [done|]. split; [|split; [done|]; split; [congruence|lia]].
  rewrite <- (take_drop (Z.to_nat n1) p). fold bs. apply (wrote_trans sb din W off bs din1 W2); [done|done|lia|done|done|]. by rewrite Hbs.
Qed.
End rep.

(** ** Inodes of the image *)

(** Inodes 0 to 207 fit the inode blocks. *)
Definition ino (W : contents) (inum : Z) : inode :=
  load_dinode (W (IBLOCK inum sb)) (di_off inum) (inode0 <| i_dev := ROOTDEV |> <| i_inum := inum |>).
Definition put_ino (W : contents) (inum : Z) (x : inode) : contents :=
  bset W (IBLOCK inum sb) (store_dinode (W (IBLOCK inum sb)) (di_off inum) x).
(** The fields that are not on the disk. *)
Definition on_image (inum : Z) (x : inode) : Prop := i_dev x = ROOTDEV /\ i_inum x = inum /\ i_ref x = 0 /\ i_valid x = 0.

Section inodes.
Implicit Types (s : image) (W : contents) (x y : inode) (p : list Z).

Lemma iblock_eq inum : 0 <= inum < 208 -> IBLOCK inum sb = inum / 16 + 32.
Proof.
  intros Hi. unfold IBLOCK, IPB, BSIZE, sizeof_dinode. change (sb_inodestart sb) with 32. change (1024 / 64) with 16.
  pose proof (Z.div_pos inum 16 ltac:(lia) ltac:(lia)). assert (inum / 16 < 13) by (apply Z.div_lt_upper_bound; lia). apply u32_small. lia.
Qed.
Lemma iblock_range inum : 0 <= inum < 208 -> 32 <= IBLOCK inum sb < 45.
Proof.
  intros Hi. rewrite iblock_eq by done.
  pose proof (Z.div_pos inum 16 ltac:(lia) ltac:(lia)). assert (inum / 16 < 13) by (apply Z.div_lt_upper_bound; lia). lia.
Qed.
Lemma image_area inum : 0 <= inum < 208 -> inode_area mounted inum.
Proof.
  intros Hi. pose proof (iblock_range inum Hi). unfold inode_area. rewrite mounted_sb. change (sb_bmapstart sb) with 45.
  split; [lia|]. split; [lia|]. unfold in_log, log_area. change (fs_log (k_files mounted)) with log0.
  change (l_start log0) with 2. change (l_size log0) with 30. lia.
Qed.
Lemma ino_image W inum : on_image inum (ino W inum).
Proof. done. Qed.
Lemma rinode_rep s W inum : rep s W -> 0 <= inum < 208 -> rinode inum s = Ok (ino W inum) s.
Proof.
  intros R Hi. pose proof (iblock_range inum Hi). unfold rinode.
  rewrite (bind_ok _ _ _ (W (IBLOCK inum sb)) s); [done|]. apply rsect_rep; [done|lia|lia].
Qed.
Lemma winode_rep s W inum x : rep s W -> 0 <= inum < 208 -> length (i_addrs x) = 13%nat ->
  runs (winode inum x) s (fun _ s' => rep s' (put_ino W inum x) /\ freeblock s' = freeblock s /\ freeinode s' = freeinode s).
Proof.
  intros R Hi Hl. pose proof (iblock_range inum Hi). pose proof (rp_free _ _ R). unfold winode. apply runs_bind.
  apply (runs_ok _ _ _ (W (IBLOCK inum sb)) s); [apply rsect_rep; [done|lia|lia]|].
  apply wsect_rep; [done|lia|lia|]. by rewrite length_store, (rp_len _ _ R).
Qed.
Lemma ino_same W inum x : 0 <= inum -> on_image inum x -> inode_range x -> length (W (IBLOCK inum sb)) = Z.to_nat BSIZE ->
  ino (put_ino W inum x) inum = x.
Proof.
  intros Hi (E1 & E2 & E3 & E4) Hr Hl. unfold ino, put_ino. rewrite bset_eq, load_store; [|done|].
  - destruct x. simpl in *. subst. done.
  - rewrite Hl. by apply di_off_fits.
Qed.
(** The inodes of a block do not overlap. *)
Lemma di_off_apart i j : 0 <= i < 208 -> 0 <= j < 208 -> IBLOCK i sb = IBLOCK j sb -> i <> j -> (di_off i + 64 <= di_off j \/ di_off j + 64 <= di_off i)%nat.
Proof.
  intros Hi Hj. rewrite !iblock_eq by done. unfold di_off, IPB, BSIZE, sizeof_dinode. change (1024 / 64) with 16. intros E Hne.
  pose proof (Z.div_mod i 16 ltac:(lia)). pose proof (Z.div_mod j 16 ltac:(lia)).
  pose proof (Z.mod_pos_bound i 16 ltac:(lia)). pose proof (Z.mod_pos_bound j 16 ltac:(lia)). lia.
Qed.
Lemma load_ext d d' o x : (forall i, (o <= i < o + 64)%nat -> d !! i = d' !! i) -> load_dinode d o x = load_dinode d' o x.
Proof.
  intros H. assert (Hg : forall n k, (k + n <= 64)%nat -> get_le n d (o + k) = get_le n d' (o + k)).
  { intros n k Hk. apply get_le_ext. intros i Hi. apply H. lia. }
  assert (Ha : (di_addr d o <$> seq 0 13) = (di_addr d' o <$> seq 0 13)).
  { apply list_fmap_ext. intros i k Hk. apply lookup_seq in Hk as [-> Hk]. unfold di_addr. rewrite <- !Nat.add_assoc. apply Hg. lia. }
  unfold load_dinode, di_type. rewrite Ha. replace (get_le 2 d o) with (get_le 2 d' o); [by rewrite !Hg by lia|].
  symmetry. rewrite <- (Nat.add_0_r o). apply Hg. lia.
Qed.
Lemma ino_kept W W' inum j : 0 <= inum < 208 -> 0 <= j < 208 -> j <> inum ->
  (forall n, 32 <= n < 45 -> n <> IBLOCK inum sb -> W' n = W n) ->
  (forall i, (i < di_off inum \/ di_off inum + 64 <= i)%nat -> W' (IBLOCK inum sb) !! i = W (IBLOCK inum sb) !! i) -> ino W' j = ino W j.
Proof.
  intros Hi Hj Hne Hlow Hin. pose proof (iblock_range j Hj). unfold ino. apply load_ext. intros i Hii. destruct (decide (IBLOCK j sb = IBLOCK inum sb)) as [E|E].
  - rewrite E. apply Hin. destruct (di_off_apart inum j Hi Hj (eq_sym E) ltac:(done)); lia.
  - by rewrite Hlow.
Qed.

Lemma put_high W inum x n : 0 <= inum < 208 -> 45 <= n -> put_ino W inum x n = W n.
Proof. intros Hi Hn. apply bset_ne. pose proof (iblock_range inum Hi). lia. Qed.
Lemma put_other W inum x j : 0 <= inum < 208 -> 0 <= j < 208 -> j <> inum -> length (i_addrs x) = 13%nat -> ino (put_ino W inum x) j = ino W j.
Proof.
  intros Hi Hj Hne Hl. apply (ino_kept W _ inum); [done|done|done|intros m _ Hm; by apply bset_ne|].
  intros i Ho. unfold put_ino. rewrite bset_eq. by rewrite store_out.
Qed.

Lemma own_agree x W W' : own_ok sb x W -> (forall n, 45 <= n -> W' n = W n) -> same_file x W W'.
Proof.
  intros O HW. pose proof (slots_agree mounted x W W' mounted_layout O HW) as Hs. split; [done|].
  intros o Ho Hne. destruct (slot_of_block_lt _ (maxfile_block o Ho)) as [S1 _]. destruct (ow_data _ _ _ O _ S1 Hne) as [Hr _].
  change (datastart sb) with 46 in Hr. change (slot_addr x W (slot_of_block (o / BSIZE))) with (faddr x W (o / BSIZE)) in Hr.
  unfold fbyte. assert (faddr x W' (o / BSIZE) = faddr x W (o / BSIZE)) as -> by (by apply Hs). by rewrite HW by lia.
Qed.
Lemma iappend_rep s W inum p : rep s W -> 0 <= inum < 208 -> let x := ino W inum in let n := Z.of_nat (length p) in
  file_ok sb x W -> inode_range x -> tight (i_size x) x W -> i_size x + n <= MAXFILE * BSIZE ->
  freeblock s + (need (i_size x + n) - need (i_size x)) <= 2000 ->
  runs (iappend inum p) s (fun _ s' => exists W', rep s' W' /\ written sb x W p (i_size x) n (ino W' inum) W' /\
    inode_range (ino W' inum) /\ tight (i_size x + n) (ino W' inum) W' /\ freeinode s' = freeinode s /\
    freeblock s' = freeblock s + (need (i_size x + n) - need (i_size x))).
Proof.
  intros R Hi x n F Hr T Hfit Hroom. pose proof (fo_size _ _ _ F) as Hs. assert (Hmax : MAXFILE * BSIZE < 2 ^ 31) by done.
  pose proof mounted_layout as L. unfold iappend. apply runs_bind. apply (runs_ok _ _ _ x s); [by apply rinode_rep|].
  rewrite (xint_id (i_size x)) by lia. apply runs_bind.
  eapply runs_conseq; [apply (iappend_loop_rep (S (length p)) s W x (i_size x) p R (fo_own _ _ _ F) T); (done || lia)|]. fold n.
  intros [din off] s1 (W1 & R1 & Eo & Wr & T1 & Ei1 & Ef1). cbn [fst snd] in *. rewrite Eo, xint_id by lia.
  pose proof (wr_own _ _ _ _ _ _ _ Wr) as O1.
  pose proof (written_final mounted x W p (i_size x) n din W1) as Hfin. rewrite mounted_sb in Hfin.
  specialize (Hfin L F (image_area inum Hi) Hr (rp_len _ _ R1) ltac:(lia) ltac:(lia) Hfit ltac:(by rewrite take_ge by (unfold n; lia))). cbv zeta in Hfin.
  rewrite Z.max_r in Hfin by lia. change (i_inum x) with inum in Hfin. set (x2 := din <| i_size := i_size x + n |>) in *.
  fold (put_ino W1 inum x2) in Hfin. pose proof (wt_fields _ _ _ _ _ _ _ _ Hfin) as Hfl.
  assert (Hr2 : inode_range x2) by exact (stored_range mounted x W p (i_size x) n x2 (put_ino W1 inum x2) L Hr (wt_stored _ _ _ _ _ _ _ _ Hfin)).
  assert (Hino : ino (put_ino W1 inum x2) inum = x2).
  { apply ino_same; [lia| |done|apply (rp_len _ _ R1)]. unfold on_image. rewrite Hfl. done. }
  eapply runs_conseq; [apply (winode_rep s1 W1 inum x2 R1 Hi); apply O1|]. intros [] s2 (R2 & Ef2 & Ei2).
  exists (put_ino W1 inum x2). rewrite Hino. split; [done|]. split; [done|]. split; [done|]. split; [|split; [congruence|lia]].
  assert (Hsame : same_file din W1 (put_ino W1 inum x2)).
  { apply (own_agree din W1); [done|]. intros m Hm. apply bset_ne. pose proof (iblock_range inum Hi). lia. }
  assert (Hsl : forall k, 0 <= k < MAXFILE -> faddr x2 (put_ino W1 inum x2) k = faddr din W1 k) by (intros k Hk; exact (same_faddr _ _ _ k Hsame Hk)).
  destruct T1 as [A1 A2 A3 A4]. split; [|intros k Hk Hge; rewrite Hsl by done; by apply A2|done|].
  - intros k Hk Hlt. rewrite Hsl by (unfold BSIZE in *; lia). by apply A1.
  - intros o Ho Hno. rewrite Hsl in Hno by (apply maxfile_block; lia). rewrite <- (A4 o Ho Hno).
    exact (sf_bytes _ _ _ Hsame o ltac:(lia) Hno).
Qed.
End inodes.

(** ** The files built so far *)

(** An inode of the given type with the given content. *)
Record node (W : contents) (inum ty : Z) (c : list Z) : Prop := {
  nd_file : file_ok sb (ino W inum) W;
  nd_range : inode_range (ino W inum);
  nd_tight : tight (Z.of_nat (length c)) (ino W inum) W;
  nd_size : i_size (ino W inum) = Z.of_nat (length c);
  nd_bytes : fbytes (ino W inum) W 0 (length c) = c;
  nd_type : i_type (ino W inum) = ty /\ i_nlink (ino W inum) = 1
}.
Definition total (ns : list (Z * list Z)) : Z := foldr (fun nd z => need (Z.of_nat (length nd.2)) + z) 0 ns.

(** Inode [i + 1] has the [i]-th type and content. *)
Record built (s : image) (W : contents) (ns : list (Z * list Z)) : Prop := {
  bu_rep : rep s W;
  bu_next : freeinode s = Z.of_nat (length ns) + 1;
  bu_few : (length ns <= 207)%nat;
  bu_node : forall i ty c, ns !! i = Some (ty, c) -> node W (Z.of_nat i + 1) ty c;
  bu_apart : forall i j, (i < length ns)%nat -> (j < length ns)%nat -> i <> j -> disjoint_files (ino W (Z.of_nat i + 1)) (ino W (Z.of_nat j + 1)) W;
  bu_free : freeblock s = nmeta + total ns;
  bu_low : forall n, 0 <= n < 32 -> W n = if n =? 1 then sb_bytes sb else block0
}.

Section built.
Implicit Types (s : image) (W : contents) (x y : inode) (c p : list Z) (ns : list (Z * list Z)).

Lemma total_insert ns : forall i ty c c', ns !! i = Some (ty, c) ->
  total (<[i := (ty, c')]> ns) = total ns + (need (Z.of_nat (length c')) - need (Z.of_nat (length c))).
Proof.
  induction ns as [|n ns IH]; intros i ty c c' Hi; [done|]. destruct i as [|i]; simpl in Hi.
  - injection Hi as ->. simpl. lia.
  - simpl. rewrite (IH i ty c c' Hi). lia.
Qed.
Lemma total_app ns ns' : total (ns ++ ns') = total ns + total ns'.
Proof. induction ns as [|n ns IH]; [done|]. simpl. lia. Qed.

Lemma disjoint_sym x y W : disjoint_files x y W -> disjoint_files y x W.
Proof. intros H i j Hi Hj Hne E. apply (H j i Hj Hi); [congruence|done]. Qed.
Lemma fbytes_ext x y W W' n : (forall o, 0 <= o < Z.of_nat n -> fbyte x W o = fbyte y W' o) -> fbytes x W 0 n = fbytes y W' 0 n.
Proof.
  intros H. apply list_eq. intros i. destruct (decide (i < n)%nat).
  - rewrite !fbytes_lookup by done. f_equal. apply H. lia.
  - by rewrite !lookup_ge_None_2 by (rewrite length_fbytes; lia).
Qed.

(** A file whose inode and blocks are as before is as before. *)
Lemma node_kept W W' inum ty c : ino W' inum = ino W inum -> file_ok sb (ino W inum) W' -> same_file (ino W inum) W W' ->
  node W inum ty c -> node W' inum ty c.
Proof.
  intros E F Hs [N1 N2 [T1 T2 T3 T4] N4 N5 N6]. pose proof (fo_size _ _ _ N1) as Hsz. split; rewrite ?E; try done.
  - split; [intros k Hk Hl; rewrite (same_faddr _ W) by (done || unfold BSIZE in *; lia); by apply T1
      |intros k Hk Hl; rewrite (same_faddr _ W) by done; by apply T2|done|].
    intros o Ho Hno. rewrite (same_faddr _ W) in Hno by (done || apply maxfile_block; lia). rewrite (sf_bytes _ _ _ Hs) by (done || lia). by apply T4.
  - rewrite <- N5 at 2. apply fbytes_ext. intros o Ho. apply (same_content sb); [done|done|lia].
Qed.

Lemma appended x y W W' c p : fbytes x W 0 (length c) = c ->
  (forall o, 0 <= o < Z.of_nat (length (c ++ p)) -> fbyte y W' o = if decide (Z.of_nat (length c) <= o < Z.of_nat (length c) + Z.of_nat (length p))
     then default 0 (p !! Z.to_nat (o - Z.of_nat (length c))) else fbyte x W o) ->
  fbytes y W' 0 (length (c ++ p)) = c ++ p.
Proof.
  intros Hc Hb. apply list_eq. intros i. rewrite length_app in Hb. destruct (decide (i < length (c ++ p))%nat) as [Hi|Hi].
  2: { rewrite !lookup_ge_None_2; [done|lia|rewrite length_fbytes; lia]. }
  rewrite length_app in Hi. rewrite fbytes_lookup by (rewrite length_app; lia). rewrite Z.add_0_l, Hb by lia. case_decide as K.
  - rewrite lookup_app_r by lia. replace (Z.to_nat (Z.of_nat i - Z.of_nat (length c))) with (i - length c)%nat by lia.
    destruct (lookup_lt_is_Some_2 p (i - length c)) as [v Hv]; [lia|]. by rewrite Hv.
  - rewrite lookup_app_l by lia. rewrite <- Hc. by rewrite fbytes_lookup by lia.
Qed.

Lemma built_append s W ns i ty c p : built s W ns -> ns !! i = Some (ty, c) -> let n := Z.of_nat (length (c ++ p)) in
  n <= MAXFILE * BSIZE -> nmeta + total (<[i := (ty, c ++ p)]> ns) <= FSSIZE ->
  runs (iappend (Z.of_nat i + 1) p) s (fun _ s' => exists W', built s' W' (<[i := (ty, c ++ p)]> ns)).
Proof.
  intros [R Hn Hf HN HA Hfr Hlo] Hi n Hfit Hroom. pose proof (lookup_lt_Some _ _ _ Hi) as Hlt. set (inum := Z.of_nat i + 1).
  assert (Hin : 0 <= inum < 208) by (unfold inum; lia).
  pose proof (HN i ty c Hi) as [N1 N2 N3 N4 N5 N6]. fold inum in N1, N2, N3, N4, N5, N6. set (x := ino W inum) in *.
  assert (En : i_size x + Z.of_nat (length p) = n) by (unfold n; rewrite length_app, N4; lia).
  rewrite (total_insert ns i ty c (c ++ p) Hi) in Hroom. fold n in Hroom. change nmeta with 46 in *. change FSSIZE with 2000 in Hroom.
  eapply runs_conseq; [apply (iappend_rep s W inum p R Hin N1 N2); fold x; rewrite ?En, ?N4; (done || lia)|].
  fold x. intros [] s' (W' & R' & Wr & Hr & T & Ei & Ef). rewrite En in T, Ef. exists W'.
  pose proof (wt_size _ _ _ _ _ _ _ _ Wr) as Hsz. rewrite En, N4, Z.max_r in Hsz by (unfold n; rewrite length_app; lia).
  pose proof (iblock_range inum Hin) as Hib.
  assert (Hlow : forall m, m < 45 -> m <> IBLOCK inum sb -> W' m = W m) by (intros m Hm Hne; by apply (wt_low _ _ _ _ _ _ _ _ Wr)).
  assert (Hoth : forall j, (j < length ns)%nat -> j <> i -> ino W' (Z.of_nat j + 1) = ino W (Z.of_nat j + 1) /\
    file_ok sb (ino W (Z.of_nat j + 1)) W' /\ disjoint_files (ino W' inum) (ino W (Z.of_nat j + 1)) W' /\
    same_file (ino W (Z.of_nat j + 1)) W W').
  { intros j Hj Hne. destruct (lookup_lt_is_Some_2 ns j Hj) as [[ty' c'] Hjn]. split.
    - apply (ino_kept W W' inum); [done|lia|unfold inum; lia| |apply (wt_inodes _ _ _ _ _ _ _ _ Wr)]. intros m Hm. apply Hlow. lia.
    - apply (wt_others _ _ _ _ _ _ _ _ Wr); [apply (HN j ty' c' Hjn)|]. unfold x, inum. apply HA; [done|done|congruence]. }
  split; rewrite ?length_insert; try done.
  - congruence.
  - intros j ty' c' Hj. apply list_lookup_insert_Some in Hj as [(<- & E & _)|(Hne & Hj)].
    + injection E as <- <-. fold inum. split; try done; [apply (wt_file _ _ _ _ _ _ _ _ Wr)| |].
      * apply (appended x (ino W' inum) W W' c p); [done|]. intros o Ho. rewrite (wt_bytes _ _ _ _ _ _ _ _ Wr) by lia. by rewrite N4.
      * rewrite (wt_fields _ _ _ _ _ _ _ _ Wr). done.
    + pose proof (lookup_lt_Some _ _ _ Hj) as Hjl. destruct (Hoth j Hjl ltac:(done)) as (K1 & K2 & _ & K4).
      by apply (node_kept W); [..|apply HN].
  - intros j k Hj Hk Hne. destruct (decide (j = i)) as [->|Hji]; [|destruct (decide (k = i)) as [->|Hki]].
    + destruct (Hoth k Hk ltac:(done)) as (-> & _ & K3 & _). done.
    + destruct (Hoth j Hj ltac:(done)) as (-> & _ & K3 & _). by apply disjoint_sym.
    + destruct (Hoth j Hj Hji) as (-> & _ & _ & [K4 _]). destruct (Hoth k Hk Hki) as (-> & _ & _ & [K4' _]).
      intros a b Ha Hb. rewrite K4, K4' by done. by apply HA.
  - rewrite Ef, Hfr, (total_insert ns i ty c (c ++ p) Hi), N4. fold n. change nmeta with 46. lia.
  - intros m Hm. rewrite Hlow by lia. by apply Hlo.
Qed.

(** An inode without blocks. *)
Lemma zero_slots x W : i_addrs x = replicate 13 0 -> forall i, slot_addr x W i = 0.
Proof.
  intros E i. unfold slot_addr, indirect. rewrite E. destruct (i <=? 12)%nat; [|done]. do 13 (destruct i as [|i]; [done|]). by destruct i.
Qed.
Lemma empty_node W inum x : ino W inum = x -> i_addrs x = replicate 13 0 -> i_size x = 0 -> inode_range x -> i_nlink x = 1 ->
  node W inum (i_type x) [].
Proof.
  intros E Ha Hs Hr Hl. pose proof (zero_slots x W Ha) as Hz. split; rewrite ?E; try done.
  - split; [|rewrite Hs; done|intros k Hk Hlt; rewrite Hs in Hlt; unfold BSIZE in Hlt; lia].
    split; [by rewrite Ha|by rewrite <- E| |]; intros i; [by rewrite Hz|]. intros j _ _ _. by rewrite Hz.
  - split; [intros k Hk Hlt; simpl in Hlt; unfold BSIZE in Hlt; lia|intros k _ _; apply Hz|intros _; apply (Hz 12%nat)|].
    intros o _ Hno. destruct Hno. apply Hz.
Qed.

Lemma built_ialloc s W ns ty : built s W ns -> (length ns < 207)%nat -> 0 <= ty < 2 ^ 15 ->
  runs (ialloc ty) s (fun inum s' => inum = Z.of_nat (length ns) + 1 /\ exists W', built s' W' (ns ++ [(ty, [])])).
Proof.
  intros [R Hn Hf HN HA Hfr Hlo] Hlt Hty. set (inum := Z.of_nat (length ns) + 1) in *. assert (Hin : 0 <= inum < 208) by (unfold inum; lia).
  unfold ialloc. apply runs_bind, runs_gets. rewrite Hn. apply runs_bind, runs_modify. rewrite u32_small, (xshort_id ty), (i16_small ty) by lia.
  change (i16 (xshort 1)) with 1. change (xint 0) with 0. set (x := inode0 <| i_dev := ROOTDEV |> <| i_inum := inum |> <| i_type := ty |> <| i_nlink := 1 |> <| i_size := 0 |>).
  set (s1 := s <| freeinode := inum + 1 |>). assert (R1 : rep s1 W) by (by destruct R).
  assert (Hx : inode_range x). { split; simpl; try lia. split; [done|]. apply (bool_decide_unpack _). vm_compute. exact I. }
  apply runs_bind. eapply runs_conseq; [by apply (winode_rep s1 W inum x R1 Hin)|]. intros [] s' (R' & Ef & Ei). apply runs_ret.
  split; [done|]. exists (put_ino W inum x). pose proof (iblock_range inum Hin) as Hib. set (W' := put_ino W inum x) in *.
  assert (Eino : ino W' inum = x) by (apply ino_same; [lia|done|done|apply (rp_len _ _ R)]).
  assert (Hag : forall m, sb_bmapstart (sblock mounted) <= m -> W' m = W m).
  { intros m Hm. by apply put_high. }
  assert (Hold : forall j, (j < length ns)%nat -> ino W' (Z.of_nat j + 1) = ino W (Z.of_nat j + 1)).
  { intros j Hj. apply put_other; [done|lia|unfold inum; lia|apply Hx]. }
  assert (Hown : forall j, (j < length ns)%nat -> file_ok sb (ino W (Z.of_nat j + 1)) W).
  { intros j Hj. destruct (lookup_lt_is_Some_2 ns j Hj) as [[ty' c'] Hjn]. apply (HN j ty' c' Hjn). }
  assert (Hsl : forall j, (j < length ns)%nat -> same_file (ino W (Z.of_nat j + 1)) W W').
  { intros j Hj. apply own_agree; [apply Hown, Hj|done]. }
  split; rewrite ?length_app; simpl; try done; try lia.
  - rewrite Ei. simpl. unfold inum. lia.
  - intros i ty' c' Hi. apply lookup_app_Some in Hi as [Hi|[Hge Hi]].
    + pose proof (lookup_lt_Some _ _ _ Hi) as Hil. destruct (file_agree mounted _ W W' mounted_layout (Hown i Hil) Hag) as [F' Hb].
      by apply (node_kept W); [by apply Hold|done|done|apply HN].
    + apply list_lookup_singleton_Some in Hi as [Hz E]. injection E as <- <-. replace (Z.of_nat i + 1) with inum by (unfold inum; lia).
      by apply (empty_node W' inum x).
  - intros i j Hi Hj Hne. destruct (decide (i = length ns)) as [->|Hil].
    + fold inum. rewrite Eino, Hold by lia. intros a b _ _ Ha. by rewrite (zero_slots x).
    + rewrite (Hold i) by lia. destruct (decide (j = length ns)) as [->|Hjl].
      * fold inum. rewrite Eino. intros a b _ _ Ha. by rewrite (zero_slots x) in Ha.
      * rewrite Hold by lia. intros a b Ha Hb. rewrite (sf_slots _ _ _ (Hsl i ltac:(lia))), (sf_slots _ _ _ (Hsl j ltac:(lia))) by done. apply HA; lia.
  - rewrite Ef. change (freeblock s1) with (freeblock s). rewrite Hfr, total_app. change (total [(ty, [])]) with 0. lia.
  - intros m Hm. unfold W', put_ino. rewrite bset_ne by lia. by apply Hlo.
Qed.
End built.

(** ** main *)

(** What is read before the end of the file, which an empty read reports. *)
Fixpoint until_eof (reads : list (list Z)) : list Z :=
  match reads with [] | [] :: _ => [] | buf :: reads' => buf ++ until_eof reads' end.
Definition file_content (f : host_file) : list Z := until_eof (default [] (hf_reads f)).
Definition entry (inum : Z) (f : host_file) : list Z := mk_dirent inum (skip_underscore (shortname (hf_name f))).
(** The entries of the files [fs] when the first of them gets inode [inum]. *)
Fixpoint entries (inum : Z) (fs : list host_file) : list Z :=
  match fs with [] => [] | f :: fs' => entry inum f ++ entries (inum + 1) fs' end.
Definition dots : list Z := mk_dirent ROOTINO [DOT] ++ mk_dirent ROOTINO [DOT; DOT].
Definition file_nodes (fs : list host_file) : list (Z * list Z) := (fun f => (T_FILE, file_content f)) <$> fs.

(** The files mkfs can take. *)
Record usable (f : host_file) : Prop := {
  us_open : is_Some (hf_reads f);
  us_name : SLASH ∉ shortname (hf_name f);
  us_size : Z.of_nat (length (file_content f)) <= MAXFILE * BSIZE
}.

Section main.
Implicit Types (s : image) (W : contents) (c rc : list Z) (ns : list (Z * list Z)) (f : host_file) (fs : list host_file).

Lemma need_nonneg a : 0 <= a -> 0 <= need a.
Proof. intros Ha. pose proof (need_mono 0 a ltac:(lia) Ha) as H. change (need 0) with 0 in H. lia. Qed.
Lemma total_nonneg ns : 0 <= total ns.
Proof. induction ns as [|n ns IH]; [done|]. simpl. pose proof (need_nonneg (Z.of_nat (length n.2)) ltac:(lia)). lia. Qed.

Lemma append_reads_built i ty reads : forall s W ns c, built s W ns -> ns !! i = Some (ty, c) ->
  Z.of_nat (length (c ++ until_eof reads)) <= MAXFILE * BSIZE -> nmeta + total (<[i := (ty, c ++ until_eof reads)]> ns) <= FSSIZE ->
  runs (append_reads (Z.of_nat i + 1) reads) s (fun _ s' => exists W', built s' W' (<[i := (ty, c ++ until_eof reads)]> ns)).
Proof.
  induction reads as [|p reads IH]; intros s W ns c B Hi Hfit Hroom;
    [|destruct p as [|v p]; [|set (q := v :: p) in *; change (until_eof (q :: reads)) with (q ++ until_eof reads) in *]];
    try (change (until_eof _) with (@nil Z); rewrite app_nil_r; apply runs_ret; exists W; by rewrite list_insert_id).
  change (append_reads _ (q :: reads)) with (iappend (Z.of_nat i + 1) q ;;; append_reads (Z.of_nat i + 1) reads). clearbody q. clear v p. rename q into p.
  rewrite app_assoc in Hfit, Hroom |- *.
  assert (Hlen : Z.of_nat (length (c ++ p)) <= Z.of_nat (length ((c ++ p) ++ until_eof reads))) by (rewrite (length_app (c ++ p)); lia).
  pose proof (need_mono _ _ (Nat2Z.is_nonneg (length (c ++ p))) Hlen) as Hm. rewrite (total_insert ns i ty c _ Hi) in Hroom.
  apply runs_bind. eapply runs_conseq; [apply (built_append s W ns i ty c p B Hi); [exact (Z.le_trans _ _ _ Hlen Hfit)|rewrite (total_insert ns i ty c _ Hi); lia]|].
  intros [] s1 (W1 & B1). pose proof (lookup_lt_Some _ _ _ Hi) as Hlt.
  eapply runs_conseq; [apply (IH s1 W1 _ (c ++ p) B1); [by apply list_lookup_insert_eq|done|]|].
  - rewrite list_insert_insert_eq, (total_insert ns i ty c _ Hi). lia.
  - intros [] s2 (W2 & B2). rewrite list_insert_insert_eq in B2. by exists W2.
Qed.

Lemma insert_last {A} (l : list A) a v w : <[S (length l) := v]> (a :: l ++ [w]) = a :: l ++ [v].
Proof. change (a :: <[length l := v]> (l ++ [w]) = a :: l ++ [v]). f_equal. induction l as [|b l IH]; [done|]. simpl. by f_equal. Qed.
Lemma add_file_built s W rc ns f : built s W ((T_DIR, rc) :: ns) -> usable f -> (length ns < 206)%nat ->
  let rc' := rc ++ entry (Z.of_nat (length ns) + 2) f in let ns' := (T_DIR, rc') :: ns ++ [(T_FILE, file_content f)] in
  Z.of_nat (length rc') <= MAXFILE * BSIZE -> nmeta + total ns' <= FSSIZE ->
  runs (add_file ROOTINO f) s (fun _ s' => exists W', built s' W' ns').
Proof.
  intros B [[reads Hreads] Hname Hsize] Hlen rc' ns' Hfit Hroom. unfold add_file. rewrite bool_decide_false by done. cbn [negb assert_that].
  apply runs_bind, runs_ret. rewrite Hreads.
  assert (Ec : file_content f = until_eof reads) by (unfold file_content; by rewrite Hreads). rewrite Ec in Hsize. unfold ns' in *. clear ns'. rewrite Ec in Hroom |- *.
  cbn [total foldr] in Hroom. fold (total (ns ++ [(T_FILE, until_eof reads)])) in Hroom. rewrite total_app in Hroom. cbn [total foldr snd] in Hroom.
  pose proof (total_nonneg ns) as Hpos. pose proof (need_nonneg _ (Nat2Z.is_nonneg (length (until_eof reads)))) as Hpos2.
  apply runs_bind. eapply runs_conseq; [apply (built_ialloc s W _ T_FILE B); simpl; [lia|unfold T_FILE; lia]|].
  intros inum s1 (-> & W1 & B1). replace (Z.of_nat (length ((T_DIR, rc) :: ns)) + 1) with (Z.of_nat (length ns) + 2) by (simpl; lia).
  rewrite xshort_id by lia. apply runs_bind. change ROOTINO with (Z.of_nat 0 + 1).
  eapply runs_conseq; [apply (built_append s1 W1 _ 0 T_DIR rc _ B1 eq_refl Hfit)|].
  { cbn [app insert list_insert]. change (mk_dirent _ _) with (entry (Z.of_nat (length ns) + 2) f). fold rc'. cbn [total foldr snd].
    fold (total (ns ++ [(T_FILE, [])])). rewrite total_app. cbn [total foldr snd]. change (need (Z.of_nat (length (@nil Z)))) with 0. lia. }
  intros [] s2 (W2 & B2). cbn [app insert list_insert] in B2. change (mk_dirent _ _) with (entry (Z.of_nat (length ns) + 2) f) in B2. fold rc' in B2.
  replace (Z.of_nat (length ns) + 2) with (Z.of_nat (S (length ns)) + 1) by lia.
  eapply runs_conseq; [apply (append_reads_built (S (length ns)) T_FILE reads s2 W2 _ [] B2); [by apply list_lookup_middle|done|]|].
  - rewrite app_nil_l, insert_last. cbn [total foldr snd]. fold (total (ns ++ [(T_FILE, until_eof reads)])).
    rewrite total_app. cbn [total foldr snd]. lia.
  - intros [] s3 (W3 & B3). rewrite app_nil_l, insert_last in B3. by exists W3.
Qed.

Lemma entries_length inum fs : (length (entries inum fs) = 16 * length fs)%nat.
Proof.
  revert inum. induction fs as [|f fs IH]; intros inum; [done|]. cbn [entries length]. rewrite length_app, IH.
  assert (Hs : forall n t, length (strncpy_arr n t) = n).
  { induction n as [|n IHn]; intros t; [done|]. simpl. f_equal. destruct (default 0 (t !! 0%nat) =? 0); [apply length_replicate|apply IHn]. }
  unfold entry, mk_dirent. rewrite length_app, Hs. simpl. lia.
Qed.
Lemma add_files_built fs : forall s W rc ns, built s W ((T_DIR, rc) :: ns) -> Forall usable fs -> (length ns + length fs <= 206)%nat ->
  let rc' := rc ++ entries (Z.of_nat (length ns) + 2) fs in let ns' := (T_DIR, rc') :: ns ++ file_nodes fs in
  Z.of_nat (length rc') <= MAXFILE * BSIZE -> nmeta + total ns' <= FSSIZE ->
  runs (add_files ROOTINO fs) s (fun _ s' => exists W', built s' W' ns').
Proof.
  induction fs as [|f fs IH]; intros s W rc ns B HF Hlen rc' ns' Hfit Hroom; cbn [add_files].
  { apply runs_ret. exists W. unfold ns', rc'. cbn [entries file_nodes fmap list_fmap]. by rewrite !app_nil_r. }
  apply Forall_cons in HF as [Hf HF]. simpl in Hlen. unfold rc' in *. clear rc'. cbn [entries] in *.
  set (e := entry (Z.of_nat (length ns) + 2) f) in *. set (es := entries (Z.of_nat (length ns) + 2 + 1) fs) in *.
  assert (Ens : ns' = (T_DIR, (rc ++ e) ++ es) :: (ns ++ [(T_FILE, file_content f)]) ++ file_nodes fs).
  { unfold ns'. rewrite <- !app_assoc. done. }
  rewrite app_assoc in Hfit. rewrite Ens in Hroom |- *. clear ns' Ens.
  pose proof (length_app (rc ++ e) es) as El. pose proof (total_nonneg (file_nodes fs)) as Hpos.
  pose proof (need_mono (Z.of_nat (length (rc ++ e))) (Z.of_nat (length ((rc ++ e) ++ es))) ltac:(lia) ltac:(lia)) as Hm.
  apply runs_bind. eapply runs_conseq; [apply (add_file_built s W rc ns f B Hf); fold e; [lia|lia|]|].
  { cbn [total foldr snd] in Hroom |- *. fold (total ((ns ++ [(T_FILE, file_content f)]) ++ file_nodes fs)) in Hroom. rewrite total_app in Hroom.
    fold (total (ns ++ [(T_FILE, file_content f)])). lia. }
  fold e. intros [] s1 (W1 & B1). pose proof (IH s1 W1 (rc ++ e) (ns ++ [(T_FILE, file_content f)]) B1 HF) as Hrun.
  rewrite length_app in Hrun. cbn [length] in Hrun. replace (Z.of_nat (length ns + 1) + 2) with (Z.of_nat (length ns) + 2 + 1) in Hrun by lia.
  fold es in Hrun. apply Hrun; [lia|done|done].
Qed.

(** The image after the zero blocks and the superblock are written. *)
Definition fresh : contents := bset (bset (fun _ => block0) 1 (sb_bytes sb)) 45 (bits 46).
Lemma fresh_built s : freeblock s = nmeta -> freeinode s = 1 -> (forall n, 0 <= n < 2000 -> im_sect s !! n = Some (if n =? 1 then sb_bytes sb else zeroes)) ->
  built s fresh [].
Proof.
  intros Ef Ei Hs. change nmeta with 46 in Ef. unfold fresh. split; try done; [|simpl; lia| |].
  - split; [lia| | | |].
    + intros n Hn Hne. rewrite Hs, bset_ne by done. destruct (Z.eqb_spec n 1) as [->|]; [by rewrite bset_eq|by rewrite bset_ne].
    + intros n. destruct (decide (n = 45)) as [->|]; [rewrite bset_eq; apply length_bits|]. rewrite bset_ne by done.
      destruct (decide (n = 1)) as [->|]; [by rewrite bset_eq|by rewrite bset_ne].
    + by rewrite bset_eq, Ef.
    + intros n Hn. by rewrite !bset_ne by lia.
  - simpl in *; lia.
  - intros n Hn. rewrite bset_ne by lia. destruct (Z.eqb_spec n 1) as [->|]; [by rewrite bset_eq|by rewrite bset_ne].
Qed.
Lemma start_built {A} (k : M image A) Q : (forall s, built s fresh [] -> runs k s Q) ->
  runs (modify (fun i => i <| freeblock := nmeta |>) ;;; mfor (Z.to_nat FSSIZE) (fun i => wsect (Z.of_nat i) zeroes) ;;; wsect 1 (sb_bytes sb) ;;; k) image0 Q.
Proof.
  intros Hk. apply runs_bind, runs_modify. apply runs_bind.
  eapply (runs_for (fun i s => freeblock s = nmeta /\ freeinode s = 1 /\ forall n, 0 <= n < Z.of_nat i -> im_sect s !! n = Some zeroes)).
  - split_and!; [done|done|]. intros n Hn. lia.
  - intros i s _ (E1 & E2 & Hs). apply runs_modify. split_and!; [done|done|]. intros n Hn. simpl.
    destruct (decide (n = Z.of_nat i)) as [->|]; [by rewrite lookup_insert_eq|]. rewrite lookup_insert_ne by done. apply Hs. lia.
  - intros s (E1 & E2 & Hs). apply runs_bind, runs_modify. apply Hk, fresh_built; [done|done|]. intros n Hn. simpl.
    destruct (Z.eqb_spec n 1) as [->|]; [by rewrite lookup_insert_eq|]. rewrite lookup_insert_ne by done. apply Hs. change (Z.of_nat (Z.to_nat FSSIZE)) with 2000. lia.
Qed.
End main.

(** ** The finished image *)

Definition root_entries (fs : list host_file) : list Z := dots ++ entries 2 fs.
Definition nodes (fs : list host_file) : list (Z * list Z) := (T_DIR, root_entries fs) :: file_nodes fs.

(** [V] is a file system with the files [fs]. *)
Record mountable (fs : list host_file) (V : contents) : Prop := {
  mo_sb : get_sb (V 1) = Superblock FSMAGIC 2000 1954 200 30 2 32 45;
  mo_log : forall n, 2 <= n < 32 -> V n = block0;
  mo_used : forall n, 0 <= n < 2000 -> used sb V n = (n <? nmeta + total (nodes fs));
  mo_root : let x := ino V ROOTINO in let len := Z.of_nat (length (root_entries fs)) in
    i_type x = T_DIR /\ i_nlink x = 1 /\ i_size x = (len / BSIZE + 1) * BSIZE /\
    fbytes x V 0 (length (root_entries fs)) = root_entries fs /\
    (if len mod BSIZE =? 0 then ~ file_ok sb x V else file_ok sb x V /\ forall o, len <= o < i_size x -> fbyte x V o = 0);
  mo_file : forall i f, fs !! i = Some f -> let x := ino V (Z.of_nat i + 2) in
    i_type x = T_FILE /\ i_nlink x = 1 /\ i_size x = Z.of_nat (length (file_content f)) /\ file_ok sb x V /\
    fbytes x V 0 (length (file_content f)) = file_content f;
  mo_apart : forall i j, (i <= length fs)%nat -> (j <= length fs)%nat -> i <> j ->
    disjoint_files (ino V (Z.of_nat i + 1)) (ino V (Z.of_nat j + 1)) V
}.

Section finish.
Implicit Types (s : image) (W V : contents) (fs : list host_file).

(** The root directory gets the size of whole blocks. *)
Lemma root_fixed W c : node W ROOTINO T_DIR c -> Z.of_nat (length c) < 2 ^ 16 -> (forall n, length (W n) = Z.to_nat BSIZE) ->
  let len := Z.of_nat (length c) in let sz := (len / BSIZE + 1) * BSIZE in let x := ino W ROOTINO <| i_size := sz |> in
  let V := put_ino W ROOTINO x in
  ino V ROOTINO = x /\ fbytes x V 0 (length c) = c /\
  (if len mod BSIZE =? 0 then ~ file_ok sb x V else file_ok sb x V /\ forall o, len <= o < sz -> fbyte x V o = 0).
Proof.
  intros [N1 N2 N3 N4 N5 N6] Hc HW len sz x V.
  pose proof (Z.div_mod len BSIZE ltac:(unfold BSIZE; lia)) as Hd. pose proof (Z.mod_pos_bound len BSIZE ltac:(unfold BSIZE; lia)) as Hm.
  assert (Hlen : 0 <= len) by (unfold len; lia). pose proof (Z.div_pos len BSIZE Hlen ltac:(unfold BSIZE; lia)) as Hq.
  assert (Hsz : len < sz <= len + BSIZE) by (unfold sz; lia). assert (Hmax : sz <= MAXFILE * BSIZE) by (unfold sz, MAXFILE, NDIRECT, NINDIRECT, BSIZE in *; change (1024 / 4) with 256; fold len in Hc; lia).
  assert (Hr : inode_range x).
  { destruct N2 as [R1 R2 R3 R4 R5 R6]. split; try done. simpl. unfold BSIZE in *. lia. }
  pose proof (fo_own _ _ _ N1) as O1.
  assert (S0 : same_file x W V).
  { apply own_agree; [by destruct O1|]. intros n Hn. by apply put_high. }
  destruct N3 as [T1 T2 T3 T4]. fold len in T1, T2, T3, T4.
  assert (Hfa : forall k, 0 <= k < MAXFILE -> faddr x V k = faddr (ino W ROOTINO) W k) by (intros k Hk; apply (same_faddr x W V k S0 Hk)).
  split_and!.
  - apply ino_same; [done|done|done|apply HW].
  - rewrite <- N5. rewrite N5 at 1. apply fbytes_ext. intros o Ho. apply (sf_bytes _ _ _ S0); [lia|].
    apply (fo_has _ _ _ N1); [apply Z.div_pos; unfold BSIZE; lia|]. apply below_size. rewrite N4. lia.
  - destruct (Z.eqb_spec (len mod BSIZE) 0) as [E0|E0].
    + intros F. apply (fo_has _ _ _ F (len / BSIZE)); [done|simpl; unfold sz; lia|].
      rewrite Hfa by (unfold sz, BSIZE in *; lia). apply T2; unfold sz, BSIZE in *; lia.
    + split.
      * split; [|simpl; lia|].
        -- assert (Hag : forall m, sb_bmapstart (sblock mounted) <= m -> V m = W m) by (intros m Hge; by apply put_high).
           destruct (fo_own _ _ _ (proj1 (file_agree mounted _ W V mounted_layout N1 Hag))) as [P1 P2 P3 P4]. by split.
        -- intros k Hk Hlt. simpl in Hlt. rewrite Hfa by (unfold BSIZE in *; lia). apply T1; [done|]. unfold sz, BSIZE in *. lia.
      * intros o Ho. assert (Hok : 0 <= o / BSIZE < MAXFILE) by (apply maxfile_block; lia).
        assert (Hne : faddr (ino W ROOTINO) W (o / BSIZE) <> 0).
        { assert (o / BSIZE <= len / BSIZE) by (apply Z.lt_succ_r, Z.div_lt_upper_bound; unfold sz, BSIZE in *; lia).
          apply T1; [lia|]. unfold BSIZE in *. lia. }
        rewrite (sf_bytes _ _ _ S0) by (done || lia). by apply (T4 o); [lia|].
Qed.

Definition root_size (rc : list Z) : Z := (Z.of_nat (length rc) / BSIZE + 1) * BSIZE.
Definition rooted W rc : contents := put_ino W ROOTINO (ino W ROOTINO <| i_size := root_size rc |>).

Lemma fix_root_rep s W rc ns : built s W ((T_DIR, rc) :: ns) -> Z.of_nat (length rc) < 2 ^ 16 ->
  runs (fix_root ROOTINO) s (fun _ s' => rep s' (rooted W rc) /\ freeblock s' = freeblock s).
Proof.
  intros B Hrc. pose proof (bu_node _ _ _ B 0 T_DIR rc eq_refl) as N. change (Z.of_nat 0 + 1) with ROOTINO in N. pose proof (bu_rep _ _ _ B) as R.
  assert (Hi : 0 <= ROOTINO < 208) by done. unfold fix_root. apply runs_bind. apply (runs_ok _ _ _ _ _ (rinode_rep s W ROOTINO R Hi)).
  rewrite (nd_size _ _ _ _ N), (xint_id (Z.of_nat (length rc))) by lia. rewrite xint_id.
  - eapply runs_conseq; [apply (winode_rep s W ROOTINO _ R Hi); apply (nd_file _ _ _ _ N)|]. by intros [] s' (R' & E & _).
  - pose proof (Z.div_le_upper_bound (Z.of_nat (length rc)) BSIZE (2 ^ 16) ltac:(done) ltac:(unfold BSIZE; lia)).
    pose proof (Z.div_pos (Z.of_nat (length rc)) BSIZE ltac:(lia) ltac:(done)). unfold BSIZE in *. lia.
Qed.
Lemma balloc_rep s V : rep s V -> runs (balloc (freeblock s)) s (fun _ s' => forall n, 0 <= n < 2000 -> im_sect s' !! n = Some (V n)).
Proof.
  intros [Hf Hs _ Hb _]. unfold balloc. destruct (Z.ltb_spec (freeblock s) (BSIZE * 8)) as [_|Hge]; [|unfold BSIZE in Hge; lia].
  apply runs_bind, runs_ret, runs_modify. intros n Hn. simpl. change (sb_bmapstart sb) with 45.
  destruct (decide (n = 45)) as [->|Hne]; [rewrite lookup_insert_eq, Hb; done|]. by rewrite lookup_insert_ne, Hs.
Qed.
Lemma finished_mountable s s' W fs : built s W (nodes fs) -> (length fs <= 206)%nat -> rep s' (rooted W (root_entries fs)) ->
  freeblock s' = freeblock s -> mountable fs (rooted W (root_entries fs)).
Proof.
  intros B Hfew R' Ef. set (rc := root_entries fs) in *. set (V := rooted W rc) in *.
  pose proof (bu_node _ _ _ B 0 T_DIR rc eq_refl) as N0. change (Z.of_nat 0 + 1) with ROOTINO in N0.
  assert (Hlen : length rc = (16 * length fs + 32)%nat) by (unfold rc, root_entries; rewrite length_app, entries_length; unfold dots; simpl; lia).
  assert (Hrc : Z.of_nat (length rc) < 2 ^ 16) by lia. assert (Hi : 0 <= ROOTINO < 208) by done.
  destruct (root_fixed W rc N0 Hrc (rp_len _ _ (bu_rep _ _ _ B))) as (E0 & Hb & Hok). fold (root_size rc) in *. fold (rooted W rc) in *. fold V in E0, Hb, Hok.
  assert (Ho : forall j, (j < length fs)%nat -> ino V (Z.of_nat j + 2) = ino W (Z.of_nat j + 2)).
  { intros j Hj. apply put_other; [done|lia|unfold ROOTINO; lia|]. apply (nd_file _ _ _ _ N0). }
  assert (Hag : forall m, sb_bmapstart (sblock mounted) <= m -> V m = W m) by (intros m Hm; by apply put_high).
  assert (Hnode : forall j f, fs !! j = Some f -> node V (Z.of_nat j + 2) T_FILE (file_content f)).
  { intros j f Hj. assert (N : node W (Z.of_nat j + 2) T_FILE (file_content f)).
    { replace (Z.of_nat j + 2) with (Z.of_nat (S j) + 1) by lia. apply (bu_node _ _ _ B). change (file_nodes fs !! j = Some (T_FILE, file_content f)). unfold file_nodes.
      by rewrite list_lookup_fmap, Hj. }
    apply (node_kept W); [by apply Ho, (lookup_lt_Some _ _ _ Hj)|..|done].
    - apply (file_agree mounted _ W V mounted_layout (nd_file _ _ _ _ N) Hag).
    - apply own_agree; [apply (nd_file _ _ _ _ N)|done]. }
  split.
  - unfold V, rooted, put_ino. rewrite bset_ne by (pose proof (iblock_range ROOTINO Hi); lia). rewrite (bu_low _ _ _ B 1) by lia. done.
  - intros n Hn. unfold V, rooted, put_ino. rewrite bset_ne by (pose proof (iblock_range ROOTINO Hi); lia). rewrite (bu_low _ _ _ B n) by lia.
    destruct (Z.eqb_spec n 1); [lia|done].
  - intros n Hn. rewrite (rep_used s' V n R' Hn), Ef, (bu_free _ _ _ B). done.
  - rewrite E0. destruct (nd_type _ _ _ _ N0) as [Ht Hl]. exact (conj Ht (conj Hl (conj eq_refl (conj Hb Hok)))).
  - intros i f Hf. destruct (Hnode i f Hf) as [M1 M2 M3 M4 M5 [M6 M7]]. by split_and!.
  - assert (Hsl : forall i a, (i <= length fs)%nat -> (a < NSLOT)%nat -> slot_addr (ino V (Z.of_nat i + 1)) V a = slot_addr (ino W (Z.of_nat i + 1)) W a).
    { intros i a Hil Ha. destruct (lookup_lt_is_Some_2 (nodes fs) i) as [[ty c] Hc]; [unfold nodes, file_nodes; simpl; rewrite length_fmap; lia|].
      pose proof (nd_file _ _ _ _ (bu_node _ _ _ B i ty c Hc)) as F. transitivity (slot_addr (ino W (Z.of_nat i + 1)) V a).
      - destruct i as [|i]; [change (Z.of_nat 0 + 1) with ROOTINO; by rewrite E0|].
        replace (Z.of_nat (S i) + 1) with (Z.of_nat i + 2) by lia. by rewrite Ho by lia.
      - apply (sf_slots _ _ _ (own_agree _ W V (fo_own _ _ _ F) Hag)). done. }
    intros i j Hil Hjl Hne a b Ha Hab. rewrite !Hsl by done.
    assert (Hn : length (nodes fs) = S (length fs)) by (unfold nodes, file_nodes; simpl; by rewrite length_fmap).
    apply (bu_apart _ _ _ B); lia.
Qed.

Lemma main_built fs : Forall usable fs -> (length fs <= 206)%nat -> nmeta + total (nodes fs) <= FSSIZE ->
  runs (main fs) image0 (fun _ s' => exists V, (forall n, 0 <= n < 2000 -> im_sect s' !! n = Some (V n)) /\ mountable fs V).
Proof.
  intros HF Hfew Hroom. unfold main. apply start_built. intros s B0. cbn [nodes total foldr snd] in Hroom. fold (total (file_nodes fs)) in Hroom.
  assert (Hlen : length (root_entries fs) = (16 * length fs + 32)%nat) by (unfold root_entries; rewrite length_app, entries_length; unfold dots; simpl; lia).
  apply runs_bind. eapply runs_conseq; [apply (built_ialloc s _ _ T_DIR B0); [simpl; lia|unfold T_DIR; lia]|]. intros r s1 (-> & W1 & B1).
  change (Z.of_nat (length []) + 1) with ROOTINO. apply runs_bind, runs_ret. change (xshort ROOTINO) with ROOTINO.
  apply runs_bind. eapply runs_conseq; [apply (built_append s1 W1 _ 0 T_DIR [] _ B1 eq_refl); by vm_compute|]. intros [] s2 (W2 & B2).
  apply runs_bind. eapply runs_conseq; [apply (built_append s2 W2 _ 0 T_DIR _ (mk_dirent ROOTINO [DOT; DOT]) B2 eq_refl); by vm_compute|].
  intros [] s3 (W3 & B3). change (<[0%nat := _]> _) with [(T_DIR, dots)] in B3.
  apply runs_bind. eapply runs_conseq; [apply (add_files_built fs s3 W3 dots [] B3 HF); change (Z.of_nat (length []) + 2) with 2; fold (root_entries fs)|].
  - simpl. lia.
  - change (MAXFILE * BSIZE) with 274432. lia.
  - done.
  - change (Z.of_nat (length []) + 2) with 2. fold (root_entries fs). rewrite app_nil_l. fold (nodes fs). intros [] s4 (W4 & B4).
    apply runs_bind. eapply runs_conseq; [apply (fix_root_rep s4 W4 _ _ B4); lia|]. intros [] s5 (R5 & E5). apply runs_bind, runs_gets.
    eapply runs_conseq; [apply (balloc_rep s5 _ R5)|]. intros [] s6 Hs. exists (rooted W4 (root_entries fs)). split; [done|].
    exact (finished_mountable s4 s5 W4 fs B4 Hfew R5 E5).
Qed.
End finish.

(** C8. Building an image: when every file can be opened, has a name without a slash and at most [MAXFILE] blocks, when there are
    inodes for all of them, and when the meta blocks and the blocks the contents need fit in [FSSIZE] blocks, mkfs completes and
    its image is a mountable file system. The superblock the kernel reads gives the layout; the log is empty; the bitmap marks
    exactly the blocks below the first unallocated one; inode [i + 2] is the [i]-th file with the bytes read from the host; no two
    files share a block; the root directory begins with the entries [.], [..] and one entry for each file. The root directory's
    size is rounded up to whole blocks: the padding reads as zeros (free entries), except that a directory that already fills its
    blocks gets the size of one more block, which is not allocated. *)
Theorem mkfs_builds fs : Forall usable fs -> (length fs <= 206)%nat -> nmeta + total (nodes fs) <= FSSIZE ->
  exists s' V, main fs image0 = Ok tt s' /\ (forall n, 0 <= n < FSSIZE -> im_sect s' !! n = Some (V n)) /\ mountable fs V.
Proof.
  intros HF Hfew Hroom. destruct (runs_inv _ _ _ (main_built fs HF Hfew Hroom)) as ([] & s' & E & V & Hs & HV).
  exact (ex_intro _ s' (ex_intro _ V (conj E (conj Hs HV)))).
Qed.

(** The image of a file [user/_sh] of 1100 bytes and an empty file [README]. *)
Definition ex_files : list host_file :=
  [HostFile [117; 115; 101; 114; 47; 95; 115; 104] (Some [replicate 1024 7; replicate 76 8]); HostFile [82; 69; 65; 68; 77; 69] (Some [])].
Lemma mkfs_builds_witness : exists s' V, main ex_files image0 = Ok tt s' /\ (forall n, 0 <= n < FSSIZE -> im_sect s' !! n = Some (V n)) /\
  mountable ex_files V /\ i_size (ino V 2) = 1100 /\ used sb V 48 = true /\ used sb V 49 = false.
Proof.
  destruct (mkfs_builds ex_files) as (s' & V & E & Hs & HV).
  - repeat constructor; try (by eexists); try done; cbn; set_solver.
  - simpl. lia.
  - by vm_compute.
  - exists s', V. split; [exact E|]. split; [exact Hs|]. split; [exact HV|].
    split; [exact (proj1 (proj2 (proj2 (mo_file _ _ HV 0 _ eq_refl))))|].
    rewrite !(mo_used _ _ HV) by lia. split; by vm_compute.
Defined.
