(* ===== verification/Args.v ===== *)
(** * System call arguments: the first part of kernel/syscall.c

    The arguments are in the trapframe of the current process, in simulated RAM.  Strings
    are copied into arrays of the callers, which are lists of bytes here. *)

From S2P Require Import Prelude Riscv CString Kalloc Vm Spinlock Proc ProcSpec Headers Printf.

(** A register of the current process's trapframe. *)
Definition tf_get (off : Z) : M kern Z :=
  p <- self ;; tf <- proc_get p p_trapframe ;; load_ram (tf + off).
Definition tf_set (off v : Z) : M kern unit :=
  p <- self ;; tf <- proc_get p p_trapframe ;; store_ram (tf + off) v.

(** 0 with the word, or -1. *)
Definition fetchaddr (addr : Z) : M kern (Z * Z) :=
  p <- self ;;
  sz <- proc_get p p_sz ;;
  if (sz <=? addr) || (sz <? u64 (addr + 8)) then mret (-1, 0)
  else
    pt <- proc_get p p_pagetable ;;
    ' (r, bs) <- on_phys (copyin pt addr 8) ;;
    mret (if negb (r =? 0) then (-1, 0) else (0, le_val bs)).

(** The length and the bytes copied to [buf], or -1. *)
Definition fetchstr (addr max : Z) : M kern (Z * list Z) :=
  p <- self ;;
  pt <- proc_get p p_pagetable ;;
  ' (r, bs) <- on_phys (copyinstr pt addr max) ;;
  mret (if r <? 0 then (-1, bs) else (Z.of_nat (length (cstr bs)), bs)).

Definition argraw (n : Z) : M kern Z :=
  if (0 <=? n) && (n <=? 5) then tf_get (TF_a0 + 8 * n) else panic "argraw".
Definition argint (n : Z) : M kern Z := v <- argraw n ;; mret (i32 v).
Definition argaddr (n : Z) : M kern Z := argraw n.
(** The length and the string, or -1. *)
Definition argstr (n max : Z) : M kern (Z * list Z) :=
  addr <- argaddr n ;;
  ' (len, bs) <- fetchstr addr max ;;
  mret (len, cstr bs).
