(* ===== verification/Exec.v ===== *)
(** * Loading programs: kernel/exec.c

    [argv] is the list of the kernel pages that hold the argument strings. *)

From S2P Require Import Prelude Riscv CString Kalloc Vm Spinlock Proc ProcSpec Headers Sleeplock Uart Printf.
From S2P Require Import Bio Log Fs Args.

Definition ELF_MAGIC : Z := 0x464C457F.
Definition ELF_PROG_LOAD : Z := 1.
Definition sizeof_elfhdr : Z := 64.
Definition sizeof_proghdr : Z := 56.

Record elfhdr := Elfhdr { elf_magic : Z; elf_entry : Z; elf_phoff : Z; elf_phnum : Z }.
Definition get_elfhdr (bs : list Z) : elfhdr :=
  Elfhdr (get_le 4 bs 0) (get_le 8 bs 24) (get_le 8 bs 32) (get_le 2 bs 56).
Record proghdr := Proghdr {
  ph_type : Z; ph_flags : Z; ph_off : Z; ph_vaddr : Z; ph_filesz : Z; ph_memsz : Z
}.
Definition get_proghdr (bs : list Z) : proghdr :=
  Proghdr (get_le 4 bs 0) (get_le 4 bs 4) (get_le 8 bs 8) (get_le 8 bs 16) (get_le 8 bs 32) (get_le 8 bs 40).

Definition flags2perm (flags : Z) : Z :=
  let perm := if z2b (Z.land flags 1) then PTE_X else 0 in
  if z2b (Z.land flags 2) then Z.lor perm PTE_W else perm.

(** The part of the path after the last slash. *)
Fixpoint basename (last s : list Z) : list Z :=
  match s with [] => last | c :: s' => if c =? SLASH then basename s' s' else basename last s' end.

Section exec.
Context `{DiskOps} `{Board} (kend trampoline : Z).

Fixpoint loadseg_loop (fuel : nat) (pagetable va : Z) (ip : nat) (offset sz i : Z) : M kern Z :=
  match fuel with
  | O => mfail NoFuel
  | S fuel' =>
      if i <? sz then
        pa <- on_phys (walkaddr pagetable (u64 (va + i))) ;;
        if pa =? 0 then panic "loadseg: address should exist"
        else
          let n := if sz - i <? PGSIZE then sz - i else PGSIZE in
          r <- readi ip false pa (u32 (offset + i)) n ;;
          if negb (r =? n) then mret (-1)
          else loadseg_loop fuel' pagetable va ip offset sz (i + PGSIZE)
      else mret 0
  end.
Definition loadseg (pagetable va : Z) (ip : nat) (offset sz : Z) : M kern Z :=
  loadseg_loop (Z.to_nat (sz / PGSIZE) + 2) pagetable va ip offset sz 0.

(** The program headers: whether all were loaded, and the size by then. *)
Fixpoint load_headers (n : nat) (ip : nat) (pagetable off sz : Z) : M kern (bool * Z) :=
  match n with
  | O => mret (true, sz)
  | S n' =>
      ' (r, bs) <- readi_local ip (u32 off) sizeof_proghdr ;;
      let ph := get_proghdr bs in
      if negb (r =? sizeof_proghdr) then mret (false, sz)
      else if negb (ph_type ph =? ELF_PROG_LOAD) then
        load_headers n' ip pagetable (i32 (off + sizeof_proghdr)) sz
      else if ph_memsz ph <? ph_filesz ph then mret (false, sz)
      else if u64 (ph_vaddr ph + ph_memsz ph) <? ph_vaddr ph then mret (false, sz)
      else if negb (ph_vaddr ph mod PGSIZE =? 0) then mret (false, sz)
      else
        sz1 <- on_phys (uvmalloc kend pagetable sz (u64 (ph_vaddr ph + ph_memsz ph)) (flags2perm (ph_flags ph))) ;;
        if sz1 =? 0 then mret (false, sz)
        else
          r <- loadseg pagetable (ph_vaddr ph) ip (u32 (ph_off ph)) (u32 (ph_filesz ph)) ;;
          if r <? 0 then mret (false, sz1)
          else load_headers n' ip pagetable (i32 (off + sizeof_proghdr)) sz1
  end.

(** Push the argument strings; the stack pointers of the strings, [None] on failure. *)
Fixpoint push_args (pagetable stackbase sp : Z) (argv : list Z) (ustack : list Z) : M kern (option (Z * list Z)) :=
  match argv with
  | [] => mret (Some (sp, ustack))
  | a :: argv' =>
      if (MAXARG <=? length ustack)%nat then mret None
      else
        m <- on_phys (gets ram) ;;
        len <- mlookup (strlen (Z.to_nat PGSIZE) m a) ;;
        let sp := u64 (sp - (len + 1)) in
        let sp := u64 (sp - sp mod 16) in
        if sp <? stackbase then mret None
        else
          r <- on_phys (copyout pagetable sp (read_bytes m a (Z.to_nat (len + 1)))) ;;
          if r <? 0 then mret None
          else push_args pagetable stackbase sp argv' (ustack ++ [sp])
  end.

Definition exec_bad (pagetable sz : Z) (ip : option nat) : M kern Z :=
  mwhen (negb (pagetable =? 0)) (on_phys (proc_freepagetable kend pagetable sz)) ;;;
  match ip with
  | Some ip => iunlockput ip ;;; end_op ;;; mret (-1)
  | None => mret (-1)
  end.

(** From the stack allocation to the new image. *)
Definition exec_commit (p : nat) (path : list Z) (argv : list Z) (entry pagetable sz : Z) : M kern Z :=
  oldsz <- proc_get p p_sz ;;
  let sz := PGROUNDUP sz in
  sz1 <- on_phys (uvmalloc kend pagetable sz (u64 (sz + 2 * PGSIZE)) PTE_W) ;;
  if sz1 =? 0 then exec_bad pagetable sz None
  else
    let sz := sz1 in
    on_phys (uvmclear pagetable (u64 (sz - 2 * PGSIZE))) ;;;
    let stackbase := u64 (sz - PGSIZE) in
    pushed <- push_args pagetable stackbase sz argv [] ;;
    match pushed with
    | None => exec_bad pagetable sz None
    | Some (sp, ustack) =>
        let argc := Z.of_nat (length ustack) in
        let sp := u64 (sp - (argc + 1) * 8) in
        let sp := u64 (sp - sp mod 16) in
        if sp <? stackbase then exec_bad pagetable sz None
        else
          r <- on_phys (copyout pagetable sp (mjoin (le_bytes 8 <$> ustack ++ [0]))) ;;
          if r <? 0 then exec_bad pagetable sz None
          else
            tf <- proc_get p p_trapframe ;;
            store_ram (tf + TF_a1) sp ;;;
            proc_set p (fun x => x <| p_name ::= fun nm => safestrcpy_arr nm (basename path path ++ [0]) 16 |>) ;;;
            oldpagetable <- proc_get p p_pagetable ;;
            proc_set p (fun x => x <| p_pagetable := pagetable |> <| p_sz := sz |>) ;;;
            store_ram (tf + TF_epc) entry ;;;
            store_ram (tf + TF_sp) sp ;;;
            on_phys (proc_freepagetable kend oldpagetable oldsz) ;;;
            mret argc
    end.

Definition exec (path : list Z) (argv : list Z) : M kern Z :=
  p <- self ;;
  begin_op ;;;
  found <- namei path ;;
  match found with
  | None => end_op ;;; mret (-1)
  | Some ip =>
      ilock ip ;;;
      ' (r, bs) <- readi_local ip 0 sizeof_elfhdr ;;
      let elf := get_elfhdr bs in
      if negb (r =? sizeof_elfhdr) then exec_bad 0 0 (Some ip)
      else if negb (elf_magic elf =? ELF_MAGIC) then exec_bad 0 0 (Some ip)
      else
        tf <- proc_get p p_trapframe ;;
        pagetable <- on_phys (proc_pagetable kend trampoline tf) ;;
        if pagetable =? 0 then exec_bad 0 0 (Some ip)
        else
          ' (ok, sz) <- load_headers (Z.to_nat (elf_phnum elf)) ip pagetable (i32 (elf_phoff elf)) 0 ;;
          if negb ok then exec_bad pagetable sz (Some ip)
          else
            iunlockput ip ;;;
            end_op ;;;
            exec_commit p path argv (elf_entry elf) pagetable sz
  end.

End exec.
