(* ===== verification/Sysfile.v ===== *)
(** * File system calls: kernel/sysfile.c

    Return values are C ints; the caller stores them in a0.  A null inode or file is
    [None]. *)

From S2P Require Import Prelude Riscv CString Kalloc Vm Spinlock Proc ProcSpec Headers Sleeplock Bio Log Fs.
From S2P Require Import Pipe Uart Printf Console File Args Exec.

Definition O_RDONLY : Z := 0x000.
Definition O_WRONLY : Z := 0x001.
Definition O_RDWR : Z := 0x002.
Definition O_CREATE : Z := 0x200.
Definition O_TRUNC : Z := 0x400.
Definition DOT : list Z := [46; 0].
Definition DOTDOT : list Z := [46; 46; 0].
Definition name0 : list Z := replicate (Z.to_nat DIRSIZ) 0.

(** The descriptor and the file, or [None] for -1. *)
Definition argfd (n : Z) : M kern (option (nat * nat)) :=
  fd <- argint n ;;
  if (fd <? 0) || (Z.of_nat NOFILE <=? fd) then mret None
  else
    p <- self ;;
    fds <- proc_get p p_ofile ;;
    f <- mlookup (fds !! Z.to_nat fd) ;;
    mret ((fun f => (Z.to_nat fd, f)) <$> f).

Definition set_ofile (p fd : nat) (f : option nat) : M kern unit :=
  proc_set p (fun x => x <| p_ofile ::= insert fd f |>).
Definition fdalloc (f : nat) : M kern Z :=
  p <- self ;;
  fds <- proc_get p p_ofile ;;
  match list_find (fun o => o = None) (take NOFILE fds) with
  | Some (fd, _) => set_ofile p fd (Some f) ;;; mret (Z.of_nat fd)
  | None => mret (-1)
  end.

Definition sys_dup : M kern Z :=
  a <- argfd 0 ;;
  match a with
  | None => mret (-1)
  | Some (_, f) =>
      fd <- fdalloc f ;;
      if fd <? 0 then mret (-1) else filedup f ;;; mret fd
  end.

Section sysfile.
Context `{DiskOps} `{Board} (kend trampoline : Z).

Definition sys_read : M kern Z :=
  p <- argaddr 1 ;;
  n <- argint 2 ;;
  a <- argfd 0 ;;
  match a with None => mret (-1) | Some (_, f) => fileread f p n end.

Definition sys_write : M kern Z :=
  p <- argaddr 1 ;;
  n <- argint 2 ;;
  a <- argfd 0 ;;
  match a with None => mret (-1) | Some (_, f) => filewrite f p n end.

Definition sys_close : M kern Z :=
  a <- argfd 0 ;;
  match a with
  | None => mret (-1)
  | Some (fd, f) =>
      p <- self ;;
      set_ofile p fd None ;;;
      fileclose kend f ;;;
      mret 0
  end.

Definition sys_fstat : M kern Z :=
  st <- argaddr 1 ;;
  a <- argfd 0 ;;
  match a with None => mret (-1) | Some (_, f) => filestat f st end.

Definition nlink_add (ip : nat) (k : Z) : M kern unit :=
  inode_set ip (fun x => x <| i_nlink ::= fun n => i16 (n + k) |>).

Definition link_bad (ip : nat) : M kern Z :=
  ilock ip ;;;
  nlink_add ip (-1) ;;;
  iupdate ip ;;;
  iunlockput ip ;;;
  end_op ;;;
  mret (-1).
(** [dp->dev != ip->dev || dirlink(dp, name, ip->inum) < 0] *)
Definition link_into (dp ip : nat) (name : list Z) : M kern bool :=
  ddev <- inode_get dp i_dev ;;
  idev <- inode_get ip i_dev ;;
  if negb (ddev =? idev) then mret false
  else
    inum <- inode_get ip i_inum ;;
    r <- dirlink dp name inum ;;
    mret (negb (r <? 0)).
Definition sys_link : M kern Z :=
  ' (r, old) <- argstr 0 MAXPATH ;;
  if r <? 0 then mret (-1)
  else
    ' (r, new) <- argstr 1 MAXPATH ;;
    if r <? 0 then mret (-1)
    else
      begin_op ;;;
      found <- namei old ;;
      match found with
      | None => end_op ;;; mret (-1)
      | Some ip =>
          ilock ip ;;;
          type <- inode_get ip i_type ;;
          if type =? T_DIR then iunlockput ip ;;; end_op ;;; mret (-1)
          else
            nlink_add ip 1 ;;;
            iupdate ip ;;;
            iunlock ip ;;;
            ' (dp, name) <- nameiparent new name0 ;;
            match dp with
            | None => link_bad ip
            | Some dp =>
                ilock dp ;;;
                ok <- link_into dp ip name ;;
                if negb ok then iunlockput dp ;;; link_bad ip
                else
                  iunlockput dp ;;;
                  iput ip ;;;
                  end_op ;;;
                  mret 0
            end
      end.

Fixpoint isdirempty_from (fuel : nat) (dp : nat) (off : Z) : M kern bool :=
  match fuel with
  | O => mfail NoFuel
  | S fuel' =>
      size <- inode_get dp i_size ;;
      if off <? size then
        ' (r, de) <- readi_local dp off sizeof_dirent ;;
        if negb (r =? sizeof_dirent) then panic "isdirempty: readi"
        else if negb (de_inum de =? 0) then mret false
        else isdirempty_from fuel' dp (off + sizeof_dirent)
      else mret true
  end.
Definition isdirempty (dp : nat) : M kern bool :=
  size <- inode_get dp i_size ;;
  isdirempty_from (dir_fuel size) dp (2 * sizeof_dirent).

Definition unlink_bad (dp : nat) : M kern Z := iunlockput dp ;;; end_op ;;; mret (-1).
Definition sys_unlink : M kern Z :=
  ' (r, path) <- argstr 0 MAXPATH ;;
  if r <? 0 then mret (-1)
  else
    begin_op ;;;
    ' (dp, name) <- nameiparent path name0 ;;
    match dp with
    | None => end_op ;;; mret (-1)
    | Some dp =>
        ilock dp ;;;
        if (namecmp name DOT =? 0) || (namecmp name DOTDOT =? 0) then unlink_bad dp
        else
          found <- dirlookup dp name ;;
          match found with
          | None => unlink_bad dp
          | Some (ip, off) =>
              ilock ip ;;;
              nlink <- inode_get ip i_nlink ;;
              if nlink <? 1 then panic "unlink: nlink < 1"
              else
                type <- inode_get ip i_type ;;
                empty <- (if type =? T_DIR then isdirempty ip else mret true) ;;
                if negb empty then iunlockput ip ;;; unlink_bad dp
                else
                  r <- writei_local dp (replicate (Z.to_nat sizeof_dirent) 0) off sizeof_dirent ;;
                  if negb (r =? sizeof_dirent) then panic "unlink: writei"
                  else
                    mwhen (type =? T_DIR) (nlink_add dp (-1) ;;; iupdate dp) ;;;
                    iunlockput dp ;;;
                    nlink_add ip (-1) ;;;
                    iupdate ip ;;;
                    iunlockput ip ;;;
                    end_op ;;;
                    mret 0
          end
    end.

Definition create_fail (dp ip : nat) : M kern (option nat) :=
  inode_set ip (fun x => x <| i_nlink := 0 |>) ;;;
  iupdate ip ;;;
  iunlockput ip ;;;
  iunlockput dp ;;;
  mret None.
(** The entries for "." and "..". *)
Definition create_dots (dp ip : nat) : M kern bool :=
  inum <- inode_get ip i_inum ;;
  r <- dirlink ip DOT inum ;;
  if r <? 0 then mret false
  else
    dnum <- inode_get dp i_inum ;;
    r <- dirlink ip DOTDOT dnum ;;
    mret (negb (r <? 0)).
Definition create (path : list Z) (type major minor : Z) : M kern (option nat) :=
  ' (dp, name) <- nameiparent path name0 ;;
  match dp with
  | None => mret None
  | Some dp =>
      ilock dp ;;;
      found <- dirlookup dp name ;;
      match found with
      | Some (ip, _) =>
          iunlockput dp ;;;
          ilock ip ;;;
          t <- inode_get ip i_type ;;
          if (type =? T_FILE) && ((t =? T_FILE) || (t =? T_DEVICE)) then mret (Some ip)
          else iunlockput ip ;;; mret None
      | None =>
          dev <- inode_get dp i_dev ;;
          ip <- ialloc dev type ;;
          match ip with
          | None => iunlockput dp ;;; mret None
          | Some ip =>
              ilock ip ;;;
              inode_set ip (fun x => x <| i_major := i16 major |> <| i_minor := i16 minor |> <| i_nlink := 1 |>) ;;;
              iupdate ip ;;;
              dots <- (if type =? T_DIR then create_dots dp ip else mret true) ;;
              if negb dots then create_fail dp ip
              else
                inum <- inode_get ip i_inum ;;
                r <- dirlink dp name inum ;;
                if r <? 0 then create_fail dp ip
                else
                  mwhen (type =? T_DIR) (nlink_add dp 1 ;;; iupdate dp) ;;;
                  iunlockput dp ;;;
                  mret (Some ip)
          end
      end
  end.

Definition open_fail (ip : nat) : M kern Z := iunlockput ip ;;; end_op ;;; mret (-1).
(** The inode to open, locked; [None] when the call fails (the transaction is then over). *)
Definition open_inode (path : list Z) (omode : Z) : M kern (option nat) :=
  if z2b (Z.land omode O_CREATE) then
    ip <- create path T_FILE 0 0 ;;
    match ip with None => end_op ;;; mret None | Some ip => mret (Some ip) end
  else
    ip <- namei path ;;
    match ip with
    | None => end_op ;;; mret None
    | Some ip =>
        ilock ip ;;;
        type <- inode_get ip i_type ;;
        if (type =? T_DIR) && negb (omode =? O_RDONLY) then
          iunlockput ip ;;; end_op ;;; mret None
        else mret (Some ip)
    end.
Definition sys_open : M kern Z :=
  omode <- argint 1 ;;
  ' (n, path) <- argstr 0 MAXPATH ;;
  if n <? 0 then mret (-1)
  else
    begin_op ;;;
    ip <- open_inode path omode ;;
    match ip with
    | None => mret (-1)
    | Some ip =>
        type <- inode_get ip i_type ;;
        major <- inode_get ip i_major ;;
        if (type =? T_DEVICE) && ((major <? 0) || (NDEV <=? major)) then open_fail ip
        else
          f <- filealloc ;;
          match f with
          | None => open_fail ip
          | Some f =>
              fd <- fdalloc f ;;
              if fd <? 0 then fileclose kend f ;;; open_fail ip
              else
                (if type =? T_DEVICE then file_set f (fun x => x <| f_type := FD_DEVICE |> <| f_major := major |>)
                 else file_set f (fun x => x <| f_type := FD_INODE |> <| f_off := 0 |>)) ;;;
                file_set f (fun x => x <| f_ip := Some ip |>
                  <| f_readable := b2z (negb (z2b (Z.land omode O_WRONLY))) |>
                  <| f_writable := b2z (z2b (Z.land omode O_WRONLY) || z2b (Z.land omode O_RDWR)) |>) ;;;
                mwhen (z2b (Z.land omode O_TRUNC) && (type =? T_FILE)) (itrunc ip) ;;;
                iunlock ip ;;;
                end_op ;;;
                mret fd
          end
    end.

Definition sys_mkdir : M kern Z :=
  begin_op ;;;
  ' (r, path) <- argstr 0 MAXPATH ;;
  if r <? 0 then end_op ;;; mret (-1)
  else
    ip <- create path T_DIR 0 0 ;;
    match ip with
    | None => end_op ;;; mret (-1)
    | Some ip => iunlockput ip ;;; end_op ;;; mret 0
    end.

Definition sys_mknod : M kern Z :=
  begin_op ;;;
  major <- argint 1 ;;
  minor <- argint 2 ;;
  ' (r, path) <- argstr 0 MAXPATH ;;
  if r <? 0 then end_op ;;; mret (-1)
  else
    ip <- create path T_DEVICE major minor ;;
    match ip with
    | None => end_op ;;; mret (-1)
    | Some ip => iunlockput ip ;;; end_op ;;; mret 0
    end.

Definition sys_chdir : M kern Z :=
  p <- self ;;
  begin_op ;;;
  ' (r, path) <- argstr 0 MAXPATH ;;
  if r <? 0 then end_op ;;; mret (-1)
  else
    ip <- namei path ;;
    match ip with
    | None => end_op ;;; mret (-1)
    | Some ip =>
        ilock ip ;;;
        type <- inode_get ip i_type ;;
        if negb (type =? T_DIR) then iunlockput ip ;;; end_op ;;; mret (-1)
        else
          iunlock ip ;;;
          cwd <- proc_get p p_cwd ;;
          cwd <- mlookup cwd ;;
          iput cwd ;;;
          end_op ;;;
          proc_set p (fun x => x <| p_cwd := Some ip |>) ;;;
          mret 0
    end.

(** The argument strings, each in a page of its own: whether all were fetched, and the
    pages allocated. *)
Fixpoint fetch_args (fuel : nat) (uargv i : Z) (argv : list Z) : M kern (bool * list Z) :=
  match fuel with
  | O => mret (false, argv)
  | S fuel' =>
      ' (r, uarg) <- fetchaddr (u64 (uargv + 8 * i)) ;;
      if r <? 0 then mret (false, argv)
      else if uarg =? 0 then mret (true, argv)
      else
        page <- on_phys kalloc ;;
        if page =? 0 then mret (false, argv)
        else
          ' (n, bs) <- fetchstr uarg PGSIZE ;;
          on_phys (ram_update (fun m => write_bytes m page bs)) ;;;
          if n <? 0 then mret (false, argv ++ [page])
          else fetch_args fuel' uargv (i + 1) (argv ++ [page])
  end.
Definition free_args (argv : list Z) : M kern unit :=
  mfor (length argv) (fun i => a <- mlookup (argv !! i) ;; on_phys (kfree kend a)).
Definition sys_exec : M kern Z :=
  uargv <- argaddr 1 ;;
  ' (r, path) <- argstr 0 MAXPATH ;;
  if r <? 0 then mret (-1)
  else
    ' (ok, argv) <- fetch_args MAXARG uargv 0 [] ;;
    if negb ok then free_args argv ;;; mret (-1)
    else
      ret <- exec kend trampoline path argv ;;
      free_args argv ;;;
      mret ret.

Definition sys_pipe : M kern Z :=
  p <- self ;;
  fdarray <- argaddr 0 ;;
  pr <- pipealloc kend ;;
  match pr with
  | None => mret (-1)
  | Some (rf, wf) =>
      fd0 <- fdalloc rf ;;
      if fd0 <? 0 then fileclose kend rf ;;; fileclose kend wf ;;; mret (-1)
      else
        fd1 <- fdalloc wf ;;
        if fd1 <? 0 then
          set_ofile p (Z.to_nat fd0) None ;;;
          fileclose kend rf ;;; fileclose kend wf ;;; mret (-1)
        else
          pt <- proc_get p p_pagetable ;;
          r <- on_phys (copyout pt fdarray (le_bytes 4 fd0)) ;;
          r <- (if r <? 0 then mret r else on_phys (copyout pt (u64 (fdarray + 4)) (le_bytes 4 fd1))) ;;
          if r <? 0 then
            set_ofile p (Z.to_nat fd0) None ;;;
            set_ofile p (Z.to_nat fd1) None ;;;
            fileclose kend rf ;;; fileclose kend wf ;;; mret (-1)
          else mret 0
  end.

(** The file layer as the process layer uses it. *)
Definition kern_files : FileOps files := {|
  Proc.filedup := filedup; Proc.fileclose := fileclose kend; Proc.idup := idup; Proc.iput := iput;
  Proc.begin_op := begin_op; Proc.end_op := end_op; Proc.namei_root := namei [SLASH]
|}.

End sysfile.
