(* ===== verification/Syscall.v ===== *)
(** * System calls: kernel/sysproc.c, sys_sigalarm of kernel/proc.c, syscall() of
      kernel/syscall.c

    A system call returns a value, gives up the CPU ([Parks], with what it needs to go on),
    or never returns ([Gone]: exit).  syscall() of a parked call is finished by
    [syscall_resume]. *)

From S2P Require Import Prelude Riscv CString Kalloc Vm Spinlock Proc ProcSpec Headers Sleeplock Bio Log Fs.
From S2P Require Import Pipe Uart Printf Console File Args Exec Sysfile.

Inductive park :=
  | PWait (addr : Z) (k : nat * Z)
  | PWaitx (addr addr1 addr2 : Z) (k : nat * Z)
  | PSleep (n ticks0 : Z) (k : nat * Z)
  | PPrio (k : Z * (nat * Z)).
Inductive sysret := Ret (v : Z) | Parks (k : park) | Gone.

(** kernel/syscall.h *)
Definition SYS_fork : Z := 1.
Definition SYS_exit : Z := 2.
Definition SYS_wait : Z := 3.
Definition SYS_pipe : Z := 4.
Definition SYS_read : Z := 5.
Definition SYS_kill : Z := 6.
Definition SYS_exec : Z := 7.
Definition SYS_fstat : Z := 8.
Definition SYS_chdir : Z := 9.
Definition SYS_dup : Z := 10.
Definition SYS_getpid : Z := 11.
Definition SYS_sbrk : Z := 12.
Definition SYS_sleep : Z := 13.
Definition SYS_uptime : Z := 14.
Definition SYS_open : Z := 15.
Definition SYS_write : Z := 16.
Definition SYS_mknod : Z := 17.
Definition SYS_unlink : Z := 18.
Definition SYS_link : Z := 19.
Definition SYS_mkdir : Z := 20.
Definition SYS_close : Z := 21.
Definition SYS_trace : Z := 22.
Definition SYS_setPriority : Z := 23.
Definition SYS_settickets : Z := 24.
Definition SYS_waitx : Z := 25.
Definition SYS_sigalarm : Z := 26.
Definition SYS_sigreturn : Z := 27.

(** syscallnum[]: the number of arguments to show; entry 0 is not set and is zero. *)
Definition syscallnum : list Z := [0; 0; 1; 1; 0; 3; 2; 2; 1; 1; 1; 0; 1; 1; 0; 2; 3; 3; 1; 2; 1; 1; 1; 2; 2; 3; 2; 0].
(** syscall_names[] ends with waitx. *)
Definition syscall_names : list (option string) := [None; Some "fork"; Some "exit"; Some "wait"; Some "pipe"; Some "read"; Some "kill"; Some "exec"; Some "fstat"; Some "chdir"; Some "dup"; Some "getpid"; Some "sbrk"; Some "sleep"; Some "uptime"; Some "open"; Some "write"; Some "mknod"; Some "unlink"; Some "link"; Some "mkdir"; Some "close"; Some "trace"; Some "setPriority"; Some "settickets"; Some "waitx"]%string.

Section sysproc.
(** [junk] is what the stack holds where sys_waitx's variables are. *)
Context (kend trampoline forkret_addr junk : Z).

Definition sys_getpid : M kern Z := p <- self ;; proc_get p p_pid.
Definition sys_fork `{FileOps files} : M kern Z := fork kend trampoline forkret_addr.
Definition sys_exit `{FileOps files} : M kern sysret := n <- argint 0 ;; exit n ;;; mret Gone.

Definition wait_ret (addr : Z) (r : outcome Z (nat * Z)) : sysret :=
  match r with Done v => Ret v | Parked k => Parks (PWait addr k) end.
Definition sys_wait : M kern sysret :=
  addr <- argaddr 0 ;;
  r <- wait kend addr ;;
  mret (wait_ret addr r).

Definition sys_sbrk : M kern Z :=
  n <- argint 0 ;;
  p <- self ;;
  addr <- proc_get p p_sz ;;
  r <- growproc kend n ;;
  mret (if r <? 0 then -1 else addr).

(** The loop of sys_sleep, with tickslock held; [ticks - ticks0 < n] compares unsigned. *)
Definition sleep_turn (n ticks0 : Z) : M kern sysret :=
  ticks <- gets k_ticks ;;
  if u32 (ticks - ticks0) <? u32 n then
    p <- self ;;
    k <- killed p ;;
    if z2b k then release LTicks ;;; mret (Ret (-1))
    else
      k <- sleep_enter (Some ChTicks) LTicks ;;
      mret (Parks (PSleep n ticks0 k))
  else release LTicks ;;; mret (Ret 0).
Definition sys_sleep : M kern sysret :=
  n <- argint 0 ;;
  acquire LTicks ;;;
  ticks0 <- gets k_ticks ;;
  sleep_turn n ticks0.

Definition sys_kill : M kern Z := pid <- argint 0 ;; kill pid.

Definition sys_uptime : M kern Z :=
  acquire LTicks ;;;
  xticks <- gets k_ticks ;;
  release LTicks ;;;
  mret xticks.

Definition sys_trace : M kern Z :=
  mask <- argint 0 ;;
  p <- self ;;
  proc_set p (fun x => x <| p_mask := mask |>) ;;;
  mret 0.

Definition sys_setPriority : M kern sysret :=
  priority <- argint 0 ;;
  pid <- argint 1 ;;
  r <- setPriority priority pid ;;
  mret (match r with Done v => Ret v | Parked k => Parks (PPrio k) end).

Definition sys_settickets : M kern Z :=
  p <- self ;;
  tickets <- argint 0 ;;
  proc_set p (fun x => x <| p_tickets := tickets |>) ;;;
  mret tickets.

(** waitx stores the run time through its second and the wait time through its third
    argument: sys_waitx's [wtime] and [rtime]. *)
Definition waitx_copy (addr1 addr2 ret : Z) (times : option (Z * Z)) : M kern Z :=
  let '(wtime, rtime) := default (junk, junk) times in
  p <- self ;;
  pt <- proc_get p p_pagetable ;;
  r <- on_phys (copyout pt addr1 (le_bytes 4 wtime)) ;;
  if r <? 0 then mret (-1)
  else
    r <- on_phys (copyout pt addr2 (le_bytes 4 rtime)) ;;
    mret (if r <? 0 then -1 else ret).
Definition waitx_ret (addr addr1 addr2 : Z) (r : outcome (Z * option (Z * Z)) (nat * Z)) : M kern sysret :=
  match r with
  | Done (ret, times) => v <- waitx_copy addr1 addr2 ret times ;; mret (Ret v)
  | Parked k => mret (Parks (PWaitx addr addr1 addr2 k))
  end.
Definition sys_waitx : M kern sysret :=
  addr <- argaddr 0 ;;
  addr1 <- argaddr 1 ;;
  addr2 <- argaddr 2 ;;
  r <- waitx kend addr ;;
  waitx_ret addr addr1 addr2 r.

Definition sys_sigalarm : M kern Z :=
  ticks <- argint 0 ;;
  handler <- argaddr 1 ;;
  p <- self ;;
  proc_set p (fun x => x <| p_is_sigalarm := 0 |> <| p_tickss := ticks |> <| p_now_ticks := 0 |>
                         <| p_handler := handler |>) ;;;
  mret 0.

(** [*dst = *src] for two trapframes. *)
Definition copy_trapframe (dst src : Z) : M kern unit :=
  on_phys (ram_update (fun m => write_bytes m dst (read_bytes m src (Z.to_nat sizeof_trapframe)))).
Definition restore : M kern unit :=
  p <- self ;;
  tf <- proc_get p p_trapframe ;;
  tc <- proc_get p p_trapframe_copy ;;
  v <- load_ram (tf + TF_kernel_satp) ;; store_ram (tc + TF_kernel_satp) v ;;;
  v <- load_ram (tf + TF_kernel_sp) ;; store_ram (tc + TF_kernel_sp) v ;;;
  v <- load_ram (tf + TF_kernel_trap) ;; store_ram (tc + TF_kernel_trap) v ;;;
  v <- load_ram (tf + TF_kernel_hartid) ;; store_ram (tc + TF_kernel_hartid) v ;;;
  copy_trapframe tf tc.
Definition sys_sigreturn : M kern Z :=
  restore ;;;
  p <- self ;;
  proc_set p (fun x => x <| p_is_sigalarm := 0 |>) ;;;
  mret 0.

End sysproc.

(** ** The dispatcher *)

Section syscall.
Context `{DiskOps} `{Board} (kend trampoline forkret_addr junk : Z).

Definition plain (c : M kern Z) : M kern sysret := v <- c ;; mret (Ret v).

(** syscalls[num], if there is one. *)
Definition syscalls (num : Z) : option (M kern sysret) :=
  match num with
  | 1 => Some (plain (@sys_fork kend trampoline forkret_addr (kern_files kend)))
  | 2 => Some (@sys_exit (kern_files kend))
  | 3 => Some (sys_wait kend)
  | 4 => Some (plain (sys_pipe kend))
  | 5 => Some (plain sys_read)
  | 6 => Some (plain sys_kill)
  | 7 => Some (plain (sys_exec kend trampoline))
  | 8 => Some (plain sys_fstat)
  | 9 => Some (plain sys_chdir)
  | 10 => Some (plain sys_dup)
  | 11 => Some (plain sys_getpid)
  | 12 => Some (plain (sys_sbrk kend))
  | 13 => Some sys_sleep
  | 14 => Some (plain sys_uptime)
  | 15 => Some (plain (sys_open kend))
  | 16 => Some (plain (sys_write))
  | 17 => Some (plain sys_mknod)
  | 18 => Some (plain sys_unlink)
  | 19 => Some (plain sys_link)
  | 20 => Some (plain sys_mkdir)
  | 21 => Some (plain (sys_close kend))
  | 22 => Some (plain sys_trace)
  | 23 => Some sys_setPriority
  | 24 => Some (plain sys_settickets)
  | 25 => Some (sys_waitx kend junk)
  | 26 => Some (plain sys_sigalarm)
  | 27 => Some (plain sys_sigreturn)
  | _ => None
  end.

(** The calls that parked, once their process runs again. *)
Definition syscall_again (k : park) : M kern sysret :=
  match k with
  | PWait addr k => r <- wait_resume kend addr k ;; mret (wait_ret addr r)
  | PWaitx addr addr1 addr2 k => r <- waitx_resume kend addr k ;; waitx_ret junk addr addr1 addr2 r
  | PSleep n ticks0 k => sleep_exit LTicks k ;;; sleep_turn n ticks0
  | PPrio k => v <- setPriority_exit k ;; mret (Ret v)
  end.

Definition nth_arr {A} (xs : list A) (i : Z) : M kern A :=
  if i <? 0 then mfail Fault else mlookup (xs !! Z.to_nat i).

Fixpoint collect_args (n : nat) (i : Z) : M kern (list Z) :=
  match n with
  | O => mret []
  | S n' => v <- argraw i ;; vs <- collect_args n' (i + 1) ;; mret (i32 v :: vs)
  end.

(** The lines of the new trace system call. *)
Definition FMT_HEAD : list Z := bytes_of "%d: syscall %s (".
Definition FMT_ARG : list Z := bytes_of "%d ".
Definition FMT_TAIL : list Z := 8 :: bytes_of ") -> %d" ++ [10].
Definition FMT_UNKNOWN : list Z := bytes_of "%d %s: unknown sys call %d" ++ [10].
Fixpoint trace_args (args : list Z) : M kern unit :=
  match args with [] => mret tt | a :: args' => printf FMT_ARG [AInt a] ;;; trace_args args' end.
Definition trace_print (p : nat) (num : Z) (args : list Z) : M kern unit :=
  mask <- proc_get p p_mask ;;
  mwhen (z2b (Z.land mask (i32 (Z.shiftl 1 num))))
    (pid <- proc_get p p_pid ;;
     name <- nth_arr syscall_names num ;;
     printf FMT_HEAD [AInt pid; AStr (bytes_of <$> name)] ;;;
     trace_args args ;;;
     v <- argraw 0 ;;
     printf FMT_TAIL [AInt v]).

(** [p->trapframe->a0 = ...] and the trace, when the call has returned. *)
Definition syscall_finish (p : nat) (num : Z) (args : list Z) (r : sysret) : M kern (option (park * list Z)) :=
  match r with
  | Ret v => tf_set TF_a0 (u64 v) ;;; trace_print p num args ;;; mret None
  | Parks k => mret (Some (k, args))
  | Gone => mret None
  end.
(** [None] when the system call is done, or what is left to do. *)
Definition syscall : M kern (option (park * list Z)) :=
  p <- self ;;
  a7 <- tf_get TF_a7 ;;
  let num := i32 a7 in
  length <- nth_arr syscallnum num ;;
  args <- collect_args (Z.to_nat length) 0 ;;
  match (if 0 <? num then syscalls num else None) with
  | Some f => r <- f ;; syscall_finish p num args r
  | None =>
      pid <- proc_get p p_pid ;;
      name <- proc_get p p_name ;;
      printf FMT_UNKNOWN [AInt pid; AStr (Some (cstr name)); AInt num] ;;;
      tf_set TF_a0 (u64 (-1)) ;;;
      mret None
  end.
Definition syscall_resume (p : nat) (num : Z) (k : park * list Z) : M kern (option (park * list Z)) :=
  r <- syscall_again (fst k) ;;
  syscall_finish p num (snd k) r.

End syscall.
