(* ===== verification/Trap.v ===== *)
(** * Traps and interrupts: kernel/trap.c, forkret of kernel/proc.c

    The addresses of kernelvec, uservec, usertrap and trampoline are parameters; [preemptive] is whether the
    kernel was built with RR, LBS or MLFQ.  usertrap is cut where a system call or yield
    gives up the CPU. *)

From S2P Require Import Prelude Riscv CString Kalloc Vm Spinlock Proc ProcSpec Headers Plic Sleeplock Bio Log.
From S2P Require Import Fs Pipe Uart Printf Console Virtio File Args Exec Sysfile Syscall.

Definition on_hart {A} (c : M hart A) : M kern A := on_mach (Spinlock.on_hart c).

Section trap.
Context `{DiskOps} `{Board} (kend trampoline forkret_addr junk : Z).
Context (kernelvec uservec usertrap_addr : Z) (preemptive : bool).

Definition trapinit : M kern unit := on_mach (initlock LTicks "time").
Definition trapinithart : M kern unit := on_hart (w_stvec kernelvec).

Definition clockintr : M kern unit :=
  acquire LTicks ;;;
  modify (fun s => s <| k_ticks ::= fun t => u32 (t + 1) |>) ;;;
  updateTime ;;;
  wakeup (Some ChTicks) ;;;
  release LTicks.

Definition SCAUSE_TIMER : Z := 0x8000000000000001.
Definition is_external (scause : Z) : bool :=
  z2b (Z.land scause 0x8000000000000000) && (Z.land scause 0xff =? 9).
Definition FMT_IRQ : list Z := bytes_of "unexpected interrupt irq=%d" ++ [10].
(** 2 for the timer, 1 for another device, 0 if not recognized. *)
Definition devintr : M kern Z :=
  scause <- on_hart r_scause ;;
  if is_external scause then
    irq <- plic_claim ;;
    (if irq =? UART0_IRQ then uartintr
     else if irq =? VIRTIO0_IRQ then virtio_disk_intr
     else mwhen (negb (irq =? 0)) (printf FMT_IRQ [AInt irq])) ;;;
    mwhen (negb (irq =? 0)) (plic_complete irq) ;;;
    mret 1
  else if scause =? SCAUSE_TIMER then
    id <- on_mach cpuid ;;
    mwhen (id =? 0) clockintr ;;;
    sip <- on_hart r_sip ;;
    on_hart (w_sip (Z.land sip (u64 (Z.lnot 2)))) ;;;
    mret 2
  else mret 0.

(** Back to user space: the satp value for userret. *)
Definition usertrapret : M kern Z :=
  p <- self ;;
  on_hart intr_off ;;;
  on_hart (w_stvec (TRAMPOLINE + (uservec - trampoline))) ;;;
  tf <- proc_get p p_trapframe ;;
  satp <- on_hart r_satp ;;
  store_ram (tf + TF_kernel_satp) satp ;;;
  kstack <- proc_get p p_kstack ;;
  store_ram (tf + TF_kernel_sp) (kstack + PGSIZE) ;;;
  store_ram (tf + TF_kernel_trap) usertrap_addr ;;;
  tp <- on_hart r_tp ;;
  store_ram (tf + TF_kernel_hartid) tp ;;;
  x <- on_hart r_sstatus ;;
  let x := Z.land x (u64 (Z.lnot SSTATUS_SPP)) in
  let x := Z.lor x SSTATUS_SPIE in
  on_hart (w_sstatus x) ;;;
  epc <- load_ram (tf + TF_epc) ;;
  on_hart (w_sepc epc) ;;;
  pagetable <- proc_get p p_pagetable ;;
  mret (MAKE_SATP pagetable).

(** What has become of a trap from user space. *)
Inductive trapped :=
  | ToUser (satp : Z)                              (* returned to user space *)
  | InSyscall (p : nat) (num : Z) (k : park * list Z)  (* a system call gave up the CPU *)
  | Yielded (k : nat * Z)                          (* the timer took the CPU away *)
  | Exited.                                        (* the process is a zombie *)

(** The alarm of sigalarm: at a timer interrupt, possibly start the handler. *)
Definition alarm (p : nat) : M kern unit :=
  proc_set p (fun x => x <| p_now_ticks ::= fun n => i32 (n + 1) |>) ;;;
  x <- proc_get p (fun x => x) ;;
  mwhen ((0 <? p_tickss x) && (p_tickss x <=? p_now_ticks x) && (p_is_sigalarm x =? 0))
    (proc_set p (fun x => x <| p_now_ticks := 0 |> <| p_is_sigalarm := 1 |>) ;;;
     copy_trapframe (p_trapframe_copy x) (p_trapframe x) ;;;
     store_ram (p_trapframe x + TF_epc) (p_handler x)).

Definition exit_now : M kern trapped := @exit files (kern_files kend) (-1) ;;; mret Exited.

(** From [if(killed(p)) exit(-1)] on. *)
Definition usertrap_after (p : nat) (which_dev : Z) : M kern trapped :=
  k <- killed p ;;
  if z2b k then exit_now
  else if preemptive && (which_dev =? 2) then
    alarm p ;;;
    k <- yield_enter ;;
    mret (Yielded k)
  else satp <- usertrapret ;; mret (ToUser satp).

Definition FMT_TRAP1 : list Z := bytes_of "usertrap(): unexpected scause %p pid=%d" ++ [10].
Definition FMT_TRAP2 : list Z := bytes_of "            sepc=%p stval=%p" ++ [10].
Definition usertrap : M kern trapped :=
  sstatus <- on_hart r_sstatus ;;
  if z2b (Z.land sstatus SSTATUS_SPP) then panic "usertrap: not from user mode"
  else
    on_hart (w_stvec kernelvec) ;;;
    p <- self ;;
    tf <- proc_get p p_trapframe ;;
    sepc <- on_hart r_sepc ;;
    store_ram (tf + TF_epc) sepc ;;;
    scause <- on_hart r_scause ;;
    if scause =? 8 then
      k <- killed p ;;
      if z2b k then exit_now
      else
        epc <- load_ram (tf + TF_epc) ;;
        store_ram (tf + TF_epc) (u64 (epc + 4)) ;;;
        on_hart intr_on ;;;
        num <- tf_get TF_a7 ;;
        r <- syscall kend trampoline forkret_addr junk ;;
        match r with
        | Some k => mret (InSyscall p (i32 num) k)
        | None => usertrap_after p 0
        end
    else
      which_dev <- devintr ;;
      (if negb (which_dev =? 0) then mret tt
       else
         pid <- proc_get p p_pid ;;
         printf FMT_TRAP1 [APtr scause; AInt pid] ;;;
         stval <- on_hart r_stval ;;
         printf FMT_TRAP2 [APtr sepc; APtr stval] ;;;
         setkilled p) ;;;
      usertrap_after p which_dev.

(** When the CPU comes back. *)
Definition usertrap_resume (t : trapped) : M kern trapped :=
  match t with
  | InSyscall p num k =>
      r <- syscall_resume kend junk p num k ;;
      match r with Some k => mret (InSyscall p num k) | None => usertrap_after p 0 end
  | Yielded k => yield_exit k ;;; satp <- usertrapret ;; mret (ToUser satp)
  | _ => mret t
  end.

(** kerneltrap, up to the yield of a timer interrupt: what kernelvec needs afterwards. *)
Definition kerneltrap : M kern (outcome unit ((nat * Z) * (Z * Z))) :=
  sepc <- on_hart r_sepc ;;
  sstatus <- on_hart r_sstatus ;;
  if Z.land sstatus SSTATUS_SPP =? 0 then panic "kerneltrap: not from supervisor mode"
  else
    on <- on_hart intr_get ;;
    if negb (on =? 0) then panic "kerneltrap: interrupts enabled"
    else
      which_dev <- devintr ;;
      if which_dev =? 0 then panic "kerneltrap"
      else
        cur <- myproc ;;
        running <- (match cur with
                    | Some p => st <- proc_get p p_state ;; mret (bool_decide (st = RUNNING))
                    | None => mret false
                    end) ;;
        if preemptive && (which_dev =? 2) && running then
          k <- yield_enter ;;
          mret (Parked (k, (sepc, sstatus)))
        else
          on_hart (w_sepc sepc) ;;;
          on_hart (w_sstatus sstatus) ;;;
          mret (Done tt).
Definition kerneltrap_resume (k : (nat * Z) * (Z * Z)) : M kern unit :=
  yield_exit (fst k) ;;;
  on_hart (w_sepc (fst (snd k))) ;;;
  on_hart (w_sstatus (snd (snd k))).

(** A forked process's first run; [first] is the static flag. *)
Definition forkret (first : bool) : M kern Z :=
  p <- self ;;
  release (LProc p) ;;;
  mwhen first (fsinit ROOTDEV) ;;;
  usertrapret.

End trap.
