(* ===== verification/TrapProps.v ===== *)
(** * Alarms, and the limits of the system call tables

    sigalarm interrupts a program at a timer tick and sigreturn takes it back: the trapframe
    is saved and restored.  The dispatcher of kernel/syscall.c uses its tables before, or
    without, checking the number. *)

From S2P Require Import Prelude Riscv CString Kalloc Vm Uvm Spinlock Proc ProcSpec Headers Sleeplock Bio Log.
From S2P Require Import Fs Pipe Uart Printf Console BioSpec UvmProps Example ConsoleSpec File Args Exec Sysfile Syscall Trap.

(** ** Copying a trapframe *)

Definition apart (a b : Z) : Prop := a + sizeof_trapframe <= b \/ b + sizeof_trapframe <= a.

Lemma length_read_bytes m n : forall a, length (read_bytes m a n) = n.
Proof. induction n; intros a; simpl; auto. Qed.
Lemma read_bytes_lookup m n : forall a i, (i < n)%nat -> read_bytes m a n !! i = Some (rd m (a + Z.of_nat i)).
Proof.
  induction n as [|n IH]; intros a i Hi; [lia|]. destruct i as [|i]; simpl; [by rewrite Z.add_0_r|].
  rewrite IH by lia. do 2 f_equal. lia.
Qed.

Definition copied_frame (m : mem) (dst src : Z) : mem := write_bytes m dst (read_bytes m src (Z.to_nat sizeof_trapframe)).
Lemma rd_copied m dst src x : rd (copied_frame m dst src) x =
  if decide (dst <= x < dst + sizeof_trapframe) then rd m (src + (x - dst)) else rd m x.
Proof.
  unfold copied_frame. rewrite rd_write_bytes, length_read_bytes. change (Z.of_nat (Z.to_nat sizeof_trapframe)) with sizeof_trapframe.
  case_decide as H; [|done]. rewrite read_bytes_lookup; [|unfold sizeof_trapframe in *; lia]. simpl. f_equal. lia.
Qed.
(** The 64-bit field at offset [o]. *)
Lemma field_copied m dst src o : 0 <= o -> o + 8 <= sizeof_trapframe ->
  load64 (copied_frame m dst src) (dst + o) = load64 m (src + o).
Proof.
  intros H1 H2. apply (load_le_ext 8). intros i Hi. rewrite rd_copied, decide_True by lia. f_equal. lia.
Qed.
Lemma field_kept m dst src a : a + 8 <= dst \/ dst + sizeof_trapframe <= a ->
  load64 (copied_frame m dst src) a = load64 m a.
Proof. intros H. apply load64_ext. intros x Hx. rewrite rd_copied, decide_False by lia. done. Qed.

Lemma load_ram_run (s : kern) a : load_ram a s = Ok (load64 (ram (k_phys s)) a) s.
Proof. unfold load_ram, on_phys, zoom, gets. by destruct s. Qed.
Definition with_ram (s : kern) (m : mem) : kern := s <| k_phys ::= fun ph => ph <| ram := m |> |>.
Lemma store_ram_run (s : kern) a v : store_ram a v s = Ok tt (with_ram s (store64 (ram (k_phys s)) a v)).
Proof. unfold store_ram, on_phys, zoom, ram_update, modify, with_ram. by destruct s as [? []]. Qed.
Lemma copy_run (s : kern) dst src : copy_trapframe dst src s = Ok tt (with_ram s (copied_frame (ram (k_phys s)) dst src)).
Proof. unfold copy_trapframe, on_phys, zoom, ram_update, modify, with_ram. by destruct s as [? []]. Qed.
Lemma with_ram_twice s m m' : with_ram (with_ram s m) m' = with_ram s m'.
Proof. by destruct s as [? []]. Qed.

(** ** Firing an alarm *)

(** An alarm is due at the next tick of process [x]. *)
Definition due (x : proc) : bool :=
  (0 <? p_tickss x) && (p_tickss x <=? i32 (p_now_ticks x + 1)) && (p_is_sigalarm x =? 0).

Definition set_proc (s : kern) (p : nat) (x : proc) : kern := s <| k_procs := <[p := x]> (k_procs s) |>.

(** What an alarm does to the process and to memory. *)
Definition fired (s : kern) (p : nat) (x : proc) : kern :=
  let m := copied_frame (ram (k_phys s)) (p_trapframe_copy x) (p_trapframe x) in
  with_ram (set_proc s p (x <| p_now_ticks := 0 |> <| p_is_sigalarm := 1 |>))
    (store64 m (p_trapframe x + TF_epc) (p_handler x)).

Lemma alarm_run s p x : k_procs s !! p = Some x ->
  alarm p s = Ok tt (if due x then fired s p x else set_proc s p (x <| p_now_ticks := i32 (p_now_ticks x + 1) |>)).
Proof.
  intros Hx. unfold alarm. rewrite (bind_ok _ _ _ _ _ (proc_set_run _ s p x Hx)).
  set (x1 := x <| p_now_ticks ::= _ |>). set (s1 := s <| k_procs := _ |>).
  assert (Hlt : (p < length (k_procs s))%nat) by (by apply lookup_lt_Some in Hx).
  assert (Hx1 : k_procs s1 !! p = Some x1) by (by apply list_lookup_insert_eq).
  rewrite (bind_ok _ _ _ _ _ (proc_get_run (fun x => x) s1 p x1 Hx1)).
  change ((0 <? p_tickss x1) && (p_tickss x1 <=? p_now_ticks x1) && (p_is_sigalarm x1 =? 0)) with (due x).
  destruct (due x); cbn [mwhen]; [|done].
  rewrite (bind_ok _ _ _ _ _ (proc_set_run _ s1 p x1 Hx1)). rewrite (bind_ok _ _ _ _ _ (copy_run _ _ _)).
  rewrite store_ram_run, with_ram_twice. f_equal. unfold fired, set_proc, s1. simpl. by rewrite list_insert_insert_eq.
Qed.

(** The alarm of sigalarm: at a timer tick of a process that asked for an alarm every
    [tickss] ticks and is not inside its handler, once enough ticks have passed, the kernel
    saves the interrupted trapframe in the copy, sends the program to its handler with
    every other register as it was, starts counting anew, and marks the process as inside
    the handler.  At any other tick it only counts. *)
Theorem alarm_starts_handler s p x : k_procs s !! p = Some x -> apart (p_trapframe x) (p_trapframe_copy x) ->
  0 <= p_handler x < 2 ^ 64 ->
  exists s' y, alarm p s = Ok tt s' /\ k_procs s' !! p = Some y /\
    (forall q, q <> p -> k_procs s' !! q = k_procs s !! q) /\ k_mach s' = k_mach s /\ k_files s' = k_files s /\
    (due x = false -> y = x <| p_now_ticks := i32 (p_now_ticks x + 1) |> /\ k_phys s' = k_phys s) /\
    (due x = true -> y = x <| p_now_ticks := 0 |> <| p_is_sigalarm := 1 |> /\
       load64 (ram (k_phys s')) (p_trapframe x + TF_epc) = p_handler x /\
       (forall o, 0 <= o -> o + 8 <= sizeof_trapframe ->
          load64 (ram (k_phys s')) (p_trapframe_copy x + o) = load64 (ram (k_phys s)) (p_trapframe x + o)) /\
       (forall a, ~ (p_trapframe_copy x <= a < p_trapframe_copy x + sizeof_trapframe) ->
          ~ (p_trapframe x + TF_epc <= a < p_trapframe x + TF_epc + 8) ->
          rd (ram (k_phys s')) a = rd (ram (k_phys s)) a)).
Proof.
  intros Hx Hap Hh. rewrite (alarm_run s p x Hx).
  assert (Hlt : (p < length (k_procs s))%nat) by (by apply lookup_lt_Some in Hx). unfold apart, sizeof_trapframe in Hap.
  destruct (due x); (eexists _, _; split; [reflexivity|]; split; [by apply list_lookup_insert_eq|]); split_and!; try done.
  1, 3: intros q Hq; by apply list_lookup_insert_ne.
  intros _. split_and!; [done| | |].
  - simpl. by apply load64_store64_eq.
  - intros o H1 H2. simpl. rewrite load64_store64_ne by (unfold TF_epc, sizeof_trapframe in *; lia). by apply field_copied.
  - intros a Hc He. simpl. rewrite rd_store64_ne by done. by rewrite rd_copied, decide_False.
Qed.

(** ** Returning from the handler *)

(** The fields of a trapframe the kernel keeps for itself, and the user's registers. *)
Definition kfields : list Z := [TF_kernel_satp; TF_kernel_sp; TF_kernel_trap; TF_kernel_hartid].
Definition ufield (o : Z) : Prop := 0 <= o /\ o + 8 <= sizeof_trapframe /\ (8 | o) /\ o ∉ kfields.

Section sigreturn.
Implicit Types (s : kern) (m : mem).

(** The kernel fields of the current trapframe go to the copy. *)
Definition keep_kernel m (tf tc : Z) : mem :=
  fold_left (fun m o => store64 m (tc + o) (load64 m (tf + o))) kfields m.
Definition restored m tf tc : mem := copied_frame (keep_kernel m tf tc) tf tc.

Lemma restore_run s c cur y : calm s c cur [] -> k_procs s !! cur = Some y ->
  restore s = Ok tt (with_ram s (restored (ram (k_phys s)) (p_trapframe y) (p_trapframe_copy y))).
Proof.
  intros Hc Hy. unfold restore. rewrite (bind_ok _ _ _ _ _ (self_calm s c cur [] Hc)).
  rewrite (bind_ok _ _ _ _ _ (proc_get_run p_trapframe s cur y Hy)).
  rewrite (bind_ok _ _ _ _ _ (proc_get_run p_trapframe_copy s cur y Hy)).
  do 4 (rewrite (bind_ok _ _ _ _ _ (load_ram_run _ _)); rewrite (bind_ok _ _ _ _ _ (store_ram_run _ _ _)); rewrite ?with_ram_twice).
  rewrite copy_run, with_ram_twice. done.
Qed.

Lemma keep_kernel_user m tf tc o : ufield o -> load64 (keep_kernel m tf tc) (tc + o) = load64 m (tc + o).
Proof.
  intros (H1 & H2 & [q ->] & Hn). unfold keep_kernel, kfields in *.
  unfold TF_kernel_satp, TF_kernel_sp, TF_kernel_trap, TF_kernel_hartid in *. simpl.
  rewrite !load64_store64_ne; [done|..]; set_unfold; lia.
Qed.
Lemma keep_kernel_kernel m tf tc o : apart tf tc -> (forall a, 0 <= rd m a < 256) -> o ∈ kfields ->
  load64 (keep_kernel m tf tc) (tc + o) = load64 m (tf + o).
Proof.
  intros Hap Hb Ho. unfold apart, sizeof_trapframe in Hap. unfold keep_kernel, kfields in *.
  unfold TF_kernel_satp, TF_kernel_sp, TF_kernel_trap, TF_kernel_hartid in *. cbn [fold_left].
  set_unfold. destruct Ho as [->|[->|[->|[->|[]]]]].
  all: repeat first [rewrite load64_store64_ne by lia | rewrite load64_store64_eq].
  all: repeat rewrite load64_store64_ne by lia; try done.
  all: try (by apply load64_range).
Qed.
Lemma keep_kernel_rd m tf tc a : ~ (tc <= a < tc + sizeof_trapframe) -> rd (keep_kernel m tf tc) a = rd m a.
Proof.
  intros Ha. unfold sizeof_trapframe in Ha. unfold keep_kernel, kfields.
  unfold TF_kernel_satp, TF_kernel_sp, TF_kernel_trap, TF_kernel_hartid in *. simpl.
  by rewrite !rd_store64_ne by lia.
Qed.

Lemma sigreturn_run s c cur y : calm s c cur [] -> k_procs s !! cur = Some y ->
  sys_sigreturn s = Ok 0 (with_ram (set_proc s cur (y <| p_is_sigalarm := 0 |>))
    (restored (ram (k_phys s)) (p_trapframe y) (p_trapframe_copy y))).
Proof.
  intros Hc Hy. unfold sys_sigreturn. rewrite (bind_ok _ _ _ _ _ (restore_run s c cur y Hc Hy)). set (s1 := with_ram s _).
  assert (Hc1 : calm s1 c cur []) by (by apply (calm_data s)).
  rewrite (bind_ok _ _ _ _ _ (self_calm s1 c cur [] Hc1)).
  assert (Hy1 : k_procs s1 !! cur = Some y) by done. by rewrite (bind_ok _ _ _ _ _ (proc_set_run _ s1 cur y Hy1)).
Qed.
End sigreturn.


(** ** The dispatcher *)

Section dispatch.
Context `{DiskOps} `{Board} (kend trampoline forkret_addr junk : Z).
Implicit Types (s : kern).
Notation syscall := (syscall kend trampoline forkret_addr junk).

Lemma tf_get_run s c cur y o : calm s c cur [] -> k_procs s !! cur = Some y ->
  tf_get o s = Ok (load64 (ram (k_phys s)) (p_trapframe y + o)) s.
Proof.
  intros Hc Hy. unfold tf_get. rewrite (bind_ok _ _ _ _ _ (self_calm s c cur [] Hc)).
  rewrite (bind_ok _ _ _ _ _ (proc_get_run p_trapframe s cur y Hy)). apply load_ram_run.
Qed.
Lemma tf_set_run s c cur y o v : calm s c cur [] -> k_procs s !! cur = Some y ->
  tf_set o v s = Ok tt (with_ram s (store64 (ram (k_phys s)) (p_trapframe y + o) v)).
Proof.
  intros Hc Hy. unfold tf_set. rewrite (bind_ok _ _ _ _ _ (self_calm s c cur [] Hc)).
  rewrite (bind_ok _ _ _ _ _ (proc_get_run p_trapframe s cur y Hy)). apply store_ram_run.
Qed.
Lemma argraw_run s c cur y n : calm s c cur [] -> k_procs s !! cur = Some y -> 0 <= n <= 5 ->
  exists v, argraw n s = Ok v s.
Proof.
  intros Hc Hy Hn. unfold argraw. destruct (0 <=? n) eqn:E1; [|apply Z.leb_gt in E1; lia].
  destruct (n <=? 5) eqn:E2; [|apply Z.leb_gt in E2; lia]. simpl.
  eexists. by apply (tf_get_run s c cur y).
Qed.

(** The number in a7. *)
Definition number s (y : proc) : Z := i32 (load64 (ram (k_phys s)) (p_trapframe y + TF_a7)).

Lemma nth_arr_none {A} (xs : list A) i s : i < 0 \/ Z.of_nat (length xs) <= i -> nth_arr xs i s = Err Fault.
Proof.
  intros Hi. unfold nth_arr. destruct (Z.ltb_spec i 0); [done|].
  rewrite lookup_ge_None_2 by lia. done.
Qed.

(** The dispatcher up to the call of the handler. *)
Lemma syscall_start s c cur y n k : calm s c cur [] -> k_procs s !! cur = Some y ->
  nth_arr syscallnum (number s y) s = Ok n s ->
  collect_args (Z.to_nat n) 0 s = Ok k s ->
  syscall s = match (if 0 <? number s y then syscalls kend trampoline forkret_addr junk (number s y) else None) with
    | Some f => (r <- f ;; syscall_finish cur (number s y) k r) s
    | None => (pid <- proc_get cur p_pid ;; name <- proc_get cur p_name ;;
       printf FMT_UNKNOWN [AInt pid; AStr (Some (cstr name)); AInt (number s y)] ;;;
       tf_set TF_a0 (u64 (-1)) ;;; mret None) s
    end.
Proof.
  intros Hc Hy Hn Hk. unfold Syscall.syscall. rewrite (bind_ok _ _ _ _ _ (self_calm s c cur [] Hc)).
  rewrite (bind_ok _ _ _ _ _ (tf_get_run s c cur y TF_a7 Hc Hy)). fold (number s y). cbv zeta.
  rewrite (bind_ok _ _ _ _ _ Hn), (bind_ok _ _ _ _ _ Hk). destruct (if 0 <? number s y then _ else _); done.
Qed.

Lemma syscall_bad_number s c cur y : calm s c cur [] -> k_procs s !! cur = Some y ->
  number s y < 0 \/ SYS_sigreturn < number s y -> syscall s = Err Fault.
Proof.
  intros Hc Hy Hn. unfold Syscall.syscall. rewrite (bind_ok _ _ _ _ _ (self_calm s c cur [] Hc)).
  rewrite (bind_ok _ _ _ _ _ (tf_get_run s c cur y TF_a7 Hc Hy)). fold (number s y). cbv zeta.
  apply bind_err, nth_arr_none. change (Z.of_nat (length syscallnum)) with 28. unfold SYS_sigreturn in *. lia.
Qed.

Lemma sigalarm_run s c cur y : calm s c cur [] -> k_procs s !! cur = Some y ->
  exists y', sys_sigalarm s = Ok 0 (set_proc s cur y') /\ p_mask y' = p_mask y /\ p_trapframe y' = p_trapframe y.
Proof.
  intros Hc Hy. unfold sys_sigalarm, argaddr.
  destruct (argraw_run s c cur y 0 Hc Hy ltac:(lia)) as [v0 E0]. destruct (argraw_run s c cur y 1 Hc Hy ltac:(lia)) as [v1 E1].
  assert (Ei : argint 0 s = Ok (i32 v0) s) by (unfold argint; by rewrite (bind_ok _ _ _ _ _ E0)).
  rewrite (bind_ok _ _ _ _ _ Ei).
  rewrite (bind_ok _ _ _ _ _ E1), (bind_ok _ _ _ _ _ (self_calm s c cur [] Hc)).
  rewrite (bind_ok _ _ _ _ _ (proc_set_run _ s cur y Hy)). eexists. split; [reflexivity|]. done.
Qed.

Lemma set_proc_calm s c cur held x : calm s c cur held -> calm (set_proc s cur x) c cur held.
Proof. intros Hc. apply (calm_data s); [done|done|]. apply length_insert. Qed.
Lemma with_ram_calm s c cur held m : calm s c cur held -> calm (with_ram s m) c cur held.
Proof. intros Hc. by apply (calm_data s). Qed.

(** Tracing a call that has no name. *)
Lemma finish_faults s c cur y num args v : calm s c cur [] -> k_procs s !! cur = Some y ->
  26 <= num -> z2b (Z.land (p_mask y) (i32 (Z.shiftl 1 num))) = true ->
  syscall_finish cur num args (Ret v) s = Err Fault.
Proof.
  intros Hc Hy Hn Hmask. unfold syscall_finish. rewrite (bind_ok _ _ _ _ _ (tf_set_run s c cur y TF_a0 _ Hc Hy)).
  set (s1 := with_ram s _). assert (Hy1 : k_procs s1 !! cur = Some y) by done. apply bind_err. unfold trace_print.
  rewrite (bind_ok _ _ _ _ _ (proc_get_run p_mask s1 cur y Hy1)), Hmask. cbn [mwhen].
  rewrite (bind_ok _ _ _ _ _ (proc_get_run p_pid s1 cur y Hy1)). apply bind_err, nth_arr_none. right.
  change (Z.of_nat (length syscall_names)) with 26. done.
Qed.
End dispatch.

(** C40. The dispatcher overruns its tables.  A system call number that is negative or larger
    than SYS_sigreturn makes syscall() read past syscallnum before it compares the number
    with the size of the table, so the answer "unknown sys call" is given for number 0
    only; and tracing sigalarm or sigreturn reads past syscall_names, which ends at
    waitx. *)
Theorem syscall_tables_overrun `{DiskOps} `{Board} kend trampoline forkret_addr junk s c cur y :
  calm s c cur [] -> k_procs s !! cur = Some y ->
  number s y < 0 \/ SYS_sigreturn < number s y \/
  (SYS_sigalarm <= number s y /\ z2b (Z.land (p_mask y) (i32 (Z.shiftl 1 (number s y)))) = true) ->
  syscall kend trampoline forkret_addr junk s = Err Fault.
Proof.
  intros Hc Hy [Hneg|[Hbig|(Hnum & Hmask)]].
  1, 2: apply (syscall_bad_number kend trampoline forkret_addr junk s c cur y); tauto.
  destruct (decide (SYS_sigreturn < number s y)) as [Hbig|Hle].
  { apply (syscall_bad_number kend trampoline forkret_addr junk s c cur y); tauto. }
  unfold SYS_sigalarm, SYS_sigreturn in *. assert (Hcase : number s y = 26 \/ number s y = 27) by lia.
  destruct Hcase as [E|E].
  - destruct (argraw_run s c cur y 0 Hc Hy ltac:(lia)) as [v0 E0]. destruct (argraw_run s c cur y 1 Hc Hy ltac:(lia)) as [v1 E1].
    rewrite (syscall_start kend trampoline forkret_addr junk s c cur y 2 [i32 v0; i32 v1] Hc Hy); [|by rewrite E|].
    2: { simpl. rewrite (bind_ok _ _ _ _ _ E0). change (0 + 1) with 1.
         rewrite (bind_ok _ _ _ [i32 v1] s); [done|]. by rewrite (bind_ok _ _ _ _ _ E1). }
    rewrite E. change (0 <? 26) with true. cbn iota. cbn [syscalls]. unfold plain. rewrite bind_assoc.
    destruct (sigalarm_run s c cur y Hc Hy) as (y' & Er & Hm & _). rewrite (bind_ok _ _ _ _ _ Er).
    rewrite (bind_ok _ _ _ (Ret 0) (set_proc s cur y')) by done.
    apply (finish_faults _ c cur y'); [by apply set_proc_calm|apply list_lookup_insert_eq, (lookup_lt_Some _ _ _ Hy)|lia|].
    rewrite Hm. by rewrite <- E.
  - rewrite (syscall_start kend trampoline forkret_addr junk s c cur y 0 [] Hc Hy); [|by rewrite E|done].
    rewrite E. change (0 <? 27) with true. cbn iota. cbn [syscalls]. unfold plain. rewrite bind_assoc.
    rewrite (bind_ok _ _ _ _ _ (sigreturn_run s c cur y Hc Hy)). set (s1 := with_ram _ _).
    rewrite (bind_ok _ _ _ (Ret 0) s1) by done.
    apply (finish_faults s1 c cur (y <| p_is_sigalarm := 0 |>)); [by apply with_ram_calm, set_proc_calm| |lia|].
    + apply list_lookup_insert_eq, (lookup_lt_Some _ _ _ Hy).
    + simpl. by rewrite <- E.
Qed.

(** The interrupted a0 is lost.  sigreturn goes through the dispatcher like every system
    call, which stores its result in a0: after it, a0 is 0 whatever the program had there
    when the alarm interrupted it. *)
Theorem sigreturn_loses_a0 `{DiskOps} `{Board} kend trampoline forkret_addr junk s c cur y : calm s c cur [] ->
  k_procs s !! cur = Some y -> number s y = SYS_sigreturn ->
  z2b (Z.land (p_mask y) (i32 (Z.shiftl 1 SYS_sigreturn))) = false ->
  exists s', syscall kend trampoline forkret_addr junk s = Ok None s' /\
    load64 (ram (k_phys s')) (p_trapframe y + TF_a0) = 0.
Proof.
  intros Hc Hy E Hmask. unfold SYS_sigreturn in *.
  rewrite (syscall_start kend trampoline forkret_addr junk s c cur y 0 [] Hc Hy); [|by rewrite E|done].
  rewrite E. change (0 <? 27) with true. cbn iota. cbn [syscalls]. unfold plain. rewrite bind_assoc.
  rewrite (bind_ok _ _ _ _ _ (sigreturn_run s c cur y Hc Hy)). set (s1 := with_ram _ _).
  rewrite (bind_ok _ _ _ (Ret 0) s1) by done. set (y1 := y <| p_is_sigalarm := 0 |>).
  assert (Hc1 : calm s1 c cur []) by (by apply with_ram_calm, set_proc_calm).
  assert (Hy1 : k_procs s1 !! cur = Some y1) by (by apply list_lookup_insert_eq, (lookup_lt_Some _ _ _ Hy)).
  unfold syscall_finish. rewrite (bind_ok _ _ _ _ _ (tf_set_run s1 c cur y1 TF_a0 _ Hc1 Hy1)). set (s2 := with_ram s1 _).
  assert (Hy2 : k_procs s2 !! cur = Some y1) by done. unfold trace_print. rewrite bind_assoc.
  rewrite (bind_ok _ _ _ _ _ (proc_get_run p_mask s2 cur y1 Hy2)). change (p_mask y1) with (p_mask y). rewrite Hmask.
  eexists. split; [reflexivity|]. simpl. by apply load64_store64_eq.
Qed.

(** ** An example *)

Definition al_proc : proc := ex_proc 1 RUNNING <| p_trapframe := 0x87001000 |> <| p_trapframe_copy := 0x87002000 |>
  <| p_tickss := 2 |> <| p_now_ticks := 1 |> <| p_handler := 64 |>.
Definition al_kern (x : proc) (m : mem) : kern :=
  KState fs_mach (Phys m 0) (x :: replicate (NPROC - 1) proc0) (Some 0%nat) 2 10 37 (replicate 5 mlfq0) (fs_files ∅).
(** The trapframe of a program that calls system call [n], or is interrupted with a0 = n. *)
Definition al_mem (n : Z) : mem := store64 (store64 (Mem ∅) 0x870010A8 n) 0x87001070 n.

Lemma al_calm x m : calm (al_kern x m) (ex_cpu (Some 0%nat)) 0 [].
Proof. exact (calm_data (fs_kern (fs_files ∅)) (al_kern x m) _ _ _ (fs_calm _) eq_refl eq_refl). Qed.
Lemma al_number n : 0 <= n < 2 ^ 31 -> number (al_kern al_proc (al_mem n)) al_proc = n.
Proof.
  intros Hn. unfold number. change (p_trapframe al_proc + TF_a7) with 0x870010A8.
  change (ram (k_phys (al_kern al_proc (al_mem n)))) with (al_mem n). unfold al_mem.
  rewrite load64_store64_ne, load64_store64_eq by lia. apply i32_small. lia.
Qed.
Definition byte_mem (m : mem) : Prop := forall a, 0 <= rd m a < 256.
Lemma byte_store n : forall m a v, byte_mem m -> byte_mem (store_le n m a v).
Proof.
  induction n as [|n IH]; intros m a v Hm; simpl; [done|]. apply IH. intros x. rewrite rd_wr. case_decide; [|apply Hm].
  apply Z.mod_pos_bound. lia.
Qed.
Lemma byte_copied m dst src : byte_mem m -> byte_mem (copied_frame m dst src).
Proof. intros Hm x. rewrite rd_copied. case_decide; apply Hm. Qed.
Lemma byte_mem0 : byte_mem (Mem ∅).
Proof. intros a. unfold rd. simpl. rewrite lookup_empty. simpl. lia. Qed.
Lemma al_apart : apart (p_trapframe al_proc) (p_trapframe_copy al_proc).
Proof. left. vm_compute. discriminate. Qed.

Lemma alarm_starts_handler_witness : exists s', alarm 0 (al_kern al_proc (al_mem 7)) = Ok tt s' /\
  load64 (ram (k_phys s')) 0x87001018 = 64.
Proof.
  destruct (alarm_starts_handler (al_kern al_proc (al_mem 7)) 0 al_proc eq_refl al_apart ltac:(simpl; lia))
    as (s' & y & H1 & _ & _ & _ & _ & _ & H2). destruct (H2 eq_refl) as (_ & H3 & _).
  exists s'. split; [exact H1|exact H3].
Defined.

(** A handler that clears a0 and a7 before it calls sigreturn. *)
Definition al_handled : kern :=
  al_kern (al_proc <| p_now_ticks := 0 |> <| p_is_sigalarm := 1 |>)
    (store64 (store64 (store64 (copied_frame (al_mem 7) 0x87002000 0x87001000) 0x87001018 64) 0x870010A8 27) 0x87001070 0).

Lemma syscall_tables_overrun_witness :
  Syscall.syscall (H := ideal_disk) (H0 := ex_board) ex_kend 0 0 0
    (al_kern al_proc (al_mem 28)) = Err Fault.
Proof.
  apply (syscall_tables_overrun (H := ideal_disk) (H0 := ex_board) ex_kend 0 0 0 _ (ex_cpu (Some 0%nat)) 0 al_proc).
  - apply al_calm.
  - reflexivity.
  - right. left. rewrite al_number; vm_compute; intuition congruence.
Defined.
Lemma sigreturn_loses_a0_witness : exists s',
  Syscall.syscall (H := ideal_disk) (H0 := ex_board) ex_kend 0 0 0 (al_kern al_proc (al_mem 27)) = Ok None s' /\
  load64 (ram (k_phys s')) (0x87001000 + TF_a0) = 0.
Proof.
  apply (sigreturn_loses_a0 (H := ideal_disk) (H0 := ex_board) ex_kend 0 0 0 _ (ex_cpu (Some 0%nat)) 0 al_proc).
  - apply al_calm.
  - reflexivity.
  - rewrite al_number; vm_compute; intuition congruence.
  - reflexivity.
Defined.
