(* ===== verification/Boot.v ===== *)
(** * Booting: kernel/start.c, kernel/main.c, kvminit and kvminithart of kernel/vm.c

    start runs in machine mode on each hart and works on its registers; its [mret] is the
    jump to main.  main of hart 0 runs the initialization of every part in order.
    [mtime] is the clock of the CLINT, which also holds the compare registers. *)

From S2P Require Import Prelude Riscv CString Kalloc Vm Spinlock Proc ProcSpec Headers Plic Sleeplock Bio Log.
From S2P Require Import Fs Pipe Uart Printf Console Virtio File Args Exec Sysfile Syscall Trap.

(** timer_scratch[id][3] and [4], the compare register, and the hart. *)
Record mboot := Mboot { mb_hart : hart; mb_cmp_addr : Z; mb_interval : Z; mb_mtimecmp : Z }.
#[export] Instance mboot_eta : Eta mboot := fun b => Mboot (mb_hart b) (mb_cmp_addr b) (mb_interval b) (mb_mtimecmp b).

Section start.
Context (main_addr timervec scratch : Z) (mtime : Z).
Definition mh {A} (c : M hart A) : M mboot A := zoom mb_hart (fun h b => b <| mb_hart := h |>) c.

Definition INTERVAL : Z := 1000000.
Definition timerinit : M mboot unit :=
  id <- mh r_mhartid ;;
  modify (fun b => b <| mb_mtimecmp := u64 (mtime + INTERVAL) |>) ;;;
  modify (fun b => b <| mb_cmp_addr := CLINT_MTIMECMP (i32 id) |> <| mb_interval := INTERVAL |>) ;;;
  mh (w_mscratch scratch) ;;;
  mh (w_mtvec timervec) ;;;
  ms <- mh r_mstatus ;;
  mh (w_mstatus (Z.lor ms MSTATUS_MIE)) ;;;
  mie <- mh r_mie ;;
  mh (w_mie (Z.lor mie MIE_MTIE)).

Definition start : M mboot unit :=
  x <- mh r_mstatus ;;
  let x := Z.land x (u64 (Z.lnot MSTATUS_MPP_MASK)) in
  let x := Z.lor x MSTATUS_MPP_S in
  mh (w_mstatus x) ;;;
  mh (w_mepc main_addr) ;;;
  mh (w_satp 0) ;;;
  mh (w_medeleg 0xffff) ;;;
  mh (w_mideleg 0xffff) ;;;
  sie <- mh r_sie ;;
  mh (w_sie (Z.lor (Z.lor (Z.lor sie SIE_SEIE) SIE_STIE) SIE_SSIE)) ;;;
  mh (w_pmpaddr0 0x3fffffffffffff) ;;;
  mh (w_pmpcfg0 0xf) ;;;
  timerinit ;;;
  id <- mh r_mhartid ;;
  mh (w_tp (u64 (i32 id))).
End start.

Section main.
Context `{DiskOps} `{Board} (kend etext trampoline forkret_addr kernelvec : Z).

(** The address of the kernel's page table. *)
Definition kvminit : M kern Z := on_phys (kvmmake etext trampoline).
Definition kvminithart (kernel_pagetable : Z) : M kern unit := on_hart (w_satp (MAKE_SATP kernel_pagetable)).

Definition banner : list Z := bytes_of "xv6 kernel is booting" ++ [10].
(** Hart 0, up to the scheduler. *)
Definition main_boot : M kern unit :=
  consoleinit ;;;
  printfinit ;;;
  printf [10] [] ;;;
  printf banner [] ;;;
  printf [10] [] ;;;
  on_phys (kinit kend) ;;;
  kpt <- kvminit ;;
  kvminithart kpt ;;;
  procinit ;;;
  trapinit ;;;
  trapinithart kernelvec ;;;
  plicinit ;;;
  plicinithart ;;;
  binit ;;;
  iinit ;;;
  fileinit ;;;
  virtio_disk_init ;;;
  @userinit kend trampoline forkret_addr files (kern_files kend).
(** The other harts, once [started] is set. *)
Definition FMT_HART : list Z := bytes_of "hart %d starting" ++ [10].
Definition main_other (kernel_pagetable : Z) : M kern unit :=
  id <- on_mach cpuid ;;
  printf FMT_HART [AInt id] ;;;
  kvminithart kernel_pagetable ;;;
  trapinithart kernelvec ;;;
  plicinithart.
End main.

(** ** What start leaves behind *)

(** start prepares the hart for supervisor mode: mret will go to main in supervisor
    mode, paging is off, every exception and interrupt is delegated, the supervisor's
    software, timer and external interrupts are enabled, machine-mode timer interrupts are
    enabled and go to timervec with its scratch area, the next one is due INTERVAL cycles
    from now, all physical memory is accessible, and tp holds the hart's number. *)
Theorem start_ready main_addr timervec scratch mtime b :
  0 <= h_mhartid (mb_hart b) < Z.of_nat NCPU -> 0 <= h_mstatus (mb_hart b) < 2 ^ 64 ->
  exists b', start main_addr timervec scratch mtime b = Ok tt b' /\
    let h := mb_hart b' in
    Z.land (h_mstatus h) MSTATUS_MPP_MASK = MSTATUS_MPP_S /\ h_mepc h = main_addr /\ h_satp h = 0 /\
    h_medeleg h = 0xffff /\ h_mideleg h = 0xffff /\
    Z.testbit (h_sie h) 1 = true /\ Z.testbit (h_sie h) 5 = true /\ Z.testbit (h_sie h) 9 = true /\
    Z.testbit (h_mstatus h) 3 = true /\ Z.testbit (h_mie h) 7 = true /\
    h_mtvec h = timervec /\ h_mscratch h = scratch /\
    h_tp h = h_mhartid (mb_hart b) /\ mb_mtimecmp b' = u64 (mtime + INTERVAL) /\
    mb_cmp_addr b' = CLINT_MTIMECMP (h_mhartid (mb_hart b)).
Proof.
  destruct b as [[mhartid mstatus ? ? ? ? ? ? ? ? ? ? ? ? ? ? ? ? ? ? ? ? ?] ? ? ?]. intros Hid Hms. cbn [mb_hart h_mhartid h_mstatus] in *.
  eexists. split.
  { lazy -[Z.land Z.lor Z.lnot u64 i32 Z.add CLINT_MTIMECMP MSTATUS_MPP_MASK MSTATUS_MPP_S MSTATUS_MIE MIE_MTIE
      SIE_SEIE SIE_STIE SIE_SSIE INTERVAL]. reflexivity. }
  assert (Ei : i32 mhartid = mhartid) by (apply i32_small; unfold NCPU in Hid; lia).
  cbn -[Z.land Z.lor Z.shiftl u64 i32 Z.testbit]. rewrite Ei.
  assert (Et : u64 mhartid = mhartid) by (apply u64_small; unfold NCPU in Hid; lia).
  rewrite Et. split_and!; try done.
  - apply Z.bits_inj'. intros k Hk.
    rewrite !Z.land_spec, !Z.lor_spec, !Z.land_spec. unfold MSTATUS_MPP_MASK, MSTATUS_MPP_S, MSTATUS_MIE.
    destruct (decide (k = 11)) as [->|H1]; [by rewrite !andb_true_r, ?orb_true_r|].
    destruct (decide (k = 12)) as [->|H2]; [by rewrite !andb_false_r|].
    assert (E1 : Z.testbit (Z.shiftl 3 11) k = false).
    { rewrite Z.shiftl_spec by lia. change 3 with (Z.ones 2).
      destruct (Z_lt_dec k 11); [by rewrite Z.testbit_neg_r by lia|]. apply Z.ones_spec_high. lia. }
    assert (E2 : Z.testbit (Z.shiftl 1 11) k = false).
    { rewrite Z.shiftl_spec by lia. destruct (Z_lt_dec k 11); [by rewrite Z.testbit_neg_r by lia|].
      change 1 with (Z.ones 1). apply Z.ones_spec_high. lia. }
    by rewrite E1, E2, andb_false_r.
  - by rewrite !Z.lor_spec, !orb_true_r.
  - rewrite !Z.lor_spec. change (Z.testbit SIE_STIE 5) with true. by rewrite orb_true_r.
  - rewrite !Z.lor_spec. change (Z.testbit SIE_SEIE 9) with true. by rewrite orb_true_r.
  - by rewrite !Z.lor_spec, !orb_true_r.
  - by rewrite !Z.lor_spec, !orb_true_r.
Qed.
Lemma start_ready_witness : exists b', start 0x80000900 0x80006000 0x80009000 5 (Mboot (Hart 3 0 0 0 0 0 0 0 0 0 0 0 0 0 0 0 0 0 0 0 0 0 0) 0 0 0) = Ok tt b' /\
  h_tp (mb_hart b') = 3 /\ mb_mtimecmp b' = 1000005.
Proof.
  destruct (start_ready 0x80000900 0x80006000 0x80009000 5
    (Mboot (Hart 3 0 0 0 0 0 0 0 0 0 0 0 0 0 0 0 0 0 0 0 0 0 0) 0 0 0)) as
    (b' & E & _ & _ & _ & _ & _ & _ & _ & _ & _ & _ & _ & _ & H1 & H2 & _); [simpl; unfold NCPU; lia|simpl; lia|].
  exists b'. split; [exact E|]. split; [exact H1|exact H2].
Defined.
