(* ===== verification/Asm.v ===== *)
(** * The assembly code: kernel/trampoline.S, kernelvec.S, swtch.S, entry.S

    Straight-line code as lists of instructions, run on the 31 integer registers, the control
    registers the code uses, memory and the program counter.  Loads and stores go through
    [xlate], the translation of virtual addresses under a value of satp; in machine mode it is
    the identity.  A call of a C function is a function on states. *)

From S2P Require Import Prelude Riscv CString.

(** ** The machine *)

Module Reg.
Definition ra : Z := 1.
Definition sp : Z := 2.
Definition gp : Z := 3.
Definition tp : Z := 4.
Definition t0 : Z := 5.
Definition t1 : Z := 6.
Definition t2 : Z := 7.
Definition s0 : Z := 8.
Definition s1 : Z := 9.
Definition a0 : Z := 10.
Definition a1 : Z := 11.
Definition a2 : Z := 12.
Definition a3 : Z := 13.
Definition a4 : Z := 14.
Definition a5 : Z := 15.
Definition a6 : Z := 16.
Definition a7 : Z := 17.
Definition s2 : Z := 18.
Definition s3 : Z := 19.
Definition s4 : Z := 20.
Definition s5 : Z := 21.
Definition s6 : Z := 22.
Definition s7 : Z := 23.
Definition s8 : Z := 24.
Definition s9 : Z := 25.
Definition s10 : Z := 26.
Definition s11 : Z := 27.
Definition t3 : Z := 28.
Definition t4 : Z := 29.
Definition t5 : Z := 30.
Definition t6 : Z := 31.
End Reg.

Inductive csr := satp | sscratch | mscratch | sip | mhartid | sepc | mepc.
#[export] Instance csr_eq_dec : EqDecision csr.
Proof. solve_decision. Defined.

Record asm := Asm { rg : Z -> Z; cs : csr -> Z; am : mem; pc : Z }.
#[export] Instance asm_eta : Eta asm := fun s => Asm (rg s) (cs s) (am s) (pc s).

Definition set_reg (r v : Z) (s : asm) : asm := s <| rg ::= fun f x => if x =? r then v else f x |>.
Definition set_csr (c : csr) (v : Z) (s : asm) : asm := s <| cs ::= fun f x => if decide (x = c) then v else f x |>.

Inductive instr :=
  | Sd (r off base : Z)
  | Ld (r off base : Z)
  | Li (r imm : Z)
  | Addi (rd rs imm : Z)
  | Add (rd r1 r2 : Z)
  | Mul (rd r1 r2 : Z)
  | Csrw (c : csr) (r : Z)
  | Csrr (r : Z) (c : csr)
  | Csrrw (rd : Z) (c : csr) (rs : Z)
  | Sfence_vma
  | Jr (r : Z)
  | Sret
  | Mret.

Section run.
Context (xlate : Z -> Z -> Z).

Definition addr (s : asm) (off base : Z) : Z := xlate (cs s satp) (u64 (rg s base + off)).
Definition exec1 (i : instr) (s : asm) : asm :=
  match i with
  | Sd r off base => s <| am := store64 (am s) (addr s off base) (rg s r) |>
  | Ld r off base => set_reg r (load64 (am s) (addr s off base)) s
  | Li r imm => set_reg r (u64 imm) s
  | Addi rd rs imm => set_reg rd (u64 (rg s rs + imm)) s
  | Add rd r1 r2 => set_reg rd (u64 (rg s r1 + rg s r2)) s
  | Mul rd r1 r2 => set_reg rd (u64 (rg s r1 * rg s r2)) s
  | Csrw c r => set_csr c (rg s r) s
  | Csrr r c => set_reg r (cs s c) s
  | Csrrw rd c rs => set_reg rd (cs s c) (set_csr c (rg s rs) s)
  | Sfence_vma => s
  | Jr r => s <| pc := rg s r |>
  | Sret => s <| pc := cs s sepc |>
  | Mret => s <| pc := cs s mepc |>
  end.
Fixpoint exec (code : list instr) (s : asm) : asm :=
  match code with [] => s | i :: code' => exec code' (exec1 i s) end.
End run.

Definition sds (base : Z) (l : list (Z * Z)) : list instr := (fun ro => Sd ro.1 ro.2 base) <$> l.
Definition lds (base : Z) (l : list (Z * Z)) : list instr := (fun ro => Ld ro.1 ro.2 base) <$> l.

(** ** trampoline.S *)

(** The registers and their offsets in struct trapframe, all but a0. *)
Definition user_regs : list (Z * Z) :=
  [(Reg.ra, 40); (Reg.sp, 48); (Reg.gp, 56); (Reg.tp, 64); (Reg.t0, 72); (Reg.t1, 80); (Reg.t2, 88); (Reg.s0, 96); (Reg.s1, 104);
   (Reg.a1, 120); (Reg.a2, 128); (Reg.a3, 136); (Reg.a4, 144); (Reg.a5, 152); (Reg.a6, 160); (Reg.a7, 168);
   (Reg.s2, 176); (Reg.s3, 184); (Reg.s4, 192); (Reg.s5, 200); (Reg.s6, 208); (Reg.s7, 216); (Reg.s8, 224); (Reg.s9, 232);
   (Reg.s10, 240); (Reg.s11, 248); (Reg.t3, 256); (Reg.t4, 264); (Reg.t5, 272); (Reg.t6, 280)].
Definition uservec : list instr :=
  [Csrw sscratch Reg.a0; Li Reg.a0 TRAPFRAME] ++ sds Reg.a0 user_regs ++
  [Csrr Reg.t0 sscratch; Sd Reg.t0 112 Reg.a0;
   Ld Reg.sp 8 Reg.a0; Ld Reg.tp 32 Reg.a0; Ld Reg.t0 16 Reg.a0; Ld Reg.t1 0 Reg.a0;
   Sfence_vma; Csrw satp Reg.t1; Sfence_vma; Jr Reg.t0].
Definition userret : list instr :=
  [Sfence_vma; Csrw satp Reg.a0; Sfence_vma; Li Reg.a0 TRAPFRAME] ++ lds Reg.a0 user_regs ++ [Ld Reg.a0 112 Reg.a0; Sret].

(** ** kernelvec.S *)

Definition frame_low : list (Z * Z) := [(Reg.ra, 0); (Reg.sp, 8); (Reg.gp, 16)].
Definition frame_high : list (Z * Z) :=
  [(Reg.t0, 32); (Reg.t1, 40); (Reg.t2, 48); (Reg.s0, 56); (Reg.s1, 64); (Reg.a0, 72); (Reg.a1, 80); (Reg.a2, 88); (Reg.a3, 96);
   (Reg.a4, 104); (Reg.a5, 112); (Reg.a6, 120); (Reg.a7, 128); (Reg.s2, 136); (Reg.s3, 144); (Reg.s4, 152); (Reg.s5, 160);
   (Reg.s6, 168); (Reg.s7, 176); (Reg.s8, 184); (Reg.s9, 192); (Reg.s10, 200); (Reg.s11, 208); (Reg.t3, 216); (Reg.t4, 224);
   (Reg.t5, 232); (Reg.t6, 240)].
(** Up to the call of kerneltrap, and after it. *)
Definition kernelvec_save : list instr :=
  Addi Reg.sp Reg.sp (-256) :: sds Reg.sp (frame_low ++ (Reg.tp, 24) :: frame_high).
Definition kernelvec_restore : list instr :=
  lds Reg.sp (frame_low ++ frame_high) ++ [Addi Reg.sp Reg.sp 256; Sret].
Definition kernelvec (xlate : Z -> Z -> Z) (kerneltrap : asm -> asm) (s : asm) : asm :=
  exec xlate kernelvec_restore (kerneltrap (exec xlate kernelvec_save s)).

Definition timervec : list instr :=
  [Csrrw Reg.a0 mscratch Reg.a0; Sd Reg.a1 0 Reg.a0; Sd Reg.a2 8 Reg.a0; Sd Reg.a3 16 Reg.a0;
   Ld Reg.a1 24 Reg.a0; Ld Reg.a2 32 Reg.a0; Ld Reg.a3 0 Reg.a1; Add Reg.a3 Reg.a3 Reg.a2; Sd Reg.a3 0 Reg.a1;
   Li Reg.a1 2; Csrw sip Reg.a1;
   Ld Reg.a3 16 Reg.a0; Ld Reg.a2 8 Reg.a0; Ld Reg.a1 0 Reg.a0; Csrrw Reg.a0 mscratch Reg.a0; Mret].

(** ** swtch.S *)

(** The registers and their offsets in struct context. *)
Definition context : list (Z * Z) :=
  [(Reg.ra, 0); (Reg.sp, 8); (Reg.s0, 16); (Reg.s1, 24); (Reg.s2, 32); (Reg.s3, 40); (Reg.s4, 48); (Reg.s5, 56); (Reg.s6, 64); (Reg.s7, 72);
   (Reg.s8, 80); (Reg.s9, 88); (Reg.s10, 96); (Reg.s11, 104)].
(** [ret] is [jr ra]. *)
Definition swtch : list instr := sds Reg.a0 context ++ lds Reg.a1 context ++ [Jr Reg.ra].

(** ** entry.S *)

Definition entry (stack0 : Z) : list instr :=
  [Li Reg.sp stack0; Li Reg.a0 (1024 * 4); Csrr Reg.a1 mhartid; Addi Reg.a1 Reg.a1 1; Mul Reg.a0 Reg.a0 Reg.a1; Add Reg.sp Reg.sp Reg.a0].
