(* ===== verification/AsmProps.v ===== *)
(** * Traps keep the registers

    uservec saves a user process's registers in its trapframe and userret gives them back; the
    same for kernelvec and the kernel's stack, and for timervec and its scratch area. *)

From S2P Require Import Prelude Riscv CString Asm.

Section lemmas.
Context (xlate : Z -> Z -> Z).
Notation exec := (exec xlate).
Notation addr := (addr xlate).

Lemma exec_app x y s : exec (x ++ y) s = exec y (exec x s).
Proof. revert s. induction x as [|i x IH]; intros s; [done|]. apply IH. Qed.

(** ** Saving registers *)

Definition stores (P : Z) (f : Z -> Z) (l : list (Z * Z)) (m : mem) : mem := foldl (fun m ro => store64 m (P + ro.2) (f ro.1)) m l.
(** No two of the doublewords overlap. *)
Fixpoint apart (l : list (Z * Z)) : bool :=
  match l with [] => true | ro :: l' => forallb (fun ro' => (ro.2 + 8 <=? ro'.2) || (ro'.2 + 8 <=? ro.2)) l' && apart l' end.

Lemma exec_sds b P l : forall s, (forall ro, ro ∈ l -> addr s ro.2 b = P + ro.2) -> exec (sds b l) s = s <| am := stores P (rg s) l (am s) |>.
Proof.
  induction l as [|ro l IH]; intros s Ha; [by destruct s|]. cbn [sds fmap list_fmap Asm.exec exec1]. rewrite (Ha ro) by constructor.
  change (list_fmap _ _ _ l) with (sds b l). rewrite IH; [done|]. intros ro' Hro. apply (Ha ro'). by constructor.
Qed.
Lemma stores_frame P f l : forall m x, (forall ro, ro ∈ l -> ~ (P + ro.2 <= x < P + ro.2 + 8)) -> rd (stores P f l m) x = rd m x.
Proof.
  induction l as [|ro l IH]; intros m x Hx; [done|]. simpl. rewrite IH; [|intros ro' Hro; apply Hx; by constructor].
  apply rd_store64_ne. apply Hx. by constructor.
Qed.
Lemma stores_load P f l : forall m, apart l = true -> forall ro, ro ∈ l -> 0 <= f ro.1 < 2 ^ 64 -> load64 (stores P f l m) (P + ro.2) = f ro.1.
Proof.
  induction l as [|ro l IH]; intros m Ha ro' Hro Hf; [by apply elem_of_nil in Hro|]. simpl in Ha. apply andb_true_iff in Ha as [Ho Ha].
  apply elem_of_cons in Hro as [->|Hro]; [|by apply IH]. simpl. transitivity (load64 (store64 m (P + ro.2) (f ro.1)) (P + ro.2)); [|by apply load64_store64_eq].
  apply load64_ext. intros x Hx. apply stores_frame. intros ro' Hro'. rewrite forallb_forall in Ho. specialize (Ho ro' (proj1 (list_elem_of_In _ _) Hro')).
  apply orb_true_iff in Ho as [Ho|Ho]; apply Z.leb_le in Ho; lia.
Qed.

Lemma stores_ext P f g l : (forall ro, ro ∈ l -> f ro.1 = g ro.1) -> forall m, stores P f l m = stores P g l m.
Proof.
  induction l as [|ro l IH]; intros H m; [done|]. simpl. rewrite (H ro) by constructor. apply IH. intros ro' Hro. apply H. by constructor.
Qed.
Lemma stores_app P f l l' m : stores P f (l ++ l') m = stores P f l' (stores P f l m).
Proof. apply foldl_app. Qed.

(** ** Restoring registers *)

Lemma exec_lds b P l : forall s, (forall ro, ro ∈ l -> addr s ro.2 b = P + ro.2) -> (forall o, (b, o) ∈ l -> load64 (am s) (P + o) = rg s b) -> NoDup l.*1 ->
  let s' := exec (lds b l) s in am s' = am s /\ cs s' = cs s /\ pc s' = pc s /\
  (forall ro, ro ∈ l -> rg s' ro.1 = load64 (am s) (P + ro.2)) /\ (forall r, r ∉ l.*1 -> rg s' r = rg s r).
Proof.
  induction l as [|[r o] l IH]; intros s Ha Hb Hnd; [split_and!; try done; intros ro Hro; by apply elem_of_nil in Hro|].
  cbn [fmap list_fmap] in Hnd. apply NoDup_cons in Hnd as [Hr Hnd]. set (s1 := exec1 xlate (Ld r o b) s).
  assert (E1 : rg s1 = fun x => if x =? r then load64 (am s) (P + o) else rg s x) by (pose proof (Ha (r, o) ltac:(constructor)) as Hro; cbn [snd] in Hro; unfold s1; cbn [exec1]; by rewrite Hro).
  assert (Hb1 : rg s1 b = rg s b). { rewrite E1. destruct (Z.eqb_spec b r) as [->|]; [|done]. apply Hb. by constructor. }
  destruct (IH s1) as (I1 & I2 & I3 & I4 & I5).
  - intros ro Hro. unfold Asm.addr. rewrite Hb1. apply (Ha ro). by constructor.
  - intros o' Ho. rewrite Hb1. apply (Hb o'). by constructor.
  - done.
  - split_and!; [exact I1|exact I2|exact I3| |].
    + intros ro Hro. apply elem_of_cons in Hro as [->|Hro]; [|by apply I4]. change (exec (lds b ((r, o) :: l)) s) with (exec (lds b l) s1).
      rewrite I5, E1; [by rewrite Z.eqb_refl|done].
    + intros r' Hr'. cbn [fmap list_fmap fst] in Hr'. apply not_elem_of_cons in Hr' as [Hne Hr'].
      change (exec (lds b ((r, o) :: l)) s) with (exec (lds b l) s1). rewrite I5, E1 by done. by destruct (Z.eqb_spec r' r).
Qed.

End lemmas.

(** ** User traps *)

(** Where the trapframe has each register. *)
Definition slots : list (Z * Z) := user_regs ++ [(Reg.a0, 112)].
Lemma slots_all r : 1 <= r <= 31 -> exists o, (r, o) ∈ slots.
Proof.
  intros Hr. assert (H : forall r : Z, r ∈ slots.*1 -> exists o, (r, o) ∈ slots) by (intros r' H; apply list_elem_of_fmap in H as ([r'' o] & -> & H); by exists o).
  apply H. assert (Hl : Forall (fun r => r ∈ slots.*1) (seqZ 1 31)) by (apply (bool_decide_unpack _); vm_compute; exact I).
  rewrite Forall_forall in Hl. apply Hl, elem_of_seqZ. lia.
Qed.
Lemma slots_range ro : ro ∈ slots -> 40 <= ro.2 <= 280.
Proof.
  intros H. assert (Hl : Forall (fun ro => 40 <= ro.2 <= 280) slots) by (repeat constructor; simpl; lia). rewrite Forall_forall in Hl. by apply Hl.
Qed.

Lemma user_regs_a0 : Reg.a0 ∉ user_regs.*1.
Proof. apply (bool_decide_unpack _). vm_compute. exact I. Qed.

Section user.
Context (xlate : Z -> Z -> Z) (usatp tf : Z).
(** The user page table maps TRAPFRAME to the process's trapframe. *)
Hypothesis (Hmap : forall o, 0 <= o < 288 -> xlate usatp (TRAPFRAME + o) = tf + o).
Notation exec := (exec xlate).

Lemma frame_addr s o : cs s satp = usatp -> rg s Reg.a0 = TRAPFRAME -> 0 <= o < 288 -> addr xlate s o Reg.a0 = tf + o.
Proof using Hmap. intros E1 E2 Ho. unfold addr. rewrite E1, E2, u64_small; [by apply Hmap|]. change TRAPFRAME with (2 ^ 38 - 8192). lia. Qed.

Lemma step_ld r o s : cs s satp = usatp -> rg s Reg.a0 = TRAPFRAME -> 0 <= o < 288 -> exec1 xlate (Ld r o Reg.a0) s = set_reg r (load64 (am s) (tf + o)) s.
Proof using Hmap. intros E1 E2 Ho. unfold exec1. by rewrite frame_addr. Qed.

(** The part of uservec that saves the registers, and the rest. *)
Definition save_part : list instr := [Csrw sscratch Reg.a0; Li Reg.a0 TRAPFRAME] ++ sds Reg.a0 user_regs ++ [Csrr Reg.t0 sscratch; Sd Reg.t0 112 Reg.a0].
Definition jump_part : list instr := [Ld Reg.sp 8 Reg.a0; Ld Reg.tp 32 Reg.a0; Ld Reg.t0 16 Reg.a0; Ld Reg.t1 0 Reg.a0; Sfence_vma; Csrw satp Reg.t1; Sfence_vma; Jr Reg.t0].
Lemma uservec_parts : uservec = save_part ++ jump_part.
Proof using. reflexivity. Qed.

Lemma uservec_saves s : cs s satp = usatp -> let s1 := exec save_part s in
  am s1 = stores tf (rg s) slots (am s) /\ cs s1 satp = usatp /\ rg s1 Reg.a0 = TRAPFRAME.
Proof using Hmap.
  intros Es. cbv zeta. unfold save_part. rewrite exec_app. set (s1 := exec [_; _] s).
  assert (E1 : rg s1 = fun r => if r =? Reg.a0 then TRAPFRAME else rg s r) by reflexivity.
  rewrite exec_app, (exec_sds _ _ tf).
  2: { intros ro Hro. apply frame_addr; [done|done|]. pose proof (slots_range ro ltac:(apply elem_of_app; by left)). lia. }
  rewrite (stores_ext _ _ (rg s)).
  2: { intros ro Hro. rewrite E1. destruct (Z.eqb_spec ro.1 Reg.a0) as [E|]; [|done].
       destruct user_regs_a0. rewrite <- E. by apply list_elem_of_fmap_2. }
  set (s2 := s1 <| am := _ |>). change (exec _ s2) with (exec1 xlate (Sd Reg.t0 112 Reg.a0) (exec1 xlate (Csrr Reg.t0 sscratch) s2)).
  unfold exec1 at 1 3 5. rewrite frame_addr by (done || lia). unfold slots. rewrite stores_app. split_and!; [reflexivity|exact Es|reflexivity].
Qed.


Lemma slots_frame f m x : ~ (tf + 40 <= x < tf + 288) -> rd (stores tf f slots m) x = rd m x.
Proof using. intros Hx. apply stores_frame. intros ro Hro. pose proof (slots_range ro Hro). lia. Qed.
Lemma slots_below f m o : 0 <= o <= 32 -> load64 (stores tf f slots m) (tf + o) = load64 m (tf + o).
Proof using. intros Ho. apply load64_ext. intros x Hx. apply slots_frame. lia. Qed.

(** The page table, stack, hart number and handler uservec switches to. *)
Lemma uservec_run s : cs s satp = usatp -> let s' := exec uservec s in
  am s' = stores tf (rg s) slots (am s) /\
  cs s' satp = load64 (am s) (tf + 0) /\ rg s' Reg.sp = load64 (am s) (tf + 8) /\ rg s' Reg.tp = load64 (am s) (tf + 32) /\ pc s' = load64 (am s) (tf + 16).
Proof using Hmap.
  intros Es. destruct (uservec_saves s Es) as (A1 & A2 & A3). rewrite uservec_parts, exec_app. generalize dependent (exec save_part s). intros s1 A1 A2 A3. cbv zeta.
  unfold jump_part, Asm.exec. do 4 (rewrite step_ld by (done || lia)). rewrite <- !(slots_below (rg s) (am s)) by lia. rewrite <- A1. split_and!; reflexivity.
Qed.

Lemma userret_loads s : cs s satp = usatp -> rg s Reg.a0 = TRAPFRAME -> let s' := exec (lds Reg.a0 user_regs) s in
  am s' = am s /\ cs s' = cs s /\ (forall ro, ro ∈ user_regs -> rg s' ro.1 = load64 (am s) (tf + ro.2)) /\ rg s' Reg.a0 = TRAPFRAME.
Proof using Hmap.
  intros E1 E2. destruct (exec_lds xlate Reg.a0 tf user_regs s) as (L1 & L2 & _ & L4 & L5).
  - intros ro Hro. apply frame_addr; [done|done|]. pose proof (slots_range ro ltac:(apply elem_of_app; by left)). lia.
  - intros o Ho. destruct user_regs_a0. by apply (list_elem_of_fmap_2 fst) in Ho.
  - apply (bool_decide_unpack _); vm_compute; exact I.
  - split_and!; [exact L1|exact L2|exact L4|]. rewrite (L5 _ user_regs_a0). exact E2.
Qed.
Lemma userret_last s : cs s satp = usatp -> rg s Reg.a0 = TRAPFRAME ->
  exec [Ld Reg.a0 112 Reg.a0; Sret] s = set_reg Reg.a0 (load64 (am s) (tf + 112)) s <| pc := cs s sepc |>.
Proof using Hmap. intros E1 E2. unfold Asm.exec. by rewrite step_ld. Qed.
Lemma userret_run s : rg s Reg.a0 = usatp -> let s' := exec userret s in
  am s' = am s /\ cs s' satp = usatp /\ pc s' = cs s sepc /\ forall ro, ro ∈ slots -> rg s' ro.1 = load64 (am s) (tf + ro.2).
Proof using Hmap.
  intros Ea. unfold userret. cbv zeta. rewrite !exec_app. set (s1 := exec [_; _; _; _] s).
  assert (E1 : am s1 = am s /\ cs s1 satp = usatp /\ cs s1 sepc = cs s sepc /\ rg s1 Reg.a0 = TRAPFRAME) by (split_and!; done).
  clearbody s1. destruct E1 as (E1 & E2 & E3 & E4). destruct (userret_loads s1 E2 E4) as (L1 & L2 & L3 & L4).
  generalize dependent (exec (lds Reg.a0 user_regs) s1). intros s2 L1 L2 L3 L4. rewrite userret_last by (done || by rewrite L2).
  rewrite <- E1, <- E3, <- L1, <- L2. split_and!; [done|by rewrite <- E2, <- L2|done|].
  intros ro Hro. change (rg _ ro.1) with (if ro.1 =? Reg.a0 then load64 (am s2) (tf + 112) else rg s2 ro.1).
  apply elem_of_app in Hro as [Hro|Hro]; [|by apply list_elem_of_singleton in Hro as ->].
  destruct (Z.eqb_spec ro.1 Reg.a0) as [E|E]; [|rewrite L1; by apply L3]. destruct user_regs_a0. rewrite <- E. by apply list_elem_of_fmap_2.
Qed.

End user.

(** C15.  A user trap and the return from it: uservec leaves the 31 registers of the user
    program in its trapframe and changes nothing else in memory, and enters the handler the
    trapframe names on the page table, stack and hart number it holds; whatever the kernel
    then does, userret loads the registers the trapframe holds, goes back to the user's page
    table and to the address in sepc, and a kernel that left the saved registers alone gives the
    program every register back as it was. *)
Theorem trap_roundtrip xlate usatp tf s : (forall o, 0 <= o < 288 -> xlate usatp (TRAPFRAME + o) = tf + o) ->
  cs s satp = usatp -> (forall r, 0 <= rg s r < 2 ^ 64) -> let s1 := exec xlate uservec s in
  (cs s1 satp = load64 (am s) (tf + 0) /\ rg s1 Reg.sp = load64 (am s) (tf + 8) /\ rg s1 Reg.tp = load64 (am s) (tf + 32) /\ pc s1 = load64 (am s) (tf + 16)) /\
  (forall ro, ro ∈ slots -> load64 (am s1) (tf + ro.2) = rg s ro.1) /\
  (forall x, ~ (tf + 40 <= x < tf + 288) -> rd (am s1) x = rd (am s) x) /\
  forall s2, rg s2 Reg.a0 = usatp -> let s3 := exec xlate userret s2 in
    am s3 = am s2 /\ cs s3 satp = usatp /\ pc s3 = cs s2 sepc /\
    (forall ro, ro ∈ slots -> rg s3 ro.1 = load64 (am s2) (tf + ro.2)) /\
    ((forall x, tf + 40 <= x < tf + 288 -> rd (am s2) x = rd (am s1) x) -> forall r, 1 <= r <= 31 -> rg s3 r = rg s r).
Proof.
  intros Hmap Es Hr. destruct (uservec_run xlate usatp tf Hmap s Es) as (A1 & A2). cbv zeta. rewrite A1.
  assert (Hs : forall ro, ro ∈ slots -> load64 (stores tf (rg s) slots (am s)) (tf + ro.2) = rg s ro.1) by (intros ro Hro; by apply stores_load).
  split_and!; [apply A2|apply A2|apply A2|apply A2|exact Hs|apply slots_frame|].
  intros s2 Ea. destruct (userret_run xlate usatp tf Hmap s2 Ea) as (B1 & B2 & B3 & B4). split_and!; [exact B1|exact B2|exact B3|exact B4|].
  intros Hk r Hr1. destruct (slots_all r Hr1) as [o Ho]. pose proof (B4 _ Ho) as B5. pose proof (Hs _ Ho) as B6. cbn [fst snd] in B5, B6. rewrite B5, <- B6.
  apply load64_ext. intros x Hx. apply Hk. pose proof (slots_range _ Ho) as Hro. cbn [snd] in Hro. lia.
Qed.

Lemma am_set_reg r v s : am (set_reg r v s) = am s.
Proof. reflexivity. Qed.
Definition sample_cpu : asm := Asm (fun r => u64 (1000 + r)) (fun c => match c with satp => 1 | sepc => 64 | _ => 0 end) (Mem ∅) 0.
Definition sample_xlate (root va : Z) : Z := if root =? 1 then va - TRAPFRAME + 0x87000000 else va.
Lemma trap_roundtrip_witness : let s1 := exec sample_xlate uservec sample_cpu in
  rg (exec sample_xlate userret (set_reg Reg.a0 1 s1)) Reg.s11 = 1027.
Proof.
  destruct (trap_roundtrip sample_xlate 1 0x87000000 sample_cpu) as (_ & _ & _ & H).
  - intros o _. unfold sample_xlate. cbn [Z.eqb Pos.eqb]. lia.
  - reflexivity.
  - intros r. apply u64_range.
  - destruct (H (set_reg Reg.a0 1 (exec sample_xlate uservec sample_cpu)) eq_refl) as (_ & _ & _ & _ & K).
    change 1027 with (rg sample_cpu Reg.s11). apply K; [|split; discriminate]. intros x _. by rewrite am_set_reg.
Defined.

(** ** Kernel traps *)

Definition kslots : list (Z * Z) := frame_low ++ (Reg.tp, 24) :: frame_high.
Lemma kslots_range ro : ro ∈ kslots -> 0 <= ro.2 <= 240.
Proof. intros H. assert (Hl : Forall (fun ro => 0 <= ro.2 <= 240) kslots) by (repeat constructor; simpl; lia). rewrite Forall_forall in Hl. by apply Hl. Qed.
Lemma restored_sub ro : ro ∈ frame_low ++ frame_high -> ro ∈ kslots.
Proof. unfold kslots. rewrite !elem_of_app, elem_of_cons. tauto. Qed.
Lemma restored_all r : 1 <= r <= 31 -> r <> Reg.tp -> exists o, (r, o) ∈ frame_low ++ frame_high.
Proof.
  intros Hr Ht. assert (Hl : Forall (fun r => r = Reg.tp \/ r ∈ (frame_low ++ frame_high).*1) (seqZ 1 31)) by (apply (bool_decide_unpack _); vm_compute; exact I).
  rewrite Forall_forall in Hl. destruct (Hl r ltac:(apply elem_of_seqZ; lia)) as [->|H]; [done|]. apply list_elem_of_fmap in H as ([r' o] & -> & H). by exists o.
Qed.

Section kernel.
Context (xlate : Z -> Z -> Z) (ksatp base P : Z).
(** The 256 bytes below the stack pointer are at [P] in memory. *)
Hypothesis (Hmap : forall o, 0 <= o < 256 -> xlate ksatp (base + o) = P + o).
Hypothesis (Hbase : 0 <= base < 2 ^ 64 - 256).
Notation exec := (exec xlate).

Lemma stack_addr s o : cs s satp = ksatp -> rg s Reg.sp = base -> 0 <= o < 256 -> addr xlate s o Reg.sp = P + o.
Proof using All. intros E1 E2 Ho. unfold addr. rewrite E1, E2, u64_small by lia. by apply Hmap. Qed.

(** The registers as kernelvec stores them: the stack pointer is the lowered one. *)
Definition lowered (s : asm) (r : Z) : Z := if r =? Reg.sp then base else rg s r.
Lemma save_run s : cs s satp = ksatp -> rg s Reg.sp = base + 256 ->
  exec kernelvec_save s = s <| rg := lowered s |> <| am := stores P (lowered s) kslots (am s) |>.
Proof using All.
  intros E1 E2. unfold kernelvec_save. change (exec (?i :: ?l) s) with (exec l (exec1 xlate i s)). set (s1 := exec1 xlate _ s).
  assert (Es : s1 = s <| rg := lowered s |>) by (unfold s1, exec1, set_reg, lowered; rewrite E2, u64_small by lia; by replace (base + 256 + -256) with base by lia).
  clearbody s1. subst s1. rewrite (exec_sds xlate Reg.sp P); [reflexivity|]. intros ro Hro. apply stack_addr; [done|done|]. pose proof (kslots_range ro Hro). lia.
Qed.
Lemma kernelvec_restores s : cs s satp = ksatp -> rg s Reg.sp = base -> load64 (am s) (P + 8) = base -> let s' := exec kernelvec_restore s in
  am s' = am s /\ cs s' = cs s /\ pc s' = cs s sepc /\ rg s' Reg.sp = base + 256 /\ rg s' Reg.tp = rg s Reg.tp /\
  forall ro, ro ∈ frame_low ++ frame_high -> ro.1 <> Reg.sp -> rg s' ro.1 = load64 (am s) (P + ro.2).
Proof using All.
  intros E1 E2 E3. destruct (exec_lds xlate Reg.sp P (frame_low ++ frame_high) s) as (L1 & L2 & L3 & L4 & L5).
  - intros ro Hro. apply stack_addr; [done|done|]. pose proof (kslots_range ro (restored_sub _ Hro)). lia.
  - intros o Ho. rewrite E2. assert (Hl : Forall (fun ro => ro.1 = Reg.sp -> ro.2 = 8) (frame_low ++ frame_high)) by (apply (bool_decide_unpack _); vm_compute; exact I).
    rewrite Forall_forall in Hl. by rewrite (Hl _ Ho eq_refl : o = 8).
  - apply (bool_decide_unpack _); vm_compute; exact I.
  - assert (Ht : Reg.tp ∉ (frame_low ++ frame_high).*1) by (apply (bool_decide_unpack _); vm_compute; exact I).
    assert (Hsp : (Reg.sp, 8) ∈ frame_low ++ frame_high) by (apply (bool_decide_unpack _); vm_compute; exact I).
    apply L5 in Ht. apply L4 in Hsp. cbn [fst snd] in Hsp. rewrite E3 in Hsp. unfold kernelvec_restore. cbv zeta. rewrite exec_app.
    generalize dependent (exec (lds Reg.sp (frame_low ++ frame_high)) s). intros s1 L1 L2 L3 L4 L5 Ht Hsp. unfold Asm.exec.
    split_and!; [exact L1|exact L2|rewrite <- L2; reflexivity| |exact Ht|].
    + transitivity (u64 (rg s1 Reg.sp + 256)); [reflexivity|]. rewrite Hsp. apply u64_small. lia.
    + intros ro Hro Hne. rewrite <- (L4 ro Hro). transitivity (if ro.1 =? Reg.sp then u64 (rg s1 Reg.sp + 256) else rg s1 ro.1); [reflexivity|]. by destruct (Z.eqb_spec ro.1 Reg.sp).
Qed.
End kernel.

(** C17.  A trap taken in the kernel: when kerneltrap keeps the stack pointer and the page table,
    as every C function does, and the 256 bytes of the frame below the interrupted stack pointer,
    kernelvec gives the interrupted code back every register it had, except tp, which keeps the
    value kerneltrap left (the hart it came back on); it resumes at the sepc kerneltrap left, and
    writes nothing outside the frame itself. *)
Theorem kernelvec_keeps xlate (kerneltrap : asm -> asm) P s : let base := rg s Reg.sp - 256 in
  (forall o, 0 <= o < 256 -> xlate (cs s satp) (base + o) = P + o) -> 256 <= rg s Reg.sp < 2 ^ 64 -> (forall r, 0 <= rg s r < 2 ^ 64) ->
  let s1 := exec xlate kernelvec_save s in let s2 := kerneltrap s1 in
  rg s2 Reg.sp = rg s1 Reg.sp -> cs s2 satp = cs s1 satp -> (forall x, P <= x < P + 256 -> rd (am s2) x = rd (am s1) x) ->
  let s' := kernelvec xlate kerneltrap s in
  (forall r, 1 <= r <= 31 -> r <> Reg.tp -> rg s' r = rg s r) /\ rg s' Reg.tp = rg s2 Reg.tp /\ pc s' = cs s2 sepc /\ am s' = am s2 /\
  forall x, ~ (P <= x < P + 256) -> rd (am s1) x = rd (am s) x.
Proof.
  cbv zeta. intros Hmap Hsp Hr Ksp Ksatp Kmem. unfold kernelvec.
  assert (Es : rg s Reg.sp = (rg s Reg.sp - 256) + 256) by lia. revert Hmap Es. generalize (rg s Reg.sp - 256). intros base Hmap Es.
  rewrite (save_run xlate _ base P Hmap ltac:(lia) s eq_refl Es) in *. set (s1 := s <| rg := lowered base s |> <| am := _ |>) in *.
  assert (Hl : forall ro, ro ∈ kslots -> load64 (am (kerneltrap s1)) (P + ro.2) = lowered base s ro.1).
  { intros ro Hro. pose proof (kslots_range ro Hro). transitivity (load64 (am s1) (P + ro.2)); [apply load64_ext; intros x Hx; apply Kmem; lia|].
    apply stores_load; [reflexivity|done|]. unfold lowered. destruct (ro.1 =? Reg.sp); [lia|apply Hr]. }
  destruct (kernelvec_restores xlate (cs s satp) base P Hmap ltac:(lia) (kerneltrap s1)) as (R1 & R2 & R3 & R4 & R5 & R6); [exact Ksatp|exact Ksp| |].
  { apply (Hl (Reg.sp, 8)). apply (bool_decide_unpack _); vm_compute; exact I. }
  split_and!; [|exact R5|exact R3|exact R1|].
  - intros r Hr1 Ht. destruct (decide (r = Reg.sp)) as [->|Hne]; [by rewrite R4|]. destruct (restored_all r Hr1 Ht) as [o Ho].
    pose proof (R6 _ Ho Hne) as E. cbn [fst snd] in E. rewrite E. pose proof (Hl _ (restored_sub _ Ho)) as E2. cbn [fst snd] in E2. rewrite E2. unfold lowered. by destruct (Z.eqb_spec r Reg.sp).
  - intros x Hx. apply stores_frame. intros ro Hro. pose proof (kslots_range ro Hro). lia.
Qed.

Lemma kernelvec_keeps_witness : let kerneltrap s := set_reg Reg.t0 7 (set_reg Reg.tp 1 s) in
  rg (kernelvec (fun _ va => va) kerneltrap sample_cpu) Reg.t0 = 1005 /\ rg (kernelvec (fun _ va => va) kerneltrap sample_cpu) Reg.tp = 1.
Proof.
  cbv zeta. destruct (kernelvec_keeps (fun _ va => va) (fun s => set_reg Reg.t0 7 (set_reg Reg.tp 1 s)) (rg sample_cpu Reg.sp - 256) sample_cpu) as (H1 & H2 & _).
  - done.
  - by vm_compute.
  - intros r. apply u64_range.
  - reflexivity.
  - reflexivity.
  - intros x _. by rewrite !am_set_reg.
  - split; [|exact H2]. change 1005 with (rg sample_cpu Reg.t0). apply H1; [split; discriminate|discriminate].
Defined.

(** ** Timer interrupts *)

(** In machine mode addresses are not translated. *)
Definition direct (root va : Z) : Z := va.
(** The save area after timervec's three stores, and the memory it leaves. *)
Definition timer_saved (s : asm) : mem :=
  store64 (store64 (store64 (am s) (cs s mscratch) (rg s Reg.a1)) (cs s mscratch + 8) (rg s Reg.a2)) (cs s mscratch + 16) (rg s Reg.a3).
Definition timer_next (s : asm) (mtimecmp interval : Z) : mem := store64 (timer_saved s) mtimecmp (u64 (load64 (timer_saved s) mtimecmp + interval)).

Lemma direct_ld r o b s a : rg s b + o = a -> 0 <= a < 2 ^ 64 -> exec1 direct (Ld r o b) s = set_reg r (load64 (am s) a) s.
Proof. intros E Ha. unfold exec1, addr. by rewrite E, u64_small. Qed.
Lemma direct_sd r o b s a : rg s b + o = a -> 0 <= a < 2 ^ 64 -> exec1 direct (Sd r o b) s = s <| am := store64 (am s) a (rg s r) |>.
Proof. intros E Ha. unfold exec1, addr. by rewrite E, u64_small. Qed.

Lemma timervec_saves s : 0 <= cs s mscratch < 2 ^ 64 - 40 ->
  exec direct [Csrrw Reg.a0 mscratch Reg.a0; Sd Reg.a1 0 Reg.a0; Sd Reg.a2 8 Reg.a0; Sd Reg.a3 16 Reg.a0] s =
  set_reg Reg.a0 (cs s mscratch) (set_csr mscratch (rg s Reg.a0) s) <| am := timer_saved s |>.
Proof.
  intros Hsc. unfold exec. set (s1 := exec1 _ (Csrrw _ _ _) s). assert (E : rg s1 Reg.a0 = cs s mscratch) by reflexivity.
  rewrite (direct_sd Reg.a1 0 Reg.a0 _ (cs s mscratch)) by (rewrite ?E; lia). rewrite (direct_sd Reg.a2 8 Reg.a0 _ (cs s mscratch + 8)) by (reflexivity || lia).
  rewrite (direct_sd Reg.a3 16 Reg.a0 _ (cs s mscratch + 16)) by (reflexivity || lia). reflexivity.
Qed.
(** The interrupt is scheduled: from the registers saved to the request of a software interrupt. *)
Lemma timervec_schedules s mtimecmp interval : 0 <= rg s Reg.a0 < 2 ^ 64 - 40 -> 0 <= mtimecmp < 2 ^ 64 ->
  load64 (am s) (rg s Reg.a0 + 24) = mtimecmp -> load64 (am s) (rg s Reg.a0 + 32) = interval ->
  let s' := exec direct [Ld Reg.a1 24 Reg.a0; Ld Reg.a2 32 Reg.a0; Ld Reg.a3 0 Reg.a1; Add Reg.a3 Reg.a3 Reg.a2; Sd Reg.a3 0 Reg.a1; Li Reg.a1 2; Csrw sip Reg.a1] s in
  am s' = store64 (am s) mtimecmp (u64 (load64 (am s) mtimecmp + interval)) /\ cs s' sip = 2 /\ (forall c, c <> sip -> cs s' c = cs s c) /\
  forall r, r <> Reg.a1 -> r <> Reg.a2 -> r <> Reg.a3 -> rg s' r = rg s r.
Proof.
  intros Ha Hm E1 E2. cbv zeta. unfold exec.
  rewrite (direct_ld Reg.a1 24 Reg.a0 _ (rg s Reg.a0 + 24)), E1 by lia.
  rewrite (direct_ld Reg.a2 32 Reg.a0 _ (rg s Reg.a0 + 32)) by (try reflexivity; lia). rewrite am_set_reg, E2.
  rewrite (direct_ld Reg.a3 0 Reg.a1 _ mtimecmp) by (done || (cbn; lia)). rewrite !am_set_reg. set (s3 := exec1 direct (Add _ _ _) _).
  rewrite (direct_sd Reg.a3 0 Reg.a1 _ mtimecmp) by (done || (cbn; lia)). split_and!; [reflexivity|reflexivity|intros [] Hc; done|].
  intros r H1 H2 H3. cbn. rewrite !(proj2 (Z.eqb_neq _ _)) by done. done.
Qed.
Lemma timervec_restores s sc : rg s Reg.a0 = sc -> 0 <= sc < 2 ^ 64 - 40 ->
  let s' := exec direct [Ld Reg.a3 16 Reg.a0; Ld Reg.a2 8 Reg.a0; Ld Reg.a1 0 Reg.a0; Csrrw Reg.a0 mscratch Reg.a0; Mret] s in
  am s' = am s /\ cs s' mscratch = sc /\ cs s' sip = cs s sip /\ pc s' = cs s mepc /\
  forall r, rg s' r = if r =? Reg.a0 then cs s mscratch else if r =? Reg.a1 then load64 (am s) sc else if r =? Reg.a2 then load64 (am s) (sc + 8) else
                      if r =? Reg.a3 then load64 (am s) (sc + 16) else rg s r.
Proof.
  intros <- Hsc. cbv zeta. unfold exec.
  rewrite (direct_ld Reg.a3 16 Reg.a0 _ (rg s Reg.a0 + 16)) by lia. rewrite (direct_ld Reg.a2 8 Reg.a0 _ (rg s Reg.a0 + 8)) by (try reflexivity; lia).
  rewrite (direct_ld Reg.a1 0 Reg.a0 _ (rg s Reg.a0)) by (try (cbn; lia)). split_and!; reflexivity.
Qed.

(** A timer interrupt is invisible to the code it interrupts: timervec gives back every
    register and mscratch, returns to mepc, and writes nothing but its save area and mtimecmp,
    which it moves on by the interval start.c stored; a supervisor software interrupt is then
    pending, and the two parameters are still in place for the next interrupt. *)
Theorem timervec_keeps s mtimecmp interval : let sc := cs s mscratch in
  0 <= sc < 2 ^ 64 - 40 -> 0 <= mtimecmp < 2 ^ 64 -> mtimecmp + 8 <= sc \/ sc + 40 <= mtimecmp -> (forall r, 0 <= rg s r < 2 ^ 64) ->
  load64 (am s) (sc + 24) = mtimecmp -> load64 (am s) (sc + 32) = interval ->
  let s' := exec direct timervec s in
  (forall r, rg s' r = rg s r) /\ cs s' mscratch = sc /\ cs s' sip = 2 /\ pc s' = cs s mepc /\
  load64 (am s') mtimecmp = u64 (load64 (am s) mtimecmp + interval) /\ load64 (am s') (sc + 24) = mtimecmp /\ load64 (am s') (sc + 32) = interval /\
  forall x, ~ (sc <= x < sc + 24) -> ~ (mtimecmp <= x < mtimecmp + 8) -> rd (am s') x = rd (am s) x.
Proof.
  cbv zeta. intros Hsc Hm Hd Hr E1 E2.
  change timervec with ([Csrrw Reg.a0 mscratch Reg.a0; Sd Reg.a1 0 Reg.a0; Sd Reg.a2 8 Reg.a0; Sd Reg.a3 16 Reg.a0] ++
    [Ld Reg.a1 24 Reg.a0; Ld Reg.a2 32 Reg.a0; Ld Reg.a3 0 Reg.a1; Add Reg.a3 Reg.a3 Reg.a2; Sd Reg.a3 0 Reg.a1; Li Reg.a1 2; Csrw sip Reg.a1] ++
    [Ld Reg.a3 16 Reg.a0; Ld Reg.a2 8 Reg.a0; Ld Reg.a1 0 Reg.a0; Csrrw Reg.a0 mscratch Reg.a0; Mret]).
  rewrite !exec_app, timervec_saves by done. set (s1 := set_reg _ _ _ <| am := _ |>).
  assert (S : forall a, a + 8 <= cs s mscratch \/ cs s mscratch + 24 <= a -> load64 (timer_saved s) a = load64 (am s) a).
  { intros a Ha. unfold timer_saved. rewrite !load64_store64_ne by lia. done. }
  destruct (timervec_schedules s1 mtimecmp interval) as (B1 & B2 & B3 & B4); [done|done|exact (eq_trans (S (cs s mscratch + 24) ltac:(lia)) E1)|exact (eq_trans (S (cs s mscratch + 32) ltac:(lia)) E2)|].
  generalize dependent (exec direct [Ld Reg.a1 24 Reg.a0; Ld Reg.a2 32 Reg.a0; Ld Reg.a3 0 Reg.a1; Add Reg.a3 Reg.a3 Reg.a2; Sd Reg.a3 0 Reg.a1; Li Reg.a1 2; Csrw sip Reg.a1] s1).
  intros s2 B1 B2 B3 B4. destruct (timervec_restores s2 (cs s mscratch)) as (C1 & C2 & C3 & C4 & C5); [by rewrite B4|done|].
  change (am s1) with (timer_saved s) in B1. rewrite (S mtimecmp) in B1 by lia. rewrite C1, C2, C3, C4, B1, B2, (B3 mepc) by done.
  split_and!; [|done|done|done|apply load64_store64_eq, u64_range| | |].
  - intros r. rewrite C5, B1, !load64_store64_ne by lia. unfold timer_saved.
    destruct (Z.eqb_spec r Reg.a0) as [->|H0]; [by rewrite B3|]. destruct (Z.eqb_spec r Reg.a1) as [->|H1]; [rewrite !(load64_store64_ne _ (_ + _)) by lia; by apply load64_store64_eq|].
    destruct (Z.eqb_spec r Reg.a2) as [->|H2]; [rewrite (load64_store64_ne _ (_ + 16)) by lia; by apply load64_store64_eq|].
    destruct (Z.eqb_spec r Reg.a3) as [->|H3]; [by apply load64_store64_eq|]. rewrite B4 by done. transitivity (if r =? Reg.a0 then cs s mscratch else rg s r); [reflexivity|]. by destruct (Z.eqb_spec r Reg.a0).
  - rewrite load64_store64_ne, S by lia. exact E1.
  - rewrite load64_store64_ne, S by lia. exact E2.
  - intros x H1 H2. unfold timer_saved. rewrite !rd_store64_ne by lia. done.
Qed.

Definition sample_hart : asm := Asm (fun r => u64 (1000 + r)) (fun c => match c with mscratch => 0x8000A000 | _ => 0 end)
  (store64 (store64 (store64 (Mem ∅) 0x8000A018 0x02004000) 0x8000A020 1000000) 0x02004000 77) 0.
Lemma timervec_keeps_witness : load64 (am (exec direct timervec sample_hart)) 0x02004000 = 1000077.
Proof.
  destruct (timervec_keeps sample_hart 0x02004000 1000000) as (_ & _ & _ & _ & H & _).
  - by vm_compute.
  - by vm_compute.
  - left. by vm_compute.
  - intros r. apply u64_range.
  - by vm_compute.
  - by vm_compute.
  - rewrite H. by vm_compute.
Defined.

(** ** Context switches *)

Lemma context_range ro : ro ∈ context -> 0 <= ro.2 <= 104.
Proof. intros H. assert (Hl : Forall (fun ro => 0 <= ro.2 <= 104) context) by (repeat constructor; simpl; lia). rewrite Forall_forall in Hl. by apply Hl. Qed.

Section switch.
Context (xlate : Z -> Z -> Z) (ksatp : Z).

(** A context in memory that the kernel's page table maps at its own address. *)
Definition in_place (a : Z) : Prop := 0 <= a < 2 ^ 64 - 112 /\ forall o, 0 <= o < 112 -> xlate ksatp (a + o) = a + o.

Lemma swtch_run s old new : cs s satp = ksatp -> rg s Reg.a0 = old -> rg s Reg.a1 = new -> in_place old -> in_place new -> old + 112 <= new \/ new + 112 <= old ->
  let s' := exec xlate swtch s in
  am s' = stores old (rg s) context (am s) /\ cs s' = cs s /\ (forall ro, ro ∈ context -> rg s' ro.1 = load64 (am s) (new + ro.2)) /\
  pc s' = load64 (am s) (new + 0) /\ forall r, r ∉ context.*1 -> rg s' r = rg s r.
Proof using.
  intros E1 E2 E3 [Ho Io] [Hn In] Hd. unfold swtch. rewrite !exec_app, (exec_sds xlate Reg.a0 old).
  2: { intros ro Hro. pose proof (context_range ro Hro). unfold addr. rewrite E1, E2, u64_small by lia. apply Io. lia. }
  set (s1 := s <| am := _ |>). destruct (exec_lds xlate Reg.a1 new context s1) as (L1 & L2 & L3 & L4 & L5).
  - intros ro Hro. pose proof (context_range ro Hro). unfold addr. change (rg s1) with (rg s). change (cs s1) with (cs s). rewrite E1, E3, u64_small by lia. apply In. lia.
  - intros o Hc. assert (Hx : Reg.a1 ∉ context.*1) by (apply (bool_decide_unpack _); vm_compute; exact I). destruct Hx. by apply (list_elem_of_fmap_2 fst) in Hc.
  - apply (bool_decide_unpack _); vm_compute; exact I.
  - assert (Hl : forall ro, ro ∈ context -> load64 (am s1) (new + ro.2) = load64 (am s) (new + ro.2)).
    { intros ro Hro. pose proof (context_range ro Hro). apply load64_ext. intros x Hx. apply stores_frame. intros ro' Hro'. pose proof (context_range ro' Hro'). lia. }
    assert (Hra : (Reg.ra, 0) ∈ context) by constructor. pose proof (L4 _ Hra) as Er. rewrite (Hl _ Hra) in Er. cbn [fst snd] in Er.
    generalize dependent (exec xlate (lds Reg.a1 context) s1). intros s2 L1 L2 L3 L4 L5 Er. unfold exec.
    split_and!; [exact L1|exact L2|intros ro Hro; rewrite <- (Hl ro Hro); by apply L4|exact Er|exact L5].
Qed.
End switch.

(** C16.  A context switch and the switch back: swtch leaves the caller's return address, stack
    pointer and saved registers in [old], changes no other memory, and continues where the context
    [new] was left; when some later swtch, on any hart and from any context, loads [old] and nothing
    wrote it meanwhile, the first call of swtch returns to its caller with the stack pointer and the
    saved registers it was called with. *)
Theorem swtch_roundtrip xlate ksatp old new s : cs s satp = ksatp -> rg s Reg.a0 = old -> rg s Reg.a1 = new ->
  in_place xlate ksatp old -> in_place xlate ksatp new -> old + 112 <= new \/ new + 112 <= old -> (forall r, 0 <= rg s r < 2 ^ 64) ->
  let s1 := exec xlate swtch s in
  (pc s1 = load64 (am s) (new + 0) /\ (forall ro, ro ∈ context -> rg s1 ro.1 = load64 (am s) (new + ro.2)) /\
   forall x, ~ (old <= x < old + 112) -> rd (am s1) x = rd (am s) x) /\
  forall s2 other, cs s2 satp = ksatp -> rg s2 Reg.a0 = other -> rg s2 Reg.a1 = old -> in_place xlate ksatp other -> other + 112 <= old \/ old + 112 <= other ->
    (forall x, old <= x < old + 112 -> rd (am s2) x = rd (am s1) x) ->
    let s3 := exec xlate swtch s2 in pc s3 = rg s Reg.ra /\ forall ro, ro ∈ context -> rg s3 ro.1 = rg s ro.1.
Proof.
  intros E1 E2 E3 Io In Hd Hr. destruct (swtch_run xlate ksatp s old new E1 E2 E3 Io In Hd) as (A1 & _ & A3 & A4 & _). cbv zeta. rewrite A1.
  split; [split_and!; [exact A4|exact A3|]|].
  - intros x Hx. apply stores_frame. intros ro Hro. pose proof (context_range ro Hro). lia.
  - intros s2 other F1 F2 F3 Ix Hx Hk. destruct (swtch_run xlate ksatp s2 other old F1 F2 F3 Ix Io Hx) as (_ & _ & B3 & B4 & _).
    assert (Hl : forall ro, ro ∈ context -> load64 (am s2) (old + ro.2) = rg s ro.1).
    { intros ro Hro. pose proof (context_range ro Hro). rewrite (load64_ext _ (stores old (rg s) context (am s))) by (intros x Hx'; apply Hk; lia). by apply stores_load. }
    split; [rewrite B4; apply (Hl (Reg.ra, 0)); constructor|]. intros ro Hro. rewrite B3 by done. by apply Hl.
Qed.

Definition sample_thread : asm := set_reg Reg.a0 0x80020000 (set_reg Reg.a1 0x80020070 sample_hart).
Lemma swtch_roundtrip_witness : let s1 := exec direct swtch sample_thread in let s2 := set_reg Reg.a0 0x80020070 (set_reg Reg.a1 0x80020000 s1) in
  pc (exec direct swtch s2) = 1001 /\ rg (exec direct swtch s2) Reg.s11 = 1027.
Proof.
  cbv zeta. assert (I1 : in_place direct 0 0x80020000) by (split; [by vm_compute|done]). assert (I2 : in_place direct 0 0x80020070) by (split; [by vm_compute|done]).
  destruct (swtch_roundtrip direct 0 0x80020000 0x80020070 sample_thread) as [_ H]; [done|done|done|exact I1|exact I2|left; by vm_compute| |].
  - intros r. unfold sample_thread. cbn [set_reg rg]. change (0 <= (if r =? Reg.a0 then 0x80020000 else if r =? Reg.a1 then 0x80020070 else u64 (1000 + r)) < 2 ^ 64).
    destruct (r =? Reg.a0); [by vm_compute|]. destruct (r =? Reg.a1); [by vm_compute|apply u64_range].
  - destruct (H (set_reg Reg.a0 0x80020070 (set_reg Reg.a1 0x80020000 (exec direct swtch sample_thread))) 0x80020070) as [P R].
    + by vm_compute.
    + done.
    + done.
    + exact I2.
    + right. by vm_compute.
    + intros x _. by rewrite !am_set_reg.
    + split; [exact P|]. apply (R (Reg.s11, 104)). apply (bool_decide_unpack _); vm_compute; exact I.
Defined.

(** ** Boot *)

(** A hart's boot stack is the 4096 bytes of stack0 below its stack pointer. *)
Lemma entry_stack xlate stack0 s : 0 <= stack0 -> 0 <= cs s mhartid -> stack0 + 4096 * (cs s mhartid + 1) < 2 ^ 64 ->
  rg (exec xlate (entry stack0) s) Reg.sp = stack0 + 4096 * (cs s mhartid + 1).
Proof.
  intros H1 H2 H3. transitivity (u64 (u64 stack0 + u64 (u64 (1024 * 4) * u64 (cs s mhartid + 1)))); [reflexivity|]. change (u64 (1024 * 4)) with 4096.
  rewrite (u64_small stack0), (u64_small (_ + 1)), (u64_small (4096 * _)), u64_small by lia. lia.
Qed.
