(* ===== verification/Grep.v ===== *)
(** * grep: user/grep.c

    Strings are lists of bytes without their NUL.  [read] delivers the input in pieces of
    any size: [sched] is how many bytes each call would deliver, at least one while there is
    input and room. *)

From S2P Require Import Prelude.

Definition STAR : Z := 42.
Definition DOLLAR : Z := 36.
Definition CARET : Z := 94.
Definition DOT : Z := 46.
Definition NEWLINE : Z := 10.

(** [*text++ == c || c == '.'] *)
Definition cmatch (c a : Z) : bool := (a =? c) || (c =? DOT).

Section star.
Context (here : list Z -> bool).
Fixpoint matchstar (c : Z) (text : list Z) : bool :=
  here text ||
  match text with a :: text' => if cmatch c a then matchstar c text' else false | [] => false end.
End star.

Fixpoint matchhere (re text : list Z) : bool :=
  match re with
  | [] => true
  | c :: re' =>
      match re' with
      | d :: re'' =>
          if d =? STAR then matchstar (matchhere re'') c text
          else
            match text with
            | a :: text' => if (c =? DOT) || (c =? a) then matchhere re' text' else false
            | [] => false
            end
      | [] =>
          if c =? DOLLAR then match text with [] => true | _ :: _ => false end
          else
            match text with
            | a :: text' => if (c =? DOT) || (c =? a) then matchhere re' text' else false
            | [] => false
            end
      end
  end.

(** The search at every position of the text, the empty one at its end included. *)
Fixpoint match_any (re text : list Z) : bool :=
  matchhere re text || match text with _ :: text' => match_any re text' | [] => false end.
Definition match_re (re text : list Z) : bool :=
  match re with
  | c :: re' => if c =? CARET then matchhere re' text else match_any re text
  | [] => match_any re text
  end.

(** ** The main loop *)

Definition BUFSZ : nat := 1024.

(** strchr(p, '\n'): the bytes before the newline and after it; a NUL ends the search. *)
Fixpoint split_line (p : list Z) : option (list Z * list Z) :=
  match p with
  | [] => None
  | a :: p' =>
      if a =? 0 then None
      else if a =? NEWLINE then Some ([], p')
      else match split_line p' with Some (l, rest) => Some (a :: l, rest) | None => None end
  end.
(** The inner loop over the lines of the buffer: what is written, and what is left. *)
Fixpoint lines_loop (fuel : nat) (pattern p : list Z) : list Z * list Z :=
  match fuel with
  | O => ([], p)
  | S fuel' =>
      match split_line p with
      | None => ([], p)
      | Some (l, rest) =>
          let '(out, more) := lines_loop fuel' pattern rest in
          ((if match_re pattern l then l ++ [NEWLINE] else []) ++ out, more)
      end
  end.
(** [buf] is the first m bytes of the buffer. *)
Fixpoint grep_loop (fuel : nat) (pattern buf input : list Z) (sched : list nat) : list Z :=
  match fuel with
  | O => []
  | S fuel' =>
      let room := (BUFSZ - length buf - 1)%nat in
      let n := Nat.min room (Nat.min (length input) (S (hd 0%nat sched))) in
      if (n =? 0)%nat then []
      else
        let buf := buf ++ take n input in
        let '(out, more) := lines_loop (S (length buf)) pattern buf in
        out ++ grep_loop fuel' pattern more (drop n input) (tail sched)
  end.
(** Every turn consumes input. *)
Definition grep (pattern input : list Z) (sched : list nat) : list Z :=
  grep_loop (S (length input)) pattern [] input sched.

(** ** What a pattern means *)

(** [Here re t]: [re] matches at the beginning of [t]. *)
Inductive Here : list Z -> list Z -> Prop :=
  | here_nil t : Here [] t
  | here_star c re t1 t2 : Forall (fun a => cmatch c a = true) t1 -> Here re t2 ->
      Here (c :: STAR :: re) (t1 ++ t2)
  | here_end : Here [DOLLAR] []
  | here_char c re a t : (c = DOT \/ c = a) -> hd_error re <> Some STAR -> c :: re <> [DOLLAR] ->
      Here re t -> Here (c :: re) (a :: t).

(** A pattern matches a line: anchored, or anywhere. *)
Definition Matches (re t : list Z) : Prop :=
  match re with
  | c :: re' => if decide (c = CARET) then Here re' t else exists t1 t2, t = t1 ++ t2 /\ Here re t2
  | [] => True
  end.

Lemma matchstar_iff here c t : matchstar here c t = true <->
  exists t1 t2, t = t1 ++ t2 /\ Forall (fun a => cmatch c a = true) t1 /\ here t2 = true.
Proof.
  induction t as [|a t IH]; cbn [matchstar].
  - rewrite orb_false_r. split; [intros H; exists [], []; done|].
    intros (t1 & t2 & E & _ & H). symmetry in E. apply app_eq_nil in E as [-> ->]. done.
  - rewrite orb_true_iff. split.
    + intros [H|H]; [exists [], (a :: t); done|]. destruct (cmatch c a) eqn:E; [|done].
      apply IH in H as (t1 & t2 & -> & F & H). exists (a :: t1), t2. split_and!; try done. by constructor.
    + intros (t1 & t2 & E & F & H). destruct t1 as [|b t1]; [left; simpl in E; by subst|].
      right. injection E as -> ->. apply Forall_cons in F as [-> F]. apply IH. eauto.
Qed.

(** The tests of matchhere on the first character. *)
Lemma here_one c re' text : hd_error re' <> Some STAR -> c :: re' <> [DOLLAR] ->
  (forall t, matchhere re' t = true <-> Here re' t) ->
  match text with a :: text' => if (c =? DOT) || (c =? a) then matchhere re' text' else false | [] => false end = true
  <-> Here (c :: re') text.
Proof.
  intros Hs Hd IH. destruct text as [|a text].
  - split; [done|]. inversion 1; subst; [|done]. simpl in Hs. done.
  - split.
    + destruct ((c =? DOT) || (c =? a)) eqn:E; [|done]. intros H. apply orb_true_iff in E. rewrite !Z.eqb_eq in E.
      constructor; try done. by apply IH.
    + inversion 1 as [|? ? t1 t2| |? ? ? ? Hc ? ? Hh]; subst; [simpl in Hs; done|].
      apply IH in Hh. rewrite Hh. assert ((c =? DOT) || (c =? a) = true) as ->; [|done].
      apply orb_true_iff. by rewrite !Z.eqb_eq.
Qed.

Lemma matchhere_iff re : forall t, matchhere re t = true <-> Here re t.
Proof.
  induction re as [re IH] using (induction_ltof1 _ (@length Z)). unfold ltof in IH.
  intros t. destruct re as [|c re']; [split; [constructor|done]|].
  assert (IH' : forall t, matchhere re' t = true <-> Here re' t) by (intros; apply IH; simpl; lia).
  destruct re' as [|d re''].
  - cbn [matchhere]. destruct (Z.eqb_spec c DOLLAR) as [->|Hne].
    + destruct t; split; try done; [constructor|]. inversion 1; subst; done.
    + apply (here_one c [] t); [done|congruence|done].
  - change (matchhere (c :: d :: re'') t) with
      (if d =? STAR then matchstar (matchhere re'') c t
       else match t with a :: t' => if (c =? DOT) || (c =? a) then matchhere (d :: re'') t' else false | [] => false end).
    destruct (Z.eqb_spec d STAR) as [->|Hne].
    + rewrite matchstar_iff. split.
      * intros (t1 & t2 & -> & F & H). constructor; [done|]. apply IH; [simpl; lia|done].
      * inversion 1 as [|? ? t1 t2 F Hh| |? ? ? ? ? Hs]; subst; [|by simpl in Hs].
        exists t1, t2. split_and!; try done. apply IH; [simpl; lia|done].
    + apply here_one; [simpl; congruence|congruence|done].
Qed.

Lemma match_any_iff re t : match_any re t = true <-> exists t1 t2, t = t1 ++ t2 /\ Here re t2.
Proof.
  induction t as [|a t IH]; cbn [match_any].
  - rewrite orb_false_r, matchhere_iff. split; [intros H; by exists [], []|].
    intros (t1 & t2 & E & H). symmetry in E. apply app_eq_nil in E as [-> ->]. done.
  - rewrite orb_true_iff, matchhere_iff. split.
    + intros [H|H]; [by exists [], (a :: t)|]. apply IH in H as (t1 & t2 & -> & H). by exists (a :: t1), t2.
    + intros (t1 & t2 & E & H). destruct t1 as [|b t1]; [left; simpl in E; by subst|].
      right. injection E as -> ->. apply IH. eauto.
Qed.

(** C28. grep's matcher decides the meaning of the patterns it documents: match returns 1
    exactly for the lines that the pattern, with ^ . * $, describes.  It terminates on
    every input. *)
Theorem match_correct re text : match_re re text = true <-> Matches re text.
Proof.
  unfold match_re, Matches. destruct re as [|c re'].
  - split; [done|]. intros _. destruct text; done.
  - destruct (Z.eqb_spec c CARET) as [E|E]; [rewrite decide_True by done; apply matchhere_iff|].
    rewrite decide_False by done. apply match_any_iff.
Qed.

(** ** grep prints the matching lines *)

(** The reference: read one byte at a time, print a line at its newline if it matches. *)
Fixpoint print_matching (pattern cur input : list Z) : list Z :=
  match input with
  | [] => []
  | a :: input' =>
      if a =? NEWLINE then
        (if match_re pattern cur then cur ++ [NEWLINE] else []) ++ print_matching pattern [] input'
      else print_matching pattern (cur ++ [a]) input'
  end.
(** No line has more than BUFSZ - 2 bytes. *)
Definition lines_short (input : list Z) : Prop :=
  forall pre l post, input = pre ++ l ++ post -> NEWLINE ∉ l -> (length l <= BUFSZ - 2)%nat.

Lemma print_skip pattern l : forall cur rest, NEWLINE ∉ l ->
  print_matching pattern cur (l ++ rest) = print_matching pattern (cur ++ l) rest.
Proof.
  induction l as [|a l IH]; intros cur rest Hl; [by rewrite app_nil_r|]. simpl.
  apply not_elem_of_cons in Hl as [Ha Hl]. destruct (Z.eqb_spec a NEWLINE); [congruence|].
  rewrite IH by done. by rewrite <- app_assoc.
Qed.

Lemma split_line_some p l rest : split_line p = Some (l, rest) -> p = l ++ NEWLINE :: rest /\ NEWLINE ∉ l.
Proof.
  revert l rest. induction p as [|a p IH]; intros l rest E; [done|]. simpl in E.
  destruct (a =? 0); [done|]. destruct (Z.eqb_spec a NEWLINE) as [->|Hne].
  - injection E as <- <-. split; [done|]. apply not_elem_of_nil.
  - destruct (split_line p) as [[l' r']|]; [|done]. injection E as <- <-.
    destruct (IH l' r' eq_refl) as [-> Hl]. split; [done|]. apply not_elem_of_cons. done.
Qed.
Lemma split_line_none p : 0 ∉ p -> split_line p = None -> NEWLINE ∉ p.
Proof.
  induction p as [|a p IH]; intros H0 E; [apply not_elem_of_nil|]. apply not_elem_of_cons in H0 as [Ha H0].
  simpl in E. destruct (Z.eqb_spec a 0); [congruence|]. destruct (Z.eqb_spec a NEWLINE) as [|Hne]; [done|].
  destruct (split_line p) as [[]|] eqn:Ep; [done|]. apply not_elem_of_cons. split; [done|]. by apply IH.
Qed.

(** The inner loop prints the complete lines of the buffer and keeps the rest. *)
Lemma lines_loop_spec pattern fuel : forall p rest, 0 ∉ p -> (length p < fuel)%nat ->
  let '(out, more) := lines_loop fuel pattern p in
  print_matching pattern [] (p ++ rest) = out ++ print_matching pattern [] (more ++ rest) /\
  NEWLINE ∉ more /\ exists pre, p = pre ++ more.
Proof.
  induction fuel as [|fuel IH]; intros p rest H0 Hf; [lia|]. cbn [lines_loop].
  destruct (split_line p) as [[l r]|] eqn:E.
  - destruct (split_line_some p l r E) as [-> Hl]. apply not_elem_of_app in H0 as [H1 H2].
    apply not_elem_of_cons in H2 as [_ H2]. rewrite length_app in Hf. simpl in Hf.
    specialize (IH r rest H2 ltac:(lia)). destruct (lines_loop fuel pattern r) as [out more].
    destruct IH as (Hp & Hm & pre & ->). split_and!; [|done|].
    + rewrite <- app_assoc, print_skip by done. simpl. rewrite Hp, app_assoc. done.
    + exists (l ++ NEWLINE :: pre). by rewrite <- app_assoc.
  - split_and!; [done|by apply split_line_none|by exists []].
Qed.

Lemma grep_loop_spec pattern fuel : forall buf input sched, 0 ∉ buf ++ input -> NEWLINE ∉ buf ->
  lines_short (buf ++ input) -> (length input < fuel)%nat ->
  grep_loop fuel pattern buf input sched = print_matching pattern [] (buf ++ input).
Proof.
  induction fuel as [|fuel IH]; intros buf input sched H0 Hb Hs Hf; [lia|]. cbn [grep_loop].
  pose proof (Hs [] buf input eq_refl Hb) as Hlen. change (BUFSZ - 2)%nat with 1022%nat in Hlen.
  change BUFSZ with 1024%nat. set (n := Nat.min _ _). destruct (Nat.eqb_spec n 0) as [En|En].
  - assert (input = []) as -> by (destruct input; [done|unfold n in En; simpl in En; lia]).
    rewrite print_skip by done. done.
  - assert (Hin : input = take n input ++ drop n input) by (by rewrite take_drop).
    assert (E : buf ++ input = (buf ++ take n input) ++ drop n input) by (by rewrite <- app_assoc, <- Hin).
    rewrite E in H0, Hs. apply not_elem_of_app in H0 as [H1 H2].
    pose proof (lines_loop_spec pattern (S (length (buf ++ take n input))) (buf ++ take n input) (drop n input) H1
      ltac:(lia)) as Hl. destruct (lines_loop _ _ _) as [out more]. destruct Hl as (Hp & Hm & pre & Epre).
    rewrite E, Hp. f_equal. apply IH.
    + rewrite Epre in H1. apply not_elem_of_app in H1 as [_ H1]. by apply not_elem_of_app.
    + done.
    + intros pre' l post El Hnl. apply (Hs (pre ++ pre') l post); [|done]. rewrite Epre, <- !app_assoc. by rewrite El.
    + rewrite length_drop. unfold n in *. lia.
Qed.

(** C29. For a text without NUL bytes whose lines have at most 1022 bytes, grep prints
    exactly the lines that match the pattern, in order, however the input is cut into
    pieces by read; a last line without a newline is not printed. *)
Theorem grep_prints_matches pattern input sched : 0 ∉ input -> lines_short input ->
  grep pattern input sched = print_matching pattern [] input.
Proof. intros H0 Hs. apply grep_loop_spec; [done|apply not_elem_of_nil|done|lia]. Qed.
Lemma grep_prints_matches_witness :
  grep [97; 42; 98; 36] [97; 97; 98; 10; 99; 10; 98; 10] [0; 3; 1]%nat = [97; 97; 98; 10; 98; 10].
Proof.
  rewrite (grep_prints_matches [97; 42; 98; 36] [97; 97; 98; 10; 99; 10; 98; 10]).
  - reflexivity.
  - apply (bool_decide_unpack _). vm_compute. exact I.
  - intros pre l post E _. assert (H : (length l <= 8)%nat); [|change (BUFSZ - 2)%nat with 1022%nat; lia].
    apply (f_equal length) in E. rewrite !length_app in E. simpl in E. lia.
Defined.

(** A line longer than the buffer makes grep stop: with 1023 bytes and no newline there is
    no room to read and the rest of the input is ignored. *)
Lemma grep_stops_at_long_line pattern buf input sched fuel : (length buf = BUFSZ - 1)%nat ->
  grep_loop fuel pattern buf input sched = [].
Proof. intros H. destruct fuel; [done|]. cbn [grep_loop]. rewrite H. done. Qed.
