(* ===== verification/Ulib.v ===== *)
(** * The user library: user/ulib.c

    Pointers into a process's memory are addresses of [CString.mem]; the functions that search
    for a NUL look at [fuel] bytes at most and are [None] when they find none.  strchr and atoi
    take the string itself, the bytes before its NUL; a pointer into it is the rest of it.
    [read] is given by the bytes the process would read. *)

From S2P Require Import Prelude CString.

(** ** Memory *)

(** [while(( *s++ = *t++) != 0)] *)
Fixpoint strcpy (fuel : nat) (m : mem) (s t : Z) : option mem :=
  match fuel with
  | O => None
  | S fuel' => let m' := wr m s (rd m t) in if rd m t =? 0 then Some m' else strcpy fuel' m' (s + 1) (t + 1)
  end.

Fixpoint strcmp (fuel : nat) (m : mem) (p q : Z) : option Z :=
  match fuel with
  | O => None
  | S fuel' => if negb (rd m p =? 0) && (rd m p =? rd m q) then strcmp fuel' m (p + 1) (q + 1) else Some (u8 (rd m p) - u8 (rd m q))
  end.

(** [for(n = 0; s[n]; n++)] *)
Fixpoint strlen_from (fuel : nat) (m : mem) (s n : Z) : option Z :=
  match fuel with
  | O => None
  | S fuel' => if rd m (s + n) =? 0 then Some n else strlen_from fuel' m s (n + 1)
  end.
Definition strlen (fuel : nat) (m : mem) (s : Z) : option Z := strlen_from fuel m s 0.

Fixpoint memset_from (m : mem) (dst c i : Z) (n : nat) : mem :=
  match n with O => m | S n' => memset_from (wr m (dst + i) (u8 c)) dst c (i + 1) n' end.
Definition memset (m : mem) (dst c n : Z) : mem := memset_from m dst c 0 (Z.to_nat n).

(** [while(n-- > 0) *dst++ = *src++] and [while(n-- > 0) *--dst = *--src] *)
Fixpoint copy_up (m : mem) (dst src : Z) (n : nat) : mem :=
  match n with O => m | S n' => copy_up (wr m dst (rd m src)) (dst + 1) (src + 1) n' end.
Fixpoint copy_down (m : mem) (dst src : Z) (n : nat) : mem :=
  match n with O => m | S n' => copy_down (wr m (dst - 1) (rd m (src - 1))) (dst - 1) (src - 1) n' end.
Definition memmove (m : mem) (vdst vsrc n : Z) : mem :=
  if vdst <? vsrc then copy_up m vdst vsrc (Z.to_nat n) else copy_down m (vdst + n) (vsrc + n) (Z.to_nat n).
(** memmove takes an int. *)
Definition memcpy (m : mem) (dst src n : Z) : mem := memmove m dst src (i32 n).

Fixpoint memcmp_from (m : mem) (p1 p2 : Z) (n : nat) : Z :=
  match n with
  | O => 0
  | S n' => if negb (rd m p1 =? rd m p2) then rd m p1 - rd m p2 else memcmp_from m (p1 + 1) (p2 + 1) n'
  end.
Definition memcmp (m : mem) (s1 s2 n : Z) : Z := memcmp_from m s1 s2 (Z.to_nat n).

(** ** Strings *)

Fixpoint strchr (s : list Z) (c : Z) : option (list Z) :=
  match s with
  | [] => None
  | a :: s' => if a =? c then Some s else strchr s' c
  end.

Definition digit (c : Z) : bool := (48 <=? c) && (c <=? 57).
Fixpoint atoi_from (s : list Z) (n : Z) : Z :=
  match s with
  | [] => n
  | c :: s' => if digit c then atoi_from s' (i32 (n * 10 + c - 48)) else n
  end.
Definition atoi (s : list Z) : Z := atoi_from s 0.

(** gets: the bytes put in the buffer before the NUL, and the input left; [max - 1] bytes at most,
    up to and with the end of the line. *)
Fixpoint gets_loop (room : nat) (input : list Z) : list Z * list Z :=
  match room, input with
  | S room', c :: input' =>
      if (c =? 10) || (c =? 13) then ([c], input')
      else let '(line, rest) := gets_loop room' input' in (c :: line, rest)
  | _, _ => ([], input)
  end.
Definition gets_line (max : Z) (input : list Z) : list Z * list Z := gets_loop (Z.to_nat (max - 1)) input.

(** ** What the memory functions do *)

Lemma rd_copy_up n : forall m d s x, d <= s ->
  rd (copy_up m d s n) x = if (d <=? x) && (x <? d + Z.of_nat n) then rd m (s + (x - d)) else rd m x.
Proof.
  induction n as [|n IH]; intros m d s x Hds; simpl.
  - destruct (Z.leb_spec d x), (Z.ltb_spec x (d + Z.of_nat 0)); simpl; try done; lia.
  - rewrite IH by lia. destruct (decide (x = d)) as [->|Hx].
    + rewrite (proj2 (Z.leb_gt (d + 1) d)), (proj2 (Z.leb_le d d)), (proj2 (Z.ltb_lt d (d + Z.of_nat (S n)))) by lia. simpl. rewrite rd_wr_eq. f_equal. lia.
    + destruct (Z.leb_spec (d + 1) x), (Z.ltb_spec x (d + 1 + Z.of_nat n)), (Z.leb_spec d x), (Z.ltb_spec x (d + Z.of_nat (S n))); simpl; try lia;
        rewrite rd_wr_ne by lia; try done. f_equal. lia.
Qed.
Lemma rd_copy_down n : forall m d s x, s <= d ->
  rd (copy_down m d s n) x = if (d - Z.of_nat n <=? x) && (x <? d) then rd m (s + (x - d)) else rd m x.
Proof.
  induction n as [|n IH]; intros m d s x Hds; simpl.
  - destruct (Z.leb_spec (d - Z.of_nat 0) x), (Z.ltb_spec x d); simpl; try done; lia.
  - rewrite IH by lia. destruct (decide (x = d - 1)) as [->|Hx].
    + rewrite (proj2 (Z.ltb_ge (d - 1) (d - 1))), (proj2 (Z.ltb_lt (d - 1) d)), (proj2 (Z.leb_le (d - Z.of_nat (S n)) (d - 1))) by lia. rewrite andb_false_r. simpl. rewrite rd_wr_eq. f_equal. lia.
    + destruct (Z.leb_spec (d - 1 - Z.of_nat n) x), (Z.ltb_spec x (d - 1)), (Z.leb_spec (d - Z.of_nat (S n)) x), (Z.ltb_spec x d); simpl; try lia;
        rewrite rd_wr_ne by lia; try done. f_equal. lia.
Qed.
(** memmove copies the source as it was, also onto itself. *)
Lemma rd_umemmove m d s n x : 0 <= n ->
  rd (memmove m d s n) x = if (d <=? x) && (x <? d + n) then rd m (s + (x - d)) else rd m x.
Proof.
  intros Hn. unfold memmove. destruct (Z.ltb_spec d s).
  - rewrite rd_copy_up by lia. by rewrite Z2Nat.id.
  - rewrite rd_copy_down, Z2Nat.id by lia. replace (d + n - n) with d by lia. replace (s + n + (x - (d + n))) with (s + (x - d)) by lia. done.
Qed.
Lemma rd_memset_from n : forall m d c i x,
  rd (memset_from m d c i n) x = if (d + i <=? x) && (x <? d + i + Z.of_nat n) then u8 c else rd m x.
Proof.
  induction n as [|n IH]; intros m d c i x; simpl.
  - destruct (Z.leb_spec (d + i) x), (Z.ltb_spec x (d + i + Z.of_nat 0)); simpl; try done; lia.
  - rewrite IH. destruct (decide (x = d + i)) as [->|Hx].
    + rewrite rd_wr_eq. by destruct (Z.leb_spec (d + (i + 1)) (d + i)), (Z.leb_spec (d + i) (d + i)), (Z.ltb_spec (d + i) (d + i + Z.of_nat (S n))); simpl; try lia.
    + rewrite rd_wr_ne by lia. by destruct (Z.leb_spec (d + (i + 1)) x), (Z.ltb_spec x (d + (i + 1) + Z.of_nat n)), (Z.leb_spec (d + i) x), (Z.ltb_spec x (d + i + Z.of_nat (S n))); simpl; try lia.
Qed.

(** A string of [n] bytes at an address. *)
Definition is_string (m : mem) (a : Z) (n : nat) : Prop := (forall i, 0 <= i < Z.of_nat n -> rd m (a + i) <> 0) /\ rd m (a + Z.of_nat n) = 0.
Lemma is_string_next m a n : is_string m a (S n) -> rd m a <> 0 /\ is_string m (a + 1) n.
Proof.
  intros [H1 H2]. split; [specialize (H1 0 ltac:(lia)); by rewrite Z.add_0_r in H1|]. split; [intros i Hi; replace (a + 1 + i) with (a + (i + 1)) by lia; apply H1; lia|].
  rewrite <- H2. f_equal. lia.
Qed.

(** strcpy ends, and copies the string and its NUL, when the copy does not run over the rest of the string. *)
Lemma strcpy_copies n : forall m s t, is_string m t n -> s <= t \/ t + Z.of_nat n < s ->
  exists m', strcpy (S n) m s t = Some m' /\ forall x, rd m' x = if (s <=? x) && (x <=? s + Z.of_nat n) then rd m (t + (x - s)) else rd m x.
Proof.
  induction n as [|n IH]; intros m s t Ht Hd.
  - destruct Ht as [_ Ht]. rewrite Z.add_0_r in Ht. cbn [strcpy]. rewrite Ht. eexists. split; [reflexivity|]. intros x. destruct (decide (x = s)) as [->|Hx].
    + rewrite rd_wr_eq, Z.leb_refl, (proj2 (Z.leb_le s _)), <- Ht by lia. simpl. f_equal. lia.
    + rewrite rd_wr_ne by lia. by destruct (Z.leb_spec s x), (Z.leb_spec x (s + Z.of_nat 0)); simpl; try lia.
  - apply is_string_next in Ht as [Hne Ht]. cbn [strcpy]. rewrite (proj2 (Z.eqb_neq _ _) Hne). set (m1 := wr m s (rd m t)).
    assert (Hs : is_string m1 (t + 1) n).
    { destruct Ht as [H1 H2]. split; [intros i Hi|]; unfold m1; rewrite rd_wr_ne by lia; [by apply H1|done]. }
    destruct (IH m1 (s + 1) (t + 1) Hs ltac:(lia)) as (m' & E & Hm). exists m'. split; [exact E|]. intros x. rewrite Hm. unfold m1. destruct (decide (x = s)) as [->|Hx].
    + rewrite (proj2 (Z.leb_gt (s + 1) s)), Z.leb_refl, (proj2 (Z.leb_le s (s + Z.of_nat (S n)))), rd_wr_eq by lia. simpl. f_equal. lia.
    + destruct (Z.leb_spec (s + 1) x), (Z.leb_spec x (s + 1 + Z.of_nat n)), (Z.leb_spec s x), (Z.leb_spec x (s + Z.of_nat (S n))); simpl; try lia;
        rewrite rd_wr_ne by lia; try done. f_equal. lia.
Qed.

(** strcmp ends, and is zero for equal strings only. *)
Lemma strcmp_decides n : forall m p q, (forall x, 0 <= rd m x < 256) -> is_string m p n ->
  exists v, strcmp (S n) m p q = Some v /\ (v = 0 <-> forall i, 0 <= i <= Z.of_nat n -> rd m (p + i) = rd m (q + i)).
Proof.
  induction n as [|n IH]; intros m p q Hb Hp.
  - destruct Hp as [_ Hp]. rewrite Z.add_0_r in Hp. cbn [strcmp]. rewrite Hp. eexists. split; [reflexivity|]. unfold u8. rewrite !Z.mod_small by (lia || apply Hb). split.
    + intros E i Hi. replace i with 0 by lia. rewrite !Z.add_0_r. lia.
    + intros E. specialize (E 0 ltac:(lia)). rewrite !Z.add_0_r in E. lia.
  - apply is_string_next in Hp as [Hne Hp]. cbn [strcmp]. rewrite (proj2 (Z.eqb_neq _ _) Hne). simpl negb. destruct (Z.eqb_spec (rd m p) (rd m q)) as [E|E].
    + destruct (IH m (p + 1) (q + 1) Hb Hp) as (v & E1 & Hv). exists v. split; [exact E1|]. rewrite Hv. split; intros H i Hi.
      * destruct (decide (i = 0)) as [->|Hi0]; [by rewrite !Z.add_0_r|]. specialize (H (i - 1) ltac:(lia)). by replace (p + 1 + (i - 1)) with (p + i) in H by lia; replace (q + 1 + (i - 1)) with (q + i) in H by lia.
      * specialize (H (i + 1) ltac:(lia)). by replace (p + (i + 1)) with (p + 1 + i) in H by lia; replace (q + (i + 1)) with (q + 1 + i) in H by lia.
    + eexists. split; [reflexivity|]. unfold u8. rewrite !Z.mod_small by apply Hb. split; [lia|]. intros H. specialize (H 0 ltac:(lia)). rewrite !Z.add_0_r in H. lia.
Qed.

(** The string functions of the library fit together: strcpy ends and leaves a copy of the
    string, NUL included, at its destination and every other byte alone, as long as the copy does not
    run over the part of the string still to be copied; comparing the copy with the string it was
    made of, where the two do not overlap, strcmp ends and returns 0. *)
Theorem strcpy_strcmp m s t n : (forall x, 0 <= rd m x < 256) -> is_string m t n -> s + Z.of_nat n < t \/ t + Z.of_nat n < s ->
  exists m', strcpy (S n) m s t = Some m' /\ is_string m' s n /\ strcmp (S n) m' s t = Some 0 /\
  forall x, ~ (s <= x <= s + Z.of_nat n) -> rd m' x = rd m x.
Proof.
  intros Hb Ht Hd. destruct (strcpy_copies n m s t Ht ltac:(lia)) as (m' & E & Hm). exists m'.
  assert (Hin : forall i, 0 <= i <= Z.of_nat n -> rd m' (s + i) = rd m (t + i)).
  { intros i Hi. rewrite Hm, (proj2 (Z.leb_le s _)), (proj2 (Z.leb_le (s + i) _)) by lia. simpl. f_equal. lia. }
  assert (Hout : forall x, ~ (s <= x <= s + Z.of_nat n) -> rd m' x = rd m x).
  { intros x Hx. rewrite Hm. by destruct (Z.leb_spec s x), (Z.leb_spec x (s + Z.of_nat n)); simpl; try lia. }
  assert (Hs : is_string m' s n) by (destruct Ht as [H1 H2]; split; [intros i Hi; rewrite Hin by lia; by apply H1|by rewrite Hin by lia]).
  assert (Hb' : forall x, 0 <= rd m' x < 256) by (intros x; rewrite Hm; destruct (_ && _); apply Hb).
  destruct (strcmp_decides n m' s t Hb' Hs) as (v & E2 & Hv). split_and!; [exact E|exact Hs| |exact Hout].
  rewrite E2. f_equal. apply Hv. intros i Hi. rewrite Hin, Hout by lia. done.
Qed.
Definition sample_mem : mem := wr (wr (Mem ∅) 100 104) 101 105.
Lemma strcpy_strcmp_witness : exists m', strcpy 3 sample_mem 200 100 = Some m' /\ rd m' 201 <> 0.
Proof.
  destruct (strcpy_strcmp sample_mem 200 100 2) as (m' & E & [H _] & _).
  - intros x. unfold sample_mem. destruct (decide (x = 101)) as [->|H1]; [by vm_compute|]. rewrite rd_wr_ne by done.
    destruct (decide (x = 100)) as [->|H2]; [by vm_compute|]. rewrite rd_wr_ne by done. by vm_compute.
  - split; [|reflexivity]. intros i Hi. assert (i = 0 \/ i = 1) as [-> | ->] by lia; by vm_compute.
  - right. by vm_compute.
  - exists m'. split; [exact E|]. apply (H 1). by vm_compute.
Defined.
