(* ===== verification/Uprintf.v ===== *)
(** * Formatted output of user programs: user/printf.c

    The functions give the bytes they pass to putc, in order.  An argument list is what the caller
    passed for the dots; taking an argument that is not there, or a string where a number was
    passed, has no meaning in C and is [None]. *)

From S2P Require Import Prelude Ulib.

(** digits[x] of "0123456789ABCDEF" *)
Definition digits (x : Z) : Z := if x <? 10 then 48 + x else 55 + x.

(** [do { buf[i++] = digits[x % base]; } while((x /= base) != 0)] *)
Fixpoint fill (fuel : nat) (x base : Z) : list Z :=
  match fuel with
  | O => []
  | S fuel' => digits (x mod base) :: (if x / base =? 0 then [] else fill fuel' (x / base) base)
  end.
(** An unsigned int has at most 32 digits in any base. *)
Definition printint (xx base : Z) (sgn : bool) : list Z :=
  let neg := sgn && (xx <? 0) in
  let x := if neg then u32 (- xx) else u32 xx in
  let buf := fill 32 x base ++ if neg then [45] else [] in
  rev buf.

(** [for (i = 0; i < 16; i++, x <<= 4) putc(digits[x >> 60])] *)
Fixpoint ptr_digits (n : nat) (x : Z) : list Z :=
  match n with O => [] | S n' => digits (Z.shiftr x 60) :: ptr_digits n' (u64 (Z.shiftl x 4)) end.
Definition printptr (x : Z) : list Z := [48; 120] ++ ptr_digits 16 x.

Inductive arg := Num (x : Z) | Str (s : option (list Z)).
Definition va_num (ap : list arg) : option (Z * list arg) := match ap with Num x :: ap' => Some (x, ap') | _ => None end.
Definition va_str (ap : list arg) : option (option (list Z) * list arg) := match ap with Str s :: ap' => Some (s, ap') | _ => None end.

(** What one conversion prints, and the arguments left. *)
Definition convert (c : Z) (ap : list arg) : option (list Z * list arg) :=
  if c =? 100 then (fun xa => (printint (i32 xa.1) 10 true, xa.2)) <$> va_num ap
  else if c =? 108 then (fun xa => (printint (i32 xa.1) 10 false, xa.2)) <$> va_num ap
  else if c =? 120 then (fun xa => (printint (i32 xa.1) 16 false, xa.2)) <$> va_num ap
  else if c =? 112 then (fun xa => (printptr (u64 xa.1), xa.2)) <$> va_num ap
  else if c =? 115 then (fun sa => (default (bytes_of "(null)") sa.1, sa.2)) <$> va_str ap
  else if c =? 99 then (fun xa => ([u8 xa.1], xa.2)) <$> va_num ap
  else if c =? 37 then Some ([c], ap)
  else Some ([37; c], ap).
(** The loop; [state] is whether a percent sign was seen. *)
Fixpoint vprintf (fmt : list Z) (state : bool) (ap : list arg) : option (list Z) :=
  match fmt with
  | [] => Some []
  | c :: fmt' =>
      if negb state then
        if c =? 37 then vprintf fmt' true ap
        else cons c <$> vprintf fmt' false ap
      else
        match convert c ap with
        | Some (out, ap') => app out <$> vprintf fmt' false ap'
        | None => None
        end
  end.
Definition fprintf (fmt : list Z) (ap : list arg) : option (list Z) := vprintf fmt false ap.

(** ** Numbers *)

Lemma vprintf_text fmt rest ap : 37 ∉ fmt -> vprintf (fmt ++ rest) false ap = app fmt <$> vprintf rest false ap.
Proof.
  induction fmt as [|c fmt IH]; intros H; [simpl; by destruct (vprintf rest false ap)|]. apply not_elem_of_cons in H as [Hc H]. simpl.
  rewrite (proj2 (Z.eqb_neq c 37)) by done. rewrite IH by done. by destruct (vprintf rest false ap).
Qed.
(** Text without a percent sign is printed as it is. *)
Lemma fprintf_text fmt ap : 37 ∉ fmt -> fprintf fmt ap = Some fmt.
Proof. intros H. unfold fprintf. rewrite <- (app_nil_r fmt) at 1. rewrite vprintf_text by done. simpl. by rewrite app_nil_r. Qed.

Lemma digits_digit x : 0 <= x < 10 -> digit (digits x) = true /\ digits x - 48 = x.
Proof. intros Hx. unfold digit, digits. destruct (Z.ltb_spec x 10); [|lia]. split; [|lia]. apply andb_true_iff. split; apply Z.leb_le; lia. Qed.

(** Reading digits back: the loop of atoi on the printed digits, from a number read so far. *)
Lemma atoi_digits s n k rest : (forall c, c ∈ s -> digit c = true) -> digit k = true -> atoi_from (s ++ k :: rest) n = atoi_from rest (i32 (atoi_from s n * 10 + k - 48)).
Proof.
  revert n. induction s as [|c s IH]; intros n Hs Hk; simpl; [by rewrite Hk|]. rewrite Hs by constructor. rewrite IH; [done| |done]. intros c' Hc'. apply Hs. by constructor.
Qed.
Lemma fill_digits fuel : forall x, 0 <= x -> forall c, c ∈ fill fuel x 10 -> digit c = true.
Proof.
  induction fuel as [|fuel IH]; intros x Hx c Hc; [by apply elem_of_nil in Hc|]. cbn [fill] in Hc. apply elem_of_cons in Hc as [->|Hc].
  - apply digits_digit. apply Z.mod_pos_bound. lia.
  - destruct (x / 10 =? 0); [by apply elem_of_nil in Hc|]. apply (IH (x / 10)); [apply Z.div_pos; lia|done].
Qed.
Lemma atoi_fill fuel : forall x, 0 <= x < 2 ^ 31 -> x < 10 ^ Z.of_nat fuel -> (0 < fuel)%nat -> atoi (rev (fill fuel x 10)) = x.
Proof.
  induction fuel as [|fuel IH]; intros x Hx Hp Hf; [lia|]. cbn [fill]. rewrite Nat2Z.inj_succ, Z.pow_succ_r in Hp by lia.
  pose proof (Z.mod_pos_bound x 10 ltac:(lia)) as Hm. pose proof (Z.div_mod x 10 ltac:(lia)) as Hd. destruct (digits_digit (x mod 10) Hm) as [D1 D2].
  assert (Hq : 0 <= x / 10 < 10 ^ Z.of_nat fuel) by (split; [apply Z.div_pos; lia|apply Z.div_lt_upper_bound; lia]).
  assert (Hi : forall y, y = x / 10 -> i32 (y * 10 + digits (x mod 10) - 48) = x) by (intros y ->; rewrite i32_small; lia).
  cbn [rev]. unfold atoi. rewrite atoi_digits; [|intros c Hc|done].
  - cbn [atoi_from]. apply Hi. destruct (Z.eqb_spec (x / 10) 0) as [E|E]; [by rewrite E|].
    destruct (decide (fuel = 0%nat)) as [->|Hf']; [simpl in Hq; lia|]. apply IH; lia.
  - destruct (x / 10 =? 0); [by apply elem_of_nil in Hc|]. apply list_elem_of_In, in_rev, list_elem_of_In in Hc. by apply (fill_digits fuel (x / 10)); [lia|].
Qed.

(** The library prints and reads numbers the same way: atoi reads back what printf prints with
    %d, for every non-negative int. *)
Theorem atoi_printf n : 0 <= n < 2 ^ 31 -> exists s, fprintf (bytes_of "%d") [Num n] = Some s /\ atoi s = n.
Proof.
  intros Hn. exists (printint n 10 true). split.
  { transitivity (Some (printint (i32 n) 10 true ++ [])); [reflexivity|]. by rewrite app_nil_r, i32_small by lia. }
  unfold printint. rewrite (proj2 (Z.ltb_ge n 0)) by lia.
  cbn [andb]. rewrite app_nil_r, u32_small by lia. apply atoi_fill; [done|simpl; lia|lia].
Qed.
Lemma atoi_printf_witness : exists s, fprintf (bytes_of "%d") [Num 2147483647] = Some s /\ atoi s = 2147483647.
Proof. apply (atoi_printf 2147483647). lia. Defined.
