(* ===== verification/Uprogs.v ===== *)
(** * User programs: user/cat.c, wc.c, echo.c, ls.c, init.c, kill.c, ln.c, mkdir.c, rm.c, strace.c,
    time.c, setPriority.c, settickets.c, zombie.c

    A program is an interaction tree over the system calls: what it asks of the kernel and how it
    goes on with each answer; loops are [ITree.iter], so a program may run for ever.  Strings are
    their bytes without the NUL.  printf makes one write for each byte, as putc does. *)

From ITree Require Import Core.ITreeDefinition.
From S2P Require Import Prelude Ulib Uprintf.

Record stat := Stat { st_dev : Z; st_ino : Z; st_type : Z; st_nlink : Z; st_size : Z }.

(** The calls a program makes; a read gives the bytes it put in the buffer, or nothing when it
    returned -1.  [Undefined] stands for what C does not define. *)
Variant sysE : Type -> Type :=
  | Exit (status : Z) : sysE Empty_set
  | Undefined : sysE Empty_set
  | Fork : sysE Z
  | Wait : sysE Z
  | Waitx : sysE (Z * Z)
  | Read (fd n : Z) : sysE (option (list Z))
  | Write (fd : Z) (bytes : list Z) : sysE Z
  | Open (path : list Z) (mode : Z) : sysE Z
  | Close (fd : Z) : sysE Z
  | Fstat (fd : Z) : sysE (option stat)
  | Exec (path : list Z) (argv : list (list Z)) : sysE Z
  | Mknod (path : list Z) (major minor : Z) : sysE Z
  | Mkdir (path : list Z) : sysE Z
  | Unlink (path : list Z) : sysE Z
  | Link (old new : list Z) : sysE Z
  | Dup (fd : Z) : sysE Z
  | Kill (pid : Z) : sysE Z
  | Sleep (n : Z) : sysE Z
  | Trace (mask : Z) : sysE Z
  | SetPriority (priority pid : Z) : sysE Z
  | Settickets (n : Z) : sysE Z.

Notation prog := (itree sysE).
Notation call := (@ITree.trigger sysE _).
Notation "'let*' x ':=' c 'in' k" := (ITree.bind c (fun x => k)) (at level 200, x name, c at level 100, k at level 200, right associativity).
Notation "c >> k" := (ITree.bind c (fun _ => k)) (at level 60, right associativity).

Definition exit {A} (status : Z) : prog A := let* v := call (Exit status) in match v : Empty_set with end.
Definition undefined {A} : prog A := let* v := call Undefined in match v : Empty_set with end.
(** ulib.c: main's return is exit(0). *)
Definition _main (main : prog unit) : prog unit := main >> exit 0.

(** ** printf *)

Fixpoint putall (fd : Z) (cs : list Z) : prog unit :=
  match cs with [] => Ret tt | c :: cs' => call (Write fd [c]) >> putall fd cs' end.
Definition fprintf (fd : Z) (fmt : list Z) (ap : list arg) : prog unit :=
  match Uprintf.fprintf fmt ap with Some out => putall fd out | None => undefined end.
Definition printf (fmt : list Z) (ap : list arg) : prog unit := fprintf 1 fmt ap.
Definition line (s : string) : list Z := bytes_of s ++ [10].
Definition S_ (s : list Z) : arg := Str (Some s).

(** ** cat.c *)

(** [while((n = read(fd, buf, sizeof(buf))) > 0)] *)
Definition cat_turn (fd : Z) : prog (unit + Z) :=
  let* r := call (Read fd 512) in
  match r with
  | None => Ret (inr (-1))
  | Some [] => Ret (inr 0)
  | Some buf =>
      let* n := call (Write 1 buf) in
      if negb (n =? Z.of_nat (length buf)) then fprintf 2 (line "cat: write error") [] >> exit 1
      else Ret (inl tt)
  end.
Definition cat (fd : Z) : prog unit :=
  let* n := ITree.iter (fun _ : unit => cat_turn fd) tt in
  if n <? 0 then fprintf 2 (line "cat: read error") [] >> exit 1
  else Ret tt.

(** [for(i = 1; i < argc; i++)] over the arguments from argv[1] on *)
Fixpoint cat_files (args : list (list Z)) : prog unit :=
  match args with
  | [] => Ret tt
  | arg :: args' =>
      let* fd := call (Open arg 0) in
      if fd <? 0 then fprintf 2 (line "cat: cannot open %s") [S_ arg] >> exit 1
      else cat fd >> call (Close fd) >> cat_files args'
  end.
Definition cat_main (argv : list (list Z)) : prog unit :=
  if (length argv <=? 1)%nat then cat 0 >> exit 0
  else cat_files (tail argv) >> exit 0.

(** ** wc.c *)

Definition WHITE : list Z := [32; 13; 9; 10; 11].
(** l, w, c and inword *)
Definition counts : Type := Z * Z * Z * bool.
Definition wc_char (st : counts) (b : Z) : counts :=
  let '(l, w, c, inword) := st in
  let c := i32 (c + 1) in
  let l := if b =? 10 then i32 (l + 1) else l in
  match strchr WHITE b with
  | Some _ => (l, w, c, false)
  | None => if negb inword then (l, i32 (w + 1), c, true) else (l, w, c, inword)
  end.
Definition wc_turn (fd : Z) (st : counts) : prog (counts + option counts) :=
  let* r := call (Read fd 512) in
  match r with
  | None => Ret (inr None)
  | Some [] => Ret (inr (Some st))
  | Some buf => Ret (inl (foldl wc_char st buf))
  end.
Definition wc (fd : Z) (name : list Z) : prog unit :=
  let* r := ITree.iter (wc_turn fd) (0, 0, 0, false) in
  match r with
  | None => printf (line "wc: read error") [] >> exit 1
  | Some (l, w, c, _) => printf (line "%d %d %d %s") [Num l; Num w; Num c; S_ name]
  end.
Fixpoint wc_files (args : list (list Z)) : prog unit :=
  match args with
  | [] => Ret tt
  | arg :: args' =>
      let* fd := call (Open arg 0) in
      if fd <? 0 then printf (line "wc: cannot open %s") [S_ arg] >> exit 1
      else wc fd arg >> call (Close fd) >> wc_files args'
  end.
Definition wc_main (argv : list (list Z)) : prog unit :=
  if (length argv <=? 1)%nat then wc 0 [] >> exit 0
  else wc_files (tail argv) >> exit 0.

(** ** echo.c *)

Fixpoint echo_args (args : list (list Z)) : prog unit :=
  match args with
  | [] => Ret tt
  | arg :: args' => call (Write 1 arg) >> call (Write 1 (match args' with [] => [10] | _ => [32] end)) >> echo_args args'
  end.
Definition echo_main (argv : list (list Z)) : prog unit := echo_args (tail argv) >> exit 0.

(** ** ls.c *)

Definition DIRSIZ : nat := 14.
Definition T_DIR : Z := 1.
Definition T_FILE : Z := 2.
Definition T_DEVICE : Z := 3.
(** [for(p=path+strlen(path); p >= path && *p != '/'; p--)] then [p++]; [p] is one more than the
    position looked at. *)
Fixpoint name_start (path : list Z) (p : nat) : nat :=
  match p with
  | O => O
  | S q => if default 0 (path !! q) =? 47 then p else name_start path q
  end.
Definition fmtname (path : list Z) : list Z :=
  let p := drop (name_start path (S (length path))) path in
  if (DIRSIZ <=? length p)%nat then p
  else p ++ replicate (DIRSIZ - length p) 32.

(** ulib.c *)
Definition stat_path (n : list Z) : prog (option stat) :=
  let* fd := call (Open n 0) in
  if fd <? 0 then Ret None
  else let* r := call (Fstat fd) in call (Close fd) >> Ret r.

Definition de_inum (de : list Z) : Z := default 0 (de !! 0%nat) + 256 * default 0 (de !! 1%nat).
Definition de_name (de : list Z) : list Z := cstr (take DIRSIZ (drop 2 de)).
(** [while(read(fd, &de, sizeof(de)) == sizeof(de))] *)
Definition ls_entries (fd : Z) (path : list Z) : prog unit :=
  ITree.iter (fun _ : unit =>
    let* r := call (Read fd 16) in
    match r with
    | Some de =>
        if negb (length de =? 16)%nat then Ret (inr tt)
        else if de_inum de =? 0 then Ret (inl tt)
        else
          let buf := path ++ [47] ++ de_name de in
          let* st := stat_path buf in
          match st with
          | None => printf (line "ls: cannot stat %s") [S_ buf] >> Ret (inl tt)
          | Some st => printf (line "%s %d %d %d") [S_ (fmtname buf); Num (st_type st); Num (st_ino st); Num (st_size st)] >> Ret (inl tt)
          end
    | None => Ret (inr tt)
    end) tt.
Definition ls (path : list Z) : prog unit :=
  let* fd := call (Open path 0) in
  if fd <? 0 then fprintf 2 (line "ls: cannot open %s") [S_ path]
  else
    let* st := call (Fstat fd) in
    match st with
    | None => fprintf 2 (line "ls: cannot stat %s") [S_ path] >> call (Close fd) >> Ret tt
    | Some st =>
        (if (st_type st =? T_DEVICE) || (st_type st =? T_FILE) then
           printf (line "%s %d %d %l") [S_ (fmtname path); Num (st_type st); Num (st_ino st); Num (st_size st)]
         else if st_type st =? T_DIR then
           if 512 <? Z.of_nat (length path + 1 + DIRSIZ + 1) then printf (line "ls: path too long") []
           else ls_entries fd path
         else Ret tt) >>
        call (Close fd) >> Ret tt
    end.
Fixpoint ls_args (args : list (list Z)) : prog unit :=
  match args with [] => Ret tt | arg :: args' => ls arg >> ls_args args' end.
Definition ls_main (argv : list (list Z)) : prog unit :=
  if (length argv <? 2)%nat then ls (bytes_of ".") >> exit 0
  else ls_args (tail argv) >> exit 0.

(** ** init.c *)

Definition O_RDWR : Z := 2.
Definition CONSOLE : Z := 1.
Definition SH : list Z := bytes_of "sh".
(** One turn of [for(;;)]: start a shell and wait until it exits. *)
Definition init_turn : prog (unit + unit) :=
  printf (line "init: starting sh") [] >>
  let* pid := call Fork in
  if pid <? 0 then printf (line "init: fork failed") [] >> exit 1
  else if pid =? 0 then call (Exec SH [SH]) >> printf (line "init: exec sh failed") [] >> exit 1
  else
    ITree.iter (fun _ : unit =>
      let* wpid := call Wait in
      if wpid =? pid then Ret (inr tt)
      else if wpid <? 0 then printf (line "init: wait returned an error") [] >> exit 1
      else Ret (inl tt)) tt >>
    Ret (inl tt).
Definition init_main : prog unit :=
  let* fd := call (Open (bytes_of "console") O_RDWR) in
  (if fd <? 0 then call (Mknod (bytes_of "console") CONSOLE 0) >> call (Open (bytes_of "console") O_RDWR) >> Ret tt
   else Ret tt) >>
  call (Dup 0) >> call (Dup 0) >>
  ITree.iter (fun _ : unit => init_turn) tt.

(** ** kill.c, ln.c, mkdir.c, rm.c *)

Fixpoint kill_args (args : list (list Z)) : prog unit :=
  match args with [] => Ret tt | arg :: args' => call (Kill (atoi arg)) >> kill_args args' end.
Definition kill_main (argv : list (list Z)) : prog unit :=
  if (length argv <? 2)%nat then fprintf 2 (line "usage: kill pid...") [] >> exit 1
  else kill_args (tail argv) >> exit 0.

Definition ln_main (argv : list (list Z)) : prog unit :=
  match argv with
  | [_; old; new] =>
      let* r := call (Link old new) in
      (if r <? 0 then fprintf 2 (line "link %s %s: failed") [S_ old; S_ new] else Ret tt) >> exit 0
  | _ => fprintf 2 (line "Usage: ln old new") [] >> exit 1
  end.

Fixpoint mkdir_args (args : list (list Z)) : prog unit :=
  match args with
  | [] => Ret tt
  | arg :: args' =>
      let* r := call (Mkdir arg) in
      if r <? 0 then fprintf 2 (line "mkdir: %s failed to create") [S_ arg] else mkdir_args args'
  end.
Definition mkdir_main (argv : list (list Z)) : prog unit :=
  if (length argv <? 2)%nat then fprintf 2 (line "Usage: mkdir files...") [] >> exit 1
  else mkdir_args (tail argv) >> exit 0.

Fixpoint rm_args (args : list (list Z)) : prog unit :=
  match args with
  | [] => Ret tt
  | arg :: args' =>
      let* r := call (Unlink arg) in
      if r <? 0 then fprintf 2 (line "rm: %s failed to delete") [S_ arg] else rm_args args'
  end.
Definition rm_main (argv : list (list Z)) : prog unit :=
  if (length argv <? 2)%nat then fprintf 2 (line "Usage: rm files...") [] >> exit 1
  else rm_args (tail argv) >> exit 0.

(** ** strace.c, time.c, setPriority.c, settickets.c, zombie.c *)

Definition max_commands : nat := 32.
(** The arguments exec finds: the pointers up to the first null one.  When the array has none, exec
    reads on behind it. *)
Fixpoint upto_null (ptrs : list (option (list Z))) : option (list (list Z)) :=
  match ptrs with
  | [] => None
  | None :: _ => Some []
  | Some s :: ptrs' => cons s <$> upto_null ptrs'
  end.
(** [stack] is what new_argv holds before anything is assigned to it. *)
Definition strace_main (stack : list (option (list Z))) (argv : list (list Z)) : prog unit :=
  if (length argv <? 3)%nat || (max_commands <? length argv)%nat then fprintf 2 (bytes_of "Enter valid range of arguments") [] >> exit 1
  else
    let* check := call (Trace (atoi (default [] (argv !! 1%nat)))) in
    if check <? 0 then fprintf 2 (line "%s: strace  command failed") [S_ (default [] (argv !! 0%nat))] >> exit 1
    else
      let command := drop 2 argv in
      let new_argv := (Some <$> command) ++ drop (length command) stack in
      match upto_null new_argv with
      | None => undefined
      | Some args => call (Exec (default [] (command !! 0%nat)) args) >> exit 0
      end.

Definition time_main (argv : list (list Z)) : prog unit :=
  let* pid := call Fork in
  if pid <? 0 then printf (line "fork(): failed") [] >> exit 1
  else if pid =? 0 then
    if (length argv =? 1)%nat then call (Sleep 10) >> exit 0
    else call (Exec (default [] (argv !! 1%nat)) (drop 1 argv)) >> printf (line "exec(): failed") [] >> exit 1
  else
    let* times := call Waitx in
    let '(wtime, rtime) := times in
    printf ([10] ++ line "waiting:%d" ++ line "running:%d") [Num wtime; Num rtime].

Definition setPriority_main (argv : list (list Z)) : prog unit :=
  if (length argv <? 3)%nat || (3 <? length argv)%nat then fprintf 2 (line "Enter valid number of arguments") [S_ (default [] (argv !! 0%nat))] >> exit 1
  else
    let pid := atoi (default [] (argv !! 2%nat)) in
    let priority := atoi (default [] (argv !! 1%nat)) in
    if (priority <? 0) || (100 <? priority) then fprintf 2 (line "Priority must be between 0 and 100") [] >> exit 1
    else call (SetPriority priority pid) >> exit 1.

(** With one argument argv[1] is the null pointer that ends the array; [at0] is the string at address 0. *)
Definition settickets_main (at0 : list Z) (argv : list (list Z)) : prog unit :=
  if negb (length argv =? 1)%nat then fprintf 2 (line "Invalid number of arguments") [] >> exit 1
  else call (Settickets (atoi (default at0 (argv !! 1%nat)))) >> exit 1.

Definition zombie_main : prog unit :=
  let* pid := call Fork in
  (if 0 <? pid then call (Sleep 5) >> Ret tt else Ret tt) >> exit 0.
