(* ===== verification/UprogsSpec.v ===== *)
(** * What the user programs do

    [exec] runs a program in a world that answers its calls; a run that needs no more than some
    number of steps is the program's behaviour, and there is only one.  The theorems say what
    cat, wc, echo and init do in worlds whose files arrive in pieces of any size. *)

From ITree Require Import Core.ITreeDefinition Eq.Shallow.
From S2P Require Import Prelude Ulib Uprintf Uprogs.

(** ** Running a program *)

Inductive outcome (A : Type) := Returned (a : A) | Exited (status : Z).
Arguments Returned {A} a.
Arguments Exited {A} status.

Definition exit_status {B} (e : sysE B) : option Z := match e with Exit st => Some st | _ => None end.

Section run.
Context {W : Type} (sys : forall B, sysE B -> W -> option (B * W)).

Fixpoint exec {A} (fuel : nat) (t : prog A) (w : W) : option (outcome A * W) :=
  match fuel with
  | O => None
  | S fuel' =>
      match observe t with
      | RetF a => Some (Returned a, w)
      | TauF t' => exec fuel' t' w
      | VisF e k =>
          match exit_status e with
          | Some st => Some (Exited st, w)
          | None => match sys _ e w with Some (b, w') => exec fuel' (k b) w' | None => None end
          end
      end
  end.
Definition Runs {A} (t : prog A) (w : W) (o : outcome A) (w' : W) : Prop := exists fuel, exec fuel t w = Some (o, w').

Lemma exec_more {A} n : forall (t : prog A) w r, exec n t w = Some r -> forall m, (n <= m)%nat -> exec m t w = Some r.
Proof using.
  induction n as [|n IH]; intros t w r E m Hm; [done|]. destruct m as [|m]; [lia|]. cbn [exec] in *.
  destruct (observe t) as [a|t'|B e k]; [done|apply (IH _ _ _ E); lia|]. destruct (exit_status e); [done|].
  destruct (sys B e w) as [[b w']|]; [|done]. apply (IH _ _ _ E). lia.
Qed.
(** A program's behaviour is unique. *)
Lemma Runs_det {A} (t : prog A) w o1 w1 o2 w2 : Runs t w o1 w1 -> Runs t w o2 w2 -> o1 = o2 /\ w1 = w2.
Proof using.
  intros [n1 E1] [n2 E2]. apply (exec_more _ _ _ _) with (m := Nat.max n1 n2) in E1; [|lia]. apply (exec_more _ _ _ _) with (m := Nat.max n1 n2) in E2; [|lia].
  rewrite E1 in E2. by injection E2 as -> ->.
Qed.

Lemma does_ret {A} (a : A) w : Runs (Ret a) w (Returned a) w.
Proof using. by exists 1%nat. Qed.
Lemma does_call {B} (e : sysE B) w b w' : exit_status e = None -> sys B e w = Some (b, w') -> Runs (call e) w (Returned b) w'.
Proof using. intros E1 E2. exists 2%nat. cbn. by rewrite E1, E2. Qed.
Lemma exec_bind {A B} (k : A -> prog B) n : forall (t : prog A) w a w1, exec n t w = Some (Returned a, w1) ->
  forall m r, exec m (k a) w1 = Some r -> exec (n + m) (ITree.bind t k) w = Some r.
Proof using.
  induction n as [|n IH]; intros t w a w1 E m r Em; [done|]. cbn [exec] in E. change (S n + m)%nat with (S (n + m)). 
  destruct (observe t) as [a'|t'|C e kk] eqn:Et.
  - injection E as -> ->. apply (exec_more m); [|lia]. rewrite <- Em. destruct m; [done|]. cbn [exec]. by rewrite observe_bind, Et.
  - cbn [exec]. rewrite observe_bind, Et. by apply (IH _ _ _ _ E).
  - cbn [exec]. rewrite observe_bind, Et. cbn [observe _observe]. destruct (exit_status e); [done|]. destruct (sys C e w) as [[b w']|]; [|done]. by apply (IH _ _ _ _ E).
Qed.
Lemma does_bind {A B} (t : prog A) (k : A -> prog B) w a w1 o w' : Runs t w (Returned a) w1 -> Runs (k a) w1 o w' -> Runs (ITree.bind t k) w o w'.
Proof using. intros [n E1] [m E2]. exists (n + m)%nat. by apply (exec_bind k n t w a w1). Qed.
Lemma does_exit {A} st w : Runs (exit st : prog A) w (Exited st) w.
Proof using. by exists 1%nat. Qed.
Lemma exec_bind_exit {A B} (k : A -> prog B) n : forall (t : prog A) w st w', exec n t w = Some (Exited st, w') -> exec n (ITree.bind t k) w = Some (Exited st, w').
Proof using.
  induction n as [|n IH]; intros t w st w' E; [done|]. cbn [exec] in E |- *. rewrite observe_bind. destruct (observe t) as [a'|t'|C e kk]; [done|by apply IH|].
  cbn [observe _observe]. destruct (exit_status e); [by injection E as -> ->|]. destruct (sys C e w) as [[b w1]|]; [|done]. by apply IH.
Qed.
Lemma does_bind_exit {A B} (t : prog A) (k : A -> prog B) w st w' : Runs t w (Exited st) w' -> Runs (ITree.bind t k) w (Exited st) w'.
Proof using. intros [n E]. exists n. by apply exec_bind_exit. Qed.
Lemma does_tau {A} (t : prog A) w o w' : Runs t w o w' -> Runs (Tau t) w o w'.
Proof using. intros [n E]. by exists (S n). Qed.
Lemma does_unfold_iter {I A} (step : I -> prog (I + A)) i w o w' :
  Runs (ITree.bind (step i) (fun lr => ITree.on_left lr l (Tau (ITree.iter step l)))) w o w' -> Runs (ITree.iter step i) w o w'.
Proof using. intros [[|n] E]; [done|]. exists (S n). exact E. Qed.
Lemma does_again {I A} (step : I -> prog (I + A)) i j w w1 o w' : Runs (step i) w (Returned (inl j)) w1 -> Runs (ITree.iter step j) w1 o w' -> Runs (ITree.iter step i) w o w'.
Proof using. intros H1 H2. apply does_unfold_iter. eapply does_bind; [exact H1|]. by apply does_tau. Qed.
Lemma does_done {I A} (step : I -> prog (I + A)) i a w w' : Runs (step i) w (Returned (inr a)) w' -> Runs (ITree.iter step i) w (Returned a) w'.
Proof using. intros H. apply does_unfold_iter. eapply does_bind; [exact H|]. apply does_ret. Qed.
Lemma does_iter_exit {I A} (step : I -> prog (I + A)) i st w w' : Runs (step i) w (Exited st) w' -> Runs (ITree.iter step i) w (Exited st) w'.
Proof using. intros H. apply does_unfold_iter. by apply does_bind_exit. Qed.
End run.

(** ** Files *)

(** What a path's bytes are, in the pieces in which reads deliver them; the pieces an open file has
    left; and all writes made so far. *)
Record files := Files { f_content : list Z -> option (list (list Z)); f_open : gmap Z (list (list Z)); f_out : list (Z * list Z) }.

Definition lowest_free (open : gmap Z (list (list Z))) : option Z := head (filter (fun fd => open !! fd = None) (seqZ 0 16)).
(** read gives the next piece, or the part of it that fits. *)
Definition next_piece (n : Z) (pieces : list (list Z)) : list Z * list (list Z) :=
  match pieces with
  | [] => ([], [])
  | c :: cs => (take (Z.to_nat n) c, if (length c <=? Z.to_nat n)%nat then cs else drop (Z.to_nat n) c :: cs)
  end.
Definition files_sys B (e : sysE B) (w : files) : option (B * files) :=
  match e in sysE B return option (B * files) with
  | Read fd n =>
      match f_open w !! fd with
      | Some cs => Some (Some (next_piece n cs).1, Files (f_content w) (<[fd := (next_piece n cs).2]> (f_open w)) (f_out w))
      | None => Some (None, w)
      end
  | Write fd bs => Some (Z.of_nat (length bs), Files (f_content w) (f_open w) (f_out w ++ [(fd, bs)]))
  | Open path _ =>
      match f_content w path, lowest_free (f_open w) with
      | Some cs, Some fd => Some (fd, Files (f_content w) (<[fd := cs]> (f_open w)) (f_out w))
      | _, _ => Some (-1, w)
      end
  | Close fd => Some (0, Files (f_content w) (delete fd (f_open w)) (f_out w))
  | _ => None
  end.
(** The bytes written to a descriptor. *)
Definition written (fd : Z) (out : list (Z * list Z)) : list Z := concat (snd <$> filter (fun x => x.1 = fd) out).

Notation fruns := (Runs files_sys).

Lemma written_app fd l l' : written fd (l ++ l') = written fd l ++ written fd l'.
Proof. unfold written. by rewrite filter_app, fmap_app, concat_app. Qed.
Lemma written_one fd d bs : written fd [(d, bs)] = if decide (d = fd) then bs else [].
Proof. unfold written. rewrite filter_cons. simpl. destruct (decide (d = fd)); simpl; [apply app_nil_r|done]. Qed.

Lemma next_piece_concat n cs : (next_piece n cs).1 ++ concat (next_piece n cs).2 = concat cs.
Proof.
  destruct cs as [|c cs]; [done|]. simpl. destruct (Nat.leb_spec (length c) (Z.to_nat n)); simpl; [by rewrite take_ge by lia|].
  by rewrite app_assoc, take_drop.
Qed.
Lemma next_piece_full n cs : 0 < n -> Forall (fun c => c <> []) cs -> Forall (fun c => c <> []) (next_piece n cs).2 /\ ((next_piece n cs).1 = [] -> cs = []).
Proof.
  intros Hn H. destruct H as [|c cs Hc H]; [by split|]. simpl. split.
  - destruct (Nat.leb_spec (length c) (Z.to_nat n)); [done|]. constructor; [|done]. intros E%(f_equal length). rewrite length_drop in E. simpl in E. lia.
  - intros E%(f_equal length). rewrite length_take in E. simpl in E. destruct c; simpl in *; [done|lia].
Qed.

Lemma does_putall fd cs : forall w, exists log, fruns (putall fd cs) w (Returned tt) (Files (f_content w) (f_open w) (f_out w ++ log)) /\
  forall d, written d log = if decide (fd = d) then cs else [].
Proof.
  induction cs as [|c cs IH]; intros w.
  - exists []. rewrite app_nil_r. destruct w. split; [apply does_ret|]. intros d. by destruct (decide (fd = d)).
  - destruct (IH (Files (f_content w) (f_open w) (f_out w ++ [(fd, [c])]))) as (log & R & Hl). exists ([(fd, [c])] ++ log).
    split; [|intros d; rewrite written_app, written_one, Hl; by destruct (decide (fd = d))].
    eapply does_bind; [by apply does_call|]. cbn [f_content f_open f_out] in R. by rewrite <- app_assoc in R.
Qed.
Lemma does_printf fd fmt ap out w : Uprintf.fprintf fmt ap = Some out ->
  exists log, fruns (fprintf fd fmt ap) w (Returned tt) (Files (f_content w) (f_open w) (f_out w ++ log)) /\ forall d, written d log = if decide (fd = d) then out else [].
Proof. intros E. unfold fprintf. rewrite E. apply does_putall. Qed.

Lemma does_read fd n w cs : f_open w !! fd = Some cs ->
  fruns (call (Read fd n)) w (Returned (Some (next_piece n cs).1)) (Files (f_content w) (<[fd := (next_piece n cs).2]> (f_open w)) (f_out w)).
Proof. intros E. apply does_call; [done|]. simpl. by rewrite E. Qed.
Lemma does_write fd bs w : fruns (call (Write fd bs)) w (Returned (Z.of_nat (length bs))) (Files (f_content w) (f_open w) (f_out w ++ [(fd, bs)])).
Proof. by apply does_call. Qed.
Lemma does_open path mode w cs fd : f_content w path = Some cs -> lowest_free (f_open w) = Some fd ->
  fruns (call (Open path mode)) w (Returned fd) (Files (f_content w) (<[fd := cs]> (f_open w)) (f_out w)).
Proof. intros E1 E2. apply does_call; [done|]. simpl. by rewrite E1, E2. Qed.
Lemma does_close fd w : fruns (call (Close fd)) w (Returned 0) (Files (f_content w) (delete fd (f_open w)) (f_out w)).
Proof. by apply does_call. Qed.
Lemma lowest_free_spec open fd : lowest_free open = Some fd -> 0 <= fd /\ open !! fd = None.
Proof.
  unfold lowest_free. intros E. assert (H : fd ∈ filter (fun fd => open !! fd = None) (seqZ 0 16)) by (destruct (filter _ _); [done|]; injection E as ->; constructor).
  apply list_elem_of_filter in H as [H1 H2]. apply elem_of_seqZ in H2. by split; [lia|].
Qed.

(** ** cat *)

Lemma cat_loop fd n : forall cs w, (length (concat cs) <= n)%nat -> Forall (fun c => c <> []) cs -> f_open w !! fd = Some cs ->
  exists log, fruns (ITree.iter (fun _ : unit => cat_turn fd) tt) w (Returned 0) (Files (f_content w) (<[fd := []]> (f_open w)) (f_out w ++ log)) /\
  forall d, written d log = if decide (1 = d) then concat cs else [].
Proof.
  induction n as [n IH] using lt_wf_ind. intros cs w Hn Hcs Hfd.
  pose proof (does_read fd 512 w cs Hfd) as R. destruct (next_piece_full 512 cs ltac:(lia) Hcs) as [Hcs' Hend]. pose proof (next_piece_concat 512 cs) as Hc.
  destruct (next_piece 512 cs) as [buf cs']. cbn [fst snd] in *. destruct buf as [|b buf].
  - rewrite (Hend eq_refl) in *. simpl in Hc. exists []. rewrite app_nil_r. assert (cs' = []) as -> by (by destruct Hcs' as [|[] ? ? ?]).
    split; [|intros d; by destruct (decide (1 = d))]. apply does_done. eapply does_bind; [exact R|]. apply does_ret.
  - set (w2 := Files (f_content w) (<[fd := cs']> (f_open w)) (f_out w ++ [(1, b :: buf)])).
    destruct (IH (length (concat cs')) ltac:(rewrite <- Hc, length_app in Hn; simpl in Hn; lia) cs' w2 ltac:(done) Hcs' (lookup_insert_eq _ _ _)) as (log & R2 & Hl).
    exists ([(1, b :: buf)] ++ log). split.
    + eapply does_again; [|unfold w2 in R2; cbn [f_content f_open f_out] in R2; rewrite insert_insert_eq, <- app_assoc in R2; exact R2].
      eapply does_bind; [exact R|]. cbv beta iota. eapply does_bind; [apply does_write|]. rewrite Z.eqb_refl. apply does_ret.
    + intros d. rewrite written_app, written_one, Hl, <- Hc. by destruct (decide (1 = d)).
Qed.
Lemma cat_runs fd cs w : Forall (fun c => c <> []) cs -> f_open w !! fd = Some cs ->
  exists log, fruns (cat fd) w (Returned tt) (Files (f_content w) (<[fd := []]> (f_open w)) (f_out w ++ log)) /\ forall d, written d log = if decide (1 = d) then concat cs else [].
Proof.
  intros Hcs Hfd. destruct (cat_loop fd _ cs w (le_n _) Hcs Hfd) as (log & R & Hl). exists log. split; [|done]. eapply does_bind; [exact R|]. apply does_ret.
Qed.

(** Programs that go through their arguments, opening, handling and closing each. *)
Section args.
Context (body : Z -> list Z -> prog unit) (files_loop : list (list Z) -> prog unit) (report : list Z -> list (list Z) -> list Z) (good : list (list Z) -> Prop).
Hypothesis (Hnil : files_loop [] = Ret tt).
Hypothesis (Hcons : forall arg args w o w' cs fd, f_content w arg = Some cs -> lowest_free (f_open w) = Some fd ->
  fruns (body fd arg >> call (Close fd) >> files_loop args) (Files (f_content w) (<[fd := cs]> (f_open w)) (f_out w)) o w' -> fruns (files_loop (arg :: args)) w o w').
Hypothesis (Hbody : forall fd arg cs w, good cs -> f_open w !! fd = Some cs ->
  exists log, fruns (body fd arg) w (Returned tt) (Files (f_content w) (<[fd := []]> (f_open w)) (f_out w ++ log)) /\ forall d, written d log = if decide (1 = d) then report arg cs else []).

Lemma args_run args css : forall w fd, Forall2 (fun arg cs => f_content w arg = Some cs /\ good cs) args css -> lowest_free (f_open w) = Some fd ->
  exists log, fruns (files_loop args) w (Returned tt) (Files (f_content w) (f_open w) (f_out w ++ log)) /\
  forall d, written d log = if decide (1 = d) then concat (zip_with report args css) else [].
Proof using All.
  intros w fd H. revert w H. induction args as [|arg args IH] in css |- *; intros w H Hfd.
  - inversion_clear H. exists []. rewrite Hnil, app_nil_r. destruct w. split; [apply does_ret|]. intros d. by destruct (decide (1 = d)).
  - destruct css as [|cs css]; [by inversion H|]. apply Forall2_cons in H as [[Hc Hne] H]. pose proof (proj2 (lowest_free_spec _ _ Hfd)) as Hno.
    destruct (Hbody fd arg cs (Files (f_content w) (<[fd := cs]> (f_open w)) (f_out w)) Hne (lookup_insert_eq _ _ _)) as (log1 & R1 & L1).
    destruct (IH css (Files (f_content w) (f_open w) (f_out w ++ log1)) H Hfd) as (log2 & R2 & L2). exists (log1 ++ log2). split.
    + apply (Hcons _ _ _ _ _ cs fd Hc Hfd). eapply does_bind; [exact R1|]. eapply does_bind; [apply does_close|]. cbn [f_content f_open f_out].
      rewrite insert_insert_eq, delete_insert_id by done. cbn [f_content f_open f_out] in R2. by rewrite <- app_assoc in R2.
    + intros d. rewrite written_app, L1, L2. by destruct (decide (1 = d)).
Qed.
End args.

(** cat copies files: given paths of files that can be read, however many pieces the reads
    deliver them in, it ends with status 0 having written exactly their bytes, in order, to its
    standard output and nothing anywhere else, and with no file left open. *)
Theorem cat_copies w name paths css fd : Forall2 (fun p cs => f_content w p = Some cs /\ Forall (fun c => c <> []) cs) paths css -> paths <> [] -> lowest_free (f_open w) = Some fd ->
  exists w', fruns (cat_main (name :: paths)) w (Exited 0) w' /\ f_open w' = f_open w /\ f_content w' = f_content w /\
  written 1 (f_out w') = written 1 (f_out w) ++ concat (concat css) /\ forall d, d <> 1 -> written d (f_out w') = written d (f_out w).
Proof.
  intros H Hne Hfd. destruct (args_run (fun fd _ => cat fd) cat_files (fun _ cs => concat cs) (fun cs => Forall (fun c => c <> []) cs)) with (1 := eq_refl : cat_files [] = Ret tt) (args := paths) (css := css) (w := w) (fd := fd) as (log & R & L).
  - intros arg args w1 o w' cs fd1 Hc Hf R. eapply does_bind; [by apply does_open|]. apply lowest_free_spec in Hf as [Hf _]. rewrite (proj2 (Z.ltb_ge fd1 0)) by lia. exact R.
  - intros fd1 arg cs w1 Hcs Ho. by apply cat_runs.
  - done.
  - done.
  - exists (Files (f_content w) (f_open w) (f_out w ++ log)). split_and!; [|done|done| |].
    + unfold cat_main. destruct paths; [done|]. cbn [length tail]. eapply does_bind; [exact R|]. apply does_exit.
    + cbn [f_out]. rewrite written_app, L. simpl. f_equal. clear -H. induction H as [|p cs ps css _ _ IH]; [done|]. simpl. by rewrite concat_app, IH.
    + intros d Hd. cbn [f_out]. rewrite written_app, L. destruct (decide (1 = d)); [done|apply app_nil_r].
Qed.
Definition sample_files : files :=
  Files (fun p => if decide (p = bytes_of "a") then Some [bytes_of "he"; bytes_of "llo"] else if decide (p = bytes_of "b") then Some [line "!"] else None) {[0 := []; 1 := []; 2 := []]} [].
Lemma cat_copies_witness : exists w', fruns (cat_main [bytes_of "cat"; bytes_of "a"; bytes_of "b"]) sample_files (Exited 0) w' /\ written 1 (f_out w') = line "hello!".
Proof.
  destruct (cat_copies sample_files (bytes_of "cat") [bytes_of "a"; bytes_of "b"] [[bytes_of "he"; bytes_of "llo"]; [line "!"]] 3) as (w' & R & _ & _ & E & _).
  - repeat constructor; done.
  - done.
  - by vm_compute.
  - exists w'. split; [exact R|]. rewrite E. by vm_compute.
Defined.

(** ** wc *)

Definition white (b : Z) : bool := match strchr WHITE b with Some _ => true | None => false end.
(** The text between white space. *)
Fixpoint split_white (bs : list Z) : list (list Z) :=
  match bs with
  | [] => [[]]
  | b :: bs' =>
      if white b then [] :: split_white bs'
      else match split_white bs' with p :: ps => (b :: p) :: ps | [] => [[b]] end
  end.
Definition words (ps : list (list Z)) : Z := Z.of_nat (length (filter (fun p => p <> []) ps)).
Definition lines (bs : list Z) : Z := Z.of_nat (length (filter (fun b => b = 10) bs)).

Lemma split_white_cons bs : exists p ps, split_white bs = p :: ps.
Proof. destruct bs as [|b bs]; simpl; [eauto|]. destruct (white b); [eauto|]. destruct (split_white bs); eauto. Qed.
(** In a word, the text up to the next white space belongs to it. *)
Lemma wc_fold bs : forall l w c inword, 0 <= l -> 0 <= w -> 0 <= c -> l + Z.of_nat (length bs) < 2 ^ 31 -> w + Z.of_nat (length bs) < 2 ^ 31 -> c + Z.of_nat (length bs) < 2 ^ 31 ->
  exists inword', foldl wc_char (l, w, c, inword) bs =
  (l + lines bs, w + words (if (inword : bool) then tail (split_white bs) else split_white bs), c + Z.of_nat (length bs), inword').
Proof.
  induction bs as [|b bs IH]; intros l w c inword Hl Hw Hc Bl Bw Bc.
  - exists inword. simpl. unfold lines, words. simpl. destruct inword; simpl; by rewrite !Z.add_0_r.
  - cbn [length] in Bl, Bw, Bc. cbn [foldl]. unfold wc_char at 2. fold (white b).
    assert (El : (if b =? 10 then i32 (l + 1) else l) = l + lines [b]).
    { unfold lines. rewrite filter_cons. destruct (Z.eqb_spec b 10) as [->|E]; [rewrite decide_True by done; simpl; rewrite i32_small; lia|rewrite decide_False by done; simpl; lia]. }
    assert (Eb : lines (b :: bs) = lines [b] + lines bs) by (unfold lines; rewrite !filter_cons; destruct (decide (b = 10)); simpl; lia).
    assert (L1 : 0 <= lines [b] <= 1) by (unfold lines; rewrite filter_cons; destruct (decide (b = 10)); simpl; lia).
    rewrite El, i32_small by lia. rewrite Eb. cbn [split_white]. unfold white. cbn [length]. rewrite Nat2Z.inj_succ, <- Z.add_1_l.
    destruct (strchr WHITE b) as [r|].
    + destruct (IH (l + lines [b]) w (c + 1) false) as [iw E]; [lia..|]. exists iw. rewrite E. rewrite !Z.add_assoc. by destruct inword.
    + destruct (split_white_cons bs) as (p & ps & Es). rewrite Es in *. destruct inword; cbn [negb].
      * destruct (IH (l + lines [b]) w (c + 1) true) as [iw E]; [lia..|]. exists iw. by rewrite E, !Z.add_assoc.
      * rewrite i32_small by lia. destruct (IH (l + lines [b]) (w + 1) (c + 1) true) as [iw E]; [lia..|]. exists iw. rewrite E, !Z.add_assoc. cbn [tail].
        replace (w + words ((b :: p) :: ps)) with (w + 1 + words ps); [done|]. unfold words. rewrite filter_cons_True by done. simpl. lia.
Qed.
Lemma words_le bs : words (split_white bs) <= Z.of_nat (length bs) /\ words (tail (split_white bs)) <= Z.of_nat (length bs).
Proof.
  induction bs as [|b bs [I1 I2]]; [split; unfold words; simpl; lia|]. cbn [split_white length]. destruct (split_white_cons bs) as (p & ps & Es).
  assert (T : words ((b :: p) :: ps) = 1 + words ps) by (unfold words; rewrite filter_cons_True by done; simpl; lia).
  destruct (white b); [|rewrite Es, T; rewrite Es in I2; cbn [tail] in *; lia]. cbn [tail].
  assert (words ([] :: split_white bs) = words (split_white bs)) by (unfold words; by rewrite filter_cons_False by (intros E; by apply E)). lia.
Qed.
Lemma wc_loop fd n : forall cs w st, (length (concat cs) <= n)%nat -> Forall (fun c => c <> []) cs -> f_open w !! fd = Some cs ->
  fruns (ITree.iter (wc_turn fd) st) w (Returned (Some (foldl wc_char st (concat cs)))) (Files (f_content w) (<[fd := []]> (f_open w)) (f_out w)).
Proof.
  induction n as [n IH] using lt_wf_ind. intros cs w st Hn Hcs Hfd.
  pose proof (does_read fd 512 w cs Hfd) as R. destruct (next_piece_full 512 cs ltac:(lia) Hcs) as [Hcs' Hend]. pose proof (next_piece_concat 512 cs) as Hc.
  destruct (next_piece 512 cs) as [buf cs']. cbn [fst snd] in *. destruct buf as [|b buf].
  - rewrite (Hend eq_refl) in *. simpl in Hc. assert (cs' = []) as -> by (by destruct Hcs' as [|[] ? ? ?]).
    apply does_done. eapply does_bind; [exact R|]. apply does_ret.
  - rewrite <- Hc, foldl_app.
    pose proof (IH (length (concat cs')) ltac:(rewrite <- Hc, length_app in Hn; simpl in Hn; lia) cs' (Files (f_content w) (<[fd := cs']> (f_open w)) (f_out w)) (foldl wc_char st (b :: buf)) (le_n _) Hcs' (lookup_insert_eq _ _ _)) as R2.
    cbn [f_content f_open f_out] in R2. rewrite insert_insert_eq in R2. eapply does_again; [|exact R2]. eapply does_bind; [exact R|]. apply does_ret.
Qed.

(** The line wc prints. *)
Definition wc_line (name : list Z) (cs : list (list Z)) : list Z :=
  let bs := concat cs in
  printint (lines bs) 10 true ++ [32] ++ printint (words (split_white bs)) 10 true ++ [32] ++ printint (Z.of_nat (length bs)) 10 true ++ [32] ++ name ++ [10].
Definition countable (cs : list (list Z)) : Prop := Forall (fun c => c <> []) cs /\ Z.of_nat (length (concat cs)) < 2 ^ 31.
Lemma count_le {A} (P : A -> Prop) `{!forall x, Decision (P x)} l : (length (filter P l) <= length l)%nat.
Proof. induction l as [|x l IH]; [done|]. rewrite filter_cons. destruct (decide (P x)); simpl; lia. Qed.
Lemma wc_runs fd name cs w : countable cs -> f_open w !! fd = Some cs ->
  exists log, fruns (wc fd name) w (Returned tt) (Files (f_content w) (<[fd := []]> (f_open w)) (f_out w ++ log)) /\ forall d, written d log = if decide (1 = d) then wc_line name cs else [].
Proof.
  intros [Hcs Hlen] Hfd. pose proof (wc_loop fd _ cs w (0, 0, 0, false) (le_n _) Hcs Hfd) as R.
  destruct (wc_fold (concat cs) 0 0 0 false ltac:(lia) ltac:(lia) ltac:(lia) ltac:(lia) ltac:(lia) ltac:(lia)) as [iw E]. rewrite E in R. cbn [negb] in R. rewrite !Z.add_0_l in R.
  set (w1 := Files (f_content w) (<[fd := []]> (f_open w)) (f_out w)) in *.
  assert (Bl : lines (concat cs) < 2 ^ 31) by (unfold lines; pose proof (count_le (fun b => b = 10) (concat cs)); lia).
  pose proof (words_le (concat cs)) as [Bw _].
  destruct (does_printf 1 (line "%d %d %d %s") [Num (lines (concat cs)); Num (words (split_white (concat cs))); Num (Z.of_nat (length (concat cs))); S_ name] (wc_line name cs) w1) as (log & R2 & L).
  { transitivity (Some (printint (i32 (lines (concat cs))) 10 true ++ [32] ++ printint (i32 (words (split_white (concat cs)))) 10 true ++ [32] ++
      printint (i32 (Z.of_nat (length (concat cs)))) 10 true ++ [32] ++ name ++ [10])); [reflexivity|].
    unfold wc_line. rewrite !i32_small; [done|unfold words in *; lia|unfold words in *; lia|unfold lines in *; lia]. }
  exists log. split; [|exact L]. eapply does_bind; [exact R|exact R2].
Qed.

(** C38.  wc counts: given paths of files of less than 2^31 bytes it ends with status 0 having
    printed, for each, the number of newlines, of words (maximal runs of bytes that are not white
    space) and of bytes, and its name, whatever the pieces in which the file was read. *)
Theorem wc_counts w name paths css fd : Forall2 (fun p cs => f_content w p = Some cs /\ countable cs) paths css -> paths <> [] -> lowest_free (f_open w) = Some fd ->
  exists w', fruns (wc_main (name :: paths)) w (Exited 0) w' /\ f_open w' = f_open w /\ f_content w' = f_content w /\
  written 1 (f_out w') = written 1 (f_out w) ++ concat (zip_with wc_line paths css) /\ forall d, d <> 1 -> written d (f_out w') = written d (f_out w).
Proof.
  intros H Hne Hfd. destruct (args_run wc wc_files wc_line countable) with (1 := eq_refl : wc_files [] = Ret tt) (args := paths) (css := css) (w := w) (fd := fd) as (log & R & L).
  - intros arg args w1 o w' cs fd1 Hc Hf R. eapply does_bind; [by apply does_open|]. apply lowest_free_spec in Hf as [Hf _]. rewrite (proj2 (Z.ltb_ge fd1 0)) by lia. exact R.
  - intros fd1 arg cs w1 Hcs Ho. by apply wc_runs.
  - done.
  - done.
  - exists (Files (f_content w) (f_open w) (f_out w ++ log)). split_and!; [|done|done| |].
    + unfold wc_main. destruct paths; [done|]. cbn [length tail]. eapply does_bind; [exact R|]. apply does_exit.
    + cbn [f_out]. by rewrite written_app, L.
    + intros d Hd. cbn [f_out]. rewrite written_app, L. destruct (decide (1 = d)); [done|apply app_nil_r].
Qed.
Lemma wc_counts_witness : exists w', fruns (wc_main [bytes_of "wc"; bytes_of "a"; bytes_of "b"]) sample_files (Exited 0) w' /\ written 1 (f_out w') = line "0 1 5 a" ++ line "1 1 2 b".
Proof.
  destruct (wc_counts sample_files (bytes_of "wc") [bytes_of "a"; bytes_of "b"] [[bytes_of "he"; bytes_of "llo"]; [line "!"]] 3) as (w' & R & _ & _ & E & _).
  - repeat constructor; done.
  - done.
  - by vm_compute.
  - exists w'. split; [exact R|]. rewrite E. by vm_compute.
Defined.

(** ** echo *)

Fixpoint join (args : list (list Z)) : list Z :=
  match args with [] => [] | [arg] => arg ++ [10] | arg :: args' => arg ++ [32] ++ join args' end.
(** echo prints its arguments with a space between them and a newline at the end. *)
Theorem echo_prints name args w : exists w', fruns (echo_main (name :: args)) w (Exited 0) w' /\ f_open w' = f_open w /\
  forall d, written d (f_out w') = written d (f_out w) ++ if decide (1 = d) then join args else [].
Proof.
  assert (H : forall w, exists log, fruns (echo_args args) w (Returned tt) (Files (f_content w) (f_open w) (f_out w ++ log)) /\ forall d, written d log = if decide (1 = d) then join args else []).
  { induction args as [|arg args IH]; intros w1.
    - exists []. rewrite app_nil_r. destruct w1. split; [apply does_ret|]. intros d. by destruct (decide (1 = d)).
    - set (sep := match args with [] => [10] | _ => [32] end). destruct (IH (Files (f_content w1) (f_open w1) (f_out w1 ++ [(1, arg); (1, sep)]))) as (log & R & L).
      exists ([(1, arg); (1, sep)] ++ log). split.
      + eapply does_bind; [apply does_write|]. eapply does_bind; [apply does_write|]. cbn [f_content f_open f_out] in *. rewrite <- !app_assoc in *. exact R.
      + intros d. rewrite written_app. change [(1, arg); (1, sep)] with ([(1, arg)] ++ [(1, sep)]). rewrite written_app, !written_one, L. destruct (decide (1 = d)); [|done].
        unfold sep. destruct args; simpl; by rewrite ?app_nil_r, <- ?app_assoc. }
  destruct (H w) as (log & R & L). exists (Files (f_content w) (f_open w) (f_out w ++ log)). split_and!; [eapply does_bind; [exact R|apply does_exit]|done|].
  intros d. cbn [f_out]. by rewrite written_app, L.
Qed.

(** ** init *)

(** The answers of fork and of wait still to come, and what was printed. *)
Record family := Family { forks : list Z; waits : list Z; said : list Z }.
Definition family_sys B (e : sysE B) (w : family) : option (B * family) :=
  match e in sysE B return option (B * family) with
  | Fork => match forks w with pid :: pids => Some (pid, Family pids (waits w) (said w)) | [] => None end
  | Wait => match waits w with pid :: pids => Some (pid, Family (forks w) pids (said w)) | [] => None end
  | Write fd bs => Some (Z.of_nat (length bs), Family (forks w) (waits w) (said w ++ bs))
  | Open _ _ => Some (0, w)
  | Dup _ => Some (0, w)
  | _ => None
  end.
Notation iruns := (Runs family_sys).
(** The exits wait reports while a shell runs: any number of orphans, then the shell. *)
Definition generation : Type := Z * list Z.
Definition proper (g : generation) : Prop := 0 < g.1 /\ Forall (fun p => p <> g.1 /\ 0 <= p) g.2.
Definition exits (g : generation) : list Z := g.2 ++ [g.1].

Lemma iruns_putall fd cs : forall w, iruns (putall fd cs) w (Returned tt) (Family (forks w) (waits w) (said w ++ cs)).
Proof.
  induction cs as [|c cs IH]; intros w; [rewrite app_nil_r; destruct w; apply does_ret|]. eapply does_bind; [by apply does_call|].
  pose proof (IH (Family (forks w) (waits w) (said w ++ [c]))) as R. cbn [forks waits said] in R. by rewrite <- app_assoc in R.
Qed.
Lemma iruns_say fmt w : 37 ∉ fmt -> iruns (printf fmt []) w (Returned tt) (Family (forks w) (waits w) (said w ++ fmt)).
Proof. intros H. unfold printf, fprintf. rewrite fprintf_text by done. apply iruns_putall. Qed.

(** Waiting for the shell takes exactly the exits up to its own. *)
Lemma init_waits pid orphans rest fs out : Forall (fun p => p <> pid /\ 0 <= p) orphans ->
  iruns (ITree.iter (fun _ : unit => let* wpid := call Wait in if wpid =? pid then Ret (inr tt)
      else if wpid <? 0 then printf (line "init: wait returned an error") [] >> exit 1 else Ret (inl tt)) tt)
    (Family fs (orphans ++ pid :: rest) out) (Returned tt) (Family fs rest out).
Proof.
  induction 1 as [|p ps [Hp Hpos] _ IH].
  - apply does_done. eapply does_bind; [by apply does_call|]. rewrite Z.eqb_refl. apply does_ret.
  - eapply does_again; [|exact IH]. eapply does_bind; [by apply does_call|]. rewrite (proj2 (Z.eqb_neq p pid)), (proj2 (Z.ltb_ge p 0)) by done. apply does_ret.
Qed.
Definition STARTING : list Z := line "init: starting sh".
Lemma init_generation g fs rest out : proper g ->
  iruns init_turn (Family (g.1 :: fs) (exits g ++ rest) out) (Returned (inl tt)) (Family fs rest (out ++ STARTING)).
Proof.
  intros [Hpid Ho]. unfold init_turn. eapply does_bind; [apply iruns_say; apply (bool_decide_unpack _); vm_compute; exact I|]. cbn [forks waits said].
  eapply does_bind; [by apply does_call|]. cbv beta. rewrite (proj2 (Z.ltb_ge g.1 0)), (proj2 (Z.eqb_neq g.1 0)) by lia.
  eapply does_bind; [|apply does_ret]. unfold exits. rewrite <- app_assoc. by apply init_waits.
Qed.


(** ** settickets and strace *)

(** settickets refuses every argument: with one it makes no call but the writes of its message (the
    world here answers no settickets), and ends with status 1. *)
Theorem settickets_refuses at0 name n args w : exists w', fruns (settickets_main at0 (name :: n :: args)) w (Exited 1) w' /\
  written 2 (f_out w') = written 2 (f_out w) ++ line "Invalid number of arguments".
Proof.
  destruct (does_printf 2 (line "Invalid number of arguments") [] (line "Invalid number of arguments") w) as (log & R & L); [by vm_compute|].
  exists (Files (f_content w) (f_open w) (f_out w ++ log)). split; [eapply does_bind; [exact R|apply does_exit]|]. cbn [f_out]. by rewrite written_app, L.
Qed.

(** The arguments strace's exec finds are the command's only if the stack happens to hold a null pointer
    behind them; any other pointer there is one more argument. *)
Lemma strace_command command stack : upto_null ((Some <$> command) ++ None :: stack) = Some command.
Proof. induction command as [|s command IH]; [done|]. rewrite fmap_cons. cbn [app upto_null]. by rewrite IH. Qed.
Lemma strace_junk command junk stack : upto_null ((Some <$> command) ++ Some junk :: None :: stack) = Some (command ++ [junk]).
Proof. induction command as [|s command IH]; [done|]. rewrite fmap_cons. cbn [app upto_null]. by rewrite IH. Qed.

(** ** ls *)

Lemma name_start_spec path p : (forall i, (name_start path p <= i < p)%nat -> path !! i <> Some 47) /\ (name_start path p <= p)%nat /\
  (name_start path p <> 0%nat -> path !! (name_start path p - 1)%nat = Some 47).
Proof.
  induction p as [|q (I1 & I2 & I3)]; [split_and!; [intros; lia|done|done]|]. cbn [name_start]. destruct (path !! q) as [c|] eqn:E; simpl; [destruct (Z.eqb_spec c 47) as [->|Hc]|].
  - split_and!; [intros; lia|done|]. intros _. by rewrite Nat.sub_succ, Nat.sub_0_r.
  - split_and!; [|lia|done]. intros i Hi. destruct (decide (i = q)) as [->|]; [congruence|]. apply I1. lia.
  - split_and!; [|lia|done]. intros i Hi. destruct (decide (i = q)) as [->|]; [congruence|]. apply I1. lia.
Qed.
(** fmtname is what follows the last slash, padded with blanks to DIRSIZ bytes. *)
Theorem fmtname_last dir name : 47 ∉ name -> fmtname (dir ++ [47] ++ name) = name ++ replicate (DIRSIZ - length name) 32.
Proof.
  intros Hn. unfold fmtname. set (path := dir ++ [47] ++ name). destruct (name_start_spec path (S (length path))) as (H1 & H2 & H3).
  set (k := name_start path (S (length path))) in *.
  assert (Hs : path !! length dir = Some 47) by (unfold path; by rewrite lookup_app_r, Nat.sub_diag by lia).
  assert (Hlen : length path = (length dir + 1 + length name)%nat) by (unfold path; rewrite !length_app; simpl; lia).
  assert (Hk : k = S (length dir)).
  { assert (~ (k <= length dir)%nat) by (intros Hle; apply (H1 (length dir)); [lia|done]). specialize (H3 ltac:(lia)). destruct (decide (k = S (length dir))) as [|Hne]; [done|]. exfalso. apply Hn.
    unfold path in H3. rewrite lookup_app_r, lookup_app_r in H3 by (simpl; lia). by apply list_elem_of_lookup_2 in H3. }
  assert (Hd : drop k path = name) by (rewrite Hk; unfold path; rewrite drop_app_ge by lia; by replace (S (length dir) - length dir)%nat with 1%nat by lia).
  rewrite Hd. destruct (Nat.leb_spec DIRSIZ (length name)); [|done]. replace (DIRSIZ - length name)%nat with 0%nat by lia. by rewrite app_nil_r.
Qed.
