(* ===== verification/Sh.v ===== *)
(** * The shell's parser: user/sh.c

    Pointers into the line buffer are offsets.  [*ps], the place the parser has come to, is the
    state of a parser; the buffer and its end [es] are its parameters, since parsing does not
    write the buffer.  A command is a tree of the structs malloc returns; malloc is taken to
    succeed.  An [EXEC] has the pairs of argv and eargv before the null pointer.  A panic prints
    its message and ends the process. *)

From S2P Require Import Prelude Ulib.

Definition MAXARGS : nat := 10.

Inductive cmd :=
  | EXEC (args : list (nat * nat))
  | REDIR (c : cmd) (file efile : nat) (mode fd : Z)
  | PIPE (left right : cmd)
  | LIST (left right : cmd)
  | BACK (c : cmd).

Definition O_RDONLY : Z := 0.
Definition O_WRONLY : Z := 1.
Definition O_CREATE : Z := 512.
Definition O_TRUNC : Z := 1024.

(** [" \t\r\n\v"] and ["<|>&;()"] *)
Definition whitespace : list Z := [32; 9; 13; 10; 11].
Definition symbols : list Z := [60; 124; 62; 38; 59; 40; 41].
Definition BAR : Z := 124.
Definition LPAREN : Z := 40.
Definition RPAREN : Z := 41.
Definition SEMI : Z := 59.
Definition AMP : Z := 38.
Definition LESS : Z := 60.
Definition GREATER : Z := 62.
Definition PLUS : Z := 43.
Definition LETTER_A : Z := 97.

(** [strchr(s, c) != 0] *)
Definition one_of (s : list Z) (c : Z) : bool := match strchr s c with Some _ => true | None => false end.

Section parse.
Context (buf : list Z) (es : nat).

Definition chr (s : nat) : Z := default 0 (buf !! s).

(** [while(s < es && ok( *s )) s++], with [n] steps to [es] *)
Fixpoint advance (ok : Z -> bool) (n s : nat) : nat :=
  match n with
  | O => s
  | S n' => if ok (chr s) then advance ok n' (S s) else s
  end.
Definition skip_white (s : nat) : nat := advance (one_of whitespace) (es - s) s.
Definition in_word (c : Z) : bool := negb (one_of whitespace c) && negb (one_of symbols c).

(** The token, where it starts and where it ends. *)
Definition gettoken : M nat (Z * nat * nat) :=
  ps <- mget ;;
  let q := skip_white ps in
  let c := chr q in
  let '(ret, eq) :=
    if c =? 0 then (c, q)
    else if (c =? BAR) || (c =? LPAREN) || (c =? RPAREN) || (c =? SEMI) || (c =? AMP) || (c =? LESS) then (c, S q)
    else if c =? GREATER then (if chr (S q) =? GREATER then (PLUS, S (S q)) else (c, S q))
    else (LETTER_A, advance in_word (es - q) q) in
  mput (skip_white eq) ;;;
  mret (ret, q, eq).

Definition peek (toks : list Z) : M nat bool :=
  ps <- mget ;;
  let s := skip_white ps in
  mput s ;;;
  mret (negb (chr s =? 0) && one_of toks (chr s)).

Fixpoint parseredirs (fuel : nat) (c : cmd) : M nat cmd :=
  match fuel with
  | O => mfail NoFuel
  | S fuel' =>
      more <- peek [LESS; GREATER] ;;
      if more : bool then
        ' (tok, _, _) <- gettoken ;;
        ' (tok', q, eq) <- gettoken ;;
        if negb (tok' =? LETTER_A) then panic "missing file for redirection"
        else
          parseredirs fuel'
            (if tok =? LESS then REDIR c q eq O_RDONLY 0
             else if tok =? GREATER then REDIR c q eq (Z.lor (Z.lor O_WRONLY O_CREATE) O_TRUNC) 1
             else if tok =? PLUS then REDIR c q eq (Z.lor O_WRONLY O_CREATE) 1
             else c)
      else mret c
  end.

(** [cmd->argv[argc] = q; cmd->eargv[argc] = eq], where the struct execcmd is at the bottom of [ret] *)
Fixpoint add_arg (ret : cmd) (arg : nat * nat) : cmd :=
  match ret with
  | EXEC args => EXEC (args ++ [arg])
  | REDIR c file efile mode fd => REDIR (add_arg c arg) file efile mode fd
  | _ => ret
  end.

Fixpoint parseargs (fuel : nat) (argc : nat) (ret : cmd) : M nat cmd :=
  match fuel with
  | O => mfail NoFuel
  | S fuel' =>
      stop <- peek [BAR; RPAREN; AMP; SEMI] ;;
      if stop : bool then mret ret
      else
        ' (tok, q, eq) <- gettoken ;;
        if tok =? 0 then mret ret
        else if negb (tok =? LETTER_A) then panic "syntax"
        else
          let ret := add_arg ret (q, eq) in
          let argc := S argc in
          if (MAXARGS <=? argc)%nat then panic "too many args"
          else
            ret <- parseredirs fuel' ret ;;
            parseargs fuel' argc ret
  end.

(** [while(peek(ps, es, "&")) cmd = backcmd(cmd)] *)
Fixpoint parsebacks (fuel : nat) (c : cmd) : M nat cmd :=
  match fuel with
  | O => mfail NoFuel
  | S fuel' =>
      more <- peek [AMP] ;;
      if more : bool then gettoken ;;; parsebacks fuel' (BACK c) else mret c
  end.

Fixpoint parseline (fuel : nat) : M nat cmd :=
  match fuel with
  | O => mfail NoFuel
  | S fuel' =>
      c <- parsepipe fuel' ;;
      c <- parsebacks fuel' c ;;
      more <- peek [SEMI] ;;
      if more : bool then
        gettoken ;;;
        r <- parseline fuel' ;;
        mret (LIST c r)
      else mret c
  end
with parsepipe (fuel : nat) : M nat cmd :=
  match fuel with
  | O => mfail NoFuel
  | S fuel' =>
      c <- parseexec fuel' ;;
      more <- peek [BAR] ;;
      if more : bool then
        gettoken ;;;
        r <- parsepipe fuel' ;;
        mret (PIPE c r)
      else mret c
  end
with parseexec (fuel : nat) : M nat cmd :=
  match fuel with
  | O => mfail NoFuel
  | S fuel' =>
      block <- peek [LPAREN] ;;
      if block : bool then parseblock fuel'
      else
        ret <- parseredirs fuel' (EXEC []) ;;
        parseargs fuel' 0 ret
  end
with parseblock (fuel : nat) : M nat cmd :=
  match fuel with
  | O => mfail NoFuel
  | S fuel' =>
      open <- peek [LPAREN] ;;
      if negb open then panic "parseblock"
      else
        gettoken ;;;
        c <- parseline fuel' ;;
        close <- peek [RPAREN] ;;
        if negb close then panic "syntax - missing )"
        else
          gettoken ;;;
          parseredirs fuel' c
  end.
End parse.

(** [*ecmd->eargv[i] = 0] for each argument, [*rcmd->efile = 0] for each file *)
Fixpoint nulterminate (c : cmd) (buf : list Z) : list Z :=
  match c with
  | EXEC args => foldl (fun b arg => <[arg.2 := 0]> b) buf args
  | REDIR c _ efile _ _ => <[efile := 0]> (nulterminate c buf)
  | PIPE l r | LIST l r => nulterminate r (nulterminate l buf)
  | BACK c => nulterminate c buf
  end.

(** Each call of a parser either consumes a character or is one of four on the way to the next that does. *)
Definition parse_fuel (n : nat) : nat := 4 * n + 4.

Definition parsecmd : M (list Z) cmd :=
  buf <- mget ;;
  let es := length (cstr buf) in
  match parseline buf es (parse_fuel es) 0%nat with
  | Err e => mfail e
  | Ok c s =>
      let s := skip_white buf es s in
      if negb (s =? es)%nat then panic "syntax"
      else
        modify (nulterminate c) ;;;
        mret c
  end.
