(* ===== verification/ShProps.v ===== *)
(** * What the shell's parser accepts

    Parsing ends on every line, with a command or with one of four messages; the words of the
    command are words of the line, which nulterminate leaves as C strings; and a line that spells
    the tokens of a command, with any white space between them, is parsed as that command. *)

From S2P Require Import Prelude Ulib Sh.

Lemma one_of_spec s c : one_of s c = true <-> c ∈ s.
Proof.
  unfold one_of. induction s as [|a s IH]; simpl; [set_solver|].
  destruct (Z.eqb_spec a c) as [->|]; [set_solver|]. rewrite IH. set_solver.
Qed.
Lemma one_of_false s c : one_of s c = false <-> c ∉ s.
Proof. rewrite <- one_of_spec. by destruct (one_of s c). Qed.

(** ** Tokens *)

(** [es] is the end of the string in the buffer. *)
Record ended (buf : list Z) (es : nat) : Prop := {
  en_end : chr buf es = 0;
  en_in : forall i, (i < es)%nat -> chr buf i <> 0
}.

Lemma ended_cstr buf : ended buf (length (cstr buf)).
Proof.
  induction buf as [|c buf [IH1 IH2]]; [split; [done|simpl; lia]|]. simpl. destruct (Z.eqb_spec c 0) as [->|Hc].
  - split; [done|simpl; lia].
  - split; [done|]. intros [|i] Hi; [done|]. apply IH2. simpl in Hi. lia.
Qed.

Section lex.
Context (buf : list Z) (es : nat) (E : ended buf es).
Notation chr := (chr buf).
Notation white i := (one_of whitespace (chr i)).

Lemma advance_spec ok n : forall s, let e := advance buf ok n s in
  (s <= e <= s + n)%nat /\ (forall i, (s <= i < e)%nat -> ok (chr i) = true) /\ (e = (s + n)%nat \/ ok (chr e) = false).
Proof.
  induction n as [|n IH]; intros s; simpl; [split_and!; [lia|lia|intros; lia|left; lia]|].
  destruct (ok (chr s)) eqn:Hs; [|split_and!; [lia|lia|intros; lia|by right]].
  destruct (IH (S s)) as (H1 & H2 & H3). split_and!; [lia|lia| |destruct H3; [left; lia|by right]].
  intros i Hi. destruct (decide (i = s)) as [->|]; [done|]. apply H2. lia.
Qed.

Lemma skip_white_spec p : (p <= es)%nat -> let q := skip_white buf es p in (p <= q <= es)%nat /\ (q = es \/ white q = false).
Proof. intros Hp. destruct (advance_spec (one_of whitespace) (es - p) p) as (H1 & _ & H3). cbv zeta. unfold skip_white. split; [lia|]. destruct H3; [left; lia|by right]. Qed.

(** A word of the line, which cannot be made longer at its end. *)
Record lexeme (w : nat * nat) : Prop := {
  lx_range : (w.1 < w.2 <= es)%nat;
  lx_in : forall i, (w.1 <= i < w.2)%nat -> in_word (chr i) = true;
  lx_end : w.2 = es \/ in_word (chr w.2) = false
}.

(** The token [ret] is in the line from [q] to [e]. *)
Inductive token (q e : nat) : Z -> Prop :=
  | tok_end : q = es -> e = es -> token q e 0
  | tok_word : lexeme (q, e) -> token q e LETTER_A
  | tok_symbol : chr q ∈ symbols -> (q < es)%nat -> e = S q -> (chr q = GREATER -> chr e <> GREATER) -> token q e (chr q)
  | tok_append : chr q = GREATER -> chr (S q) = GREATER -> (S q < es)%nat -> e = S (S q) -> token q e PLUS.

Lemma inside i : chr i <> 0 -> (i <= es)%nat -> (i < es)%nat.
Proof. destruct E. intros H Hi. destruct (decide (i = es)) as [->|]; [done|lia]. Qed.

Lemma gettoken_spec p : (p <= es)%nat -> let q := skip_white buf es p in
  exists ret e, gettoken buf es p = Ok (ret, q, e) (skip_white buf es e) /\ token q e ret.
Proof using E.
  intros Hp q. destruct (skip_white_spec p Hp) as [Hq Hw]. fold q in Hq, Hw. unfold gettoken. cbn [mbind mget]. unfold mbind at 1; simpl. fold q.
  destruct (Z.eqb_spec (chr q) 0) as [E0|E0].
  { exists 0, q. rewrite E0. split; [done|]. assert (q = es); [|by apply tok_end]. destruct (decide (q < es)%nat) as [Hlt|]; [|lia]. by destruct (en_in _ _ E q Hlt). }
  assert (Hin : (q < es)%nat) by (apply inside; [done|lia]).
  destruct ((chr q =? BAR) || (chr q =? LPAREN) || (chr q =? RPAREN) || (chr q =? SEMI) || (chr q =? AMP) || (chr q =? LESS)) eqn:Hsym.
  { exists (chr q), (S q). split; [done|]. apply tok_symbol; [|done|done|].
    - unfold symbols. rewrite !orb_true_iff, !Z.eqb_eq in Hsym. unfold BAR, LPAREN, RPAREN, SEMI, AMP, LESS in Hsym. set_solver.
    - intros Hg. rewrite Hg in Hsym. done. }
  destruct (Z.eqb_spec (chr q) GREATER) as [Hg|Hg].
  { destruct (Z.eqb_spec (chr (S q)) GREATER) as [Hg'|Hg'].
    - exists PLUS, (S (S q)). split; [done|]. apply tok_append; try done. apply inside; [by rewrite Hg'|lia].
    - exists (chr q), (S q). split; [done|]. apply tok_symbol; [|done|done|done]. rewrite Hg. unfold symbols, GREATER. set_solver. }
  exists LETTER_A, (advance buf in_word (es - q) q). split; [done|]. apply tok_word.
  destruct (advance_spec in_word (es - q) q) as (H1 & H2 & H3).
  assert (Hword : in_word (chr q) = true).
  { unfold in_word. destruct Hw as [->|Hw]; [lia|]. rewrite Hw. simpl. apply negb_true_iff, one_of_false. rewrite !orb_false_iff, !Z.eqb_neq in Hsym.
    unfold BAR, LPAREN, RPAREN, SEMI, AMP, LESS, GREATER, symbols in *. set_solver. }
  split; simpl; [|done|destruct H3; [left; lia|by right]].
  destruct H3 as [->|H3]; [lia|]. destruct (decide (advance buf in_word (es - q) q = q)) as [Eq|]; [|lia]. by rewrite Eq, Hword in H3.
Qed.

Lemma skip_white_id p : p = es \/ white p = false -> skip_white buf es p = p.
Proof. unfold skip_white. intros [->|H]; [by rewrite Nat.sub_diag|]. destruct (es - p)%nat; [done|]. simpl. by rewrite H. Qed.

Lemma token_range q e ret : token q e ret -> (q <= es)%nat -> (q <= e <= es)%nat /\ (ret <> 0 -> (q < e)%nat).
Proof using E.
  intros T Hq. destruct T as [-> ->|[L _ _]|H1 H2 -> H4|H1 H2 H3 ->]; simpl in *; lia.
Qed.
(** Where a symbol is, the token is no word and not the end. *)
Lemma token_symbol q e ret : token q e ret -> chr q ∈ symbols -> ret = chr q \/ ret = PLUS /\ chr q = GREATER.
Proof using E.
  intros T Hs. destruct T as [-> ->|[L1 L2 L3]|H1 H2 -> H4|H1 H2 H3 ->]; [|exfalso|by left|by right].
  - rewrite (en_end _ _ E). by left.
  - simpl in *. specialize (L2 q ltac:(lia)). unfold in_word in L2. apply andb_true_iff in L2 as [_ L2]. apply negb_true_iff, one_of_false in L2. done.
Qed.
End lex.

(** ** Every parse ends *)

Definition parse_error (e : err) : Prop :=
  e = Panic "syntax" \/ e = Panic "missing file for redirection" \/ e = Panic "too many args" \/ e = Panic "syntax - missing )".
(** [c] returns with [Q], or ends in an error of the parser. *)
Definition yields {A} (c : M nat A) (p : nat) (Q : A -> nat -> Prop) : Prop :=
  match c p with Ok a p' => Q a p' | Err e => parse_error e end.

Lemma yields_bind {A B} (c : M nat A) (k : A -> M nat B) p Q : yields c p (fun a p' => yields (k a) p' Q) -> yields (mbind c k) p Q.
Proof. unfold yields, mbind. by destruct (c p). Qed.
Lemma yields_conseq {A} (c : M nat A) p (P Q : A -> nat -> Prop) : yields c p P -> (forall a p', P a p' -> Q a p') -> yields c p Q.
Proof. unfold yields. destruct (c p); auto. Qed.

Definition redirection : list (Z * Z) := [(O_RDONLY, 0); (Z.lor (Z.lor O_WRONLY O_CREATE) O_TRUNC, 1); (Z.lor O_WRONLY O_CREATE, 1)].

Section total.
Context (buf : list Z) (es : nat) (E : ended buf es).
Notation chr := (chr buf).
Notation white i := (one_of whitespace (chr i)).
Notation word := (lexeme buf es).

(** A command whose words are words of the line. *)
Fixpoint wf_cmd (c : cmd) : Prop :=
  match c with
  | EXEC args => (length args < MAXARGS)%nat /\ Forall word args
  | REDIR c file efile mode fd => wf_cmd c /\ word (file, efile) /\ (mode, fd) ∈ redirection
  | PIPE l r | LIST l r => wf_cmd l /\ wf_cmd r
  | BACK c => wf_cmd c
  end.
(** The number of arguments at the bottom of a chain of redirections. *)
Fixpoint argc_of (c : cmd) : option nat :=
  match c with EXEC args => Some (length args) | REDIR c _ _ _ _ => argc_of c | _ => None end.

Lemma yields_peek toks p Q : (p <= es)%nat -> 0 ∉ toks ->
  (forall q, (p <= q <= es)%nat -> (p = es \/ white p = false -> q = p) -> Q (one_of toks (chr q)) q) -> yields (peek buf es toks) p Q.
Proof using E.
  intros Hp H0 HQ. destruct (skip_white_spec buf es p Hp) as [Hq Hw]. unfold yields, peek, mbind. simpl.
  specialize (HQ _ Hq (skip_white_id _ _ _)). destruct (Z.eqb_spec (chr (skip_white buf es p)) 0) as [E0|]; [|done].
  simpl. apply one_of_false in H0. by rewrite E0, H0 in HQ.
Qed.
Lemma yields_token p Q : (p <= es)%nat ->
  (forall ret q e p', (p <= q <= e)%nat -> (e <= p' <= es)%nat -> (p = es \/ white p = false -> q = p) -> token buf es q e ret -> Q (ret, q, e) p') ->
  yields (gettoken buf es) p Q.
Proof using E.
  intros Hp HQ. destruct (gettoken_spec buf es E p Hp) as (ret & e & Hrun & T). unfold yields. rewrite Hrun.
  destruct (skip_white_spec buf es p Hp) as [Hq _]. destruct (token_range _ _ E _ _ _ T) as [Hr _]; [lia|].
  destruct (skip_white_spec buf es e) as [He _]; [lia|]. apply HQ; [lia|lia| |done]. apply skip_white_id.
Qed.
Lemma symbol_white c : c ∈ symbols -> one_of whitespace c = false.
Proof using. clear. intros H. apply one_of_false. unfold symbols, whitespace in *. set_solver. Qed.

Lemma yields_look {A} toks p (k : bool -> M nat A) Q : (p <= es)%nat -> toks ⊆ symbols ->
  (forall q, (p <= q < es)%nat -> (white p = false -> q = p) -> chr q ∈ toks -> yields (k true) q Q) ->
  (forall q, (p <= q <= es)%nat -> (white p = false -> q = p) -> chr q ∉ toks -> yields (k false) q Q) -> yields (mbind (peek buf es toks) k) p Q.
Proof using E.
  intros Hp Hs H1 H0. assert (Hz : 0 ∉ toks) by (intros Hz; apply Hs in Hz; unfold symbols in Hz; set_solver).
  apply yields_bind, yields_peek; [done|done|]. intros q Hq Hw. destruct (one_of toks (chr q)) eqn:Ho.
  - apply one_of_spec in Ho. apply H1; [|auto|done]. split; [lia|]. apply (inside _ _ E); [|lia]. intros E0. by rewrite E0 in Ho.
  - apply H0; [done|auto|]. by apply one_of_false.
Qed.
(** After a look at a symbol, the symbol is taken. *)
Lemma yields_symbol {A} p (k : Z * nat * nat -> M nat A) Q : (p < es)%nat -> chr p ∈ symbols ->
  (forall ret e p', (p < p' <= es)%nat -> token buf es p e ret -> yields (k (ret, p, e)) p' Q) -> yields (mbind (gettoken buf es) k) p Q.
Proof using E.
  intros Hp Hs HQ. apply yields_bind, yields_token; [lia|]. intros ret q e p' H1 H2 Hq T. rewrite (Hq (or_intror (symbol_white _ Hs))) in *.
  apply HQ; [|done]. destruct (token_range _ _ E _ _ _ T) as [_ Hlt]; [lia|]. pose proof (en_in _ _ E p Hp).
  destruct (token_symbol _ _ E _ _ _ T Hs) as [Er|[Er _]]; subst ret; specialize (Hlt ltac:(done)); lia.
Qed.

Ltac syms := unfold symbols, BAR, LPAREN, RPAREN, SEMI, AMP, LESS, GREATER in *; set_solver.
Ltac fails := cbn [negb]; unfold yields, panic, mfail, parse_error; tauto.

Lemma redirs_total fuel : forall c p, (p <= es)%nat -> (es - p < fuel)%nat -> wf_cmd c ->
  yields (parseredirs buf es fuel c) p (fun c' p' => (p <= p' <= es)%nat /\ wf_cmd c' /\ argc_of c' = argc_of c).
Proof using E.
  induction fuel as [|fuel IH]; intros c p Hp Hf Hc; [lia|]. cbn [parseredirs]. apply yields_look; [done|syms| |].
  - intros q Hq _ Hs. apply yields_symbol; [lia|syms|]. intros tok e1 p1 Hp1 T1. apply yields_bind, yields_token; [lia|].
    intros tok' q2 e2 p2 Hq2 Hp2 _ T2. cbn [fst snd]. destruct (Z.eqb_spec tok' LETTER_A) as [->|]; [|fails]. cbn [negb].
    eapply yields_conseq; [apply IH; [lia|lia|]|].
    + assert (W : word (q2, e2)).
      { inversion T2 as [|L|Hs2 _ _ _ Ea|]; [done|]. exfalso. rewrite Ea in Hs2. unfold LETTER_A in Hs2. syms. }
      destruct (tok =? LESS), (tok =? GREATER), (tok =? PLUS); cbn [wf_cmd]; try done; split_and!; try done; unfold redirection; set_solver.
    + intros c' p' (H1 & H2 & H3). split; [lia|]. split; [done|]. rewrite H3. by destruct (tok =? LESS), (tok =? GREATER), (tok =? PLUS).
  - intros q Hq _ _. done.
Qed.

Lemma add_arg_wf ret argc w : wf_cmd ret -> argc_of ret = Some argc -> (S argc < MAXARGS)%nat -> word w ->
  wf_cmd (add_arg ret w) /\ argc_of (add_arg ret w) = Some (S argc).
Proof.
  intros H Ha Hlt W. induction ret as [args|ret IH file efile mode fd| | |]; try done; simpl in *.
  - injection Ha as <-. rewrite length_app. simpl. destruct H. split_and!; [lia| |f_equal; lia]. apply Forall_app. by split; [|constructor].
  - destruct H as (H1 & H2 & H3). destruct (IH H1 Ha). done.
Qed.
Lemma args_total fuel : forall ret argc p, (p <= es)%nat -> (es - p < fuel)%nat -> wf_cmd ret -> argc_of ret = Some argc -> (argc < MAXARGS)%nat ->
  yields (parseargs buf es fuel argc ret) p (fun c' p' => (p <= p' <= es)%nat /\ wf_cmd c').
Proof using E.
  induction fuel as [|fuel IH]; intros ret argc p Hp Hf Hr Ha Hlt; [lia|]. cbn [parseargs]. apply yields_look; [done|syms| |].
  - intros q Hq _ _. split; [lia|done].
  - intros q Hq _ _. apply yields_bind, yields_token; [lia|]. intros tok q1 e1 p1 Hq1 Hp1 _ T1. cbn [fst snd].
    destruct (Z.eqb_spec tok 0) as [->|H0]; [split; [lia|done]|]. destruct (Z.eqb_spec tok LETTER_A) as [->|]; [|fails]. cbn [negb].
    assert (W : word (q1, e1)).
    { inversion T1 as [|L|Hs2 _ _ _ Ea|]; [done|]. exfalso. rewrite Ea in Hs2. unfold LETTER_A in Hs2. syms. }
    destruct (Nat.leb_spec MAXARGS (S argc)) as [Hm|Hm]; [fails|]. destruct (add_arg_wf ret argc _ Hr Ha Hm W) as [Hr' Ha'].
    destruct (token_range _ _ E _ _ _ T1) as [_ Hlt1]; [lia|]. specialize (Hlt1 H0).
    apply yields_bind. eapply yields_conseq; [apply redirs_total; [lia|lia|done]|]. intros ret' p2 (Hp2 & Hw2 & Ea2).
    eapply yields_conseq; [apply IH; [lia|lia|done|congruence|done]|]. intros c' p' [H1 H2]. split; [lia|done].
Qed.
Lemma backs_total fuel : forall c p, (p <= es)%nat -> (es - p < fuel)%nat -> wf_cmd c ->
  yields (parsebacks buf es fuel c) p (fun c' p' => (p <= p' <= es)%nat /\ wf_cmd c').
Proof using E.
  induction fuel as [|fuel IH]; intros c p Hp Hf Hc; [lia|]. cbn [parsebacks]. apply yields_look; [done|syms| |].
  - intros q Hq _ Hs. apply yields_symbol; [lia|syms|]. intros tok e1 p1 Hp1 _.
    eapply yields_conseq; [apply IH; [lia|lia|done]|]. intros c' p' [H1 H2]. split; [lia|done].
  - intros q Hq _ _. done.
Qed.

Definition parses (c : M nat cmd) (p : nat) : Prop := yields c p (fun c' p' => (p <= p' <= es)%nat /\ wf_cmd c').
Lemma parse_total fuel : forall p, (p <= es)%nat ->
  ((4 * (es - p) + 4 <= fuel)%nat -> parses (parseline buf es fuel) p) /\
  ((4 * (es - p) + 3 <= fuel)%nat -> parses (parsepipe buf es fuel) p) /\
  ((4 * (es - p) + 2 <= fuel)%nat -> parses (parseexec buf es fuel) p) /\
  ((4 * (es - p) + 1 <= fuel)%nat -> chr p = LPAREN -> parses (parseblock buf es fuel) p).
Proof using E.
  induction fuel as [|fuel IH]; intros p Hp; [split_and!; intros; lia|]. unfold parses. split_and!; intros Hf; [| | |intros Hc].
  - cbn [parseline]. apply yields_bind. eapply yields_conseq; [apply (IH p Hp); lia|]. intros c1 p1 [H1 W1].
    apply yields_bind. eapply yields_conseq; [apply backs_total; [lia|lia|done]|]. intros c2 p2 [H2 W2].
    apply yields_look; [lia|syms| |intros q Hq _ _; split; [lia|done]].
    intros q Hq _ Hs. apply yields_symbol; [lia|syms|]. intros _ _ p3 H3 _. apply yields_bind.
    eapply yields_conseq; [apply (IH p3); lia|]. intros c4 p4 [H4 W4]. split; [lia|done].
  - cbn [parsepipe]. apply yields_bind. eapply yields_conseq; [apply (IH p Hp); lia|]. intros c1 p1 [H1 W1].
    apply yields_look; [lia|syms| |intros q Hq _ _; split; [lia|done]].
    intros q Hq _ Hs. apply yields_symbol; [lia|syms|]. intros _ _ p3 H3 _. apply yields_bind.
    eapply yields_conseq; [apply (IH p3); lia|]. intros c4 p4 [H4 W4]. split; [lia|done].
  - cbn [parseexec]. apply yields_look; [done|syms| |].
    + intros q Hq _ Hs. eapply yields_conseq; [apply (IH q); [lia|lia|set_solver]|]. intros c1 p1 [H1 W1]. split; [lia|done].
    + intros q Hq _ _. apply yields_bind. eapply yields_conseq; [apply redirs_total; [lia|lia|]|].
      { split; [unfold MAXARGS; simpl; lia|done]. }
      intros c1 p1 (H1 & W1 & A1). eapply yields_conseq; [apply args_total; [lia|lia|done|done|unfold MAXARGS; lia]|]. intros c2 p2 [H2 W2]. split; [lia|done].
  - cbn [parseblock]. assert (Hlt : (p < es)%nat) by (apply (inside _ _ E); [by rewrite Hc|lia]).
    apply yields_look; [lia|syms| |].
    + intros q Hq _ Hs. cbn [negb]. apply yields_symbol; [lia|syms|]. intros _ _ p1 H1 _. apply yields_bind.
      eapply yields_conseq; [apply (IH p1); lia|]. intros c2 p2 [H2 W2]. apply yields_look; [lia|syms| |intros; fails].
      intros q3 Hq3 _ Hs3. cbn [negb]. apply yields_symbol; [lia|syms|]. intros _ _ p4 H4 _.
      eapply yields_conseq; [apply redirs_total; [lia|lia|done]|]. intros c5 p5 (H5 & W5 & _). split; [lia|done].
    + intros q Hq Hw Hs. rewrite Hw, Hc in Hs; [|by rewrite Hc]. by destruct Hs; constructor.
Qed.
End total.

(** C9. Parsing ends: on every line buffer parsecmd, with the recursion depth [parse_fuel] of the line's length, returns a command
    whose words are maximal words of the line, with fewer than [MAXARGS] arguments to a program, or ends in one of the four messages
    of the parser; it never gets to the message of parseblock, and never runs out of the depth. *)
Theorem parsecmd_ends buf :
  match parsecmd buf with
  | Ok c _ => wf_cmd buf (length (cstr buf)) c
  | Err e => parse_error e
  end.
Proof.
  set (es := length (cstr buf)). destruct (parse_total buf es (ended_cstr buf) (parse_fuel es) 0 ltac:(lia)) as [H _].
  specialize (H ltac:(unfold parse_fuel; lia)). unfold parsecmd, mbind at 1, mget. fold es. unfold parses, yields in H.
  destruct (parseline buf es (parse_fuel es) 0%nat) as [c p|e]; [|done]. destruct H as [_ H].
  destruct (negb _); [by left|]. done.
Qed.

(** ** The words of the command *)

Fixpoint words (c : cmd) : list (nat * nat) :=
  match c with
  | EXEC args => args
  | REDIR c file efile _ _ => words c ++ [(file, efile)]
  | PIPE l r | LIST l r => words l ++ words r
  | BACK c => words c
  end.
Definition slice (l : list Z) (w : nat * nat) : list Z := take (w.2 - w.1) (drop w.1 l).

Section nul.
Implicit Types (buf : list Z) (c : cmd).

Lemma nulterminate_lookup c : forall buf i, nulterminate c buf !! i = if decide (i ∈ (words c).*2) then (fun _ => 0) <$> buf !! i else buf !! i.
Proof.
  assert (Hset : forall buf e i, <[e := 0]> buf !! i = if decide (i = e) then (fun _ => 0) <$> buf !! i else buf !! i).
  { intros buf e i. case_decide as Hi; [subst|by rewrite list_lookup_insert_ne]. destruct (buf !! e) as [v|] eqn:Hb.
    - rewrite list_lookup_insert_eq; [done|]. by eapply lookup_lt_Some.
    - rewrite list_insert_ge; [done|]. by apply lookup_ge_None. }
  induction c as [args|c IH file efile mode fd|l IHl r IHr|l IHl r IHr|c IH]; intros buf i; cbn [nulterminate words].
  - revert buf. induction args as [|[q e] args IH]; intros buf; simpl; [done|]. rewrite IH, Hset.
    repeat case_decide; subst; simpl in *; try set_solver; by destruct (buf !! _).
  - rewrite Hset, IH, fmap_app. repeat case_decide; subst; simpl in *; try set_solver; by destruct (buf !! _).
  - rewrite IHr, IHl, fmap_app. repeat case_decide; try set_solver; by destruct (buf !! _).
  - rewrite IHr, IHl, fmap_app. repeat case_decide; try set_solver; by destruct (buf !! _).
  - apply IH.
Qed.
Lemma cstr_slice n : forall buf, (forall i, (i < n)%nat -> exists v, buf !! i = Some v /\ v <> 0) -> (default 0 (buf !! n) = 0) -> cstr buf = take n buf.
Proof.
  induction n as [|n IH]; intros buf Hin Hend.
  - destruct buf as [|v buf]; [done|]. simpl in *. subst. done.
  - destruct buf as [|v buf]; [done|]. destruct (Hin 0%nat ltac:(lia)) as (v' & [= <-] & Hv). simpl.
    destruct (Z.eqb_spec v 0) as [|_]; [done|]. f_equal. apply IH; [|done]. intros i Hi. exact (Hin (S i) ltac:(lia)).
Qed.
Lemma wf_words buf es c : wf_cmd buf es c -> Forall (lexeme buf es) (words c).
Proof. induction c; simpl; intros H; destruct_and?; rewrite ?Forall_app, ?Forall_singleton; auto. Qed.
End nul.

Section nul_words.
Context (buf : list Z) (c : cmd).
Notation es := (length (cstr buf)).
Hypothesis (Hc : wf_cmd buf es c).

Lemma line_lookup i : (i < es)%nat -> exists v, buf !! i = Some v /\ v <> 0 /\ chr buf i = v.
Proof using.
  intros Hi. pose proof (en_in _ _ (ended_cstr buf) i Hi) as Hn. unfold chr in *. destruct (buf !! i) as [v|] eqn:Hb; [|done]. by exists v.
Qed.
Lemma word_string w : w ∈ words c -> cstr (drop w.1 (nulterminate c buf)) = slice buf w.
Proof using Hc.
  intros Hw. pose proof (wf_words _ _ _ Hc) as HF. rewrite Forall_forall in HF. destruct (HF w Hw) as [L1 L2 L3].
  assert (Hkeep : forall i, (w.1 <= i < w.2)%nat -> nulterminate c buf !! i = buf !! i).
  { intros i Hi. rewrite nulterminate_lookup. case_decide as He; [|done]. exfalso. apply list_elem_of_fmap in He as (w' & -> & Hw').
    destruct (HF w' Hw') as [M1 M2 [M3|M3]]; [lia|]. rewrite (L2 _ Hi) in M3. done. }
  rewrite (cstr_slice (w.2 - w.1)).
  - unfold slice. apply list_eq. intros i. rewrite !lookup_take, !lookup_drop. case_decide; [|done]. apply Hkeep. lia.
  - intros i Hi. rewrite lookup_drop, Hkeep by lia. destruct (line_lookup (w.1 + i)) as (v & H1 & H2 & _); [lia|]. by exists v.
  - rewrite lookup_drop. replace (w.1 + (w.2 - w.1))%nat with w.2 by lia. rewrite nulterminate_lookup, decide_True; [by destruct (buf !! w.2)|].
    apply list_elem_of_fmap. by exists w.
Qed.
Lemma slice_word w : w ∈ words c -> slice buf w <> [] /\ Forall (fun v => v <> 0 /\ in_word v = true) (slice buf w).
Proof using Hc.
  intros Hw. pose proof (wf_words _ _ _ Hc) as HF. rewrite Forall_forall in HF. destruct (HF w Hw) as [L1 L2 L3]. unfold slice. split.
  - destruct (line_lookup w.1) as (v & Hv & _); [lia|]. intros En. apply (f_equal (lookup 0%nat)) in En.
    rewrite lookup_take, decide_True, lookup_drop, Nat.add_0_r, Hv in En by lia. done.
  - apply Forall_lookup. intros i v Hi. rewrite lookup_take, lookup_drop in Hi. case_decide; [|done].
    destruct (line_lookup (w.1 + i)) as (v' & Hv & H0 & Hchr); [lia|]. rewrite Hv in Hi. injection Hi as <-. split; [done|]. rewrite <- Hchr. apply L2. lia.
Qed.
End nul_words.

Lemma parsecmd_inv buf c buf' : parsecmd buf = Ok c buf' -> wf_cmd buf (length (cstr buf)) c /\ buf' = nulterminate c buf.
Proof.
  intros Hp. set (es := length (cstr buf)). destruct (parse_total buf es (ended_cstr buf) (parse_fuel es) 0 ltac:(lia)) as [H _].
  specialize (H ltac:(unfold parse_fuel; lia)). unfold parsecmd, mbind at 1, mget in Hp. fold es in Hp. unfold parses, yields in H.
  destruct (parseline buf es (parse_fuel es) 0%nat) as [c' p|e]; [|done]. destruct (negb _); [done|]. injection Hp as <- <-. by destruct H.
Qed.

(** C37. NUL-terminating in place is safe: when parsecmd returns a command, the C string at the start of each of its words is
    exactly that word of the line (one or more characters, none of them white space, a symbol or NUL), although the terminators are
    written over the characters that follow the words; nothing else of the buffer changes. *)
Theorem parsecmd_words buf c buf' : parsecmd buf = Ok c buf' ->
  (forall w, w ∈ words c -> cstr (drop w.1 buf') = slice buf w /\ slice buf w <> [] /\ Forall (fun v => v <> 0 /\ in_word v = true) (slice buf w)) /\
  (forall i, i ∉ (words c).*2 -> buf' !! i = buf !! i).
Proof.
  intros Hp. destruct (parsecmd_inv _ _ _ Hp) as [Hc ->]. split.
  - intros w Hw. split; [by apply word_string|by apply (slice_word buf c)].
  - intros i Hi. by rewrite nulterminate_lookup, decide_False.
Qed.

Definition line1 : list Z := bytes_of "(grep a<in;ls -l|wc)>out & ; echo hi" ++ [10; 0; 0].
Definition line1_cmd : cmd :=
  (LIST (BACK (REDIR (LIST (REDIR (EXEC [(1, 5); (6, 7)]) 8 10 0%Z 0%Z) (PIPE (EXEC [(11, 13); (14, 16)]) (EXEC [(17, 19)]))) 21 24 1537%Z 1%Z))
        (EXEC [(29, 33); (34, 36)]))%nat.
Lemma parsecmd_words_witness : exists buf', parsecmd line1 = Ok line1_cmd buf' /\ cstr (drop 14 buf') = bytes_of "-l" /\ buf' !! 17%nat = Some 119.
Proof.
  assert (Hp : parsecmd line1 = Ok line1_cmd (nulterminate line1_cmd line1)) by (vm_compute; reflexivity).
  exists (nulterminate line1_cmd line1). destruct (parsecmd_words _ _ _ Hp) as [H1 H2]. split; [exact Hp|]. split.
  - destruct (H1 (14, 16)%nat) as [H _]; [apply (bool_decide_unpack _); vm_compute; exact I|]. exact (eq_trans H eq_refl).
  - rewrite (H2 17%nat); [reflexivity|]. apply (bool_decide_unpack _); vm_compute; exact I.
Defined.
