(* ===== verification/ShTree.v ===== *)
(** * The shell's grammar

    A command line as the user means it is a tree of words.  [unparse] gives its tokens, with
    parentheses where the grammar needs them; [spells] says that a line has these tokens, with
    any white space around them.  The theorem says that the shell parses such a line as the
    tree, as runcmd will find it in the NUL-terminated buffer. *)

From S2P Require Import Prelude Ulib Sh ShProps.

(** ** Tokens of a line *)

Inductive tok := Word (w : list Z) | Sym (c : Z) | Append.

Definition spelling (t : tok) : list Z :=
  match t with Word w => w | Sym c => [c] | Append => [GREATER; GREATER] end.
Definition code (t : tok) : Z :=
  match t with Word _ => LETTER_A | Sym c => c | Append => PLUS end.
(** The first character of a token that is a symbol. *)
Definition starts (t : tok) : option Z :=
  match t with Word _ => None | Sym c => Some c | Append => Some GREATER end.
Definition wf_word (w : list Z) : Prop := w <> [] /\ Forall (fun c => c <> 0 /\ in_word c = true) w.
Definition wf_tok (t : tok) : Prop :=
  match t with Word w => wf_word w | Sym c => c ∈ symbols | Append => True end.
(** What may follow a token without white space. *)
Definition may_follow (t : tok) (l : list Z) : Prop :=
  match t, l with
  | Word _, c :: _ => in_word c = false
  | Sym c, c' :: _ => c = GREATER -> c' <> GREATER
  | _, _ => True
  end.
Definition blank (l : list Z) : Prop := Forall (fun c => c ∈ whitespace) l.

Inductive spells : list Z -> list tok -> Prop :=
  | spells_end ws : blank ws -> spells ws []
  | spells_tok ws t l ts : blank ws -> wf_tok t -> may_follow t l -> spells l ts -> spells (ws ++ spelling t ++ l) (t :: ts).

Section lexing.
Context (buf : list Z).
Notation text := (cstr buf).
Notation es := (length (cstr buf)).

Lemma cstr_lookup (b : list Z) : forall i, (i < length (cstr b))%nat -> cstr b !! i = b !! i.
Proof.
  induction b as [|c b IH]; intros i; simpl; [lia|]. destruct (Z.eqb_spec c 0) as [|_]; simpl; [lia|].
  destruct i as [|i]; [done|]. intros Hi. apply IH. lia.
Qed.
Lemma chr_drop p c l : drop p text = c :: l -> chr buf p = c /\ (p < es)%nat /\ drop (S p) text = l.
Proof.
  intros H. assert (Hl : text !! p = Some c). { rewrite <- (Nat.add_0_r p), <- lookup_drop, H. done. }
  pose proof (lookup_lt_Some _ _ _ Hl) as Hlt. split_and!; [|done|].
  - unfold chr. by rewrite <- cstr_lookup, Hl.
  - change (S p) with (1 + p)%nat. rewrite Nat.add_comm, <- drop_drop, H. done.
Qed.
Lemma drop_end p : drop p text = [] -> (es <= p)%nat.
Proof. intros H. apply (f_equal length) in H. rewrite length_drop in H. simpl in H. lia. Qed.

Lemma advance_drop ok w : forall p l, drop p text = w ++ l -> Forall (fun c => ok c = true) w ->
  match l with [] => True | c :: _ => ok c = false end -> advance buf ok (es - p) p = (p + length w)%nat.
Proof.
  induction w as [|c w IH]; intros p l Hd Hw Hl.
  - rewrite Nat.add_0_r. destruct l as [|c l].
    + apply drop_end in Hd. by replace (es - p)%nat with 0%nat by lia.
    + destruct (chr_drop p c l Hd) as (E1 & E2 & _). destruct (es - p)%nat eqn:En; [lia|]. simpl. by rewrite E1, Hl.
  - apply Forall_cons in Hw as [Hc Hw]. destruct (chr_drop p c _ Hd) as (E1 & E2 & E3). destruct (es - p)%nat as [|k] eqn:En; [lia|].
    simpl. rewrite E1, Hc. replace k with (es - S p)%nat by lia. rewrite (IH (S p) l E3 Hw Hl). lia.
Qed.

(** The rest of the line after the white space. *)
Definition trimmed (l : list Z) : Prop := match l with [] => True | c :: _ => c ∉ whitespace end.
Lemma spelling_trimmed t l : wf_tok t -> trimmed (spelling t ++ l).
Proof.
  destruct t as [w|c|]; simpl; intros Ht.
  - destruct Ht as [Hn Hw]. destruct w as [|c w]; [done|]. apply Forall_cons in Hw as [[_ Hc] _]. simpl.
    unfold in_word in Hc. apply andb_true_iff in Hc as [Hc _]. by apply negb_true_iff, one_of_false in Hc.
  - by apply one_of_false, symbol_white.
  - unfold whitespace, GREATER. set_solver.
Qed.
Lemma skip_spells p ts : spells (drop p text) ts -> (p <= es)%nat -> let q := skip_white buf es p in
  (p <= q <= es)%nat /\ spells (drop q text) ts /\ trimmed (drop q text).
Proof.
  intros Hs Hp q. assert (exists ws l, drop p text = ws ++ l /\ blank ws /\ trimmed l /\ spells l ts) as (ws & l & Hd & Hb & Ht & Hl).
  { inversion Hs as [ws Hb|ws t l ts' Hb Ht Hf Hl]; subst.
    - exists (drop p text), []. rewrite app_nil_r. repeat split; [done|]. apply spells_end. constructor.
    - exists ws, (spelling t ++ l). split_and!; [done|done|by apply spelling_trimmed|]. apply (spells_tok [] t l ts'); [constructor|done..]. }
  assert (Eq : q = (p + length ws)%nat).
  { unfold q, skip_white. apply (advance_drop _ ws p l Hd).
    - eapply Forall_impl; [exact Hb|]. intros c Hc. by apply one_of_spec.
    - destruct l; [done|]. by apply one_of_false. }
  assert (Hdq : drop q text = l). { rewrite Eq, <- drop_drop, Hd. apply drop_app_length. }
  rewrite Hdq. split; [|done]. apply (f_equal length) in Hd. rewrite length_drop, length_app in Hd. lia.
Qed.

Lemma spells_inv l t ts : spells l (t :: ts) -> trimmed l -> exists l', l = spelling t ++ l' /\ wf_tok t /\ may_follow t l' /\ spells l' ts.
Proof using.
  intros Hs Ht. inversion Hs as [|ws t' l' ts' Hb Hw Hf Hl]; subst. destruct ws as [|c ws]; [by exists l'|].
  apply Forall_cons in Hb as [Hc _]. done.
Qed.
Lemma spells_nil l : spells l [] -> trimmed l -> l = [].
Proof using. intros Hs Ht. inversion Hs as [ws Hb|]; subst. destruct l; [done|]. by apply Forall_cons in Hb as [? _]. Qed.
Lemma slice_drop q (w l : list Z) : drop q text = w ++ l -> slice buf (q, q + length w)%nat = w.
Proof.
  intros Hd. assert (Hlen : (length w <= es - q)%nat) by (apply (f_equal length) in Hd; rewrite length_drop, length_app in Hd; lia).
  unfold slice. simpl. replace (q + length w - q)%nat with (length w) by lia.
  transitivity (take (length w) (drop q text)); [|by rewrite Hd, take_app_length].
  apply list_eq. intros i. rewrite !lookup_take, !lookup_drop. case_decide; [|done]. symmetry. apply cstr_lookup. lia.
Qed.

Definition one_char (c : Z) : bool := (c =? BAR) || (c =? LPAREN) || (c =? RPAREN) || (c =? SEMI) || (c =? AMP) || (c =? LESS).
Lemma one_char_spec c : c ∈ symbols -> one_char c = negb (c =? GREATER).
Proof using. clear. unfold symbols. rewrite !elem_of_cons. intros H. destruct_or!; subst; try done. by apply elem_of_nil in H. Qed.
Lemma word_char c : in_word c = true -> c ∉ symbols /\ one_char c = false /\ (c =? GREATER) = false.
Proof using.
  clear. unfold in_word. intros H. apply andb_true_iff in H as [_ H]. apply negb_true_iff, one_of_false in H. split; [done|].
  unfold one_char, symbols, BAR, LPAREN, RPAREN, SEMI, AMP, LESS, GREATER in *. rewrite !orb_false_iff, !Z.eqb_neq. set_solver.
Qed.

Lemma gettoken_spells p t ts : (p <= es)%nat -> spells (drop p text) (t :: ts) ->
  runs (gettoken buf es) p (fun r p' => r.1.1 = code t /\ (forall w, t = Word w -> slice buf (r.1.2, r.2) = w) /\ (p < p' <= es)%nat /\ spells (drop p' text) ts).
Proof.
  intros Hp Hs. destruct (skip_spells p _ Hs Hp) as (Hq & Hsq & Htr). set (q := skip_white buf es p) in *.
  destruct (spells_inv _ _ _ Hsq Htr) as (l & Hd & Hw & Hf & Hl). set (n := length (spelling t)).
  assert (Hn : (0 < n)%nat). { unfold n. destruct t as [[|c w]|c|]; simpl; try lia. by destruct Hw. }
  assert (Hle : (q + n <= es)%nat). { apply (f_equal length) in Hd. rewrite length_drop, length_app in Hd. fold n in Hd. lia. }
  assert (Hde : drop (q + n) text = l) by (rewrite <- drop_drop, Hd; apply drop_app_length).
  rewrite <- Hde in Hl. destruct (skip_spells (q + n) ts Hl Hle) as (Hr & Hs' & _).
  enough (Hret : exists c, chr buf q = c /\ c <> 0 /\
    (if one_char c then (c, S q) else if c =? GREATER then (if chr buf (S q) =? GREATER then (PLUS, S (S q)) else (c, S q))
     else (LETTER_A, advance buf in_word (es - q) q)) = (code t, (q + n)%nat)).
  { destruct Hret as (c & Ec & Hc & Hret). unfold gettoken. apply runs_bind. unfold runs at 1, mget. fold q. rewrite Ec. destruct (Z.eqb_spec c 0) as [|_]; [done|].
    fold (one_char c). rewrite Hret. unfold runs, mbind, mput, mret. cbn [fst snd]. split_and!; [done| |lia|lia|done].
    intros w ->. by apply (slice_drop q w l). }
  destruct t as [w|c|]; simpl in Hd, Hw, Hf, n.
  - destruct Hw as [Hne Hall]. destruct w as [|c w]; [done|]. pose proof Hall as Hall'. apply Forall_cons in Hall' as [[Hc0 Hc] _].
    destruct (chr_drop q c _ Hd) as (Ec & _). exists c. split; [done|]. split; [done|]. destruct (word_char c Hc) as (_ & -> & ->). f_equal.
    apply (advance_drop _ (c :: w) q l Hd); [|by destruct l]. eapply Forall_impl; [exact Hall|]. by intros ? [].
  - destruct (chr_drop q c _ Hd) as (Ec & _ & Hd'). exists c. split; [done|]. split; [intros ->; unfold symbols in Hw; set_solver|]. rewrite (one_char_spec c Hw).
    replace (q + n)%nat with (S q) by (unfold n; lia). destruct (Z.eqb_spec c GREATER) as [->|]; [|done]. simpl.
    destruct (Z.eqb_spec (chr buf (S q)) GREATER) as [Eg|]; [|done]. exfalso. destruct l as [|c' l].
    + apply drop_end in Hd'. pose proof (ended_cstr buf) as [En _]. replace (S q) with es in Eg by lia. by rewrite En in Eg.
    + destruct (chr_drop _ _ _ Hd') as (Ec' & _). rewrite Eg in Ec'. by apply Hf.
  - destruct (chr_drop q _ _ Hd) as (Ec & _ & Hd'). destruct (chr_drop (S q) _ _ Hd') as (Ec' & _). exists GREATER. split_and!; [done|done|]. simpl. rewrite Ec'. simpl.
    f_equal. unfold n. lia.
Qed.
Lemma gettoken_end p : (p <= es)%nat -> spells (drop p text) [] -> gettoken buf es p = Ok (0, es, es) es.
Proof.
  intros Hp Hs. destruct (skip_spells p _ Hs Hp) as (Hq & Hsq & Htr). set (q := skip_white buf es p) in *.
  assert (Hd : drop q text = []) by (by apply spells_nil).
  apply drop_end in Hd. assert (Eq : q = es) by lia. unfold gettoken, mbind, mget. fold q. rewrite Eq, (en_end _ _ (ended_cstr buf)). simpl.
  unfold mput, mret. by rewrite skip_white_id by (by left).
Qed.
Lemma peek_spells toks p ts : (p <= es)%nat -> toks ⊆ symbols -> spells (drop p text) ts ->
  exists p', peek buf es toks p = Ok (match head ts ≫= starts with Some c => one_of toks c | None => false end) p' /\ (p <= p' <= es)%nat /\ spells (drop p' text) ts.
Proof.
  intros Hp Htoks Hs. destruct (skip_spells p _ Hs Hp) as (Hq & Hsq & Htr). exists (skip_white buf es p). split; [|done]. set (q := skip_white buf es p) in *.
  unfold peek, mbind, mget, mput, mret. fold q. f_equal. destruct ts as [|t ts].
  - assert (Hd : drop q text = []) by (by apply spells_nil).
    apply drop_end in Hd. assert (Eq : q = es) by lia. by rewrite Eq, (en_end _ _ (ended_cstr buf)).
  - destruct (spells_inv _ _ _ Hsq Htr) as (l & Hd & Hw & _). assert (Hnw : forall c, in_word c = true -> one_of toks c = false).
    { intros c Hc. apply one_of_false. intros Hin. by apply Htoks, (proj1 (word_char c Hc)) in Hin. }
    destruct t as [[|c w]|c|]; simpl in *.
    + by destruct Hw.
    + destruct (chr_drop q c _ Hd) as (-> & _). destruct Hw as [_ Hw]. apply Forall_cons in Hw as [[_ Hc] _]. rewrite (Hnw c Hc). by rewrite andb_false_r.
    + destruct (chr_drop q c _ Hd) as (-> & _). destruct (Z.eqb_spec c 0) as [->|]; [|done]. unfold symbols in Hw. set_solver.
    + destruct (chr_drop q _ _ Hd) as (-> & _). done.
Qed.
End lexing.

(** ** Trees *)

Inductive tree :=
  | TExec (argv : list (list Z))
  | TRedir (t : tree) (file : list Z) (mode fd : Z)
  | TPipe (left right : tree)
  | TList (left right : tree)
  | TBack (t : tree).

Fixpoint wf_tree (t : tree) : Prop :=
  match t with
  | TExec argv => (length argv < MAXARGS)%nat /\ Forall wf_word argv
  | TRedir t file mode fd => wf_tree t /\ wf_word file /\ (mode, fd) ∈ redirection
  | TPipe l r | TList l r => wf_tree l /\ wf_tree r
  | TBack t => wf_tree t
  end.

(** What runcmd finds: the strings that argv and file point to. *)
Fixpoint view (str : nat * nat -> list Z) (c : cmd) : tree :=
  match c with
  | EXEC args => TExec (str <$> args)
  | REDIR c file efile mode fd => TRedir (view str c) (str (file, efile)) mode fd
  | PIPE l r => TPipe (view str l) (view str r)
  | LIST l r => TList (view str l) (view str r)
  | BACK c => TBack (view str c)
  end.

Lemma view_ext f g c : (forall w, w ∈ words c -> f w = g w) -> view f c = view g c.
Proof.
  induction c as [args|c IH file efile mode fd|l IHl r IHr|l IHl r IHr|c IH]; simpl; intros H.
  - f_equal. apply list_fmap_ext. intros i w Hi. apply H. by eapply list_elem_of_lookup_2.
  - rewrite IH by set_solver. f_equal. apply H. set_solver.
  - rewrite IHl, IHr by set_solver. done.
  - rewrite IHl, IHr by set_solver. done.
  - by rewrite IH.
Qed.

(** The symbols [<], [>] and [>>]. *)
Definition redir_tok (mode fd : Z) : tok :=
  if fd =? 0 then Sym LESS else if mode =? Z.lor (Z.lor O_WRONLY O_CREATE) O_TRUNC then Sym GREATER else Append.
(** The tokens of a tree at a place where the grammar expects a line (0), a pipeline and ampersands (1),
    a pipeline (2) or a part of one (3). *)
Fixpoint unparse (lvl : nat) (t : tree) : list tok :=
  let paren (prec : nat) (ts : list tok) := if (lvl <=? prec)%nat then ts else Sym LPAREN :: ts ++ [Sym RPAREN] in
  match t with
  | TExec argv => Word <$> argv
  | TRedir t file mode fd => unparse 3 t ++ [redir_tok mode fd; Word file]
  | TPipe l r => paren 2%nat (unparse 3 l ++ Sym BAR :: unparse 2 r)
  | TBack t => paren 1%nat (unparse 1 t ++ [Sym AMP])
  | TList l r => paren 0%nat (unparse 1 l ++ Sym SEMI :: unparse 0 r)
  end.

(** ** Parsing the tokens of a tree *)

Section grammar.
Context (buf : list Z).
Notation text := (cstr buf).
Notation es := (length (cstr buf)).
Implicit Types (t : tree) (ts : list tok) (rs : list (list Z * (Z * Z))).

(** [c] is parsed as [t], up to the tokens [ts]. *)
Definition reads (c : M nat cmd) (p : nat) (t : tree) (ts : list tok) : Prop :=
  runs c p (fun c' p' => view (slice buf) c' = t /\ (p <= p' <= es)%nat /\ spells (drop p' text) ts).
(** The next token is none of the symbols [toks]. *)
Definition not_next (toks : list Z) (ts : list tok) : Prop :=
  match head ts ≫= starts with Some c => c ∉ toks | None => True end.

Definition add_redirs (t : tree) rs : tree := foldl (fun t r => TRedir t r.1 r.2.1 r.2.2) t rs.
Definition redir_toks rs : list tok := rs ≫= (fun r => [redir_tok r.2.1 r.2.2; Word r.1]).

Lemma runs_look {A} toks p ts (k : bool -> M nat A) Q : (p <= es)%nat -> toks ⊆ symbols -> spells (drop p text) ts ->
  (forall p', (p <= p' <= es)%nat -> spells (drop p' text) ts -> runs (k (match head ts ≫= starts with Some c => one_of toks c | None => false end)) p' Q) ->
  runs (mbind (peek buf es toks) k) p Q.
Proof.
  intros Hp Ht Hs HQ. destruct (peek_spells buf toks p ts Hp Ht Hs) as (p' & Hrun & Hp' & Hs'). apply runs_bind.
  apply (runs_ok _ _ _ _ _ Hrun). by apply HQ.
Qed.
Lemma runs_token {A} p (t : tok) ts (k : Z * nat * nat -> M nat A) Q : (p <= es)%nat -> spells (drop p text) (t :: ts) ->
  (forall q e p', (forall w, t = Word w -> slice buf (q, e) = w) -> (p < p' <= es)%nat -> spells (drop p' text) ts -> runs (k (code t, q, e)) p' Q) ->
  runs (mbind (gettoken buf es) k) p Q.
Proof.
  intros Hp Hs HQ. apply runs_bind. eapply runs_conseq; [by apply (gettoken_spells buf p t ts)|].
  intros [[ret q] e] p' (Er & Hw & Hp' & Hs'). simpl in *. subst. by apply HQ.
Qed.
Lemma not_next_false toks ts : not_next toks ts -> match head ts ≫= starts with Some c => one_of toks c | None => false end = false.
Proof. unfold not_next. destruct (head ts ≫= starts); [|done]. intros. by apply one_of_false. Qed.

Ltac syms := unfold symbols, BAR, LPAREN, RPAREN, SEMI, AMP, LESS, GREATER in *; set_solver.

Definition wf_redir (r : list Z * (Z * Z)) : Prop := wf_word r.1 /\ r.2 ∈ redirection.
Lemma redirs_read fuel : forall c p t rs ts, (p <= es)%nat -> (es - p < fuel)%nat -> view (slice buf) c = t -> Forall wf_redir rs ->
  not_next [LESS; GREATER] ts -> spells (drop p text) (redir_toks rs ++ ts) -> reads (parseredirs buf es fuel c) p (add_redirs t rs) ts.
Proof.
  induction fuel as [|fuel IH]; intros c p t rs ts Hp Hf Hv Hrs Hn Hs; [lia|]. cbn [parseredirs]. unfold reads.
  eapply (runs_look _ _ _ _ _ Hp); [syms|exact Hs|]. intros p1 Hp1 Hs1. destruct rs as [|[w [mode fd]] rs].
  - change (redir_toks [] ++ ts) with ts in *. rewrite (not_next_false _ _ Hn). by apply runs_ret.
  - apply Forall_cons in Hrs as [[Hw Hr] Hrs]. cbn [fst snd] in *. change (redir_toks ((w, (mode, fd)) :: rs) ++ ts) with (redir_tok mode fd :: Word w :: redir_toks rs ++ ts) in *.
    replace (match head _ ≫= starts with Some c => _ | None => false end) with true by (simpl; unfold redir_tok; by destruct (fd =? 0), (mode =? Z.lor (Z.lor O_WRONLY O_CREATE) O_TRUNC)).
    eapply (runs_token _ _ _ _ _ (proj2 Hp1) Hs1). intros q e p2 _ Hp2 Hs2. cbn [fst snd].
    eapply (runs_token _ _ _ _ _ (proj2 Hp2) Hs2). intros q3 e3 p3 Hw3 Hp3 Hs3. cbn [fst snd negb code]. change (negb (LETTER_A =? LETTER_A)) with false. cbn iota.
    eapply runs_conseq; [eapply (IH _ p3 (TRedir t w mode fd) rs ts); [lia|lia| |done|done|done]|].
    + unfold redirection in Hr. rewrite !elem_of_cons in Hr. destruct_or!; [..|by apply elem_of_nil in Hr]; injection Hr as -> ->; simpl; by rewrite Hv, (Hw3 w).
    + intros c' p' (H1 & H2 & H3). split_and!; [done|lia|lia|done].
Qed.

(** The next token, if any, is one of the symbols [toks]. *)
Definition next_in (toks : list Z) (ts : list tok) : Prop :=
  match ts with [] => True | t :: _ => match starts t with Some c => c ∈ toks | None => False end end.
Lemma next_not toks toks' ts : next_in toks ts -> (forall c, c ∈ toks -> c ∉ toks') -> not_next toks' ts.
Proof. unfold next_in, not_next. destruct ts as [|t ts]; [done|]. simpl. destruct (starts t); [|done]. auto. Qed.
Lemma next_sub toks toks' ts : next_in toks ts -> toks ⊆ toks' -> next_in toks' ts.
Proof. unfold next_in. destruct ts as [|t ts]; [done|]. destruct (starts t); [|done]. auto. Qed.
Definition exec_stop : list Z := [BAR; RPAREN; AMP; SEMI].

Lemma args_stop fuel argc ret p ts : (p <= es)%nat -> next_in exec_stop ts -> spells (drop p text) ts ->
  reads (parseargs buf es (S fuel) argc ret) p (view (slice buf) ret) ts.
Proof.
  intros Hp Hn Hs. cbn [parseargs]. eapply (runs_look _ _ _ _ _ Hp); [syms|exact Hs|]. intros p1 Hp1 Hs1. destruct ts as [|t ts]; simpl.
  - apply runs_bind. apply (runs_ok _ _ _ _ _ (gettoken_end buf p1 (proj2 Hp1) Hs1)). simpl. apply runs_ret. split_and!; [done|lia|lia|].
    rewrite drop_ge by done. apply spells_end. constructor.
  - unfold next_in in Hn. destruct (starts t) as [c|]; [|done]. apply one_of_spec in Hn. unfold exec_stop in Hn. rewrite Hn. by apply runs_ret.
Qed.
Lemma view_exec c argv : view (slice buf) c = TExec argv -> exists args, c = EXEC args /\ slice buf <$> args = argv.
Proof. destruct c; try done. intros [= <-]. by eexists. Qed.
Lemma args_read ws : forall fuel ret argv p rs ts, (p <= es)%nat -> (es - p < fuel)%nat -> ws <> [] -> view (slice buf) ret = TExec argv ->
  (length argv + length ws < MAXARGS)%nat -> Forall wf_redir rs -> next_in exec_stop ts ->
  spells (drop p text) ((Word <$> ws) ++ redir_toks rs ++ ts) ->
  reads (parseargs buf es fuel (length argv) ret) p (add_redirs (TExec (argv ++ ws)) rs) ts.
Proof.
  induction ws as [|w ws IH]; intros fuel ret argv p rs ts Hp Hf Hne Hv Hlen Hrs Hn Hs; [done|]. destruct fuel as [|fuel]; [lia|].
  destruct (view_exec _ _ Hv) as (args & -> & Ea). cbn [parseargs]. simpl in Hlen. assert (Hn' : not_next [LESS; GREATER] ts) by (apply (next_not _ _ _ Hn); unfold exec_stop; intros c; syms).
  eapply (runs_look _ _ _ _ _ Hp); [syms|exact Hs|]. intros p1 Hp1 Hs1. cbn [fmap list_fmap app head mbind option_bind starts] in Hs1 |- *.
  eapply (runs_token _ _ _ _ _ (proj2 Hp1) Hs1). intros q e p2 Hw2 Hp2 Hs2. cbn [fst snd code]. change (LETTER_A =? 0) with false. change (negb (LETTER_A =? LETTER_A)) with false. cbn iota.
  destruct (Nat.leb_spec MAXARGS (S (length argv))) as [|_]; [lia|]. apply runs_bind. cbn [add_arg].
  assert (Hv2 : view (slice buf) (EXEC (args ++ [(q, e)])) = TExec (argv ++ [w])) by (simpl; rewrite fmap_app, Ea; simpl; by rewrite (Hw2 w)).
  destruct ws as [|w' ws].
  - eapply runs_conseq; [apply (redirs_read fuel (EXEC (args ++ [(q, e)])) p2 (TExec (argv ++ [w])) rs ts); [lia|lia|exact Hv2|done|done|exact Hs2]|].
    intros c3 p3 (H1 & H2 & H3). destruct fuel as [|fuel]; [lia|].
    eapply runs_conseq; [apply (args_stop fuel _ c3 p3 ts); [lia|done|done]|]. rewrite H1. intros c4 p4 (H4 & H5 & H6). split_and!; [done|lia|lia|done].
  - eapply runs_conseq; [apply (redirs_read fuel (EXEC (args ++ [(q, e)])) p2 (TExec (argv ++ [w])) [] ((Word <$> w' :: ws) ++ redir_toks rs ++ ts)); [lia|lia|exact Hv2|done|done|exact Hs2]|].
    intros c3 p3 (H1 & H2 & H3). change (add_redirs (TExec (argv ++ [w])) []) with (TExec (argv ++ [w])) in H1.
    replace (argv ++ w :: w' :: ws) with ((argv ++ [w]) ++ w' :: ws) by (by rewrite <- app_assoc).
    replace (S (length argv)) with (length (argv ++ [w])) by (rewrite length_app; simpl; lia).
    eapply runs_conseq; [apply (IH fuel c3 (argv ++ [w]) p3 rs ts); [lia|lia|done|done|rewrite length_app; simpl in *; lia|done|done|done]|].
    intros c4 p4 (H4 & H5 & H6). split_and!; [done|lia|lia|done].
Qed.

Lemma backs_read k : forall fuel c p t ts, (p <= es)%nat -> (es - p < fuel)%nat -> view (slice buf) c = t -> not_next [AMP] ts ->
  spells (drop p text) (replicate k (Sym AMP) ++ ts) -> reads (parsebacks buf es fuel c) p (Nat.iter k TBack t) ts.
Proof.
  induction k as [|k IH]; intros fuel c p t ts Hp Hf Hv Hn Hs; (destruct fuel as [|fuel]; [lia|]); cbn [parsebacks];
    (eapply (runs_look _ _ _ _ _ Hp); [syms|exact Hs|]); intros p1 Hp1 Hs1.
  - simpl in Hs1 |- *. rewrite (not_next_false _ _ Hn). by apply runs_ret.
  - cbn [replicate app] in Hs1. eapply (runs_token _ _ _ _ _ (proj2 Hp1) Hs1). intros q e p2 _ Hp2 Hs2.
    rewrite Nat.iter_succ_r. eapply runs_conseq; [apply (IH fuel (BACK c) p2 (TBack t) ts); [lia|lia|simpl; by rewrite Hv|done|done]|].
    intros c' p' (H1 & H2 & H3). split_and!; [done|lia|lia|done].
Qed.

Definition exec_parses t : Prop := forall fuel p rs ts, (p <= es)%nat -> (4 * (es - p) + 2 <= fuel)%nat -> Forall wf_redir rs ->
  next_in exec_stop ts -> spells (drop p text) (unparse 3 t ++ redir_toks rs ++ ts) -> reads (parseexec buf es fuel) p (add_redirs t rs) ts.
Definition pipe_parses t : Prop := forall fuel p ts, (p <= es)%nat -> (4 * (es - p) + 3 <= fuel)%nat ->
  next_in [RPAREN; AMP; SEMI] ts -> spells (drop p text) (unparse 2 t ++ ts) -> reads (parsepipe buf es fuel) p t ts.
Definition backs_parses t : Prop := forall k fuel p ts, (p <= es)%nat -> (4 * (es - p) + 3 <= fuel)%nat ->
  next_in [RPAREN; SEMI] ts -> spells (drop p text) (unparse 1 t ++ replicate k (Sym AMP) ++ ts) ->
  reads (c <- parsepipe buf es fuel ;; parsebacks buf es fuel c) p (Nat.iter k TBack t) ts.
Definition line_parses t : Prop := forall fuel p ts, (p <= es)%nat -> (4 * (es - p) + 4 <= fuel)%nat ->
  next_in [RPAREN] ts -> spells (drop p text) (unparse 0 t ++ ts) -> reads (parseline buf es fuel) p t ts.

Lemma exec_pipe t : exec_parses t -> unparse 2 t = unparse 3 t -> pipe_parses t.
Proof.
  intros He Eu fuel p ts Hp Hf Hn Hs. destruct fuel as [|fuel]; [lia|]. cbn [parsepipe]. rewrite Eu in Hs. apply runs_bind.
  eapply runs_conseq; [apply (He fuel p [] ts); [done|lia|done|by apply (next_sub _ _ _ Hn); unfold exec_stop; syms|done]|].
  intros c1 p1 (H1 & H2 & H3). eapply (runs_look _ _ _ _ _ (proj2 H2)); [syms|exact H3|]. intros p2 Hp2 Hs2.
  rewrite not_next_false by (apply (next_not _ _ _ Hn); intros c; syms). apply runs_ret. split_and!; [done|lia|lia|done].
Qed.
Lemma pipe_pipe l r : exec_parses l -> pipe_parses r -> pipe_parses (TPipe l r).
Proof.
  intros Hl Hr fuel p ts Hp Hf Hn Hs. destruct fuel as [|fuel]; [lia|]. cbn [parsepipe]. cbn [unparse] in Hs. change (2 <=? 2)%nat with true in Hs. cbn iota in Hs.
  rewrite <- app_assoc in Hs. apply runs_bind.
  eapply runs_conseq; [apply (Hl fuel p [] (Sym BAR :: unparse 2 r ++ ts)); [done|lia|done|unfold next_in, exec_stop; simpl; set_solver|done]|].
  intros c1 p1 (H1 & H2 & H3). eapply (runs_look _ _ _ _ _ (proj2 H2)); [syms|exact H3|]. intros p2 Hp2 Hs2. cbn iota.
  eapply (runs_token _ _ _ _ _ (proj2 Hp2) Hs2). intros q e p3 _ Hp3 Hs3. apply runs_bind.
  eapply runs_conseq; [apply (Hr fuel p3 ts); [lia|lia|done|done]|]. intros c4 p4 (H4 & H5 & H6). apply runs_ret. simpl.
  split_and!; [by rewrite H1, H4|lia|lia|done].
Qed.
Lemma pipe_backs t : pipe_parses t -> unparse 1 t = unparse 2 t -> backs_parses t.
Proof.
  intros Hp1 Eu k fuel p ts Hp Hf Hn Hs. rewrite Eu in Hs. apply runs_bind. eapply runs_conseq; [apply (Hp1 fuel p (replicate k (Sym AMP) ++ ts)); [done|lia| |done]|].
  - destruct k; [by apply (next_sub _ _ _ Hn); syms|]. simpl. syms.
  - intros c1 p1 (H1 & H2 & H3). eapply runs_conseq; [apply (backs_read k fuel c1 p1 t ts); [lia|lia|done| |done]|].
    + apply (next_not _ _ _ Hn). intros c. syms.
    + intros c' p' (H4 & H5 & H6). split_and!; [done|lia|lia|done].
Qed.
Lemma backs_line t : backs_parses t -> unparse 0 t = unparse 1 t -> line_parses t.
Proof.
  intros Hb Eu fuel p ts Hp Hf Hn Hs. destruct fuel as [|fuel]; [lia|]. cbn [parseline]. rewrite Eu in Hs.
  pose proof (Hb 0%nat fuel p ts Hp ltac:(lia) (next_sub _ [RPAREN; SEMI] _ Hn ltac:(set_solver)) Hs) as Hrun.
  unfold reads, runs in *. rewrite <- bind_assoc. unfold mbind at 1. destruct (mbind _ _ p) as [c1 p1|]; [|done]. destruct Hrun as (H1 & H2 & H3).
  eapply (runs_look _ _ _ _ _ (proj2 H2)); [syms|exact H3|]. intros p2 Hp2 Hs2.
  rewrite not_next_false by (apply (next_not _ _ _ Hn); intros c; syms). apply runs_ret. split_and!; [done|lia|lia|done].
Qed.
Lemma list_line l r : backs_parses l -> line_parses r -> line_parses (TList l r).
Proof.
  intros Hl Hr fuel p ts Hp Hf Hn Hs. destruct fuel as [|fuel]; [lia|]. cbn [parseline]. cbn [unparse] in Hs. change (0 <=? 0)%nat with true in Hs. cbn iota in Hs.
  rewrite <- app_assoc in Hs. pose proof (Hl 0%nat fuel p (Sym SEMI :: unparse 0 r ++ ts) Hp ltac:(lia) ltac:(unfold next_in; simpl; set_solver) Hs) as Hrun.
  unfold reads, runs in *. rewrite <- bind_assoc. unfold mbind at 1. destruct (mbind _ _ p) as [c1 p1|]; [|done]. destruct Hrun as (H1 & H2 & H3).
  eapply (runs_look _ _ _ _ _ (proj2 H2)); [syms|exact H3|]. intros p2 Hp2 Hs2. cbn iota.
  eapply (runs_token _ _ _ _ _ (proj2 Hp2) Hs2). intros q e p3 _ Hp3 Hs3. apply runs_bind.
  eapply runs_conseq; [apply (Hr fuel p3 ts); [lia|lia|done|done]|]. intros c4 p4 (H4 & H5 & H6). apply runs_ret. simpl.
  split_and!; [by rewrite H4, H1|lia|lia|done].
Qed.
Lemma line_exec t : line_parses t -> unparse 3 t = Sym LPAREN :: unparse 0 t ++ [Sym RPAREN] -> exec_parses t.
Proof.
  intros Hl Eu fuel p rs ts Hp Hf Hrs Hn Hs. destruct fuel as [|[|fuel]]; [lia|lia|]. cbn [parseexec parseblock]. rewrite Eu in Hs.
  cbn [app] in Hs. rewrite <- app_assoc in Hs.
  eapply (runs_look _ _ _ _ _ Hp); [syms|exact Hs|]. intros p1 Hp1 Hs1. cbn iota.
  eapply (runs_look _ _ _ _ _ (proj2 Hp1)); [syms|exact Hs1|]. intros p2 Hp2 Hs2. cbn iota.
  eapply (runs_token _ _ _ _ _ (proj2 Hp2) Hs2). intros q e p3 _ Hp3 Hs3. apply runs_bind.
  eapply runs_conseq; [apply (Hl fuel p3 ([Sym RPAREN] ++ redir_toks rs ++ ts)); [lia|lia|unfold next_in; simpl; set_solver|done]|].
  intros c4 p4 (H4 & H5 & H6). eapply (runs_look _ _ _ _ _ (proj2 H5)); [syms|exact H6|]. intros p5 Hp5 Hs5. cbn iota.
  eapply (runs_token _ _ _ _ _ (proj2 Hp5) Hs5). intros q6 e6 p6 _ Hp6 Hs6.
  eapply runs_conseq; [apply (redirs_read fuel c4 p6 t rs ts); [lia|lia|done|done| |done]|].
  - apply (next_not _ _ _ Hn). unfold exec_stop. intros c. syms.
  - intros c' p' (H7 & H8 & H9). split_and!; [done|lia|lia|done].
Qed.

Lemma words_exec argv : (length argv < MAXARGS)%nat -> exec_parses (TExec argv).
Proof.
  intros Hlen fuel p rs ts Hp Hf Hrs Hn Hs. destruct fuel as [|fuel]; [lia|]. cbn [parseexec]. cbn [unparse] in Hs.
  assert (Hn' : not_next [LESS; GREATER] ts) by (apply (next_not _ _ _ Hn); unfold exec_stop; intros c; syms).
  eapply (runs_look _ _ _ _ _ Hp); [syms|exact Hs|]. intros p1 Hp1 Hs1. rewrite not_next_false.
  2: { destruct argv; [|done]. simpl. destruct rs as [|[w [mode fd]] rs]; [apply (next_not _ _ _ Hn); unfold exec_stop; intros c; syms|].
       unfold not_next. simpl. unfold redir_tok. repeat case_match; simplify_eq; simpl; syms. }
  apply runs_bind. destruct argv as [|w argv].
  - eapply runs_conseq; [apply (redirs_read fuel (EXEC []) p1 (TExec []) rs ts); [lia|lia|done|done|done|done]|].
    intros c2 p2 (H1 & H2 & H3). destruct fuel as [|fuel]; [lia|].
    eapply runs_conseq; [apply (args_stop fuel 0 c2 p2 ts); [lia|done|done]|]. rewrite H1. intros c4 p4 (H4 & H5 & H6). split_and!; [done|lia|lia|done].
  - eapply runs_conseq; [apply (redirs_read fuel (EXEC []) p1 (TExec []) [] ((Word <$> w :: argv) ++ redir_toks rs ++ ts)); [lia|lia|done|done|done|done]|].
    intros c2 p2 (H1 & H2 & H3).
    eapply runs_conseq; [apply (args_read (w :: argv) fuel c2 [] p2 rs ts); [lia|lia|done|done|simpl in *; lia|done|done|done]|].
    intros c4 p4 (H4 & H5 & H6). split_and!; [done|lia|lia|done].
Qed.
Lemma redir_exec t file mode fd : wf_word file -> (mode, fd) ∈ redirection -> exec_parses t -> exec_parses (TRedir t file mode fd).
Proof.
  intros Hw Hr He fuel p rs ts Hp Hf Hrs Hn Hs. cbn [unparse] in Hs. rewrite <- app_assoc in Hs.
  apply (He fuel p ((file, (mode, fd)) :: rs) ts); [done|done| |done|done]. by constructor.
Qed.
Lemma back_backs t : backs_parses t -> backs_parses (TBack t).
Proof.
  intros Hb k fuel p ts Hp Hf Hn Hs. cbn [unparse] in Hs. change (1 <=? 1)%nat with true in Hs. cbn iota in Hs. rewrite <- app_assoc in Hs.
  rewrite <- Nat.iter_succ_r. by apply (Hb (S k) fuel p ts).
Qed.

(** Every tree is parsed wherever its tokens are spelled. *)
Lemma tree_parses t : wf_tree t -> exec_parses t /\ pipe_parses t /\ backs_parses t /\ line_parses t.
Proof.
  induction t as [argv|t IH file mode fd|l IHl r IHr|l IHl r IHr|t IH]; intros Hwf; simpl in Hwf.
  1,2: assert (He : exec_parses _) by (first [apply words_exec; apply Hwf|destruct Hwf as (? & ? & ?); apply redir_exec; [done|done|by apply IH]]);
       pose proof (exec_pipe _ He eq_refl) as H2; pose proof (pipe_backs _ H2 eq_refl) as H1; by pose proof (backs_line _ H1 eq_refl) as H0.
  - destruct Hwf as [Hl Hr]. assert (H2 : pipe_parses (TPipe l r)) by (apply pipe_pipe; [by apply IHl|by apply IHr]).
    pose proof (pipe_backs _ H2 eq_refl) as H1. pose proof (backs_line _ H1 eq_refl) as H0. by pose proof (line_exec _ H0 eq_refl) as H3.
  - destruct Hwf as [Hl Hr]. assert (H0 : line_parses (TList l r)) by (apply list_line; [by apply IHl|by apply IHr]).
    pose proof (line_exec _ H0 eq_refl) as H3. pose proof (exec_pipe _ H3 eq_refl) as H2. by pose proof (pipe_backs _ H2 eq_refl) as H1.
  - assert (H1 : backs_parses (TBack t)) by (by apply back_backs, IH). pose proof (backs_line _ H1 eq_refl) as H0.
    pose proof (line_exec _ H0 eq_refl) as H3. by pose proof (exec_pipe _ H3 eq_refl) as H2.
Qed.
End grammar.

Lemma parse_tree buf t : wf_tree t -> spells (cstr buf) (unparse 0 t) ->
  exists c buf', parsecmd buf = Ok c buf' /\ view (fun w => cstr (drop w.1 buf')) c = t.
Proof.
  intros Hwf Hs. destruct (tree_parses buf t Hwf) as (_ & _ & _ & Hline).
  assert (Hrun : reads buf (parseline buf (length (cstr buf)) (parse_fuel (length (cstr buf)))) 0 t []).
  { apply Hline; [lia|unfold parse_fuel; lia|done|by rewrite app_nil_r]. }
  destruct (runs_inv _ _ _ Hrun) as (c & p & Hc & Hv & Hp & Hsp).
  assert (Hpc : parsecmd buf = Ok c (nulterminate c buf)).
  { unfold parsecmd, mbind at 1, mget. rewrite Hc. destruct (skip_spells buf p [] Hsp) as (_ & Hsq & Htr); [lia|].
    assert (Hd : drop (skip_white buf (length (cstr buf)) p) (cstr buf) = []) by (by apply spells_nil).
    apply drop_end in Hd. destruct (skip_white_spec buf (length (cstr buf)) p ltac:(lia)) as [Hq _].
    replace (skip_white buf (length (cstr buf)) p) with (length (cstr buf)) by lia. by rewrite Nat.eqb_refl. }
  exists c, (nulterminate c buf). split; [done|]. rewrite <- Hv. apply view_ext. intros w Hw.
  apply word_string; [|done]. by apply (parsecmd_inv buf c (nulterminate c buf)).
Qed.

(** C10. The shell's grammar: a line that spells the tokens of a command tree, with any white space between them, is parsed as that
    tree: the strings that argv and file point to in the NUL-terminated buffer, the modes and descriptors of the redirections, and
    the nesting of pipes, lists, background commands and redirections are those of the tree. *)
Theorem parse_unparse buf t : wf_tree t -> spells (cstr buf) (unparse 0 t) ->
  exists c buf', parsecmd buf = Ok c buf' /\ view (fun w => cstr (drop w.1 buf')) c = t.
Proof. apply parse_tree. Qed.

Definition line2 : list Z := bytes_of "ls  -l|wc >f" ++ [10; 0].
Definition tree2 : tree := TPipe (TExec [bytes_of "ls"; bytes_of "-l"]) (TRedir (TExec [bytes_of "wc"]) (bytes_of "f") 1537 1).
Ltac decided := apply (bool_decide_unpack _); vm_compute; exact I.
(** The next token of a concrete line, after the white space [ws]. *)
Ltac next_token ws :=
  lazymatch goal with |- spells _ (?t :: ?ts) => refine (spells_tok ws t _ ts _ _ _ _) end; [decided|decided|reflexivity || done|].
Lemma parse_unparse_witness : exists c buf', parsecmd line2 = Ok c buf' /\ view (fun w => cstr (drop w.1 buf')) c = tree2.
Proof.
  apply parse_unparse.
  - repeat split; try (by constructor); try decided; simpl; unfold MAXARGS; lia.
  - vm_compute.
    next_token (@nil Z). next_token [32; 32]. next_token (@nil Z). next_token (@nil Z). next_token [32]. next_token (@nil Z).
    apply spells_end. decided.
Defined.
