(* ===== verification/ShRun.v ===== *)
(** * The shell's commands as processes: user/sh.c

    [prog] is what a user process asks of the kernel, one constructor for each system call the
    shell makes; fprintf is one write.  runcmd and main are translated to it.  [run] gives the
    behaviour of a process with a table of open files: descriptors are allocated as the kernel's
    fdalloc does, the lowest free one first; fork copies the table; whether fork, pipe, open and
    exec succeed is left to the world the process runs in.

    [denote] says what a command means without any descriptors of its own.  The theorems say
    that runcmd implements it, and that a line typed at the prompt is run as the command it spells. *)

From S2P Require Import Prelude Ulib Sh ShProps ShTree.

Inductive prog :=
  | Exit (status : Z)
  | Exec (path : list Z) (argv : list (list Z)) (failed : prog)
  | Open (path : list Z) (mode : Z) (k : Z -> prog)
  | Close (fd : Z) (k : prog)
  | Dup (fd : Z) (k : Z -> prog)
  | Pipe (k : option (Z * Z) -> prog)
  | Fork (k : Z -> prog)
  | Wait (k : prog)
  | Chdir (path : list Z) (k : Z -> prog)
  | Write (fd : Z) (bytes : list Z) (k : prog).

(** ** The code *)

Definition sh_panic (s : list Z) : prog := Write 2 (s ++ [10]) (Exit 1).
Definition fork1 (k : Z -> prog) : prog :=
  Fork (fun pid => if pid =? -1 then sh_panic (bytes_of "fork") else k pid).

Section runcmd.
(** The string a pointer into the buffer points to. *)
Context (str : nat -> list Z).

Fixpoint runcmd (c : cmd) : prog :=
  match c with
  | EXEC args =>
      match args with
      | [] => Exit 1
      | (a0, _) :: _ =>
          Exec (str a0) ((fun a => str a.1) <$> args)
            (Write 2 (bytes_of "exec " ++ str a0 ++ bytes_of " failed" ++ [10]) (Exit 0))
      end
  | REDIR c file _ mode fd =>
      Close fd (Open (str file) mode (fun r =>
        if r <? 0 then Write 2 (bytes_of "open " ++ str file ++ bytes_of " failed" ++ [10]) (Exit 1)
        else runcmd c))
  | LIST l r =>
      fork1 (fun pid =>
        if pid =? 0 then runcmd l
        else Wait (runcmd r))
  | PIPE l r =>
      Pipe (fun p =>
        match p with
        | None => sh_panic (bytes_of "pipe")
        | Some (p0, p1) =>
            fork1 (fun pid =>
              if pid =? 0 then Close 1 (Dup p1 (fun _ => Close p0 (Close p1 (runcmd l))))
              else
                fork1 (fun pid =>
                  if pid =? 0 then Close 0 (Dup p0 (fun _ => Close p0 (Close p1 (runcmd r))))
                  else Close p0 (Close p1 (Wait (Wait (Exit 0))))))
        end)
  | BACK c =>
      fork1 (fun pid =>
        if pid =? 0 then runcmd c
        else Exit 0)
  end.
End runcmd.

(** What getcmd leaves in buf[100] when gets reads [line]; [None] at the end of the input. *)
Definition NBUF : nat := 100.
Definition line_buf (line : list Z) : list Z := line ++ replicate (NBUF - length line) 0.
Definition getcmd (input : list Z) : option (list Z) * list Z :=
  let '(line, rest) := gets_line (Z.of_nat NBUF) input in
  ((if chr (line_buf line) 0 =? 0 then None else Some (line_buf line)), rest).

Definition PROMPT : list Z := bytes_of "$ ".
Definition is_cd (buf : list Z) : bool := (chr buf 0 =? 99) && (chr buf 1 =? 100) && (chr buf 2 =? 32).
(** [runcmd(parsecmd(buf))] *)
Definition run_line (buf : list Z) : prog :=
  match parsecmd buf with
  | Ok c buf' => runcmd (fun s => cstr (drop s buf')) c
  | Err (Panic msg) => sh_panic (bytes_of msg)
  | Err _ => Exit 1
  end.
(** The loop of main; [bufs] is what the successive calls of getcmd put in the buffer. *)
Fixpoint main_loop (bufs : list (list Z)) : prog :=
  match bufs with
  | [] => Write 2 PROMPT (Exit 0)
  | buf :: bufs' =>
      Write 2 PROMPT
        (if is_cd buf then
           let path := cstr (drop 3 (<[(length (cstr buf) - 1)%nat := 0]> buf)) in
           Chdir path (fun r =>
             if r <? 0 then Write 2 (bytes_of "cannot cd " ++ path ++ [10]) (main_loop bufs')
             else main_loop bufs')
         else
           fork1 (fun pid => if pid =? 0 then run_line buf else Wait (main_loop bufs')))
  end.
(** [while((fd = open("console", O_RDWR)) >= 0)]; a table has at most three free descriptors below 3 *)
Definition CONSOLE : list Z := bytes_of "console".
Definition O_RDWR : Z := 2.
Fixpoint open_console (fuel : nat) (k : prog) : prog :=
  match fuel with
  | O => k
  | S fuel' =>
      Open CONSOLE O_RDWR (fun fd =>
        if fd <? 0 then k
        else if 3 <=? fd then Close fd k
        else open_console fuel' k)
  end.
Definition main (bufs : list (list Z)) : prog := open_console 4 (main_loop bufs).

(** ** Processes *)

(** An open file: one the shell was started with, a file it opened, or an end of a pipe.  A process is
    named by the forks that led to it, a pipe by its process and the number of calls before it. *)
Inductive file :=
  | Given (n : nat)
  | Named (path : list Z) (mode : Z)
  | PipeEnd (p : list nat * nat) (write : bool).

(** What a process does; a program it becomes, and a wait, come with the files that are open then. *)
Inductive beh :=
  | Exited (status : Z)
  | Became (path : list Z) (argv : list (list Z)) (fds : list (option file))
  | Forked (child parent : beh)
  | Waited (fds : list (option file)) (k : beh)
  | Moved (path : list Z) (k : beh)
  | Wrote (fd : Z) (bytes : list Z) (k : beh).

(** The lowest free descriptor. *)
Fixpoint lowest (fds : list (option file)) : option nat :=
  match fds with
  | [] => None
  | None :: _ => Some 0%nat
  | Some _ :: fds' => S <$> lowest fds'
  end.

(** ** The descriptors of a command *)

(** Standard input and output are open, and two descriptors are free for a pipe. *)
Record ready (fds : list (option file)) : Prop := {
  re_in : exists f, fds !! 0%nat = Some (Some f);
  re_out : exists f, fds !! 1%nat = Some (Some f);
  re_free : exists i j, i <> j /\ fds !! i = Some None /\ fds !! j = Some None
}.

Section descriptors.
Implicit Types (fds : list (option file)) (i j x : nat) (v a b : option file).

Lemma lowest_eq fds : forall i, fds !! i = Some None -> (forall j, (j < i)%nat -> exists f, fds !! j = Some (Some f)) -> lowest fds = Some i.
Proof.
  induction fds as [|o fds IH]; intros i Hi Hj; [done|]. destruct i as [|i]; [injection Hi as ->; done|].
  destruct (Hj 0%nat ltac:(lia)) as (f & [= ->]). simpl. rewrite (IH i); [done|done|]. intros j Hlt. apply (Hj (S j)). lia.
Qed.
Lemma lowest_some fds : forall i, fds !! i = Some None -> exists k, lowest fds = Some k /\ (k <= i)%nat /\ fds !! k = Some None.
Proof.
  induction fds as [|o fds IH]; intros i Hi; [done|]. destruct o as [f|]; [|by exists 0%nat; split_and!; [..|lia|]].
  destruct i as [|i]; [done|]. destruct (IH i Hi) as (k & E & Hk & Hf). exists (S k). simpl. rewrite E. split_and!; [done|lia|done].
Qed.

Lemma ready_insert fds x (v : file) : ready fds -> (x < 2)%nat -> ready (<[x := Some v]> fds).
Proof.
  intros [[f0 H0] [f1 H1] (i & j & Hij & Hi & Hj)] Hx.
  assert (Hl : (x < length fds)%nat). { apply lookup_lt_Some in H1. lia. }
  assert (Hne : forall k, fds !! k = Some None -> x <> k). { intros k Hk ->. destruct k as [|[|k]]; [congruence|congruence|lia]. }
  split.
  - destruct (decide (x = 0%nat)) as [->|]; [exists v; by rewrite list_lookup_insert_eq|exists f0; by rewrite list_lookup_insert_ne].
  - destruct (decide (x = 1%nat)) as [->|]; [exists v; by rewrite list_lookup_insert_eq|exists f1; by rewrite list_lookup_insert_ne].
  - exists i, j. split; [done|]. by rewrite !list_lookup_insert_ne by (by apply Hne).
Qed.
(** close(fd) and a call that allocates a descriptor put a file in place of standard input or output. *)
Lemma lowest_std fds x : ready fds -> (x < 2)%nat -> lowest (<[x := None]> fds) = Some x.
Proof.
  intros [[f0 H0] [f1 H1] _] Hx. assert (Hl : (x < length fds)%nat). { apply lookup_lt_Some in H1. lia. }
  apply lowest_eq; [by rewrite list_lookup_insert_eq|]. intros j Hj. replace j with 0%nat by lia. exists f0. by rewrite list_lookup_insert_ne by lia.
Qed.

(** The two descriptors of a new pipe. *)
Lemma pipe_ends fds r : ready fds -> exists i j, lowest fds = Some i /\ lowest (<[i := Some r]> fds) = Some j /\ i <> j /\ (2 <= i)%nat /\ (2 <= j)%nat /\
  fds !! i = Some None /\ fds !! j = Some None.
Proof.
  intros [[f0 H0] [f1 H1] (a & b & Hab & Ha & Hb)]. destruct (lowest_some fds a Ha) as (i & Ei & _ & Hi).
  assert (exists c, c <> i /\ fds !! c = Some None) as (c & Hci & Hc). { destruct (decide (a = i)) as [->|]; [by exists b|by exists a]. }
  destruct (lowest_some (<[i := Some r]> fds) c) as (j & Ej & _ & Hj); [by rewrite list_lookup_insert_ne|]. exists i, j.
  assert (Hij : i <> j). { intros <-. rewrite list_lookup_insert_eq in Hj; [done|]. by apply lookup_lt_Some in Hi. }
  rewrite list_lookup_insert_ne in Hj by done. split_and!; [done|done|done| | |done|done].
  - destruct i as [|[|i]]; [congruence|congruence|lia].
  - destruct j as [|[|j]]; [congruence|congruence|lia].
Qed.
Lemma pipe_gone fds i j a b : fds !! i = Some None -> fds !! j = Some None -> <[j := None]> (<[i := None]> (<[j := a]> (<[i := b]> fds))) = fds.
Proof.
  intros Hi Hj. destruct (decide (i = j)) as [->|Hij]; [by rewrite !list_insert_insert_eq, list_insert_id|].
  rewrite (list_insert_insert_ne _ i j), list_insert_insert_eq, list_insert_insert_eq by done. rewrite (list_insert_id fds i) by done. by apply list_insert_id.
Qed.
Lemma pipe_closed fds i j x v a b : fds !! i = Some None -> fds !! j = Some None -> x <> i -> x <> j ->
  <[j := None]> (<[i := None]> (<[x := v]> (<[j := a]> (<[i := b]> fds)))) = <[x := v]> fds.
Proof.
  intros Hi Hj Hxi Hxj. rewrite (list_insert_insert_ne _ i x) by done. rewrite (list_insert_insert_ne _ j x) by done. f_equal. by apply pipe_gone.
Qed.
End descriptors.

Section run.
Context (open_ok : list Z -> Z -> bool) (exec_ok : list Z -> bool) (fork_ok pipe_ok : list nat -> bool) (chdir_ok : list Z -> bool).
Context (pid_of : list nat -> positive).

(** [me] is the process and [n] the number of its forks and pipes so far. *)
Fixpoint run (p : prog) (me : list nat) (n : nat) (fds : list (option file)) : beh :=
  match p with
  | Exit status => Exited status
  | Exec path argv failed => if exec_ok path then Became path argv fds else run failed me n fds
  | Open path mode k =>
      match (if open_ok path mode then lowest fds else None) with
      | Some i => run (k (Z.of_nat i)) me n (<[i := Some (Named path mode)]> fds)
      | None => run (k (-1)) me n fds
      end
  | Close fd k => run k me n (<[Z.to_nat fd := None]> fds)
  | Dup fd k =>
      match fds !! Z.to_nat fd, lowest fds with
      | Some (Some f), Some i => run (k (Z.of_nat i)) me n (<[i := Some f]> fds)
      | _, _ => run (k (-1)) me n fds
      end
  | Pipe k =>
      match lowest fds with
      | Some i =>
          let fds1 := <[i := Some (PipeEnd (me, n) false)]> fds in
          match (if pipe_ok (me ++ [n]) then lowest fds1 else None) with
          | Some j => run (k (Some (Z.of_nat i, Z.of_nat j))) me (S n) (<[j := Some (PipeEnd (me, n) true)]> fds1)
          | None => run (k None) me (S n) fds
          end
      | None => run (k None) me (S n) fds
      end
  | Fork k =>
      if fork_ok (me ++ [n]) then
        Forked (run (k 0) (me ++ [n]) 0 fds) (run (k (Zpos (pid_of (me ++ [n])))) me (S n) fds)
      else run (k (-1)) me (S n) fds
  | Wait k => Waited fds (run k me n fds)
  | Chdir path k => Moved path (run (k (if chdir_ok path then 0 else -1)) me n fds)
  | Write fd bytes k => Wrote fd bytes (run k me n fds)
  end.

(** ** What a command means *)

Definition spawn (me : list nat) (n : nat) (child parent : beh) : beh :=
  if fork_ok (me ++ [n]) then Forked child parent else Wrote 2 (bytes_of "fork" ++ [10]) (Exited 1).
Definition fails (what name : list Z) (status : Z) : beh := Wrote 2 (what ++ name ++ bytes_of " failed" ++ [10]) (Exited status).

Fixpoint denote (t : tree) (me : list nat) (n : nat) (fds : list (option file)) : beh :=
  match t with
  | TExec [] => Exited 1
  | TExec (path :: args) => if exec_ok path then Became path (path :: args) fds else fails (bytes_of "exec ") path 0
  | TRedir t file mode fd =>
      if open_ok file mode then denote t me n (<[Z.to_nat fd := Some (Named file mode)]> fds) else fails (bytes_of "open ") file 1
  | TList l r => spawn me n (denote l (me ++ [n]) 0 fds) (Waited fds (denote r me (S n) fds))
  | TPipe l r =>
      if pipe_ok (me ++ [n]) then
        spawn me (S n) (denote l (me ++ [S n]) 0 (<[1%nat := Some (PipeEnd (me, n) true)]> fds))
          (spawn me (S (S n)) (denote r (me ++ [S (S n)]) 0 (<[0%nat := Some (PipeEnd (me, n) false)]> fds)) (Waited fds (Waited fds (Exited 0))))
      else Wrote 2 (bytes_of "pipe" ++ [10]) (Exited 1)
  | TBack t => spawn me n (denote t (me ++ [n]) 0 fds) (Exited 0)
  end.

Section denotes.
Context (str : nat -> list Z).
Notation viewed := (view (fun w => str w.1)).

(** Redirections are of standard input or output. *)
Fixpoint legal (c : cmd) : Prop :=
  match c with
  | EXEC _ => True
  | REDIR c _ _ _ fd => legal c /\ (fd = 0 \/ fd = 1)
  | PIPE l r | LIST l r => legal l /\ legal r
  | BACK c => legal c
  end.

Lemma run_fork1 k me n fds :
  run (fork1 k) me n fds = spawn me n (run (k 0) (me ++ [n]) 0 fds) (run (k (Zpos (pid_of (me ++ [n])))) me (S n) fds).
Proof. unfold fork1, spawn. cbn [run]. by destruct (fork_ok (me ++ [n])). Qed.

Lemma runcmd_run c : legal c -> forall me n fds, ready fds -> run (runcmd str c) me n fds = denote (viewed c) me n fds.
Proof.
  induction c as [args|c IH file efile mode fd|l IHl r IHr|l IHl r IHr|c IH]; intros Hc me n fds Hr; cbn [runcmd view].
  - destruct args as [|[a0 e0] args]; done.
  - destruct Hc as [Hc Hfd]. assert (Hx : (Z.to_nat fd < 2)%nat) by lia. cbn [run denote fst]. destruct (open_ok (str file) mode); [|done].
    rewrite (lowest_std _ _ Hr Hx), Z2Nat.id by lia. destruct (Z.ltb_spec fd 0) as [|_]; [lia|]. rewrite list_insert_insert_eq.
    apply IH; [done|]. by apply ready_insert.
  - destruct Hc as [Hl Hr']. cbn [run denote]. destruct (pipe_ends fds (PipeEnd (me, n) false) Hr) as (i & j & Ei & Ej & Hij & Hi2 & Hj2 & Hi & Hj).
    rewrite Ei. destruct (pipe_ok (me ++ [n])); [|done]. rewrite Ej. set (F := <[j := Some _]> _).
    assert (HF : forall x f, (x < 2)%nat -> fds !! x = Some (Some f) -> F !! x = Some (Some f)).
    { intros x f Hx Hf. unfold F. by rewrite !list_lookup_insert_ne by lia. }
    assert (Hends : F !! i = Some (Some (PipeEnd (me, n) false)) /\ F !! j = Some (Some (PipeEnd (me, n) true))).
    { apply lookup_lt_Some in Hi, Hj. unfold F. split; [rewrite list_lookup_insert_ne by lia|]; apply list_lookup_insert_eq; by rewrite ?length_insert. }
    assert (Hstd : forall x, (x < 2)%nat -> lowest (<[x := None]> F) = Some x).
    { intros x Hx. destruct Hr as [[f0 H0] [f1 H1] _]. apply lowest_eq.
      - apply list_lookup_insert_eq. unfold F. rewrite !length_insert. apply lookup_lt_Some in H1. lia.
      - intros k Hk. replace k with 0%nat by lia. exists f0. rewrite list_lookup_insert_ne by lia. apply HF; [lia|done]. }
    rewrite run_fork1. cbn [Z.eqb]. f_equal; [|rewrite run_fork1; cbn [Z.eqb]; f_equal].
    + cbn [run]. change (Z.to_nat 1) with 1%nat. rewrite Nat2Z.id, list_lookup_insert_ne, (proj2 Hends), Hstd, list_insert_insert_eq, Nat2Z.id by lia.
      unfold F. rewrite (pipe_closed fds i j 1) by (done || lia). apply IHl; [done|]. by apply ready_insert; [|lia].
    + cbn [run]. change (Z.to_nat 0) with 0%nat. rewrite Nat2Z.id, list_lookup_insert_ne, (proj1 Hends), Hstd, list_insert_insert_eq, Nat2Z.id by lia.
      unfold F. rewrite (pipe_closed fds i j 0) by (done || lia). apply IHr; [done|]. by apply ready_insert; [|lia].
    + cbn [run]. rewrite !Nat2Z.id. unfold F. by rewrite pipe_gone.
  - destruct Hc as [Hl Hr']. rewrite run_fork1. cbn [Z.eqb run denote]. by rewrite IHl, IHr.
  - rewrite run_fork1. cbn [Z.eqb run denote]. by rewrite IH.
Qed.
End denotes.

Lemma wf_legal buf es c : wf_cmd buf es c -> legal c.
Proof.
  induction c as [args|c IH file efile mode fd|l IHl r IHr|l IHl r IHr|c IH]; simpl; try tauto. intros (H1 & _ & H2). split; [auto|].
  unfold redirection in H2. rewrite !elem_of_cons in H2. destruct_or!; [..|by apply elem_of_nil in H2]; injection H2 as _ ->; tauto.
Qed.

(** C11. Pipes and redirections without leaks: from a table of open files with standard input and output open and two free
    descriptors, what runcmd does with close, open, pipe, dup, fork and exec for a command that parsecmd returned is what the command
    means: each program of it is run with the table the shell was given, except that its standard input and output are the files and
    pipe ends the command names; no other descriptor is left open, in the programs or in the processes that wait for them. *)
Theorem runcmd_denotes line c buf me n fds : parsecmd line = Ok c buf -> ready fds ->
  run (runcmd (fun s => cstr (drop s buf)) c) me n fds = denote (view (fun w => cstr (drop w.1 buf)) c) me n fds.
Proof. intros Hp Hr. destruct (parsecmd_inv _ _ _ Hp) as [Hc _]. by apply runcmd_run; [eapply wf_legal|]. Qed.

(** ** A line typed at the prompt *)

(** The table with the console in place of the closed ones of the first three descriptors. *)
Definition with_console (fds : list (option file)) : list (option file) :=
  ((fun o : option file => match o with None => Some (Named CONSOLE O_RDWR) | _ => o end) <$> take 3 fds) ++ drop 3 fds.

Lemma lowest_free fds k : lowest fds = Some k -> fds !! k = Some None.
Proof.
  revert k. induction fds as [|[f|] fds IH]; intros k; simpl; [done| |by intros [= <-]].
  destruct (lowest fds) as [j|]; [|done]. intros [= <-]. by apply IH.
Qed.
Lemma open_console_run k me n fds : open_ok CONSOLE O_RDWR = true -> (3 <= length fds)%nat ->
  run (open_console 4 k) me n fds = run k me n (with_console fds).
Proof.
  intros Ho Hlen. destruct fds as [|a [|b [|c rest]]]; simpl in Hlen; try lia. clear Hlen.
  assert (Hlast : forall m x y z, run (open_console (S m) k) me n (Some x :: Some y :: Some z :: rest) = run k me n (Some x :: Some y :: Some z :: rest)).
  { intros m x y z. cbn [open_console run]. rewrite Ho. cbn [lowest]. destruct (lowest rest) as [j|] eqn:Ej; [|done].
    cbn [fmap option_fmap option_map]. destruct (Z.ltb_spec (Z.of_nat (S (S (S j)))) 0) as [|_]; [lia|]. destruct (Z.leb_spec 3 (Z.of_nat (S (S (S j))))) as [_|]; [|lia].
    cbn [run]. rewrite Nat2Z.id, list_insert_insert_eq, list_insert_id; [done|]. by apply lowest_free in Ej. }
  assert (Hopen : forall m fds i, lowest fds = Some i -> (i < 3)%nat ->
    run (open_console (S m) k) me n fds = run (open_console m k) me n (<[i := Some (Named CONSOLE O_RDWR)]> fds)).
  { intros m fds i Ei Hi. cbn [open_console run]. rewrite Ho, Ei. destruct (Z.ltb_spec (Z.of_nat i) 0) as [|_]; [lia|]. by destruct (Z.leb_spec 3 (Z.of_nat i)); [lia|]. }
  destruct a as [a|], b as [b|], c as [c|]; repeat (first [rewrite Hlast; done|erewrite Hopen; [|reflexivity|lia]; cbn [insert list_insert]]).
Qed.

Lemma spells_nonzero line ts : spells line ts -> Forall (fun c => c <> 0) line.
Proof.
  assert (Hblank : forall ws, blank ws -> Forall (fun c => c <> 0) ws).
  { intros ws Hb. eapply Forall_impl; [exact Hb|]. intros c Hc ->. unfold whitespace in Hc. set_solver. }
  induction 1 as [ws Hb|ws t l ts Hb Ht Hf Hl IH]; [by apply Hblank|].
  rewrite !Forall_app. split_and!; [by apply Hblank|destruct t as [w|c|]; simpl in Ht|done].
  - destruct Ht as [_ Ht]. eapply Forall_impl; [exact Ht|]. by intros ? [? _].
  - constructor; [|done]. intros ->. unfold symbols in Ht. set_solver.
  - by repeat constructor.
Qed.
Lemma spells_cstr line ts : spells line ts -> cstr (line_buf line) = line.
Proof.
  intros Hs. pose proof (spells_nonzero _ _ Hs) as Hnz.
  unfold line_buf. clear Hs. generalize (NBUF - length line)%nat as k. intros k. induction line as [|c line IH]; [by destruct k|].
  apply Forall_cons in Hnz as [Hc Hnz]. simpl. destruct (Z.eqb_spec c 0); [done|]. f_equal. auto.
Qed.
Lemma run_line_denotes t line me n fds : wf_tree t -> spells line (unparse 0 t) -> ready fds -> run (run_line (line_buf line)) me n fds = denote t me n fds.
Proof.
  intros Ht Hs Hr. pose proof (spells_cstr _ _ Hs) as Ec. assert (Hs' : spells (cstr (line_buf line)) (unparse 0 t)) by by rewrite Ec.
  destruct (parse_tree (line_buf line) t Ht Hs') as (c & buf' & Hp & Hv). unfold run_line. rewrite Hp.
  destruct (parsecmd_inv _ _ _ Hp) as [Hc _]. rewrite runcmd_run by (done || by eapply wf_legal). by rewrite Hv.
Qed.

Lemma console_ready fds i j : (3 <= i < j)%nat -> fds !! i = Some None -> fds !! j = Some None -> ready (with_console fds).
Proof.
  intros Hij Hi Hj. pose proof (lookup_lt_Some _ _ _ Hj) as Hlen. destruct fds as [|a [|b [|c rest]]]; simpl in Hlen; try lia.
  split; [by destruct a; eexists|by destruct b; eexists|]. exists i, j. split; [lia|].
  destruct i as [|[|[|i]]], j as [|[|[|j]]]; try lia. done.
Qed.
Lemma getcmd_line body rest : 10 ∉ body -> 13 ∉ body -> 0 ∉ body -> (length body + 1 < NBUF)%nat ->
  getcmd (body ++ 10 :: rest) = (Some (line_buf (body ++ [10])), rest).
Proof.
  intros H10 H13 H0 Hlen. assert (Hg : forall room, (length body < room)%nat -> gets_loop room (body ++ 10 :: rest) = (body ++ [10], rest)).
  { clear H0 Hlen. induction body as [|c body IH]; intros [|room] Hr; simpl in *; try lia; [done|].
    apply not_elem_of_cons in H10 as [N10 H10], H13 as [N13 H13].
    destruct (Z.eqb_spec c 10); [done|]. destruct (Z.eqb_spec c 13); [done|]. simpl. by rewrite (IH H10 H13 room) by lia. }
  unfold getcmd, gets_line. rewrite Hg by (unfold NBUF in *; lia). f_equal. destruct body as [|c body]; [done|].
  apply not_elem_of_cons in H0 as [N0 _]. unfold chr. simpl. by destruct (Z.eqb_spec c 0).
Qed.

(** C12. From a typed line to processes: the shell is started with any table of files that has two free descriptors above the first
    three, and the console can be opened.  If the next line of its input spells a command tree (and is no cd and fits in the buffer),
    then getcmd delivers that line, and main, after it has made sure that descriptors 0, 1 and 2 are open, writes the prompt,
    forks a child that does what the command means, waits for it, and goes on with the next line. *)
Theorem shell_runs_line t body rest bufs me n fds i j : let line := body ++ [10] in
  wf_tree t -> spells line (unparse 0 t) -> 10 ∉ body -> 13 ∉ body -> (length line < NBUF)%nat -> is_cd (line_buf line) = false ->
  open_ok CONSOLE O_RDWR = true -> (3 <= i < j)%nat -> fds !! i = Some None -> fds !! j = Some None ->
  getcmd (line ++ rest) = (Some (line_buf line), rest) /\
  run (main (line_buf line :: bufs)) me n fds =
    Wrote 2 PROMPT (spawn me n (denote t (me ++ [n]) 0 (with_console fds)) (Waited (with_console fds) (run (main_loop bufs) me (S n) (with_console fds)))).
Proof.
  intros line Ht Hs H10 H13 Hlen Hcd Ho Hij Hi Hj. split.
  - unfold line in *. rewrite <- app_assoc. rewrite length_app in Hlen. apply getcmd_line; [done|done| |simpl in Hlen; lia].
    pose proof (spells_nonzero _ _ Hs) as Hnz. rewrite Forall_app, Forall_forall in Hnz. intros H0. by apply (proj1 Hnz) in H0.
  - unfold main. rewrite open_console_run; [|done|apply lookup_lt_Some in Hj; lia]. cbn [main_loop run]. rewrite Hcd, run_fork1. cbn [Z.eqb run].
    by rewrite (run_line_denotes t line) by (done || by eapply console_ready).
Qed.
End run.

Definition std_fds : list (option file) := [Some (Given 0); Some (Given 1); Some (Given 2); None; None; None].
Lemma std_ready : ready std_fds.
Proof. split; [by eexists|by eexists|]. by exists 3%nat, 4%nat. Qed.
(** A background pipe: the left program writes to the pipe its right one reads. *)
Lemma runcmd_denotes_witness : exists buf,
  run (fun _ _ => true) (fun _ => true) (fun _ => true) (fun _ => true) (fun _ => true) (fun _ => 7%positive)
    (runcmd (fun s => cstr (drop s buf)) line1_cmd) [] 0 std_fds =
  denote (fun _ _ => true) (fun _ => true) (fun _ => true) (fun _ => true) (view (fun w => cstr (drop w.1 buf)) line1_cmd) [] 0 std_fds /\
  parsecmd line1 = Ok line1_cmd buf.
Proof.
  exists (nulterminate line1_cmd line1).
  assert (Hp : parsecmd line1 = Ok line1_cmd (nulterminate line1_cmd line1)) by (vm_compute; reflexivity).
  split; [|exact Hp]. exact (runcmd_denotes _ _ _ _ _ _ line1 line1_cmd (nulterminate line1_cmd line1) [] 0 std_fds Hp std_ready).
Defined.

Lemma shell_runs_line_witness : let line := bytes_of "ls  -l|wc >f" ++ [10] in
  let fds := [None; Some (Given 1); None; None; None; None] in
  run (fun _ _ => true) (fun _ => true) (fun _ => true) (fun _ => true) (fun _ => true) (fun _ => 7%positive) (main [line_buf line]) [] 0 fds =
  Wrote 2 PROMPT (Forked
    (Forked (Became (bytes_of "ls") [bytes_of "ls"; bytes_of "-l"]
              [Some (Named CONSOLE O_RDWR); Some (PipeEnd ([0%nat], 0%nat) true); Some (Named CONSOLE O_RDWR); None; None; None])
      (Forked (Became (bytes_of "wc") [bytes_of "wc"]
                [Some (PipeEnd ([0%nat], 0%nat) false); Some (Named (bytes_of "f") 1537); Some (Named CONSOLE O_RDWR); None; None; None])
        (let fds := with_console fds in Waited fds (Waited fds (Exited 0)))))
    (Waited (with_console fds) (Wrote 2 PROMPT (Exited 0)))).
Proof.
  intros line fds.
  destruct (shell_runs_line (fun _ _ => true) (fun _ => true) (fun _ => true) (fun _ => true) (fun _ => true) (fun _ => 7%positive)
    tree2 (bytes_of "ls  -l|wc >f") [] [] [] 0 fds 3 4) as [_ Hrun].
  - repeat split; try (by constructor); try decided; simpl; unfold MAXARGS; lia.
  - vm_compute. next_token (@nil Z). next_token [32; 32]. next_token (@nil Z). next_token (@nil Z). next_token [32]. next_token (@nil Z).
    apply spells_end. decided.
  - decided.
  - decided.
  - vm_compute. lia.
  - reflexivity.
  - reflexivity.
  - lia.
  - reflexivity.
  - reflexivity.
  - exact Hrun.
Defined.
