(* ===== verification/Umalloc.v ===== *)
(** * The user memory allocator: user/umalloc.c

    Pointers are addresses; a header is at its address in the map [hdrs], and memory that was
    never written reads as zero.  [p + n] for a pointer to a header is [p + HDR * n].  The state
    has the headers, freep and the end of the process's memory, which sbrk moves up to a limit
    the kernel sets.  The loops over the free list take [fuel] steps at most. *)

From S2P Require Import Prelude.

Record header := Header { h_ptr : Z; h_size : Z }.
Record heap := Heap { hdrs : gmap Z header; freep : Z; brk : Z }.
#[export] Instance heap_eta : Eta heap := fun h => Heap (hdrs h) (freep h) (brk h).

(** sizeof(Header) *)
Definition HDR : Z := 16.

Definition hdr_at (h : heap) (p : Z) : header := default (Header 0 0) (hdrs h !! p).
Definition ptr_of (h : heap) (p : Z) : Z := h_ptr (hdr_at h p).
Definition size_of (h : heap) (p : Z) : Z := h_size (hdr_at h p).
Definition set_ptr (p q : Z) (h : heap) : heap := h <| hdrs ::= insert p (Header q (size_of h p)) |>.
Definition set_size (p n : Z) (h : heap) : heap := h <| hdrs ::= insert p (Header (ptr_of h p) (u32 n)) |>.

Section umalloc.
(** The address of [base] and the limit of the process's memory. *)
Context (BASE limit : Z).

(** The kernel's sbrk(int n): the old end of the memory, or -1 when the memory would get larger than
    [limit].  Shrinking by more than there is changes nothing (uvmdealloc is given a wrapped size). *)
Definition sbrk (n : Z) : M heap Z :=
  old <- gets brk ;;
  let new := old + i32 n in
  if limit <? new then mret (-1)
  else if new <? 0 then mret old
  else
    modify (fun h => h <| brk := new |>) ;;;
    mret old.

(** The search of free for the place of [bp] in the list. *)
Fixpoint free_place (fuel : nat) (bp p : Z) : M heap Z :=
  match fuel with
  | O => mfail NoFuel
  | S fuel' =>
      q <- gets (fun h => ptr_of h p) ;;
      if (p <? bp) && (bp <? q) then mret p
      else if (q <=? p) && ((p <? bp) || (bp <? q)) then mret p
      else free_place fuel' bp q
  end.

Definition free (fuel : nat) (ap : Z) : M heap unit :=
  let bp := ap - HDR in
  p <- gets freep ;;
  p <- free_place fuel bp p ;;
  q <- gets (fun h => ptr_of h p) ;;
  bsize <- gets (fun h => size_of h bp) ;;
  (if bp + HDR * bsize =? q then
     qsize <- gets (fun h => size_of h q) ;;
     modify (set_size bp (bsize + qsize)) ;;;
     qptr <- gets (fun h => ptr_of h q) ;;
     modify (set_ptr bp qptr)
   else modify (set_ptr bp q)) ;;;
  psize <- gets (fun h => size_of h p) ;;
  (if p + HDR * psize =? bp then
     bsize <- gets (fun h => size_of h bp) ;;
     modify (set_size p (psize + bsize)) ;;;
     bptr <- gets (fun h => ptr_of h bp) ;;
     modify (set_ptr p bptr)
   else modify (set_ptr p bp)) ;;;
  modify (fun h => h <| freep := p |>).

Definition morecore (fuel : nat) (nu : Z) : M heap Z :=
  let nu := if nu <? 4096 then 4096 else nu in
  p <- sbrk (nu * HDR) ;;
  if p =? -1 then mret 0
  else
    let hp := p in
    modify (set_size hp nu) ;;;
    free fuel (hp + HDR) ;;;
    gets freep.

Fixpoint malloc_loop (fuel depth : nat) (nunits prevp p : Z) : M heap Z :=
  match fuel with
  | O => mfail NoFuel
  | S fuel' =>
      size <- gets (fun h => size_of h p) ;;
      if nunits <=? size then
        p <- (if size =? nunits then
                q <- gets (fun h => ptr_of h p) ;;
                modify (set_ptr prevp q) ;;;
                mret p
              else
                modify (set_size p (size - nunits)) ;;;
                size <- gets (fun h => size_of h p) ;;
                let p := p + HDR * size in
                modify (set_size p nunits) ;;;
                mret p) ;;
        modify (fun h => h <| freep := prevp |>) ;;;
        mret (p + HDR)
      else
        fp <- gets freep ;;
        if p =? fp then
          p <- morecore depth nunits ;;
          if p =? 0 then mret 0
          else
            q <- gets (fun h => ptr_of h p) ;;
            malloc_loop fuel' depth nunits p q
        else
          q <- gets (fun h => ptr_of h p) ;;
          malloc_loop fuel' depth nunits p q
  end.

Definition nunits_of (nbytes : Z) : Z := u32 ((nbytes + HDR - 1) / HDR + 1).

(** [fuel] bounds the steps of malloc's own loop and of the loop of free. *)
Definition malloc (fuel : nat) (nbytes : Z) : M heap Z :=
  let nunits := nunits_of nbytes in
  prevp <- gets freep ;;
  prevp <- (if prevp =? 0 then
              modify (fun h => h <| freep := BASE |>) ;;;
              modify (set_ptr BASE BASE) ;;;
              modify (set_size BASE 0) ;;;
              mret BASE
            else mret prevp) ;;
  p <- gets (fun h => ptr_of h prevp) ;;
  malloc_loop fuel fuel nunits prevp p.
End umalloc.
