(* ===== verification/UmallocProps.v ===== *)
(** * The allocator's free list

    [F] is the list of free blocks in address order, the empty block [base] first, and [A] maps
    the allocated blocks to their sizes, in units of a header.  The invariant [heap_ok] says that
    the pointers link the free blocks in a circle, that no two blocks overlap, that no two free
    blocks touch, and that free and allocated blocks together are all the memory sbrk has given.
    malloc and free keep it; malloc's loops end. *)

From stdpp Require Import sorting.
From S2P Require Import Prelude Umalloc.

Implicit Types (h : heap) (l : list Z) (F : list (Z * Z)) (A : gmap Z Z).

(** ** Circular lists *)

Definition circle h l : Prop := ptr_of h <$> l = drop 1 l ++ take 1 l.

Lemma circle_rotate1 h a l : circle h (a :: l) -> circle h (l ++ [a]).
Proof.
  unfold circle. simpl. destruct l as [|b l]; simpl; [done|]. rewrite take_0, drop_0. intros [= E1 E2].
  rewrite fmap_app. simpl. rewrite <- E2, E1. done.
Qed.
Lemma circle_rotate h x y : circle h (x ++ y) -> circle h (y ++ x).
Proof.
  revert y. induction x as [|a x IH]; intros y Hc; [by rewrite app_nil_r|].
  replace (y ++ a :: x) with ((y ++ [a]) ++ x) by (by rewrite <- app_assoc). apply IH. rewrite app_assoc. by apply circle_rotate1.
Qed.
Lemma circle_next h l1 p q l2 : circle h (l1 ++ p :: q :: l2) -> ptr_of h p = q.
Proof. intros Hc. apply circle_rotate in Hc. unfold circle in Hc. simpl in Hc. congruence. Qed.
Lemma circle_last h l p : circle h (l ++ [p]) -> ptr_of h p = hd p l.
Proof. intros Hc. apply circle_rotate in Hc. unfold circle in Hc. destruct l; simpl in *; congruence. Qed.
Lemma circle_frame h h' l : (forall p, p ∈ l -> ptr_of h' p = ptr_of h p) -> circle h l -> circle h' l.
Proof. unfold circle. intros H <-. apply list_fmap_ext. intros i p Hi. apply H. by eapply list_elem_of_lookup_2. Qed.
(** A node is the only one that points to its successor. *)
Lemma circle_inj h l a b : circle h l -> NoDup l -> a ∈ l -> b ∈ l -> ptr_of h a = ptr_of h b -> a = b.
Proof.
  intros Hc Hn Ha Hb E. assert (Hn' : NoDup (ptr_of h <$> l)).
  { rewrite Hc, (Permutation_app_comm (drop 1 l) (take 1 l)), take_drop. done. }
  apply list_elem_of_lookup in Ha as [i Hi], Hb as [j Hj].
  assert (i = j) as ->; [|congruence]. apply (NoDup_lookup _ i j (ptr_of h a) Hn'); rewrite list_lookup_fmap, ?Hi, ?Hj; simpl; by rewrite ?E.
Qed.

(** The same as a path from node to node that ends in [q]. *)
Fixpoint path h l (q : Z) : Prop :=
  match l with [] => True | a :: l' => ptr_of h a = hd q l' /\ path h l' q end.
Lemma path_app h x y q : path h (x ++ y) q <-> path h x (hd q y) /\ path h y q.
Proof. induction x as [|a x IH]; simpl; [tauto|]. rewrite IH. destruct x; simpl; tauto. Qed.
Lemma path_frame h h' l q : (forall p, p ∈ l -> ptr_of h' p = ptr_of h p) -> path h l q -> path h' l q.
Proof. induction l as [|a l IH]; simpl; [done|]. intros H [H1 H2]. split; [rewrite H by set_solver; done|]. apply IH; [|done]. set_solver. Qed.
Lemma path_fmap h l : forall a q, path h (a :: l) q <-> ptr_of h <$> a :: l = l ++ [q].
Proof.
  induction l as [|b l IH]; intros a q.
  - simpl. split; [by intros [-> _]|by intros [= ->]].
  - change (ptr_of h a = b /\ path h (b :: l) q <-> ptr_of h a :: (ptr_of h <$> b :: l) = b :: l ++ [q]). rewrite IH.
    split; [by intros [-> ->]|intros E; by injection E].
Qed.
Lemma circle_path h a l : circle h (a :: l) <-> path h (a :: l) a.
Proof. rewrite path_fmap. done. Qed.

(** ** The invariant *)

Definition before (x y : Z * Z) : Prop := x.1 + HDR * x.2 < y.1.
Definition apart (x y : Z * Z) : Prop := x.1 + HDR * x.2 <= y.1 \/ y.1 + HDR * y.2 <= x.1.
Definition total F A : Z := foldr (fun b n => b.2 + n) 0 F + map_fold (fun _ s n => s + n) 0 A.

Section inv.
Context (BASE limit lo : Z).

Record heap_ok h F A : Prop := {
  ho_base : exists F', F = (BASE, 0) :: F' /\ Forall (fun b => lo <= b.1 /\ 1 <= b.2 /\ b.1 + HDR * b.2 <= brk h) F';
  ho_sorted : StronglySorted before F;
  ho_circle : circle h F.*1;
  ho_freep : freep h ∈ F.*1;
  ho_fsize : forall a s, (a, s) ∈ F -> size_of h a = s;
  ho_asize : forall a s, A !! a = Some s -> size_of h a = s /\ lo <= a /\ 1 <= s /\ a + HDR * s <= brk h;
  ho_apart : forall a s b, A !! a = Some s -> b ∈ F -> apart (a, s) b;
  ho_alone : forall a s b t, A !! a = Some s -> A !! b = Some t -> a <> b -> apart (a, s) (b, t);
  ho_total : HDR * total F A = brk h - lo;
  ho_range : 0 < BASE /\ BASE + HDR <= lo /\ lo <= brk h <= limit /\ limit < 2 ^ 31
}.

Lemma sum_insert F A a s : A !! a = None -> total F (<[a := s]> A) = total F A + s.
Proof. intros Ha. unfold total. rewrite map_fold_insert_L; [lia|intros; lia|done]. Qed.
Lemma sum_delete F A a s : A !! a = Some s -> total F (delete a A) = total F A - s.
Proof. intros Ha. pose proof (sum_insert F (delete a A) a s (lookup_delete_eq A a)) as H. rewrite insert_delete_id in H by done. lia. Qed.
Lemma sum_app F1 F2 A : total (F1 ++ F2) A = foldr (fun b n => b.2 + n) 0 F1 + total F2 A.
Proof. unfold total. rewrite foldr_app. induction F1 as [|b F1 IH]; simpl; lia. Qed.
Lemma sum_cons b F A : total (b :: F) A = b.2 + total F A.
Proof. unfold total. simpl. lia. Qed.

(** Updates of one header. *)
Lemma ptr_set_ptr p q h x : ptr_of (set_ptr p q h) x = if decide (x = p) then q else ptr_of h x.
Proof. unfold ptr_of, set_ptr, hdr_at. simpl. case_decide; [subst; by rewrite lookup_insert_eq|by rewrite lookup_insert_ne]. Qed.
Lemma size_set_ptr p q h x : size_of (set_ptr p q h) x = size_of h x.
Proof. unfold size_of, set_ptr, hdr_at. simpl. destruct (decide (x = p)) as [->|]; [by rewrite lookup_insert_eq|by rewrite lookup_insert_ne]. Qed.
Lemma ptr_set_size p n h x : ptr_of (set_size p n h) x = ptr_of h x.
Proof. unfold ptr_of, set_size, hdr_at. simpl. destruct (decide (x = p)) as [->|]; [by rewrite lookup_insert_eq|by rewrite lookup_insert_ne]. Qed.
Lemma size_set_size p n h x : size_of (set_size p n h) x = if decide (x = p) then u32 n else size_of h x.
Proof. unfold size_of, set_size, hdr_at. simpl. case_decide; [subst; by rewrite lookup_insert_eq|by rewrite lookup_insert_ne]. Qed.

Lemma ptr_freep h v x : ptr_of (h <| freep := v |>) x = ptr_of h x.
Proof. done. Qed.
Lemma size_freep h v x : size_of (h <| freep := v |>) x = size_of h x.
Proof. done. Qed.
Ltac headers := rewrite ?ptr_freep, ?size_freep, ?ptr_set_ptr, ?size_set_ptr, ?ptr_set_size, ?size_set_size.

Section facts.
Context h F A (I : heap_ok h F A).

Lemma sorted_nodup : NoDup F.*1.
Proof using I.
  destruct I as [(F' & HF & Hpos) Hs _ _ _ _ _ _ _ _]. assert (Hp : Forall (fun b : Z * Z => 0 <= b.2) F).
  { rewrite HF. constructor; [done|]. eapply Forall_impl; [exact Hpos|]. simpl. intros. lia. }
  clear HF Hpos I. induction Hs as [|x F0 Hs IH Hx]; [constructor|]. apply Forall_cons in Hp as [Hx0 Hp]. simpl. constructor; [|by apply IH].
  intros Hin. apply list_elem_of_fmap in Hin as (y & E & Hy). rewrite Forall_forall in Hx. specialize (Hx y Hy). unfold before, HDR in *. lia.
Qed.
Lemma free_pos b : b ∈ F -> b = (BASE, 0) \/ lo <= b.1 /\ 1 <= b.2 /\ b.1 + HDR * b.2 <= brk h.
Proof using I. destruct I as [(F' & -> & Hpos) _ _ _ _ _ _ _ _ _]. intros Hb. apply elem_of_cons in Hb as [->|Hb]; [by left|]. rewrite Forall_forall in Hpos. right. by apply Hpos. Qed.
Lemma free_nonneg b : b ∈ F -> BASE <= b.1 /\ 0 <= b.2.
Proof using I. intros Hb. destruct (ho_range _ _ _ I). unfold HDR in *. destruct (free_pos b Hb) as [->|Hpos]; simpl; lia. Qed.

Lemma sorted_gap b c : b ∈ F -> c ∈ F -> b.1 <> c.1 -> before b c \/ before c b.
Proof using I.
  intros Hb Hc Hne. pose proof (ho_sorted _ _ _ I) as Hs. apply list_elem_of_split in Hb as (F1 & F2 & ->). apply StronglySorted_app in Hs as (S1 & _ & S2).
  apply StronglySorted_inv in S2 as [_ S2]. rewrite Forall_forall in S2. rewrite elem_of_app, elem_of_cons in Hc. destruct Hc as [Hc|[->|Hc]]; [|done|].
  - right. apply S1; [done|by constructor].
  - left. by apply S2.
Qed.
(** Where an allocated block belongs in the free list. *)
Lemma place a s : A !! a = Some s -> exists F1 p F2, F = F1 ++ p :: F2 /\ Forall (fun b => b.1 + HDR * b.2 <= a) (F1 ++ [p]) /\ Forall (fun b => a + HDR * s <= b.1) F2.
Proof using I.
  intros Ha. destruct (ho_asize _ _ _ I a s Ha) as (_ & Hlo & H1 & Hb). destruct (ho_range _ _ _ I) as (_ & Hlo2 & _).
  assert (Hap : Forall (fun b => apart (a, s) b) F) by (apply Forall_forall; intros b Hbf; by apply (ho_apart _ _ _ I)).
  destruct (ho_base _ _ _ I) as (F' & EF & Hpos). pose proof (ho_sorted _ _ _ I) as Hs. clear I. rewrite EF in *. clear EF.
  assert (Hnn : Forall (fun b : Z * Z => 1 <= b.2) F') by (eapply Forall_impl; [exact Hpos|]; simpl; lia). clear Hpos.
  assert (Hp0 : (BASE, 0).1 + HDR * (BASE, 0).2 <= a) by (unfold HDR in *; simpl; lia). revert Hp0 Hs Hap Hnn. generalize (BASE, 0) as p.
  induction F' as [|q F' IH]; intros p Hp Hs Hap Hnn.
  - exists [], p, []. by repeat constructor.
  - apply Forall_cons in Hap as [Hpa Hap]. inversion Hs as [|? ? Hs' Hlt]; subst.
    pose proof Hap as Hap0. apply Forall_cons in Hap0 as [Hqa Hap0], Hnn as [Hqn Hnn]. destruct (decide (q.1 < a)) as [Hq|Hq].
    + assert (Hq' : q.1 + HDR * q.2 <= a) by (unfold apart, HDR in *; simpl in *; lia).
      destruct (IH q Hq' Hs' Hap Hnn) as (F1 & x & F2 & E & H2 & H3). exists (p :: F1), x, F2. simpl. rewrite E. by repeat constructor.
    + exists [], p, (q :: F'). split; [done|]. split; [by constructor|]. assert (Haq : a + HDR * s <= q.1) by (unfold apart, HDR in *; simpl in *; lia).
      constructor; [done|]. inversion Hs' as [|? ? _ Hlt']; subst. rewrite Forall_forall in Hlt' |- *. intros y Hy. specialize (Hlt' y Hy). unfold before, HDR in *. simpl in *. lia.
Qed.

Lemma step_on fuel bp x q : ptr_of h x = q -> (bp <= x \/ q <= bp) -> (x < q \/ x >= bp /\ q <= bp) ->
  free_place (S fuel) bp x h = free_place fuel bp q h.
Proof.
  intros E H1 H2. cbn [free_place]. unfold mbind, gets. rewrite E. destruct (Z.ltb_spec x bp), (Z.ltb_spec bp q), (Z.leb_spec q x); simpl; try lia; done.
Qed.
Lemma step_here fuel bp x q : ptr_of h x = q -> x < bp -> (bp < q \/ q <= x) -> free_place (S fuel) bp x h = Ok x h.
Proof.
  intros E H1 H2. cbn [free_place]. unfold mbind, gets. rewrite E. destruct (Z.ltb_spec x bp), (Z.ltb_spec bp q), (Z.leb_spec q x); simpl; try lia; done.
Qed.

(** free finds the place, from wherever in the circle it starts. *)
Lemma free_place_run bp s F1 p F2 fuel : F = F1 ++ p :: F2 -> 1 <= s -> Forall (fun b => b.1 + HDR * b.2 <= bp) (F1 ++ [p]) ->
  Forall (fun b => bp + HDR * s <= b.1) F2 -> p.1 < bp -> (length F < fuel)%nat -> free_place fuel bp (freep h) h = Ok p.1 h.
Proof using I.
  intros EF Hs H1 H2 Hp Hfuel. pose proof (ho_circle _ _ _ I) as Hc. pose proof (ho_freep _ _ _ I) as Hfp. pose proof (ho_sorted _ _ _ I) as Hsort.
  assert (Hbase : hd p.1 F1.*1 = BASE). { destruct (ho_base _ _ _ I) as (F' & E & _). rewrite EF in E. destruct F1; simpl in *; injection E as E _; by rewrite E. }
  assert (Hnn : forall b, b ∈ F -> BASE <= b.1 /\ 0 <= b.2) by apply free_nonneg.
  assert (Hpn : ptr_of h p.1 = hd BASE F2.*1).
  { rewrite EF, fmap_app in Hc. simpl in Hc. destruct F2 as [|q F2]; simpl in *; [rewrite <- Hbase; by apply circle_last|by eapply circle_next]. }
  assert (Hat : forall k, free_place (S k) bp p.1 h = Ok p.1 h).
  { intros k. apply (step_here _ _ _ _ Hpn Hp). destruct F2 as [|q F2]; simpl.
    - right. apply Hnn. rewrite EF. set_solver.
    - apply Forall_cons in H2 as [Hq _]. left. unfold HDR in *. lia. }
  assert (Hfront : forall y x k, F1 = x ++ y -> free_place (length y + S k) bp (hd p.1 y.*1) h = Ok p.1 h).
  { induction y as [|b y IH]; intros x k E; [apply Hat|]. change (free_place (S (length y + S k)) bp b.1 h = Ok p.1 h). rewrite (step_on _ _ _ (hd p.1 y.*1)).
    - apply (IH (x ++ [b])). by rewrite <- app_assoc.
    - rewrite EF, E, <- app_assoc, fmap_app in Hc. simpl in Hc. destruct y; simpl in *; by eapply circle_next.
    - right. destruct y as [|b' y]; simpl; [lia|]. rewrite Forall_app, Forall_forall in H1. assert (Hb' : b' ∈ F1) by (rewrite E; set_solver).
      pose proof (proj1 H1 b' Hb') as Hle. assert (b' ∈ F) by (rewrite EF; set_solver). destruct (Hnn b'); [done|]. simpl in Hle. unfold HDR in *. lia.
    - left. assert (Hlt : forall c, c ∈ y ++ p :: F2 -> b.1 < c.1).
      { intros c Hcin. rewrite EF, E, <- app_assoc in Hsort. apply StronglySorted_app_1_r in Hsort. apply StronglySorted_inv in Hsort as [_ Hall].
        rewrite Forall_forall in Hall. specialize (Hall c Hcin). destruct (Hnn b) as [_ ?]; [rewrite EF, E; set_solver|]. unfold before, HDR in *. lia. }
      destruct y as [|b' y]; simpl; apply Hlt; set_solver. }
  assert (Hback : forall y x k, F2 = x ++ y -> free_place (length y + k) bp (hd BASE y.*1) h = free_place k bp BASE h).
  { induction y as [|b y IH]; intros x k E; [done|]. change (free_place (S (length y + k)) bp b.1 h = free_place k bp BASE h). rewrite (step_on _ _ _ (hd BASE y.*1)).
    - apply (IH (x ++ [b])). by rewrite <- app_assoc.
    - assert (EF' : F = (F1 ++ p :: x) ++ b :: y) by (by rewrite EF, E, <- app_assoc). rewrite EF', fmap_app in Hc. simpl in Hc. destruct y as [|b' y]; simpl in *.
      + rewrite (circle_last _ _ _ Hc), <- Hbase. by destruct F1.
      + by eapply circle_next.
    - left. rewrite Forall_forall in H2. assert (Hb : b ∈ F2) by (rewrite E; set_solver). specialize (H2 b Hb). simpl in H2. unfold HDR in *. lia.
    - rewrite Forall_forall in H2. assert (Hb : b ∈ F2) by (rewrite E; set_solver). specialize (H2 b Hb). simpl in H2. destruct y as [|b' y]; simpl.
      + right. destruct (Hnn p) as [? _]; [rewrite EF; set_solver|]. unfold HDR in *. lia.
      + left. rewrite EF, E in Hsort. apply StronglySorted_app_1_r in Hsort. apply StronglySorted_inv in Hsort as [Hs2 _]. apply StronglySorted_app_1_r in Hs2.
        apply StronglySorted_inv in Hs2 as [_ Hall]. rewrite Forall_forall in Hall. specialize (Hall b' ltac:(set_solver)).
        destruct (Hnn b) as [_ ?]; [rewrite EF; set_solver|]. unfold before, HDR in *. lia. }
  rewrite EF, fmap_app in Hfp. simpl in Hfp. apply elem_of_app in Hfp as [Hf|Hf].
  - apply list_elem_of_fmap in Hf as (b & Eb & Hb). apply list_elem_of_split in Hb as (x & y & E). rewrite Eb.
    pose proof (Hfront (b :: y) x (fuel - length (b :: y) - 1)%nat E) as Hrun. change (hd p.1 (b :: y).*1) with b.1 in Hrun.
    rewrite EF, E, !length_app in Hfuel. by replace fuel with (length (b :: y) + S (fuel - length (b :: y) - 1))%nat by lia.
  - apply elem_of_cons in Hf as [->|Hf]; [destruct fuel; [lia|apply Hat]|].
    apply list_elem_of_fmap in Hf as (b & Eb & Hb). apply list_elem_of_split in Hb as (x & y & E). rewrite Eb. rewrite EF, length_app in Hfuel. simpl in Hfuel.
    assert (Hly : (length (b :: y) <= length F2)%nat) by (rewrite E, length_app; lia).
    pose proof (Hback (b :: y) x (fuel - length (b :: y))%nat E) as Hrun. change (hd BASE (b :: y).*1) with b.1 in Hrun.
    pose proof (Hfront F1 [] (fuel - length (b :: y) - S (length F1))%nat eq_refl) as Hrun'. rewrite Hbase in Hrun'.
    replace fuel with (length (b :: y) + (fuel - length (b :: y)))%nat by lia. rewrite Hrun.
    by replace (fuel - length (b :: y))%nat with (length F1 + S (fuel - length (b :: y) - S (length F1)))%nat by lia.
Qed.

(** *** free *)

Context (bp s : Z) (Hbp : A !! bp = Some s) (F1 : list (Z * Z)) (p : Z * Z) (F2 : list (Z * Z)) (EF : F = F1 ++ p :: F2).
Context (Hlow : Forall (fun b => b.1 + HDR * b.2 <= bp) (F1 ++ [p])) (Hhigh : Forall (fun b => bp + HDR * s <= b.1) F2).

(** After [bp] has been joined with the block above it or linked to it. *)
Record joined h1 (s' : Z) (F2' : list (Z * Z)) : Prop := {
  jo_ptr : forall x, x <> bp -> ptr_of h1 x = ptr_of h x;
  jo_size : forall x, x <> bp -> size_of h1 x = size_of h x;
  jo_bptr : ptr_of h1 bp = hd BASE F2'.*1;
  jo_bsize : size_of h1 bp = s';
  jo_rest : exists M, F2 = M ++ F2' /\ foldr (fun b n => b.2 + n) s M = s';
  jo_lt : Forall (before (bp, s')) F2';
  jo_apart : forall a t, A !! a = Some t -> a <> bp -> apart (a, t) (bp, s');
  jo_end : s <= s' /\ bp + HDR * s' <= brk h;
  jo_state : brk h1 = brk h /\ freep h1 = freep h
}.

Lemma path_F : path h F.*1 BASE.
Proof using I. destruct (ho_base _ _ _ I) as (F' & E & _). pose proof (ho_circle _ _ _ I) as Hc. rewrite E in Hc |- *. by apply circle_path. Qed.
Lemma path_parts : path h F1.*1 p.1 /\ ptr_of h p.1 = hd BASE F2.*1 /\ path h F2.*1 BASE.
Proof using I EF. pose proof path_F as Hc. rewrite EF, fmap_app, path_app in Hc. simpl in Hc. tauto. Qed.
Lemma block_facts : size_of h bp = s /\ lo <= bp /\ 1 <= s /\ bp + HDR * s <= brk h.
Proof using I Hbp. exact (ho_asize _ _ _ I bp s Hbp). Qed.
Lemma not_free b : b ∈ F -> b.1 <> bp.
Proof using I Hbp.
  intros Hb E. destruct block_facts as (_ & H1 & H2 & _). pose proof (ho_apart _ _ _ I bp s b Hbp Hb) as Hap. destruct (ho_range _ _ _ I) as (_ & H3 & _).
  unfold apart, HDR in *. destruct (free_pos b Hb) as [->|Hpos]; simpl in *; lia.
Qed.
Lemma total_pos : forall b, b ∈ F -> 0 <= b.2 < 2 ^ 27.
Proof using I.
  intros b Hb. destruct (ho_range _ _ _ I) as (H1 & H2 & H3). destruct (free_pos b Hb) as [->|Hpos]; [simpl; lia|]. unfold HDR in *. lia.
Qed.

Lemma join_up : let q := hd BASE F2.*1 in runs
  (if bp + HDR * s =? q then
     qsize <- gets (fun h => size_of h q) ;;
     modify (set_size bp (s + qsize)) ;;;
     qptr <- gets (fun h => ptr_of h q) ;;
     modify (set_ptr bp qptr)
   else modify (set_ptr bp q)) h (fun _ h1 => exists s' F2', joined h1 s' F2').
Proof using I Hbp EF Hlow Hhigh.
  destruct path_parts as (_ & Hp & H2). destruct block_facts as (Hs & Hlo & H1 & Hend). destruct (ho_range _ _ _ I) as (Hb0 & Hbase & Hlim).
  cbv zeta. pose proof (ho_sorted _ _ _ I) as Hsort. rewrite EF in Hsort.
  apply StronglySorted_app_1_r, StronglySorted_inv in Hsort as [Hsort _].
  assert (Hnf : forall b, b ∈ F2 -> b.1 <> bp) by (intros b Hb; apply not_free; rewrite EF; set_solver).
  destruct (Z.eqb_spec (bp + HDR * s) (hd BASE F2.*1)) as [E|E].
  - destruct F2 as [|[q sq] F2'] eqn:EF2; simpl in E; [unfold HDR in *; lia|].
    assert (Hq : (q, sq) ∈ F) by (rewrite EF; set_solver). simpl in *. destruct H2 as [Hqp _]. destruct (total_pos (q, sq) Hq) as [Hsq _]. simpl in Hsq.
    destruct (free_pos (q, sq) Hq) as [Hb|Hpos]; [injection Hb as -> ->; unfold HDR in *; lia|]. simpl in Hpos.
    apply runs_bind, runs_gets. rewrite (ho_fsize _ _ _ I q sq Hq). apply runs_bind, runs_modify, runs_bind, runs_gets, runs_modify. exists (s + sq), F2'.
    apply StronglySorted_inv in Hsort as [_ Hlt]. split.
    + intros x Hx. by rewrite ptr_set_ptr, decide_False, ptr_set_size.
    + intros x Hx. by rewrite size_set_ptr, size_set_size, decide_False.
    + by rewrite ptr_set_ptr, decide_True, ptr_set_size.
    + rewrite size_set_ptr, size_set_size, decide_True by done. apply u32_small. unfold HDR in *. lia.
    + exists [(q, sq)]. simpl. split; [done|lia].
    + eapply Forall_impl; [exact Hlt|]. unfold before, HDR in *. simpl. intros y Hy. lia.
    + intros a u Ha Hne. pose proof (ho_alone _ _ _ I a u bp s Ha Hbp Hne) as A1. pose proof (ho_apart _ _ _ I a u (q, sq) Ha Hq) as A2.
      destruct (ho_asize _ _ _ I a u Ha) as (_ & _ & Hu & _). unfold apart, HDR in *. simpl in *. lia.
    + unfold HDR in *. lia.
    + done.
  - apply runs_modify. exists s, F2. split.
    + intros x Hx. by rewrite ptr_set_ptr, decide_False.
    + intros x Hx. by rewrite size_set_ptr.
    + by rewrite ptr_set_ptr, decide_True.
    + by rewrite size_set_ptr.
    + by exists [].
    + destruct F2 as [|y F2'] eqn:EF2; [constructor|]. apply Forall_cons in Hhigh as [Hy _]. apply StronglySorted_inv in Hsort as [_ Hlt]. simpl in E.
      constructor; [unfold before, HDR in *; simpl; lia|]. eapply Forall_impl; [exact Hlt|]. intros z Hz.
      assert (Hyf : y ∈ F) by (rewrite EF; set_solver). destruct (total_pos y Hyf) as [Hy2 _]. unfold before, HDR in *. simpl in *. lia.
    + intros a u Ha Hne. exact (ho_alone _ _ _ I a u bp s Ha Hbp Hne).
    + lia.
    + done.
Qed.

(** The blocks that take the place of [p] and [bp]. *)
Definition merged (s' : Z) (N : list (Z * Z)) : Prop :=
  p.1 + HDR * p.2 = bp /\ N = [(p.1, p.2 + s')] \/ p.1 + HDR * p.2 < bp /\ N = [p; (bp, s')].

Lemma low_p : p.1 + HDR * p.2 <= bp /\ p ∈ F /\ p.1 < bp.
Proof using I Hbp EF Hlow Hhigh.
  assert (Hp : p ∈ F) by (rewrite EF; set_solver). rewrite Forall_app, Forall_singleton in Hlow. destruct Hlow as [_ Hl]. pose proof (not_free p Hp).
  destruct (free_nonneg p Hp). split_and!; [done|done|]. unfold HDR in *. lia.
Qed.

Section merge.
Context (h1 h2 : heap) (s' : Z) (F2' N : list (Z * Z)) (J : joined h1 s' F2') (M : merged s' N).
Context (Hkeep : forall x, x <> bp -> x <> p.1 -> ptr_of h2 x = ptr_of h x /\ size_of h2 x = size_of h x).
Context (Hbrk : brk h2 = brk h) (Hfp : freep h2 = p.1).
Context (HcN : path h2 N.*1 (hd BASE F2'.*1)) (HsN : forall a t, (a, t) ∈ N -> size_of h2 a = t).

Lemma merged_sorted : StronglySorted before (F1 ++ N ++ F2').
Proof using All.
  destruct (jo_rest _ _ _ J) as (M0 & EM & _). pose proof (jo_lt _ _ _ J) as Hlt. rewrite Forall_forall in Hlt. destruct (jo_end _ _ _ J) as [Hss _].
  destruct block_facts as (_ & _ & H1 & _). destruct low_p as (Hl & Hp & Hpb). destruct (free_nonneg p Hp) as [_ Hp2].
  pose proof (ho_sorted _ _ _ I) as Hsort. rewrite EF in Hsort. apply StronglySorted_app in Hsort as (S1 & S2 & S3). apply StronglySorted_inv in S3 as [S4 S5].
  rewrite EM in S4. apply StronglySorted_app_1_r in S4. rewrite Forall_forall in S5.
  assert (Hx : forall x, x ∈ F1 -> before x p) by (intros x Hx; apply S1; set_solver).
  assert (Hy : forall y, y ∈ F2' -> before p y) by (intros y Hy; apply S5; rewrite EM; set_solver).
  apply StronglySorted_app. split_and!; [|done|].
  - intros x y Hx1 Hy1. specialize (Hx x Hx1). apply elem_of_app in Hy1 as [Hy1|Hy1]; [|apply S1; [done|rewrite EM; set_solver]].
    destruct M as [[_ EN]|[_ EN]]; rewrite EN, ?elem_of_cons in Hy1; destruct_or!; try (by apply elem_of_nil in Hy1); rewrite Hy1; unfold before, HDR in *; simpl in *; lia.
  - destruct M as [[E ->]|[E ->]]; simpl.
    + constructor; [done|]. apply Forall_forall. intros y Hy1. specialize (Hlt y Hy1). unfold before, HDR in *. simpl in *. lia.
    + constructor; [constructor; [done|by apply Forall_forall]|]. constructor; [unfold before; simpl; lia|]. by apply Forall_forall.
Qed.

Lemma merged_old b : b ∈ F1 \/ b ∈ F2' -> b ∈ F /\ b.1 <> bp /\ b.1 <> p.1.
Proof using All.
  destruct (jo_rest _ _ _ J) as (M0 & EM & _). intros Hb. assert (HbF : b ∈ F) by (rewrite EF, EM; set_solver). split_and!; [done|by apply not_free|].
  pose proof sorted_nodup as Hnd. rewrite EF, EM, fmap_app in Hnd. simpl in Hnd. apply NoDup_app in Hnd as (_ & Hd1 & Hd2). apply NoDup_cons in Hd2 as [Hd2 _]. intros E.
  destruct Hb as [Hb|Hb]; [apply (Hd1 b.1); [by apply list_elem_of_fmap_2|rewrite E; by constructor]|].
  apply Hd2. rewrite <- E, fmap_app. apply elem_of_app. right. by apply list_elem_of_fmap_2.
Qed.
Lemma merged_new b : b ∈ N -> b = p \/ b = (bp, s') \/ p.1 + HDR * p.2 = bp /\ b = (p.1, p.2 + s') /\ lo <= p.1 /\ 1 <= p.2.
Proof using All.
  intros Hb. destruct M as [[E EN]|[E EN]]; rewrite EN, ?elem_of_cons in Hb; destruct_or!; try (by apply elem_of_nil in Hb); rewrite Hb; try tauto.
  right. right. split_and!; try done; destruct low_p as (_ & Hp & Hpb), block_facts as (_ & Hlo & _), (ho_range _ _ _ I) as (_ & R2 & _);
    (destruct (free_pos p Hp) as [Eb|Hpp]; [rewrite Eb in E; unfold HDR in *; simpl in *; lia|lia]).
Qed.
Lemma merged_pos b : b ∈ F1 ++ N ++ F2' -> b <> (BASE, 0) -> lo <= b.1 /\ 1 <= b.2 /\ b.1 + HDR * b.2 <= brk h2.
Proof using All.
  intros Hb Hne. rewrite Hbrk. destruct (jo_end _ _ _ J) as [Hss Hse]. destruct block_facts as (_ & Hlo & H1 & _). destruct low_p as (_ & Hp & _).
  rewrite !elem_of_app in Hb. destruct Hb as [Hb|[Hb|Hb]].
  - destruct (merged_old b (or_introl Hb)) as [HbF _]. by destruct (free_pos b HbF).
  - destruct (merged_new b Hb) as [->|[->|(E & -> & Hp1 & Hp2)]]; [by destruct (free_pos p Hp)|simpl; lia|simpl; unfold HDR in *; lia].
  - destruct (merged_old b (or_intror Hb)) as [HbF _]. by destruct (free_pos b HbF).
Qed.
Lemma merged_base : exists F', F1 ++ N ++ F2' = (BASE, 0) :: F' /\ Forall (fun b => lo <= b.1 /\ 1 <= b.2 /\ b.1 + HDR * b.2 <= brk h2) F'.
Proof using All.
  destruct (ho_base _ _ _ I) as (F0 & EF0 & _). destruct (ho_range _ _ _ I) as (_ & R2 & _). destruct block_facts as (_ & Hlo & _).
  assert (Hhead : exists F'', F1 ++ N ++ F2' = (BASE, 0) :: F'').
  { rewrite EF in EF0. destruct F1 as [|b F1']; injection EF0 as E0 _; [|rewrite E0; by eexists].
    destruct M as [[E ->]|[E ->]]; [rewrite E0 in E; unfold HDR in *; simpl in *; lia|rewrite E0; by eexists]. }
  destruct Hhead as (F'' & EH). exists F''. split; [done|]. pose proof merged_sorted as Hsort. rewrite EH in Hsort. apply StronglySorted_inv in Hsort as [_ Hsort].
  rewrite Forall_forall in Hsort |- *. intros b Hb. apply merged_pos; [rewrite EH; by constructor|].
  intros ->. specialize (Hsort _ Hb). unfold before in Hsort. simpl in Hsort. lia.
Qed.
Lemma merged_path : path h2 (F1 ++ N ++ F2').*1 BASE.
Proof using All.
  destruct path_parts as (C1 & _ & C2). destruct (jo_rest _ _ _ J) as (M0 & EM & _). rewrite !fmap_app, !path_app.
  assert (Hhd : hd BASE (N.*1 ++ F2'.*1) = p.1) by (by destruct M as [[_ ->]|[_ ->]]). rewrite Hhd. split_and!; [|done|].
  - eapply path_frame; [|exact C1]. intros x Hx. apply list_elem_of_fmap in Hx as (b & -> & Hb). destruct (merged_old b (or_introl Hb)) as (_ & ? & ?). by apply Hkeep.
  - rewrite EM, fmap_app, path_app in C2. eapply path_frame; [|exact (proj2 C2)]. intros x Hx. apply list_elem_of_fmap in Hx as (b & -> & Hb).
    destruct (merged_old b (or_intror Hb)) as (_ & ? & ?). by apply Hkeep.
Qed.
Lemma merged_total : total (F1 ++ N ++ F2') (delete bp A) = total F A.
Proof using All.
  destruct (jo_rest _ _ _ J) as (M0 & EM & Hsum). rewrite (sum_delete _ _ _ _ Hbp), EF, EM, !sum_app, sum_cons, sum_app.
  assert (Hs : forall (bs : list (Z * Z)) z, foldr (fun b n => b.2 + n) z bs = foldr (fun b n => b.2 + n) 0 bs + z) by (intros bs z; induction bs; simpl; lia).
  rewrite Hs in Hsum. destruct M as [[_ ->]|[_ ->]]; simpl; lia.
Qed.
Lemma merged_ok : heap_ok h2 (F1 ++ N ++ F2') (delete bp A).
Proof using All.
  destruct low_p as (Hl & Hp & Hpb). destruct (free_nonneg p Hp) as [_ Hp2]. split.
  - exact merged_base.
  - exact merged_sorted.
  - destruct merged_base as (F' & E & _). pose proof merged_path as Hc. rewrite E in Hc |- *. by apply circle_path.
  - rewrite Hfp, !fmap_app, !elem_of_app. right. left. destruct M as [[_ ->]|[_ ->]]; set_solver.
  - intros a t Hat. rewrite !elem_of_app in Hat. destruct Hat as [Ha|[Ha|Ha]]; [|by apply HsN|];
      destruct (merged_old (a, t)) as (HaF & N1 & N2); try tauto; rewrite (proj2 (Hkeep a N1 N2)); by apply (ho_fsize _ _ _ I).
  - intros a t Ha. apply lookup_delete_Some in Ha as [Hne Ha]. destruct (ho_asize _ _ _ I a t Ha) as (Hs & Hr). rewrite Hbrk. split; [|done].
    enough (Hap1 : a <> p.1) by (by rewrite (proj2 (Hkeep a (not_eq_sym Hne) Hap1))). pose proof (ho_apart _ _ _ I a t p Ha Hp) as Hap. destruct (ho_range _ _ _ I) as (_ & R2 & _).
    destruct (free_pos p Hp) as [E|Hpp]; [rewrite E; simpl; unfold HDR in *; lia|]. unfold apart, HDR in *. simpl in *. lia.
  - intros a t b Ha Hb. apply lookup_delete_Some in Ha as [Hne Ha]. destruct (ho_asize _ _ _ I a t Ha) as (_ & _ & Ht & _).
    assert (Hold : b ∈ F -> apart (a, t) b) by (intros; by apply (ho_apart _ _ _ I)). rewrite !elem_of_app in Hb. destruct Hb as [Hb|[Hb|Hb]].
    + apply Hold, (merged_old b (or_introl Hb)).
    + pose proof (jo_apart _ _ _ J a t Ha ltac:(done)) as Hab. destruct (jo_end _ _ _ J) as [Hss _]. destruct block_facts as (_ & _ & H1 & _).
      destruct (merged_new b Hb) as [->|[->|(E & -> & Hp1 & Hp3)]]; [by apply Hold|done|]. pose proof (ho_apart _ _ _ I a t p Ha Hp) as Hap. unfold apart, HDR in *. simpl in *. lia.
    + apply Hold, (merged_old b (or_intror Hb)).
  - intros a t b u Ha Hb. apply lookup_delete_Some in Ha as [_ Ha], Hb as [_ Hb]. by apply (ho_alone _ _ _ I).
  - rewrite merged_total, Hbrk. apply (ho_total _ _ _ I).
  - rewrite Hbrk. apply (ho_range _ _ _ I).
Qed.
End merge.

Definition freed h2 : Prop := exists F', heap_ok h2 F' (delete bp A) /\ (length F' <= S (length F))%nat /\ brk h2 = brk h /\
  exists x, x ∈ F' /\ x.1 <= bp /\ bp + HDR * s <= x.1 + HDR * x.2.
Lemma join_down h1 s' F2' : joined h1 s' F2' -> runs
  (psize <- gets (fun h => size_of h p.1) ;;
   (if p.1 + HDR * psize =? bp then
      bsize <- gets (fun h => size_of h bp) ;;
      modify (set_size p.1 (psize + bsize)) ;;;
      bptr <- gets (fun h => ptr_of h bp) ;;
      modify (set_ptr p.1 bptr)
    else modify (set_ptr p.1 bp)) ;;;
   modify (fun h => h <| freep := p.1 |>)) h1 (fun _ h2 => freed h2).
Proof using All.
  intros J. destruct low_p as (Hl & Hp & Hpb). destruct (free_nonneg p Hp) as [_ Hp2]. pose proof (jo_ptr _ _ _ J) as J1. pose proof (jo_size _ _ _ J) as J2.
  destruct (jo_state _ _ _ J) as [Jb Jf]. destruct (jo_end _ _ _ J) as [Hss Hse]. destruct (jo_rest _ _ _ J) as (M0 & EM & _).
  destruct block_facts as (_ & Hlo & H1 & _). destruct (ho_range _ _ _ I) as (R1 & R2 & R3).
  assert (Hlen : (length (F1 ++ p :: F2') <= length F)%nat) by (rewrite EF, EM, !length_app; simpl; rewrite length_app; lia). rewrite length_app in Hlen. simpl in Hlen.
  assert (Hps : size_of h1 p.1 = p.2) by (rewrite J2 by lia; apply (ho_fsize _ _ _ I); by destruct p).
  apply runs_bind, runs_gets. rewrite Hps. apply runs_bind. destruct (Z.eqb_spec (p.1 + HDR * p.2) bp) as [E|E].
  - apply runs_bind, runs_gets, runs_bind, runs_modify, runs_bind, runs_gets, runs_modify, runs_modify. rewrite (jo_bsize _ _ _ J), ptr_set_size, (jo_bptr _ _ _ J).
    set (h2 := setf freep _ _). exists (F1 ++ [(p.1, p.2 + s')] ++ F2'). split; [|split_and!; [rewrite !length_app; simpl; lia|done|]].
    + apply (merged_ok h1 h2 s' F2' [(p.1, p.2 + s')] J); [by left| |done|done| |]; unfold h2.
      * intros x Hx Hxp. headers. rewrite !decide_False by done. auto.
      * split; [|done]. headers. simpl. by rewrite decide_True.
      * intros a t Hat. apply list_elem_of_singleton in Hat as [= -> ->]. headers. rewrite decide_True by done. apply u32_small.
        destruct (free_nonneg p Hp). unfold HDR in *. lia.
    + exists (p.1, p.2 + s'). split; [set_solver|]. simpl. unfold HDR in *. lia.
  - apply runs_modify, runs_modify. set (h2 := setf freep _ _). exists (F1 ++ [p; (bp, s')] ++ F2'). split; [|split_and!; [rewrite !length_app; simpl; lia|done|]].
    + apply (merged_ok h1 h2 s' F2' [p; (bp, s')] J); [right; split; [lia|done]| |done|done| |]; unfold h2.
      * intros x Hx Hxp. headers. rewrite decide_False by done. auto.
      * split; [headers; by rewrite decide_True|]. split; [headers; rewrite decide_False by (simpl; lia); apply (jo_bptr _ _ _ J)|done].
      * intros a t Hat. headers. apply elem_of_cons in Hat as [Hat|Hat]; [rewrite <- Hat in Hps; exact Hps|].
        apply list_elem_of_singleton in Hat as [= -> ->]. apply (jo_bsize _ _ _ J).
    + exists (bp, s'). split; [set_solver|]. simpl. unfold HDR in *. lia.
Qed.
End facts.

(** free of an allocated block. *)
Lemma free_run h F A bp s fuel : heap_ok h F A -> A !! bp = Some s -> (length F < fuel)%nat -> runs (free fuel (bp + HDR)) h (fun _ h' => freed h F A bp s h').
Proof.
  intros I Hbp Hfuel. destruct (place h F A I bp s Hbp) as (F1 & p & F2 & EF & Hlow & Hhigh).
  destruct (ho_asize _ _ _ I bp s Hbp) as (_ & _ & Hs & _). destruct (low_p h F A I bp s Hbp F1 p F2 EF Hlow Hhigh) as (_ & _ & Hpb).
  unfold free. replace (bp + HDR - HDR) with bp by lia. apply runs_bind, runs_gets. apply runs_bind.
  apply (runs_ok _ _ _ p.1 h); [by apply (free_place_run h F A I bp s F1 p F2)|].
  apply runs_bind, runs_gets, runs_bind, runs_gets. destruct (path_parts h F A I F1 p F2 EF) as (_ & -> & _).
  destruct (block_facts h F A I bp s Hbp) as (-> & _). apply runs_bind.
  eapply runs_conseq; [exact (join_up h F A I bp s Hbp F1 p F2 EF Hlow Hhigh)|]. intros [] h1 (s' & F2' & J).
  exact (join_down h F A I bp s Hbp F1 p F2 EF Hlow Hhigh h1 s' F2' J).
Qed.

(** *** Taking a block *)

Section take.
Context h F A (I : heap_ok h F A) (G1 : list (Z * Z)) (y : Z * Z) (a sz : Z) (G2 : list (Z * Z)) (EF : F = G1 ++ y :: (a, sz) :: G2) (n : Z) (Hn : 1 <= n <= sz).

(** The end of the block is taken; what is left of it stays free. *)
Definition taken : Z := a + HDR * (sz - n).
Definition rest_of : list (Z * Z) := if decide (sz = n) then [] else [(a, sz - n)].

Lemma here : (a, sz) ∈ F /\ y ∈ F /\ lo <= a /\ a + HDR * sz <= brk h.
Proof using All.
  assert (H1 : (a, sz) ∈ F) by (rewrite EF; set_solver). assert (H2 : y ∈ F) by (rewrite EF; set_solver). split; [done|]. split; [done|].
  destruct (free_pos h F A I (a, sz) H1) as [E|Hp]; [|simpl in Hp; lia]. exfalso. destruct (ho_base _ _ _ I) as (F' & E' & _). rewrite E, E' in *.
  destruct G1 as [|b G1']; simpl in EF; injection EF as E1 E2.
  - pose proof (ho_sorted _ _ _ I) as Hs. rewrite E2 in Hs. apply StronglySorted_inv in Hs as [_ Hs]. apply Forall_cons in Hs as [Hs _].
    injection E as -> ->. unfold before in Hs. simpl in Hs. lia.
  - pose proof (ho_sorted _ _ _ I) as Hs. rewrite E2 in Hs. apply StronglySorted_inv in Hs as [_ Hs]. rewrite Forall_forall in Hs. specialize (Hs (a, sz) ltac:(set_solver)).
    injection E as -> ->. unfold before in Hs. simpl in Hs. lia.
Qed.
Lemma rest_in b : b ∈ rest_of -> b = (a, sz - n) /\ n < sz.
Proof using All. unfold rest_of. case_decide; [set_solver|]. intros Hb. apply list_elem_of_singleton in Hb. split; [done|lia]. Qed.
Lemma taken_range : a <= taken /\ taken + HDR * n = a + HDR * sz.
Proof using All. unfold taken, HDR. lia. Qed.
Lemma taken_new : A !! taken = None.
Proof using All.
  destruct (A !! taken) as [t|] eqn:E; [|done]. exfalso. destruct here as (Ha & _). pose proof (ho_apart _ _ _ I _ _ _ E Ha) as Hap.
  destruct (ho_asize _ _ _ I _ _ E) as (_ & _ & Ht & _). unfold apart, taken, HDR in *. simpl in *. lia.
Qed.
Lemma taken_sorted : StronglySorted before (G1 ++ y :: rest_of ++ G2).
Proof using All.
  pose proof (ho_sorted _ _ _ I) as Hs. rewrite EF in Hs. apply StronglySorted_app in Hs as (S1 & S2 & S3). apply StronglySorted_inv in S3 as [S3 S4]. apply StronglySorted_inv in S3 as [S3 S5].
  rewrite Forall_forall in S4, S5. assert (Hb : forall x, before x (a, sz) -> before x (a, sz - n)) by done.
  apply StronglySorted_app. split_and!; [|done|constructor].
  - intros x z Hx Hz. apply elem_of_cons in Hz as [->|Hz]; [apply S1; [done|set_solver]|]. apply elem_of_app in Hz as [Hz|Hz]; [|apply S1; [done|set_solver]].
    destruct (rest_in z Hz) as [-> _]. apply Hb, S1; [done|set_solver].
  - unfold rest_of. case_decide; [done|]. constructor; [done|]. apply Forall_forall. intros z Hz. specialize (S5 z Hz). unfold before, HDR in *. simpl in *. lia.
  - apply Forall_forall. intros z Hz. apply elem_of_app in Hz as [Hz|Hz]; [|apply S4; set_solver]. destruct (rest_in z Hz) as [-> _]. apply Hb, S4. set_solver.
Qed.
Lemma taken_old b : b ∈ G1 ++ y :: rest_of ++ G2 -> b ∈ F /\ b.1 <> a \/ b = (a, sz - n) /\ n < sz.
Proof using All.
  intros Hb. rewrite elem_of_app, elem_of_cons, elem_of_app in Hb. assert (Hold : b ∈ G1 \/ b = y \/ b ∈ G2 -> b ∈ F /\ b.1 <> a).
  { intros Ho. split; [rewrite EF; set_solver|]. pose proof (sorted_nodup h F A I) as Hnd. rewrite EF, fmap_app in Hnd. simpl in Hnd.
    apply NoDup_app in Hnd as (_ & D1 & D2). apply NoDup_cons in D2 as [D2 D3]. apply NoDup_cons in D3 as [D3 _].
    intros E. destruct Ho as [Ho|[->|Ho]]; [apply (D1 b.1); [by apply list_elem_of_fmap_2|rewrite E; set_solver]|rewrite E in D2; set_solver|].
    apply D3. rewrite <- E. by apply list_elem_of_fmap_2. }
  destruct Hb as [Hb|[Hb|[Hb|Hb]]]; [left; auto|left; auto|right; by apply rest_in|left; auto].
Qed.

Section after.
Context (h' : heap) (Hptr : forall x, x <> y.1 -> ptr_of h' x = ptr_of h x) (Hy : ptr_of h' y.1 = hd BASE (rest_of ++ G2).*1).
Context (Hsize : forall x, x <> a -> x <> taken -> size_of h' x = size_of h x) (Ht : size_of h' taken = n) (Ha : n < sz -> size_of h' a = sz - n).
Context (Hbrk : brk h' = brk h) (Hfp : freep h' = y.1).

Lemma taken_path : path h' (G1 ++ y :: rest_of ++ G2).*1 BASE.
Proof using All.
  pose proof (path_F h F A I) as Hp. pose proof (sorted_nodup h F A I) as Hnd. rewrite EF, fmap_app, path_app in Hp. rewrite EF, fmap_app in Hnd. simpl in Hp, Hnd.
  destruct Hp as (P1 & P2 & P3 & P4). apply NoDup_app in Hnd as (_ & D1 & D2). apply NoDup_cons in D2 as [D2 D3].
  rewrite fmap_app, path_app. split; [|split].
  - eapply path_frame; [|exact P1]. intros x Hx. apply Hptr. intros ->. apply (D1 _ Hx). by constructor.
  - exact Hy.
  - assert (Hg : path h' G2.*1 BASE) by (eapply path_frame; [|exact P4]; intros x Hx; apply Hptr; intros ->; apply D2; by constructor).
    unfold rest_of. case_decide; [done|]. split; [|done]. simpl. rewrite Hptr; [done|]. intros E. apply D2. rewrite <- E. by constructor.
Qed.
Lemma taken_base : exists F', G1 ++ y :: rest_of ++ G2 = (BASE, 0) :: F' /\ Forall (fun b => lo <= b.1 /\ 1 <= b.2 /\ b.1 + HDR * b.2 <= brk h') F'.
Proof using All.
  destruct (ho_base _ _ _ I) as (F0 & E0 & _). assert (Hh : exists F', G1 ++ y :: rest_of ++ G2 = (BASE, 0) :: F').
  { rewrite EF in E0. destruct G1; injection E0 as E0 _; rewrite E0; by eexists. }
  destruct Hh as (F' & EH). exists F'. split; [done|]. pose proof taken_sorted as Hs. rewrite EH in Hs. apply StronglySorted_inv in Hs as [_ Hs]. rewrite Forall_forall in Hs |- *.
  intros b Hb. assert (Hne : b <> (BASE, 0)) by (intros ->; specialize (Hs _ Hb); unfold before in Hs; simpl in Hs; lia).
  rewrite Hbrk. destruct (taken_old b) as [[HbF _]|[-> Hlt]]; [rewrite EH; by constructor|by destruct (free_pos h F A I b HbF)|].
  destruct here as (_ & _ & H1 & H2). simpl. unfold HDR in *. lia.
Qed.
Lemma taken_ok : heap_ok h' (G1 ++ y :: rest_of ++ G2) (<[taken := n]> A).
Proof using All.
  destruct here as (HaF & HyF & Hlo & Hend). destruct taken_range as [Hle Hte]. pose proof taken_new as Hnew. split.
  - exact taken_base.
  - exact taken_sorted.
  - destruct taken_base as (F' & E & _). pose proof taken_path as Hp. rewrite E in Hp |- *. by apply circle_path.
  - rewrite Hfp, fmap_app. set_solver.
  - intros b u Hb. destruct (taken_old _ Hb) as [[HbF Hba]|[[= -> ->] Hlt]]; [|by apply Ha]. simpl in Hba. rewrite Hsize; [by apply (ho_fsize _ _ _ I)|done|].
    intros E. destruct (sorted_gap h F A I (b, u) (a, sz) HbF HaF Hba) as [Hb1|Hb1]; unfold before, taken, HDR in *; simpl in *;
      destruct (free_nonneg h F A I _ HbF); simpl in *; lia.
  - intros b u Hb. rewrite Hbrk. apply lookup_insert_Some in Hb as [[<- <-]|[Hne Hb]]; [split; [done|lia]|].
    destruct (ho_asize _ _ _ I b u Hb) as (Hs & Hr). split; [|done]. rewrite Hsize; [done| |done]. intros ->.
    pose proof (ho_apart _ _ _ I _ _ _ Hb HaF) as Hap. unfold apart, HDR in *. simpl in *. lia.
  - intros b u c Hb Hc. apply lookup_insert_Some in Hb as [[<- <-]|[Hne Hb]].
    + destruct (taken_old c Hc) as [[HcF Hca]|[-> Hlt]]; [|unfold apart, taken, HDR in *; simpl in *; lia]. destruct (free_nonneg h F A I _ HcF).
      destruct (sorted_gap h F A I c (a, sz) HcF HaF Hca) as [Hb1|Hb1]; unfold apart, before, taken, HDR in *; simpl in *; lia.
    + destruct (taken_old c Hc) as [[HcF _]|[-> Hlt]]; [by apply (ho_apart _ _ _ I)|]. pose proof (ho_apart _ _ _ I _ _ _ Hb HaF) as Hap. unfold apart, HDR in *. simpl in *. lia.
  - intros b u c w Hb Hc Hne. pose proof (fun b u Hb => ho_apart _ _ _ I b u (a, sz) Hb HaF) as Hap.
    apply lookup_insert_Some in Hb as [[<- <-]|[Hnb Hb]], Hc as [[<- <-]|[Hnc Hc]]; [done| | |by apply (ho_alone _ _ _ I)].
    + specialize (Hap c w Hc). unfold apart, HDR in *. simpl in *. lia.
    + specialize (Hap b u Hb). unfold apart, HDR in *. simpl in *. lia.
  - rewrite (sum_insert _ _ _ _ Hnew), Hbrk, <- (ho_total _ _ _ I), EF, !sum_app, !sum_cons, sum_app. f_equal. unfold rest_of. case_decide; simpl; lia.
  - rewrite Hbrk. apply (ho_range _ _ _ I).
Qed.
End after.
End take.

Definition got A (n : Z) (r : Z) h' : Prop :=
  exists x F', r = x + HDR /\ A !! x = None /\ heap_ok h' F' (<[x := n]> A).
Lemma take_run h F A a sz prevp n : heap_ok h F A -> (a, sz) ∈ F -> prevp ∈ F.*1 -> ptr_of h prevp = a -> 1 <= n <= sz -> runs
  (p <- (if sz =? n then
           q <- gets (fun h => ptr_of h a) ;;
           modify (set_ptr prevp q) ;;;
           mret a
         else
           modify (set_size a (sz - n)) ;;;
           size <- gets (fun h => size_of h a) ;;
           let p := a + HDR * size in
           modify (set_size p n) ;;;
           mret p) ;;
   modify (fun h => h <| freep := prevp |>) ;;;
   mret (p + HDR)) h (got A n).
Proof.
  intros I HaF Hprev Hpa Hn. assert (exists G1 y G2, F = G1 ++ y :: (a, sz) :: G2) as (G1 & y & G2 & EF).
  { destruct (ho_base _ _ _ I) as (F' & E & _). rewrite E in HaF |- *. apply elem_of_cons in HaF as [[= _ ->]|HaF]; [lia|].
    apply list_elem_of_split in HaF as (X & Y & ->). destruct X as [|z X _] using rev_ind; [by exists [], (BASE, 0), Y|].
    exists ((BASE, 0) :: X), z, Y. simpl. by rewrite <- app_assoc. }
  pose proof (ho_circle _ _ _ I) as Hc. pose proof (sorted_nodup h F A I) as Hnd.
  assert (Hya : ptr_of h y.1 = a) by (rewrite EF, fmap_app in Hc; simpl in Hc; by eapply circle_next).
  assert (prevp = y.1) as ->.
  { apply (circle_inj h F.*1); [done|done|done| |congruence]. rewrite EF, fmap_app. set_solver. }
  assert (Hpy : ptr_of h a = hd BASE G2.*1).
  { pose proof (path_F h F A I) as Hp. rewrite EF, fmap_app, path_app in Hp. simpl in Hp. tauto. }
  destruct (here h F A I G1 y a sz G2 EF n Hn) as (_ & HyF & Hlo & Hend). destruct (ho_range _ _ _ I) as (R1 & R2 & R3).
  assert (Hay : a <> y.1).
  { rewrite EF, fmap_app in Hnd. simpl in Hnd. apply NoDup_app in Hnd as (_ & _ & D). apply NoDup_cons in D as [D _]. intros E. apply D. rewrite <- E. by constructor. }
  apply runs_bind. destruct (Z.eqb_spec sz n) as [E|E].
  - apply runs_bind, runs_gets, runs_bind, runs_modify, runs_ret, runs_bind, runs_modify, runs_ret. set (h' := setf freep _ _).
    assert (Et : taken a sz n = a) by (unfold taken, HDR; lia). exists a, (G1 ++ y :: rest_of a sz n ++ G2). split; [done|].
    pose proof (taken_new h F A I G1 y a sz G2 EF n Hn) as Hnew. rewrite Et in Hnew. split; [done|]. rewrite <- Et at 2.
    apply (taken_ok h F A I G1 y a sz G2 EF n Hn h'); unfold h'; rewrite ?Et; [intros x Hx; headers; by rewrite decide_False| | |headers| |done|done].
    + headers. rewrite decide_True by done. unfold rest_of. by rewrite decide_True.
    + intros x _ _. by headers.
    + rewrite (ho_fsize _ _ _ I a sz HaF). lia.
    + lia.
  - apply runs_bind, runs_modify, runs_bind, runs_gets. assert (Eu : u32 (sz - n) = sz - n) by (apply u32_small; unfold HDR in *; lia).
    assert (Es : size_of (set_size a (sz - n) h) a = sz - n) by (headers; by rewrite decide_True). rewrite Es. fold (taken a sz n).
    apply runs_bind, runs_modify, runs_ret, runs_bind, runs_modify, runs_ret. set (h' := setf freep _ _).
    exists (taken a sz n), (G1 ++ y :: rest_of a sz n ++ G2). split; [done|]. split; [exact (taken_new h F A I G1 y a sz G2 EF n Hn)|].
    assert (Hta : taken a sz n <> a) by (unfold taken, HDR; lia). assert (En : u32 n = n) by (apply u32_small; unfold HDR in *; lia).
    apply (taken_ok h F A I G1 y a sz G2 EF n Hn h'); unfold h'; [intros x Hx; by headers| | |headers| |done|done].
    + headers. unfold rest_of. by rewrite decide_False.
    + intros x Hx Hx'. headers. by rewrite !decide_False.
    + by rewrite decide_True.
    + intros _. headers. by rewrite decide_False, decide_True.
Qed.
End inv.
