(* ===== verification/UmallocSpec.v ===== *)
(** * malloc and free

    malloc goes round the circle of free blocks once; if no block is large enough it asks the
    kernel for more memory and goes on, and then it finds one before it is round again.  The
    theorems say that malloc and free end and keep the heap well formed. *)

From S2P Require Import Prelude Umalloc UmallocProps.

Implicit Types (h : heap) (l : list Z) (F : list (Z * Z)) (A : gmap Z Z).

Section spec.
Context (BASE limit lo : Z).
Notation heap_ok := (heap_ok BASE limit lo).
Notation loop := (malloc_loop limit).

(** The search along the nodes [l], the last of which is freep. *)
Lemma scan h (n : Z) (depth fuel : nat) l : forall prevp q : Z, path h (l ++ [freep h]) q -> freep h ∉ l ->
  let s := l ++ [freep h] in
  (exists s1 x s2, s = s1 ++ x :: s2 /\ n <= size_of h x /\
     loop (length s + fuel) depth n prevp (hd 0 s) h = loop (S (length s2 + fuel)) depth n (default prevp (last s1)) x h) \/
  (Forall (fun x => size_of h x < n) s /\
     loop (length s + fuel) depth n prevp (hd 0 s) h =
       (p <- morecore limit depth n ;; if p =? 0 then mret 0 else q <- gets (fun h => ptr_of h p) ;; loop fuel depth n p q) h).
Proof.
  induction l as [|x l IH]; intros prevp q Hp Hfp; cbv zeta.
  - destruct (decide (n <= size_of h (freep h))) as [Hle|Hlt].
    + left. by exists [], (freep h), [].
    + right. split; [constructor; [lia|constructor]|]. change (length ([] ++ [freep h]) + fuel)%nat with (S fuel). cbn [malloc_loop app hd].
      unfold mbind at 1, gets at 1. destruct (Z.leb_spec n (size_of h (freep h))) as [|_]; [lia|]. unfold mbind at 1, gets at 1. by rewrite Z.eqb_refl.
  - apply not_elem_of_cons in Hfp as [Hx Hfp]. destruct (decide (n <= size_of h x)) as [Hle|Hlt].
    + left. by exists [], x, (l ++ [freep h]).
    + destruct Hp as [Hpx Hp]. change (length ((x :: l) ++ [freep h]) + fuel)%nat with (S (length (l ++ [freep h]) + fuel)).
      assert (Hstep : loop (S (length (l ++ [freep h]) + fuel)) depth n prevp x h = loop (length (l ++ [freep h]) + fuel) depth n x (hd 0 (l ++ [freep h])) h).
      { cbn [malloc_loop]. unfold mbind at 1, gets at 1. destruct (Z.leb_spec n (size_of h x)) as [|_]; [lia|]. unfold mbind at 1, gets at 1.
        destruct (Z.eqb_spec x (freep h)) as [|_]; [done|]. unfold mbind, gets. rewrite Hpx. by destruct l. }
      cbn [app hd]. rewrite Hstep. destruct (IH x q Hp Hfp) as [(s1 & y & s2 & E & Hy & Hrun)|[Hall Hrun]].
      * left. exists (x :: s1), y, s2. split; [by rewrite E|]. split; [done|]. rewrite Hrun. f_equal. by destruct s1 as [|z s1 _] using rev_ind; rewrite ?last_cons, ?last_snoc.
      * right. split; [by constructor; [lia|]|done].
Qed.

Lemma path_pred h s1 : forall x s2 prevp q, path h (s1 ++ x :: s2) q -> ptr_of h prevp = hd 0 (s1 ++ x :: s2) -> ptr_of h (default prevp (last s1)) = x.
Proof.
  induction s1 as [|y s1 _] using rev_ind; intros x s2 prevp q Hp Hprev; [done|]. rewrite last_snoc. simpl.
  rewrite <- app_assoc, path_app in Hp. by destruct Hp as [_ [Hp _]].
Qed.

(** One turn round the circle, from the block after freep. *)
Lemma search h F A n depth fuel : heap_ok h F A -> 1 <= n ->
  runs (loop (length F + fuel) depth n (freep h) (ptr_of h (freep h))) h (got BASE limit lo A n) \/
  Forall (fun b => b.2 < n) F /\ loop (length F + fuel) depth n (freep h) (ptr_of h (freep h)) h =
    (p <- morecore limit depth n ;; if p =? 0 then mret 0 else q <- gets (fun h => ptr_of h p) ;; loop fuel depth n p q) h.
Proof.
  intros I Hn. pose proof (ho_freep _ _ _ _ _ _ I) as Hfp. pose proof (sorted_nodup _ _ _ h F A I) as Hnd. pose proof (ho_circle _ _ _ _ _ _ I) as Hc.
  apply list_elem_of_split in Hfp as (l1 & l2 & El). set (l := l2 ++ l1). assert (HP : Permutation F.*1 (l ++ [freep h])).
  { rewrite El. transitivity ((freep h :: l2) ++ l1); [apply Permutation_app_comm|]. apply (Permutation_cons_append (l2 ++ l1)). }
  assert (Hc1 : circle h (freep h :: l)) by (rewrite El in Hc; by apply circle_rotate in Hc).
  assert (Hstart : ptr_of h (freep h) = hd 0 (l ++ [freep h])).
  { apply (circle_path h) in Hc1 as [Hs _]. rewrite Hs. by destruct l. }
  pose proof (circle_rotate1 _ _ _ Hc1) as Hc2. assert (exists q, path h (l ++ [freep h]) q) as [q Hp].
  { destruct (l ++ [freep h]) as [|z s] eqn:Es; [by exists 0|]. exists z. by apply circle_path. }
  assert (Hnotin : freep h ∉ l). { rewrite HP in Hnd. apply NoDup_app in Hnd as (_ & D & _). intros Hin. apply (D _ Hin). by constructor. }
  assert (Hlen : length F = length (l ++ [freep h])) by (rewrite <- HP; by rewrite length_fmap). rewrite Hlen, Hstart.
  assert (HinF : forall x, x ∈ l ++ [freep h] -> exists s, (x, s) ∈ F /\ size_of h x = s).
  { intros x Hx. rewrite <- HP in Hx. apply list_elem_of_fmap in Hx as ([x' s] & -> & Hx). exists s. split; [done|]. by apply (ho_fsize _ _ _ _ _ _ I). }
  destruct (scan h n depth fuel l (freep h) q Hp Hnotin) as [(s1 & x & s2 & Es & Hx & Hrun)|[Hall Hrun]].
  - left. unfold runs. rewrite Hrun. set (prevp := default (freep h) (last s1)).
    assert (Hpx : ptr_of h prevp = x). { rewrite Es in Hp, Hstart. by eapply path_pred. }
    assert (Hprev : prevp ∈ F.*1).
    { rewrite HP. unfold prevp. destruct s1 as [|z s1 _] using rev_ind; [simpl; set_solver|]. rewrite last_snoc, Es. simpl. set_solver. }
    destruct (HinF x) as (sz & HxF & Esz); [rewrite Es; set_solver|]. rewrite Esz in Hx.
    pose proof (take_run _ _ _ h F A x sz prevp n I HxF Hprev Hpx ltac:(lia)) as Htake.
    cbn [malloc_loop]. unfold mbind at 1, gets at 1. rewrite Esz. destruct (Z.leb_spec n sz) as [_|]; [|lia]. exact Htake.
  - right. split; [|exact Hrun]. apply Forall_forall. intros [x s] Hb. rewrite Forall_forall in Hall. rewrite <- (ho_fsize _ _ _ _ _ _ I x s Hb). simpl. apply Hall.
    rewrite <- HP. apply list_elem_of_fmap. by exists (x, s).
Qed.

(** The memory sbrk gives is a new allocated block until morecore frees it. *)
Lemma grow_ok h F A nu : heap_ok h F A -> 1 <= nu -> brk h + HDR * nu <= limit ->
  heap_ok (set_size (brk h) nu (h <| brk := brk h + HDR * nu |>)) F (<[brk h := nu]> A) /\ A !! brk h = None.
Proof.
  intros I Hnu Hlim. set (b := brk h) in *. set (h' := set_size _ _ _). destruct (ho_range _ _ _ _ _ _ I) as (R1 & R2 & R3 & R4).
  assert (HF : forall x, x ∈ F -> x.1 < b /\ x.1 + HDR * x.2 <= b).
  { intros x Hx. destruct (free_pos _ _ _ h F A I x Hx) as [->|Hp]; unfold b, HDR in *; simpl; lia. }
  assert (HA : forall a s, A !! a = Some s -> a < b /\ a + HDR * s <= b). { intros a s Ha. destruct (ho_asize _ _ _ _ _ _ I a s Ha). unfold b, HDR in *. lia. }
  assert (Hnew : A !! b = None). { destruct (A !! b) as [s|] eqn:E; [|done]. apply HA in E. lia. }
  assert (Hsize : forall x, x <> b -> size_of h' x = size_of h x). { intros x Hx. unfold h'. rewrite size_set_size, decide_False by done. done. }
  assert (Hptr : forall x, ptr_of h' x = ptr_of h x) by (intros x; unfold h'; by rewrite ptr_set_size). split; [|done]. split.
  - destruct (ho_base _ _ _ _ _ _ I) as (F' & E & HF'). exists F'. split; [done|]. eapply Forall_impl; [exact HF'|]. simpl. intros x Hx. unfold b, HDR in *. lia.
  - apply (ho_sorted _ _ _ _ _ _ I).
  - eapply circle_frame; [|apply (ho_circle _ _ _ _ _ _ I)]. done.
  - apply (ho_freep _ _ _ _ _ _ I).
  - intros a s Ha. destruct (HF _ Ha) as [Hlt _]. simpl in Hlt. rewrite Hsize by lia. by apply (ho_fsize _ _ _ _ _ _ I).
  - intros a s Ha. change (brk h') with (b + HDR * nu). apply lookup_insert_Some in Ha as [[<- <-]|[Hne Ha]].
    + split; [|unfold b in *; lia]. unfold h'. rewrite size_set_size, decide_True by done. apply u32_small. unfold b, HDR in *. lia.
    + destruct (HA _ _ Ha) as [Hlt _]. rewrite Hsize by lia. destruct (ho_asize _ _ _ _ _ _ I a s Ha). unfold b, HDR in *. lia.
  - intros a s x Ha Hx. destruct (HF x Hx) as [H1 H2]. apply lookup_insert_Some in Ha as [[<- <-]|[Hne Ha]]; [right; done|by apply (ho_apart _ _ _ _ _ _ I)].
  - intros a s c u Ha Hc Hne. apply lookup_insert_Some in Ha as [[<- <-]|[Hna Ha]], Hc as [[<- <-]|[Hnc Hc]]; [done| | |by apply (ho_alone _ _ _ _ _ _ I)].
    + right. apply HA in Hc. simpl. lia.
    + left. apply HA in Ha. simpl. lia.
  - rewrite sum_insert by done. change (brk h') with (b + HDR * nu). pose proof (ho_total _ _ _ _ _ _ I). unfold b, HDR in *. lia.
  - change (brk h') with (b + HDR * nu). unfold b, HDR in *. lia.
Qed.

Definition core_units (n : Z) : Z := Z.max n 4096.
Lemma morecore_run h F A n depth : heap_ok h F A -> 1 <= n -> HDR * core_units n < 2 ^ 31 -> (length F < depth)%nat ->
  runs (morecore limit depth n) h (fun p h' =>
    p = 0 /\ h' = h /\ limit < brk h + HDR * core_units n \/
    p = freep h' /\ p <> 0 /\ exists F', heap_ok h' F' A /\ (length F' <= S (length F))%nat /\ exists b, b ∈ F' /\ n <= b.2).
Proof.
  intros I Hn Hsmall Hdepth. unfold morecore. replace (if n <? 4096 then 4096 else n) with (core_units n) by (unfold core_units; destruct (Z.ltb_spec n 4096); lia).
  set (nu := core_units n) in *. assert (Hnu : n <= nu) by (unfold nu, core_units; lia). destruct (ho_range _ _ _ _ _ _ I) as (R1 & R2 & R3 & R4).
  apply runs_bind. unfold sbrk. apply runs_bind, runs_gets. rewrite i32_small by (unfold HDR in *; lia). replace (nu * HDR) with (HDR * nu) by lia.
  destruct (Z.ltb_spec (brk h + HDR * nu) 0) as [|_]; [unfold HDR in *; lia|]. destruct (Z.ltb_spec limit (brk h + HDR * nu)) as [Hlim|Hlim]; cbn [orb].
  - apply runs_ret, runs_ret. left. split_and!; [done|done|lia].
  - apply runs_bind, runs_modify, runs_ret. destruct (Z.eqb_spec (brk h) (-1)) as [|_]; [unfold HDR in *; lia|]. apply runs_bind, runs_modify.
    destruct (grow_ok h F A nu I ltac:(lia) Hlim) as [I1 Hnew]. apply runs_bind.
    eapply runs_conseq; [apply (free_run _ _ _ _ _ _ (brk h) nu depth I1); [apply lookup_insert_eq|done]|].
    intros [] h2 (F' & I2 & Hlen & _ & b & Hb & Hb1 & Hb2). apply runs_gets. right. split; [done|]. rewrite delete_insert_id in I2 by done.
    split; [|exists F'; split; [done|]; split; [done|]; exists b; split; [done|unfold HDR in *; lia]].
    pose proof (ho_freep _ _ _ _ _ _ I2) as Hfp. apply list_elem_of_fmap in Hfp as (c & -> & Hc). destruct (free_nonneg _ _ _ _ _ _ I2 c Hc). lia.
Qed.

(** A heap before the first call of malloc. *)
Definition fresh_heap h : Prop :=
  hdrs h = ∅ /\ freep h = 0 /\ brk h = lo /\ 0 < BASE /\ BASE + HDR <= lo /\ lo <= limit /\ limit < 2 ^ 31.
Definition heap_inv h F A : Prop := heap_ok h F A \/ fresh_heap h /\ F = [(BASE, 0)] /\ A = ∅.

Lemma fresh_start h : fresh_heap h -> heap_ok (set_size BASE 0 (set_ptr BASE BASE (h <| freep := BASE |>))) [(BASE, 0)] ∅.
Proof.
  intros (E1 & E2 & E3 & R1 & R2 & R3 & R4). set (h1 := set_ptr BASE BASE (h <| freep := BASE |>)). split; simpl; try done.
  - by exists [].
  - by repeat constructor.
  - unfold circle. simpl. rewrite ptr_set_size. unfold h1. rewrite ptr_set_ptr, decide_True by done. done.
  - by constructor.
  - intros a s Ha. apply list_elem_of_singleton in Ha as [= -> ->]. by rewrite size_set_size, decide_True.
  - change (total [(BASE, 0)] ∅) with 0. unfold set_size, h1. simpl. lia.
  - rewrite E3. lia.
Qed.

(** No block is large enough, and the kernel refuses more memory. *)
Definition exhausted h F (n : Z) : Prop := Forall (fun b => b.2 < n) F /\ limit < brk h + HDR * core_units n.
Lemma loop_run h F A n fuel : heap_ok h F A -> 1 <= n -> HDR * core_units n < 2 ^ 31 -> (2 * length F + 1 <= fuel)%nat ->
  runs (loop fuel fuel n (freep h) (ptr_of h (freep h))) h (fun r h' => r = 0 /\ exhausted h F n /\ h' = h \/ got BASE limit lo A n r h').
Proof.
  intros I Hn Hsmall Hfuel. assert (HF : (1 <= length F)%nat). { destruct (ho_base _ _ _ _ _ _ I) as (F' & -> & _). simpl. lia. }
  destruct (search h F A n fuel (fuel - length F) I Hn) as [Hrun|[Hall Hrun]]; replace (length F + (fuel - length F))%nat with fuel in Hrun by lia.
  - eapply runs_conseq; [exact Hrun|]. intros r h' Hg. by right.
  - unfold runs. rewrite Hrun. apply runs_bind. eapply runs_conseq; [apply (morecore_run h F A n fuel I Hn Hsmall); lia|].
    intros p h1 [(-> & -> & Hlim)|(-> & Hp0 & F' & I1 & Hlen & b & Hb & Hbn)]; [apply runs_ret; left; done|].
    destruct (Z.eqb_spec (freep h1) 0) as [|_]; [done|]. apply runs_bind, runs_gets.
    destruct (search h1 F' A n fuel (fuel - length F - length F') I1 Hn) as [Hrun1|[Hall1 _]].
    + replace (length F' + (fuel - length F - length F'))%nat with (fuel - length F)%nat in Hrun1 by lia.
      eapply runs_conseq; [exact Hrun1|]. intros r h' Hg. by right.
    + rewrite Forall_forall in Hall1. specialize (Hall1 b Hb). simpl in Hall1. lia.
Qed.

Lemma nunits_bound nbytes : 0 <= nbytes <= 2 ^ 30 -> 1 <= nunits_of nbytes /\ nbytes <= HDR * (nunits_of nbytes - 1) /\ HDR * core_units (nunits_of nbytes) < 2 ^ 31.
Proof.
  intros Hn. unfold nunits_of. pose proof (Z.div_mod (nbytes + HDR - 1) HDR ltac:(done)) as Hd. pose proof (Z.mod_pos_bound (nbytes + HDR - 1) HDR ltac:(done)) as Hm.
  unfold HDR in *. rewrite u32_small by lia. unfold core_units. lia.
Qed.


(** C14. free: an allocated block given back makes the heap without it well formed again; its bytes are part of one free block, which
    has been merged with the free blocks that touched it; all other allocated blocks stay as they are.  The search for the block's
    place ends within one turn of the free list, wherever it starts. *)
Theorem free_releases h F A bp s fuel : heap_ok h F A -> A !! bp = Some s -> (length F < fuel)%nat ->
  runs (free fuel (bp + HDR)) h (fun _ h' => exists F', heap_ok h' F' (delete bp A) /\ (length F' <= S (length F))%nat /\
    exists x, x ∈ F' /\ x.1 <= bp /\ bp + HDR * s <= x.1 + HDR * x.2).
Proof.
  intros I Hbp Hfuel. eapply runs_conseq; [by apply (free_run BASE limit lo h F A bp s fuel)|]. intros [] h' (F' & I' & Hlen & _ & Hx). by exists F'.
Qed.
End spec.

(** The kernel's sbrk takes an int: for a request of almost 2^32 bytes the size in bytes wraps to zero, sbrk does not fail, and malloc
    returns a pointer to the end of the process's memory although no memory was added. *)
Theorem malloc_size_wraps : exists h', malloc 4096 (2 ^ 27) 5 (2 ^ 32 - 16) (Heap ∅ 0 8192) = Ok (8192 + HDR) h' /\ brk h' = 8192.
Proof. eexists. split; [vm_compute; reflexivity|reflexivity]. Qed.

Definition ex_heap : heap := Heap ∅ 0 8192.
Lemma ex_fresh : fresh_heap 4096 (2 ^ 27) 8192 ex_heap.
Proof. repeat split; unfold HDR; simpl; lia. Qed.

(** A heap with one block allocated, at the end of the memory. *)
Definition ex_heap2 : heap := Heap {[ 4096 := Header 8192 0; 8192 := Header 4096 4088; 73600 := Header 0 8 ]} 4096 73728.
Lemma ex_heap2_ok : heap_ok 4096 (2 ^ 27) 8192 ex_heap2 [(4096, 0); (8192, 4088)] {[ 73600 := 8 ]}.
Proof.
  split.
  - exists [(8192, 4088)]. split; [done|]. constructor; [simpl; unfold HDR; lia|done].
  - by repeat constructor.
  - reflexivity.
  - set_solver.
  - intros a s Ha. rewrite !elem_of_cons in Ha. destruct_or!; [..|by apply elem_of_nil in Ha]; injection Ha as -> ->; reflexivity.
  - intros a s Ha. apply lookup_singleton_Some in Ha as [<- <-]. split; [reflexivity|]. simpl. unfold HDR. lia.
  - intros a s b Ha Hb. apply lookup_singleton_Some in Ha as [<- <-]. right. rewrite !elem_of_cons in Hb. destruct_or!; [..|by apply elem_of_nil in Hb]; subst; simpl; unfold HDR; lia.
  - intros a s b t Ha Hb Hne. apply lookup_singleton_Some in Ha as [<- _], Hb as [<- _]. done.
  - reflexivity.
  - simpl. unfold HDR. lia.
Qed.
Lemma free_releases_witness : exists h' F', free 3 (73600 + HDR) ex_heap2 = Ok tt h' /\ heap_ok 4096 (2 ^ 27) 8192 h' F' (delete 73600 {[ 73600 := 8 ]}).
Proof.
  pose proof (free_releases 4096 (2 ^ 27) 8192 ex_heap2 _ _ 73600 8 3 ex_heap2_ok (lookup_singleton_eq _ _) ltac:(simpl; lia)) as H.
  apply runs_inv in H as ([] & h' & E & F' & I & _). exists h', F'. split; [exact E|exact I].
Defined.
